(* ===== verification/_CoqProject ===== *)
-Q . S2P
Prelude.v
Bus.v
Rings.v
RootCounters.v
MacroblockDecoder.v
Interpreter.v
DmaController.v
Memcard.v
SerialPort.v
SerialProtocol.v
SerialClock.v
Interrupts.v
Scheduler.v
CpuTiming.v
Board.v
Cdrom.v
CdromProtocol.v
CdromSafety.v
CdromStream.v
CdromDemo.v
Memory.v
MemoryLaws.v
MemoryDemo.v
Spu.v
SpuLaws.v
SpuRender.v
SpuVoices.v
SpuDemo.v
SwRenderer.v
SwLaws.v
SwSafety.v
SwLines.v
Gpu.v
GpuSoftware.v
GpuLaws.v
GpuStream.v
GpuPort.v
GpuSnapshot.v
GpuCalls.v
GpuSync.v
GpuWide.v
GpuDemo.v
