(* ===== verification/Prelude.v ===== *)
(** * Static PS1 recompiler runtime: a verification development

    The repository recompiles PlayStation programs to C and links them against
    a runtime, src/runtime/, that models the machine around the CPU.  This
    development models the C core of that runtime and proves what makes its
    parts correct.  Every definition is a translation of the C code named in its
    file, with the C integers as [Z] and their wrap-around written out ([u8],
    [u32], [s32] ... below); every operation is executable.

    ** Parts and files

    - Prelude.v (this file): record update, machine words, bit-field lemmas,
      bounded loops, arrays.
    - Bus.v: the calls a device makes out of its own file, [psx_irq_raise] of
      interrupts.c and the event ring, as a log replayed on I_STAT.
    - Rings.v: event_ring.c and device_trace.c, the two observability rings.
    - RootCounters.v (module Timers): timers.c, the three root counters.
    - MacroblockDecoder.v (Mdec): mdec.c, command interface, run-length decoder,
      inverse DCT, colour conversion, output port.
    - Interpreter.v (Interp): psx_interpreter.c, the oracle MIPS interpreter,
      over an interface to the bus and the coprocessor.
    - DmaController.v (Dma): dma.c, the seven channels, DICR, linked lists,
      ordering tables, delayed completions, over an interface to RAM and the
      devices at the other end of each channel.
    - Memcard.v (Memcard): memcard.c, the two card images and their files.
    - SerialPort.v (Sio): sio.c, controllers, memory-card protocol and the
      cycle-paced shifter, over Memcard.v; SerialProtocol.v (SioProtocol): whole
      transactions over the wire; SerialClock.v (SioClock): its event clock.
    - Interrupts.v (Irq): interrupts.c, VBlank pacing, delivery gates, exception
      entry and exit with setjmp and longjmp, nested deliveries.
    - Scheduler.v (Clock): psx_cycles.c, the guest clock and the event-deadline
      servicing of the devices, over the class [Devices] with [DeviceLaws].
    - CpuTiming.v (Timing): psx_cyc.h, psx_instr_cost.h, psx_icache.c, the
      mult/div and GTE deadlines of psx_cycles.c and the load costs of memory.c,
      over the class [GuestClock].
    - Board.v (Board): the root counters and the VBlank clock put together as
      [Devices], their [DeviceLaws], and the scheduler as [GuestClock].
    - Cdrom.v (Cdrom): cdrom.c, commands, responses, sector stream, XA audio, over
      the class [Iso] of the disc image; CdromProtocol.v (CdProtocol): responses
      and interrupts; CdromSafety.v (CdSafety): runs and their invariant, under
      [IsoLaws]; CdromStream.v (CdStream): reading the disc, resampling;
      CdromDemo.v (CdDemo): a concrete disc.
    - Memory.v (Mem): memory.c, address translation, loads and stores, the I/O
      window, the tracking of code written at run time, over the class [Devices];
      MemoryLaws.v (MemLaws): its theorems; MemoryDemo.v (MemDemo): concrete
      runs.
    - Spu.v (Spu): spu.c, voices, envelopes, mixer, CD ring, registers and
      transfers; SpuLaws.v (SpuLaws): the invariant, block decoding, the ring;
      SpuRender.v (SpuRender): the mixer and reachable states; SpuVoices.v
      (SpuVoices): envelopes, ADPCM, transfers; SpuDemo.v (SpuDemo): concrete
      runs.
    - SwRenderer.v (SwRenderer): gpu_sw_renderer.c, the software rasteriser, with
      C floats as binary32; SwLaws.v (SwLaws): frames of its operations and the
      independence of native video memory from mirror and wide surfaces;
      SwSafety.v (SwSafety): bounds, clipping and masking; SwLines.v (SwLines):
      Bresenham's loop, copies and transfers.
    - Gpu.v (Gpu): gpu.c, the GP0 and GP1 ports, GPUSTAT, GPUREAD, display,
      widescreen correction, snapshots, over the classes [Renderer] (the facade
      of gpu_render.h) and [Host]; GpuSoftware.v (GpuSoftware): gpu_render.c, the
      rasteriser as a [Renderer]; GpuLaws.v (GpuLaws): frames and the invariant;
      GpuStream.v (GpuStream): the GP0 stream as items; GpuPort.v (GpuPort):
      halts, image transfers, status and information, under [VramLaws];
      GpuSnapshot.v (GpuSnapshot): save and restore; GpuCalls.v (GpuCalls): what
      the ports draw, for any renderer with [Drawing], and memory safety of
      the software one; GpuSync.v (GpuSync): registers and renderer settings
      agree; GpuWide.v (GpuWide): the squash factor and the sprite-tag table;
      GpuDemo.v (GpuDemo): concrete runs.

    A component's state is a record with the C names of its static variables; a
    C function is a Rocq function of the same name from state to state (with a
    result, an option for an abort or a list of bus calls where it has them); C
    switch cases and long bodies are named helpers called in the C order.  Code
    of another component is reached through a class (the members are the C
    functions called) or through the component's own file.

    ** What the theorems show

    - Rings: a readback of a ring returns exactly the newest events.
    - Timers: batched advances equal single ticks; slicing does not matter; the
      announced distance to the next interrupt is safe and tight; one-shot mode;
      the invariant of every reachable state.
    - Mdec: decoding refines a direct reference decoder; the cursors stay in
      their buffers in every reachable state; the output port is a FIFO; the
      inverse DCT does not overflow.
    - Interp: a step request returns, and what its count counts (a taken branch and
      its delay slot are one round); unaligned accesses, multiplication and
      division, traps, load delays, termination of an instruction.
    - Dma: deadline safety, edge and acknowledge of DICR, ordering tables are
      valid empty lists, exact delayed completion, termination of list walks on
      every RAM content.
    - Memcard and Sio: a cleared dirty flag is durable on disk; reading and
      writing a sector over the wire, and the round trip; refusal of a bad
      checksum; pad polls; the transmit queue; the port's clock is additive;
      memory safety of every reachable state.
    - Cdrom: a guest that reads through the command interface gets the disc's
      sectors in order; a response is never replaced before it is acknowledged;
      it raises one interrupt, exactly when its presentation delay runs out;
      buffers and cursors stay in bounds; the resampler is linear interpolation.
    - Irq: an interrupt is transparent to the code it interrupts; VBlank pacing
      loses no cycle and no frame; a nested delivery breaks the handler it
      interrupts (a defect of the code).
    - Clock: over devices that keep [DeviceLaws] (the root counters and the VBlank
      clock do; the serial port and the CD-ROM controller do not), the event-deadline
      fast path shows the guest the same clock, I_STAT, register values and devices
      as stepping every device one cycle at a time.
    - Timing: what a load costs and gives back, overlap of multiplications and
      divisions, refinement of the instruction cache to a cache of lines.

    - Mem: the accesses refine a plain byte memory through every mirror and
      segment and stay in their arrays; the interrupt registers change in the
      stored lanes only; compiled text never runs over bytes that differ from
      it; page generations count the stores into watched pages.

    - Spu: buffers and cursors stay in bounds in every reachable state; an
      envelope reaches full level or silence; a block decodes to the ADPCM
      recurrence; the CD ring is a bounded queue; the block size of the host
      does not matter; the mix is exact up to four inputs and overflows beyond
      (a defect of the code).
    - SwRenderer: native video memory does not depend on the supersampled mirror
      and the wide surfaces, as long as the blending and modulation a reveal tile
      overwrites are set again before they are used; every drawing
      primitive stays in the draw area and spares masked pixels; a line ends after max(|dx|, |dy|) steps at its end
      point; a copy moves exactly its rectangle.
    - Gpu: the words on GP0 are a sequence of items, commands, images and
      polylines, each carried out when its last word arrives, on every
      interleaving with reads and GP1; no word and no call of the host drives the
      rasteriser outside its arrays, mirror and wide surfaces included; the port
      halts for an exact set of opcodes; an uploaded image, as the text translation
      leaves it, is read back; GPUSTAT is the word of the registers; the renderer's
      clip, offset, mask and window follow the registers; a polling guest is given a blank; a snapshot restores every
      register; settings read back through GP1(10h); the table of sprite tags
      answers with the last anchor announced for a primitive.

    ** Bounds and fuel

    C loops are [pwhile] with a binary fuel, or [forZ] for counted loops; each
    bound is explained where it is used and proved sufficient by the theorems
    that go through [pwhile_spec] (a variant below the fuel makes the loop end
    with its condition false): 2^32 for the timers' and the serial port's event
    loops, whose rounds consume at least a cycle; the frame limit for the XA
    resampler, a frame per round; 2^64 for the catch-up of the
    scheduler; 7609 for the VBlank loop, since 2^32 / 564480 < 7609; 0x40002
    nodes for a DMA list, the code's own limit; 8 rounds for the position loop
    of a voice, which takes at most 7; 0x30000003 levels of
    [exec_one], the words from 0 to KSEG2 and three more, since a branch in the
    delay slot of a branch recurses and KSEG2 reads as NOPs
    ([Interp.interp_step_contract]; two levels for an instruction and a delay slot
    without a branch); [line_fuel] rounds of Bresenham's loop, the
    longer side of the line, after which [SwLines.line_loop_ends] shows it ended;
    64 divisions for the common divisor of the aspect, where 63 are enough below
    2^31 ([GpuWide.euclid_ends]).

    ** Not modelled

    - The float audio shadow (spu_shadow.c, off by default), and the OpenGL and
      Vulkan back ends with their shaders and the colour table of the screen
      filters (driver calls).
    - The static recompiler and the GTE (C++); the overlay loader and JIT
      (shared-library loading, compiler processes); the dirty-RAM interpreter,
      traps and fibers (setjmp over host stacks); save-state files, the host
      front end, debug_server.c and the diagnostic rings (host
      I/O that observes the machine); the vendored libraries.
    - Inside the modelled files: builds with PSX_COSIM or without
      PSX_ENABLE_BLOCK_CYCLES or the cycle-paced serial port, lockstep replay
      hooks and debug-server taps, diagnostic getters that only copy state out, the fiber switch of
      deferred_exception_longjmp, the load of a save state from savestate_poll
      and sio_card_burst_drain; in gpu.c the upload, read and command histories, the draw
      census, the debug override of the backdrop gate, and the per-game column
      reveal and backdrop streaming, which write only their own tables or act through the class [Host]. *)

From Stdlib Require Export ZArith Lia Bool Btauto.
From stdpp Require Export base list list_numbers decidable tactics relations gmap.

#[export] Set Default Goal Selector "!".
Global Open Scope Z_scope.

(** ** Record update

    [s <| f := v |>] is the record [s] with field [f] replaced.  A record type
    opts in with one [Eta] instance listing its projections. *)

Class Eta (R : Type) := eta : R -> R.

Class Upd {R E : Type} (proj : R -> E) := upd : E -> R -> R.
Arguments upd {R E} proj {Upd} v r /.

Ltac derive_upd R E proj :=
  let v := fresh "v" in let r := fresh "r" in intros v r;
  let inst := constr:(_ : Eta R) in
  let h := eval hnf in inst in
  let body := eval cbv beta in (h r) in
  lazymatch eval pattern (proj r) in body with
  | ?f _ => let t := eval cbv beta in (f v) in exact t
  end.

#[export] Hint Extern 1 (@Upd ?R ?E ?proj) => derive_upd R E proj : typeclass_instances.

Notation "s <| f := v |>" := (upd f v s)
  (at level 1, left associativity, f at level 9, v at level 200,
   format "s  <| f  :=  v |>").

(** ** Machine words

    A w-bit unsigned integer is a [Z]; every conversion or wrapping operation
    of the C code is written out with one of these casts. *)

Definition u8 (x : Z) : Z := x mod 0x100.
Definition u16 (x : Z) : Z := x mod 0x10000.
Definition u32 (x : Z) : Z := x mod 0x100000000.
Definition u64 (x : Z) : Z := x mod 0x10000000000000000.

Definition s8 (x : Z) : Z := (x + 0x80) mod 0x100 - 0x80.
Definition s16 (x : Z) : Z := (x + 0x8000) mod 0x10000 - 0x8000.
Definition s32 (x : Z) : Z := (x + 0x80000000) mod 0x100000000 - 0x80000000.

Definition is_u8 (x : Z) : Prop := 0 <= x < 0x100.
Definition is_u16 (x : Z) : Prop := 0 <= x < 0x10000.
Definition is_u32 (x : Z) : Prop := 0 <= x < 0x100000000.
Definition is_u64 (x : Z) : Prop := 0 <= x < 0x10000000000000000.

(** [lia] with division and modulo by constants. *)
Ltac dlia := Z.to_euclidean_division_equations; lia.

Lemma u8_range x : 0 <= u8 x < 0x100.
Proof. unfold u8. dlia. Qed.
Lemma u16_range x : 0 <= u16 x < 0x10000.
Proof. unfold u16. dlia. Qed.
Lemma u32_range x : 0 <= u32 x < 0x100000000.
Proof. unfold u32. dlia. Qed.
Lemma u64_range x : 0 <= u64 x < 0x10000000000000000.
Proof. unfold u64. dlia. Qed.
Lemma u8_id x : 0 <= x < 0x100 -> u8 x = x.
Proof. unfold u8. dlia. Qed.
Lemma u16_id x : 0 <= x < 0x10000 -> u16 x = x.
Proof. unfold u16. dlia. Qed.
Lemma u32_id x : 0 <= x < 0x100000000 -> u32 x = x.
Proof. unfold u32. dlia. Qed.
Lemma u64_id x : 0 <= x < 0x10000000000000000 -> u64 x = x.
Proof. unfold u64. dlia. Qed.
Lemma s32_range x : -0x80000000 <= s32 x < 0x80000000.
Proof. unfold s32. dlia. Qed.
Lemma s16_range x : -0x8000 <= s16 x < 0x8000.
Proof. unfold s16. dlia. Qed.
Lemma s32_id x : -0x80000000 <= x < 0x80000000 -> s32 x = x.
Proof. unfold s32. dlia. Qed.
Lemma s16_id x : -0x8000 <= x < 0x8000 -> s16 x = x.
Proof. unfold s16. dlia. Qed.
Lemma u32_u32 x : u32 (u32 x) = u32 x.
Proof. unfold u32. dlia. Qed.

Create HintDb words.
Create Rewrite HintDb words.
#[export] Hint Resolve u8_range u16_range u32_range u64_range s32_range s16_range : words.
#[export] Hint Rewrite u8_id u16_id u32_id u64_id s32_id s16_id using lia : words.

(** C truth of the expression [x & m]. *)
Definition has (x m : Z) : bool := negb (Z.land x m =? 0).

(** C integer value of a boolean expression. *)
Definition b2z (b : bool) : Z := if b then 1 else 0.

#[export] Instance eq_dec_Z_bool (x y : Z) : Decision (x = y) := Z.eq_dec x y.

#[global] Arguments Z.testbit : simpl never.
#[global] Arguments Z.land : simpl never.
#[global] Arguments Z.lor : simpl never.
#[global] Arguments Z.lxor : simpl never.
#[global] Arguments Z.ldiff : simpl never.
#[global] Arguments Z.shiftl : simpl never.
#[global] Arguments Z.shiftr : simpl never.
#[global] Arguments Z.modulo : simpl never.
#[global] Arguments Z.div : simpl never.
#[global] Arguments Z.add : simpl never.
#[global] Arguments Z.sub : simpl never.
#[global] Arguments Z.mul : simpl never.
#[global] Arguments Z.opp : simpl never.
#[global] Arguments Z.pow : simpl never.
#[global] Arguments Z.leb : simpl never.
#[global] Arguments Z.ltb : simpl never.
#[global] Arguments Z.eqb : simpl never.
#[global] Arguments Z.min : simpl never.
#[global] Arguments Z.max : simpl never.
#[global] Arguments Z.of_nat : simpl never.
#[global] Arguments Z.to_nat : simpl never.
#[global] Arguments Z.to_pos : simpl never.

(** ** Bit lemmas *)

Lemma has_pow2 x n : 0 <= n -> has x (2 ^ n) = Z.testbit x n.
Proof.
  intros Hn. unfold has.
  destruct (Z.testbit x n) eqn:E.
  - apply negb_true_iff, Z.eqb_neq. intros H.
    assert (Z.testbit (Z.land x (2 ^ n)) n = true) as T.
    { rewrite Z.land_spec, Z.pow2_bits_true by done. by rewrite E. }
    rewrite H, Z.bits_0 in T. done.
  - apply negb_false_iff, Z.eqb_eq. apply Z.bits_inj'. intros i Hi.
    rewrite Z.land_spec, Z.bits_0.
    destruct (decide (i = n)) as [->|].
    + by rewrite E.
    + rewrite Z.pow2_bits_false by lia. apply andb_false_r.
Qed.

Lemma has_shift x n : 0 <= n -> has x (Z.shiftl 1 n) = Z.testbit x n.
Proof. intros Hn. rewrite Z.shiftl_1_l. by apply has_pow2. Qed.

(** Push [Z.testbit] through the bitwise operations. *)
Create Rewrite HintDb zbits.
#[export] Hint Rewrite Z.land_spec Z.lor_spec Z.lxor_spec Z.ldiff_spec
  Z.bits_0 andb_false_r andb_true_r orb_false_r orb_true_r : zbits.
#[export] Hint Rewrite Z.shiftr_spec using lia : zbits.

Lemma testbit_bounded x w i : 0 <= x < 2 ^ w -> 0 <= w <= i -> Z.testbit x i = false.
Proof.
  intros Hx Hi. rewrite <- (Z.mod_small x (2 ^ w)) by done.
  apply Z.mod_pow2_bits_high. lia.
Qed.

Lemma bounded_testbit x w :
  0 <= w -> 0 <= x -> (forall i, w <= i -> Z.testbit x i = false) -> x < 2 ^ w.
Proof.
  intros Hw Hx H.
  destruct (Z.eq_dec x 0) as [->|]; [apply Z.pow_pos_nonneg; lia|].
  destruct (Z.lt_ge_cases x (2 ^ w)) as [|Hge]; [done|exfalso].
  assert (w <= Z.log2 x) as Hl by (apply Z.log2_le_pow2; lia).
  specialize (H _ Hl). rewrite Z.bit_log2 in H by lia. done.
Qed.

Lemma lor_range w x y :
  0 <= w -> 0 <= x < 2 ^ w -> 0 <= y < 2 ^ w -> 0 <= Z.lor x y < 2 ^ w.
Proof.
  intros Hw Hx Hy. split; [apply Z.lor_nonneg; lia|].
  apply bounded_testbit; [done|apply Z.lor_nonneg; lia|].
  intros i Hi. rewrite Z.lor_spec.
  by rewrite !(testbit_bounded _ w) by lia.
Qed.

Lemma land_range_r w x y : 0 <= w -> 0 <= y < 2 ^ w -> 0 <= Z.land x y < 2 ^ w.
Proof.
  intros Hw Hy. assert (0 <= Z.land x y) as H0 by (apply Z.land_nonneg; lia).
  split; [done|]. apply bounded_testbit; [done|done|].
  intros i Hi. rewrite Z.land_spec, (testbit_bounded y w) by lia. apply andb_false_r.
Qed.

Lemma land_range_l w x y : 0 <= w -> 0 <= x < 2 ^ w -> 0 <= Z.land x y < 2 ^ w.
Proof. intros. rewrite Z.land_comm. by apply land_range_r. Qed.

Lemma ldiff_range w x y : 0 <= w -> 0 <= x < 2 ^ w -> 0 <= Z.ldiff x y < 2 ^ w.
Proof.
  intros Hw Hx. assert (0 <= Z.ldiff x y) as H0 by (apply Z.ldiff_nonneg; lia).
  split; [done|]. apply bounded_testbit; [done|done|].
  intros i Hi. rewrite Z.ldiff_spec, (testbit_bounded x w) by lia. done.
Qed.

Lemma lxor_range w x y :
  0 <= w -> 0 <= x < 2 ^ w -> 0 <= y < 2 ^ w -> 0 <= Z.lxor x y < 2 ^ w.
Proof.
  intros Hw Hx Hy.
  assert (0 <= Z.lxor x y) as H0 by (apply Z.lxor_nonneg; lia).
  split; [done|]. apply bounded_testbit; [done|done|].
  intros i Hi. rewrite Z.lxor_spec. by rewrite !(testbit_bounded _ w) by lia.
Qed.

(** Evaluate the bits of closed constants. *)
Ltac const_bits :=
  repeat match goal with
  | |- context [Z.testbit ?m ?n] =>
      let closed := constr:(ltac:(clear; exact (Z.testbit m n)) : bool) in
      let b := eval vm_compute in (Z.testbit m n) in
      change (Z.testbit m n) with b
  end.

(** A bit of a word built by masking operations with constant masks. *)
Ltac tb := cbn; autorewrite with zbits; const_bits; autorewrite with zbits; cbn; try done; try btauto.

(** Masking with 2^n-1 is reduction modulo 2^n. *)
Lemma land_1 x : Z.land x 1 = x mod 2.
Proof. exact (Z.land_ones x 1 ltac:(lia)). Qed.
Lemma land_3 x : Z.land x 3 = x mod 4.
Proof. exact (Z.land_ones x 2 ltac:(lia)). Qed.
Lemma land_7 x : Z.land x 7 = x mod 8.
Proof. exact (Z.land_ones x 3 ltac:(lia)). Qed.
Lemma land_0f x : Z.land x 0x0F = x mod 0x10.
Proof. exact (Z.land_ones x 4 ltac:(lia)). Qed.
Lemma land_1f x : Z.land x 0x1F = x mod 0x20.
Proof. exact (Z.land_ones x 5 ltac:(lia)). Qed.
Lemma land_3f x : Z.land x 0x3F = x mod 0x40.
Proof. exact (Z.land_ones x 6 ltac:(lia)). Qed.
Lemma land_ff x : Z.land x 0xFF = x mod 0x100.
Proof. exact (Z.land_ones x 8 ltac:(lia)). Qed.
Lemma land_ffff x : Z.land x 0xFFFF = x mod 0x10000.
Proof. exact (Z.land_ones x 16 ltac:(lia)). Qed.

Lemma land_ffffff x : Z.land x 0xFFFFFF = x mod 0x1000000.
Proof. exact (Z.land_ones x 24 ltac:(lia)). Qed.

(** Merging disjoint bit fields is addition; masking the high bits of a word
    drops the remainder. *)
Lemma lor_add k a b : 0 <= k -> 0 <= a < 2 ^ k -> Z.lor (b * 2 ^ k) a = b * 2 ^ k + a.
Proof.
  intros Hk Ha. assert (Z.land (b * 2 ^ k) a = 0) as H0.
  { apply Z.bits_inj'. intros i Hi. rewrite Z.land_spec, Z.bits_0.
    destruct (Z.lt_ge_cases i k).
    - by rewrite Z.mul_pow2_bits_low by lia.
    - rewrite (testbit_bounded a k) by lia. apply andb_false_r. }
  rewrite Z.add_nocarry_lxor by done. by rewrite Z.lxor_lor.
Qed.

Lemma land_high w k c :
  0 <= k <= w -> 0 <= c < 2 ^ w -> Z.land c (2 ^ w - 2 ^ k) = c / 2 ^ k * 2 ^ k.
Proof.
  intros Hk Hc. replace (2 ^ w - 2 ^ k) with (Z.shiftl (Z.ones (w - k)) k).
  - rewrite <- Z.shiftr_div_pow2, <- Z.shiftl_mul_pow2 by lia.
    apply Z.bits_inj'. intros i Hi. rewrite Z.land_spec, !Z.shiftl_spec by lia.
    destruct (Z.lt_ge_cases i k).
    + rewrite !(Z.testbit_neg_r _ (i - k)) by lia. apply andb_false_r.
    + rewrite Z.shiftr_spec by lia. replace (i - k + k) with i by lia.
      destruct (Z.lt_ge_cases i w).
      * rewrite Z.ones_spec_low by lia. apply andb_true_r.
      * rewrite (testbit_bounded c w) by lia. done.
  - rewrite Z.shiftl_mul_pow2, Z.ones_equiv by lia.
    replace (2 ^ w) with (2 ^ (w - k) * 2 ^ k) by (rewrite <- Z.pow_add_r by lia; f_equal; lia).
    lia.
Qed.

(** A field of a word, and clearing bit 1 of a low nibble. *)
Lemma land_field w k x : 0 <= k <= w -> Z.land x (2 ^ w - 2 ^ k) = (x / 2 ^ k) mod 2 ^ (w - k) * 2 ^ k.
Proof.
  intros H. rewrite <- Z.land_ones, <- Z.shiftr_div_pow2, <- Z.shiftl_mul_pow2 by lia.
  assert (2 ^ w - 2 ^ k = Z.shiftl (Z.ones (w - k)) k) as ->.
  { rewrite Z.shiftl_mul_pow2, Z.ones_equiv by lia. replace w with (w - k + k) at 1 by lia. rewrite Z.pow_add_r by lia. lia. }
  apply Z.bits_inj'. intros n Hn. rewrite Z.land_spec, !Z.shiftl_spec by lia.
  destruct (Z.ltb_spec n k).
  - rewrite !(Z.testbit_neg_r _ (n - k)) by lia. apply andb_false_r.
  - rewrite Z.land_spec, Z.shiftr_spec by lia. by replace (n - k + k) with n by lia.
Qed.

Lemma ldiff_low la c : 0 <= c < 16 -> Z.ldiff (la * 16 + c) 2 = la * 16 + Z.ldiff c 2.
Proof.
  intros H. change 16 with (2 ^ 4) in *. pose proof (ldiff_range 4 c 2 ltac:(lia) H).
  rewrite <- !lor_add by lia. rewrite <- Z.shiftl_mul_pow2 by lia.
  apply Z.bits_inj'. intros n Hn. rewrite Z.ldiff_spec, !Z.lor_spec, Z.ldiff_spec, Z.shiftl_spec by lia.
  destruct (Z.ltb_spec n 4).
  - rewrite (Z.testbit_neg_r la) by lia. btauto.
  - rewrite (testbit_bounded 2 4 n) by lia. btauto.
Qed.

(** ** Bounded C loops

    [pwhile p c b a] runs [while (c) b;] from [a] for at most [p] rounds.  The
    fuel is a binary [positive], so a bound such as 2^32 costs nothing when the
    loop stops early.  [pwhile_spec] is the total-correctness rule: a variant
    bounded by the fuel gives termination with the guard false. *)

Fixpoint nwhile {A} (n : nat) (c : A -> bool) (b : A -> A) (a : A) : A :=
  match n with
  | O => a
  | S n => if c a then nwhile n c b (b a) else a
  end.

Fixpoint pwhile {A} (p : positive) (c : A -> bool) (b : A -> A) (a : A) : A :=
  if c a then
    match p with
    | xH => b a
    | xO q => pwhile q c b (pwhile q c b a)
    | xI q => pwhile q c b (pwhile q c b (b a))
    end
  else a.

Section while.
Context {A : Type} (c : A -> bool) (b : A -> A).

Lemma nwhile_stop n a : c a = false -> nwhile n c b a = a.
Proof. intros H. destruct n; simpl; [done|]. by rewrite H. Qed.

Lemma nwhile_add n m a : nwhile (n + m) c b a = nwhile m c b (nwhile n c b a).
Proof.
  revert a. induction n as [|n IH]; intros a; simpl; [done|].
  destruct (c a) eqn:E; [apply IH|]. by rewrite nwhile_stop.
Qed.

Lemma pwhile_nwhile p a : pwhile p c b a = nwhile (Pos.to_nat p) c b a.
Proof.
  revert a. induction p as [p IH|p IH|]; intros a.
  - replace (Pos.to_nat p~1) with (S (Pos.to_nat p + Pos.to_nat p)) by lia. simpl.
    destruct (c a); [|done]. by rewrite !IH, nwhile_add.
  - replace (Pos.to_nat p~0) with (Pos.to_nat p + Pos.to_nat p)%nat by lia. simpl.
    rewrite nwhile_add, !IH. destruct (c a) eqn:E; [done|].
    by rewrite (nwhile_stop _ a E), (nwhile_stop _ a E).
  - change (Pos.to_nat 1) with 1%nat. simpl. by destruct (c a).
Qed.

(** Total correctness with an invariant and a variant. *)
Lemma pwhile_spec (I : A -> Prop) (m : A -> Z) p a :
  I a ->
  (forall x, I x -> c x = true -> I (b x) /\ m (b x) < m x) ->
  (forall x, I x -> c x = true -> 0 < m x) ->
  m a <= Zpos p ->
  I (pwhile p c b a) /\ c (pwhile p c b a) = false.
Proof.
  intros Ha Hstep Hpos Hm. rewrite pwhile_nwhile.
  assert (m a <= Z.of_nat (Pos.to_nat p)) as Hm' by lia. clear Hm.
  revert a Ha Hm'. generalize (Pos.to_nat p) as n.
  induction n as [|n IH]; intros a Ha Hm; simpl.
  - split; [done|]. destruct (c a) eqn:E; [|done]. specialize (Hpos a Ha E). lia.
  - destruct (c a) eqn:E; [|done].
    destruct (Hstep a Ha E) as [HI Hlt]. apply IH; [done|lia].
Qed.
End while.

(** Iterating a function a [Z] number of times. *)
Definition ziter {A} (f : A -> A) (n : Z) (a : A) : A := Nat.iter (Z.to_nat n) f a.

Lemma ziter_0 {A} (f : A -> A) a : ziter f 0 a = a.
Proof. done. Qed.

Lemma ziter_add {A} (f : A -> A) n m a :
  0 <= n -> 0 <= m -> ziter f (n + m) a = ziter f m (ziter f n a).
Proof.
  intros. unfold ziter. rewrite Z2Nat.inj_add, Nat.add_comm by lia. apply Nat.iter_add.
Qed.

Lemma ziter_S {A} (f : A -> A) n a : 0 <= n -> ziter f (n + 1) a = f (ziter f n a).
Proof. intros. by rewrite ziter_add by lia. Qed.

Lemma ziter_1 {A} (f : A -> A) a : ziter f 1 a = f a.
Proof. done. Qed.

(** Rule induction over [ziter]. *)
Lemma ziter_ind {A} (f : A -> A) (P : A -> Prop) n a :
  P a -> (forall x, P x -> P (f x)) -> P (ziter f n a).
Proof. intros Ha Hf. unfold ziter. induction (Z.to_nat n); simpl; auto. Qed.

Lemma seqZ_snoc lo n : 0 <= n -> seqZ lo (n + 1) = seqZ lo n ++ [lo + n].
Proof.
  intros Hn. by rewrite seqZ_app by lia.
Qed.

(** A decidable fact about a small range, by computation. *)
Lemma forallb_seqZ f lo n :
  forallb f (seqZ lo n) = true -> forall i, lo <= i < lo + n -> f i = true.
Proof.
  intros H i Hi. rewrite forallb_forall in H. apply H, list_elem_of_In, elem_of_seqZ. lia.
Qed.

(** [for (i = lo; i < hi; i++) a = f(i, a);] *)
Definition forZ {A} (lo hi : Z) (f : Z -> A -> A) (a : A) : A :=
  fold_left (fun a i => f i a) (seqZ lo (hi - lo)) a.

(** Invariant rule for counted loops. *)
Lemma forZ_ind {A} (P : Z -> A -> Prop) lo hi f a :
  lo <= hi -> P lo a -> (forall i x, lo <= i < hi -> P i x -> P (i + 1) (f i x)) ->
  P hi (forZ lo hi f a).
Proof.
  intros Hle Ha Hf. unfold forZ.
  assert (forall n lo a, lo + Z.of_nat n = hi -> P lo a ->
    (forall i x, lo <= i < hi -> P i x -> P (i + 1) (f i x)) ->
    P hi (fold_left (fun a i => f i a) (seqZ lo (Z.of_nat n)) a)) as H.
  { clear. induction n as [|n IH]; intros lo a Hlo Ha Hf.
    - simpl. by replace hi with lo by lia.
    - rewrite seqZ_cons by lia. simpl. replace (Z.pred (Z.of_nat (S n))) with (Z.of_nat n) by lia.
      apply IH; [lia| |].
      + replace (Z.succ lo) with (lo + 1) by lia. apply Hf; [lia|done].
      + intros i x Hi. apply Hf. lia. }
  specialize (H (Z.to_nat (hi - lo)) lo a). rewrite Z2Nat.id in H by lia.
  apply H; [lia|done|done].
Qed.

(** The same with an invariant that does not mention the counter. *)
Lemma forZ_inv {A} (P : A -> Prop) lo hi f a :
  P a -> (forall i x, lo <= i < hi -> P x -> P (f i x)) -> P (forZ lo hi f a).
Proof.
  intros Ha Hf. destruct (Z.le_gt_cases lo hi).
  - apply (forZ_ind (fun _ => P)); auto.
  - unfold forZ. by rewrite seqZ_nil by lia.
Qed.

#[global] Arguments pwhile : simpl never.
#[global] Arguments forZ : simpl never.

(** ** Arrays

    A C array of fixed length is a list; an out-of-range read cannot happen in
    the modelled code (the invariants show it) and reads 0. *)
Definition aget (l : list Z) (i : Z) : Z := nth (Z.to_nat i) l 0.
Definition aset (l : list Z) (i : Z) (v : Z) : list Z := <[Z.to_nat i := v]> l.

Lemma length_aset l i v : length (aset l i v) = length l.
Proof. apply length_insert. Qed.

Lemma nth_lookup_default (l : list Z) i : nth i l 0 = default 0 (l !! i).
Proof. revert i; induction l; intros [|i]; simpl; auto. Qed.

Lemma aget_aset_eq l i v : 0 <= i < Z.of_nat (length l) -> aget (aset l i v) i = v.
Proof.
  intros H. unfold aget, aset. rewrite nth_lookup_default, list_lookup_insert_eq by lia. done.
Qed.

Lemma aget_aset_ne l i j v : 0 <= i -> 0 <= j -> i <> j -> aget (aset l i v) j = aget l j.
Proof.
  intros. unfold aget, aset. rewrite !nth_lookup_default, list_lookup_insert_ne by lia. done.
Qed.

Lemma aget_Forall (P : Z -> Prop) l i : P 0 -> Forall P l -> P (aget l i).
Proof.
  intros H0 H. unfold aget. rewrite nth_lookup_default.
  destruct (l !! _) eqn:E; simpl; [|done]. by apply (Forall_lookup_1 _ _ _ _ H E).
Qed.

Lemma aset_Forall (P : Z -> Prop) l i v : P v -> Forall P l -> Forall P (aset l i v).
Proof. intros. by apply Forall_insert. Qed.

(** Filling an array in a counted loop, and in two nested ones, through an
    index function that hits every cell once. *)
Lemma forZ_aset (idx g : Z -> Z) lo hi a :
  lo <= hi ->
  (forall i, lo <= i < hi -> 0 <= idx i < Z.of_nat (length a)) ->
  (forall i j, lo <= i < hi -> lo <= j < hi -> idx i = idx j -> i = j) ->
  let a' := forZ lo hi (fun i a => aset a (idx i) (g i)) a in
  length a' = length a /\
  (forall i, lo <= i < hi -> aget a' (idx i) = g i) /\
  (forall k, 0 <= k -> (forall i, lo <= i < hi -> idx i <> k) -> aget a' k = aget a k).
Proof.
  intros Hle Hr Hinj.
  pose proof (forZ_ind (fun n x => length x = length a /\
    (forall i, lo <= i < n -> aget x (idx i) = g i) /\
    (forall k, 0 <= k -> (forall i, lo <= i < n -> idx i <> k) -> aget x k = aget a k))
    lo hi (fun i a => aset a (idx i) (g i)) a Hle) as H.
  apply H; clear H.
  - split; [done|]. split; [lia|done].
  - intros i x Hi (Hl & Hw & Ho). rewrite length_aset. split; [done|]. split.
    + intros j Hj. destruct (decide (j = i)) as [->|].
      * apply aget_aset_eq. rewrite Hl. auto.
      * pose proof (Hr i Hi). pose proof (Hr j ltac:(lia)).
        rewrite aget_aset_ne; [apply Hw; lia|lia|lia|].
        intros E. apply Hinj in E; lia.
    + intros k Hk Hne. pose proof (Hr i Hi). rewrite aget_aset_ne; [|lia|lia|apply Hne; lia].
      apply Ho; [done|]. intros j Hj. apply Hne. lia.
Qed.

Lemma forZ2_aset (idx g : Z -> Z -> Z) n m a :
  0 <= n -> 0 <= m ->
  (forall i j, 0 <= i < n -> 0 <= j < m -> 0 <= idx i j < Z.of_nat (length a)) ->
  (forall i j i' j', 0 <= i < n -> 0 <= j < m -> 0 <= i' < n -> 0 <= j' < m ->
     idx i j = idx i' j' -> i = i' /\ j = j') ->
  let a' := forZ 0 n (fun i a => forZ 0 m (fun j a => aset a (idx i j) (g i j)) a) a in
  length a' = length a /\
  (forall i j, 0 <= i < n -> 0 <= j < m -> aget a' (idx i j) = g i j).
Proof.
  intros Hn Hm Hr Hinj.
  pose proof (forZ_ind (fun k x => length x = length a /\
    (forall i j, 0 <= i < k -> 0 <= j < m -> aget x (idx i j) = g i j)) 0 n
    (fun i a => forZ 0 m (fun j a => aset a (idx i j) (g i j)) a) a Hn) as H.
  apply H; clear H; [split; [done|lia]|].
  intros i x Hi [Hl Hw].
  destruct (forZ_aset (idx i) (g i) 0 m x Hm) as (Hl' & Hw' & Ho').
  - intros j Hj. rewrite Hl. auto.
  - intros j j' Hj Hj' E. apply Hinj in E; lia.
  - rewrite Hl'. split; [done|]. intros i' j Hi' Hj.
    destruct (decide (i' = i)) as [->|]; [by apply Hw'|].
    rewrite Ho'; [apply Hw; lia|apply (Hr i' j); lia|].
    intros j' Hj' E. apply Hinj in E; lia.
Qed.

(** Sums of a counted loop stay within the sum of the bounds of the terms. *)
Lemma forZ_sum_bound (f : Z -> Z) b n k :
  0 <= k <= n -> (forall i, 0 <= i < n -> Z.abs (f i) <= b) ->
  Z.abs (forZ 0 k (fun i sum => sum + f i) 0) <= k * b.
Proof.
  intros Hk Hf. apply (forZ_ind (fun j sum => Z.abs sum <= j * b)); [lia|lia|].
  intros i x Hi Hx. specialize (Hf i ltac:(lia)). lia.
Qed.

(** The last round of a counted loop. *)
Lemma forZ_snoc {A} lo k (f : Z -> A -> A) a : lo <= k -> forZ lo (k + 1) f a = f k (forZ lo k f a).
Proof.
  intros H. unfold forZ. replace (k + 1 - lo) with ((k - lo) + 1) by lia. rewrite seqZ_snoc, fold_left_app by lia.
  cbn. by replace (lo + (k - lo)) with k by lia.
Qed.

Lemma forZ_ext {A} lo hi (f g : Z -> A -> A) a :
  (forall i x, lo <= i < hi -> f i x = g i x) -> forZ lo hi f a = forZ lo hi g a.
Proof.
  intros H. destruct (Z.le_gt_cases lo hi) as [Hle|].
  - apply (forZ_ind (fun k x => x = forZ lo k g a) lo hi f a Hle).
    + unfold forZ. by rewrite seqZ_nil by lia.
    + intros i x Hi ->. by rewrite H, forZ_snoc by lia.
  - unfold forZ. by rewrite !seqZ_nil by lia.
Qed.

#[global] Arguments aget : simpl never.
#[global] Arguments aset : simpl never.

(** ** Tactics *)

(** Destruct every boolean test of the goal, turning comparisons into
    propositions that [lia] can use. *)
Ltac btest :=
  repeat match goal with
  | H : context [Z.eqb ?a ?b] |- _ => destruct (Z.eqb_spec a b)
  | H : context [Z.ltb ?a ?b] |- _ => destruct (Z.ltb_spec a b)
  | H : context [Z.leb ?a ?b] |- _ => destruct (Z.leb_spec a b)
  | |- context [Z.eqb ?a ?b] => destruct (Z.eqb_spec a b)
  | |- context [Z.ltb ?a ?b] => destruct (Z.ltb_spec a b)
  | |- context [Z.leb ?a ?b] => destruct (Z.leb_spec a b)
  end.

(** Case on the condition of one [if] of the goal. *)
Ltac case_if :=
  match goal with
  | |- context [if ?b then _ else _] =>
      lazymatch type of b with
      | bool => let E := fresh "E" in destruct b eqn:E
      end
  end.
