(* ===== verification/Bus.v ===== *)
(** * The event bus

    The calls the device models make out of their own file: raising a bit of
    I_STAT through the central choke point [psx_irq_raise] of
    src/runtime/src/interrupts.c, and recording into the observability ring of
    src/runtime/src/event_ring.c.  A device operation appends them to a log,
    oldest first; [istat_after] replays a log on an I_STAT value. *)

From S2P Require Import Prelude.
From Stdlib Require Import Permutation.

(** A call of a device model to the rest of the runtime. *)
Inductive Ev :=
| IrqRaise (bit detail : Z)       (* psx_irq_raise(bit, detail) *)
| RingRec (kind detail aux : Z).  (* event_ring_record_aux(kind, detail, aux) *)

#[export] Instance Ev_eq_dec : EqDecision Ev.
Proof. solve_decision. Defined.

(** EventKind and EventSource codes of event_ring.h. *)
Definition EV_DMA_KICK := 5.
Definition EV_DMA_DONE := 6.
Definition EV_DMA_SCHED := 8.
Definition EV_ENQ := 9.
Definition EV_DEQ := 10.
Definition SRC_DMA0 := 1.
Definition SRC_CD_CMD := 17.
Definition SRC_CD_READ := 18.
Definition SRC_CD_IRQ := 19.
Definition SRC_CD_PEND := 20.
Definition SRC_TIMER0 := 24.
Definition SRC_SIO := 28.

Definition psx_irq_raise (i_stat bit : Z) : Z := Z.lor i_stat (Z.shiftl 1 bit).

Definition istat_step (i_stat : Z) (e : Ev) : Z :=
  match e with
  | IrqRaise bit _ => psx_irq_raise i_stat bit
  | RingRec _ _ _ => i_stat
  end.

Definition istat_after (l : list Ev) (i_stat : Z) : Z := fold_left istat_step l i_stat.

(** Does [e] raise bit [b] of I_STAT? *)
Definition raises (b : Z) (e : Ev) : bool :=
  match e with IrqRaise bit _ => bit =? b | RingRec _ _ _ => false end.

(** The interrupt raises of a log. *)
Definition is_raise (e : Ev) : bool :=
  match e with IrqRaise _ _ => true | RingRec _ _ _ => false end.
Definition raises_of (l : list Ev) : list Ev := List.filter is_raise l.

Lemma raises_of_app l1 l2 : raises_of (l1 ++ l2) = raises_of l1 ++ raises_of l2.
Proof. apply List.filter_app. Qed.

(** Every raise of the log is of a bit between 0 and 31. *)
Definition ev_ok (e : Ev) : Prop :=
  match e with IrqRaise bit _ => 0 <= bit < 32 | RingRec _ _ _ => True end.

Lemma istat_after_app l1 l2 i : istat_after (l1 ++ l2) i = istat_after l2 (istat_after l1 i).
Proof. apply fold_left_app. Qed.

Lemma psx_irq_raise_testbit i b n :
  0 <= b -> 0 <= n -> Z.testbit (psx_irq_raise i b) n = Z.testbit i n || (b =? n).
Proof.
  intros Hb Hn. unfold psx_irq_raise. rewrite Z.lor_spec, Z.shiftl_1_l. f_equal.
  by rewrite Z.pow2_bits_eqb.
Qed.

(** I_STAT after a log: a bit is set iff it was set or some call raised it. *)
Lemma istat_after_testbit l i n :
  Forall ev_ok l -> 0 <= n ->
  Z.testbit (istat_after l i) n = Z.testbit i n || existsb (raises n) l.
Proof.
  intros Hl Hn. revert i. induction Hl as [|e l He Hl IH]; intros i.
  - simpl. by rewrite orb_false_r.
  - change (istat_after (e :: l) i) with (istat_after l (istat_step i e)).
    rewrite IH. destruct e as [b d|k d a]; simpl; [|done].
    simpl in He. rewrite psx_irq_raise_testbit by lia. by rewrite orb_assoc.
Qed.

(** Raising is order-insensitive: permuted logs give the same I_STAT. *)
Lemma istat_after_perm l1 l2 i : Permutation l1 l2 -> istat_after l1 i = istat_after l2 i.
Proof.
  intros H. revert i. induction H; intros i.
  - done.
  - change (istat_after l (istat_step i x) = istat_after l' (istat_step i x)). apply IHPermutation.
  - change (istat_after l (istat_step (istat_step i y) x)
            = istat_after l (istat_step (istat_step i x) y)).
    f_equal. destruct x, y; simpl; try done. unfold psx_irq_raise.
    rewrite <- !Z.lor_assoc. f_equal. apply Z.lor_comm.
  - by rewrite IHPermutation1.
Qed.

Lemma existsb_app {A} (f : A -> bool) l1 l2 :
  existsb f (l1 ++ l2) = existsb f l1 || existsb f l2.
Proof. apply List.existsb_app. Qed.
