(* ===== verification/Rings.v ===== *)
(** * Always-on diagnostic rings

    The runtime records events into fixed-capacity rings indexed by a monotonic
    sequence number modulo the capacity.  [Ring] is the shared shape,
    [represents] its abstraction (the list of everything ever pushed) and
    [ring_push_represents] the refinement step.  The clients here are the
    event-timeline ring of src/runtime/src/event_ring.c and the device-event
    ring of src/runtime/src/device_trace.c; other devices keep their debug
    rings in the same type. *)

From S2P Require Import Prelude Bus.

Module Rings.

Record Ring (A : Type) := mkRing { slots : gmap Z A; seq : Z }.
Arguments mkRing {A} slots seq.
Arguments slots {A} r.
Arguments seq {A} r.

(** memset of the array and a zero sequence number. *)
Definition ring_empty {A} : Ring A := mkRing ∅ 0.

(** Store at the slot of the current sequence number, then advance it. *)
Definition ring_push {A} (cap : Z) (a : A) (r : Ring A) : Ring A :=
  mkRing (<[seq r mod cap := a]> (slots r)) (u64 (seq r + 1)).

(** The entry a reader finds for sequence number [n]. *)
Definition ring_at {A} (cap : Z) (r : Ring A) (n : Z) : option A := slots r !! (n mod cap).

(** The oldest sequence number still in the ring. *)
Definition ring_oldest {A} (cap : Z) (r : Ring A) : Z :=
  if cap <? seq r then seq r - cap else 0.

(** Reading sequence numbers [lo, hi). *)
Definition ring_read {A} (cap : Z) (r : Ring A) (lo hi : Z) : list A :=
  omap (ring_at cap r) (seqZ lo (hi - lo)).

(** [r] holds the history [h]: the last [cap] entries of it are readable. *)
Record represents {A} (cap : Z) (r : Ring A) (h : list A) : Prop := {
  rep_seq : seq r = Z.of_nat (length h);
  rep_at : forall n, ring_oldest cap r <= n < seq r -> ring_at cap r n = h !! Z.to_nat n;
}.

(** *** The event-timeline ring (event_ring.c) *)

Definition EVENT_RING_CAP := 0x10000.

Definition MODE_STATIC := 1.
Definition MODE_NATIVE_OVERLAY := 2.
Definition MODE_INTERP := 3.

(** The runtime globals an entry captures. *)
Record Env := mkEnv {
  env_cycle : Z;          (* psx_get_cycle_count() *)
  env_pc : Z;             (* g_debug_last_store_pc *)
  env_func : Z;           (* g_debug_current_func_addr *)
  env_inprogress : Z;     (* overlay_loader_get_inprogress() *)
  env_interp : bool;      (* dirty_ram_interp_is_active() *)
  env_i_stat : Z;
  env_i_mask : Z;
}.

Record EventEntry := mkEventEntry {
  ev_seq : Z; ev_cycle : Z; ev_pc : Z; ev_func : Z; ev_overlay_fn : Z;
  ev_i_stat : Z; ev_i_mask : Z; ev_aux : Z; ev_kind : Z; ev_mode : Z; ev_detail : Z
}.

Definition current_mode (e : Env) : Z :=
  if negb (env_inprogress e =? 0) then MODE_NATIVE_OVERLAY
  else if env_interp e then MODE_INTERP
  else MODE_STATIC.

(** [enabled]: the build sets EVENT_RING_ENABLED. *)
Definition event_ring_record_aux (enabled : bool) (e : Env) (kind detail aux : Z)
    (r : Ring EventEntry) : Ring EventEntry :=
  if enabled then
    ring_push EVENT_RING_CAP
      (mkEventEntry (seq r) (env_cycle e) (env_pc e) (env_func e) (env_inprogress e)
         (env_i_stat e) (env_i_mask e) aux kind (current_mode e) detail) r
  else r.

Definition event_ring_record (enabled : bool) (e : Env) (kind detail : Z)
    (r : Ring EventEntry) : Ring EventEntry :=
  event_ring_record_aux enabled e kind detail 0 r.

Definition event_ring_clear (r : Ring EventEntry) : Ring EventEntry := ring_empty.

(** The entries [event_ring_dump_file] prints, oldest first. *)
Definition event_ring_dump (r : Ring EventEntry) : list EventEntry :=
  let total := seq r in
  let start := if EVENT_RING_CAP <? total then total - EVENT_RING_CAP else 0 in
  ring_read EVENT_RING_CAP r start total.

(** *** The device-event ring (device_trace.c) *)

Definition DEVTRACE_RING_CAP := 0x100000.

Record DevEvent := mkDevEvent {
  dv_seq : Z; dv_cycle : Z; dv_frame : Z; dv_source : Z; dv_detail : Z
}.

Record DevTrace := mkDevTrace { dt_ring : Ring DevEvent; s_armed : Z }.
#[export] Instance eta_DevTrace : Eta DevTrace := fun r => mkDevTrace (dt_ring r) (s_armed r).

Definition device_trace_arm (on : Z) (s : DevTrace) : DevTrace :=
  s <| s_armed := if negb (on =? 0) then 1 else 0 |>.
Definition device_trace_reset (s : DevTrace) : DevTrace := s <| dt_ring := ring_empty |>.
Definition device_trace_is_armed (s : DevTrace) : Z := s_armed s.
Definition device_trace_total (s : DevTrace) : Z := seq (dt_ring s).

(** [cycle] and [frame] are parity_host_cycle() and parity_host_frame(). *)
Definition device_trace_note (cycle frame source detail : Z) (s : DevTrace) : DevTrace :=
  if s_armed s =? 0 then s else
  s <| dt_ring := ring_push DEVTRACE_RING_CAP
         (mkDevEvent (seq (dt_ring s)) cycle frame source detail) (dt_ring s) |>.

Definition device_trace_get (max_rows : Z) (s : DevTrace) : list DevEvent :=
  if max_rows =? 0 then [] else
  let total := seq (dt_ring s) in
  let avail := if total <? DEVTRACE_RING_CAP then u32 total else DEVTRACE_RING_CAP in
  let n := if avail <? max_rows then avail else max_rows in
  let start := total - n in
  ring_read DEVTRACE_RING_CAP (dt_ring s) start (start + n).

(** The central IRQ choke point as interrupts.c wires it: set the I_STAT bit
    and note the raise. *)
Definition psx_irq_raise_traced (cycle frame bit detail : Z) (w : Z * DevTrace) : Z * DevTrace :=
  (psx_irq_raise (fst w) bit, device_trace_note cycle frame bit detail (snd w)).

Lemma ring_empty_represents {A} cap : represents cap (@ring_empty A) [].
Proof.
  split; [done|]. intros n. cbn [ring_empty seq].
  unfold ring_oldest. cbn [ring_empty seq]. btest; lia.
Qed.

Lemma mod_window_inj cap a b : 0 < cap -> Z.abs (a - b) < cap -> a mod cap = b mod cap -> a = b.
Proof.
  intros Hc Hab H. pose proof (Z.div_mod a cap ltac:(lia)). pose proof (Z.div_mod b cap ltac:(lia)).
  assert (a - b = cap * (a / cap - b / cap)) by (rewrite Z.mul_sub_distr_l; lia).
  set (k := a / cap - b / cap) in *.
  assert (k <= -1 \/ k = 0 \/ 1 <= k) as [Hk | [Hk | Hk]] by lia; [|rewrite Hk in *; lia|].
  - assert (cap * k <= cap * -1) by (apply Z.mul_le_mono_nonneg_l; lia). lia.
  - assert (cap * 1 <= cap * k) by (apply Z.mul_le_mono_nonneg_l; lia). lia.
Qed.

Lemma ring_push_represents {A} cap (r : Ring A) h a :
  0 < cap -> Z.of_nat (length h) + 1 < 2 ^ 64 -> represents cap r h ->
  represents cap (ring_push cap a r) (h ++ [a]).
Proof.
  intros Hcap Hlen [Hs Hat].
  assert (seq (ring_push cap a r) = seq r + 1) as Hs'.
  { cbn [ring_push seq]. rewrite u64_id; [done|]. change (2 ^ 64) with 0x10000000000000000 in Hlen. lia. }
  split.
  - rewrite Hs', length_app. cbn [length]. lia.
  - intros n. unfold ring_oldest. rewrite Hs'. intros Hn.
    unfold ring_at. cbn [ring_push slots].
    destruct (Z.eq_dec n (seq r)) as [->|Hne].
    + rewrite lookup_insert_eq. rewrite lookup_app_r by lia.
      by replace (Z.to_nat (seq r) - length h)%nat with 0%nat by lia.
    + assert (Hlow : ring_oldest cap r <= n /\ seq r - cap < n /\ 0 <= n)
        by (unfold ring_oldest; btest; lia).
      rewrite lookup_insert_ne.
      * rewrite lookup_app_l by lia. apply Hat. lia.
      * intros He. apply mod_window_inj in He; lia.
Qed.

(** Reading back inside the window gives that stretch of the history. *)
Lemma ring_read_history {A} cap (r : Ring A) h lo hi :
  represents cap r h -> ring_oldest cap r <= lo -> lo <= hi <= seq r -> 0 <= lo ->
  ring_read cap r lo hi = take (Z.to_nat (hi - lo)) (drop (Z.to_nat lo) h).
Proof.
  intros [Hs Hat] Hlo Hhi Hlo0. unfold ring_read.
  assert (forall n lo, 0 <= lo -> ring_oldest cap r <= lo -> lo + Z.of_nat n <= seq r ->
    omap (ring_at cap r) (seqZ lo (Z.of_nat n)) = take n (drop (Z.to_nat lo) h)) as H.
  { clear lo hi Hlo Hhi Hlo0. induction n as [|n IH]; intros lo Hlo Ho Hn; [done|].
    rewrite seqZ_cons by lia. replace (Z.pred (Z.of_nat (S n))) with (Z.of_nat n) by lia.
    cbn [omap list_omap]. change (list_omap ?f ?l) with (omap f l).
    rewrite Hat by lia. rewrite IH by lia.
    destruct (h !! Z.to_nat lo) as [x|] eqn:E.
    - rewrite (drop_S h x (Z.to_nat lo)) by done. cbn [take].
      by replace (Z.to_nat (Z.succ lo)) with (S (Z.to_nat lo)) by lia.
    - apply lookup_ge_None in E. lia. }
  replace (hi - lo) with (Z.of_nat (Z.to_nat (hi - lo))) at 1 by lia. apply H; lia.
Qed.

(** ** Clients *)

(** A run of raises through the choke point, each with its cycle and frame. *)
Definition raise_all (calls : list (Z * Z * Z * Z)) (w : Z * DevTrace) : Z * DevTrace :=
  fold_left (fun w '(cycle, frame, bit, detail) => psx_irq_raise_traced cycle frame bit detail w)
    calls w.

(** What the ring should hold for such a run: numbered from [n]. *)
Fixpoint numbered (n : Z) (calls : list (Z * Z * Z * Z)) : list DevEvent :=
  match calls with
  | [] => []
  | (cycle, frame, bit, detail) :: calls =>
      mkDevEvent n cycle frame bit detail :: numbered (n + 1) calls
  end.

Lemma length_numbered n calls : length (numbered n calls) = length calls.
Proof. revert n; induction calls as [|[[[c f] b] d] calls IH]; intros n; simpl; auto. Qed.

Lemma raise_all_represents calls i s h :
  s_armed s <> 0 -> represents DEVTRACE_RING_CAP (dt_ring s) h ->
  Z.of_nat (length h + length calls) < 2 ^ 64 ->
  let s' := snd (raise_all calls (i, s)) in
  represents DEVTRACE_RING_CAP (dt_ring s') (h ++ numbered (Z.of_nat (length h)) calls).
Proof.
  revert i s h. induction calls as [|[[[c f] b] d] calls IH]; intros i s h Ha Hr Hl.
  - cbn. by rewrite app_nil_r.
  - cbn [length] in Hl. cbn [raise_all fold_left numbered].
    change (fold_left _ calls ?x) with (raise_all calls x).
    set (s1 := device_trace_note c f b d s).
    assert (s_armed s1 <> 0 /\
      represents DEVTRACE_RING_CAP (dt_ring s1) (h ++ [mkDevEvent (Z.of_nat (length h)) c f b d]))
      as [Ha1 Hr1].
    { unfold s1, device_trace_note. destruct (Z.eqb_spec (s_armed s) 0); [done|].
      split; [done|]. cbn [dt_ring upd]. rewrite (rep_seq _ _ _ Hr).
      apply ring_push_represents; [done|lia|done]. }
    specialize (IH (psx_irq_raise i b) s1 _ Ha1 Hr1).
    rewrite length_app in IH. cbn [length] in IH.
    rewrite <- app_assoc in IH. cbn [app] in IH.
    replace (Z.of_nat (length h + 1)) with (Z.of_nat (length h) + 1) in IH by lia.
    apply IH. lia.
Qed.

Lemma device_trace_get_history s h max_rows :
  represents DEVTRACE_RING_CAP (dt_ring s) h -> 0 < max_rows ->
  let n := Z.min max_rows (Z.min DEVTRACE_RING_CAP (Z.of_nat (length h))) in
  device_trace_get max_rows s = drop (length h - Z.to_nat n) h.
Proof.
  intros Hr Hm n. unfold device_trace_get. destruct (Z.eqb_spec max_rows 0); [lia|].
  rewrite (rep_seq _ _ _ Hr). set (len := Z.of_nat (length h)) in *.
  assert ((if (if len <? DEVTRACE_RING_CAP then u32 len else DEVTRACE_RING_CAP) <? max_rows
           then (if len <? DEVTRACE_RING_CAP then u32 len else DEVTRACE_RING_CAP) else max_rows) = n) as ->.
  { unfold n, DEVTRACE_RING_CAP in *. destruct (Z.ltb_spec len 0x100000); rewrite ?u32_id by lia; btest; lia. }
  assert (0 <= n <= len /\ n <= DEVTRACE_RING_CAP) as Hn by (unfold n, DEVTRACE_RING_CAP in *; lia).
  rewrite (ring_read_history DEVTRACE_RING_CAP _ h); [|done|..].
  - replace (len - n + n - (len - n)) with n by lia.
    rewrite take_ge by (rewrite length_drop; lia).
    f_equal. lia.
  - unfold ring_oldest. rewrite (rep_seq _ _ _ Hr). fold len. btest; lia.
  - rewrite (rep_seq _ _ _ Hr). fold len. lia.
  - lia.
Qed.

(** ** Properties *)

(** The device-event ring is faithful to the raises.  After any run of
    hardware raises through the choke point with the ring armed and reset, a
    readback returns exactly the newest raises, oldest first, with their
    sequence numbers, and I_STAT has exactly the raised bits set. *)
Theorem device_trace_newest (calls : list (Z * Z * Z * Z)) (s : DevTrace) (max_rows i n : Z) :
  s_armed s <> 0 -> Z.of_nat (length calls) < 2 ^ 64 -> 0 < max_rows -> 0 <= n ->
  Forall (fun '(_, _, bit, _) => 0 <= bit < 32) calls ->
  let '(i_stat, s') := raise_all calls (i, device_trace_reset s) in
  let k := Z.min max_rows (Z.min DEVTRACE_RING_CAP (Z.of_nat (length calls))) in
  device_trace_get max_rows s' = drop (length calls - Z.to_nat k) (numbered 0 calls) /\
  Z.testbit i_stat n = Z.testbit i n || existsb (fun '(_, _, bit, _) => bit =? n) calls.
Proof.
  intros Ha Hl Hm Hn Hb.
  pose proof (raise_all_represents calls i (device_trace_reset s) [] Ha
    (ring_empty_represents _) ltac:(simpl; lia)) as Hr. cbv zeta in Hr. cbn [length app] in Hr.
  destruct (raise_all calls (i, device_trace_reset s)) as [i_stat s'] eqn:E. cbn [snd] in Hr.
  split.
  - rewrite (device_trace_get_history s' _ max_rows Hr Hm). rewrite !length_numbered. done.
  - clear Hr Hl. revert i E. generalize (device_trace_reset s) as s0.
    induction Hb as [|[[[c f] b] d] calls Hb0 Hb IH]; intros s0 i E.
    + injection E as <- _. simpl. by rewrite orb_false_r.
    + cbn [raise_all fold_left] in E. change (fold_left _ calls ?x) with (raise_all calls x) in E.
      rewrite (IH _ _ E). simpl. rewrite psx_irq_raise_testbit by lia. by rewrite orb_assoc.
Qed.

Lemma device_trace_newest_witness :
  s_armed (mkDevTrace ring_empty 1) <> 0 /\
  (let '(i_stat, s') := raise_all [(100, 1, 0, 0); (250, 1, 3, 4); (260, 1, 7, 0)]
                          (0, device_trace_reset (mkDevTrace ring_empty 1)) in
   let k := Z.min 2 (Z.min DEVTRACE_RING_CAP 3) in
   device_trace_get 2 s' =
     drop (3 - Z.to_nat k) (numbered 0 [(100, 1, 0, 0); (250, 1, 3, 4); (260, 1, 7, 0)]) /\
   Z.testbit i_stat 3 = Z.testbit 0 3 ||
     existsb (fun '(_, _, bit, _) => bit =? 3) [(100, 1, 0, 0); (250, 1, 3, 4); (260, 1, 7, 0)]).
Proof.
  split; [done|].
  apply (device_trace_newest [(100, 1, 0, 0); (250, 1, 3, 4); (260, 1, 7, 0)]
    (mkDevTrace ring_empty 1) 2 0 3); [done|done|done|done|].
  repeat constructor; lia.
Defined.

End Rings.
