(* ===== verification/RootCounters.v ===== *)
(** * Root counters (src/runtime/src/timers.c)

    [Timer] is one slot of the parallel arrays [timers[]], [timer_frac[]] and
    [g_timer_irq_fired[]]; a function of the C file that works on one timer
    through [Timer* tm = &timers[t]] becomes a function on a slot and the log
    of bus calls ([Slot]); [on_timer] applies it to slot [t] of the file's
    state. *)

From S2P Require Import Prelude Bus.
From Stdlib Require Import Permutation.

Module Timers.

Record Timer := mkTimer {
  counter : Z;     (* uint16_t *)
  mode : Z;        (* uint32_t *)
  target : Z;      (* uint16_t *)
  irq_line : Z;    (* int: toggle mode state *)
  frac : Z;        (* timer_frac[t], uint32_t *)
  irq_fired : Z;   (* g_timer_irq_fired[t], uint64_t *)
}.
#[export] Instance eta_Timer : Eta Timer :=
  fun r => mkTimer (counter r) (mode r) (target r) (irq_line r) (frac r) (irq_fired r).

Abbreviation Slot := (Timer * list Ev)%type.

Record State := mkState { timers : list Timer; log : list Ev }.
#[export] Instance eta_State : Eta State := fun r => mkState (timers r) (log r).

Definition MODE_RESET_TARGET := 0x8.
Definition MODE_IRQ_TARGET := 0x10.
Definition MODE_IRQ_OVERFLOW := 0x20.
Definition MODE_IRQ_REPEAT := 0x40.
Definition MODE_IRQ_TOGGLE := 0x80.
Definition MODE_CLK_SRC1 := 0x200.
Definition MODE_IRQ_REQUEST := 0x400.
Definition MODE_TARGET_FLAG := 0x800.
Definition MODE_OVERFLOW_FLAG := 0x1000.
Definition TIMER_BASE := 0x1F801100.

Definition timer_irq (t : Z) : Z := 4 + t.

Definition timer_zero : Timer := mkTimer 0 0 0 0 0 0.

(** [timers_init] clears the slots; the fire telemetry is not touched. *)
Definition timers_init (s : State) : State :=
  s <| timers := map (fun tm => timer_zero <| irq_fired := irq_fired tm |>) (timers s) |>.

Definition on_timer (t : Z) (f : Slot -> Slot) (s : State) : State :=
  match timers s !! Z.to_nat t with
  | Some tm => let '(tm', l) := f (tm, log s) in mkState (<[Z.to_nat t := tm']> (timers s)) l
  | None => s
  end.

Definition timer_at (s : State) (t : Z) : Timer := nth (Z.to_nat t) (timers s) timer_zero.

(** The clock source field, bits 8-9 of the mode register. *)
Definition clk_src (tm : Timer) : Z := Z.land (Z.shiftr (mode tm) 8) 3.

Definition timer_uses_sysclk (t : Z) (tm : Timer) : bool :=
  let src := clk_src tm in
  if t =? 0 then (src =? 0) || (src =? 2)
  else if t =? 1 then (src =? 0) || (src =? 2)
  else if t =? 2 then (src =? 0) || (src =? 1)
  else true.

Definition timer_fire_irq (t : Z) (w : Slot) : Slot :=
  let '(tm, l) := w in
  let tm := tm <| irq_fired := u64 (irq_fired tm + 1) |> in
  let '(tm, l) :=
    if has (mode tm) MODE_IRQ_TOGGLE then
      let tm := tm <| irq_line := Z.lxor (irq_line tm) 1 |> in
      if negb (irq_line tm =? 0) then
        (tm <| mode := Z.ldiff (mode tm) MODE_IRQ_REQUEST |>, l ++ [IrqRaise (timer_irq t) t])
      else
        (tm <| mode := Z.lor (mode tm) MODE_IRQ_REQUEST |>, l)
    else
      let tm := tm <| mode := Z.ldiff (mode tm) MODE_IRQ_REQUEST |> in
      let l := l ++ [IrqRaise (timer_irq t) t] in
      (tm <| mode := Z.lor (mode tm) MODE_IRQ_REQUEST |>, l) in
  let tm :=
    if negb (has (mode tm) MODE_IRQ_REPEAT)
    then tm <| mode := Z.ldiff (mode tm) (Z.lor MODE_IRQ_TARGET MODE_IRQ_OVERFLOW) |>
    else tm in
  (tm, l ++ [RingRec EV_DEQ (u8 (SRC_TIMER0 + t)) (counter tm)]).

(** The target-match actions shared by the tick and the batched advance. *)
Definition on_target (t : Z) (w : Slot) : Slot :=
  let '(tm, l) := w in
  let tm := tm <| mode := Z.lor (mode tm) MODE_TARGET_FLAG |> in
  let '(tm, l) := if has (mode tm) MODE_IRQ_TARGET then timer_fire_irq t (tm, l) else (tm, l) in
  (if has (mode tm) MODE_RESET_TARGET then tm <| counter := 0 |> else tm, l).

Definition on_overflow (t : Z) (w : Slot) : Slot :=
  let '(tm, l) := w in
  let tm := tm <| mode := Z.lor (mode tm) MODE_OVERFLOW_FLAG |> in
  if has (mode tm) MODE_IRQ_OVERFLOW then timer_fire_irq t (tm, l) else (tm, l).

Definition timer_tick_one (t : Z) (w : Slot) : Slot :=
  let '(tm, l) := w in
  let old := counter tm in
  let tm := tm <| counter := u16 (counter tm + 1) |> in
  let w := if counter tm =? target tm then on_target t (tm, l) else (tm, l) in
  if old =? 0xFFFF then on_overflow t w else w.

Definition target_dist (tm : Timer) : Z :=
  let d := Z.land (u32 (target tm - counter tm)) 0xFFFF in
  if d =? 0 then 0x10000 else d.

Definition overflow_dist (tm : Timer) : Z := u32 (0x10000 - counter tm).

(** The number of ticks one round of the [while (ticks > 0)] loop covers. *)
Definition round_step (tm : Timer) (ticks : Z) : Z :=
  let step := ticks in
  let step := if target_dist tm <? step then target_dist tm else step in
  let step := if overflow_dist tm <? step then overflow_dist tm else step in
  if step =? 0 then 1 else step.

(** The events of a round of [step] ticks from counter value [old]. *)
Definition round_events (t old step td od : Z) (w : Slot) : Slot :=
  let w := if step =? td then on_target t w else w in
  if (0xFFFF <? old + step) || (step =? od) then on_overflow t w else w.

Definition advance_round (t : Z) (x : Slot * Z) : Slot * Z :=
  let '((tm, l), ticks) := x in
  let step := round_step tm ticks in
  (round_events t (counter tm) step (target_dist tm) (overflow_dist tm)
     (tm <| counter := u16 (counter tm + step) |>, l),
   u32 (ticks - step)).

Definition timer_advance_counts (t : Z) (ticks : Z) (w : Slot) : Slot :=
  fst (pwhile (Z.to_pos ticks) (fun x => 0 <? snd x) (advance_round t) (w, ticks)).

Definition timer_advance_divided (t : Z) (cycles divisor : Z) (w : Slot) : Slot :=
  let '(tm, l) := w in
  let divisor := if divisor =? 0 then 1 else divisor in
  let total := u32 (frac tm + cycles) in
  let ticks := total / divisor in
  let tm := tm <| frac := total mod divisor |> in
  if negb (ticks =? 0) then timer_advance_counts t ticks (tm, l) else (tm, l).

(** The loop body of [timers_advance] for timer [t]. *)
Definition timer_advance (t : Z) (cycles : Z) (w : Slot) : Slot :=
  let src := clk_src (fst w) in
  if (t =? 2) && ((src =? 2) || (src =? 3)) then timer_advance_divided t cycles 8 w
  else if timer_uses_sysclk t (fst w) then timer_advance_counts t cycles w
  else if t =? 1 then timer_advance_divided t cycles 2146 w
  else if t =? 0 then timer_advance_divided t cycles 5 w
  else w.

Definition timers_advance (cycles : Z) (s : State) : State :=
  if cycles =? 0 then s
  else
    let s := on_timer 0 (timer_advance 0 cycles) s in
    let s := on_timer 1 (timer_advance 1 cycles) s in
    on_timer 2 (timer_advance 2 cycles) s.

Definition timer_divisor (t : Z) (tm : Timer) : Z :=
  let src := clk_src tm in
  if (t =? 2) && ((src =? 2) || (src =? 3)) then 8
  else if timer_uses_sysclk t tm then 1
  else if t =? 1 then 2146
  else if t =? 0 then 5
  else 1.

(** The loop body of [timers_cycles_to_irq]: the new [best]. *)
Definition cycles_to_irq_step (i_mask t : Z) (tm : Timer) (best : Z) : Z :=
  if negb (has i_mask (Z.shiftl 1 (timer_irq t))) then best else
  let want_target := has (mode tm) MODE_IRQ_TARGET in
  let want_overflow := has (mode tm) MODE_IRQ_OVERFLOW in
  if negb want_target && negb want_overflow then best else
  let ticks := 0xFFFFFFFF in
  let ticks := if want_target && (target_dist tm <? ticks) then target_dist tm else ticks in
  let ticks := if want_overflow && (overflow_dist tm <? ticks) then overflow_dist tm else ticks in
  if ticks =? 0xFFFFFFFF then best else
  let cyc := u64 (ticks * timer_divisor t tm) in
  let cyc := if frac tm <? cyc then cyc - frac tm else 0 in
  let cyc := if 0xFFFFFFFF <? cyc then 0xFFFFFFFF else cyc in
  if cyc <? best then cyc else best.

Definition timers_cycles_to_irq (i_mask : Z) (s : State) : Z :=
  let best := 0xFFFFFFFF in
  let best := cycles_to_irq_step i_mask 0 (timer_at s 0) best in
  let best := cycles_to_irq_step i_mask 1 (timer_at s 1) best in
  cycles_to_irq_step i_mask 2 (timer_at s 2) best.

(** Register index and offset of a guest address. *)
Definition timer_of (addr : Z) : Z := Z.shiftr (u32 (addr - TIMER_BASE)) 4.
Definition reg_of (addr : Z) : Z := Z.land (u32 (addr - TIMER_BASE)) 0x0F.

(** [bc]: the build defines PSX_ENABLE_BLOCK_CYCLES. *)
Definition timers_read_counter (bc : bool) (t : Z) (tm : Timer) : Timer :=
  if bc then tm else
  let inc := if (t =? 2) && has (mode tm) MODE_CLK_SRC1 then 1 else 8 in
  let old := counter tm in
  let tm := tm <| counter := u16 (counter tm + inc) |> in
  if negb (target tm =? 0) && (old <? target tm) && (target tm <=? counter tm) then
    let tm := tm <| mode := Z.lor (mode tm) MODE_TARGET_FLAG |> in
    if has (mode tm) MODE_RESET_TARGET then tm <| counter := 0 |> else tm
  else tm.

Definition timers_read (bc : bool) (addr : Z) (s : State) : Z * State :=
  let t := timer_of addr in
  let reg := reg_of addr in
  if (t <? 0) || (2 <? t) then (0, s)
  else if reg =? 0x00 then
    let s := on_timer t (fun '(tm, l) => (timers_read_counter bc t tm, l)) s in
    (counter (timer_at s t), s)
  else if reg =? 0x04 then
    let val := mode (timer_at s t) in
    (val, on_timer t (fun '(tm, l) =>
       (tm <| mode := Z.ldiff (mode tm) (Z.lor MODE_TARGET_FLAG MODE_OVERFLOW_FLAG) |>, l)) s)
  else if reg =? 0x08 then (target (timer_at s t), s)
  else (0, s).

Definition timers_write (addr value : Z) (s : State) : State :=
  let t := timer_of addr in
  let reg := reg_of addr in
  if (t <? 0) || (2 <? t) then s
  else if reg =? 0x00 then
    on_timer t (fun '(tm, l) => (tm <| counter := Z.land value 0xFFFF |>, l)) s
  else if reg =? 0x04 then
    on_timer t (fun '(tm, l) =>
      (tm <| mode := Z.lor (Z.land value 0x03FF) MODE_IRQ_REQUEST |>
          <| counter := 0 |> <| irq_line := 0 |> <| frac := 0 |>,
       l ++ [RingRec EV_ENQ (u8 (SRC_TIMER0 + t)) (target tm)])) s
  else if reg =? 0x08 then
    on_timer t (fun '(tm, l) => (tm <| target := Z.land value 0xFFFF |>, l)) s
  else s.

(** [timers_tick] for timer [t], after the HBlank pre-loop. *)
Definition timer_tick (t : Z) (cycles : Z) (w : Slot) : Slot :=
  if timer_uses_sysclk t (fst w) then ziter (timer_tick_one t) cycles w
  else if t =? 2 then ziter (timer_tick_one t) (Z.quot cycles 8) w
  else w.

Definition timers_tick (cycles : Z) (s : State) : State :=
  let s := if negb (timer_uses_sysclk 1 (timer_at s 1))
           then on_timer 1 (ziter (timer_tick_one 1) 263) s else s in
  let s := on_timer 0 (timer_tick 0 cycles) s in
  let s := on_timer 1 (timer_tick 1 cycles) s in
  on_timer 2 (timer_tick 2 cycles) s.

(** The five arrays a snapshot carries. *)
Record Snapshot := mkSnapshot {
  sn_counter : list Z; sn_mode : list Z; sn_target : list Z;
  sn_irq_line : list Z; sn_frac : list Z
}.

Definition timers_get_snapshot (s : State) : Snapshot :=
  let col f := map (fun t => f (timer_at s t)) [0; 1; 2] in
  mkSnapshot (col counter) (col mode) (col target) (col irq_line) (col frac).

Definition timers_set_snapshot (n : Snapshot) (s : State) : State :=
  let set t s :=
    on_timer t (fun '(tm, l) =>
      (tm <| counter := aget (sn_counter n) t |> <| mode := aget (sn_mode n) t |>
          <| target := aget (sn_target n) t |> <| irq_line := aget (sn_irq_line n) t |>
          <| frac := aget (sn_frac n) t |>, l)) s in
  set 2 (set 1 (set 0 s)).

Definition timers_get_debug (t : Z) (s : State) : option (Z * Z * Z * Z) :=
  if (t <? 0) || (2 <? t) then None
  else let tm := timer_at s t in Some (counter tm, target tm, mode tm, irq_fired tm).

(** ** Well-formed slots and basic facts *)

Record wf_timer (tm : Timer) : Prop := {
  wf_counter : 0 <= counter tm < 0x10000;
  wf_target : 0 <= target tm < 0x10000;
}.

(** The parts of a slot no event of the counter changes. *)
Definition same_src (tm tm' : Timer) : Prop :=
  target tm' = target tm /\ clk_src tm' = clk_src tm /\ frac tm' = frac tm.

#[export] Instance same_src_pre : PreOrder same_src.
Proof.
  split; unfold same_src; [intros tm; tauto|].
  intros x y z (?&?&?) (?&?&?). repeat split; congruence.
Qed.

Lemma clk_src_bits tm tm' :
  (forall i, 8 <= i <= 9 -> Z.testbit (mode tm') i = Z.testbit (mode tm) i) ->
  clk_src tm' = clk_src tm.
Proof.
  intros H. unfold clk_src. apply Z.bits_inj'. intros i Hi.
  autorewrite with zbits.
  destruct (decide (i < 2)) as [Hlt|].
  - by rewrite H by lia.
  - change 3 with (Z.ones 2). rewrite Z.ones_spec_high by lia. by rewrite !andb_false_r.
Qed.

(** Bits of the mode masks. *)
Lemma mask_bit k i : 0 <= k -> i <> k -> Z.testbit (2 ^ k) i = false.
Proof. intros. rewrite Z.pow2_bits_false by lia. done. Qed.

Ltac mode_bits :=
  repeat match goal with
  | |- context [Z.testbit MODE_TARGET_FLAG ?i] =>
      change (Z.testbit MODE_TARGET_FLAG i) with (Z.testbit (2 ^ 11) i);
      rewrite (mask_bit 11 i) by lia
  | |- context [Z.testbit MODE_OVERFLOW_FLAG ?i] =>
      change (Z.testbit MODE_OVERFLOW_FLAG i) with (Z.testbit (2 ^ 12) i);
      rewrite (mask_bit 12 i) by lia
  | |- context [Z.testbit MODE_IRQ_REQUEST ?i] =>
      change (Z.testbit MODE_IRQ_REQUEST i) with (Z.testbit (2 ^ 10) i);
      rewrite (mask_bit 10 i) by lia
  | |- context [Z.testbit MODE_IRQ_TARGET ?i] =>
      change (Z.testbit MODE_IRQ_TARGET i) with (Z.testbit (2 ^ 4) i);
      rewrite (mask_bit 4 i) by lia
  | |- context [Z.testbit MODE_IRQ_OVERFLOW ?i] =>
      change (Z.testbit MODE_IRQ_OVERFLOW i) with (Z.testbit (2 ^ 5) i);
      rewrite (mask_bit 5 i) by lia
  end.

Ltac same_src_tac :=
  unfold same_src; cbn; split; [done|]; split; [|done];
  apply clk_src_bits; intros i Hi; cbn;
  autorewrite with zbits; mode_bits; cbn; autorewrite with zbits; done.

(** [timer_fire_irq] keeps the counter, the target, the clock source and the
    pre-scaler; everything it appends to the log is a raise of its own line or
    a ring record. *)
Lemma fire_irq_frame t tm l tm' l' :
  timer_fire_irq t (tm, l) = (tm', l') -> counter tm' = counter tm /\ same_src tm tm'.
Proof.
  unfold timer_fire_irq. intros H.
  repeat case_match; simplify_eq; (split; [done|same_src_tac]).
Qed.

Lemma on_target_frame t tm l tm' l' :
  on_target t (tm, l) = (tm', l') ->
  (counter tm' = counter tm \/ counter tm' = 0) /\ same_src tm tm'.
Proof.
  unfold on_target. intros H.
  set (tm1 := tm <| mode := Z.lor (mode tm) MODE_TARGET_FLAG |>) in *.
  assert (same_src tm tm1) as H1 by same_src_tac.
  destruct (has (mode tm1) MODE_IRQ_TARGET).
  - destruct (timer_fire_irq t (tm1, l)) as [tm2 l2] eqn:E.
    apply fire_irq_frame in E as [Hc Hs].
    destruct (has (mode tm2) MODE_RESET_TARGET); simplify_eq; cbn.
    + split; [by right|]. etrans; [exact H1|]. exact Hs.
    + split; [left; by rewrite Hc|]. by etrans.
  - destruct (has (mode tm1) MODE_RESET_TARGET); simplify_eq; cbn.
    + split; [by right|]. exact H1.
    + split; [by left|]. exact H1.
Qed.

Lemma on_overflow_frame t tm l tm' l' :
  on_overflow t (tm, l) = (tm', l') -> counter tm' = counter tm /\ same_src tm tm'.
Proof.
  unfold on_overflow. intros H.
  set (tm1 := tm <| mode := Z.lor (mode tm) MODE_OVERFLOW_FLAG |>) in *.
  assert (same_src tm tm1) as H1 by same_src_tac.
  destruct (has (mode tm1) MODE_IRQ_OVERFLOW).
  - apply fire_irq_frame in H as [Hc Hs]. split; [by rewrite Hc|]. by etrans.
  - simplify_eq. done.
Qed.

(** ** Ticks *)

Lemma target_dist_range tm : 1 <= target_dist tm <= 0x10000.
Proof. unfold target_dist. rewrite land_ffff. btest; unfold u32 in *; dlia. Qed.

Lemma target_dist_hit tm k :
  wf_timer tm -> 1 <= k <= target_dist tm ->
  (u16 (counter tm + k) = target tm <-> k = target_dist tm).
Proof.
  intros [Hc Ht]. unfold target_dist, u32, u16. rewrite land_ffff.
  btest; dlia.
Qed.

Lemma target_dist_mod tm :
  wf_timer tm -> target_dist tm = (target tm - counter tm - 1) mod 0x10000 + 1.
Proof.
  intros [Hc Ht]. unfold target_dist, u32. rewrite land_ffff. btest; dlia.
Qed.

Lemma overflow_dist_eq tm : wf_timer tm -> overflow_dist tm = 0x10000 - counter tm.
Proof. intros [Hc _]. unfold overflow_dist, u32. dlia. Qed.

Lemma set_counter_id tm : tm <| counter := counter tm |> = tm.
Proof. by destruct tm. Qed.

(** Between events a tick only counts. *)
Lemma ticks_quiet t tm l k :
  wf_timer tm -> 0 <= k -> k < target_dist tm -> k < overflow_dist tm ->
  ziter (timer_tick_one t) k (tm, l) = (tm <| counter := counter tm + k |>, l).
Proof.
  intros Hwf Hk. revert k Hk.
  apply (natlike_ind (fun k => k < target_dist tm -> k < overflow_dist tm -> _)).
  - intros _ _. rewrite ziter_0, Z.add_0_r. by rewrite set_counter_id.
  - intros k Hk IH Ht Ho. unfold Z.succ in *. rewrite ziter_S by lia.
    rewrite IH by lia. clear IH. rewrite overflow_dist_eq in Ho by done.
    pose proof (target_dist_hit tm (k + 1) Hwf ltac:(lia)) as Hhit.
    unfold timer_tick_one. cbn.
    rewrite <- Z.add_assoc, u16_id by (destruct Hwf; lia).
    rewrite u16_id in Hhit by (destruct Hwf; lia).
    destruct (Z.eqb_spec (counter tm + (k + 1)) (target tm)); [exfalso; lia|].
    destruct (Z.eqb_spec (counter tm + k) 0xFFFF); [exfalso; lia|]. done.
Qed.

(** One round of the batched loop is a positive number of ticks. *)
Lemma advance_round_ticks t tm l ticks :
  wf_timer tm -> 0 < ticks < 0x100000000 ->
  let step := Z.min ticks (Z.min (target_dist tm) (overflow_dist tm)) in
  1 <= step <= ticks /\
  advance_round t ((tm, l), ticks) = (ziter (timer_tick_one t) step (tm, l), ticks - step).
Proof.
  intros Hwf Ht step. pose proof (target_dist_range tm) as Htd.
  pose proof (overflow_dist_eq tm Hwf) as Hod. pose proof (wf_counter _ Hwf) as Hc.
  split; [lia|].
  pose proof (target_dist_hit tm step Hwf ltac:(lia)) as Hhit.
  replace step with ((step - 1) + 1) at 1 by lia. rewrite ziter_S by lia.
  rewrite ticks_quiet by (done || lia).
  unfold advance_round, timer_tick_one. cbn.
  replace (round_step tm ticks) with step by (unfold round_step; btest; lia).
  unfold round_events.
  rewrite (u32_id (ticks - step)) by lia.
  replace (counter tm + (step - 1) + 1) with (counter tm + step) by lia.
  replace (step =? target_dist tm) with (u16 (counter tm + step) =? target tm)
    by (apply eq_true_iff_eq; rewrite !Z.eqb_eq; done).
  replace ((0xFFFF <? counter tm + step) || (step =? overflow_dist tm))
    with (counter tm + (step - 1) =? 0xFFFF) by (btest; simpl; lia).
  done.
Qed.

(** Ticks preserve well-formedness and the frame. *)
Lemma tick_frame t tm l tm' l' :
  wf_timer tm -> timer_tick_one t (tm, l) = (tm', l') -> wf_timer tm' /\ same_src tm tm'.
Proof.
  intros Hwf H. unfold timer_tick_one in H.
  set (tm1 := tm <| counter := u16 (counter tm + 1) |>) in *.
  assert (wf_timer tm1) as Hwf1.
  { constructor; cbn; [apply u16_range|apply Hwf]. }
  assert (same_src tm tm1) as Hs1 by done.
  assert (forall w : Slot, w = (if counter tm1 =? target tm1 then on_target t (tm1, l) else (tm1, l))
            -> wf_timer (fst w) /\ same_src tm (fst w)) as Hmid.
  { intros [tm2 l2] Hw. cbn. destruct (counter tm1 =? target tm1).
    - symmetry in Hw. apply on_target_frame in Hw as [Hc Hs]. split; [|by etrans].
      constructor.
      + destruct Hc as [-> | ->]; [apply Hwf1|lia].
      + destruct Hs as (-> & _). apply Hwf1.
    - simplify_eq. done. }
  destruct (if counter tm1 =? target tm1 then _ else _) as [tm2 l2].
  destruct (Hmid _ eq_refl) as [Hwf2 Hs2]. cbn in *.
  destruct (counter tm =? 0xFFFF); [|by simplify_eq].
  apply on_overflow_frame in H as [Hc Hs]. split; [|by etrans].
  constructor; [rewrite Hc; apply Hwf2|]. destruct Hs as (-> & _). apply Hwf2.
Qed.

Lemma ticks_frame t n w :
  wf_timer (fst w) ->
  wf_timer (fst (ziter (timer_tick_one t) n w)) /\
  same_src (fst w) (fst (ziter (timer_tick_one t) n w)).
Proof.
  intros Hwf. apply (ziter_ind _ (fun x => wf_timer (fst x) /\ same_src (fst w) (fst x))).
  - done.
  - intros [tm l] [Hw Hs]. destruct (timer_tick_one t (tm, l)) as [tm' l'] eqn:E.
    apply tick_frame in E as [Hw' Hs']; [|done]. cbn in *. split; [done|by etrans].
Qed.

(** The batched advance is the tick loop. *)
Lemma advance_counts_ticks t ticks w :
  wf_timer (fst w) -> 0 <= ticks < 0x100000000 ->
  timer_advance_counts t ticks w = ziter (timer_tick_one t) ticks w.
Proof.
  intros Hwf Ht. unfold timer_advance_counts.
  set (I := fun x : Slot * Z => 0 <= snd x < 0x100000000 /\ wf_timer (fst (fst x)) /\
     ziter (timer_tick_one t) (snd x) (fst x) = ziter (timer_tick_one t) ticks w).
  destruct (pwhile_spec (fun x => 0 <? snd x) (advance_round t) I snd (Z.to_pos ticks) (w, ticks))
    as [HI Hc].
  - unfold I. cbn. auto.
  - intros [[tm l] n] (Hn & Hw & Heq) Hc.
    cbn [fst snd] in Hn, Hw, Heq, Hc. apply Z.ltb_lt in Hc.
    destruct (advance_round_ticks t tm l n Hw ltac:(lia)) as [Hstep Hr].
    set (step := Z.min _ _) in *. rewrite Hr. split; [|cbn; lia].
    unfold I. cbn [fst snd]. split; [lia|]. split.
    + apply (ticks_frame t step (tm, l) Hw).
    + rewrite <- Heq. rewrite <- ziter_add by lia. f_equal. lia.
  - intros x _ Hc. by apply Z.ltb_lt in Hc.
  - cbn. lia.
  - destruct HI as (Hr & _ & Heq). apply Z.ltb_ge in Hc.
    replace (snd _) with 0 in Heq by (cbn in *; lia). by rewrite ziter_0 in Heq.
Qed.

(** ** The log is only appended to *)

Definition appends (f : Slot -> Slot) : Prop :=
  forall tm l, f (tm, l) = (fst (f (tm, [])), l ++ snd (f (tm, []))).

Lemma fire_irq_appends t : appends (timer_fire_irq t).
Proof.
  intros tm l. unfold timer_fire_irq.
  destruct (has _ MODE_IRQ_TOGGLE); [destruct (negb (_ =? 0))|]; cbn; f_equal;
    rewrite <- ?app_assoc; done.
Qed.

Lemma on_target_appends t : appends (on_target t).
Proof.
  intros tm l. unfold on_target.
  set (tm1 := tm <| mode := _ |>). destruct (has (mode tm1) MODE_IRQ_TARGET).
  - rewrite (fire_irq_appends t tm1 l). destruct (timer_fire_irq t (tm1, [])) as [tm2 l2]. cbn. reflexivity.
  - cbn. by rewrite app_nil_r.
Qed.

Lemma on_overflow_appends t : appends (on_overflow t).
Proof.
  intros tm l. unfold on_overflow.
  set (tm1 := tm <| mode := _ |>). destruct (has (mode tm1) MODE_IRQ_OVERFLOW).
  - apply fire_irq_appends.
  - cbn. by rewrite app_nil_r.
Qed.

Lemma id_appends : appends (fun w => w).
Proof. intros tm l. cbn. by rewrite app_nil_r. Qed.

Lemma comp_appends f g : appends f -> appends g -> appends (fun w => g (f w)).
Proof.
  intros Hf Hg tm l. rewrite (Hf tm l). destruct (f (tm, [])) as [tm1 l1]. cbn [fst snd].
  rewrite (Hg tm1 (l ++ l1)), (Hg tm1 l1). cbn [fst snd]. by rewrite app_assoc.
Qed.

Lemma if_appends (b : bool) f g : appends f -> appends g -> appends (fun w => if b then f w else g w).
Proof. by destruct b. Qed.

Lemma tick_appends t : appends (timer_tick_one t).
Proof.
  intros tm l. unfold timer_tick_one.
  set (tm1 := tm <| counter := _ |>).
  apply (comp_appends
    (fun w => if counter tm1 =? target tm1 then on_target t w else w)
    (fun w => if counter tm =? 0xFFFF then on_overflow t w else w)).
  - apply if_appends; [apply on_target_appends|apply id_appends].
  - apply if_appends; [apply on_overflow_appends|apply id_appends].
Qed.

Lemma ticks_appends t n : appends (ziter (timer_tick_one t) n).
Proof.
  unfold ziter. generalize (Z.to_nat n) as k. induction k as [|k IH]; [apply id_appends|].
  apply (comp_appends (Nat.iter k (timer_tick_one t)) (timer_tick_one t)); [done|].
  apply tick_appends.
Qed.

(** ** Slot invariant and the advance as ticks *)

(** A slot of timer [t]: 16-bit counter and target, and a pre-scaler below the
    clock divisor in force. *)
Definition wf_slot (t : Z) (tm : Timer) : Prop :=
  wf_timer tm /\ 0 <= frac tm < timer_divisor t tm.

Lemma timer_divisor_cases t tm :
  timer_divisor t tm = 1 \/ timer_divisor t tm = 5 \/
  timer_divisor t tm = 8 \/ timer_divisor t tm = 2146.
Proof. unfold timer_divisor. repeat case_if; auto. Qed.

Lemma same_src_divisor t tm tm' :
  same_src tm tm' -> timer_divisor t tm' = timer_divisor t tm.
Proof. intros (_ & H & _). unfold timer_divisor, timer_uses_sysclk. by rewrite H. Qed.

Lemma timer_advance_unfold t cycles tm l :
  0 <= t <= 2 ->
  timer_advance t cycles (tm, l) =
    if timer_divisor t tm =? 1 then timer_advance_counts t cycles (tm, l)
    else timer_advance_divided t cycles (timer_divisor t tm) (tm, l).
Proof.
  intros Ht. unfold timer_advance, timer_divisor. cbn [fst].
  destruct ((t =? 2) && _) eqn:E1; [done|].
  destruct (timer_uses_sysclk t tm) eqn:E2; [done|].
  destruct (t =? 1) eqn:E3; [done|]. destruct (t =? 0) eqn:E4; [done|].
  assert (t = 2) as -> by lia. exfalso.
  unfold timer_uses_sysclk in E2.
  assert (0 <= clk_src tm < 4) by (unfold clk_src; rewrite land_3; dlia).
  btest; simpl in *; (done || lia).
Qed.

(** Total pre-scaled ticks of an advance: wraps at 32 bits as the code does. *)
Definition adv_total (t cycles : Z) (tm : Timer) : Z :=
  if timer_divisor t tm =? 1 then cycles else u32 (frac tm + cycles).

Lemma advance_as_ticks t cycles tm l :
  0 <= t <= 2 -> wf_slot t tm -> 0 <= cycles < 0x100000000 ->
  timer_advance t cycles (tm, l) =
    ziter (timer_tick_one t) (adv_total t cycles tm / timer_divisor t tm)
      (tm <| frac := adv_total t cycles tm mod timer_divisor t tm |>, l).
Proof.
  intros Ht [Hwf Hf] Hc. rewrite timer_advance_unfold by done. unfold adv_total.
  pose proof (timer_divisor_cases t tm) as Hd.
  destruct (Z.eqb_spec (timer_divisor t tm) 1) as [Hd1|Hd1].
  - rewrite Hd1, Z.div_1_r, Z.mod_1_r. rewrite Hd1 in Hf.
    replace (tm <| frac := 0 |>) with tm by (destruct tm; cbn in *; f_equal; lia).
    by apply advance_counts_ticks.
  - unfold timer_advance_divided.
    replace (if timer_divisor t tm =? 0 then 1 else _) with (timer_divisor t tm) by (btest; lia).
    pose proof (u32_range (frac tm + cycles)) as Hr.
    set (total := u32 _) in *. set (d := timer_divisor t tm) in *.
    assert (0 <= total / d < 0x100000000) as Hq.
    { split; [apply Z.div_pos; lia|]. apply Z.div_lt_upper_bound; lia. }
    destruct (Z.eqb_spec (total / d) 0) as [Hz|Hz]; cbn [negb].
    + rewrite Hz. done.
    + apply advance_counts_ticks; [|lia]. cbn. constructor; apply Hwf.
Qed.

(** Setting the pre-scaler commutes with ticking. *)
Definition set_frac (f : Z) (w : Slot) : Slot := ((fst w) <| frac := f |>, snd w).

Lemma fire_irq_set_frac t f w : timer_fire_irq t (set_frac f w) = set_frac f (timer_fire_irq t w).
Proof.
  destruct w as [[c m tg il fr fi] l]. unfold timer_fire_irq, set_frac. cbn.
  destruct (has m MODE_IRQ_TOGGLE); [destruct (negb (Z.lxor il 1 =? 0))|]; cbn;
    case_if; done.
Qed.

Lemma on_target_set_frac t f w : on_target t (set_frac f w) = set_frac f (on_target t w).
Proof.
  destruct w as [tm l]. unfold on_target, set_frac at 1. cbn [fst snd].
  change (tm <| frac := f |> <| mode := Z.lor (mode tm <| frac := f |>) MODE_TARGET_FLAG |>, l)
    with (set_frac f (tm <| mode := Z.lor (mode tm) MODE_TARGET_FLAG |>, l)).
  set (tm1 := tm <| mode := _ |>).
  change (mode tm <| frac := f |> <| mode := _ |>) with (mode tm1).
  destruct (has (mode tm1) MODE_IRQ_TARGET).
  - rewrite fire_irq_set_frac. destruct (timer_fire_irq t (tm1, l)) as [tm2 l2].
    unfold set_frac. cbn. case_if; done.
  - unfold set_frac. cbn. case_if; done.
Qed.

Lemma on_overflow_set_frac t f w : on_overflow t (set_frac f w) = set_frac f (on_overflow t w).
Proof.
  destruct w as [tm l]. unfold on_overflow, set_frac at 1. cbn [fst snd].
  change (tm <| frac := f |> <| mode := Z.lor (mode tm <| frac := f |>) MODE_OVERFLOW_FLAG |>, l)
    with (set_frac f (tm <| mode := Z.lor (mode tm) MODE_OVERFLOW_FLAG |>, l)).
  set (tm1 := tm <| mode := _ |>).
  change (mode tm <| frac := f |> <| mode := _ |>) with (mode tm1).
  destruct (has (mode tm1) MODE_IRQ_OVERFLOW); [|done]. apply fire_irq_set_frac.
Qed.

Lemma tick_set_frac t f w : timer_tick_one t (set_frac f w) = set_frac f (timer_tick_one t w).
Proof.
  destruct w as [tm l]. unfold timer_tick_one, set_frac at 1. cbn [fst snd].
  change (tm <| frac := f |> <| counter := u16 (counter tm <| frac := f |> + 1) |>, l)
    with (set_frac f (tm <| counter := u16 (counter tm + 1) |>, l)).
  set (tm1 := tm <| counter := u16 (counter tm + 1) |>).
  change (counter tm <| frac := f |> <| counter := _ |>) with (counter tm1).
  change (target tm <| frac := f |> <| counter := _ |>) with (target tm1).
  change (counter tm <| frac := f |>) with (counter tm).
  destruct (counter tm1 =? target tm1), (counter tm =? 0xFFFF);
    rewrite ?on_target_set_frac, ?on_overflow_set_frac; done.
Qed.

Lemma ticks_set_frac t f n w :
  ziter (timer_tick_one t) n (set_frac f w) = set_frac f (ziter (timer_tick_one t) n w).
Proof.
  unfold ziter. induction (Z.to_nat n) as [|k IH]; [done|]. simpl. by rewrite IH, tick_set_frac.
Qed.

(** ** Advancing preserves the slot invariant *)
Lemma advance_wf t cycles tm l :
  0 <= t <= 2 -> wf_slot t tm -> 0 <= cycles < 0x100000000 ->
  wf_slot t (fst (timer_advance t cycles (tm, l))) /\
  timer_divisor t (fst (timer_advance t cycles (tm, l))) = timer_divisor t tm.
Proof.
  intros Ht Hw Hc. rewrite advance_as_ticks by done.
  set (tm1 := tm <| frac := _ |>). set (n := _ / _).
  assert (wf_timer tm1) as Hw1 by (constructor; apply Hw).
  destruct (ticks_frame t n (tm1, l) Hw1) as [Hw2 Hs].
  pose proof (same_src_divisor t _ _ Hs) as Hd. cbn [fst] in *.
  change (timer_divisor t tm1) with (timer_divisor t tm) in Hd.
  split; [|done]. split; [done|]. rewrite Hd.
  destruct Hs as (_ & _ & ->). unfold tm1. cbn.
  apply Z.mod_pos_bound. pose proof (timer_divisor_cases t tm). lia.
Qed.

Lemma advance_as_set_frac t cycles tm l :
  0 <= t <= 2 -> wf_slot t tm -> 0 <= cycles < 0x100000000 ->
  timer_advance t cycles (tm, l) =
    set_frac (adv_total t cycles tm mod timer_divisor t tm)
      (ziter (timer_tick_one t) (adv_total t cycles tm / timer_divisor t tm) (tm, l)).
Proof. intros. rewrite advance_as_ticks by done. by rewrite <- ticks_set_frac. Qed.

(** The pre-scaler after an advance and the ticks of the next one. *)
Lemma adv_total_split d f a b :
  1 <= d -> 0 <= f -> 0 <= a -> 0 <= b ->
  (f + a + b) / d = (f + a) / d + ((f + a) mod d + b) / d /\
  (f + a + b) mod d = ((f + a) mod d + b) mod d.
Proof.
  intros. pose proof (Z.div_mod (f + a) d ltac:(lia)) as Hdm.
  replace (f + a + b) with ((f + a) mod d + b + (f + a) / d * d) by lia.
  rewrite Z.div_add, Z_mod_plus_full by lia. lia.
Qed.

(** Without wrap-around the total is the plain sum. *)
Lemma adv_total_eq t cycles tm :
  wf_slot t tm -> 0 <= cycles -> frac tm + cycles < 0x100000000 ->
  adv_total t cycles tm = frac tm + cycles.
Proof.
  intros [_ Hf] Hc Hs. unfold adv_total. btest; [lia|]. apply u32_id. lia.
Qed.

(** Batching: one advance by [a + b] cycles is an advance by [a] then by [b]. *)
Lemma advance_split t a b tm l :
  0 <= t <= 2 -> wf_slot t tm -> 0 <= a -> 0 <= b -> frac tm + a + b < 0x100000000 ->
  timer_advance t (a + b) (tm, l) = timer_advance t b (timer_advance t a (tm, l)).
Proof.
  intros Ht Hw Ha Hb Hf.
  assert (0 <= frac tm) as Hf0 by apply Hw.
  pose proof (timer_divisor_cases t tm) as Hd.
  destruct (advance_wf t a tm l Ht Hw ltac:(lia)) as [Hw1 Hd1].
  rewrite advance_as_set_frac by (done || lia).
  rewrite (advance_as_set_frac t a) in Hw1, Hd1 |- * by (done || lia).
  rewrite (adv_total_eq t (a + b)), Z.add_assoc by (done || lia).
  rewrite (adv_total_eq t a) in Hw1, Hd1 |- * by (done || lia).
  set (d := timer_divisor t tm) in *.
  destruct (ziter (timer_tick_one t) ((frac tm + a) / d) (tm, l)) as [tm1 l1] eqn:E1.
  change (set_frac ((frac tm + a) mod d) (tm1, l1))
    with (tm1 <| frac := (frac tm + a) mod d |>, l1) in *. cbn [fst] in Hw1, Hd1.
  pose proof (Z.mod_pos_bound (frac tm + a) d ltac:(lia)).
  pose proof (Z.mod_le (frac tm + a) d ltac:(lia) ltac:(lia)).
  rewrite advance_as_set_frac, adv_total_eq by (done || (cbn; lia)). rewrite Hd1.
  change (tm1 <| frac := (frac tm + a) mod d |>, l1)
    with (set_frac ((frac tm + a) mod d) (tm1, l1)). cbn [frac upd].
  rewrite ticks_set_frac, <- E1, <- ziter_add by (apply Z.div_pos; lia).
  destruct (adv_total_split d (frac tm) a b) as [-> ->]; [lia..|]. done.
Qed.

(** ** The three slots *)

Definition mk3 (t0 t1 t2 : Timer) (l : list Ev) : State := mkState [t0; t1; t2] l.

(** The file's invariant: three well-formed slots. *)
Definition wf_state (s : State) : Prop :=
  exists t0 t1 t2 l, s = mk3 t0 t1 t2 l /\ wf_slot 0 t0 /\ wf_slot 1 t1 /\ wf_slot 2 t2.

Lemma round_events_appends t old step td od : appends (round_events t old step td od).
Proof.
  unfold round_events.
  apply (comp_appends (fun w => if step =? td then on_target t w else w)
    (fun w => if (0xFFFF <? old + step) || (step =? od) then on_overflow t w else w));
    apply if_appends; auto using on_target_appends, on_overflow_appends, id_appends.
Qed.

Lemma advance_appends t cycles : appends (timer_advance t cycles).
Proof.
  intros tm l. unfold timer_advance. cbn [fst].
  assert (forall n, appends (timer_advance_counts t n)) as Hc.
  { intros n tm' l'. unfold timer_advance_counts.
    rewrite !pwhile_nwhile. generalize (Pos.to_nat (Z.to_pos n)) as k.
    intros k. revert n tm' l'. induction k as [|k IH]; intros n tm' l'; cbn [nwhile fst snd].
    - by rewrite app_nil_r.
    - destruct (0 <? n); [|by rewrite app_nil_r].
      unfold advance_round at 2 4 6.
      set (step := round_step tm' n). set (tm1 := tm' <| counter := _ |>).
      rewrite (round_events_appends t _ _ _ _ tm1 l').
      destruct (round_events t _ _ _ _ (tm1, [])) as [tm2 l2]. cbn [fst snd].
      rewrite (IH _ tm2 (l' ++ l2)), (IH _ tm2 l2). cbn [fst snd]. by rewrite app_assoc. }
  assert (forall d, appends (timer_advance_divided t cycles d)) as Hd.
  { intros d tm' l'. unfold timer_advance_divided. case_if; [apply Hc|]. cbn. by rewrite app_nil_r. }
  repeat case_if; first [apply Hd | apply Hc | cbn; by rewrite app_nil_r].
Qed.

(** What one advance does to slot [t], and the calls it makes. *)
Definition adv_tm (t c : Z) (tm : Timer) : Timer := fst (timer_advance t c (tm, [])).
Definition adv_ev (t c : Z) (tm : Timer) : list Ev := snd (timer_advance t c (tm, [])).

Lemma timers_advance_mk3 c t0 t1 t2 l :
  0 < c ->
  timers_advance c (mk3 t0 t1 t2 l) =
    mk3 (adv_tm 0 c t0) (adv_tm 1 c t1) (adv_tm 2 c t2)
        (l ++ adv_ev 0 c t0 ++ adv_ev 1 c t1 ++ adv_ev 2 c t2).
Proof.
  intros Hc. unfold timers_advance, adv_tm, adv_ev.
  destruct (Z.eqb_spec c 0); [lia|].
  unfold on_timer, mk3. cbn [timers log Z.to_nat lookup list_lookup].
  change (Z.to_nat 1) with 1%nat. change (Z.to_nat 2) with 2%nat. change (Z.to_nat 0) with 0%nat.
  cbn [lookup list_lookup]. rewrite (advance_appends 0 c t0 l).
  cbn [fst snd timers log insert list_insert lookup list_lookup].
  rewrite (advance_appends 1 c t1). cbn [fst snd timers log insert list_insert lookup list_lookup].
  rewrite (advance_appends 2 c t2). cbn [fst snd timers log insert list_insert lookup list_lookup].
  by rewrite <- !app_assoc.
Qed.

Lemma adv_split t a b tm :
  0 <= t <= 2 -> wf_slot t tm -> 0 <= a -> 0 <= b -> frac tm + a + b < 0x100000000 ->
  adv_tm t (a + b) tm = adv_tm t b (adv_tm t a tm) /\
  adv_ev t (a + b) tm = adv_ev t a tm ++ adv_ev t b (adv_tm t a tm).
Proof.
  intros. unfold adv_tm, adv_ev. rewrite advance_split by done.
  destruct (timer_advance t a (tm, [])) as [tm1 l1]. cbn [fst snd].
  by rewrite (advance_appends t b tm1 l1).
Qed.

Lemma adv_wf t c tm :
  0 <= t <= 2 -> wf_slot t tm -> 0 <= c < 0x100000000 -> wf_slot t (adv_tm t c tm).
Proof. intros. by apply advance_wf. Qed.

Lemma wf_slot_frac t tm : wf_slot t tm -> 0 <= frac tm < 2146.
Proof. intros [_ H]. pose proof (timer_divisor_cases t tm). lia. Qed.

(** ** Armed distance: no raise before it, a raise at it *)

(** Ticks until the next armed event, [None] when nothing is armed. *)
Definition armed_dist (tm : Timer) : option Z :=
  if has (mode tm) MODE_IRQ_TARGET then
    Some (if has (mode tm) MODE_IRQ_OVERFLOW then Z.min (target_dist tm) (overflow_dist tm)
          else target_dist tm)
  else if has (mode tm) MODE_IRQ_OVERFLOW then Some (overflow_dist tm) else None.

Definition before_armed (k : Z) (tm : Timer) : Prop :=
  forall d, armed_dist tm = Some d -> k < d.

Lemma has_lor_other m k n :
  0 <= k -> 0 <= n -> k <> n -> has (Z.lor m (2 ^ k)) (2 ^ n) = has m (2 ^ n).
Proof.
  intros. rewrite !has_pow2, Z.lor_spec, mask_bit by lia. by rewrite orb_false_r.
Qed.

(** The successors of a slot by a tick that fires nothing. *)
Lemma quiet_flags tm tm' :
  wf_timer tm -> wf_timer tm' -> target tm' = target tm ->
  has (mode tm') MODE_IRQ_TARGET = has (mode tm) MODE_IRQ_TARGET ->
  has (mode tm') MODE_IRQ_OVERFLOW = has (mode tm) MODE_IRQ_OVERFLOW ->
  before_armed 1 tm ->
  (u16 (counter tm + 1) <> target tm -> counter tm' = u16 (counter tm + 1)) ->
  (counter tm' = u16 (counter tm + 1) \/ counter tm' = 0) ->
  (forall d, armed_dist tm = Some d -> exists d', armed_dist tm' = Some d' /\ d - 1 <= d' /\
     (has (mode tm) MODE_IRQ_TARGET = true -> d' = d - 1)) /\
  (armed_dist tm = None -> armed_dist tm' = None).
Proof.
  intros Hw Hw' Htg Ht Ho Hb Hc Hc'.
  pose proof (target_dist_range tm) as Hr.
  pose proof (target_dist_hit tm 1 Hw ltac:(lia)) as H1.
  unfold before_armed, armed_dist in *. rewrite Ht, Ho.
  assert (has (mode tm) MODE_IRQ_OVERFLOW = true -> 1 < overflow_dist tm ->
          overflow_dist tm - 1 <= overflow_dist tm' /\
          (u16 (counter tm + 1) <> target tm -> overflow_dist tm' = overflow_dist tm - 1)) as HO.
  { intros _ Hlt. rewrite !overflow_dist_eq in * by done. destruct Hw as [Hcr _].
    rewrite u16_id in * by lia. lia. }
  assert (1 < target_dist tm -> u16 (counter tm + 1) <> target tm /\
          target_dist tm' = target_dist tm - 1) as HT.
  { intros Hlt. assert (u16 (counter tm + 1) <> target tm) as Hne by lia.
    split; [done|]. specialize (Hc Hne).
    rewrite !target_dist_mod in * by done. rewrite Htg, Hc.
    clear - Hlt. unfold u16. dlia. }
  destruct (has (mode tm) MODE_IRQ_TARGET), (has (mode tm) MODE_IRQ_OVERFLOW);
    (split; [|done || congruence]); intros d Hd; simplify_eq.
  - specialize (Hb _ eq_refl). destruct HT as [Hne ->]; [lia|].
    destruct HO as [_ HO]; [done|lia|]. rewrite HO by done.
    eexists. split; [done|]. lia.
  - specialize (Hb _ eq_refl). destruct HT as [Hne ->]; [lia|]. eexists. split; [done|]. lia.
  - specialize (Hb _ eq_refl). destruct HO as [HO _]; [done|lia|].
    eexists. split; [done|]. split; [lia|]. done.
Qed.

(** A tick before the armed distance fires nothing and brings the distance
    down by at most one. *)
Lemma tick_before_armed t tm l :
  wf_timer tm -> before_armed 1 tm ->
  exists tm', timer_tick_one t (tm, l) = (tm', l) /\ wf_timer tm' /\
    has (mode tm') MODE_IRQ_TOGGLE = has (mode tm) MODE_IRQ_TOGGLE /\
    has (mode tm') MODE_IRQ_TARGET = has (mode tm) MODE_IRQ_TARGET /\
    (forall d, armed_dist tm = Some d -> exists d', armed_dist tm' = Some d' /\ d - 1 <= d' /\
       (has (mode tm) MODE_IRQ_TARGET = true -> d' = d - 1)) /\
    (armed_dist tm = None -> armed_dist tm' = None).
Proof.
  intros Hw Hb.
  pose proof (target_dist_range tm) as Hr.
  pose proof (target_dist_hit tm 1 Hw ltac:(lia)) as H1.
  pose proof (overflow_dist_eq tm Hw) as Hod.
  set (c1 := u16 (counter tm + 1)).
  set (m1 := if c1 =? target tm then Z.lor (mode tm) MODE_TARGET_FLAG else mode tm).
  set (c2 := if (c1 =? target tm) && has m1 MODE_RESET_TARGET then 0 else c1).
  set (m2 := if counter tm =? 0xFFFF then Z.lor m1 MODE_OVERFLOW_FLAG else m1).
  set (tm' := tm <| counter := c2 |> <| mode := m2 |>).
  assert (Hflag : forall n, 0 <= n <= 10 -> has m2 (2 ^ n) = has (mode tm) (2 ^ n) /\
                                     has m1 (2 ^ n) = has (mode tm) (2 ^ n)).
  { intros n Hn. unfold m2, m1, MODE_TARGET_FLAG, MODE_OVERFLOW_FLAG.
    change 0x800 with (2 ^ 11). change 0x1000 with (2 ^ 12).
    repeat case_if; rewrite ?has_lor_other by lia; done. }
  destruct (Hflag 4 ltac:(lia)) as [Hf4 Hf4']. destruct (Hflag 5 ltac:(lia)) as [Hf5 Hf5'].
  destruct (Hflag 7 ltac:(lia)) as [Hf7 _].
  change (2 ^ 4) with MODE_IRQ_TARGET in *. change (2 ^ 5) with MODE_IRQ_OVERFLOW in *.
  change (2 ^ 7) with MODE_IRQ_TOGGLE in *.
  assert (Htick : timer_tick_one t (tm, l) = (tm', l)).
  { change (timer_tick_one t (tm, l)) with
      (let w := if c1 =? target tm then on_target t (tm <| counter := c1 |>, l)
                else (tm <| counter := c1 |>, l) in
       if counter tm =? 0xFFFF then on_overflow t w else w).
    assert ((if c1 =? target tm then on_target t (tm <| counter := c1 |>, l)
             else (tm <| counter := c1 |>, l))
            = (tm <| counter := c2 |> <| mode := m1 |>, l)) as Hmid.
    { unfold c2. destruct (Z.eqb_spec c1 (target tm)) as [Hhit|]; cbn [andb].
      - unfold on_target. cbn [mode upd].
        change (Z.lor (mode tm) MODE_TARGET_FLAG) with m1.
        assert (has m1 MODE_IRQ_TARGET = false) as Hnt.
        { rewrite Hf4'. destruct (has (mode tm) MODE_IRQ_TARGET) eqn:E; [|done].
          unfold before_armed, armed_dist in Hb. rewrite E in Hb.
          specialize (Hb _ eq_refl). destruct (has (mode tm) MODE_IRQ_OVERFLOW); lia. }
        rewrite Hnt. cbn. destruct (has m1 MODE_RESET_TARGET); done.
      - unfold m1. done. }
    rewrite Hmid. cbv zeta. unfold tm', m2. destruct (Z.eqb_spec (counter tm) 0xFFFF) as [Hov|]; [|done].
    unfold on_overflow. cbn [mode upd]. fold m1.
    assert (has (Z.lor m1 MODE_OVERFLOW_FLAG) MODE_IRQ_OVERFLOW = false) as ->; [|done].
    unfold m2 in Hf5. cbv iota in Hf5. rewrite Hf5.
    destruct (has (mode tm) MODE_IRQ_OVERFLOW) eqn:E; [|done].
    unfold before_armed, armed_dist in Hb. rewrite E in Hb.
    destruct (has (mode tm) MODE_IRQ_TARGET); specialize (Hb _ eq_refl); lia. }
  assert (Hw' : wf_timer tm').
  { constructor; cbn; [|apply Hw]. unfold c2. case_if; [lia|apply u16_range]. }
  exists tm'. split; [done|]. split; [done|]. split; [done|]. split; [done|].
  apply quiet_flags; try done.
  - intros Hne. cbn. unfold c2. fold c1 in Hne. destruct (Z.eqb_spec c1 (target tm)); done.
  - cbn. unfold c2. destruct (_ && _); auto.
Qed.

Lemma ticks_before_armed t tm l k :
  wf_timer tm -> 0 <= k -> before_armed k tm ->
  exists tm', ziter (timer_tick_one t) k (tm, l) = (tm', l) /\ wf_timer tm' /\
    has (mode tm') MODE_IRQ_TOGGLE = has (mode tm) MODE_IRQ_TOGGLE /\
    has (mode tm') MODE_IRQ_TARGET = has (mode tm) MODE_IRQ_TARGET /\
    (forall d, armed_dist tm = Some d -> exists d', armed_dist tm' = Some d' /\ d - k <= d' /\
       (has (mode tm) MODE_IRQ_TARGET = true -> d' = d - k)) /\
    (armed_dist tm = None -> armed_dist tm' = None).
Proof.
  intros Hw Hk. revert k Hk.
  apply (natlike_ind (fun k => before_armed k tm -> _)).
  - intros _. exists tm. rewrite ziter_0. repeat split; try apply Hw; try done.
    intros d Hd. exists d. rewrite Z.sub_0_r. split; [done|]. split; [lia|done].
  - intros k Hk IH Hb. destruct IH as (tm1 & E1 & Hw1 & Ht1 & Htg1 & Hd1 & Hn1).
    { intros d Hd. specialize (Hb d Hd). lia. }
    unfold Z.succ in *. rewrite ziter_S, E1 by lia.
    destruct (tick_before_armed t tm1 l Hw1) as (tm2 & E2 & Hw2 & Ht2 & Htg2 & Hd2 & Hn2).
    { intros d1 Hd1'. destruct (armed_dist tm) as [d|] eqn:E.
      - destruct (Hd1 d eq_refl) as (d' & E' & Hle & _). specialize (Hb d E).
        rewrite E' in Hd1'. simplify_eq. lia.
      - rewrite Hn1 in Hd1' by done. done. }
    exists tm2. rewrite E2. split; [done|]. split; [done|].
    split; [congruence|]. split; [congruence|]. split; [|auto].
    intros d Hd. destruct (Hd1 d Hd) as (d1 & Ed1 & Hle1 & Hx1).
    destruct (Hd2 d1 Ed1) as (d2 & Ed2 & Hle2 & Hx2). exists d2. split; [done|].
    split; [lia|]. intros Ht. specialize (Hx1 Ht). rewrite Hx2 by congruence. lia.
Qed.

Lemma fire_irq_pulse t tm l :
  has (mode tm) MODE_IRQ_TOGGLE = false ->
  existsb (raises (timer_irq t)) (snd (timer_fire_irq t (tm, l))) = true.
Proof.
  intros H. unfold timer_fire_irq.
  change (mode tm <| irq_fired := u64 (irq_fired tm + 1) |>) with (mode tm). rewrite H. cbn.
  rewrite !existsb_app. simpl. rewrite Z.eqb_refl. btauto.
Qed.

Lemma existsb_appends f p w :
  appends f -> existsb p (snd w) = true -> existsb p (snd (f w)) = true.
Proof.
  destruct w as [tm l]. cbn. intros Hf H. rewrite (Hf tm l). cbn. by rewrite existsb_app, H.
Qed.

(** The tick at armed distance 1 raises the line of a pulse-mode timer. *)
Lemma tick_at_armed t tm l :
  wf_timer tm -> armed_dist tm = Some 1 -> has (mode tm) MODE_IRQ_TOGGLE = false ->
  existsb (raises (timer_irq t)) (snd (timer_tick_one t (tm, l))) = true.
Proof.
  intros Hw Ha Htog. pose proof (target_dist_range tm) as Hr.
  pose proof (target_dist_hit tm 1 Hw ltac:(lia)) as H1.
  pose proof (overflow_dist_eq tm Hw) as Hod. pose proof (wf_counter _ Hw) as Hc.
  set (c1 := u16 (counter tm + 1)) in *.
  change (timer_tick_one t (tm, l)) with
      (let w := if c1 =? target tm then on_target t (tm <| counter := c1 |>, l)
                else (tm <| counter := c1 |>, l) in
       if counter tm =? 0xFFFF then on_overflow t w else w). cbv zeta.
  assert (Hfl : forall k n m, 11 <= k -> 0 <= n <= 7 -> has (Z.lor m (2 ^ k)) (2 ^ n) = has m (2 ^ n))
    by (intros; apply has_lor_other; lia).
  pose proof (fun m => Hfl 11 4 m ltac:(lia) ltac:(lia)) as H4.
  pose proof (fun m => Hfl 11 5 m ltac:(lia) ltac:(lia)) as H5.
  pose proof (fun m => Hfl 11 7 m ltac:(lia) ltac:(lia)) as H7.
  pose proof (fun m => Hfl 12 5 m ltac:(lia) ltac:(lia)) as H5'.
  pose proof (fun m => Hfl 12 7 m ltac:(lia) ltac:(lia)) as H7'.
  change (2 ^ 11) with MODE_TARGET_FLAG in *. change (2 ^ 12) with MODE_OVERFLOW_FLAG in *.
  change (2 ^ 4) with MODE_IRQ_TARGET in *. change (2 ^ 5) with MODE_IRQ_OVERFLOW in *.
  change (2 ^ 7) with MODE_IRQ_TOGGLE in *.
  assert (Hcase : (c1 = target tm /\ has (mode tm) MODE_IRQ_TARGET = true) \/
     (counter tm = 0xFFFF /\ has (mode tm) MODE_IRQ_OVERFLOW = true /\
      (c1 = target tm -> has (mode tm) MODE_IRQ_TARGET = false))).
  { unfold armed_dist in Ha.
    destruct (has (mode tm) MODE_IRQ_TARGET), (has (mode tm) MODE_IRQ_OVERFLOW);
      simplify_eq.
    - destruct (decide (c1 = target tm)); [by left|]. right.
      split; [lia|]. split; [done|]. intros. contradiction.
    - left. split; [lia|done].
    - right. split; [lia|]. done. }
  destruct Hcase as [[Hhit Htg] | (Hov & Ho & Hnt)].
  - rewrite (proj2 (Z.eqb_eq _ _) Hhit).
    assert (existsb (raises (timer_irq t)) (snd (on_target t (tm <| counter := c1 |>, l))) = true) as HT.
    { unfold on_target. cbn [mode counter upd].
      change (mode tm <| counter := c1 |>) with (mode tm).
      rewrite H4, Htg.
      pose proof (fire_irq_pulse t ((tm <| counter := c1 |>) <| mode := Z.lor (mode tm) MODE_TARGET_FLAG |>) l) as HF.
      cbn [mode upd] in HF. specialize (HF ltac:(by rewrite H7)).
      destruct (timer_fire_irq t _) as [tm2 l2]. exact HF. }
    destruct (counter tm =? 0xFFFF); [|done].
    by apply existsb_appends; [apply on_overflow_appends|].
  - rewrite (proj2 (Z.eqb_eq _ _) Hov).
    assert (exists tm2, (if c1 =? target tm then on_target t (tm <| counter := c1 |>, l)
                else (tm <| counter := c1 |>, l)) = (tm2, l) /\
            has (mode tm2) MODE_IRQ_OVERFLOW = true /\ has (mode tm2) MODE_IRQ_TOGGLE = false)
      as (tm2 & -> & Ho2 & Ht2).
    { destruct (Z.eqb_spec c1 (target tm)) as [Hhit|]; [|by eexists].
      unfold on_target. change (mode tm <| counter := c1 |>) with (mode tm). cbn [mode upd].
      rewrite H4, Hnt by done. eexists. split; [done|].
      case_if; cbn [mode upd]; by rewrite H5, H7. }
    unfold on_overflow. cbn [mode upd]. rewrite H5', Ho2.
    apply fire_irq_pulse. cbn [mode upd]. by rewrite H7'.
Qed.

(** [n] ticks exactly at the armed distance raise the line. *)
Lemma ticks_at_armed t tm l d :
  wf_timer tm -> armed_dist tm = Some d -> 1 <= d ->
  has (mode tm) MODE_IRQ_TARGET = true -> has (mode tm) MODE_IRQ_TOGGLE = false ->
  existsb (raises (timer_irq t)) (snd (ziter (timer_tick_one t) d (tm, l))) = true.
Proof.
  intros Hw Hd Hd1 Htg Htog. replace d with (d - 1 + 1) by lia. rewrite ziter_S by lia.
  destruct (ticks_before_armed t tm l (d - 1)) as (tm' & -> & Hw' & Ht & Htg' & Hx & _);
    [done|lia| |].
  { intros d' Hd'. rewrite Hd in Hd'. simplify_eq. lia. }
  destruct (Hx d Hd) as (d' & Ed' & _ & He). rewrite He in Ed' by done.
  apply tick_at_armed; [done| |congruence]. rewrite Ed'. f_equal. lia.
Qed.

Lemma armed_dist_range tm d : wf_timer tm -> armed_dist tm = Some d -> 1 <= d <= 0x10000.
Proof.
  intros Hw. unfold armed_dist. pose proof (target_dist_range tm).
  pose proof (overflow_dist_eq tm Hw). pose proof (wf_counter _ Hw).
  repeat case_if; intros; simplify_eq; lia.
Qed.

(** ** The deadline query *)

Definition deliverable (i_mask t : Z) (tm : Timer) : option Z :=
  if has i_mask (Z.shiftl 1 (timer_irq t)) then armed_dist tm else None.

Lemma cycles_to_irq_step_eq i_mask t tm best :
  wf_slot t tm -> best <= 0xFFFFFFFF ->
  cycles_to_irq_step i_mask t tm best =
    match deliverable i_mask t tm with
    | Some d => Z.min best (d * timer_divisor t tm - frac tm)
    | None => best
    end.
Proof.
  intros [Hw Hf] Hb. unfold cycles_to_irq_step, deliverable.
  destruct (has i_mask _); cbn [negb]; [|done].
  pose proof (timer_divisor_cases t tm) as Hd. pose proof (target_dist_range tm).
  pose proof (overflow_dist_eq tm Hw). pose proof (wf_counter _ Hw).
  assert (Hcyc : forall d, 1 <= d <= 0x10000 ->
    (let cyc := u64 (d * timer_divisor t tm) in
     let cyc := if frac tm <? cyc then cyc - frac tm else 0 in
     let cyc := if 0xFFFFFFFF <? cyc then 0xFFFFFFFF else cyc in
     if cyc <? best then cyc else best) = Z.min best (d * timer_divisor t tm - frac tm)).
  { intros d Hdr. cbv zeta. rewrite u64_id by nia.
    destruct (Z.ltb_spec (frac tm) (d * timer_divisor t tm)); [|nia].
    destruct (Z.ltb_spec 0xFFFFFFFF (d * timer_divisor t tm - frac tm)); [nia|].
    btest; lia. }
  unfold armed_dist.
  destruct (has (mode tm) MODE_IRQ_TARGET), (has (mode tm) MODE_IRQ_OVERFLOW); cbn [negb andb].
  - set (tk := if overflow_dist tm <? _ then _ else _).
    assert (tk = Z.min (target_dist tm) (overflow_dist tm)) as -> by (unfold tk; btest; lia).
    destruct (Z.eqb_spec (Z.min (target_dist tm) (overflow_dist tm)) 0xFFFFFFFF); [lia|].
    apply Hcyc. lia.
  - set (tk := if target_dist tm <? _ then _ else _).
    assert (tk = target_dist tm) as -> by (unfold tk; btest; lia).
    destruct (Z.eqb_spec (target_dist tm) 0xFFFFFFFF); [lia|]. apply Hcyc. lia.
  - set (tk := if overflow_dist tm <? _ then _ else _).
    assert (tk = overflow_dist tm) as -> by (unfold tk; btest; lia).
    destruct (Z.eqb_spec (overflow_dist tm) 0xFFFFFFFF); [lia|]. apply Hcyc. lia.
  - done.
Qed.

(** Before the deadline of its own slot a timer stays silent. *)
Lemma adv_ev_before t c tm :
  0 <= t <= 2 -> wf_slot t tm -> 0 <= c < 0x100000000 ->
  (forall d, armed_dist tm = Some d -> c < d * timer_divisor t tm - frac tm) ->
  adv_ev t c tm = [].
Proof.
  intros Ht Hw Hc Hd. unfold adv_ev. rewrite advance_as_set_frac by done.
  pose proof (timer_divisor_cases t tm) as Hdc. assert (0 <= frac tm) by apply Hw.
  assert (0 <= adv_total t c tm <= frac tm + c) as Htot.
  { unfold adv_total, u32. btest; [lia|]. dlia. }
  destruct (ticks_before_armed t tm [] (adv_total t c tm / timer_divisor t tm))
    as (tm' & -> & _); [apply Hw|apply Z.div_pos; lia| |done].
  intros d Hd'. specialize (Hd d Hd'). apply Z.div_lt_upper_bound; lia.
Qed.

Lemma adv_ev_at t c d tm :
  0 <= t <= 2 -> wf_slot t tm -> armed_dist tm = Some d ->
  c = d * timer_divisor t tm - frac tm ->
  has (mode tm) MODE_IRQ_TARGET = true -> has (mode tm) MODE_IRQ_TOGGLE = false ->
  existsb (raises (timer_irq t)) (adv_ev t c tm) = true.
Proof.
  intros Ht Hw Hd Hc Htg Htog. pose proof (timer_divisor_cases t tm) as Hdc.
  assert (wf_timer tm) as Hwt by apply Hw. assert (0 <= frac tm < timer_divisor t tm) as Hf by apply Hw.
  pose proof (armed_dist_range tm d Hwt Hd) as Hdr.
  unfold adv_ev. rewrite advance_as_set_frac, adv_total_eq by (done || nia).
  replace (frac tm + c) with (d * timer_divisor t tm) by lia. rewrite Z.div_mul by lia.
  apply ticks_at_armed; done || lia.
Qed.

(** ** One-shot mode *)

Definition is_raise (e : Ev) : bool := match e with IrqRaise _ _ => true | RingRec _ _ _ => false end.
Definition n_raises (l : list Ev) : nat := length (List.filter is_raise l).

(** Not repeating, and either nothing raised yet or both IRQ enables cleared. *)
Definition one_shot_inv (w : Slot) : Prop :=
  has (mode (fst w)) MODE_IRQ_REPEAT = false /\
  (n_raises (snd w) = 0%nat \/
   (n_raises (snd w) <= 1)%nat /\ has (mode (fst w)) MODE_IRQ_TARGET = false /\
   has (mode (fst w)) MODE_IRQ_OVERFLOW = false).

Lemma n_raises_app l1 l2 : n_raises (l1 ++ l2) = (n_raises l1 + n_raises l2)%nat.
Proof. unfold n_raises. by rewrite List.filter_app, length_app. Qed.

Lemma has_testbit_eq m m' n :
  0 <= n -> Z.testbit m n = Z.testbit m' n -> has m (2 ^ n) = has m' (2 ^ n).
Proof. intros. by rewrite !has_pow2. Qed.

Lemma has_mode_bits m :
  has m MODE_IRQ_TARGET = Z.testbit m 4 /\ has m MODE_IRQ_OVERFLOW = Z.testbit m 5 /\
  has m MODE_IRQ_REPEAT = Z.testbit m 6 /\ has m MODE_IRQ_TOGGLE = Z.testbit m 7 /\
  has m MODE_RESET_TARGET = Z.testbit m 3.
Proof.
  repeat split; [exact (has_pow2 m 4 ltac:(lia)) | exact (has_pow2 m 5 ltac:(lia))
   | exact (has_pow2 m 6 ltac:(lia)) | exact (has_pow2 m 7 ltac:(lia))
   | exact (has_pow2 m 3 ltac:(lia))].
Qed.

(** Firing in one-shot mode raises at most once and disarms the timer. *)
Lemma fire_irq_one_shot t tm l :
  has (mode tm) MODE_IRQ_REPEAT = false -> n_raises l = 0%nat ->
  one_shot_inv (timer_fire_irq t (tm, l)).
Proof.
  intros Hr Hl. unfold one_shot_inv.
  destruct (has_mode_bits (mode tm)) as (_ & _ & E & _). rewrite E in Hr.
  assert (Hrep : forall m, Z.testbit m 6 = Z.testbit (mode tm) 6 -> has m MODE_IRQ_REPEAT = false).
  { intros m Hm. destruct (has_mode_bits m) as (_ & _ & -> & _). congruence. }
  assert (Hdis : forall m, let m' := Z.ldiff m (Z.lor MODE_IRQ_TARGET MODE_IRQ_OVERFLOW) in
     Z.testbit m' 6 = Z.testbit m 6 /\ has m' MODE_IRQ_TARGET = false /\
     has m' MODE_IRQ_OVERFLOW = false).
  { intros m m'. destruct (has_mode_bits m') as (-> & -> & _).
    unfold m'. repeat split; tb. }
  unfold timer_fire_irq.
  change (mode tm <| irq_fired := u64 (irq_fired tm + 1) |>) with (mode tm).
  destruct (has (mode tm) MODE_IRQ_TOGGLE); [destruct (negb _)|]; cbn [mode irq_line upd];
    match goal with |- context [negb (has ?m MODE_IRQ_REPEAT)] => rewrite (Hrep m) by tb end;
    cbn [negb fst snd mode upd];
    (split; [apply Hrep; tb|]);
    right; rewrite !n_raises_app, Hl; (split; [vm_compute; lia|]); apply Hdis.
Qed.

Lemma one_shot_flag f w :
  one_shot_inv w -> (f = MODE_TARGET_FLAG \/ f = MODE_OVERFLOW_FLAG) ->
  one_shot_inv ((fst w) <| mode := Z.lor (mode (fst w)) f |>, snd w).
Proof.
  intros [Hr H] Hf. unfold one_shot_inv in *. cbn [fst snd mode upd].
  destruct (has_mode_bits (mode (fst w))) as (E4 & E5 & E6 & _).
  destruct (has_mode_bits (Z.lor (mode (fst w)) f)) as (F4 & F5 & F6 & _).
  rewrite F4, F5, F6, !Z.lor_spec, <- E4, <- E5, <- E6.
  destruct Hf as [-> | ->]; const_bits; by rewrite !orb_false_r.
Qed.

Lemma one_shot_fire_if t (b : bool) w :
  one_shot_inv w ->
  (b = true -> has (mode (fst w)) MODE_IRQ_TARGET = true \/ has (mode (fst w)) MODE_IRQ_OVERFLOW = true) ->
  one_shot_inv (if b then timer_fire_irq t w else w).
Proof.
  destruct w as [tm l]. intros [Hr H] Hb. destruct b; [|done]. cbn [fst snd] in *.
  apply fire_irq_one_shot; [done|]. destruct H as [|(_ & H1 & H2)]; [done|].
  rewrite H1, H2 in Hb. destruct Hb; done.
Qed.

Lemma on_target_one_shot t w : one_shot_inv w -> one_shot_inv (on_target t w).
Proof.
  destruct w as [tm l]. intros H. unfold on_target.
  pose proof (one_shot_flag MODE_TARGET_FLAG _ H (or_introl eq_refl)) as H1. cbn [fst snd] in H1.
  set (tm1 := tm <| mode := _ |>) in *.
  pose proof (one_shot_fire_if t (has (mode tm1) MODE_IRQ_TARGET) _ H1 ltac:(by left)) as H2.
  destruct (if has (mode tm1) MODE_IRQ_TARGET then _ else _) as [tm2 l2].
  destruct (has (mode tm2) MODE_RESET_TARGET); exact H2.
Qed.

Lemma on_overflow_one_shot t w : one_shot_inv w -> one_shot_inv (on_overflow t w).
Proof.
  destruct w as [tm l]. intros H. unfold on_overflow.
  pose proof (one_shot_flag MODE_OVERFLOW_FLAG _ H (or_intror eq_refl)) as H1. cbn [fst snd] in H1.
  apply (one_shot_fire_if t _ _ H1). by right.
Qed.

Lemma tick_one_shot t w : one_shot_inv w -> one_shot_inv (timer_tick_one t w).
Proof.
  destruct w as [tm l]. intros H. unfold timer_tick_one.
  set (tm1 := tm <| counter := _ |>).
  assert (one_shot_inv (tm1, l)) as H1 by exact H.
  assert (one_shot_inv (if counter tm1 =? target tm1 then on_target t (tm1, l) else (tm1, l))) as H2.
  { destruct (_ =? _); [by apply on_target_one_shot|done]. }
  destruct (counter tm =? _); [by apply on_overflow_one_shot|done].
Qed.

(** ** Lifting to the file's state *)

Definition new_events (s s' : State) : list Ev := drop (length (log s)) (log s').

Lemma drop_app_self {A} (l1 l2 : list A) : drop (length l1) (l1 ++ l2) = l2.
Proof. apply drop_app_length. Qed.

Lemma new_events_advance c t0 t1 t2 l :
  0 < c ->
  new_events (mk3 t0 t1 t2 l) (timers_advance c (mk3 t0 t1 t2 l)) =
    adv_ev 0 c t0 ++ adv_ev 1 c t1 ++ adv_ev 2 c t2.
Proof. intros. unfold new_events. rewrite timers_advance_mk3 by done. apply drop_app_self. Qed.

(** The cycle at which one slot can first raise a line the mask lets through. *)
Definition deadline (i_mask t : Z) (tm : Timer) : Z :=
  match deliverable i_mask t tm with
  | Some d => d * timer_divisor t tm - frac tm
  | None => 0xFFFFFFFF
  end.

Lemma cycles_to_irq_mk3 i_mask t0 t1 t2 l :
  wf_slot 0 t0 -> wf_slot 1 t1 -> wf_slot 2 t2 ->
  timers_cycles_to_irq i_mask (mk3 t0 t1 t2 l) =
    Z.min 0xFFFFFFFF (Z.min (deadline i_mask 0 t0) (Z.min (deadline i_mask 1 t1) (deadline i_mask 2 t2))).
Proof.
  intros H0 H1 H2.
  assert (Hs : forall t tm best, wf_slot t tm -> best <= 0xFFFFFFFF ->
     cycles_to_irq_step i_mask t tm best = Z.min best (deadline i_mask t tm)).
  { intros t tm best Hw Hb. rewrite cycles_to_irq_step_eq by done. unfold deadline.
    destruct (deliverable i_mask t tm); lia. }
  unfold timers_cycles_to_irq, timer_at, mk3. cbn [timers nth].
  change (Z.to_nat 0) with 0%nat. change (Z.to_nat 1) with 1%nat. change (Z.to_nat 2) with 2%nat.
  cbn [nth]. rewrite (Hs 0), (Hs 1), (Hs 2) by (done || lia). lia.
Qed.

(** Only timer [t] raises line [timer_irq t]. *)
Lemma tick_raises_own t t' w :
  t <> t' -> existsb (raises (timer_irq t')) (snd w) = false ->
  existsb (raises (timer_irq t')) (snd (timer_tick_one t w)) = false.
Proof.
  intros Hne. destruct w as [tm l]. rewrite (tick_appends t tm l). cbn [snd].
  intros Hl. rewrite existsb_app, Hl. cbn [orb].
  assert (Hf : forall w, existsb (raises (timer_irq t')) (snd w) = false ->
               existsb (raises (timer_irq t')) (snd (timer_fire_irq t w)) = false).
  { intros [tm1 l1] H1. unfold timer_fire_irq. cbn [snd] in H1.
    assert ((timer_irq t =? timer_irq t') = false) as Hn by (unfold timer_irq; lia).
    repeat case_match; simplify_eq; cbn; rewrite ?existsb_app, H1; simpl; rewrite ?Hn; done. }
  assert (Ht : forall w, existsb (raises (timer_irq t')) (snd w) = false ->
               existsb (raises (timer_irq t')) (snd (on_target t w)) = false).
  { intros [tm1 l1] H1. unfold on_target. set (tm2 := tm1 <| mode := _ |>).
    specialize (Hf (tm2, l1) H1).
    destruct (has (mode tm2) MODE_IRQ_TARGET); [|done].
    destruct (timer_fire_irq t (tm2, l1)) as [tm3 l3]. exact Hf. }
  assert (Ho : forall w, existsb (raises (timer_irq t')) (snd w) = false ->
               existsb (raises (timer_irq t')) (snd (on_overflow t w)) = false).
  { intros [tm1 l1] H1. unfold on_overflow. case_if; [|done]. by apply Hf. }
  set (tm1 := tm <| counter := u16 (counter tm + 1) |>).
  change (timer_tick_one t (tm, [])) with
    (let w := if counter tm1 =? target tm1 then on_target t (tm1, []) else (tm1, []) in
     if counter tm =? 0xFFFF then on_overflow t w else w). cbv zeta.
  destruct (counter tm1 =? target tm1), (counter tm =? 0xFFFF).
  - by apply Ho, Ht.
  - by apply Ht.
  - by apply Ho.
  - done.
Qed.

Lemma adv_ev_own t t' c tm :
  0 <= t <= 2 -> wf_slot t tm -> 0 <= c < 0x100000000 -> t <> t' ->
  existsb (raises (timer_irq t')) (adv_ev t c tm) = false.
Proof.
  intros. unfold adv_ev. rewrite advance_as_set_frac by done. cbn [set_frac snd].
  apply (ziter_ind _ (fun w => existsb (raises (timer_irq t')) (snd w) = false)); [done|].
  intros. by apply tick_raises_own.
Qed.

Lemma deliverable_bit i_mask t tm :
  0 <= t -> Z.testbit i_mask (timer_irq t) = true -> deliverable i_mask t tm = armed_dist tm.
Proof.
  intros. unfold deliverable. rewrite Z.shiftl_1_l, has_pow2 by (unfold timer_irq; lia).
  by rewrite H0.
Qed.

(** ** Operations and reachable states *)

(** One call of the file's interface, with arguments in their C ranges. *)
Inductive step : State -> State -> Prop :=
| step_advance c s : 0 <= c < 0x100000000 -> step s (timers_advance c s)
| step_read bc addr s : step s (snd (timers_read bc addr s))
| step_write addr v s : step s (timers_write addr v s)
| step_tick c s : step s (timers_tick c s)
| step_init s : step s (timers_init s)
| step_restore s s' : wf_state s' -> step s (timers_set_snapshot (timers_get_snapshot s') s).

Lemma on_timer_mk3 t f t0 t1 t2 l :
  on_timer t f (mk3 t0 t1 t2 l) =
    if decide (Z.to_nat t = 0%nat) then let '(x, l') := f (t0, l) in mk3 x t1 t2 l'
    else if decide (Z.to_nat t = 1%nat) then let '(x, l') := f (t1, l) in mk3 t0 x t2 l'
    else if decide (Z.to_nat t = 2%nat) then let '(x, l') := f (t2, l) in mk3 t0 t1 x l'
    else mk3 t0 t1 t2 l.
Proof.
  unfold on_timer, mk3. cbn [timers log].
  destruct (Z.to_nat t) as [|[|[|k]]]; simpl; try (by destruct (f _)). done.
Qed.

(** An operation that keeps the slot it works on well formed keeps the state
    well formed. *)
Lemma on_timer_wf t f s :
  0 <= t <= 2 -> wf_state s ->
  (forall tm l, wf_slot t tm -> wf_slot t (fst (f (tm, l)))) ->
  wf_state (on_timer t f s).
Proof.
  intros Ht (t0 & t1 & t2 & l & -> & H0 & H1 & H2) Hf. rewrite on_timer_mk3.
  assert (t = 0 \/ t = 1 \/ t = 2) as [-> | [-> | ->]] by lia; simpl.
  - specialize (Hf t0 l H0). destruct (f (t0, l)) as [x l']. by exists x, t1, t2, l'.
  - specialize (Hf t1 l H1). destruct (f (t1, l)) as [x l']. by exists t0, x, t2, l'.
  - specialize (Hf t2 l H2). destruct (f (t2, l)) as [x l']. by exists t0, t1, x, l'.
Qed.

Lemma ticks_wf_slot t n tm l :
  wf_slot t tm -> wf_slot t (fst (ziter (timer_tick_one t) n (tm, l))).
Proof.
  intros [Hw Hf]. destruct (ticks_frame t n (tm, l) Hw) as [Hw' Hs]. split; [done|].
  rewrite (same_src_divisor t _ _ Hs). destruct Hs as (_ & _ & ->). done.
Qed.

Lemma wf_slot_upd t tm tm' :
  wf_slot t tm -> clk_src tm' = clk_src tm -> frac tm' = frac tm ->
  is_u16 (counter tm') -> target tm' = target tm -> wf_slot t tm'.
Proof.
  intros [Hw Hf] Hs Hfr Hc Htg. split; [constructor; [done|]; rewrite Htg; apply Hw|].
  unfold timer_divisor, timer_uses_sysclk in *. rewrite Hs, Hfr. done.
Qed.

Lemma timer_zero_wf t n : wf_slot t (timer_zero <| irq_fired := n |>).
Proof.
  split; [constructor; cbn; lia|].
  change (0 <= 0 < timer_divisor t (timer_zero <| irq_fired := n |>)).
  pose proof (timer_divisor_cases t (timer_zero <| irq_fired := n |>)). lia.
Qed.

Lemma timer_of_range addr : 0 <= timer_of addr.
Proof. unfold timer_of. apply Z.shiftr_nonneg. pose proof (u32_range (addr - TIMER_BASE)). lia. Qed.

Lemma read_wf bc addr s : wf_state s -> wf_state (snd (timers_read bc addr s)).
Proof.
  intros Hs. unfold timers_read. set (t := timer_of addr). set (reg := reg_of addr).
  pose proof (timer_of_range addr) as Hr. fold t in Hr.
  destruct ((t <? 0) || (2 <? t)) eqn:E; [done|].
  assert (0 <= t <= 2) as Ht by lia.
  destruct (reg =? 0); [|destruct (reg =? 4); [|destruct (reg =? 8); done]]; cbn [snd].
  - apply on_timer_wf; [done|done|]. intros tm l Hw. cbn [fst].
    unfold timers_read_counter. destruct bc; [done|].
    set (inc := if (t =? 2) && has (mode tm) MODE_CLK_SRC1 then 1 else 8).
    assert (wf_slot t (tm <| counter := u16 (counter tm + inc) |>)) as H1.
    { eapply wf_slot_upd; try done. apply u16_range. }
    case_if; [|done].
    set (tm1 := (tm <| counter := _ |>) <| mode := _ |>).
    assert (wf_slot t tm1) as H2.
    { eapply wf_slot_upd; [exact H1| |done| |done].
      - apply clk_src_bits. intros i Hi. tb. mode_bits. tb.
      - apply H1. }
    case_if; [|done]. eapply wf_slot_upd; try done.
  - apply on_timer_wf; [done|done|]. intros tm l Hw. cbn [fst].
    eapply wf_slot_upd; [exact Hw| |done|apply Hw|done].
    apply clk_src_bits. intros i Hi. tb. mode_bits. tb.
Qed.

Lemma write_wf addr v s : wf_state s -> wf_state (timers_write addr v s).
Proof.
  intros Hs. unfold timers_write. set (t := timer_of addr). set (reg := reg_of addr).
  pose proof (timer_of_range addr) as Hr. fold t in Hr.
  destruct ((t <? 0) || (2 <? t)) eqn:E; [done|].
  assert (0 <= t <= 2) as Ht by lia.
  assert (forall x, is_u16 (Z.land x 0xFFFF)) as Hl.
  { intros x. rewrite land_ffff. unfold is_u16. dlia. }
  destruct (reg =? 0); [|destruct (reg =? 4); [|destruct (reg =? 8); [|done]]];
    (apply on_timer_wf; [done|done|]); intros tm l Hw; cbn [fst].
  - eapply wf_slot_upd; try done. apply Hl.
  - split; [constructor; cbn; [lia|apply Hw]|].
    match goal with |- 0 <= _ < timer_divisor t ?x =>
      pose proof (timer_divisor_cases t x); change (frac x) with 0; lia end.
  - split; [constructor; cbn; [apply Hw|apply Hl]|]. exact (proj2 Hw).
Qed.

Lemma advance_state_wf c s : 0 <= c < 0x100000000 -> wf_state s -> wf_state (timers_advance c s).
Proof.
  intros Hc Hs. unfold timers_advance. case_if; [done|].
  repeat (apply on_timer_wf; [lia| |intros; by apply advance_wf]). done.
Qed.

Lemma tick_state_wf c s : wf_state s -> wf_state (timers_tick c s).
Proof.
  intros Hs. unfold timers_tick.
  assert (forall t tm l, wf_slot t tm -> wf_slot t (fst (timer_tick t c (tm, l)))) as H.
  { intros t tm l Hw. unfold timer_tick. repeat case_if; try apply ticks_wf_slot; done. }
  repeat (apply on_timer_wf; [lia| |apply H]).
  case_if; [|done]. apply on_timer_wf; [lia|done|]. intros. by apply ticks_wf_slot.
Qed.

Lemma init_wf s : length (timers s) = 3%nat -> wf_state (timers_init s).
Proof.
  destruct s as [l lg]. cbn. intros H.
  destruct l as [|a [|b [|c [|]]]]; try done.
  exists (timer_zero <| irq_fired := irq_fired a |>), (timer_zero <| irq_fired := irq_fired b |>),
    (timer_zero <| irq_fired := irq_fired c |>), lg.
  split; [done|]. split_and!; apply timer_zero_wf.
Qed.

Lemma set_snapshot_mk3 a b c l t0 t1 t2 l' :
  timers_set_snapshot (timers_get_snapshot (mk3 a b c l)) (mk3 t0 t1 t2 l') =
    mk3 (a <| irq_fired := irq_fired t0 |>) (b <| irq_fired := irq_fired t1 |>)
        (c <| irq_fired := irq_fired t2 |>) l'.
Proof. destruct a, b, c, t0, t1, t2. reflexivity. Qed.

Lemma step_wf s s' : step s s' -> wf_state s -> wf_state s'.
Proof.
  intros Hst Hs. destruct Hst.
  - by apply advance_state_wf.
  - by apply read_wf.
  - by apply write_wf.
  - by apply tick_state_wf.
  - apply init_wf. destruct Hs as (?&?&?&?&->&_). done.
  - destruct Hs as (t0&t1&t2&l&->&H0&H1&H2). destruct H as (a&b&c&l'&->&Ha&Hb&Hc).
    rewrite set_snapshot_mk3. eexists _, _, _, _. split; [reflexivity|].
    split_and!; [apply (wf_slot_upd 0 a)|apply (wf_slot_upd 1 b)|apply (wf_slot_upd 2 c)];
      done || apply Ha || apply Hb || apply Hc.
Qed.

(** The fire telemetry has no effect on the counter. *)
Definition set_fired (n : Z) (w : Slot) : Slot := ((fst w) <| irq_fired := n |>, snd w).

Definition same_but_fired (w w' : Slot) : Prop := exists n, w' = set_fired n w.

Lemma fire_irq_fired t w w' :
  same_but_fired w w' -> same_but_fired (timer_fire_irq t w) (timer_fire_irq t w').
Proof.
  destruct w as [[c m tg il fr fi] l]. intros [n ->]. exists (u64 (n + 1)).
  unfold timer_fire_irq, set_fired. cbn.
  destruct (has m MODE_IRQ_TOGGLE); [destruct (negb (Z.lxor il 1 =? 0))|]; cbn; case_if; done.
Qed.

Lemma same_but_fired_upd (f : Timer -> Timer) w w' :
  (forall tm n, f (tm <| irq_fired := n |>) = (f tm) <| irq_fired := n |>) ->
  same_but_fired w w' -> same_but_fired (f (fst w), snd w) (f (fst w'), snd w').
Proof. intros Hf [n ->]. exists n. unfold set_fired. cbn [fst snd]. by rewrite Hf. Qed.

Lemma on_target_fired t w w' :
  same_but_fired w w' -> same_but_fired (on_target t w) (on_target t w').
Proof.
  destruct w as [tm l], w' as [tm' l']. intros H. unfold on_target.
  pose proof (same_but_fired_upd (fun x => x <| mode := Z.lor (mode x) MODE_TARGET_FLAG |>)
    _ _ ltac:(done) H) as H1. cbn [fst snd] in H1.
  set (x := tm <| mode := Z.lor (mode tm) MODE_TARGET_FLAG |>) in *.
  set (x' := tm' <| mode := Z.lor (mode tm') MODE_TARGET_FLAG |>) in *.
  assert (mode x' = mode x) as -> by (destruct H1 as [n E]; apply (f_equal fst) in E; cbn [fst set_fired] in E; by rewrite E).
  assert (same_but_fired (if has (mode x) MODE_IRQ_TARGET then timer_fire_irq t (x, l) else (x, l))
     (if has (mode x) MODE_IRQ_TARGET then timer_fire_irq t (x', l') else (x', l'))) as H2.
  { case_if; [by apply fire_irq_fired|done]. }
  destruct (if has _ _ then timer_fire_irq t (x, l) else _) as [y k].
  destruct (if has _ _ then timer_fire_irq t (x', l') else _) as [y' k'].
  destruct H2 as [n E]. injection E as -> ->. exists n. unfold set_fired. cbn [fst snd mode upd].
  case_if; done.
Qed.

Lemma on_overflow_fired t w w' :
  same_but_fired w w' -> same_but_fired (on_overflow t w) (on_overflow t w').
Proof.
  destruct w as [tm l], w' as [tm' l']. intros H. unfold on_overflow.
  pose proof (same_but_fired_upd (fun x => x <| mode := Z.lor (mode x) MODE_OVERFLOW_FLAG |>)
    _ _ ltac:(done) H) as H1. cbn [fst snd] in H1.
  set (x := tm <| mode := Z.lor (mode tm) MODE_OVERFLOW_FLAG |>) in *.
  set (x' := tm' <| mode := Z.lor (mode tm') MODE_OVERFLOW_FLAG |>) in *.
  assert (mode x' = mode x) as -> by (destruct H1 as [n E]; apply (f_equal fst) in E; cbn [fst set_fired] in E; by rewrite E).
  case_if; [by apply fire_irq_fired|done].
Qed.

Lemma tick_fired t w w' :
  same_but_fired w w' -> same_but_fired (timer_tick_one t w) (timer_tick_one t w').
Proof.
  destruct w as [tm l], w' as [tm' l']. intros H. unfold timer_tick_one.
  pose proof (same_but_fired_upd (fun x => x <| counter := u16 (counter x + 1) |>)
    _ _ ltac:(done) H) as H1. cbn [fst snd] in H1.
  assert (counter tm' = counter tm) as Hc by (destruct H as [n E]; apply (f_equal fst) in E; cbn [fst set_fired] in E; by rewrite E).
  set (x := tm <| counter := u16 (counter tm + 1) |>) in *.
  set (x' := tm' <| counter := u16 (counter tm' + 1) |>) in *.
  assert (counter x' = counter x /\ target x' = target x) as [-> ->]
    by (destruct H1 as [n E]; apply (f_equal fst) in E; cbn [fst set_fired] in E; by rewrite E).
  rewrite Hc.
  destruct (counter x =? target x), (counter tm =? 0xFFFF);
    auto using on_target_fired, on_overflow_fired.
Qed.

Lemma adv_ev_fired t c tm n :
  0 <= t <= 2 -> wf_slot t tm -> 0 < c < 0x100000000 ->
  adv_ev t c (tm <| irq_fired := n |>) = adv_ev t c tm.
Proof.
  intros Ht Hw Hc. unfold adv_ev.
  assert (wf_slot t (tm <| irq_fired := n |>)) as Hw'.
  { eapply wf_slot_upd; try done. apply Hw. }
  rewrite !advance_as_ticks by (done || lia).
  change (adv_total t c (tm <| irq_fired := n |>)) with (adv_total t c tm).
  change (timer_divisor t (tm <| irq_fired := n |>)) with (timer_divisor t tm).
  unfold ziter. set (f := adv_total t c tm mod _). generalize (Z.to_nat (adv_total t c tm / timer_divisor t tm)) as k.
  intros k.
  assert (same_but_fired (Nat.iter k (timer_tick_one t) (tm <| frac := f |>, []))
    (Nat.iter k (timer_tick_one t) (tm <| irq_fired := n |> <| frac := f |>, []))) as [m ->]; [|done].
  induction k as [|k IH]; [by exists n|]. by apply tick_fired.
Qed.

(** ** Properties *)

(** C1: batching a guest-cycle advance is exact.  [timer_advance_counts], which
    jumps from event to event, gives the same slot and the same sequence of bus
    calls as ticking the counter once per count with [timer_tick_one]. *)
Theorem timer_advance_counts_is_ticking (t ticks : Z) (tm : Timer) (l : list Ev) :
  wf_timer tm -> 0 <= ticks < 0x100000000 ->
  timer_advance_counts t ticks (tm, l) = ziter (timer_tick_one t) ticks (tm, l).
Proof. intros. by apply advance_counts_ticks. Qed.

Definition demo_timer : Timer := mkTimer 0xFFF0 0x78 0xFFF4 0 0 0.

Lemma timer_advance_counts_is_ticking_witness :
  wf_timer demo_timer /\
  timer_advance_counts 2 20 (demo_timer, []) = ziter (timer_tick_one 2) 20 (demo_timer, []).
Proof.
  assert (wf_timer demo_timer) as H by (constructor; vm_compute; split; congruence).
  split; [exact H|]. apply timer_advance_counts_is_ticking; [exact H|lia].
Defined.

(** Slicing an advance of the three counters in two does not change the
    counters or I_STAT; only the order of calls between different timers can
    differ. *)
Theorem timers_advance_slicing (a b : Z) (s : State) (i_stat : Z) :
  wf_state s -> 0 <= a -> 0 <= b -> a + b < 0x100000000 - 2146 ->
  let whole := timers_advance (a + b) s in
  let sliced := timers_advance b (timers_advance a s) in
  timers whole = timers sliced /\ Permutation (log whole) (log sliced) /\
  istat_after (log whole) i_stat = istat_after (log sliced) i_stat.
Proof.
  intros (t0 & t1 & t2 & l & -> & H0 & H1 & H2) Ha Hb Hab whole sliced.
  assert (timers whole = timers sliced /\ Permutation (log whole) (log sliced)) as [Ht Hp].
  { unfold whole, sliced.
    destruct (Z.eq_dec a 0) as [->|]; [done|]. destruct (Z.eq_dec b 0) as [->|].
    { by rewrite Z.add_0_r. }
    rewrite !timers_advance_mk3 by lia.
    pose proof (wf_slot_frac _ _ H0). pose proof (wf_slot_frac _ _ H1). pose proof (wf_slot_frac _ _ H2).
    destruct (adv_split 0 a b t0) as [-> ->]; [done || lia..|].
    destruct (adv_split 1 a b t1) as [-> ->]; [done || lia..|].
    destruct (adv_split 2 a b t2) as [-> ->]; [done || lia..|].
    split; [done|]. unfold mk3. cbn [log]. rewrite <- !app_assoc. apply Permutation_app_head.
    solve_Permutation. }
  split; [done|]. split; [done|]. by apply istat_after_perm.
Qed.

Definition demo_state : State := mk3 demo_timer (timer_zero <| mode := 0x100 |>) timer_zero [].

Lemma demo_state_wf : wf_state demo_state.
Proof.
  eexists _, _, _, _. split; [reflexivity|].
  split_and!; (split; [constructor|]); vm_compute; split; congruence.
Defined.

Lemma timers_advance_slicing_witness :
  wf_state demo_state /\
  (let whole := timers_advance (700 + 2000) demo_state in
   let sliced := timers_advance 2000 (timers_advance 700 demo_state) in
   timers whole = timers sliced /\ Permutation (log whole) (log sliced) /\
   istat_after (log whole) 0 = istat_after (log sliced) 0).
Proof.
  split; [apply demo_state_wf|]. apply timers_advance_slicing; [apply demo_state_wf|lia..].
Defined.

(** C2: the slice-trigger deadline is safe.  Advancing by fewer cycles than
    [timers_cycles_to_irq] returns for a mask raises no timer line the mask
    lets through. *)
Theorem timers_cycles_to_irq_safe (i_mask c t : Z) (s : State) :
  wf_state s -> 0 <= c < timers_cycles_to_irq i_mask s ->
  0 <= t <= 2 -> Z.testbit i_mask (timer_irq t) = true ->
  existsb (raises (timer_irq t)) (new_events s (timers_advance c s)) = false.
Proof.
  intros (t0 & t1 & t2 & l & -> & H0 & H1 & H2) Hc Ht Hm.
  rewrite cycles_to_irq_mk3 in Hc by done.
  destruct (Z.eq_dec c 0) as [->|].
  { unfold new_events, timers_advance. cbn. by rewrite drop_all. }
  rewrite new_events_advance, !existsb_app by lia.
  assert (forall t' tm, 0 <= t' <= 2 -> wf_slot t' tm ->
    c < deadline i_mask t' tm ->
    existsb (raises (timer_irq t)) (adv_ev t' c tm) = false) as H.
  { intros t' tm Ht' Hw Hlt. destruct (Z.eq_dec t' t) as [->|]; [|apply adv_ev_own; done || lia].
    unfold deadline in Hlt. rewrite deliverable_bit in Hlt by (done || lia).
    rewrite adv_ev_before; [done|done|done|lia|]. intros d Hd. rewrite Hd in Hlt. done. }
  rewrite !H by (done || lia). done.
Qed.

Lemma timers_cycles_to_irq_safe_witness :
  wf_state demo_state /\ 0 <= 3 < timers_cycles_to_irq 0x10 demo_state /\
  existsb (raises (timer_irq 0)) (new_events demo_state (timers_advance 3 demo_state)) = false.
Proof.
  split; [apply demo_state_wf|]. split; [vm_compute; split; congruence|].
  apply (timers_cycles_to_irq_safe 0x10); [apply demo_state_wf| |lia|reflexivity].
  vm_compute; split; congruence.
Defined.

(** And it is tight.  When every armed timer the mask lets through is armed
    on its target in pulse mode, advancing by exactly the returned number of
    cycles raises one of those lines. *)
Theorem timers_cycles_to_irq_exact (i_mask : Z) (s : State) :
  wf_state s -> timers_cycles_to_irq i_mask s < 0xFFFFFFFF ->
  (forall t d, 0 <= t <= 2 -> deliverable i_mask t (timer_at s t) = Some d ->
     has (mode (timer_at s t)) MODE_IRQ_TARGET = true /\
     has (mode (timer_at s t)) MODE_IRQ_TOGGLE = false) ->
  exists t, 0 <= t <= 2 /\ Z.testbit i_mask (timer_irq t) = true /\
    existsb (raises (timer_irq t))
      (new_events s (timers_advance (timers_cycles_to_irq i_mask s) s)) = true.
Proof.
  intros (t0 & t1 & t2 & l & -> & H0 & H1 & H2) Hlt Harm.
  assert (Hone : forall t tm, 0 <= t <= 2 -> wf_slot t tm -> timer_at (mk3 t0 t1 t2 l) t = tm ->
     let c := timers_cycles_to_irq i_mask (mk3 t0 t1 t2 l) in
     c = deadline i_mask t tm ->
     0 < c /\ Z.testbit i_mask (timer_irq t) = true /\
     existsb (raises (timer_irq t)) (adv_ev t c tm) = true).
  { intros t tm Ht Hw Htm c Hc. specialize (Harm t). unfold deadline in Hc.
    rewrite Htm in Harm. destruct (deliverable i_mask t tm) as [d|] eqn:E; rewrite ?E in Hc; [|unfold c in *; lia].
    specialize (Harm d Ht eq_refl) as [Ha1 Ha2].
    unfold deliverable in E. destruct (has i_mask _) eqn:Em; [|done].
    rewrite Z.shiftl_1_l, has_pow2 in Em by (unfold timer_irq; lia).
    assert (wf_timer tm) as Hwt by apply Hw. assert (0 <= frac tm < timer_divisor t tm) as Hf by apply Hw.
    pose proof (armed_dist_range tm d Hwt E). pose proof (timer_divisor_cases t tm).
    split; [nia|]. split; [done|]. by apply (adv_ev_at t c d). }
  pose proof (Hone 0 t0 ltac:(lia) H0 eq_refl) as A0.
  pose proof (Hone 1 t1 ltac:(lia) H1 eq_refl) as A1.
  pose proof (Hone 2 t2 ltac:(lia) H2 eq_refl) as A2. cbv zeta in A0, A1, A2. clear Hone Harm.
  pose proof (cycles_to_irq_mk3 i_mask t0 t1 t2 l H0 H1 H2) as Hmin.
  set (c := timers_cycles_to_irq _ _) in *.
  assert (c = deadline i_mask 0 t0 \/ c = deadline i_mask 1 t1 \/ c = deadline i_mask 2 t2)
    as [Hc | [Hc | Hc]] by lia.
  - destruct (A0 Hc) as (Hp & Hm & He). exists 0. rewrite new_events_advance by done.
    rewrite !existsb_app, He. done.
  - destruct (A1 Hc) as (Hp & Hm & He). exists 1. rewrite new_events_advance by done.
    rewrite !existsb_app, He, orb_true_r. done.
  - destruct (A2 Hc) as (Hp & Hm & He). exists 2. rewrite new_events_advance by done.
    rewrite !existsb_app, He, !orb_true_r. done.
Qed.

Lemma timers_cycles_to_irq_exact_witness :
  wf_state demo_state /\
  exists t, 0 <= t <= 2 /\ Z.testbit 0x10 (timer_irq t) = true /\
    existsb (raises (timer_irq t))
      (new_events demo_state (timers_advance (timers_cycles_to_irq 0x10 demo_state) demo_state)) = true.
Proof.
  split; [apply demo_state_wf|].
  apply timers_cycles_to_irq_exact; [apply demo_state_wf|reflexivity|].
  intros t d Ht Hd. assert (t = 0 \/ t = 1 \/ t = 2) as [-> | [-> | ->]] by lia.
  - split; reflexivity.
  - vm_compute in Hd. discriminate.
  - vm_compute in Hd. discriminate.
Defined.

(** One-shot mode.  A timer without the repeat bit raises its line at most
    once over any advance, whatever its target and overflow enables, and once
    it has raised both enables are off. *)
Theorem timer_advance_one_shot (t c : Z) (tm : Timer) :
  0 <= t <= 2 -> wf_slot t tm -> 0 <= c < 0x100000000 ->
  has (mode tm) MODE_IRQ_REPEAT = false ->
  let '(tm', calls) := timer_advance t c (tm, []) in
  (n_raises calls <= 1)%nat /\
  (n_raises calls = 1%nat ->
   has (mode tm') MODE_IRQ_TARGET = false /\ has (mode tm') MODE_IRQ_OVERFLOW = false).
Proof.
  intros Ht Hw Hc Hr. rewrite advance_as_ticks by done.
  assert (one_shot_inv (ziter (timer_tick_one t) (adv_total t c tm / timer_divisor t tm)
     (tm <| frac := adv_total t c tm mod timer_divisor t tm |>, []))) as [_ H].
  { apply ziter_ind; [|apply tick_one_shot]. split; [done|]. by left. }
  destruct (ziter _ _ _) as [tm' l']. cbn [fst snd] in H.
  destruct H as [H | (H & H1 & H2)]; rewrite ?H; (split; [lia|]); [done|by intros].
Qed.

Lemma timer_advance_one_shot_witness :
  wf_slot 0 (mkTimer 0 0x18 4 0 0 0) /\
  (let '(tm', calls) := timer_advance 0 100 (mkTimer 0 0x18 4 0 0 0, []) in
   (n_raises calls <= 1)%nat /\
   (n_raises calls = 1%nat ->
    has (mode tm') MODE_IRQ_TARGET = false /\ has (mode tm') MODE_IRQ_OVERFLOW = false)).
Proof.
  assert (wf_slot 0 (mkTimer 0 0x18 4 0 0 0)) as H
    by (split; [constructor|]; vm_compute; split; congruence).
  split; [exact H|]. apply timer_advance_one_shot; [lia|exact H|lia|reflexivity].
Defined.

(** The slots stay well formed under every sequence of calls of the file's
    interface, register traffic, advances, legacy ticks and snapshot restores
    included. *)
Theorem timers_reachable_wf (s s' : State) :
  wf_state s -> rtc step s s' -> wf_state s'.
Proof. intros Hs Hst. induction Hst; [done|]. eauto using step_wf. Qed.

Lemma timers_reachable_wf_witness :
  wf_state demo_state /\
  wf_state (timers_tick 100 (timers_write 0x1F801108 7 (timers_advance 5000 demo_state))).
Proof.
  split; [apply demo_state_wf|].
  apply (timers_reachable_wf demo_state); [apply demo_state_wf|].
  eapply rtc_l; [apply (step_advance 5000); lia|].
  eapply rtc_l; [apply (step_write 0x1F801108 7)|].
  eapply rtc_l; [apply (step_tick 100)|]. apply rtc_refl.
Defined.

(** save and restore.  Restoring the snapshot of [s] into any state gives
    back every register and pre-scaler of [s]; only the fire telemetry of the
    target state survives. *)
Theorem timers_snapshot_roundtrip (s s0 : State) :
  wf_state s -> wf_state s0 ->
  let r := timers_set_snapshot (timers_get_snapshot s) s0 in
  timers_get_snapshot r = timers_get_snapshot s /\
  map irq_fired (timers r) = map irq_fired (timers s0) /\ log r = log s0 /\
  forall c, 0 < c < 0x100000000 -> new_events r (timers_advance c r) = new_events s (timers_advance c s).
Proof.
  intros (a & b & c & l & -> & Ha & Hb & Hc) (t0 & t1 & t2 & l' & -> & _) r.
  unfold r. rewrite set_snapshot_mk3. split; [reflexivity|]. split; [reflexivity|].
  split; [reflexivity|]. intros k Hk. rewrite !new_events_advance by lia.
  f_equal; [|f_equal].
  all: apply adv_ev_fired; (lia || done).
Qed.

Lemma timers_snapshot_roundtrip_witness :
  wf_state demo_state /\
  (let r := timers_set_snapshot (timers_get_snapshot demo_state) (timers_advance 9 demo_state) in
   timers_get_snapshot r = timers_get_snapshot demo_state /\
   map irq_fired (timers r) = map irq_fired (timers (timers_advance 9 demo_state)) /\
   log r = log (timers_advance 9 demo_state) /\
   forall c, 0 < c < 0x100000000 ->
     new_events r (timers_advance c r) = new_events demo_state (timers_advance c demo_state)).
Proof.
  split; [apply demo_state_wf|].
  apply timers_snapshot_roundtrip; [apply demo_state_wf|].
  apply advance_state_wf; [lia|apply demo_state_wf].
Defined.

End Timers.
