(* ===== verification/MacroblockDecoder.v ===== *)
(** * Macroblock decoder (src/runtime/src/mdec.c)

    [State] is [MDECState] together with the file's other statics: the trace
    ring, the frame stamp of the newest colour decode and the decode counter.
    The heap buffers [mdec.input] and [mdec.output] are partial maps from
    index to value ([realloc] keeps the cells, fresh cells are undefined) with
    their capacity; a read of an undefined cell gives 0 in the model and the
    invariant shows that no operation makes one.  [frame] is the value of the
    global [s_frame_count] during the call. *)

From S2P Require Import Prelude Rings.

Module Mdec.

Definition MDEC_CMD_NOP := 0.
Definition MDEC_CMD_DECODE := 1.
Definition MDEC_CMD_SET_QUANT := 2.
Definition MDEC_CMD_SET_SCALE := 3.

Definition MDEC_EVT_RESET := 1.
Definition MDEC_EVT_CTRL_WRITE := 2.
Definition MDEC_EVT_CMD_BEGIN := 3.
Definition MDEC_EVT_CMD_DONE := 4.
Definition MDEC_EVT_DECODE_DONE := 5.
Definition MDEC_EVT_DMA_IN_START := 6.
Definition MDEC_EVT_DMA_IN_END := 7.
Definition MDEC_EVT_DMA_OUT_START := 8.
Definition MDEC_EVT_DMA_OUT_END := 9.
Definition MDEC_EVT_OUTPUT_DRAINED := 10.
Definition MDEC_EVT_READ_UNDERFLOW := 11.

Definition MDEC_STOP_NONE := 0.
Definition MDEC_STOP_INPUT_END := 1.
Definition MDEC_STOP_CR := 2.
Definition MDEC_STOP_CB := 3.
Definition MDEC_STOP_Y0 := 4.
Definition MDEC_STOP_Y1 := 5.
Definition MDEC_STOP_Y2 := 6.
Definition MDEC_STOP_Y3 := 7.

Definition zigzag_to_linear : list Z :=
  [0x00; 0x08; 0x01; 0x02; 0x09; 0x10; 0x18; 0x11;
   0x0a; 0x03; 0x04; 0x0b; 0x12; 0x19; 0x20; 0x28;
   0x21; 0x1a; 0x13; 0x0c; 0x05; 0x06; 0x0d; 0x14;
   0x1b; 0x22; 0x29; 0x30; 0x38; 0x31; 0x2a; 0x23;
   0x1c; 0x15; 0x0e; 0x07; 0x0f; 0x16; 0x1d; 0x24;
   0x2b; 0x32; 0x39; 0x3a; 0x33; 0x2c; 0x25; 0x1e;
   0x17; 0x1f; 0x26; 0x2d; 0x34; 0x3b; 0x3c; 0x35;
   0x2e; 0x27; 0x2f; 0x36; 0x3d; 0x3e; 0x37; 0x3f].

Record MDECDebugEvent := mkEvent {
  e_seq : Z; e_frame : Z; e_kind : Z; e_value : Z; e_command : Z;
  e_input_count : Z; e_expected_halfwords : Z; e_output_size : Z; e_output_pos : Z;
  e_macroblocks : Z; e_blocks : Z; e_stop_reason : Z; e_underruns : Z
}.

#[projections(primitive)] Record State := mkState {
  command : Z;
  expected_halfwords : Z;
  input_count : Z;
  input : gmap Z Z;
  input_cap : Z;
  output : gmap Z Z;
  output_size : Z;
  output_pos : Z;
  output_cap : Z;
  y_quant : list Z;
  uv_quant : list Z;
  scale : list Z;
  output_bit15 : Z;
  output_signed : Z;
  output_depth : Z;
  current_block : Z;
  busy : Z;
  input_full : Z;
  enable_dma_in : Z;
  enable_dma_out : Z;
  last_status : Z;
  decode_macroblocks : Z;
  decode_blocks : Z;
  decode_stop_reason : Z;
  decode_input_pos : Z;
  decode_input_end : Z;
  dma_in_words : Z;
  dma_out_words : Z;
  dma_read_underflows : Z;
  (* file statics outside the struct *)
  mdec_trace : gmap Z MDECDebugEvent;
  mdec_trace_seq : Z;
  mdec_trace_head : Z;
  mdec_last_color_decode_frame : Z;
  g_mdec_decode_count : Z;
}.
#[export] Instance eta_State : Eta State := fun r =>
  mkState (command r) (expected_halfwords r) (input_count r) (input r) (input_cap r)
    (output r) (output_size r) (output_pos r) (output_cap r) (y_quant r) (uv_quant r) (scale r)
    (output_bit15 r) (output_signed r) (output_depth r) (current_block r) (busy r) (input_full r)
    (enable_dma_in r) (enable_dma_out r) (last_status r) (decode_macroblocks r) (decode_blocks r)
    (decode_stop_reason r) (decode_input_pos r) (decode_input_end r) (dma_in_words r)
    (dma_out_words r) (dma_read_underflows r) (mdec_trace r) (mdec_trace_seq r)
    (mdec_trace_head r) (mdec_last_color_decode_frame r) (g_mdec_decode_count r).

Definition zeros64 : list Z := replicate 64 0.
Definition MDEC_TRACE_CAP := 4096.

Definition trace_event (frame kind value : Z) (s : State) : State :=
  let e := mkEvent (mdec_trace_seq s) (u32 frame) kind value (command s)
             (input_count s) (expected_halfwords s) (output_size s) (output_pos s)
             (decode_macroblocks s) (decode_blocks s) (decode_stop_reason s)
             (dma_read_underflows s) in
  s <| mdec_trace := <[mdec_trace_head s := e]> (mdec_trace s) |>
    <| mdec_trace_seq := u64 (mdec_trace_seq s + 1) |>
    <| mdec_trace_head := u32 (mdec_trace_head s + 1) mod MDEC_TRACE_CAP |>.

Definition sign_extend_10 (value : Z) : Z := s16 (Z.shiftr (s16 (Z.shiftl value 6)) 6).

Definition clamp_int (value lo hi : Z) : Z :=
  if value <? lo then lo else if hi <? value then hi else value.

Definition clear_output (s : State) : State := s <| output_size := 0 |> <| output_pos := 0 |>.

(** Rounds of a capacity-doubling loop: a uint32 reaches any bound up to 2^31
    in 32 doublings. *)
Definition grow (cap wanted : Z) : Z :=
  pwhile 32 (fun c => c <? wanted) (fun c => u32 (c * 2)) cap.

Section Heap.

(** Does [realloc] succeed for this request (in bytes) in this state? *)
Variable realloc_ok : State -> Z -> bool.

Definition ensure_input_capacity (halfwords : Z) (s : State) : bool * State :=
  if halfwords <=? input_cap s then (true, s) else
  let new_cap := grow (if negb (input_cap s =? 0) then input_cap s else 256) halfwords in
  if negb (realloc_ok s (new_cap * 2)) then (false, s)
  else (true, s <| input_cap := new_cap |>).

Definition ensure_output_capacity (bytes : Z) (s : State) : bool * State :=
  if bytes <=? output_cap s then (true, s) else
  let new_cap := grow (if negb (output_cap s =? 0) then output_cap s else 4096) bytes in
  if negb (realloc_ok s new_cap) then (false, s)
  else (true, s <| output_cap := new_cap |>).

Definition append_byte (value : Z) (s : State) : State :=
  let '(ok, s) := ensure_output_capacity (u32 (output_size s + 1)) s in
  if negb ok then s else
  s <| output := <[output_size s := value]> (output s) |>
    <| output_size := u32 (output_size s + 1) |>.

Definition input_at (s : State) (i : Z) : Z := default 0 (input s !! i).

Definition input_byte (s : State) (byte_index : Z) : Z :=
  let hw := input_at s (Z.shiftr byte_index 1) in
  if has byte_index 1 then u8 (Z.shiftr hw 8) else u8 hw.

Definition finish_command (frame : Z) (s : State) : State :=
  let s := s <| expected_halfwords := 0 |> <| input_count := 0 |>
             <| busy := 0 |> <| input_full := 0 |> in
  trace_event frame MDEC_EVT_CMD_DONE (command s) s.

(** [memset(&mdec, 0, sizeof mdec)]: the statics outside the struct stay. *)
Definition mdec_zero (s : State) : State :=
  mkState 0 0 0 ∅ 0 ∅ 0 0 0 zeros64 zeros64 zeros64 0 0 0 0 0 0 0 0 0 0 0 0 0 0 0 0 0
    (mdec_trace s) (mdec_trace_seq s) (mdec_trace_head s)
    (mdec_last_color_decode_frame s) (g_mdec_decode_count s).

Definition soft_reset (s : State) : State :=
  (mdec_zero s)
    <| input := input s |> <| input_cap := input_cap s |>
    <| output := output s |> <| output_cap := output_cap s |>
    <| y_quant := y_quant s |> <| uv_quant := uv_quant s |> <| scale := scale s |>
    <| output_depth := 3 |> <| current_block := 4 |>.

Definition sign_x_to_s32 (bits v : Z) : Z :=
  let shift := 32 - bits in Z.shiftr (s32 (u32 (Z.shiftl v shift))) shift.

Definition mask9_clamp_s8 (v : Z) : Z :=
  let v := sign_x_to_s32 9 v in
  let v := if v <? -128 then -128 else v in
  if 127 <? v then 127 else v.

(** The inner [u] loop: an eight-tap product of row [a] of [m] and row [b] of
    the scale table. *)
Definition taps (m sc : list Z) (a b : Z) : Z :=
  forZ 0 8 (fun u sum => sum + aget m (a * 8 + u) * aget sc (b * 8 + u)) 0.

(** Pass 1: int16 out, transposed. *)
Definition idct_pass1 (sc block : list Z) : list Z :=
  forZ 0 8 (fun col tmp => forZ 0 8 (fun x tmp =>
    aset tmp (x * 8 + col) (s16 (Z.shiftr (taps block sc col x + 0x4000) 15))) tmp) zeros64.

(** Pass 2: int8 out, no transpose. *)
Definition idct_pass2 (sc tmp block : list Z) : list Z :=
  forZ 0 8 (fun col block => forZ 0 8 (fun x block =>
    aset block (col * 8 + x)
      (s16 (mask9_clamp_s8 (Z.shiftr (taps tmp sc col x + 0x4000) 15)))) block) block.

Definition idct_block (sc block : list Z) : list Z :=
  idct_pass2 sc (idct_pass1 sc block) block.

(** The rounding bias: [ci ? (ci < 0 ? 8 : -8) : 0]. *)
Definition bias (ci : Z) : Z := if negb (ci =? 0) then (if ci <? 0 then 8 else -8) else 0.

Definition dequant_dc (ci q : Z) : Z :=
  let tmp := if negb (q =? 0) then Z.shiftl (ci * q) 4 + bias ci else Z.shiftl (ci * 2) 4 in
  s16 (clamp_int tmp (-0x4000) 0x3FFF).

Definition dequant_ac (ci q : Z) : Z :=
  let tmp := if negb (q =? 0) then Z.shiftl (Z.shiftr (ci * q) 3) 4 + bias ci
             else Z.shiftl (ci * 2) 4 in
  s16 (clamp_int tmp (-0x4000) 0x3FFF).

(** The AC loop's variables; [ac_break] is the loop having taken a [break]. *)
Record AcLoop := mkAc { ac_block : list Z; ac_pos : Z; ac_k : Z; ac_break : bool }.

Definition ac_round (inp : Z -> Z) (quant : list Z) (qscale : Z) (a : AcLoop) : AcLoop :=
  let word := inp (ac_pos a) in
  let pos := u32 (ac_pos a + 1) in
  if word =? 0xFE00 then mkAc (ac_block a) pos (ac_k a) true else
  let k := u32 (ac_k a + Z.land (Z.shiftr word 10) 0x3F + 1) in
  if 64 <=? k then mkAc (ac_block a) pos k true else
  let ci := sign_extend_10 (Z.land word 0x03FF) in
  let q := qscale * aget quant k in
  mkAc (aset (ac_block a) (aget zigzag_to_linear k) (dequant_ac ci q)) pos k false.

(** Result of [decode_rle_block]: the return value, the block, the position. *)
Record RleResult := mkRle { rle_ok : bool; rle_block : list Z; rle_pos : Z }.

Definition decode_rle_block (quant : list Z) (pos end_ : Z) (s : State) : RleResult * State :=
  let block := zeros64 in
  if end_ <=? pos then (mkRle false block pos, s) else
  let s := s <| decode_blocks := u32 (decode_blocks s + 1) |> in
  let '(word, pos) :=
    pwhile (Z.to_pos (end_ - pos)) (fun '(word, pos) => (word =? 0xFE00) && (pos <? end_))
      (fun '(word, pos) => (input_at s pos, u32 (pos + 1)))
      (input_at s pos, u32 (pos + 1)) in
  let qscale := Z.land (Z.shiftr word 10) 0x3F in
  let ci := sign_extend_10 (Z.land word 0x03FF) in
  let block := aset block 0 (dequant_dc ci (aget quant 0)) in
  let a := pwhile (Z.to_pos (end_ - pos))
             (fun a => negb (ac_break a) && (ac_pos a <? end_) && (ac_k a <? 63))
             (ac_round (input_at s) quant qscale) (mkAc block pos 0 false) in
  (mkRle true (idct_block (scale s) (ac_block a)) (ac_pos a), s).

Definition to_output_u8 (s : State) (value : Z) : Z :=
  let value := clamp_int value (-128) 127 in
  if negb (output_signed s =? 0) then u8 (s8 value) else u8 (value + 128).

Definition rgb_to_555_chan (c : Z) : Z :=
  let v := Z.shiftr (c + 4) 3 in if 0x1F <? v then 0x1F else v.

Definition append_rgb_pixel (y cr cb : Z) (s : State) : State :=
  let r := mask9_clamp_s8 (y + Z.shiftr (359 * cr + 0x80) 8) in
  let g := mask9_clamp_s8 (y + Z.shiftr (Z.land (-88 * cb) (Z.lnot 0x1F)
                                         + Z.land (-183 * cr) (Z.lnot 0x07) + 0x80) 8) in
  let b := mask9_clamp_s8 (y + Z.shiftr (454 * cb + 0x80) 8) in
  let ru := Z.lxor r 0x80 in let gu := Z.lxor g 0x80 in let bu := Z.lxor b 0x80 in
  if output_depth s =? 3 then
    let packed := u16 (Z.lor (Z.lor (rgb_to_555_chan (u8 ru))
                                (Z.shiftl (rgb_to_555_chan (u8 gu)) 5))
                         (Z.shiftl (rgb_to_555_chan (u8 bu)) 10)) in
    let pixel_xor := u16 (Z.lor (if negb (output_bit15 s =? 0) then 0x8000 else 0)
                            (if negb (output_signed s =? 0) then 0x4210 else 0)) in
    let packed := Z.lxor packed pixel_xor in
    append_byte (u8 (Z.shiftr packed 8)) (append_byte (u8 packed) s)
  else
    let rgb_xor := if negb (output_signed s =? 0) then 0x80 else 0x00 in
    append_byte (u8 (Z.lxor bu rgb_xor))
      (append_byte (u8 (Z.lxor gu rgb_xor)) (append_byte (u8 (Z.lxor ru rgb_xor)) s)).

Definition append_luma_block (yblk : list Z) (s : State) : State :=
  forZ 0 64 (fun i s => append_byte (to_output_u8 s (aget yblk i)) s) s.

Definition append_color_macroblock (crblk cbblk : list Z) (yblk : list (list Z)) (s : State)
    : State :=
  forZ 0 16 (fun py s => forZ 0 16 (fun px s =>
    let y_index := (if 8 <=? py then 2 else 0) + (if 8 <=? px then 1 else 0) in
    let lx := Z.land px 7 in
    let ly := Z.land py 7 in
    let chroma := Z.shiftr px 1 + Z.shiftr py 1 * 8 in
    append_rgb_pixel (aget (nth (Z.to_nat y_index) yblk []) (lx + ly * 8))
      (aget crblk chroma) (aget cbblk chroma) s) s) s.

(** The six blocks of a colour macroblock: the quant table each uses and the
    stop reason when the input ends before it. *)
Definition six_blocks (s : State) : list (list Z * Z) :=
  [(uv_quant s, MDEC_STOP_CR); (uv_quant s, MDEC_STOP_CB); (y_quant s, MDEC_STOP_Y0);
   (y_quant s, MDEC_STOP_Y1); (y_quant s, MDEC_STOP_Y2); (y_quant s, MDEC_STOP_Y3)].

Fixpoint decode_each (l : list (list Z * Z)) (pos end_ : Z) (s : State)
    : option (list (list Z)) * Z * State :=
  match l with
  | [] => (Some [], pos, s)
  | (quant, stop) :: l =>
      let '(r, s) := decode_rle_block quant pos end_ s in
      if negb (rle_ok r) then (None, rle_pos r, s <| decode_stop_reason := stop |>) else
      let '(bs, pos, s) := decode_each l (rle_pos r) end_ s in
      (cons (rle_block r) <$> bs, pos, s)
  end.

(** The variables of the two decode loops; [dl_go] is false after a [break]
    or after a false side-effecting condition. *)
Record DecodeLoop := mkDl { dl_pos : Z; dl_state : State; dl_go : bool }.

Definition luma_round (end_ : Z) (d : DecodeLoop) : DecodeLoop :=
  let '(r, s) := decode_rle_block (y_quant (dl_state d)) (dl_pos d) end_ (dl_state d) in
  if negb (rle_ok r) then mkDl (rle_pos r) s false else
  let s := append_luma_block (rle_block r) s in
  mkDl (rle_pos r) (s <| decode_macroblocks := u32 (decode_macroblocks s + 1) |>) true.

Definition color_round (end_ : Z) (d : DecodeLoop) : DecodeLoop :=
  let '(bs, pos, s) := decode_each (six_blocks (dl_state d)) (dl_pos d) end_ (dl_state d) in
  match bs with
  | Some (crblk :: cbblk :: yblk) =>
      let s := append_color_macroblock crblk cbblk yblk s in
      mkDl pos (s <| decode_macroblocks := u32 (decode_macroblocks s + 1) |>) true
  | _ => mkDl pos s false
  end.

Definition decode_guard (end_ : Z) (d : DecodeLoop) : bool := dl_go d && (dl_pos d <? end_).

Definition execute_decode (frame : Z) (s : State) : State :=
  let pos := 0 in
  let end_ := input_count s in
  let s := s <| g_mdec_decode_count := u32 (g_mdec_decode_count s + 1) |> in
  let s := clear_output s in
  let s := s <| decode_macroblocks := 0 |> <| decode_blocks := 0 |>
             <| decode_stop_reason := MDEC_STOP_NONE |> <| decode_input_pos := 0 |>
             <| decode_input_end := end_ |> <| dma_out_words := 0 |>
             <| dma_read_underflows := 0 |> in
  if output_depth s <? 2 then
    let d := pwhile (Z.to_pos end_) (decode_guard end_) (luma_round end_) (mkDl pos s true) in
    let s := dl_state d in
    let s := s <| decode_stop_reason :=
                   if end_ <=? dl_pos d then MDEC_STOP_INPUT_END else MDEC_STOP_Y0 |>
               <| decode_input_pos := dl_pos d |> in
    trace_event frame MDEC_EVT_DECODE_DONE (output_size s) s
  else
    let d := pwhile (Z.to_pos end_) (decode_guard end_) (color_round end_) (mkDl pos s true) in
    let s := dl_state d in
    let s := if (end_ <=? dl_pos d) && (decode_stop_reason s =? MDEC_STOP_NONE)
             then s <| decode_stop_reason := MDEC_STOP_INPUT_END |> else s in
    let s := s <| decode_input_pos := dl_pos d |>
               <| mdec_last_color_decode_frame := frame |> in
    trace_event frame MDEC_EVT_DECODE_DONE (output_size s) s.

Definition execute_command (frame : Z) (s : State) : State :=
  let op := Z.shiftr (command s) 29 in
  let s :=
    if op =? MDEC_CMD_SET_QUANT then
      let s := forZ 0 64 (fun i s => s <| y_quant := aset (y_quant s) i (input_byte s i) |>) s in
      if has (command s) 1 then
        forZ 0 64 (fun i s => s <| uv_quant := aset (uv_quant s) i (input_byte s (64 + i)) |>) s
      else s <| uv_quant := y_quant s |>
    else if op =? MDEC_CMD_SET_SCALE then
      forZ 0 64 (fun i s =>
        let t := Z.lor (Z.shiftl (Z.land i 7) 3) (Z.land (Z.shiftr i 3) 7) in
        s <| scale := aset (scale s) t (s16 (Z.shiftr (s16 (input_at s i)) 3)) |>) s
    else if op =? MDEC_CMD_DECODE then execute_decode frame s
    else s in
  finish_command frame s.

Definition begin_command (frame value : Z) (s : State) : State :=
  let s := s <| command := value |>
             <| output_bit15 := u8 (Z.land (Z.shiftr value 25) 1) |>
             <| output_signed := u8 (Z.land (Z.shiftr value 26) 1) |>
             <| output_depth := u8 (Z.land (Z.shiftr value 27) 3) |>
             <| current_block := 4 |> <| input_count := 0 |> <| input_full := 0 |>
             <| busy := 1 |> in
  let op := Z.shiftr value 29 in
  let s := s <| expected_halfwords :=
    if op =? MDEC_CMD_DECODE then Z.land value 0xFFFF * 2
    else if op =? MDEC_CMD_SET_QUANT then (if has value 1 then 64 else 32)
    else if op =? MDEC_CMD_SET_SCALE then 64
    else 0 |> in
  if expected_halfwords s =? 0 then finish_command frame s else
  let '(ok, s) := ensure_input_capacity (expected_halfwords s) s in
  if negb ok then finish_command frame s
  else trace_event frame MDEC_EVT_CMD_BEGIN value s.

(** One [mdec.input[mdec.input_count++] = v]. *)
Definition push_input (v : Z) (s : State) : State :=
  s <| input := <[input_count s := v]> (input s) |> <| input_count := u32 (input_count s + 1) |>.

Definition write_data (frame value : Z) (s : State) : State :=
  if negb (busy s =? 0) && (input_count s <? expected_halfwords s) then
    let s := push_input (u16 value) s in
    let s := if input_count s <? expected_halfwords s
             then push_input (u16 (Z.shiftr value 16)) s else s in
    if expected_halfwords s <=? input_count s then execute_command frame s else s
  else begin_command frame value s.

Definition mdec_recently_active (frame within_frames : Z) (s : State) : bool :=
  u64 (frame - mdec_last_color_decode_frame s) <=? within_frames.

Definition mdec_init (s : State) : State :=
  let s := mdec_zero s in
  let s := s <| mdec_trace := ∅ |> <| mdec_trace_seq := 0 |> <| mdec_trace_head := 0 |> in
  let s := forZ 0 64 (fun i s => s <| y_quant := aset (y_quant s) i 1 |>
                                   <| uv_quant := aset (uv_quant s) i 1 |>) s in
  s <| output_depth := 3 |> <| current_block := 4 |>.

Definition mdec_dma_write_ready (s : State) : bool :=
  if output_pos s <? output_size s then false
  else (busy s =? 0) || (input_count s <? expected_halfwords s).

Definition mdec_dma_read_ready (s : State) : bool := output_pos s <? output_size s.

Definition mdec_dma_write_word (frame value : Z) (s : State) : State := write_data frame value s.

(** One byte of the read loop: [value] and the state before and after. *)
Definition read_byte (i : Z) (x : Z * State) : Z * State :=
  let '(value, s) := x in
  if output_pos s <? output_size s then
    (Z.lor value (Z.shiftl (default 0 (output s !! output_pos s)) (i * 8)),
     s <| output_pos := u32 (output_pos s + 1) |>)
  else (value, s).

Definition mdec_dma_read_word (frame : Z) (s : State) : Z * State :=
  let start_pos := output_pos s in
  let '(value, s) := forZ 0 4 read_byte (0, s) in
  let s := s <| dma_out_words := u32 (dma_out_words s + 1) |> in
  let s :=
    if output_size s <=? start_pos then
      let s := s <| dma_read_underflows := u32 (dma_read_underflows s + 1) |> in
      if dma_read_underflows s =? 1
      then trace_event frame MDEC_EVT_READ_UNDERFLOW (dma_out_words s) s else s
    else s in
  let s :=
    if output_size s <=? output_pos s
    then clear_output (trace_event frame MDEC_EVT_OUTPUT_DRAINED (output_size s) s) else s in
  (value, s).

Definition mdec_read (frame addr : Z) (s : State) : Z * State :=
  let offset := Z.land addr 7 in
  if offset =? 0 then mdec_dma_read_word frame s else
  let remaining_words :=
    if negb (busy s =? 0) && (input_count s <? expected_halfwords s)
    then u32 (expected_halfwords s - input_count s + 1) / 2 else 0 in
  let status := if negb (remaining_words =? 0) then Z.land (remaining_words - 1) 0xFFFF else 0xFFFF in
  let status := Z.lor status (Z.shiftl (Z.land (current_block s) 7) 16) in
  let status := Z.lor status (Z.shiftl (Z.land (output_bit15 s) 1) 23) in
  let status := Z.lor status (Z.shiftl (Z.land (output_signed s) 1) 24) in
  let status := Z.lor status (Z.shiftl (Z.land (output_depth s) 3) 25) in
  let write_ready := mdec_dma_write_ready s in
  let status := if negb write_ready then Z.lor status (Z.shiftl 1 30) else status in
  let status := if negb (enable_dma_out s =? 0) && mdec_dma_read_ready s
                then Z.lor status (Z.shiftl 1 27) else status in
  let status := if negb (enable_dma_in s =? 0) && write_ready
                then Z.lor status (Z.shiftl 1 28) else status in
  let status := if negb (busy s =? 0) then Z.lor status (Z.shiftl 1 29) else status in
  let status := if output_size s <=? output_pos s then Z.lor status (Z.shiftl 1 31) else status in
  (status, s <| last_status := status |>).

Definition mdec_write (frame addr value : Z) (s : State) : State :=
  let offset := Z.land addr 7 in
  if offset =? 0 then write_data frame value s else
  let s := if has value 0x80000000
           then trace_event frame MDEC_EVT_RESET value (soft_reset s) else s in
  let s := s <| enable_dma_in := u8 (Z.land (Z.shiftr value 30) 1) |>
             <| enable_dma_out := u8 (Z.land (Z.shiftr value 29) 1) |> in
  trace_event frame MDEC_EVT_CTRL_WRITE value s.

Definition mdec_debug_get_event_total (s : State) : Z := mdec_trace_seq s.

Definition mdec_debug_copy_events (seq_lo seq_hi max_count : Z) (s : State)
    : list (option MDECDebugEvent) :=
  if max_count =? 0 then [] else
  let oldest := if MDEC_TRACE_CAP <? mdec_trace_seq s
                then mdec_trace_seq s - MDEC_TRACE_CAP else 0 in
  let seq_lo := if seq_lo <? oldest then oldest else seq_lo in
  let seq_hi := if mdec_trace_seq s <? seq_hi then mdec_trace_seq s else seq_hi in
  map (fun seq => mdec_trace s !! (seq mod MDEC_TRACE_CAP))
    (seqZ seq_lo (Z.min (seq_hi - seq_lo) max_count)).

Definition mdec_debug_clear (s : State) : State :=
  s <| mdec_trace := ∅ |> <| mdec_trace_seq := 0 |> <| mdec_trace_head := 0 |>.

Definition mdec_debug_dma_in_start (frame words : Z) (s : State) : State :=
  trace_event frame MDEC_EVT_DMA_IN_START words s.
Definition mdec_debug_dma_in_end (frame words : Z) (s : State) : State :=
  let s := s <| dma_in_words := u32 (dma_in_words s + words) |> in
  trace_event frame MDEC_EVT_DMA_IN_END words s.
Definition mdec_debug_dma_out_start (frame words : Z) (s : State) : State :=
  trace_event frame MDEC_EVT_DMA_OUT_START words s.
Definition mdec_debug_dma_out_end (frame words : Z) (s : State) : State :=
  trace_event frame MDEC_EVT_DMA_OUT_END words s.

End Heap.

Definition state0 : State :=
  mdec_init (mkState 0 0 0 ∅ 0 ∅ 0 0 0 zeros64 zeros64 zeros64 0 0 0 0 0 0 0 0 0 0 0 0 0 0 0 0 0
    ∅ 0 0 (u64 (-1000)) 0).

(** The exported entry points that change the decoder's state. *)
Inductive Op :=
| OpWrite (frame addr value : Z)
| OpRead (frame addr : Z)
| OpDmaIn (frame value : Z)
| OpDmaOut (frame : Z)
| OpDebug (kind : Z) (frame words : Z)
| OpClear
| OpInit.

Definition mdec_op (realloc_ok : State -> Z -> bool) (o : Op) (s : State) : State :=
  match o with
  | OpWrite frame addr value => mdec_write realloc_ok frame addr value s
  | OpRead frame addr => snd (mdec_read frame addr s)
  | OpDmaIn frame value => mdec_dma_write_word realloc_ok frame value s
  | OpDmaOut frame => snd (mdec_dma_read_word frame s)
  | OpDebug kind frame words =>
      if kind =? 0 then mdec_debug_dma_in_start frame words s
      else if kind =? 1 then mdec_debug_dma_in_end frame words s
      else if kind =? 2 then mdec_debug_dma_out_start frame words s
      else mdec_debug_dma_out_end frame words s
  | OpClear => mdec_debug_clear s
  | OpInit => mdec_init s
  end.

(** ** List-level reference decoder

    What the input stream means, with no cursor, capacity or buffer: a stream
    is a list of halfwords and a block consumes a prefix of it. *)

(** The header halfword: padding is skipped unless it is all there is. *)
Fixpoint spec_header (w : Z) (l : list Z) : Z * list Z :=
  match l with
  | w' :: l' => if w =? 0xFE00 then spec_header w' l' else (w, l)
  | [] => (w, [])
  end.

(** The AC coefficients after position [k]. *)
Fixpoint spec_ac (quant : list Z) (qscale k : Z) (block l : list Z) : list Z * list Z :=
  match l with
  | [] => (block, [])
  | w :: l' =>
      if 63 <=? k then (block, l) else
      if w =? 0xFE00 then (block, l') else
      let k' := k + Z.land (Z.shiftr w 10) 0x3F + 1 in
      if 64 <=? k' then (block, l') else
      spec_ac quant qscale k'
        (aset block (aget zigzag_to_linear k')
           (dequant_ac (sign_extend_10 (Z.land w 0x03FF)) (qscale * aget quant k'))) l'
  end.

Definition spec_block (sc quant l : list Z) : option (list Z * list Z) :=
  match l with
  | [] => None
  | w0 :: l0 =>
      let '(w, l1) := spec_header w0 l0 in
      let dc := aset zeros64 0 (dequant_dc (sign_extend_10 (Z.land w 0x03FF)) (aget quant 0)) in
      let '(b, l2) := spec_ac quant (Z.land (Z.shiftr w 10) 0x3F) 0 dc l1 in
      Some (idct_block sc b, l2)
  end.

(** A run of blocks, each with its quant table and stop reason. *)
Fixpoint spec_each (sc : list Z) (qs : list (list Z * Z)) (l : list Z)
    : (list (list Z) * list Z) + Z :=
  match qs with
  | [] => inl ([], l)
  | (quant, stop) :: qs =>
      match spec_block sc quant l with
      | None => inr stop
      | Some (b, l1) =>
          match spec_each sc qs l1 with
          | inl (bs, l2) => inl (b :: bs, l2)
          | inr e => inr e
          end
      end
  end.

(** Luma streams: one block after the other until the input is used up. *)
Inductive luma_stream (sc quant : list Z) : list Z -> list (list Z) -> Prop :=
| luma_nil : luma_stream sc quant [] []
| luma_cons l b l1 bs :
    spec_block sc quant l = Some (b, l1) -> luma_stream sc quant l1 bs ->
    luma_stream sc quant l (b :: bs).

(** Colour streams: macroblocks of six blocks; the stop reason tells whether
    the input ended between macroblocks or inside one. *)
Inductive color_stream (sc : list Z) (qs : list (list Z * Z))
  : list Z -> list (list (list Z)) -> Z -> Prop :=
| color_nil : color_stream sc qs [] [] MDEC_STOP_INPUT_END
| color_short l stop :
    l <> [] -> spec_each sc qs l = inr stop -> color_stream sc qs l [] stop
| color_cons l bs l1 mbs stop :
    l <> [] -> spec_each sc qs l = inl (bs, l1) -> color_stream sc qs l1 mbs stop ->
    color_stream sc qs l (bs :: mbs) stop.

(** Output formats.  [cfg] is (depth, signed, bit15). *)
Definition cfg (s : State) : Z * Z * Z := (output_depth s, output_signed s, output_bit15 s).

Definition luma_byte (c : Z * Z * Z) (v : Z) : Z :=
  let '(_, signed, _) := c in
  let v := clamp_int v (-128) 127 in
  if negb (signed =? 0) then u8 (s8 v) else u8 (v + 128).

Definition pixel_bytes (c : Z * Z * Z) (y cr cb : Z) : list Z :=
  let '(depth, signed, bit15) := c in
  let r := mask9_clamp_s8 (y + Z.shiftr (359 * cr + 0x80) 8) in
  let g := mask9_clamp_s8 (y + Z.shiftr (Z.land (-88 * cb) (Z.lnot 0x1F)
                                         + Z.land (-183 * cr) (Z.lnot 0x07) + 0x80) 8) in
  let b := mask9_clamp_s8 (y + Z.shiftr (454 * cb + 0x80) 8) in
  let ru := Z.lxor r 0x80 in let gu := Z.lxor g 0x80 in let bu := Z.lxor b 0x80 in
  if depth =? 3 then
    let packed := u16 (Z.lor (Z.lor (rgb_to_555_chan (u8 ru))
                                (Z.shiftl (rgb_to_555_chan (u8 gu)) 5))
                         (Z.shiftl (rgb_to_555_chan (u8 bu)) 10)) in
    let px := Z.lxor packed (u16 (Z.lor (if negb (bit15 =? 0) then 0x8000 else 0)
                                    (if negb (signed =? 0) then 0x4210 else 0))) in
    [u8 px; u8 (Z.shiftr px 8)]
  else
    let x := if negb (signed =? 0) then 0x80 else 0x00 in
    [u8 (Z.lxor ru x); u8 (Z.lxor gu x); u8 (Z.lxor bu x)].

Definition luma_bytes (c : Z * Z * Z) (blk : list Z) : list Z :=
  map (fun i => luma_byte c (aget blk i)) (seqZ 0 64).

(** Row-major 16x16 pixels from four luma quadrants and shared chroma. *)
Definition mb_bytes (c : Z * Z * Z) (bs : list (list Z)) : list Z :=
  match bs with
  | crblk :: cbblk :: yblk =>
      flat_map (fun py => flat_map (fun px =>
        pixel_bytes c
          (aget (nth (Z.to_nat ((if 8 <=? py then 2 else 0) + (if 8 <=? px then 1 else 0))) yblk [])
             (Z.land px 7 + Z.land py 7 * 8))
          (aget crblk (Z.shiftr px 1 + Z.shiftr py 1 * 8))
          (aget cbblk (Z.shiftr px 1 + Z.shiftr py 1 * 8))) (seqZ 0 16)) (seqZ 0 16)
  | _ => []
  end.

(** Abstraction: the halfwords received so far, the bytes produced, and the
    bytes a reader will still get. *)
Definition cells (m : gmap Z Z) (lo hi : Z) : list Z :=
  map (fun i => default 0 (m !! i)) (seqZ lo (hi - lo)).
Definition live_input (s : State) : list Z := cells (input s) 0 (input_count s).
Definition out_list (s : State) : list Z := cells (output s) 0 (output_size s).
Definition out_fifo (s : State) : list Z := cells (output s) (output_pos s) (output_size s).

Lemma cells_nil m lo hi : hi <= lo -> cells m lo hi = [].
Proof. intros H. unfold cells. by rewrite seqZ_nil by lia. Qed.

Lemma cells_cons m lo hi : lo < hi -> cells m lo hi = default 0 (m !! lo) :: cells m (lo + 1) hi.
Proof.
  intros H. unfold cells. rewrite seqZ_cons by lia. cbn [map].
  by replace (Z.pred (hi - lo)) with (hi - (lo + 1)) by lia.
Qed.

Lemma cells_snoc m lo hi v :
  lo <= hi -> cells (<[hi := v]> m) lo (hi + 1) = cells m lo hi ++ [v].
Proof.
  intros H. unfold cells. replace (hi + 1 - lo) with ((hi - lo) + 1) by lia.
  rewrite seqZ_snoc by lia. rewrite map_app. f_equal.
  - apply map_ext_in. intros i Hi. apply list_elem_of_In, elem_of_seqZ in Hi.
    by rewrite lookup_insert_ne by lia.
  - cbn [map]. replace (lo + (hi - lo)) with hi by lia. by rewrite lookup_insert_eq.
Qed.

Lemma length_cells m lo hi : Z.of_nat (length (cells m lo hi)) = Z.max 0 (hi - lo).
Proof. unfold cells. rewrite length_map, length_seqZ. lia. Qed.

(** ** Parsing refines the reference decoder *)

Lemma skip_padding p inp pos end_ w0 :
  pos <= end_ < 0x80000000 -> 0 <= pos -> end_ - pos <= Zpos p ->
  let '(w, pos') := pwhile p (fun '(word, pos) => (word =? 0xFE00) && (pos <? end_))
      (fun '(word, pos) => (default 0 (inp !! pos), u32 (pos + 1))) (w0, pos) in
  pos <= pos' <= end_ /\ (w, cells inp pos' end_) = spec_header w0 (cells inp pos end_).
Proof.
  intros Hp H0 Hf.
  set (c := fun '(word, pos) => (word =? 0xFE00) && (pos <? end_)).
  set (b := fun '(word, pos) => (default 0 (inp !! pos), u32 (pos + 1))).
  pose proof (pwhile_spec c b
    (fun '(w, p) => pos <= p <= end_ /\
       spec_header w (cells inp p end_) = spec_header w0 (cells inp pos end_))
    (fun x => end_ - snd x) p (w0, pos)) as H.
  destruct H as [HI Hc].
  - split; [lia|done].
  - intros [w q] [Hr He] Hg. unfold c in Hg. apply andb_true_iff in Hg as [Hw Hlt].
    rewrite (cells_cons _ q) in He by lia. cbn [spec_header] in He. rewrite Hw in He.
    unfold b. rewrite u32_id by lia. cbn [snd]. split; [|lia]. split; [lia|done].
  - intros [w q] [Hr He] Hg. unfold c in Hg. cbn [snd]. lia.
  - cbn [snd]. lia.
  - destruct (pwhile p c b (w0, pos)) as [w q].
    destruct HI as [Hr He]. split; [lia|]. rewrite <- He. unfold c in Hc.
    destruct (Z.ltb_spec q end_).
    + rewrite (cells_cons _ q) by lia. cbn [spec_header].
      rewrite andb_true_r in Hc. by rewrite Hc.
    + by rewrite cells_nil by lia.
Qed.

Definition ac_guard (end_ : Z) (a : AcLoop) : bool :=
  negb (ac_break a) && (ac_pos a <? end_) && (ac_k a <? 63).

(** What remains to be done from a loop state. *)
Definition ac_rest (inp : gmap Z Z) (quant : list Z) (qscale end_ : Z) (a : AcLoop)
    : list Z * list Z :=
  if ac_break a then (ac_block a, cells inp (ac_pos a) end_)
  else spec_ac quant qscale (ac_k a) (ac_block a) (cells inp (ac_pos a) end_).

Lemma ac_round_rest inp quant qscale end_ a :
  0 <= ac_pos a -> end_ < 0x80000000 -> 0 <= ac_k a <= 64 -> ac_guard end_ a = true ->
  let a' := ac_round (fun i => default 0 (inp !! i)) quant qscale a in
  ac_rest inp quant qscale end_ a' = ac_rest inp quant qscale end_ a /\
  ac_pos a' = ac_pos a + 1 /\ 0 <= ac_k a' /\ (ac_break a' = false -> ac_k a' <= 63).
Proof.
  intros Hp He Hk Hg. unfold ac_guard in Hg. rewrite !andb_true_iff in Hg.
  destruct Hg as [[Hb Hlt] Hk']. apply negb_true_iff in Hb.
  unfold ac_round, ac_rest. rewrite Hb.
  rewrite (cells_cons inp (ac_pos a) end_) by lia. cbn [spec_ac].
  set (w := default 0 (inp !! ac_pos a)).
  destruct (Z.leb_spec 63 (ac_k a)); [lia|].
  rewrite (u32_id (ac_pos a + 1)) by lia.
  rewrite land_3f. pose proof (Z.mod_pos_bound (Z.shiftr w 10) 0x40 ltac:(lia)).
  rewrite (u32_id (ac_k a + _ + 1)) by lia.
  destruct (w =? 0xFE00); cbn; [repeat split; lia|].
  destruct (Z.leb_spec 64 (ac_k a + Z.shiftr w 10 mod 64 + 1)); cbn; repeat split; lia.
Qed.

Lemma ac_loop_refines inp quant qscale end_ blk pos :
  0 <= pos <= end_ -> end_ < 0x80000000 ->
  let a := pwhile (Z.to_pos (end_ - pos)) (ac_guard end_)
             (ac_round (fun i => default 0 (inp !! i)) quant qscale) (mkAc blk pos 0 false) in
  pos <= ac_pos a <= end_ /\
  (ac_block a, cells inp (ac_pos a) end_) = spec_ac quant qscale 0 blk (cells inp pos end_).
Proof.
  intros Hp He a.
  pose proof (pwhile_spec (ac_guard end_) (ac_round (fun i => default 0 (inp !! i)) quant qscale)
    (fun a => pos <= ac_pos a <= end_ /\ 0 <= ac_k a /\ (ac_break a = false -> ac_k a <= 63) /\
       ac_rest inp quant qscale end_ a = spec_ac quant qscale 0 blk (cells inp pos end_))
    (fun a => end_ - ac_pos a) (Z.to_pos (end_ - pos)) (mkAc blk pos 0 false)) as H.
  destruct H as [HI Hc].
  - cbn. repeat split; lia.
  - intros x (Hr & Hk & Hb & Hx) Hg.
    assert (ac_pos x < end_ /\ ac_k x < 63) as [Hlt Hk63] by (unfold ac_guard in Hg; lia).
    pose proof (ac_round_rest inp quant qscale end_ x ltac:(lia) He ltac:(lia) Hg) as (R & P & K & B).
    rewrite P. split; [|lia]. repeat split; [lia|lia|done|done|]. by rewrite R.
  - intros x (Hr & Hk & Hb & Hx) Hg. unfold ac_guard in Hg. lia.
  - cbn. lia.
  - fold a in HI, Hc. destruct HI as (Hr & Hk & Hb & Hx). split; [lia|]. rewrite <- Hx.
    unfold ac_rest. unfold ac_guard in Hc. destruct (ac_break a) eqn:Eb; [done|].
    destruct (Z.ltb_spec (ac_pos a) end_).
    + rewrite (cells_cons inp (ac_pos a) end_) by lia. cbn [spec_ac].
      destruct (Z.leb_spec 63 (ac_k a)); [done|]. cbn in Hc. lia.
    + rewrite cells_nil by lia. done.
Qed.

Lemma decode_rle_block_refines quant pos end_ s :
  0 <= pos < end_ -> end_ < 0x80000000 ->
  exists blk pos',
    decode_rle_block quant pos end_ s =
      (mkRle true blk pos', s <| decode_blocks := u32 (decode_blocks s + 1) |>) /\
    pos < pos' <= end_ /\
    spec_block (scale s) quant (cells (input s) pos end_)
      = Some (blk, cells (input s) pos' end_).
Proof.
  intros Hp He. unfold decode_rle_block. destruct (Z.leb_spec end_ pos); [lia|].
  set (s1 := s <| decode_blocks := u32 (decode_blocks s + 1) |>).
  change (input_at s1) with (fun i => default 0 (input s !! i)). cbv beta.
  rewrite (u32_id (pos + 1)) by lia.
  rewrite (cells_cons _ pos) by lia. cbn [spec_block].
  pose proof (skip_padding (Z.to_pos (end_ - pos)) (input s) (pos + 1) end_
    (default 0 (input s !! pos)) ltac:(lia) ltac:(lia) ltac:(lia)) as Hs.
  destruct (pwhile (Z.to_pos (end_ - pos)) _ _ _) as [w p1] eqn:E1.
  destruct Hs as [Hp1 Hh]. rewrite <- Hh.
  set (dc := aset zeros64 0 _).
  pose proof (ac_loop_refines (input s) quant (Z.land (Z.shiftr w 10) 0x3F) end_ dc p1
    ltac:(lia) He) as [Ha Hs].
  set (a := pwhile (Z.to_pos (end_ - p1)) (ac_guard end_) _ _) in Ha, Hs.
  rewrite <- Hs.
  exists (idct_block (scale s) (ac_block a)), (ac_pos a).
  split; [|split; [lia|done]].
  unfold a, ac_guard, dc. done.
Qed.

(** ** Buffer growth *)

Lemma grow_spec cap wanted :
  0 < cap <= 0x80000000 -> wanted <= 0x40000000 ->
  wanted <= grow cap wanted <= Z.max cap (2 * wanted) /\ 0 < grow cap wanted.
Proof.
  intros Hc Hw. unfold grow.
  pose proof (pwhile_spec (fun c => c <? wanted) (fun c => u32 (c * 2))
    (fun c => 0 < c <= Z.max cap (2 * wanted)) (fun c => 32 - Z.log2 c) 32 cap) as H.
  destruct H as [HI Hg].
  - lia.
  - intros c Hr Hlt. assert (c < wanted) by lia. rewrite u32_id by lia.
    split; [lia|]. rewrite (Z.mul_comm c 2), Z.log2_double by lia. lia.
  - intros c Hr Hlt. assert (Z.log2 c < 31); [|lia].
    apply Z.log2_lt_pow2; [lia|]. change (2 ^ 31) with 0x80000000. lia.
  - pose proof (Z.log2_nonneg cap). lia.
  - apply Z.ltb_ge in Hg. lia.
Qed.

(** ** Output: appends *)

(** The output never outgrows this: 0x1FFFE halfwords of luma blocks give 64
    bytes each, and six halfwords of a macroblock at most 768. *)
Definition OUT_LIMIT := 0x1000000.

Definition with_out (o : gmap Z Z) (n c : Z) (s : State) : State :=
  s <| output := o |> <| output_size := n |> <| output_cap := c |>.

Record out_ok (s : State) : Prop := {
  out_size : 0 <= output_size s <= OUT_LIMIT;
  out_cap : output_size s <= output_cap s <= 2 * OUT_LIMIT;
  out_live : forall i, 0 <= i < output_size s -> exists v, output s !! i = Some v /\ is_u8 v;
}.

(** [s'] is [s] with (at most) the bytes [bs] appended to its output; exactly
    those when the allocator does not fail. *)
Record appends (ok : State -> Z -> bool) (s : State) (bs : list Z) (s' : State) : Prop := {
  app_frame : s' = with_out (output s') (output_size s') (output_cap s') s;
  app_ok : out_ok s';
  app_size : output_size s <= output_size s' <= output_size s + Z.of_nat (length bs);
  app_out : (forall s n, ok s n = true) -> out_list s' = out_list s ++ bs;
}.

Lemma appends_refl ok s : out_ok s -> appends ok s [] s.
Proof.
  intros H. split; [by destruct s|done|cbn; lia|]. intros _. by rewrite app_nil_r.
Qed.

Lemma appends_trans ok s b1 s1 b2 s2 :
  appends ok s b1 s1 -> appends ok s1 b2 s2 -> appends ok s (b1 ++ b2) s2.
Proof.
  intros [F1 O1 S1 A1] [F2 O2 S2 A2]. split.
  - rewrite F2. rewrite F1. done.
  - done.
  - rewrite length_app. lia.
  - intros Hk. by rewrite A2, A1, app_assoc by done.
Qed.

Lemma appends_cfg ok s bs s' : appends ok s bs s' -> cfg s' = cfg s.
Proof. intros [F _ _ _]. rewrite F. done. Qed.

Lemma append_byte_appends ok v s :
  out_ok s -> is_u8 v -> output_size s + 1 <= OUT_LIMIT ->
  appends ok s [v] (append_byte ok v s).
Proof.
  intros [Hsz Hcap Hlive] Hv Hlim. unfold OUT_LIMIT in *. unfold append_byte.
  rewrite (u32_id (output_size s + 1)) by lia.
  assert (exists (b : bool) c, ensure_output_capacity ok (output_size s + 1) s
            = (b, s <| output_cap := c |>) /\ output_cap s <= c <= 2 * OUT_LIMIT /\
          (if b then output_size s + 1 <= c else True) /\
          ((forall s n, ok s n = true) -> b = true)) as (b & c & E & Hc & Hb & Hok).
  { unfold ensure_output_capacity, OUT_LIMIT. destruct (Z.leb_spec (output_size s + 1) (output_cap s)).
    - exists true, (output_cap s). split; [by destruct s|]. repeat split; lia.
    - set (c0 := if negb (output_cap s =? 0) then output_cap s else 4096).
      assert (0 < c0 /\ output_cap s <= c0 <= 0x2000000) as Hc0.
      { unfold c0. destruct (Z.eqb_spec (output_cap s) 0); cbn; lia. }
      pose proof (grow_spec c0 (output_size s + 1) ltac:(lia) ltac:(lia)) as [Hg _].
      destruct (ok s (grow c0 (output_size s + 1))) eqn:Ek; cbn.
      + eexists true, _. split; [done|]. split; [lia|]. split; [lia|done].
      + exists false, (output_cap s). split; [by destruct s|]. split; [lia|]. split; [done|].
        intros Hk. by rewrite Hk in Ek. }
  rewrite E. clear E. unfold OUT_LIMIT in Hc. destruct b; cbn [negb].
  - set (s' := s <| output_cap := c |> <| output := _ |> <| output_size := _ |>).
    assert (output_size s' = output_size s + 1) as Es by (unfold s'; cbn; by rewrite u32_id by lia).
    assert (output_cap s' = c) as Ec by done.
    assert (output s' = <[output_size s := v]> (output s)) as Eo by done.
    split; rewrite ?Es, ?Ec, ?Eo.
    + unfold s'. cbn. by rewrite u32_id by lia.
    + split; rewrite ?Es, ?Ec, ?Eo; unfold OUT_LIMIT; [lia..|]. intros i Hi.
      destruct (decide (i = output_size s)) as [->|].
      * rewrite lookup_insert_eq. eauto.
      * rewrite lookup_insert_ne by lia. apply Hlive. lia.
    + cbn [length]. lia.
    + intros _. unfold out_list. rewrite Es, Eo. by rewrite cells_snoc by lia.
  - set (s' := s <| output_cap := c |>). split.
    + by destruct s.
    + split; unfold OUT_LIMIT in *; cbn; [lia..|exact Hlive].
    + cbn. lia.
    + intros Hk. specialize (Hok Hk). done.
Qed.

(** Appending the result of a counted loop. *)
Lemma forZ_appends ok (g : Z * Z * Z -> Z -> list Z) (m : Z) lo hi f s :
  (forall i x, lo <= i < hi -> cfg x = cfg s -> out_ok x -> output_size x + m <= OUT_LIMIT ->
     appends ok x (g (cfg s) i) (f i x)) ->
  (forall c i, Z.of_nat (length (g c i)) <= m) ->
  lo <= hi -> 0 <= m -> out_ok s -> output_size s + m * (hi - lo) <= OUT_LIMIT ->
  appends ok s (flat_map (g (cfg s)) (seqZ lo (hi - lo))) (forZ lo hi f s).
Proof.
  intros Hf Hm Hle H0 Hs Hlim.
  apply (forZ_ind (fun i x => appends ok s (flat_map (g (cfg s)) (seqZ lo (i - lo))) x /\
    output_size x <= output_size s + m * (i - lo))).
  - done.
  - rewrite seqZ_nil by lia. split; [by apply appends_refl|lia].
  - intros i x Hi [Ha Hx].
    assert (appends ok x (g (cfg s) i) (f i x)) as Hstep.
    { apply Hf; [lia|by eapply appends_cfg|by eapply app_ok|]. nia. }
    split.
    + replace (i + 1 - lo) with ((i - lo) + 1) by lia. rewrite seqZ_snoc by lia.
      rewrite flat_map_app. eapply appends_trans; [done|].
      cbn [flat_map]. rewrite app_nil_r. by replace (lo + (i - lo)) with i by lia.
    + pose proof (app_size _ _ _ _ Hstep) as Hz. specialize (Hm (cfg s) i). nia.
Qed.

Lemma luma_byte_u8 c v : is_u8 (luma_byte c v).
Proof. destruct c as [[d sg] b]. unfold luma_byte, is_u8. case_if; apply u8_range. Qed.

Lemma append_luma_block_appends ok blk s :
  out_ok s -> output_size s + 64 <= OUT_LIMIT ->
  appends ok s (luma_bytes (cfg s) blk) (append_luma_block ok blk s).
Proof.
  intros Hs Hl. unfold append_luma_block, luma_bytes.
  replace (map (fun i => luma_byte (cfg s) (aget blk i)) (seqZ 0 64))
    with (flat_map ((fun c i => [luma_byte c (aget blk i)]) (cfg s)) (seqZ 0 (64 - 0))).
  2:{ change (64 - 0) with 64. generalize (seqZ 0 64). induction l as [|i l IH]; [done|].
      cbn [map flat_map app]. by rewrite <- IH. }
  apply (forZ_appends ok (fun c i => [luma_byte c (aget blk i)]) 1); [|by intros|lia|lia|done|lia].
  intros i x Hi Hc Hx Hlx. rewrite <- Hc.
  change (luma_byte (cfg x) (aget blk i)) with (to_output_u8 x (aget blk i)).
  apply append_byte_appends; [done| |done]. apply (luma_byte_u8 (cfg x)).
Qed.

Lemma append_rgb_pixel_appends ok y cr cb s :
  out_ok s -> output_size s + 3 <= OUT_LIMIT ->
  appends ok s (pixel_bytes (cfg s) y cr cb) (append_rgb_pixel ok y cr cb s).
Proof.
  intros Hs Hl. unfold append_rgb_pixel, pixel_bytes, cfg. cbv zeta.
  set (r := mask9_clamp_s8 (y + Z.shiftr (359 * cr + 0x80) 8)).
  set (g := mask9_clamp_s8 (y + Z.shiftr (Z.land (-88 * cb) (Z.lnot 0x1F)
                                         + Z.land (-183 * cr) (Z.lnot 0x07) + 0x80) 8)).
  set (b := mask9_clamp_s8 (y + Z.shiftr (454 * cb + 0x80) 8)).
  assert (forall v x, out_ok x -> output_size x + 1 <= OUT_LIMIT ->
    appends ok x [u8 v] (append_byte ok (u8 v) x)) as Hone.
  { intros v x Hx Hlx. apply append_byte_appends; [done|apply u8_range|done]. }
  destruct (output_depth s =? 3).
  - set (px := Z.lxor _ _). pose proof (Hone px s Hs ltac:(lia)) as H1.
    pose proof (app_size _ _ _ _ H1) as S1. cbn [length] in S1.
    apply (appends_trans ok s [_] _ [_] _ H1), Hone; [apply H1|lia].
  - set (x := if negb (output_signed s =? 0) then _ else _).
    pose proof (Hone (Z.lxor (Z.lxor r 0x80) x) s Hs ltac:(lia)) as H1.
    pose proof (app_size _ _ _ _ H1) as S1. cbn [length] in S1.
    pose proof (Hone (Z.lxor (Z.lxor g 0x80) x) _ (app_ok _ _ _ _ H1) ltac:(lia)) as H2.
    pose proof (app_size _ _ _ _ H2) as S2. cbn [length] in S2.
    apply (appends_trans ok s [_] _ [_; _] _ H1), (appends_trans ok _ [_] _ [_] _ H2), Hone;
      [apply H2|lia].
Qed.

Lemma length_pixel_bytes c y cr cb : Z.of_nat (length (pixel_bytes c y cr cb)) <= 3.
Proof. destruct c as [[d sg] b]. unfold pixel_bytes. destruct (d =? 3); cbn; lia. Qed.

(** The pixel at (px, py) of a macroblock. *)
Definition mb_pixel (crblk cbblk : list Z) (yblk : list (list Z)) (c : Z * Z * Z) (py px : Z)
    : list Z :=
  pixel_bytes c
    (aget (nth (Z.to_nat ((if 8 <=? py then 2 else 0) + (if 8 <=? px then 1 else 0))) yblk [])
       (Z.land px 7 + Z.land py 7 * 8))
    (aget crblk (Z.shiftr px 1 + Z.shiftr py 1 * 8))
    (aget cbblk (Z.shiftr px 1 + Z.shiftr py 1 * 8)).

Lemma length_mb_row crblk cbblk yblk c py :
  Z.of_nat (length (flat_map (mb_pixel crblk cbblk yblk c py) (seqZ 0 16))) <= 48.
Proof.
  change 48 with (3 * 16). rewrite <- (Z.mul_comm 16).
  assert (forall l, Z.of_nat (length (flat_map (mb_pixel crblk cbblk yblk c py) l))
                    <= Z.of_nat (length l) * 3) as H.
  { induction l as [|a l IH]; cbn [flat_map length]; [lia|]. rewrite length_app.
    pose proof (length_pixel_bytes c
      (aget (nth (Z.to_nat ((if 8 <=? py then 2 else 0) + (if 8 <=? a then 1 else 0))) yblk [])
       (Z.land a 7 + Z.land py 7 * 8)) (aget crblk (Z.shiftr a 1 + Z.shiftr py 1 * 8))
      (aget cbblk (Z.shiftr a 1 + Z.shiftr py 1 * 8))) as Hp.
    unfold mb_pixel at 1. lia. }
  specialize (H (seqZ 0 16)). rewrite length_seqZ in H. lia.
Qed.

Lemma append_color_macroblock_appends ok crblk cbblk yblk s :
  out_ok s -> output_size s + 768 <= OUT_LIMIT ->
  appends ok s (mb_bytes (cfg s) (crblk :: cbblk :: yblk))
    (append_color_macroblock ok crblk cbblk yblk s).
Proof.
  intros Hs Hl. unfold append_color_macroblock.
  change (mb_bytes (cfg s) (crblk :: cbblk :: yblk))
    with (flat_map ((fun c py => flat_map (mb_pixel crblk cbblk yblk c py) (seqZ 0 (16 - 0))) (cfg s))
            (seqZ 0 (16 - 0))).
  apply (forZ_appends ok (fun c py => flat_map (mb_pixel crblk cbblk yblk c py) (seqZ 0 (16 - 0))) 48);
    [|intros; apply length_mb_row|lia|lia|done|lia].
  intros py x Hpy Hc Hx Hlx. rewrite <- Hc.
  apply (forZ_appends ok (fun c px => mb_pixel crblk cbblk yblk c py px) 3);
    [|intros; apply length_pixel_bytes|lia|lia|done|lia].
  intros px x' Hpx Hc' Hx' Hlx'. rewrite <- Hc'. by apply append_rgb_pixel_appends.
Qed.

(** ** The decode loops *)

(** What a decode loop may change of the state it starts in. *)
Definition loop_frame (s0 s : State) : Prop :=
  exists o n c b m r, s = with_out o n c
    (s0 <| decode_blocks := b |> <| decode_macroblocks := m |> <| decode_stop_reason := r |>).

Lemma loop_frame_refl s : loop_frame s s.
Proof.
  exists (output s), (output_size s), (output_cap s), (decode_blocks s), (decode_macroblocks s),
    (decode_stop_reason s). by destruct s.
Qed.

Lemma loop_frame_blocks s0 s b : loop_frame s0 s -> loop_frame s0 (s <| decode_blocks := b |>).
Proof. intros (o & n & c & b' & m & r & ->). by exists o, n, c, b, m, r. Qed.

Lemma loop_frame_macroblocks s0 s m :
  loop_frame s0 s -> loop_frame s0 (s <| decode_macroblocks := m |>).
Proof. intros (o & n & c & b & m' & r & ->). by exists o, n, c, b, m, r. Qed.

Lemma loop_frame_stop s0 s r :
  loop_frame s0 s -> loop_frame s0 (s <| decode_stop_reason := r |>).
Proof. intros (o & n & c & b & m & r' & ->). by exists o, n, c, b, m, r. Qed.

Lemma loop_frame_appends ok s0 s bs s' :
  loop_frame s0 s -> appends ok s bs s' -> loop_frame s0 s'.
Proof.
  intros (o & n & c & b & m & r & ->) [F _ _ _].
  exists (output s'), (output_size s'), (output_cap s'), b, m, r. rewrite F at 1. done.
Qed.

Lemma loop_frame_same s0 s : loop_frame s0 s ->
  cfg s = cfg s0 /\ scale s = scale s0 /\ y_quant s = y_quant s0 /\ six_blocks s = six_blocks s0 /\
  input s = input s0 /\ input_count s = input_count s0.
Proof. intros (o & n & c & b & m & r & ->). done. Qed.

Lemma decode_each_refines qs end_ : end_ < 0x80000000 -> forall pos s, 0 <= pos <= end_ ->
  exists r pos' b,
    decode_each qs pos end_ s = (r, pos',
      match r with
      | Some _ => s <| decode_blocks := b |>
      | None =>
          match spec_each (scale s) qs (cells (input s) pos end_) with
          | inr stop => s <| decode_blocks := b |> <| decode_stop_reason := stop |>
          | inl _ => s
          end
      end) /\
    match r with
    | Some bs => spec_each (scale s) qs (cells (input s) pos end_)
                   = inl (bs, cells (input s) pos' end_) /\
                 length bs = length qs /\ pos + Z.of_nat (length qs) <= pos' <= end_
    | None => pos' = end_ /\
              exists stop, spec_each (scale s) qs (cells (input s) pos end_) = inr stop
    end.
Proof.
  intros He. induction qs as [|[quant stop] qs IH]; intros pos s Hp.
  - exists (Some []), pos, (decode_blocks s). cbn [decode_each spec_each length].
    split; [by destruct s|]. repeat split; lia.
  - cbn [decode_each spec_each]. destruct (Z.eq_dec pos end_) as [->|Hne].
    + unfold decode_rle_block. destruct (Z.leb_spec end_ end_); [|lia]. cbn [rle_ok rle_pos negb].
      rewrite cells_nil by lia. cbn [spec_block].
      exists None, end_, (decode_blocks s). split; [by destruct s|]. split; [done|by eexists].
    + destruct (decode_rle_block_refines quant pos end_ s ltac:(lia) He)
        as (blk & p1 & E1 & Hp1 & Hs1).
      rewrite E1, Hs1. cbn [rle_ok rle_pos rle_block negb].
      set (s1 := s <| decode_blocks := u32 (decode_blocks s + 1) |>).
      destruct (IH p1 s1 ltac:(lia)) as (r & p2 & b & E2 & Hr).
      change (scale s1) with (scale s) in *. change (input s1) with (input s) in *.
      rewrite E2. destruct r as [bs|]; cbn [fmap option_fmap option_map].
      * destruct Hr as (Hs2 & Hlen & Hp2). rewrite Hs2.
        exists (Some (blk :: bs)), p2, b. split; [done|]. cbn [length]. repeat split; lia.
      * destruct Hr as (-> & stop' & Hs2). rewrite Hs2.
        exists None, end_, b. split; [done|]. split; [done|by eexists].
Qed.

(** The loop invariant of the colour loop. *)
Record color_inv (ok : State -> Z -> bool) (end_ : Z) (s0 : State) (mbs : list (list (list Z)))
    (d : DecodeLoop) : Prop := {
  ci_pos : 0 <= dl_pos d <= end_;
  ci_frame : loop_frame s0 (dl_state d);
  ci_out : out_ok (dl_state d);
  ci_size : output_size (dl_state d) <= 768 * Z.of_nat (length mbs);
  ci_used : 6 * Z.of_nat (length mbs) <= dl_pos d;
  ci_count : decode_macroblocks (dl_state d) = Z.of_nat (length mbs);
  ci_bytes : (forall s n, ok s n = true) ->
    out_list (dl_state d) = flat_map (mb_bytes (cfg s0)) mbs;
  ci_stream :
    if dl_go d then
      decode_stop_reason (dl_state d) = MDEC_STOP_NONE /\
      forall rest stop,
        color_stream (scale s0) (six_blocks s0) (cells (input s0) (dl_pos d) end_) rest stop ->
        color_stream (scale s0) (six_blocks s0) (cells (input s0) 0 end_) (mbs ++ rest) stop
    else
      dl_pos d = end_ /\ decode_stop_reason (dl_state d) <> MDEC_STOP_NONE /\
      color_stream (scale s0) (six_blocks s0) (cells (input s0) 0 end_) mbs
        (decode_stop_reason (dl_state d));
}.

Lemma out_list_macroblocks s m : out_list (s <| decode_macroblocks := m |>) = out_list s.
Proof. done. Qed.
Lemma out_list_blocks s b : out_list (s <| decode_blocks := b |>) = out_list s.
Proof. done. Qed.
Lemma cfg_blocks s b : cfg (s <| decode_blocks := b |>) = cfg s.
Proof. done. Qed.

(** A run of blocks only ever stops for a reason of its list. *)
Lemma spec_each_stop sc qs l stop : spec_each sc qs l = inr stop -> In stop (map snd qs).
Proof.
  revert l. induction qs as [|[q st] qs IH]; intros l; cbn [spec_each map snd]; [done|].
  destruct (spec_block sc q l) as [[b l1]|]; [|intros H; injection H as ->; by left].
  destruct (spec_each sc qs l1) as [[bs l2]|e] eqn:E; [done|].
  intros H. injection H as ->. right. by apply (IH l1).
Qed.

Lemma color_round_inv ok end_ s0 mbs d :
  end_ <= 0x1FFFE -> color_inv ok end_ s0 mbs d -> decode_guard end_ d = true ->
  exists mbs', color_inv ok end_ s0 mbs' (color_round ok end_ d) /\
    (dl_go (color_round ok end_ d) = true -> dl_pos d < dl_pos (color_round ok end_ d)).
Proof.
  intros He [Hp Hf Ho Hsz Hu Hc Hb Hst] Hg. unfold decode_guard in Hg.
  apply andb_true_iff in Hg as [Hgo Hlt]. rewrite Hgo in Hst. destruct Hst as [Hnone Hst].
  destruct (loop_frame_same _ _ Hf) as (Ecfg & Esc & Eyq & Esix & Einp & Ecnt).
  unfold color_round.
  destruct (decode_each_refines (six_blocks (dl_state d)) end_ ltac:(lia) (dl_pos d) (dl_state d) Hp)
    as (r & pos' & b & E & Hr).
  rewrite E. clear E. rewrite Esc, Einp, Esix in *.
  assert (cells (input s0) (dl_pos d) end_ <> []) as Hne.
  { rewrite cells_cons by lia. done. }
  destruct r as [bs|].
  - destruct Hr as (Hs & Hlen & Hpos'). change (length (six_blocks s0)) with 6%nat in *.
    destruct bs as [|crblk [|cbblk yblk]]; [done|done|].
    set (s1 := (dl_state d) <| decode_blocks := b |>).
    assert (out_ok s1) as Ho1 by (destruct Ho; by constructor).
    pose proof (append_color_macroblock_appends ok crblk cbblk yblk s1 Ho1) as Ha.
    change (output_size s1) with (output_size (dl_state d)) in Ha.
    specialize (Ha ltac:(unfold OUT_LIMIT; lia)).
    set (s2 := append_color_macroblock ok crblk cbblk yblk s1) in *.
    assert (loop_frame s0 s2) as Hf2 by (eapply loop_frame_appends; [apply loop_frame_blocks, Hf|done]).
    assert (decode_macroblocks s2 = Z.of_nat (length mbs)) as Hm2.
    { rewrite (app_frame _ _ _ _ Ha). exact Hc. }
    assert (decode_stop_reason s2 = MDEC_STOP_NONE) as Hn2.
    { rewrite (app_frame _ _ _ _ Ha). exact Hnone. }
    pose proof (app_size _ _ _ _ Ha) as S2. change (output_size s1) with (output_size (dl_state d)) in S2.
    assert (Z.of_nat (length (mb_bytes (cfg s1) (crblk :: cbblk :: yblk))) <= 768) as Hl768.
    { unfold mb_bytes. 
      change (flat_map _ (seqZ 0 16)) with
        (flat_map (fun py => flat_map (mb_pixel crblk cbblk yblk (cfg s1) py) (seqZ 0 16)) (seqZ 0 16)).
      assert (forall l, Z.of_nat (length (flat_map (fun py =>
          flat_map (mb_pixel crblk cbblk yblk (cfg s1) py) (seqZ 0 16)) l)) <= 48 * Z.of_nat (length l)) as H.
      { induction l as [|a l IH]; cbn [flat_map length]; [lia|]. rewrite length_app.
        pose proof (length_mb_row crblk cbblk yblk (cfg s1) a). lia. }
      specialize (H (seqZ 0 16)). rewrite length_seqZ in H. lia. }
    exists (mbs ++ [crblk :: cbblk :: yblk]). split; [|cbn [dl_go dl_pos]; lia].
    split; cbn [dl_pos dl_state dl_go]; rewrite ?length_app; cbn [length].
    + lia.
    + by apply loop_frame_macroblocks.
    + destruct (app_ok _ _ _ _ Ha). by constructor.
    + cbn. lia.
    + lia.
    + cbn. rewrite Hm2, u32_id by lia. lia.
    + intros Hk. rewrite flat_map_app. cbn [flat_map]. rewrite app_nil_r.
      rewrite out_list_macroblocks, (app_out _ _ _ _ Ha Hk).
      unfold s1. rewrite out_list_blocks, cfg_blocks, Ecfg. by rewrite (Hb Hk).
    + split; [done|]. intros rest stop Hrest. rewrite <- app_assoc. apply Hst.
      cbn [app]. by eapply color_cons.
  - destruct Hr as (-> & stop & Hs). rewrite Hs.
    set (s1 := (dl_state d) <| decode_blocks := b |> <| decode_stop_reason := stop |>).
    exists mbs. split; [|done]. split; cbn [dl_pos dl_state dl_go].
    + lia.
    + by apply loop_frame_stop, loop_frame_blocks.
    + destruct Ho. by constructor.
    + done.
    + lia.
    + done.
    + done.
    + split; [done|]. split.
      * apply spec_each_stop in Hs. cbn in Hs. unfold s1. cbn.
        unfold MDEC_STOP_CR, MDEC_STOP_CB, MDEC_STOP_Y0, MDEC_STOP_Y1, MDEC_STOP_Y2,
          MDEC_STOP_Y3, MDEC_STOP_NONE in *. lia.
      * rewrite <- (app_nil_r mbs). apply Hst. by apply color_short.
Qed.

Lemma color_loop_inv ok end_ s0 :
  0 <= end_ <= 0x1FFFE -> out_ok s0 -> output_size s0 = 0 -> decode_macroblocks s0 = 0 ->
  decode_stop_reason s0 = MDEC_STOP_NONE ->
  let d := pwhile (Z.to_pos end_) (decode_guard end_) (color_round ok end_) (mkDl 0 s0 true) in
  (exists mbs, color_inv ok end_ s0 mbs d) /\ dl_pos d = end_.
Proof.
  intros He Ho Hz Hm Hn d.
  pose proof (pwhile_spec (decode_guard end_) (color_round ok end_)
    (fun d => exists mbs, color_inv ok end_ s0 mbs d)
    (fun d => if dl_go d then end_ - dl_pos d else 0) (Z.to_pos end_) (mkDl 0 s0 true)) as H.
  destruct H as [[mbs HI] Hc].
  - exists []. split; cbn [dl_pos dl_state dl_go length]; [lia|apply loop_frame_refl|done|lia|lia|done| |].
    + intros _. unfold out_list. rewrite Hz. by rewrite cells_nil by lia.
    + done.
  - intros x [mbs HI] Hg. destruct (color_round_inv ok end_ s0 mbs x ltac:(lia) HI Hg) as (mbs' & HI' & Hlt).
    split; [by exists mbs'|]. unfold decode_guard in Hg. apply andb_true_iff in Hg as [-> Hg].
    destruct (dl_go (color_round ok end_ x)); [specialize (Hlt eq_refl)|]; lia.
  - intros x _ Hg. unfold decode_guard in Hg. apply andb_true_iff in Hg as [-> Hg]. lia.
  - cbn. lia.
  - fold d in HI, Hc. split; [by exists mbs|].
    pose proof (ci_pos _ _ _ _ _ HI). pose proof (ci_stream _ _ _ _ _ HI) as Hs.
    unfold decode_guard in Hc. destruct (dl_go d); [|tauto]. cbn in Hc. lia.
Qed.

(** The loop invariant of the luma loop. *)
Record luma_inv (ok : State -> Z -> bool) (end_ : Z) (s0 : State) (bs : list (list Z))
    (d : DecodeLoop) : Prop := {
  li_pos : 0 <= dl_pos d <= end_;
  li_go : dl_go d = true;
  li_frame : loop_frame s0 (dl_state d);
  li_out : out_ok (dl_state d);
  li_size : output_size (dl_state d) <= 64 * Z.of_nat (length bs);
  li_used : Z.of_nat (length bs) <= dl_pos d;
  li_count : decode_macroblocks (dl_state d) = Z.of_nat (length bs);
  li_bytes : (forall s n, ok s n = true) ->
    out_list (dl_state d) = flat_map (luma_bytes (cfg s0)) bs;
  li_stream : forall rest,
    luma_stream (scale s0) (y_quant s0) (cells (input s0) (dl_pos d) end_) rest ->
    luma_stream (scale s0) (y_quant s0) (cells (input s0) 0 end_) (bs ++ rest);
}.

Lemma length_luma_bytes c blk : Z.of_nat (length (luma_bytes c blk)) = 64.
Proof. unfold luma_bytes. rewrite length_map, length_seqZ. lia. Qed.

Lemma luma_round_inv ok end_ s0 bs d :
  end_ <= 0x1FFFE -> luma_inv ok end_ s0 bs d -> decode_guard end_ d = true ->
  exists b, luma_inv ok end_ s0 (bs ++ [b]) (luma_round ok end_ d) /\
    dl_pos d < dl_pos (luma_round ok end_ d).
Proof.
  intros He [Hp Hgo Hf Ho Hsz Hu Hc Hb Hst] Hg. unfold decode_guard in Hg.
  apply andb_true_iff in Hg as [_ Hlt].
  destruct (loop_frame_same _ _ Hf) as (Ecfg & Esc & Eyq & Esix & Einp & Ecnt).
  unfold luma_round.
  destruct (decode_rle_block_refines (y_quant (dl_state d)) (dl_pos d) end_ (dl_state d)
    ltac:(lia) ltac:(lia)) as (b & pos' & E & Hp' & Hs).
  rewrite E. clear E. rewrite Esc, Einp, Eyq in Hs. cbn [rle_ok rle_block rle_pos negb].
  set (s1 := (dl_state d) <| decode_blocks := _ |>).
  assert (out_ok s1) as Ho1 by (destruct Ho; by constructor).
  pose proof (append_luma_block_appends ok b s1 Ho1) as Ha.
  change (output_size s1) with (output_size (dl_state d)) in Ha.
  specialize (Ha ltac:(unfold OUT_LIMIT; lia)).
  set (s2 := append_luma_block ok b s1) in *.
  assert (decode_macroblocks s2 = Z.of_nat (length bs)) as Hm2.
  { rewrite (app_frame _ _ _ _ Ha). exact Hc. }
  pose proof (app_size _ _ _ _ Ha) as S2. rewrite length_luma_bytes in S2.
  change (output_size s1) with (output_size (dl_state d)) in S2.
  exists b. split; [|cbn [dl_pos]; lia].
  split; cbn [dl_pos dl_state dl_go]; rewrite ?length_app; cbn [length].
  - lia.
  - done.
  - apply loop_frame_macroblocks. eapply loop_frame_appends; [apply loop_frame_blocks, Hf|done].
  - destruct (app_ok _ _ _ _ Ha). by constructor.
  - cbn. lia.
  - lia.
  - cbn. rewrite Hm2, u32_id by lia. lia.
  - intros Hk. rewrite flat_map_app. cbn [flat_map]. rewrite app_nil_r.
    rewrite out_list_macroblocks, (app_out _ _ _ _ Ha Hk).
    unfold s1. rewrite out_list_blocks, cfg_blocks, Ecfg. by rewrite (Hb Hk).
  - intros rest Hrest. rewrite <- app_assoc. apply Hst. cbn [app]. by eapply luma_cons.
Qed.

Lemma luma_loop_inv ok end_ s0 :
  0 <= end_ <= 0x1FFFE -> out_ok s0 -> output_size s0 = 0 -> decode_macroblocks s0 = 0 ->
  let d := pwhile (Z.to_pos end_) (decode_guard end_) (luma_round ok end_) (mkDl 0 s0 true) in
  (exists bs, luma_inv ok end_ s0 bs d) /\ dl_pos d = end_.
Proof.
  intros He Ho Hz Hm d.
  pose proof (pwhile_spec (decode_guard end_) (luma_round ok end_)
    (fun d => exists bs, luma_inv ok end_ s0 bs d)
    (fun d => end_ - dl_pos d) (Z.to_pos end_) (mkDl 0 s0 true)) as H.
  destruct H as [[bs HI] Hc].
  - exists []. split; cbn [dl_pos dl_state dl_go length]; [lia|done|apply loop_frame_refl|done|lia|lia|done| |].
    + intros _. unfold out_list. rewrite Hz. by rewrite cells_nil by lia.
    + done.
  - intros x [bs HI] Hg. destruct (luma_round_inv ok end_ s0 bs x ltac:(lia) HI Hg) as (b & HI' & Hlt).
    split; [by eexists|]. lia.
  - intros x _ Hg. unfold decode_guard in Hg. lia.
  - cbn. lia.
  - fold d in HI, Hc. split; [by exists bs|].
    pose proof (li_pos _ _ _ _ _ HI). pose proof (li_go _ _ _ _ _ HI) as Hgo.
    unfold decode_guard in Hc. rewrite Hgo in Hc. cbn in Hc. lia.
Qed.

(** ** The state invariant *)

Definition is_scale (x : Z) : Prop := -0x1000 <= x < 0x1000.

Record wf_base (s : State) : Prop := {
  wf_expected : 0 <= expected_halfwords s <= 0x1FFFE;
  wf_input_cap : expected_halfwords s <= input_cap s <= 0x3FFFC;
  wf_count : 0 <= input_count s <= expected_halfwords s;
  wf_live : forall i, 0 <= i < input_count s -> exists v, input s !! i = Some v /\ is_u16 v;
  wf_out : out_ok s;
  wf_pos : 0 <= output_pos s <= output_size s;
  wf_yq : length (y_quant s) = 64%nat /\ Forall is_u8 (y_quant s);
  wf_uvq : length (uv_quant s) = 64%nat /\ Forall is_u8 (uv_quant s);
  wf_scale : length (scale s) = 64%nat /\ Forall is_scale (scale s);
  wf_depth : 0 <= output_depth s <= 3;
  wf_flags : 0 <= output_bit15 s <= 1 /\ 0 <= output_signed s <= 1 /\
             0 <= enable_dma_in s <= 1 /\ 0 <= enable_dma_out s <= 1;
  wf_trace : 0 <= mdec_trace_seq s /\ mdec_trace_head s = mdec_trace_seq s mod MDEC_TRACE_CAP;
}.

(** Between operations a command is either finished or still short of input. *)
Definition phase_ok (s : State) : Prop :=
  if busy s =? 0 then expected_halfwords s = 0 else input_count s < expected_halfwords s.

Definition wf (s : State) : Prop := wf_base s /\ phase_ok s.

(** The fields [wf] reads; a step that keeps them keeps [wf]. *)
Definition wf_frame (s s' : State) : Prop :=
  expected_halfwords s' = expected_halfwords s /\ input_cap s' = input_cap s /\
  input_count s' = input_count s /\ busy s' = busy s /\ input s' = input s /\
  output s' = output s /\ output_size s' = output_size s /\ output_cap s' = output_cap s /\
  output_pos s' = output_pos s /\
  y_quant s' = y_quant s /\ uv_quant s' = uv_quant s /\ scale s' = scale s /\
  output_depth s' = output_depth s /\ output_bit15 s' = output_bit15 s /\
  output_signed s' = output_signed s /\ enable_dma_in s' = enable_dma_in s /\
  enable_dma_out s' = enable_dma_out s.

Lemma wf_base_framed s s' : wf_frame s s' ->
  0 <= mdec_trace_seq s' /\ mdec_trace_head s' = mdec_trace_seq s' mod MDEC_TRACE_CAP ->
  wf_base s -> wf_base s'.
Proof.
  intros (E1&E2&E3&E4&E5&E6&E7&E8&E9&E10&E11&E12&E13&E14&E15&E16&E17) Ht [].
  constructor; rewrite ?E1, ?E2, ?E3, ?E4, ?E5, ?E7, ?E9, ?E10, ?E11, ?E12, ?E13, ?E14, ?E15,
    ?E16, ?E17; try done.
  destruct wf_out0. by constructor; rewrite ?E6, ?E7, ?E8.
Qed.

Lemma trace_head_step s :
  0 <= mdec_trace_seq s -> mdec_trace_head s = mdec_trace_seq s mod MDEC_TRACE_CAP ->
  0 <= u64 (mdec_trace_seq s + 1) /\
  u32 (mdec_trace_head s + 1) mod MDEC_TRACE_CAP = u64 (mdec_trace_seq s + 1) mod MDEC_TRACE_CAP.
Proof.
  intros H0 Hh. rewrite Hh. unfold u64, u32, MDEC_TRACE_CAP. split; [dlia|].
  rewrite (Z.mod_small (_ + 1) 0x100000000) by dlia. dlia.
Qed.

Lemma trace_event_base frame kind value s : wf_base s -> wf_base (trace_event frame kind value s).
Proof.
  intros H. apply (wf_base_framed s); [done| |done]. destruct (wf_trace _ H) as [H0 Hh].
  exact (trace_head_step s H0 Hh).
Qed.

Lemma trace_event_wf frame kind value s : wf s -> wf (trace_event frame kind value s).
Proof. intros [H Hp]. split; [by apply trace_event_base|exact Hp]. Qed.

(** *** Execution of a decode *)

(** The prologue of [execute_decode]: counters cleared, output emptied. *)
Definition decode_start (s : State) : State :=
  (clear_output (s <| g_mdec_decode_count := u32 (g_mdec_decode_count s + 1) |>))
    <| decode_macroblocks := 0 |> <| decode_blocks := 0 |>
    <| decode_stop_reason := MDEC_STOP_NONE |> <| decode_input_pos := 0 |>
    <| decode_input_end := input_count s |> <| dma_out_words := 0 |>
    <| dma_read_underflows := 0 |>.

Lemma decode_start_out_ok s : out_ok s -> out_ok (decode_start s).
Proof.
  intros [H1 H2 H3]. unfold OUT_LIMIT in *.
  constructor; cbn; unfold OUT_LIMIT; lia.
Qed.

Lemma execute_decode_eq ok frame s :
  execute_decode ok frame s =
    if output_depth s <? 2 then
      let d := pwhile (Z.to_pos (input_count s)) (decode_guard (input_count s))
                 (luma_round ok (input_count s)) (mkDl 0 (decode_start s) true) in
      trace_event frame MDEC_EVT_DECODE_DONE (output_size (dl_state d))
        ((dl_state d) <| decode_stop_reason :=
             if input_count s <=? dl_pos d then MDEC_STOP_INPUT_END else MDEC_STOP_Y0 |>
           <| decode_input_pos := dl_pos d |>)
    else
      let d := pwhile (Z.to_pos (input_count s)) (decode_guard (input_count s))
                 (color_round ok (input_count s)) (mkDl 0 (decode_start s) true) in
      let s1 := dl_state d in
      let s1 := if (input_count s <=? dl_pos d) && (decode_stop_reason s1 =? MDEC_STOP_NONE)
                then s1 <| decode_stop_reason := MDEC_STOP_INPUT_END |> else s1 in
      trace_event frame MDEC_EVT_DECODE_DONE (output_size s1)
        (s1 <| decode_input_pos := dl_pos d |> <| mdec_last_color_decode_frame := frame |>).
Proof. reflexivity. Qed.

Lemma execute_decode_luma_spec ok frame s :
  wf_base s -> output_depth s < 2 ->
  exists bs s1,
    execute_decode ok frame s = trace_event frame MDEC_EVT_DECODE_DONE (output_size s1)
      (s1 <| decode_stop_reason := MDEC_STOP_INPUT_END |> <| decode_input_pos := input_count s |>) /\
    loop_frame (decode_start s) s1 /\ out_ok s1 /\
    decode_macroblocks s1 = Z.of_nat (length bs) /\
    luma_stream (scale s) (y_quant s) (live_input s) bs /\
    ((forall s n, ok s n = true) -> out_list s1 = flat_map (luma_bytes (cfg s)) bs).
Proof.
  intros Hw Hd.
  assert (0 <= input_count s <= 0x1FFFE) as Hc.
  { pose proof (wf_expected _ Hw). pose proof (wf_count _ Hw). lia. }
  rewrite execute_decode_eq.
  destruct (Z.ltb_spec (output_depth s) 2); [|lia].
  pose proof (luma_loop_inv ok (input_count s) (decode_start s) Hc
    (decode_start_out_ok _ (wf_out _ Hw)) eq_refl eq_refl) as [[bs HI] Hend].
  set (d := pwhile _ _ _ _) in *. cbv zeta. rewrite Hend.
  destruct (Z.leb_spec (input_count s) (input_count s)); [|lia].
  exists bs, (dl_state d). split; [done|]. split; [apply HI|]. split; [apply HI|].
  split; [apply HI|]. split; [|apply HI].
  rewrite <- (app_nil_r bs). apply (li_stream _ _ _ _ _ HI). rewrite Hend.
  rewrite cells_nil by lia. constructor.
Qed.

Lemma execute_decode_color_spec ok frame s :
  wf_base s -> 2 <= output_depth s ->
  exists mbs stop s1,
    execute_decode ok frame s = trace_event frame MDEC_EVT_DECODE_DONE (output_size s1)
      (s1 <| decode_stop_reason := stop |> <| decode_input_pos := input_count s |>
          <| mdec_last_color_decode_frame := frame |>) /\
    loop_frame (decode_start s) s1 /\ out_ok s1 /\
    decode_macroblocks s1 = Z.of_nat (length mbs) /\
    color_stream (scale s) (six_blocks s) (live_input s) mbs stop /\
    ((forall s n, ok s n = true) -> out_list s1 = flat_map (mb_bytes (cfg s)) mbs).
Proof.
  intros Hw Hd.
  assert (0 <= input_count s <= 0x1FFFE) as Hc.
  { pose proof (wf_expected _ Hw). pose proof (wf_count _ Hw). lia. }
  rewrite execute_decode_eq.
  destruct (Z.ltb_spec (output_depth s) 2); [lia|].
  pose proof (color_loop_inv ok (input_count s) (decode_start s) Hc
    (decode_start_out_ok _ (wf_out _ Hw)) eq_refl eq_refl eq_refl) as [[mbs HI] Hend].
  set (d := pwhile _ _ _ _) in *. cbv zeta. rewrite Hend.
  destruct (Z.leb_spec (input_count s) (input_count s)); [|lia].
  pose proof (ci_stream _ _ _ _ _ HI) as Hst. cbn [andb].
  destruct (Z.eqb_spec (decode_stop_reason (dl_state d)) MDEC_STOP_NONE) as [Hn|Hn].
  - exists mbs, MDEC_STOP_INPUT_END, (dl_state d). split; [done|]. split; [apply HI|].
    split; [apply HI|]. split; [apply HI|]. split; [|apply HI].
    destruct (dl_go d); [|tauto]. rewrite <- (app_nil_r mbs). apply Hst. rewrite Hend.
    rewrite cells_nil by lia. constructor.
  - exists mbs, (decode_stop_reason (dl_state d)), (dl_state d).
    split; [by destruct (dl_state d)|]. split; [apply HI|].
    split; [apply HI|]. split; [apply HI|]. split; [|apply HI].
    destruct (dl_go d); [tauto|]. apply Hst.
Qed.

Lemma loop_frame_base s s1 r p :
  wf_base s -> loop_frame (decode_start s) s1 -> out_ok s1 ->
  wf_base (s1 <| decode_stop_reason := r |> <| decode_input_pos := p |>).
Proof.
  intros [] (o & n & c & b & m & r' & ->) Ho. constructor; try assumption.
  - destruct Ho. by constructor.
  - cbn. split; [lia|]. apply (out_size _ Ho).
Qed.

Lemma execute_decode_base ok frame s : wf_base s ->
  wf_base (execute_decode ok frame s) /\ busy (execute_decode ok frame s) = busy s.
Proof.
  intros Hw. destruct (Z.lt_ge_cases (output_depth s) 2) as [Hd|Hd].
  - destruct (execute_decode_luma_spec ok frame s Hw Hd) as (bs & s1 & -> & Hf & Ho & _).
    split; [apply trace_event_base; by eapply loop_frame_base|].
    by destruct Hf as (o & n & c & b & m & r' & ->).
  - destruct (execute_decode_color_spec ok frame s Hw Hd) as (mbs & stop & s1 & -> & Hf & Ho & _).
    split; [apply trace_event_base|by destruct Hf as (o & n & c & b & m & r' & ->)].
    pose proof (loop_frame_base s s1 stop (input_count s) Hw Hf Ho) as Hb.
    apply (wf_base_framed (s1 <| decode_stop_reason := stop |> <| decode_input_pos := input_count s |>));
      [by repeat split|apply (wf_trace _ Hb)|done].
Qed.

(** *** Table uploads *)

Lemma set_yq_base s q : length q = 64%nat -> Forall is_u8 q -> wf_base s ->
  wf_base (s <| y_quant := q |>).
Proof. intros Hl Hq []. constructor; try assumption; by destruct wf_out0. Qed.
Lemma set_uvq_base s q : length q = 64%nat -> Forall is_u8 q -> wf_base s ->
  wf_base (s <| uv_quant := q |>).
Proof. intros Hl Hq []. constructor; try assumption; by destruct wf_out0. Qed.
Lemma set_scale_base s q : length q = 64%nat -> Forall is_scale q -> wf_base s ->
  wf_base (s <| scale := q |>).
Proof. intros Hl Hq []. constructor; try assumption; by destruct wf_out0. Qed.

Lemma input_byte_u8 s i : is_u8 (input_byte s i).
Proof. unfold input_byte, is_u8. case_if; apply u8_range. Qed.

Lemma scale_entry_range x : is_scale (s16 (Z.shiftr (s16 x) 3)).
Proof.
  unfold is_scale. rewrite Z.shiftr_div_pow2 by lia. change (2 ^ 3) with 8.
  unfold s16. dlia.
Qed.

Lemma set_quant_base s :
  wf_base s ->
  wf_base (forZ 0 64 (fun i s => s <| y_quant := aset (y_quant s) i (input_byte s i) |>) s).
Proof.
  intros H. apply forZ_inv; [done|]. intros i x Hi Hx. destruct (wf_yq _ Hx) as [Hl Hf].
  apply set_yq_base; [by rewrite length_aset| |done].
  apply aset_Forall; [apply input_byte_u8|done].
Qed.

Lemma set_uv_quant_base s :
  wf_base s ->
  wf_base (forZ 0 64 (fun i s => s <| uv_quant := aset (uv_quant s) i (input_byte s (64 + i)) |>) s).
Proof.
  intros H. apply forZ_inv; [done|]. intros i x Hi Hx. destruct (wf_uvq _ Hx) as [Hl Hf].
  apply set_uvq_base; [by rewrite length_aset| |done].
  apply aset_Forall; [apply input_byte_u8|done].
Qed.

Lemma set_scale_loop_base s :
  wf_base s ->
  wf_base (forZ 0 64 (fun i s =>
        let t := Z.lor (Z.shiftl (Z.land i 7) 3) (Z.land (Z.shiftr i 3) 7) in
        s <| scale := aset (scale s) t (s16 (Z.shiftr (s16 (input_at s i)) 3)) |>) s).
Proof.
  intros H. apply forZ_inv; [done|]. intros i x Hi Hx. destruct (wf_scale _ Hx) as [Hl Hf].
  apply set_scale_base; [by rewrite length_aset| |done].
  apply aset_Forall; [apply scale_entry_range|done].
Qed.

Lemma finish_command_wf frame s :
  wf_base (s <| expected_halfwords := 0 |> <| input_count := 0 |>) -> wf (finish_command frame s).
Proof.
  intros H. unfold finish_command. apply trace_event_wf. split; [|done].
  apply (wf_base_framed (s <| expected_halfwords := 0 |> <| input_count := 0 |> <| busy := 0 |>));
    [done|apply (wf_trace _ H)|]. destruct H. constructor; try assumption; by destruct wf_out0.
Qed.

Lemma finish_command_base frame s : wf_base s -> wf (finish_command frame s).
Proof.
  intros []. apply finish_command_wf. constructor; cbn; try assumption; try lia.
  by destruct wf_out0.
Qed.

Lemma execute_command_wf ok frame s : wf_base s -> wf (execute_command ok frame s).
Proof.
  intros H. unfold execute_command. apply finish_command_base.
  case_if; [|case_if; [|case_if]].
  - pose proof (set_quant_base s H) as H1. cbv zeta. case_if.
    + by apply set_uv_quant_base.
    + destruct (wf_yq _ H1). by apply set_uvq_base.
  - by apply set_scale_loop_base.
  - by apply execute_decode_base.
  - done.
Qed.

(** A command being received: [n] halfwords expected, none there yet. *)
Lemma begin_base s n c v b :
  wf_base s -> 0 <= n <= 0x1FFFE -> n <= c <= 0x3FFFC ->
  wf_base (s <| command := v |>
             <| output_bit15 := u8 (Z.land (Z.shiftr v 25) 1) |>
             <| output_signed := u8 (Z.land (Z.shiftr v 26) 1) |>
             <| output_depth := u8 (Z.land (Z.shiftr v 27) 3) |>
             <| current_block := 4 |> <| input_count := 0 |> <| input_full := 0 |>
             <| busy := b |> <| expected_halfwords := n |> <| input_cap := c |>).
Proof.
  intros [He Hcap Hcnt Hlive Hout Hpos Hyq Huvq Hsc Hdep Hfl Htr] Hn Hc.
  constructor; cbn; try assumption; try lia.
  - destruct Hout. by constructor.
  - rewrite land_3, u8_id; dlia.
  - rewrite !land_1. rewrite !u8_id by dlia. repeat split; try apply Hfl; dlia.
Qed.

Lemma begin_command_wf ok frame value s : wf_base s -> wf (begin_command ok frame value s).
Proof.
  intros H. unfold begin_command.
  set (n := if Z.shiftr value 29 =? MDEC_CMD_DECODE then _ else _).
  assert (0 <= n <= 0x1FFFE) as Hn by (unfold n; rewrite land_ffff; repeat case_if; dlia).
  cbv zeta. set (s1 := _ <| expected_halfwords := n |>).
  change (expected_halfwords s1) with n.
  assert (forall k c, 0 <= k <= 0x1FFFE -> k <= c <= 0x3FFFC ->
    wf_base (s1 <| expected_halfwords := k |> <| input_cap := c |>)) as H1.
  { intros k c Hk Hc. exact (begin_base s k c value 1 H Hk Hc). }
  assert (0 <= input_cap s <= 0x3FFFC) as Hcap by (destruct H; lia).
  destruct (Z.eqb_spec n 0) as [Hz|Hz].
  { apply finish_command_wf. specialize (H1 0 (input_cap s) ltac:(lia) ltac:(lia)). exact H1. }
  unfold ensure_input_capacity. change (input_cap s1) with (input_cap s).
  destruct (Z.leb_spec n (input_cap s)); cbn [negb].
  - apply trace_event_wf. split; [exact (H1 n (input_cap s) Hn ltac:(lia))|].
    change (0 < n). lia.
  - set (c := grow _ n).
    assert (n <= c <= 0x3FFFC).
    { pose proof (grow_spec (if negb (input_cap s =? 0) then input_cap s else 256) n) as Hg.
      fold c in Hg. destruct (Z.eqb_spec (input_cap s) 0); cbn in Hg; lia. }
    destruct (ok s1 (c * 2)); cbn [negb].
    + apply trace_event_wf. split; [exact (H1 n c Hn ltac:(lia))|].
      change (0 < n). lia.
    + specialize (H1 0 (input_cap s) ltac:(lia) ltac:(lia)).
      exact (finish_command_wf frame s1 H1).
Qed.

Lemma push_input_base v s :
  is_u16 v -> wf_base s -> input_count s < expected_halfwords s -> wf_base (push_input v s).
Proof.
  intros Hv [He Hcap Hcnt Hlive Hout Hpos Hyq Huvq Hsc Hdep Hfl Htr] Hlt.
  constructor; cbn; try assumption.
  - rewrite u32_id by lia. lia.
  - rewrite u32_id by lia. intros i Hi. destruct (decide (i = input_count s)) as [->|].
    + rewrite lookup_insert_eq. eauto.
    + rewrite lookup_insert_ne by lia. apply Hlive. lia.
  - destruct Hout. by constructor.
Qed.

Lemma write_data_wf ok frame value s : wf s -> wf (write_data ok frame value s).
Proof.
  intros [H Hp]. unfold write_data. case_if; [|by apply begin_command_wf].
  apply andb_true_iff in E as [Eb Elt].
  pose proof (push_input_base (u16 value) s (u16_range _) H ltac:(lia)) as H1.
  set (s1 := push_input (u16 value) s) in *.
  change (expected_halfwords s1) with (expected_halfwords s) in *. cbv zeta.
  assert (exists s2, (if input_count s1 <? expected_halfwords s
       then push_input (u16 (Z.shiftr value 16)) s1 else s1) = s2 /\ wf_base s2 /\
       expected_halfwords s2 = expected_halfwords s /\ busy s2 = busy s) as (s2 & -> & H2 & E2 & B2).
  { eexists. split; [done|]. destruct (Z.ltb_spec (input_count s1) (expected_halfwords s)).
    - split; [|done]. apply push_input_base; [apply u16_range|done|done].
    - done. }
  rewrite E2. destruct (Z.leb_spec (expected_halfwords s) (input_count s2)).
  - by apply execute_command_wf.
  - split; [done|]. unfold phase_ok. rewrite E2, B2.
    destruct (Z.eqb_spec (busy s) 0); [done|lia].
Qed.

Lemma soft_reset_wf s : wf_base s -> wf (soft_reset s).
Proof.
  intros [He Hcap Hcnt Hlive Hout Hpos Hyq Huvq Hsc Hdep Hfl Htr]. split; [|done].
  assert (0 <= output_cap s <= 2 * OUT_LIMIT) by (destruct Hout; lia).
  constructor; cbn; try assumption; try lia.
  constructor; cbn; unfold OUT_LIMIT in *; lia.
Qed.

Lemma mdec_write_wf ok frame addr value s : wf s -> wf (mdec_write ok frame addr value s).
Proof.
  intros H. unfold mdec_write. case_if; [by apply write_data_wf|]. cbv zeta.
  apply trace_event_wf.
  set (s1 := if has value 0x80000000 then _ else s).
  assert (wf s1) as [H1 P1].
  { unfold s1. case_if; [apply trace_event_wf, soft_reset_wf, H|done]. }
  split; [|exact P1]. destruct H1. constructor; cbn; try assumption.
  - by destruct wf_out0.
  - rewrite !land_1, !u8_id by dlia. repeat split; try apply wf_flags0; dlia.
Qed.

(** *** Reading the output *)

(** [read_byte] moves the cursor and nothing else. *)
Definition read_frame (s s' : State) : Prop :=
  s' = s <| output_pos := output_pos s' |> /\ output_pos s <= output_pos s' <= output_size s.

Lemma read_word_cursor s :
  out_ok s -> 0 <= output_pos s <= output_size s ->
  read_frame s (snd (forZ 0 4 read_byte (0, s))).
Proof.
  intros Ho Hp. apply (forZ_inv (fun x => read_frame s (snd x))).
  - split; [done|]. cbn. lia.
  - intros i [v x] Hi [Hx Hpx]. cbn [snd] in *. unfold read_byte.
    assert (output_size x = output_size s) as Es by (by rewrite Hx).
    rewrite Es. destruct (Z.ltb_spec (output_pos x) (output_size s)); cbn [snd]; [|by split].
    assert (0 <= output_pos x < 0x1000001) by (destruct Ho; unfold OUT_LIMIT in *; lia).
    split; [|cbn; rewrite u32_id by lia; lia].
    clear Hpx. revert Hx. generalize (output_pos x). intros p ->. done.
Qed.

Lemma read_frame_wf s s' : wf s -> read_frame s s' -> wf s'.
Proof.
  intros [[] Hp] [-> Hr]. cbn in Hr. split; [|exact Hp]. constructor; cbn; try assumption.
  - by destruct wf_out0.
  - lia.
Qed.

Lemma wf_clear_output s : wf s -> wf (clear_output s).
Proof.
  intros [[] P]. split; [|exact P]. constructor; cbn; try assumption.
  - destruct wf_out0. unfold OUT_LIMIT in *. constructor; cbn; unfold OUT_LIMIT; lia.
  - lia.
Qed.

Lemma wf_framed s s' : wf_frame s s' ->
  0 <= mdec_trace_seq s' /\ mdec_trace_head s' = mdec_trace_seq s' mod MDEC_TRACE_CAP ->
  wf s -> wf s'.
Proof.
  intros F T [H P]. split; [by eapply wf_base_framed|].
  destruct F as (E1&E2&E3&E4&_). unfold phase_ok. by rewrite E1, E3, E4.
Qed.

Lemma mdec_dma_read_word_wf frame s : wf s -> wf (snd (mdec_dma_read_word frame s)).
Proof.
  intros H. unfold mdec_dma_read_word.
  pose proof (read_word_cursor s (wf_out _ (proj1 H)) (wf_pos _ (proj1 H))) as Hr.
  destruct (forZ 0 4 read_byte (0, s)) as [v s1]. cbn [snd] in Hr.
  pose proof (read_frame_wf _ _ H Hr) as H1. cbv zeta.
  set (s2 := s1 <| dma_out_words := _ |>).
  assert (wf s2) as H2 by (apply (wf_framed s1); [by repeat split|apply (wf_trace _ (proj1 H1))|done]).
  set (s3 := if output_size s2 <=? output_pos s then _ else s2).
  assert (wf s3) as H3.
  { unfold s3. case_if; [|done]. set (s4 := s2 <| dma_read_underflows := _ |>).
    assert (wf s4) as H4
      by (apply (wf_framed s2); [by repeat split|apply (wf_trace _ (proj1 H2))|done]).
    case_if; [by apply trace_event_wf|done]. }
  case_if; cbn [snd]; [|done]. by apply wf_clear_output, trace_event_wf.
Qed.

Lemma mdec_init_wf s : wf (mdec_init s).
Proof.
  split; [|by vm_compute].
  assert (forall s, length (y_quant s) = 64%nat /\ length (uv_quant s) = 64%nat /\
    Forall is_u8 (y_quant s) /\ Forall is_u8 (uv_quant s) ->
    let s' := forZ 0 64 (fun i s => s <| y_quant := aset (y_quant s) i 1 |>
                                      <| uv_quant := aset (uv_quant s) i 1 |>) s in
    exists y u, s' = s <| y_quant := y |> <| uv_quant := u |> /\
      length y = 64%nat /\ length u = 64%nat /\ Forall is_u8 y /\ Forall is_u8 u) as Hloop.
  { clear s. intros s0 Hs0. apply (forZ_inv (fun x => exists y u, x = s0 <| y_quant := y |>
      <| uv_quant := u |> /\ length y = 64%nat /\ length u = 64%nat /\ Forall is_u8 y /\ Forall is_u8 u)).
    - exists (y_quant s0), (uv_quant s0). by repeat split; try apply Hs0.
    - intros i x Hi (y & u & -> & Hy & Hu & Fy & Fu). exists (aset y i 1), (aset u i 1).
      split; [done|]. rewrite !length_aset.
      repeat split; try done; (apply aset_Forall; [unfold is_u8; lia|done]). }
  unfold mdec_init. cbv zeta.
  set (s1 := (mdec_zero s) <| mdec_trace := ∅ |> <| mdec_trace_seq := 0 |> <| mdec_trace_head := 0 |>).
  destruct (Hloop s1) as (y & u & -> & Hy & Hu & Fy & Fu).
  { repeat split; apply Forall_replicate; unfold is_u8; lia. }
  constructor; cbn; try lia; try done.
  - constructor; cbn; unfold OUT_LIMIT; lia.
  - split; [done|]. repeat constructor; unfold is_scale; lia.
Qed.

Lemma mdec_op_wf ok o s : wf s -> wf (mdec_op ok o s).
Proof.
  intros H. assert (forall s', wf_frame s s' -> mdec_trace_seq s' = mdec_trace_seq s ->
    mdec_trace_head s' = mdec_trace_head s -> wf s') as Hf.
  { intros s' F E1 E2. apply (wf_framed s); [done| |done]. rewrite E1, E2. apply (wf_trace _ (proj1 H)). }
  destruct o; cbn [mdec_op].
  - by apply mdec_write_wf.
  - unfold mdec_read. case_if; [by apply mdec_dma_read_word_wf|]. cbv zeta. cbn [snd].
    apply Hf; [by repeat split|done|done].
  - by apply write_data_wf.
  - by apply mdec_dma_read_word_wf.
  - unfold mdec_debug_dma_in_start, mdec_debug_dma_in_end, mdec_debug_dma_out_start,
      mdec_debug_dma_out_end. repeat case_if; apply trace_event_wf; try done.
    apply Hf; [by repeat split|done|done].
  - apply (wf_framed s); [by repeat split|by vm_compute|done].
  - apply mdec_init_wf.
Qed.

(** States the program can reach, whatever the allocator answers. *)
Inductive reachable : State -> Prop :=
| reach_init s : reachable (mdec_init s)
| reach_op ok o s : reachable s -> reachable (mdec_op ok o s).

Lemma reachable_inv s : reachable s -> wf s.
Proof. induction 1; [apply mdec_init_wf|by apply mdec_op_wf]. Qed.

(** ** Command framing *)

(** The halfwords a list of port words carries, low half first. *)
Definition halfwords (ws : list Z) : list Z :=
  flat_map (fun w => [u16 w; u16 (Z.shiftr w 16)]) ws.

Definition feed (ok : State -> Z -> bool) (frame : Z) (ws : list Z) (s : State) : State :=
  fold_left (fun s w => mdec_dma_write_word ok frame w s) ws s.

(** [s] is [s0] having received the halfwords [l] of its command. *)
Definition received (s s0 : State) (l : list Z) : Prop :=
  (exists inp, s = s0 <| input := inp |> <| input_count := Z.of_nat (length l) |>) /\
  live_input s = l.

Lemma push_input_received s s0 l v :
  Z.of_nat (length l) < 0x1FFFF -> received s s0 l -> received (push_input v s) s0 (l ++ [v]).
Proof.
  intros Hl [[inp ->] Hr]. unfold received, push_input, live_input in *. cbn in Hr |- *.
  rewrite u32_id, length_app by lia. cbn [length].
  replace (Z.of_nat (length l + 1)) with (Z.of_nat (length l) + 1) by lia.
  split; [by eexists|]. rewrite cells_snoc by lia. by rewrite Hr.
Qed.

Lemma length_halfwords ws : length (halfwords ws) = (2 * length ws)%nat.
Proof. unfold halfwords. induction ws as [|w ws IH]; [done|]. cbn [flat_map app length]. rewrite IH. lia. Qed.

Lemma feed_framing ok frame ws : forall s s0 l n,
  wf_base s -> received s s0 l -> busy s0 <> 0 -> expected_halfwords s0 = n -> n <= 0x1FFFE ->
  Z.of_nat (length l) < n ->
  2 * Z.of_nat (length ws) - 2 < n - Z.of_nat (length l) <= 2 * Z.of_nat (length ws) ->
  exists s2, feed ok frame ws s = execute_command ok frame s2 /\
    received s2 s0 (take (Z.to_nat n) (l ++ halfwords ws)) /\ wf_base s2.
Proof.
  induction ws as [|w ws IH]; intros s s0 l n Hw Hr Hb He Hn Hl Hlen; cbn [length] in Hlen; [lia|].
  pose proof (push_input_received s s0 l (u16 w) ltac:(lia) Hr) as H1.
  pose proof (push_input_base (u16 w) s (u16_range _) Hw) as W1.
  assert (input_count s = Z.of_nat (length l) /\ expected_halfwords s = n /\ busy s <> 0)
    as (Ec & Ee & Eb) by (destruct Hr as [[inp ->] _]; done).
  cbn [feed fold_left]. change (fold_left _ ws ?x) with (feed ok frame ws x).
  unfold mdec_dma_write_word, write_data. rewrite Ec, Ee.
  destruct (Z.eqb_spec (busy s) 0) as [|_]; [done|].
  destruct (Z.ltb_spec (Z.of_nat (length l)) n) as [_|]; [|lia]. cbn [negb andb]. cbv zeta.
  specialize (W1 ltac:(lia)). set (s1 := push_input (u16 w) s) in *.
  assert (input_count s1 = Z.of_nat (length l) + 1 /\ expected_halfwords s1 = n) as [Ec1 Ee1].
  { destruct H1 as [[inp E] _]. rewrite E. cbn. rewrite length_app. cbn [length]. split; [lia|done]. }
  rewrite Ec1, Ee1. destruct (Z.ltb_spec (Z.of_nat (length l) + 1) n) as [Hlt|Hge].
  - pose proof (push_input_received s1 s0 (l ++ [u16 w]) (u16 (Z.shiftr w 16)) ltac:(rewrite length_app; cbn [length]; lia) H1) as H2.
    pose proof (push_input_base (u16 (Z.shiftr w 16)) s1 (u16_range _) W1 ltac:(lia)) as W2.
    set (s2 := push_input (u16 (Z.shiftr w 16)) s1) in *.
    rewrite <- app_assoc in H2. cbn [app] in H2.
    assert (input_count s2 = Z.of_nat (length l) + 2 /\ expected_halfwords s2 = n) as [Ec2 Ee2].
    { destruct H2 as [[inp E] _]. rewrite E. cbn. rewrite length_app. cbn [length]. split; [lia|done]. }
    rewrite Ec2, Ee2. destruct (Z.leb_spec n (Z.of_nat (length l) + 2)) as [Hle|Hgt].
    + assert (length ws = 0%nat) by lia. destruct ws; [|done]. cbn [feed fold_left].
      exists s2. split; [done|]. split; [|done].
      change (halfwords [w]) with [u16 w; u16 (Z.shiftr w 16)].
      rewrite take_ge; [exact H2|]. rewrite length_app. cbn [length]. lia.
    + destruct (IH s2 s0 _ n W2 H2 Hb He Hn) as (s3 & E3 & R3 & W3).
      * rewrite length_app. cbn [length]. lia.
      * rewrite length_app. cbn [length]. lia.
      * exists s3. split; [exact E3|]. split; [|done]. rewrite <- app_assoc in R3. exact R3.
  - rewrite Ec1, Ee1. destruct (Z.leb_spec n (Z.of_nat (length l) + 1)); [|lia].
    assert (length ws = 0%nat) by lia. destruct ws; [|done]. cbn [feed fold_left].
    exists s1. split; [done|]. split; [|done].
    change (halfwords [w]) with ([u16 w] ++ [u16 (Z.shiftr w 16)]). rewrite app_assoc.
    replace (take (Z.to_nat n) _) with (l ++ [u16 w]); [exact H1|].
    rewrite take_app_length'; [done|]. rewrite length_app. cbn [length]. lia.
Qed.

(** The state a command word leaves behind, up to its trace record. *)
Definition begun (v n c : Z) (s : State) : State :=
  s <| command := v |>
    <| output_bit15 := u8 (Z.land (Z.shiftr v 25) 1) |>
    <| output_signed := u8 (Z.land (Z.shiftr v 26) 1) |>
    <| output_depth := u8 (Z.land (Z.shiftr v 27) 3) |>
    <| current_block := 4 |> <| input_count := 0 |> <| input_full := 0 |>
    <| busy := 1 |> <| expected_halfwords := n |> <| input_cap := c |>.

(** The halfwords a command word announces. *)
Definition announced (v : Z) : Z :=
  let op := Z.shiftr v 29 in
  if op =? MDEC_CMD_DECODE then Z.land v 0xFFFF * 2
  else if op =? MDEC_CMD_SET_QUANT then (if has v 1 then 64 else 32)
  else if op =? MDEC_CMD_SET_SCALE then 64
  else 0.

Lemma announced_range v : 0 <= announced v <= 0x1FFFE.
Proof. unfold announced. rewrite land_ffff. repeat case_if; dlia. Qed.

Lemma begin_command_begun ok frame v s :
  (forall s n, ok s n = true) -> 0 < announced v ->
  exists c, begin_command ok frame v s
    = trace_event frame MDEC_EVT_CMD_BEGIN v (begun v (announced v) c s).
Proof.
  intros Hk Hn. unfold begin_command. cbv zeta. fold (announced v).
  set (s1 := _ <| expected_halfwords := announced v |>).
  change (expected_halfwords s1) with (announced v).
  destruct (Z.eqb_spec (announced v) 0); [lia|].
  unfold ensure_input_capacity. destruct (Z.leb_spec (announced v) (input_cap s1)).
  - exists (input_cap s). done.
  - rewrite Hk. cbn [negb]. by eexists.
Qed.

Lemma begin_feed_idle ok frame v ws s :
  (forall s n, ok s n = true) -> wf s -> busy s = 0 -> 0 < announced v ->
  2 * Z.of_nat (length ws) = announced v ->
  exists c s2, feed ok frame (v :: ws) s = execute_command ok frame s2 /\
    received s2 (trace_event frame MDEC_EVT_CMD_BEGIN v (begun v (announced v) c s)) (halfwords ws) /\
    wf_base s2.
Proof.
  intros Hk Hw Hb Hn Hlen. cbn [feed fold_left]. change (fold_left _ ws ?x) with (feed ok frame ws x).
  assert (mdec_dma_write_word ok frame v s = begin_command ok frame v s) as ->.
  { unfold mdec_dma_write_word, write_data. by rewrite Hb. }
  destruct (begin_command_begun ok frame v s Hk Hn) as [c E].
  pose proof (begin_command_wf ok frame v s (proj1 Hw)) as Hwb. rewrite E in *.
  set (s1 := trace_event frame MDEC_EVT_CMD_BEGIN v (begun v (announced v) c s)) in *.
  pose proof (announced_range v) as Hr.
  destruct (feed_framing ok frame ws s1 s1 [] (announced v)) as (s2 & E2 & R2 & W2);
    [apply Hwb| |done|done|lia|cbn [length]; lia|cbn [length]; lia|].
  { split; [|done]. exists (input s). done. }
  exists c, s2. split; [done|]. cbn [app] in R2.
  rewrite take_ge in R2 by (rewrite length_halfwords; lia). done.
Qed.

(** ** The inverse DCT *)

Definition is_coeff (x : Z) : Prop := -0x4000 <= x < 0x4000.
Definition is_s8 (x : Z) : Prop := -128 <= x <= 127.

(** The first [n] taps. *)
Definition taps_upto (m sc : list Z) (a b n : Z) : Z :=
  forZ 0 n (fun u sum => sum + aget m (a * 8 + u) * aget sc (b * 8 + u)) 0.

Lemma taps_bound m sc a b n :
  Forall (fun x => -0x4000 <= x <= 0x4000) m -> Forall is_scale sc -> 0 <= n <= 8 ->
  Z.abs (taps_upto m sc a b n) <= 0x20000000.
Proof.
  intros Hm Hsc Hn. unfold taps_upto.
  pose proof (forZ_sum_bound (fun u => aget m (a * 8 + u) * aget sc (b * 8 + u))
    (0x4000 * 0x1000) 8 n Hn) as H.
  enough (Z.abs (forZ 0 n (fun u sum => sum + aget m (a * 8 + u) * aget sc (b * 8 + u)) 0)
          <= n * (0x4000 * 0x1000)) by lia.
  apply H. intros i Hi.
  assert (-0x4000 <= aget m (a * 8 + i) <= 0x4000) by (apply (aget_Forall (fun x => -0x4000 <= x <= 0x4000) m); [lia|done]).
  assert (is_scale (aget sc (b * 8 + i))) as Hs by (apply aget_Forall; [unfold is_scale; lia|done]).
  unfold is_scale in Hs. nia.
Qed.

Lemma idct_round_range x : Z.abs x <= 0x20000000 -> -0x4000 <= Z.shiftr (x + 0x4000) 15 <= 0x4000.
Proof. intros H. rewrite Z.shiftr_div_pow2 by lia. change (2 ^ 15) with 32768. dlia. Qed.

Lemma mask9_clamp_s8_range v : is_s8 (mask9_clamp_s8 v).
Proof. unfold mask9_clamp_s8, is_s8. btest; lia. Qed.

Lemma idct_pass1_spec sc block :
  Forall is_coeff block -> Forall is_scale sc ->
  let t := idct_pass1 sc block in
  length t = 64%nat /\ Forall (fun x => -0x4000 <= x <= 0x4000) t /\
  forall col x, 0 <= col < 8 -> 0 <= x < 8 ->
    aget t (x * 8 + col) = Z.shiftr (taps block sc col x + 0x4000) 15.
Proof.
  intros Hb Hsc t.
  assert (forall col x, -0x4000 <= Z.shiftr (taps block sc col x + 0x4000) 15 <= 0x4000) as Hr.
  { intros col x. apply idct_round_range. apply (taps_bound block sc col x 8); [|done|lia].
    apply (Forall_impl is_coeff); [done|]. unfold is_coeff. lia. }
  destruct (forZ2_aset (fun col x => x * 8 + col)
    (fun col x => s16 (Z.shiftr (taps block sc col x + 0x4000) 15)) 8 8 zeros64)
    as [Hl Hw]; [lia|lia|change (length zeros64) with 64%nat; lia|lia|].
  fold (idct_pass1 sc block) in Hl, Hw. fold t in Hl, Hw. split; [done|]. split.
  - unfold t, idct_pass1. apply forZ_inv; [apply Forall_replicate; lia|].
    intros col a _ Ha. apply forZ_inv; [done|]. intros x a' _ Ha'.
    apply aset_Forall; [|done]. specialize (Hr col x). rewrite s16_id by lia. done.
  - intros col x Hc Hx. rewrite (Hw col x) by lia. specialize (Hr col x). by rewrite s16_id by lia.
Qed.

Lemma idct_pass2_spec sc t block :
  length block = 64%nat ->
  forall col x, 0 <= col < 8 -> 0 <= x < 8 ->
    aget (idct_pass2 sc t block) (col * 8 + x)
      = mask9_clamp_s8 (Z.shiftr (taps t sc col x + 0x4000) 15).
Proof.
  intros Hl col x Hc Hx.
  destruct (forZ2_aset (fun col x => col * 8 + x)
    (fun col x => s16 (mask9_clamp_s8 (Z.shiftr (taps t sc col x + 0x4000) 15))) 8 8 block)
    as [_ Hw]; [lia|lia|lia|lia|].
  unfold idct_pass2. rewrite (Hw col x) by lia.
  pose proof (mask9_clamp_s8_range (Z.shiftr (taps t sc col x + 0x4000) 15)) as Hr.
  unfold is_s8 in Hr. by rewrite s16_id by lia.
Qed.

(** ** Properties *)

(** C4: the inverse DCT is exact in its C types.  For a block of dequantised
    coefficients and a scale table as the upload leaves it, every partial sum
    of both passes, with the rounding constant added, fits int32, the int16
    temporaries lose nothing, and the result is the two-pass rounded matrix
    product, each sample clamped to int8. *)
Theorem idct_block_exact (sc block : list Z) :
  Forall is_coeff block -> length block = 64%nat -> Forall is_scale sc ->
  let t := idct_pass1 sc block in
  (forall col x n, 0 <= n <= 8 ->
     -0x80000000 <= taps_upto block sc col x n + 0x4000 < 0x80000000 /\
     -0x80000000 <= taps_upto t sc col x n + 0x4000 < 0x80000000) /\
  (forall col x, 0 <= col < 8 -> 0 <= x < 8 ->
     aget t (x * 8 + col) = Z.shiftr (taps block sc col x + 0x4000) 15 /\
     aget (idct_block sc block) (col * 8 + x)
       = mask9_clamp_s8 (Z.shiftr (taps t sc col x + 0x4000) 15) /\
     is_s8 (aget (idct_block sc block) (col * 8 + x))).
Proof.
  intros Hb Hl Hsc t. destruct (idct_pass1_spec sc block Hb Hsc) as (Hlt & Hft & Hw).
  fold t in Hlt, Hft, Hw.
  assert (Forall (fun x => -0x4000 <= x <= 0x4000) block) as Hb'.
  { apply (Forall_impl is_coeff); [done|]. unfold is_coeff. lia. }
  split.
  - intros col x n Hn. pose proof (taps_bound block sc col x n Hb' Hsc Hn).
    pose proof (taps_bound t sc col x n Hft Hsc Hn). lia.
  - intros col x Hc Hx. split; [by apply Hw|].
    unfold idct_block. rewrite idct_pass2_spec by done. split; [done|apply mask9_clamp_s8_range].
Qed.

Lemma idct_block_exact_witness :
  let sc := replicate 64 0xB50 in let block := aset (replicate 64 0) 0 1000 in
  let t := idct_pass1 sc block in
  aget (idct_block sc block) 9 = mask9_clamp_s8 (Z.shiftr (taps t sc 1 1 + 0x4000) 15) /\
  aget t (1 * 8 + 0) = 88.
Proof.
  intros sc block t. split; [|reflexivity].
  destruct (idct_block_exact sc block) as [_ H].
  - unfold block. apply aset_Forall; [unfold is_coeff; lia|].
    apply Forall_replicate. unfold is_coeff. lia.
  - reflexivity.
  - apply Forall_replicate. unfold is_scale. lia.
  - exact (proj1 (proj2 (H 1 1 ltac:(lia) ltac:(lia)))).
Defined.

(** The output format a command word selects. *)
Definition cmd_cfg (v : Z) : Z * Z * Z :=
  (u8 (Z.land (Z.shiftr v 27) 3), u8 (Z.land (Z.shiftr v 26) 1), u8 (Z.land (Z.shiftr v 25) 1)).

Lemma received_begun frame v n c s s2 l :
  received s2 (trace_event frame MDEC_EVT_CMD_BEGIN v (begun v n c s)) l ->
  command s2 = v /\ cfg s2 = cmd_cfg v /\ scale s2 = scale s /\ six_blocks s2 = six_blocks s /\
  y_quant s2 = y_quant s /\ uv_quant s2 = uv_quant s /\ live_input s2 = l /\
  input_count s2 = Z.of_nat (length l).
Proof. intros [[inp ->] Hl]. repeat split. exact Hl. Qed.

Lemma decode_announced v :
  Z.shiftr v 29 = MDEC_CMD_DECODE -> announced v = Z.land v 0xFFFF * 2.
Proof. intros H. unfold announced. by rewrite H. Qed.

Lemma execute_command_decode ok frame s :
  Z.shiftr (command s) 29 = MDEC_CMD_DECODE ->
  execute_command ok frame s = finish_command frame (execute_decode ok frame s).
Proof. intros H. unfold execute_command. by rewrite H. Qed.

(** C3: colour decoding refines the reference decoder.  When an idle decoder is
    sent a 15- or 24-bit DECODE command and its parameter words, it is idle
    again and its output is exactly the pixels of the macroblocks the
    list-level decoder reads from the halfwords (with the uploaded tables),
    with the matching stop reason and macroblock count. *)
Theorem mdec_color_decode (ok : State -> Z -> bool) (frame v : Z) (ws : list Z) (s : State) :
  (forall s n, ok s n = true) -> wf s -> busy s = 0 ->
  Z.shiftr v 29 = MDEC_CMD_DECODE -> 2 <= u8 (Z.land (Z.shiftr v 27) 3) ->
  Z.of_nat (length ws) = Z.land v 0xFFFF -> ws <> [] ->
  let s' := feed ok frame (v :: ws) s in
  exists mbs stop,
    color_stream (scale s) (six_blocks s) (halfwords ws) mbs stop /\
    out_fifo s' = flat_map (mb_bytes (cmd_cfg v)) mbs /\
    decode_stop_reason s' = stop /\ decode_macroblocks s' = Z.of_nat (length mbs) /\
    busy s' = 0 /\ mdec_last_color_decode_frame s' = frame.
Proof.
  intros Hk Hw Hb Hop Hd Hlen Hne s'.
  pose proof (decode_announced v Hop) as Ha.
  assert (length ws <> 0%nat) by (by destruct ws).
  destruct (begin_feed_idle ok frame v ws s Hk Hw Hb ltac:(lia) ltac:(lia)) as (c & s2 & E & R & W).
  destruct (received_begun _ _ _ _ _ _ _ R) as (Ec & Ecfg & Esc & Esix & _ & _ & Elive & _).
  unfold s'. rewrite E, execute_command_decode by by rewrite Ec.
  destruct (execute_decode_color_spec ok frame s2 W) as (mbs & stop & s1 & Ex & F & Ho & Hm & Hs & Hout).
  { by assert (output_depth s2 = u8 (Z.land (Z.shiftr v 27) 3)) as -> by (injection Ecfg; done). }
  rewrite Ex. exists mbs, stop. rewrite Elive, Esc, Esix in Hs. split; [exact Hs|].
  split; [|done]. rewrite <- Ecfg, <- (Hout Hk).
  destruct F as (o & n & c' & b & m & r & ->). done.
Qed.

(** Luma decoding refines the reference decoder.  A 4- or 8-bit DECODE
    command consumes its whole input as consecutive blocks, emits 64 samples
    per block and always stops because the input ended. *)
Theorem mdec_luma_decode (ok : State -> Z -> bool) (frame v : Z) (ws : list Z) (s : State) :
  (forall s n, ok s n = true) -> wf s -> busy s = 0 ->
  Z.shiftr v 29 = MDEC_CMD_DECODE -> u8 (Z.land (Z.shiftr v 27) 3) < 2 ->
  Z.of_nat (length ws) = Z.land v 0xFFFF -> ws <> [] ->
  let s' := feed ok frame (v :: ws) s in
  exists blocks,
    luma_stream (scale s) (y_quant s) (halfwords ws) blocks /\
    out_fifo s' = flat_map (luma_bytes (cmd_cfg v)) blocks /\
    Z.of_nat (length (out_fifo s')) = 64 * Z.of_nat (length blocks) /\
    decode_stop_reason s' = MDEC_STOP_INPUT_END /\ busy s' = 0 /\
    mdec_last_color_decode_frame s' = mdec_last_color_decode_frame s.
Proof.
  intros Hk Hw Hb Hop Hd Hlen Hne s'.
  pose proof (decode_announced v Hop) as Ha.
  assert (length ws <> 0%nat) by (by destruct ws).
  destruct (begin_feed_idle ok frame v ws s Hk Hw Hb ltac:(lia) ltac:(lia)) as (c & s2 & E & R & W).
  destruct (received_begun _ _ _ _ _ _ _ R) as (Ec & Ecfg & Esc & _ & Eyq & _ & Elive & _).
  unfold s'. rewrite E, execute_command_decode by by rewrite Ec.
  destruct (execute_decode_luma_spec ok frame s2 W) as (bs & s1 & Ex & F & Ho & Hm & Hs & Hout).
  { by assert (output_depth s2 = u8 (Z.land (Z.shiftr v 27) 3)) as -> by (injection Ecfg; done). }
  rewrite Ex. exists bs. rewrite Elive, Esc, Eyq in Hs. split; [exact Hs|].
  assert (out_fifo (finish_command frame (trace_event frame MDEC_EVT_DECODE_DONE (output_size s1)
    (s1 <| decode_stop_reason := MDEC_STOP_INPUT_END |> <| decode_input_pos := input_count s2 |>)))
    = flat_map (luma_bytes (cmd_cfg v)) bs) as Hf.
  { rewrite <- Ecfg, <- (Hout Hk). destruct F as (o & n & c' & b & m & r & ->). done. }
  split; [exact Hf|]. split; [|split; [done|split; [done|]]].
  - rewrite Hf. clear. induction bs as [|b bs IH]; [done|]. cbn [flat_map length].
    rewrite length_app. pose proof (length_luma_bytes (cmd_cfg v) b). lia.
  - destruct F as (o & n & c' & b & m & r & ->). by destruct R as [[inp ->] _].
Qed.

Lemma mdec_color_decode_witness :
  let ok := fun (_ : State) (_ : Z) => true in
  let s := mdec_init state0 in
  let s' := feed ok 7 (0x38000003 :: [0xFE000123; 0xFE000010; 0xFE0003FF]) s in
  exists mbs stop,
    color_stream (scale s) (six_blocks s) (halfwords [0xFE000123; 0xFE000010; 0xFE0003FF]) mbs stop /\
    out_fifo s' = flat_map (mb_bytes (cmd_cfg 0x38000003)) mbs /\
    decode_stop_reason s' = stop /\ decode_macroblocks s' = Z.of_nat (length mbs) /\
    busy s' = 0 /\ mdec_last_color_decode_frame s' = 7.
Proof.
  intros ok s s'.
  apply (mdec_color_decode ok 7 0x38000003 [0xFE000123; 0xFE000010; 0xFE0003FF] s);
    [done|apply mdec_init_wf|reflexivity|reflexivity|by vm_compute|reflexivity|done].
Defined.

Lemma mdec_luma_decode_witness :
  let ok := fun (_ : State) (_ : Z) => true in
  let s := mdec_init state0 in
  let s' := feed ok 7 (0x20000002 :: [0xFE000123; 0x04010010]) s in
  exists blocks,
    luma_stream (scale s) (y_quant s) (halfwords [0xFE000123; 0x04010010]) blocks /\
    out_fifo s' = flat_map (luma_bytes (cmd_cfg 0x20000002)) blocks /\
    Z.of_nat (length (out_fifo s')) = 64 * Z.of_nat (length blocks) /\
    decode_stop_reason s' = MDEC_STOP_INPUT_END /\ busy s' = 0 /\
    mdec_last_color_decode_frame s' = mdec_last_color_decode_frame s.
Proof.
  intros ok s s'.
  apply (mdec_luma_decode ok 7 0x20000002 [0xFE000123; 0x04010010] s);
    [done|apply mdec_init_wf|reflexivity|reflexivity|by vm_compute|reflexivity|done].
Defined.

(** *** Table uploads *)

Lemma aget_cells m lo hi i :
  0 <= i < hi - lo -> aget (cells m lo hi) i = default 0 (m !! (lo + i)).
Proof.
  intros Hi. unfold aget, cells. rewrite nth_lookup_default, list_lookup_fmap.
  rewrite lookup_seqZ_lt by lia. cbn. by rewrite Z2Nat.id by lia.
Qed.

Lemma input_at_live s i : 0 <= i < input_count s -> input_at s i = aget (live_input s) i.
Proof. intros Hi. unfold live_input. by rewrite aget_cells by lia. Qed.

(** Byte [i] of a list of halfwords. *)
Definition byte_of (l : list Z) (i : Z) : Z :=
  if i mod 2 =? 1 then u8 (Z.shiftr (aget l (i / 2)) 8) else u8 (aget l (i / 2)).

Lemma input_byte_live s i :
  0 <= i < 2 * input_count s -> input_byte s i = byte_of (live_input s) i.
Proof.
  intros Hi. unfold input_byte, byte_of, has.
  rewrite (Z.shiftr_div_pow2 i 1) by lia. change (2 ^ 1) with 2. rewrite land_1.
  rewrite (input_at_live s (i / 2)) by dlia. cbv zeta.
  destruct (Z.eqb_spec (i mod 2) 0), (Z.eqb_spec (i mod 2) 1); cbn; try done; dlia.
Qed.

(** An upload loop reads the input and fills one table. *)
Lemma upload_loop (set : list Z -> State -> State) (get : State -> list Z) idx g s n :
  (forall q x, get (set q x) = q) -> (forall q q' x, set q (set q' x) = set q x) ->
  set (get s) s = s -> (forall i q x, g i (set q x) = g i x) ->
  0 <= n ->
  forZ 0 n (fun i x => set (aset (get x) (idx i) (g i x)) x) s
    = set (forZ 0 n (fun i a => aset a (idx i) (g i s)) (get s)) s.
Proof.
  intros Hgs Hss Hsg Hg Hn.
  apply (forZ_ind (fun k x => x = set (forZ 0 k (fun i a => aset a (idx i) (g i s)) (get s)) s)
           0 n _ s Hn).
  - change (s = set (get s) s). by rewrite Hsg.
  - intros i x Hi ->. rewrite Hgs, Hss, Hg. f_equal.
    unfold forZ. replace (i + 1 - 0) with ((i - 0) + 1) by lia. rewrite seqZ_snoc by lia.
    rewrite fold_left_app. cbn. by replace (0 + (i - 0)) with i by lia.
Qed.

Lemma transpose_index i :
  0 <= i < 64 ->
  Z.lor (Z.shiftl (Z.land i 7) 3) (Z.land (Z.shiftr i 3) 7) = (i mod 8) * 8 + i / 8.
Proof.
  intros Hi. apply Z.eqb_eq.
  apply (forallb_seqZ (fun i => Z.lor (Z.shiftl (Z.land i 7) 3) (Z.land (Z.shiftr i 3) 7)
           =? (i mod 8) * 8 + i / 8) 0 64); [by vm_compute|lia].
Qed.

(** SET_SCALE.  Sending the command and its 32 words to an idle decoder
    loads the table transposed and divided by eight, leaves the quantiser
    tables alone and makes the decoder idle; nothing is output. *)
Theorem mdec_set_scale (ok : State -> Z -> bool) (frame v : Z) (ws : list Z) (s : State) :
  (forall s n, ok s n = true) -> wf s -> busy s = 0 ->
  Z.shiftr v 29 = MDEC_CMD_SET_SCALE -> length ws = 32%nat ->
  let s' := feed ok frame (v :: ws) s in
  (forall r c, 0 <= r < 8 -> 0 <= c < 8 ->
     aget (scale s') (c * 8 + r) = Z.shiftr (s16 (aget (halfwords ws) (r * 8 + c))) 3) /\
  y_quant s' = y_quant s /\ uv_quant s' = uv_quant s /\ out_fifo s' = out_fifo s /\
  busy s' = 0.
Proof.
  intros Hk Hw Hb Hop Hlen s'.
  assert (announced v = 64) as Ha by (unfold announced; by rewrite Hop).
  destruct (begin_feed_idle ok frame v ws s Hk Hw Hb ltac:(lia) ltac:(lia)) as (c & s2 & E & R & W).
  destruct (received_begun _ _ _ _ _ _ _ R) as (Ec & _ & Esc & _ & Eyq & Euq & Elive & Ecount).
  rewrite length_halfwords, Hlen in Ecount. change (Z.of_nat (2 * 32)) with 64 in Ecount.
  assert (s' = finish_command frame (s2 <| scale :=
    forZ 0 64 (fun i a => aset a ((i mod 8) * 8 + i / 8)
       (Z.shiftr (s16 (aget (halfwords ws) i)) 3)) (scale s2) |>)) as Es.
  { unfold s'. rewrite E. unfold execute_command. rewrite Ec, Hop. cbn [Z.eqb Pos.eqb]. cbv zeta.
    change (MDEC_CMD_SET_SCALE =? MDEC_CMD_SET_QUANT) with false.
    change (MDEC_CMD_SET_SCALE =? MDEC_CMD_SET_SCALE) with true. cbv iota.
    f_equal. 
    rewrite (upload_loop (fun q x => x <| scale := q |>) scale
      (fun i => Z.lor (Z.shiftl (Z.land i 7) 3) (Z.land (Z.shiftr i 3) 7))
      (fun i x => s16 (Z.shiftr (s16 (input_at x i)) 3)) s2 64); [|done|done|done|done|lia].
    assert (forall f g : Z -> list Z -> list Z, (forall i x, 0 <= i < 64 -> f i x = g i x) ->
      s2 <| scale := forZ 0 64 f (scale s2) |> = s2 <| scale := forZ 0 64 g (scale s2) |>) as Hx.
    { intros f g Hfg. by rewrite (forZ_ext 0 64 f g). }
    apply Hx. intros i a Hi. rewrite transpose_index by done. f_equal.
    rewrite input_at_live, Elive by lia.
    pose proof (scale_entry_range (aget (halfwords ws) i)) as Hr. unfold is_scale, s16 in Hr.
    rewrite s16_id; [done|]. pose proof (s16_range (aget (halfwords ws) i)).
    rewrite Z.shiftr_div_pow2 by lia. change (2 ^ 3) with 8. dlia. }
  destruct (wf_scale _ W) as [Hl _].
  destruct (forZ_aset (fun i => (i mod 8) * 8 + i / 8)
    (fun i => Z.shiftr (s16 (aget (halfwords ws) i)) 3) 0 64 (scale s2)) as (_ & Hset & _).
  - lia.
  - intros i Hi. rewrite Hl. dlia.
  - intros i j Hi Hj. dlia.
  - split; [|rewrite Es; split; [exact Eyq|split; [exact Euq|split; [|done]]]].
    + intros r c' Hr Hc. rewrite Es. change (scale (finish_command _ ?x)) with (scale x). cbn [scale upd].
      specialize (Hset (r * 8 + c') ltac:(lia)). cbn beta in Hset.
      replace (c' * 8 + r) with ((r * 8 + c') mod 8 * 8 + (r * 8 + c') / 8) by dlia. exact Hset.
    + by destruct R as [[inp ->] _].
Qed.

Lemma mdec_set_scale_witness :
  let ok := fun (_ : State) (_ : Z) => true in
  let ws := map (fun i => i * 0x1234567 mod 0x100000000) (seqZ 1 32) in
  let s := mdec_init state0 in
  let s' := feed ok 7 (0x60000000 :: ws) s in
  aget (scale s') (5 * 8 + 2) = Z.shiftr (s16 (aget (halfwords ws) (2 * 8 + 5))) 3 /\
  busy s' = 0.
Proof.
  intros ok ws s s'.
  destruct (mdec_set_scale ok 7 0x60000000 ws s) as (H & _ & _ & _ & Hb);
    [done|apply mdec_init_wf|reflexivity|reflexivity|by vm_compute|].
  split; [apply (H 2 5); lia|exact Hb].
Defined.

(** *** Draining the output *)

(** The little-endian word at the head of a byte stream, zero-filled. *)
Definition le_word (bs : list Z) : Z :=
  Z.lor (Z.lor (Z.lor (aget bs 0) (Z.shiftl (aget bs 1) 8)) (Z.shiftl (aget bs 2) 16))
    (Z.shiftl (aget bs 3) 24).

Lemma read_byte_fifo i v s :
  out_ok s -> 0 <= output_pos s <= output_size s ->
  fst (read_byte i (v, s)) = Z.lor v (Z.shiftl (aget (out_fifo s) 0) (i * 8)) /\
  out_fifo (snd (read_byte i (v, s))) = drop 1 (out_fifo s) /\
  read_frame s (snd (read_byte i (v, s))).
Proof.
  intros Ho Hp. unfold read_byte.
  assert (0 <= output_size s < 0x1000001) by (destruct Ho; unfold OUT_LIMIT in *; lia).
  destruct (Z.ltb_spec (output_pos s) (output_size s)) as [Hlt|Hge]; cbn [fst snd].
  - unfold out_fifo. rewrite aget_cells by lia. rewrite Z.add_0_r. split; [done|].
    split; [|split; [done|cbn; rewrite u32_id by lia; lia]].
    rewrite (cells_cons _ (output_pos s)) by lia. cbn [drop].
    cbn. by rewrite u32_id by lia.
  - unfold out_fifo. rewrite cells_nil by lia. cbn [drop]. unfold aget. cbn [nth].
    rewrite Z.shiftl_0_l, Z.lor_0_r. split; [done|]. split; [done|].
    split; [done|lia].
Qed.

Lemma read_frame_trans s1 s2 s3 : read_frame s1 s2 -> read_frame s2 s3 -> read_frame s1 s3.
Proof.
  intros [H1 R1] [H2 R2]. assert (output_size s2 = output_size s1) as E by by rewrite H1.
  rewrite E in R2. split; [|lia]. rewrite H2 at 1. by rewrite H1 at 1.
Qed.

Lemma aget_drop (l : list Z) n i : 0 <= i -> aget (drop n l) i = aget l (Z.of_nat n + i).
Proof.
  intros Hi. unfold aget. rewrite !nth_lookup_default, lookup_drop. f_equal. f_equal. lia.
Qed.

Lemma read_loop_fifo s :
  out_ok s -> 0 <= output_pos s <= output_size s ->
  let r := forZ 0 4 read_byte (0, s) in
  fst r = le_word (out_fifo s) /\ out_fifo (snd r) = drop 4 (out_fifo s) /\ read_frame s (snd r).
Proof.
  intros Ho Hp r.
  change r with (read_byte 3 (read_byte 2 (read_byte 1 (read_byte 0 (0, s))))). clear r.
  assert (forall s', read_frame s s' -> out_ok s' /\ 0 <= output_pos s' <= output_size s') as Hok.
  { intros s' [-> Hr]. cbn in Hr |- *. split; [by destruct Ho|lia]. }
  destruct (read_byte_fifo 0 0 s Ho Hp) as (V0 & F0 & R0).
  destruct (read_byte 0 (0, s)) as [v0 s0]. cbn [fst snd] in *. destruct (Hok s0 R0) as [Ho0 Hp0].
  destruct (read_byte_fifo 1 v0 s0 Ho0 Hp0) as (V1 & F1 & R1).
  destruct (read_byte 1 (v0, s0)) as [v1 s1]. cbn [fst snd] in *.
  pose proof (read_frame_trans _ _ _ R0 R1) as R01. destruct (Hok s1 R01) as [Ho1 Hp1].
  destruct (read_byte_fifo 2 v1 s1 Ho1 Hp1) as (V2 & F2 & R2).
  destruct (read_byte 2 (v1, s1)) as [v2 s2]. cbn [fst snd] in *.
  pose proof (read_frame_trans _ _ _ R01 R2) as R02. destruct (Hok s2 R02) as [Ho2 Hp2].
  destruct (read_byte_fifo 3 v2 s2 Ho2 Hp2) as (V3 & F3 & R3).
  pose proof (read_frame_trans _ _ _ R02 R3) as R03.
  rewrite F2, F1, F0, !drop_drop in F3. split; [|split; [exact F3|exact R03]].
  rewrite V3, V2, V1, V0, F2, F1, F0, !drop_drop, !aget_drop by lia. unfold le_word.
  by rewrite Z.lor_0_l, Z.shiftl_0_r.
Qed.

Lemma dma_read_fifo frame s :
  wf s -> fst (mdec_dma_read_word frame s) = le_word (out_fifo s) /\
  out_fifo (snd (mdec_dma_read_word frame s)) = drop 4 (out_fifo s).
Proof.
  intros [H _]. unfold mdec_dma_read_word.
  destruct (read_loop_fifo s (wf_out _ H) (wf_pos _ H)) as (V & F & R).
  destruct (forZ 0 4 read_byte (0, s)) as [v s1]. cbn [fst snd] in *. cbv zeta.
  set (s2 := s1 <| dma_out_words := _ |>).
  set (s3 := if output_size s2 <=? output_pos s then _ else s2).
  assert (out_fifo s3 = out_fifo s1 /\ output_pos s3 = output_pos s1 /\ output_size s3 = output_size s1)
    as (F3 & P3 & S3).
  { unfold s3. cbv zeta. case_if; [|done]. case_if; done. }
  split; [exact V|]. rewrite P3, S3.
  destruct (Z.leb_spec (output_size s1) (output_pos s1)); cbn [snd]; [|congruence].
  rewrite <- F. unfold out_fifo at 2. rewrite cells_nil by lia. done.
Qed.

(** [n] reads of the data port. *)
Fixpoint dma_reads (frame : Z) (n : nat) (s : State) : list Z * State :=
  match n with
  | O => ([], s)
  | S n => let '(w, s) := mdec_dma_read_word frame s in
           let '(ws, s) := dma_reads frame n s in (w :: ws, s)
  end.

Lemma dma_reads_fifo frame n : forall s, wf s ->
  fst (dma_reads frame n s) = map (fun i => le_word (drop (4 * i) (out_fifo s))) (seq 0 n) /\
  out_fifo (snd (dma_reads frame n s)) = drop (4 * n) (out_fifo s) /\ wf (snd (dma_reads frame n s)).
Proof.
  induction n as [|n IH]; intros s H; [done|]. cbn [dma_reads].
  destruct (dma_read_fifo frame s H) as [V F]. pose proof (mdec_dma_read_word_wf frame s H) as W.
  destruct (mdec_dma_read_word frame s) as [w s1]. cbn [fst snd] in *.
  destruct (IH s1 W) as (V1 & F1 & W1). destruct (dma_reads frame n s1) as [ws s2]. cbn [fst snd] in *.
  split; [|split; [|done]].
  - cbn [seq map]. rewrite V, V1, F. f_equal. rewrite <- seq_shift, map_map.
    apply map_ext. intros i. rewrite drop_drop. by replace (4 + 4 * i)%nat with (4 * S i)%nat by lia.
  - rewrite F1, F, drop_drop. f_equal. lia.
Qed.

(** The output port is a FIFO.  From any reachable state, [n] reads return
    the pending bytes in order, four at a time and little-endian, zero-filled
    once they run out; what remains is the rest of the stream, and the
    read-ready flag is exactly that something remains. *)
Theorem mdec_output_fifo (frame : Z) (n : nat) (s : State) :
  reachable s ->
  let '(ws, s') := dma_reads frame n s in
  ws = map (fun i => le_word (drop (4 * i) (out_fifo s))) (seq 0 n) /\
  out_fifo s' = drop (4 * n) (out_fifo s) /\
  (mdec_dma_read_ready s' = true <-> out_fifo s' <> []).
Proof.
  intros Hr. pose proof (reachable_inv s Hr) as H.
  destruct (dma_reads_fifo frame n s H) as (V & F & W).
  destruct (dma_reads frame n s) as [ws s']. cbn [fst snd] in *.
  split; [done|]. split; [done|]. unfold mdec_dma_read_ready, out_fifo.
  destruct (Z.ltb_spec (output_pos s') (output_size s')).
  - rewrite cells_cons by lia. done.
  - rewrite cells_nil by lia. done.
Qed.

Lemma mdec_output_fifo_witness :
  let s := mdec_op (fun _ _ => true) (OpDmaIn 3 0xFE000123)
             (mdec_op (fun _ _ => true) (OpWrite 3 0 0x20000001) (mdec_init state0)) in
  let '(ws, s') := dma_reads 9 17 s in
  ws = map (fun i => le_word (drop (4 * i) (out_fifo s))) (seq 0 17) /\
  out_fifo s' = drop (4 * 17) (out_fifo s) /\
  (mdec_dma_read_ready s' = true <-> out_fifo s' <> []).
Proof. intros s. apply (mdec_output_fifo 9 17 s). apply reach_op, reach_op, reach_init. Defined.

(** The decoder is memory-safe in every reachable state, whatever the
    allocator answers: the cursors stay inside the buffers, every halfword
    the next command will read and every byte a reader will get has been
    written, the tables keep their size and element ranges, a pending command
    is short of input, and the trace head stays at its sequence number. *)
Theorem mdec_reachable_wf (s : State) : reachable s -> wf s.
Proof. apply reachable_inv. Qed.

Lemma mdec_reachable_wf_witness :
  wf (mdec_op (fun _ n => n <? 1000) (OpDmaIn 3 0xFE000123)
        (mdec_op (fun _ n => n <? 1000) (OpWrite 3 0 0x30000009) (mdec_init state0))).
Proof. apply mdec_reachable_wf, reach_op, reach_op, reach_init. Defined.

End Mdec.
