(* ===== verification/Interpreter.v ===== *)
(** * Oracle interpreter (src/runtime/src/psx_interpreter.c)

    The R3000A interpreter of the oracle build.  What it reaches through the
    function pointers of [CPUState] and through the other device files (bus
    accesses, the GTE, the device ticks, I_STAT/I_MASK) is the interface
    [Machine]; [State] is the part of [CPUState] the interpreter works on plus
    the statics of the file.  A branch executes its delay slot by a recursive
    call, so [exec_one] takes the recursion depth as fuel and returns [None]
    when it runs out. *)

From S2P Require Import Prelude Bus Rings.

Module Interp.

(** Everything outside the interpreter: [W] is its state.  Reads may change
    it (device registers do). *)
Class Machine (W : Type) := {
  read_word : Z -> W -> Z * W;
  read_half : Z -> W -> Z * W;
  read_byte : Z -> W -> Z * W;
  write_word : Z -> Z -> W -> W;
  write_half : Z -> Z -> W -> W;
  write_byte : Z -> Z -> W -> W;
  gte_read_data : Z -> W -> Z * W;
  gte_read_ctrl : Z -> W -> Z * W;
  gte_write_data : Z -> Z -> W -> W;
  gte_write_ctrl : Z -> Z -> W -> W;
  gte_execute : Z -> W -> W;
  i_stat : W -> Z;
  i_mask : W -> Z;
  irq_raise : Z -> W -> W;
  sio_tick : Z -> W -> W;
  gpu_vblank_tick : W -> W;
  timers_tick : Z -> W -> W;
  cdrom_tick : W -> W;
}.

(** The C types of the results. *)
Class MachineOk (W : Type) {M : Machine W} : Prop := {
  read_word_u32 a w : is_u32 (fst (read_word a w));
  read_half_u16 a w : is_u16 (fst (read_half a w));
  read_byte_u8 a w : is_u8 (fst (read_byte a w));
  gte_read_data_u32 r w : is_u32 (fst (gte_read_data r w));
  gte_read_ctrl_u32 r w : is_u32 (fst (gte_read_ctrl r w));
}.

Definition COP0_SR := 12.
Definition COP0_CAUSE := 13.
Definition COP0_EPC := 14.
Definition IRQ_VBLANK := 0.
Definition VBLANK_INTERVAL := 50000.
Definition MAX_BREAKPOINTS := 64.
Definition TRACE_RING_SIZE := 0x100000.
Definition TRACE_RING_MASK := TRACE_RING_SIZE - 1.

Definition OP (i : Z) : Z := Z.land (Z.shiftr i 26) 0x3F.
Definition RS (i : Z) : Z := Z.land (Z.shiftr i 21) 0x1F.
Definition RT (i : Z) : Z := Z.land (Z.shiftr i 16) 0x1F.
Definition RD (i : Z) : Z := Z.land (Z.shiftr i 11) 0x1F.
Definition SA (i : Z) : Z := Z.land (Z.shiftr i 6) 0x1F.
Definition FUNC (i : Z) : Z := Z.land i 0x3F.
Definition IMM16 (i : Z) : Z := Z.land i 0xFFFF.
Definition SIMM (i : Z) : Z := s16 (Z.land i 0xFFFF).
Definition JTARGET (i pc : Z) : Z :=
  Z.lor (Z.land (u32 (pc + 4)) 0xF0000000) (Z.shiftl (Z.land i 0x03FFFFFF) 2).

Record InterpTraceEntry := mkTrace {
  t_pc : Z; t_gpr : list Z; t_hi : Z; t_lo : Z;
  t_cop0_sr : Z; t_cop0_cause : Z; t_cop0_epc : Z; t_insn : Z; t_seq : Z
}.

#[projections(primitive)] Record State (W : Type) := mkState {
  gpr : list Z;
  pc : Z;
  hi : Z;
  lo : Z;
  cop0 : list Z;
  world : W;
  s_vblank_count : Z;
  s_hit_bp : Z;
  s_trace_on : Z;
  s_halted : Z;
  s_bp : list Z;
  s_bp_count : Z;
  s_trace_ring : gmap Z InterpTraceEntry;
  s_trace_seq : Z;
  s_trace_write_idx : Z;
  s_load_reg : Z;
  s_load_val : Z;
}.
Arguments mkState {W}.
Arguments gpr {W} s.
Arguments pc {W} s.
Arguments hi {W} s.
Arguments lo {W} s.
Arguments cop0 {W} s.
Arguments world {W} s.
Arguments s_vblank_count {W} s.
Arguments s_hit_bp {W} s.
Arguments s_trace_on {W} s.
Arguments s_halted {W} s.
Arguments s_bp {W} s.
Arguments s_bp_count {W} s.
Arguments s_trace_ring {W} s.
Arguments s_trace_seq {W} s.
Arguments s_trace_write_idx {W} s.
Arguments s_load_reg {W} s.
Arguments s_load_val {W} s.
#[export] Instance eta_State W : Eta (State W) := fun r =>
  mkState (gpr r) (pc r) (hi r) (lo r) (cop0 r) (world r) (s_vblank_count r) (s_hit_bp r)
    (s_trace_on r) (s_halted r) (s_bp r) (s_bp_count r) (s_trace_ring r) (s_trace_seq r)
    (s_trace_write_idx r) (s_load_reg r) (s_load_val r).

Section Interpreter.
Context {W : Type} {M : Machine W}.
Abbreviation St := (State W).

(** [interp_init] clears the statics; the CPU state is the caller's. *)
Definition interp_init (s : St) : St :=
  s <| s_hit_bp := 0 |> <| s_trace_on := 0 |> <| s_halted := 0 |> <| s_bp_count := 0 |>
    <| s_trace_seq := 0 |> <| s_trace_write_idx := 0 |> <| s_load_reg := 0 |>
    <| s_load_val := 0 |> <| s_vblank_count := 0 |> <| s_trace_ring := ∅ |>.

(** *** Breakpoints *)

Definition interp_break_add (bp : Z) (s : St) : Z * St :=
  if MAX_BREAKPOINTS <=? s_bp_count s then (-1, s)
  else (s_bp_count s,
        s <| s_bp := aset (s_bp s) (s_bp_count s) bp |> <| s_bp_count := s_bp_count s + 1 |>).

(** The first index below [n] from [i] whose cell holds [bp]. *)
Fixpoint find_bp (fuel : nat) (i bp : Z) (s : St) : option Z :=
  match fuel with
  | O => None
  | S fuel => if aget (s_bp s) i =? bp then Some i else find_bp fuel (i + 1) bp s
  end.

Definition interp_break_remove (bp : Z) (s : St) : Z * St :=
  match find_bp (Z.to_nat (s_bp_count s)) 0 bp s with
  | Some i =>
      let n := s_bp_count s - 1 in
      (1, s <| s_bp_count := n |> <| s_bp := aset (s_bp s) i (aget (s_bp s) n) |>)
  | None => (0, s)
  end.

Definition interp_break_clear_all (s : St) : St := s <| s_bp_count := 0 |>.
Definition interp_hit_breakpoint (s : St) : Z := s_hit_bp s.

(** *** Trace *)

Definition interp_trace_enable (on : Z) (s : St) : St := s <| s_trace_on := on |>.
Definition interp_trace_count (s : St) : Z := s_trace_seq s.

Definition interp_trace_get (ring_idx : Z) (s : St) : option InterpTraceEntry :=
  if TRACE_RING_SIZE <=? ring_idx then None else
  let avail := if s_trace_seq s <? TRACE_RING_SIZE then u32 (s_trace_seq s) else TRACE_RING_SIZE in
  if avail <=? ring_idx then None else
  let idx := Z.land (u32 (s_trace_write_idx s - avail + ring_idx)) TRACE_RING_MASK in
  s_trace_ring s !! idx.

Definition trace_record (insn : Z) (s : St) : St :=
  let e := mkTrace (pc s) (gpr s) (hi s) (lo s) (aget (cop0 s) 12) (aget (cop0 s) 13)
             (aget (cop0 s) 14) insn (s_trace_seq s) in
  s <| s_trace_ring := <[s_trace_write_idx s := e]> (s_trace_ring s) |>
    <| s_trace_seq := u64 (s_trace_seq s + 1) |>
    <| s_trace_write_idx := Z.land (u32 (s_trace_write_idx s + 1)) TRACE_RING_MASK |>.

(** *** Registers *)

Definition reg (s : St) (r : Z) : Z := aget (gpr s) r.

Definition set_reg (r v : Z) (s : St) : St :=
  if negb (r =? 0) then s <| gpr := aset (gpr s) r v |> else s.

Definition apply_load_delay (s : St) : St :=
  if negb (s_load_reg s =? 0)
  then s <| gpr := aset (gpr s) (s_load_reg s) (s_load_val s) |> <| s_load_reg := 0 |>
  else s.

Definition set_load_delay (r v : Z) (s : St) : St :=
  s <| s_load_reg := r |> <| s_load_val := v |>.

Definition c0 (s : St) (r : Z) : Z := aget (cop0 s) r.
Definition set_c0 (r v : Z) (s : St) : St := s <| cop0 := aset (cop0 s) r v |>.

Definition raise_exception (exccode : Z) (in_delay : bool) (s : St) : St :=
  let sr := c0 s 12 in
  let s := set_c0 12 (Z.lor (Z.ldiff sr 0x3F) (Z.shiftl (Z.land sr 0x0F) 2)) s in
  let s := set_c0 13 (Z.lor (Z.ldiff (c0 s 13) 0x7C) (u32 (Z.shiftl exccode 2))) s in
  let s := if in_delay then set_c0 13 (Z.lor (c0 s 13) (Z.shiftl 1 31)) s
           else set_c0 13 (Z.ldiff (c0 s 13) (Z.shiftl 1 31)) s in
  let s := set_c0 14 (if in_delay then u32 (pc s - 4) else pc s) s in
  s <| pc := if negb (Z.land sr 0x00400000 =? 0) then 0xBFC00180 else 0x80000080 |>.

(** *** Bus access *)

Definition bus_word (a : Z) (s : St) : Z * St :=
  let '(v, w) := read_word a (world s) in (v, s <| world := w |>).
Definition bus_half (a : Z) (s : St) : Z * St :=
  let '(v, w) := read_half a (world s) in (v, s <| world := w |>).
Definition bus_byte (a : Z) (s : St) : Z * St :=
  let '(v, w) := read_byte a (world s) in (v, s <| world := w |>).
Definition put_word (a v : Z) (s : St) : St := s <| world := write_word a v (world s) |>.
Definition put_half (a v : Z) (s : St) : St := s <| world := write_half a v (world s) |>.
Definition put_byte (a v : Z) (s : St) : St := s <| world := write_byte a v (world s) |>.
Definition cop2_data (r : Z) (s : St) : Z * St :=
  let '(v, w) := gte_read_data r (world s) in (v, s <| world := w |>).
Definition cop2_ctrl (r : Z) (s : St) : Z * St :=
  let '(v, w) := gte_read_ctrl r (world s) in (v, s <| world := w |>).

(** How the body of the [switch] leaves it: [break] (and then $0 is cleared),
    [return] after an exception, or a delay slot followed by a jump. *)
Inductive Flow :=
| Break (s : St)
| Return (s : St)
| DelaySlot (target : Z) (s : St).

Definition fits_s32 (r : Z) : bool := (-0x80000000 <=? r) && (r <=? 0x7FFFFFFF).

Definition exec_special (insn pc0 rs_val rt_val : Z) (s : St) : Flow :=
  let func := FUNC insn in
  let rd := RD insn in
  let sa := SA insn in
  let set v := Break (set_reg rd v s) in
  if func =? 0x00 then set (u32 (Z.shiftl rt_val sa))
  else if func =? 0x02 then set (Z.shiftr rt_val sa)
  else if func =? 0x03 then set (u32 (Z.shiftr (s32 rt_val) sa))
  else if func =? 0x04 then set (u32 (Z.shiftl rt_val (Z.land rs_val 31)))
  else if func =? 0x06 then set (Z.shiftr rt_val (Z.land rs_val 31))
  else if func =? 0x07 then set (u32 (Z.shiftr (s32 rt_val) (Z.land rs_val 31)))
  else if func =? 0x08 then DelaySlot rs_val s
  else if func =? 0x09 then DelaySlot rs_val (set_reg rd (u32 (pc0 + 8)) s)
  else if func =? 0x0C then Return (raise_exception 8 false s)
  else if func =? 0x0D then Return (raise_exception 9 false s)
  else if func =? 0x10 then set (hi s)
  else if func =? 0x11 then Break (s <| hi := rs_val |>)
  else if func =? 0x12 then set (lo s)
  else if func =? 0x13 then Break (s <| lo := rs_val |>)
  else if func =? 0x18 then
    let r := s32 rs_val * s32 rt_val in
    Break (s <| lo := u32 r |> <| hi := u32 (Z.shiftr r 32) |>)
  else if func =? 0x19 then
    let r := u64 (rs_val * rt_val) in
    Break (s <| lo := u32 r |> <| hi := u32 (Z.shiftr r 32) |>)
  else if func =? 0x1A then
    if rt_val =? 0 then
      Break (s <| lo := if has rs_val 0x80000000 then 1 else 0xFFFFFFFF |> <| hi := rs_val |>)
    else if (rs_val =? 0x80000000) && (rt_val =? 0xFFFFFFFF) then
      Break (s <| lo := 0x80000000 |> <| hi := 0 |>)
    else Break (s <| lo := u32 (Z.quot (s32 rs_val) (s32 rt_val)) |>
                  <| hi := u32 (Z.rem (s32 rs_val) (s32 rt_val)) |>)
  else if func =? 0x1B then
    if rt_val =? 0 then Break (s <| lo := 0xFFFFFFFF |> <| hi := rs_val |>)
    else Break (s <| lo := rs_val / rt_val |> <| hi := rs_val mod rt_val |>)
  else if func =? 0x20 then
    let r := s32 rs_val + s32 rt_val in
    if negb (fits_s32 r) then Return (raise_exception 12 false s) else set (u32 r)
  else if func =? 0x21 then set (u32 (rs_val + rt_val))
  else if func =? 0x22 then
    let r := s32 rs_val - s32 rt_val in
    if negb (fits_s32 r) then Return (raise_exception 12 false s) else set (u32 r)
  else if func =? 0x23 then set (u32 (rs_val - rt_val))
  else if func =? 0x24 then set (Z.land rs_val rt_val)
  else if func =? 0x25 then set (Z.lor rs_val rt_val)
  else if func =? 0x26 then set (Z.lxor rs_val rt_val)
  else if func =? 0x27 then set (u32 (Z.lnot (Z.lor rs_val rt_val)))
  else if func =? 0x2A then set (b2z (s32 rs_val <? s32 rt_val))
  else if func =? 0x2B then set (b2z (rs_val <? rt_val))
  else Break s.

(** Branch target: [pc + 4 + (SIMM(insn) << 2)]. *)
Definition branch_target (insn pc0 : Z) : Z := u32 (pc0 + 4 + Z.shiftl (SIMM insn) 2).

Definition branch_if (cond : bool) (insn pc0 : Z) (s : St) : Flow :=
  if cond then DelaySlot (branch_target insn pc0) s else Break s.

Definition exec_regimm (insn pc0 rs_val : Z) (s : St) : Flow :=
  let rt := RT insn in
  let cond := if has rt 0x01 then 0 <=? s32 rs_val else s32 rs_val <? 0 in
  let s := if has rt 0x10 then set_reg 31 (u32 (pc0 + 8)) s else s in
  branch_if cond insn pc0 s.

Definition exec_cop0 (insn rt_val : Z) (s : St) : Flow :=
  let cop_op := RS insn in
  if cop_op =? 0x00 then Break (set_load_delay (RT insn) (c0 s (RD insn)) s)
  else if cop_op =? 0x04 then Break (set_c0 (RD insn) rt_val s)
  else if cop_op =? 0x10 then
    if Z.land insn 0x3F =? 0x10 then
      let sr := c0 s 12 in
      Break (set_c0 12 (Z.lor (Z.land sr 0xFFFFFFC0) (Z.land (Z.shiftr sr 2) 0x0F)) s)
    else Break s
  else Break s.

Definition exec_cop2 (insn rt_val : Z) (s : St) : Flow :=
  let cop_op := RS insn in
  if cop_op =? 0x00 then
    let '(v, s) := cop2_data (RD insn) s in Break (set_load_delay (RT insn) v s)
  else if cop_op =? 0x02 then
    let '(v, s) := cop2_ctrl (RD insn) s in Break (set_load_delay (RT insn) v s)
  else if cop_op =? 0x04 then Break (s <| world := gte_write_data (RD insn) rt_val (world s) |>)
  else if cop_op =? 0x06 then Break (s <| world := gte_write_ctrl (RD insn) rt_val (world s) |>)
  else if has cop_op 0x10 then
    Break (s <| world := gte_execute (Z.land insn 0x1FFFFFF) (world s) |>)
  else Break s.

(** The four byte lanes of the unaligned accesses. *)
Definition lwl_merge (lane cur word : Z) : Z :=
  if lane =? 0 then Z.lor (Z.land cur 0x00FFFFFF) (u32 (Z.shiftl word 24))
  else if lane =? 1 then Z.lor (Z.land cur 0x0000FFFF) (u32 (Z.shiftl word 16))
  else if lane =? 2 then Z.lor (Z.land cur 0x000000FF) (u32 (Z.shiftl word 8))
  else word.

Definition lwr_merge (lane cur word : Z) : Z :=
  if lane =? 0 then word
  else if lane =? 1 then Z.lor (Z.land cur 0xFF000000) (Z.shiftr word 8)
  else if lane =? 2 then Z.lor (Z.land cur 0xFFFF0000) (Z.shiftr word 16)
  else Z.lor (Z.land cur 0xFFFFFF00) (Z.shiftr word 24).

Definition swl_merge (lane cur rt_val : Z) : Z :=
  if lane =? 0 then Z.lor (Z.land cur 0xFFFFFF00) (Z.shiftr rt_val 24)
  else if lane =? 1 then Z.lor (Z.land cur 0xFFFF0000) (Z.shiftr rt_val 16)
  else if lane =? 2 then Z.lor (Z.land cur 0xFF000000) (Z.shiftr rt_val 8)
  else rt_val.

Definition swr_merge (lane cur rt_val : Z) : Z :=
  if lane =? 0 then rt_val
  else if lane =? 1 then Z.lor (Z.land cur 0x000000FF) (u32 (Z.shiftl rt_val 8))
  else if lane =? 2 then Z.lor (Z.land cur 0x0000FFFF) (u32 (Z.shiftl rt_val 16))
  else Z.lor (Z.land cur 0x00FFFFFF) (u32 (Z.shiftl rt_val 24)).

Definition align4 (addr : Z) : Z := Z.ldiff addr 3.

Definition exec_load (op insn rs_val : Z) (s : St) : Flow :=
  let addr := u32 (rs_val + SIMM insn) in
  let rt := RT insn in
  if op =? 0x20 then
    let '(v, s) := bus_byte addr s in Break (set_load_delay rt (u32 (s8 v)) s)
  else if op =? 0x21 then
    let '(v, s) := bus_half addr s in Break (set_load_delay rt (u32 (s16 v)) s)
  else if op =? 0x22 then
    let '(word, s) := bus_word (align4 addr) s in
    Break (set_reg rt (lwl_merge (Z.land addr 3) (reg s rt) word) s)
  else if op =? 0x23 then
    let '(v, s) := bus_word addr s in Break (set_load_delay rt v s)
  else if op =? 0x24 then
    let '(v, s) := bus_byte addr s in Break (set_load_delay rt v s)
  else if op =? 0x25 then
    let '(v, s) := bus_half addr s in Break (set_load_delay rt v s)
  else
    let '(word, s) := bus_word (align4 addr) s in
    Break (set_reg rt (lwr_merge (Z.land addr 3) (reg s rt) word) s).

Definition exec_store (op insn rs_val rt_val : Z) (s : St) : Flow :=
  let addr := u32 (rs_val + SIMM insn) in
  if op =? 0x28 then Break (put_byte addr (Z.land rt_val 0xFF) s)
  else if op =? 0x29 then Break (put_half addr (Z.land rt_val 0xFFFF) s)
  else if op =? 0x2A then
    let '(cur, s) := bus_word (align4 addr) s in
    Break (put_word (align4 addr) (swl_merge (Z.land addr 3) cur rt_val) s)
  else if op =? 0x2B then Break (put_word addr rt_val s)
  else
    let '(cur, s) := bus_word (align4 addr) s in
    Break (put_word (align4 addr) (swr_merge (Z.land addr 3) cur rt_val) s).

(** The [switch (op)] of [exec_one]. *)
Definition exec_switch (insn pc0 rs_val rt_val : Z) (s : St) : Flow :=
  let op := OP insn in
  let set v := Break (set_reg (RT insn) v s) in
  if op =? 0x00 then exec_special insn pc0 rs_val rt_val s
  else if op =? 0x01 then exec_regimm insn pc0 rs_val s
  else if op =? 0x02 then DelaySlot (JTARGET insn pc0) s
  else if op =? 0x03 then DelaySlot (JTARGET insn pc0) (set_reg 31 (u32 (pc0 + 8)) s)
  else if op =? 0x04 then branch_if (rs_val =? rt_val) insn pc0 s
  else if op =? 0x05 then branch_if (negb (rs_val =? rt_val)) insn pc0 s
  else if op =? 0x06 then branch_if (s32 rs_val <=? 0) insn pc0 s
  else if op =? 0x07 then branch_if (0 <? s32 rs_val) insn pc0 s
  else if op =? 0x08 then
    let r := s32 rs_val + SIMM insn in
    if negb (fits_s32 r) then Return (raise_exception 12 false s) else set (u32 r)
  else if op =? 0x09 then set (u32 (rs_val + SIMM insn))
  else if op =? 0x0A then set (b2z (s32 rs_val <? SIMM insn))
  else if op =? 0x0B then set (b2z (rs_val <? u32 (SIMM insn)))
  else if op =? 0x0C then set (Z.land rs_val (IMM16 insn))
  else if op =? 0x0D then set (Z.lor rs_val (IMM16 insn))
  else if op =? 0x0E then set (Z.lxor rs_val (IMM16 insn))
  else if op =? 0x0F then set (Z.shiftl (IMM16 insn) 16)
  else if op =? 0x10 then exec_cop0 insn rt_val s
  else if op =? 0x12 then exec_cop2 insn rt_val s
  else if (0x20 <=? op) && (op <=? 0x26) then exec_load op insn rs_val s
  else if (op =? 0x28) || (op =? 0x29) || (op =? 0x2A) || (op =? 0x2B) || (op =? 0x2E)
  then exec_store op insn rs_val rt_val s
  else if op =? 0x32 then
    let '(v, s) := bus_word (u32 (rs_val + SIMM insn)) s in
    Break (s <| world := gte_write_data (RT insn) v (world s) |>)
  else if op =? 0x3A then
    let '(v, s) := cop2_data (RT insn) s in
    Break (put_word (u32 (rs_val + SIMM insn)) v s)
  else Break s.

(** Fetch, trace, PC advance and pending load, up to the [switch]. *)
Definition exec_fetch (s : St) : Z * St :=
  let pc0 := pc s in
  let '(insn, s) := bus_word pc0 s in
  let s := if negb (s_trace_on s =? 0) then trace_record insn s else s in
  let s := s <| pc := u32 (pc0 + 4) |> in
  (insn, apply_load_delay s).

Fixpoint exec_one (fuel : nat) (s : St) : option St :=
  match fuel with
  | O => None
  | S fuel =>
      let pc0 := pc s in
      if pc0 =? 0 then Some (s <| s_halted := 1 |>) else
      let '(insn, s) := exec_fetch s in
      match exec_switch insn pc0 (reg s (RS insn)) (reg s (RT insn)) s with
      | Break s => Some (s <| gpr := aset (gpr s) 0 0 |>)
      | Return s => Some s
      | DelaySlot target s =>
          match exec_one fuel s with
          | Some s => Some (s <| pc := target |>)
          | None => None
          end
      end
  end.

(** *** Interrupt injection *)

Definition interp_check_interrupts (s : St) : St :=
  let s := s <| world := sio_tick 0 (world s) |> in
  let s := s <| s_vblank_count := u32 (s_vblank_count s + 1) |> in
  let s :=
    if VBLANK_INTERVAL <=? s_vblank_count s then
      s <| s_vblank_count := 0 |>
        <| world := cdrom_tick (timers_tick 33868 (gpu_vblank_tick
                      (irq_raise IRQ_VBLANK (world s)))) |>
    else s in
  if Z.land (i_stat (world s)) (i_mask (world s)) =? 0 then s else
  let sr := c0 s COP0_SR in
  if negb (has sr 0x01) then s else
  if negb (has sr (Z.shiftl 1 10)) then s else
  let s := set_c0 COP0_CAUSE (Z.lor (Z.ldiff (c0 s COP0_CAUSE) 0x7C) (Z.shiftl 0 2)) s in
  let s := set_c0 COP0_CAUSE (Z.lor (c0 s COP0_CAUSE) (Z.shiftl 1 10)) s in
  let s := set_c0 COP0_SR (Z.lor (Z.ldiff sr 0x3F) (Z.shiftl (Z.land sr 0x0F) 2)) s in
  let s := set_c0 COP0_EPC (pc s) s in
  s <| pc := if negb (Z.land sr 0x00400000 =? 0) then 0xBFC00180 else 0x80000080 |>.

(** *** Step and run *)

(** Does the PC sit on one of the active breakpoints? *)
Definition at_breakpoint (s : St) : bool :=
  existsb (fun b => pc s =? b) (take (Z.to_nat (s_bp_count s)) (s_bp s)).

(** The loop of [interp_step]: [n] rounds left, [executed] so far; the depth
    of a branch chain is bounded by [fuel]. *)
Fixpoint step_loop (fuel n : nat) (executed : Z) (s : St) : option (Z * St) :=
  match n with
  | O => Some (executed, s)
  | S n =>
      if at_breakpoint s then Some (executed, s <| s_hit_bp := 1 |>) else
      match exec_one fuel s with
      | None => None
      | Some s =>
          let executed := u32 (executed + 1) in
          if negb (s_halted s =? 0) then Some (executed, s) else
          let s := if Z.land executed 0xF =? 0 then interp_check_interrupts s else s in
          step_loop fuel n executed s
      end
  end.

Definition interp_step (fuel : nat) (count : Z) (s : St) : option (Z * St) :=
  step_loop fuel (Z.to_nat count) 0 (s <| s_hit_bp := 0 |>).

Definition interp_run (fuel : nat) (max_instructions : Z) (s : St) : option (Z * St) :=
  interp_step fuel max_instructions s.

(** ** Invariant *)

Record wf (s : St) : Prop := {
  wf_gpr : length (gpr s) = 32%nat /\ Forall is_u32 (gpr s);
  wf_zero : reg s 0 = 0;
  wf_cop0 : length (cop0 s) = 32%nat /\ Forall is_u32 (cop0 s);
  wf_pc : is_u32 (pc s);
  wf_hilo : is_u32 (hi s) /\ is_u32 (lo s);
  wf_load : 0 <= s_load_reg s < 32 /\ is_u32 (s_load_val s);
  wf_bp : 0 <= s_bp_count s <= MAX_BREAKPOINTS /\ length (s_bp s) = 64%nat;
}.

Lemma field5_range x : 0 <= Z.land x 0x1F < 32.
Proof. rewrite land_1f. dlia. Qed.
Lemma RS_range i : 0 <= RS i < 32.
Proof. apply field5_range. Qed.
Lemma RT_range i : 0 <= RT i < 32.
Proof. apply field5_range. Qed.
Lemma RD_range i : 0 <= RD i < 32.
Proof. apply field5_range. Qed.
Lemma SA_range i : 0 <= SA i < 32.
Proof. apply field5_range. Qed.

Hint Resolve RS_range RT_range RD_range SA_range : words.

Lemma u32_is_u32 x : is_u32 (u32 x).
Proof. apply u32_range. Qed.

Lemma shiftr_u32 x n : 0 <= n -> is_u32 x -> is_u32 (Z.shiftr x n).
Proof.
  unfold is_u32. intros Hn Hx. rewrite Z.shiftr_div_pow2 by lia.
  assert (0 < 2 ^ n) by (apply Z.pow_pos_nonneg; lia).
  split; [apply Z.div_pos; lia|]. apply Z.div_lt_upper_bound; nia.
Qed.
Lemma land_u32_l x y : is_u32 x -> is_u32 (Z.land x y).
Proof. apply (land_range_l 32). lia. Qed.
Lemma land_u32_r x y : is_u32 y -> is_u32 (Z.land x y).
Proof. apply (land_range_r 32). lia. Qed.
Lemma lor_u32 x y : is_u32 x -> is_u32 y -> is_u32 (Z.lor x y).
Proof. apply (lor_range 32). lia. Qed.
Lemma lxor_u32 x y : is_u32 x -> is_u32 y -> is_u32 (Z.lxor x y).
Proof. apply (lxor_range 32). lia. Qed.
Lemma ldiff_u32 x y : is_u32 x -> is_u32 (Z.ldiff x y).
Proof. apply (ldiff_range 32). lia. Qed.
Lemma b2z_u32 b : is_u32 (b2z b).
Proof. unfold is_u32. destruct b; cbn; lia. Qed.
Lemma is_u32_u16 x : is_u16 x -> is_u32 x.
Proof. unfold is_u16, is_u32. lia. Qed.
Lemma is_u32_u8 x : is_u8 x -> is_u32 x.
Proof. unfold is_u8, is_u32. lia. Qed.
Lemma div_u32 x y : is_u32 x -> is_u32 y -> y <> 0 -> is_u32 (x / y).
Proof. unfold is_u32. intros. split; [apply Z.div_pos; lia|apply Z.div_lt_upper_bound; nia]. Qed.
Lemma mod_u32 x y : is_u32 x -> is_u32 y -> y <> 0 -> is_u32 (x mod y).
Proof. unfold is_u32. intros. pose proof (Z.mod_pos_bound x y ltac:(lia)). lia. Qed.
Lemma imm16_shift_u32 i : is_u32 (Z.shiftl (IMM16 i) 16).
Proof.
  unfold is_u32, IMM16. rewrite land_ffff, Z.shiftl_mul_pow2 by lia. change (2 ^ 16) with 65536. dlia.
Qed.
Lemma imm16_u32 i : is_u32 (IMM16 i).
Proof. apply land_u32_r. unfold is_u32. lia. Qed.

Hint Resolve u32_is_u32 land_u32_l lor_u32 lxor_u32 ldiff_u32 b2z_u32 imm16_shift_u32
  imm16_u32 : words.

Lemma reg_u32 s r : wf s -> is_u32 (reg s r).
Proof. intros H. unfold reg. apply aget_Forall; [unfold is_u32; lia|apply (wf_gpr _ H)]. Qed.
Lemma c0_u32 s r : wf s -> is_u32 (c0 s r).
Proof. intros H. unfold c0. apply aget_Forall; [unfold is_u32; lia|apply (wf_cop0 _ H)]. Qed.

Lemma set_reg_wf r v s : 0 <= r < 32 -> is_u32 v -> wf s -> wf (set_reg r v s).
Proof.
  intros Hr Hv H. unfold set_reg. destruct (Z.eqb_spec r 0); cbn [negb]; [done|].
  destruct H as [[Hl Hf] Hz H3 H4 H5 H6 H7]. constructor; cbn; try assumption.
  - rewrite length_aset. split; [done|by apply aset_Forall].
  - unfold reg in *. cbn. by rewrite aget_aset_ne by lia.
Qed.

Lemma set_c0_wf r v s : is_u32 v -> wf s -> wf (set_c0 r v s).
Proof.
  intros Hv [H1 H2 [Hl Hf] H4 H5 H6 H7]. constructor; cbn; try assumption.
  rewrite length_aset. split; [done|by apply aset_Forall].
Qed.

Lemma set_load_delay_wf r v s : 0 <= r < 32 -> is_u32 v -> wf s -> wf (set_load_delay r v s).
Proof. intros Hr Hv []. by constructor. Qed.

Lemma set_pc_wf v s : is_u32 v -> wf s -> wf (s <| pc := v |>).
Proof. intros Hv []. by constructor. Qed.
Lemma set_world_wf w s : wf s -> wf (s <| world := w |>).
Proof. intros []. by constructor. Qed.
Lemma set_hilo_wf l h s : is_u32 l -> is_u32 h -> wf s -> wf (s <| lo := l |> <| hi := h |>).
Proof. intros Hl Hh []. by constructor. Qed.
Lemma set_hi_wf h s : is_u32 h -> wf s -> wf (s <| hi := h |>).
Proof. intros Hh [? ? ? ? [? ?] ? ?]. by constructor. Qed.
Lemma set_lo_wf h s : is_u32 h -> wf s -> wf (s <| lo := h |>).
Proof. intros Hh [? ? ? ? [? ?] ? ?]. by constructor. Qed.

Lemma exc_vector_u32 b : is_u32 (if b : bool then 0xBFC00180 else 0x80000080).
Proof. unfold is_u32. destruct b; lia. Qed.

Lemma sr_push_u32 sr : is_u32 sr -> is_u32 (Z.lor (Z.ldiff sr 0x3F) (Z.shiftl (Z.land sr 0x0F) 2)).
Proof.
  intros H. apply lor_u32; [by apply ldiff_u32|]. unfold is_u32.
  rewrite land_0f, Z.shiftl_mul_pow2 by lia. change (2 ^ 2) with 4. dlia.
Qed.

Lemma raise_exception_wf code d s : wf s -> wf (raise_exception code d s).
Proof.
  intros H. unfold raise_exception. cbv zeta.
  pose proof (sr_push_u32 _ (c0_u32 s 12 H)) as Hsr.
  pose proof (set_c0_wf 12 _ s Hsr H) as H1. set (s1 := set_c0 12 _ s) in *.
  assert (wf (set_c0 13 (Z.lor (Z.ldiff (c0 s1 13) 0x7C) (u32 (Z.shiftl code 2))) s1)) as H2.
  { apply set_c0_wf; [|done]. apply lor_u32; [|apply u32_is_u32]. by apply ldiff_u32, c0_u32. }
  set (s2 := set_c0 13 _ s1) in *.
  set (s3 := if d then set_c0 13 _ s2 else _).
  assert (wf s3) as H3.
  { unfold s3. destruct d; (apply set_c0_wf; [|done]).
    - apply lor_u32; [by apply c0_u32|unfold is_u32; done].
    - by apply ldiff_u32, c0_u32. }
  apply set_pc_wf; [apply exc_vector_u32|]. apply set_c0_wf; [|done].
  destruct d; [apply u32_is_u32|apply H3].
Qed.

Lemma apply_load_delay_wf s : wf s -> wf (apply_load_delay s) /\ s_load_reg (apply_load_delay s) = 0.
Proof.
  intros H. unfold apply_load_delay. destruct (Z.eqb_spec (s_load_reg s) 0) as [E|E]; cbn [negb]; [done|].
  split; [|done]. destruct H as [[Hl Hf] Hz H3 H4 H5 [H6 H6'] H7].
  constructor; cbn; try assumption.
  - rewrite length_aset. split; [done|by apply aset_Forall].
  - unfold reg in *. cbn. by rewrite aget_aset_ne by lia.
  - split; [lia|done].
Qed.

Lemma trace_record_wf insn s : wf s -> wf (trace_record insn s).
Proof. intros []. by constructor. Qed.

(** A property of the state a [Flow] carries. *)
Definition flow_state (P : St -> Prop) (f : Flow) : Prop :=
  match f with
  | Break s => P s
  | Return s => P s
  | DelaySlot target s => is_u32 target /\ P s
  end.

(** Split the [if] chain of a handler; [u32_tac] closes range goals. *)
Ltac u32_tac :=
  first [ assumption | apply u32_is_u32 | apply b2z_u32 | apply imm16_shift_u32
        | apply shiftr_u32; [first [apply SA_range | apply field5_range | lia]|u32_tac]
        | apply lor_u32; u32_tac | apply lxor_u32; u32_tac | apply land_u32_l; u32_tac
        | apply imm16_u32 | by unfold is_u32 ].

Ltac flow_tac :=
  repeat match goal with
  | |- flow_state _ (if _ then _ else _) => case_if
  | |- flow_state _ (Break (set_reg _ _ _)) =>
      apply set_reg_wf; [first [apply RD_range | apply RT_range]|u32_tac|assumption]
  | |- flow_state _ (Return (raise_exception _ _ _)) => by apply raise_exception_wf
  end.

Lemma exec_special_wf insn pc0 a b s :
  is_u32 a -> is_u32 b -> wf s -> flow_state wf (exec_special insn pc0 a b s).
Proof.
  intros Ha Hb H. unfold exec_special. cbv zeta.
  assert (is_u32 (hi s) /\ is_u32 (lo s)) as [Hh Hl] by apply H.
  flow_tac; cbn [flow_state].
  - done.
  - split; [done|]. apply set_reg_wf; [apply RD_range|u32_tac|done].
  - by apply set_hi_wf.
  - by apply set_lo_wf.
  - apply set_hilo_wf; [u32_tac|u32_tac|done].
  - apply set_hilo_wf; [u32_tac|u32_tac|done].
  - apply set_hilo_wf; [case_if; u32_tac|u32_tac|done].
  - apply set_hilo_wf; [u32_tac|u32_tac|done].
  - apply set_hilo_wf; [u32_tac|u32_tac|done].
  - apply set_hilo_wf; [u32_tac|u32_tac|done].
  - match goal with E : (b =? 0) = false |- _ => apply Z.eqb_neq in E end.
    apply set_hilo_wf; [by apply div_u32|by apply mod_u32|done].
  - done.
Qed.

Lemma branch_if_wf c insn pc0 s : wf s -> flow_state wf (branch_if c insn pc0 s).
Proof. intros H. unfold branch_if. destruct c; cbn; [split; [apply u32_is_u32|done]|done]. Qed.

Lemma exec_regimm_wf insn pc0 a s : wf s -> flow_state wf (exec_regimm insn pc0 a s).
Proof.
  intros H. unfold exec_regimm. apply branch_if_wf. case_if; [|done].
  apply set_reg_wf; [lia|u32_tac|done].
Qed.

Lemma exec_cop0_wf insn b s : is_u32 b -> wf s -> flow_state wf (exec_cop0 insn b s).
Proof.
  intros Hb H. unfold exec_cop0. cbv zeta.
  repeat case_if; cbn [flow_state]; try done.
  - apply set_load_delay_wf; [apply RT_range|by apply c0_u32|done].
  - by apply set_c0_wf.
  - apply set_c0_wf; [|done]. pose proof (c0_u32 s 12 H).
    apply lor_u32; [by apply land_u32_l|]. apply land_u32_l. apply shiftr_u32; [lia|done].
Qed.

Context {MOk : MachineOk W}.

Lemma bus_word_wf a s : wf s -> is_u32 (fst (bus_word a s)) /\ wf (snd (bus_word a s)).
Proof.
  intros H. unfold bus_word. pose proof (read_word_u32 a (world s)) as Hr.
  destruct (read_word a (world s)) as [v w]. split; [exact Hr|by apply set_world_wf].
Qed.
Lemma bus_half_wf a s : wf s -> is_u32 (fst (bus_half a s)) /\ wf (snd (bus_half a s)).
Proof.
  intros H. unfold bus_half. pose proof (read_half_u16 a (world s)) as Hr.
  destruct (read_half a (world s)) as [v w]. split; [by apply is_u32_u16|by apply set_world_wf].
Qed.
Lemma bus_byte_wf a s : wf s -> is_u32 (fst (bus_byte a s)) /\ wf (snd (bus_byte a s)).
Proof.
  intros H. unfold bus_byte. pose proof (read_byte_u8 a (world s)) as Hr.
  destruct (read_byte a (world s)) as [v w]. split; [by apply is_u32_u8|by apply set_world_wf].
Qed.
Lemma cop2_data_wf r s : wf s -> is_u32 (fst (cop2_data r s)) /\ wf (snd (cop2_data r s)).
Proof.
  intros H. unfold cop2_data. pose proof (gte_read_data_u32 r (world s)) as Hr.
  destruct (gte_read_data r (world s)) as [v w]. split; [exact Hr|by apply set_world_wf].
Qed.
Lemma cop2_ctrl_wf r s : wf s -> is_u32 (fst (cop2_ctrl r s)) /\ wf (snd (cop2_ctrl r s)).
Proof.
  intros H. unfold cop2_ctrl. pose proof (gte_read_ctrl_u32 r (world s)) as Hr.
  destruct (gte_read_ctrl r (world s)) as [v w]. split; [exact Hr|by apply set_world_wf].
Qed.

(** Run the bus access of a handler, keeping its range and [wf]. *)
Ltac bus lem :=
  match goal with
  | H : wf ?x |- context [let '(_, _) := ?f ?a ?x in _] =>
      pose proof (lem a x H) as [? ?]; destruct (f a x) as [? ?]; cbn [fst snd] in *
  end.

Lemma exec_cop2_wf insn b s : wf s -> flow_state wf (exec_cop2 insn b s).
Proof.
  intros H. unfold exec_cop2. cbv zeta.
  case_if; [bus cop2_data_wf; apply set_load_delay_wf; [apply RT_range|done|done]|].
  case_if; [bus cop2_ctrl_wf; apply set_load_delay_wf; [apply RT_range|done|done]|].
  repeat case_if; cbn [flow_state]; try (by apply set_world_wf).
Qed.

Lemma lwl_merge_u32 lane cur word : is_u32 cur -> is_u32 word -> is_u32 (lwl_merge lane cur word).
Proof. intros. unfold lwl_merge. repeat case_if; u32_tac. Qed.
Lemma lwr_merge_u32 lane cur word : is_u32 cur -> is_u32 word -> is_u32 (lwr_merge lane cur word).
Proof. intros. unfold lwr_merge. repeat case_if; u32_tac. Qed.

Lemma exec_load_wf op insn a s : wf s -> flow_state wf (exec_load op insn a s).
Proof.
  intros H. unfold exec_load. cbv zeta.
  case_if; [bus bus_byte_wf; apply set_load_delay_wf; [apply RT_range|u32_tac|done]|].
  case_if; [bus bus_half_wf; apply set_load_delay_wf; [apply RT_range|u32_tac|done]|].
  case_if; [bus bus_word_wf; apply set_reg_wf; [apply RT_range|apply lwl_merge_u32; [by apply reg_u32|done]|done]|].
  case_if; [bus bus_word_wf; apply set_load_delay_wf; [apply RT_range|done|done]|].
  case_if; [bus bus_byte_wf; apply set_load_delay_wf; [apply RT_range|done|done]|].
  case_if; [bus bus_half_wf; apply set_load_delay_wf; [apply RT_range|done|done]|].
  bus bus_word_wf; apply set_reg_wf; [apply RT_range|apply lwr_merge_u32; [by apply reg_u32|done]|done].
Qed.

Lemma exec_store_wf op insn a b s : wf s -> flow_state wf (exec_store op insn a b s).
Proof.
  intros H. unfold exec_store. cbv zeta.
  case_if; [by apply set_world_wf|]. case_if; [by apply set_world_wf|].
  case_if; [bus bus_word_wf; by apply set_world_wf|]. case_if; [by apply set_world_wf|].
  bus bus_word_wf; by apply set_world_wf.
Qed.

Lemma jtarget_u32 insn pc0 : is_u32 (JTARGET insn pc0).
Proof.
  apply lor_u32; [apply land_u32_l, u32_is_u32|]. unfold is_u32.
  assert (0 <= Z.land insn 0x03FFFFFF < 2 ^ 26) by (apply land_range_r; lia).
  rewrite Z.shiftl_mul_pow2 by lia. change (2 ^ 2) with 4. change (2 ^ 26) with 67108864 in *. lia.
Qed.

Lemma exec_switch_wf insn pc0 a b s :
  is_u32 a -> is_u32 b -> wf s -> flow_state wf (exec_switch insn pc0 a b s).
Proof.
  intros Ha Hb H. unfold exec_switch. cbv zeta.
  flow_tac; lazymatch goal with
  | |- flow_state _ (branch_if _ _ _ _) => by apply branch_if_wf
  | |- flow_state _ (Break ?x) => exact H
  | _ => idtac
  end.
  - by apply exec_special_wf.
  - by apply exec_regimm_wf.
  - split; [apply jtarget_u32|done].
  - split; [apply jtarget_u32|]. apply set_reg_wf; [lia|u32_tac|done].
  - by apply exec_cop0_wf.
  - by apply exec_cop2_wf.
  - by apply exec_load_wf.
  - by apply exec_store_wf.
  - bus bus_word_wf. by apply set_world_wf.
  - bus cop2_data_wf. by apply set_world_wf.
Qed.

Lemma exec_fetch_wf s : wf s -> wf (snd (exec_fetch s)).
Proof.
  intros H. unfold exec_fetch. cbv zeta. bus bus_word_wf. cbn [snd].
  apply apply_load_delay_wf, set_pc_wf; [u32_tac|]. case_if; [by apply trace_record_wf|done].
Qed.

Lemma exec_one_wf fuel : forall s s', wf s -> exec_one fuel s = Some s' -> wf s'.
Proof.
  induction fuel as [|fuel IH]; intros s s' H; cbn [exec_one]; [done|].
  case_if; [intros E'; injection E' as <-; destruct H; by constructor|].
  pose proof (exec_fetch_wf s H) as Hf. destruct (exec_fetch s) as [insn s1]. cbn [snd] in Hf.
  pose proof (exec_switch_wf insn (pc s) (reg s1 (RS insn)) (reg s1 (RT insn)) s1
    (reg_u32 _ _ Hf) (reg_u32 _ _ Hf) Hf) as Hs.
  destruct (exec_switch _ _ _ _ s1) as [s2|s2|target s2]; cbn [flow_state] in Hs.
  - intros E'. injection E' as <-. destruct Hs as [[Hl Hg] Hz H3 H4 H5 H6 H7].
    constructor; cbn; try assumption.
    + rewrite length_aset. split; [done|]. apply aset_Forall; [unfold is_u32; lia|done].
    + unfold reg. cbn. apply aget_aset_eq. lia.
  - intros E'. by injection E' as <-.
  - destruct Hs as [Ht Hs]. destruct (exec_one fuel s2) as [s3|] eqn:E3; [|done].
    intros E'. injection E' as <-. apply set_pc_wf; [done|]. by eapply IH.
Qed.

Lemma interp_check_interrupts_wf s : wf s -> wf (interp_check_interrupts s).
Proof.
  intros H. unfold interp_check_interrupts. cbv zeta.
  set (s1 := s <| world := _ |> <| s_vblank_count := _ |>).
  assert (wf s1) as H1 by (destruct H; by constructor).
  set (s2 := if _ <=? s_vblank_count s1 then _ else s1).
  assert (wf s2) as H2 by (unfold s2; case_if; [destruct H1; by constructor|done]).
  repeat (case_if; [done|]).
  pose proof (c0_u32 s2 COP0_SR H2) as Hsr.
  apply set_pc_wf; [apply exc_vector_u32|].
  apply set_c0_wf; [apply H2|]. apply set_c0_wf; [by apply sr_push_u32|].
  assert (wf (set_c0 COP0_CAUSE (Z.lor (Z.ldiff (c0 s2 COP0_CAUSE) 0x7C) (Z.shiftl 0 2)) s2)) as H3.
  { apply set_c0_wf; [|done]. apply lor_u32; [by apply ldiff_u32, c0_u32|unfold is_u32; done]. }
  apply set_c0_wf; [|done]. apply lor_u32; [by apply c0_u32|unfold is_u32; done].
Qed.

Lemma step_loop_wf fuel n : forall e s k s',
  wf s -> step_loop fuel n e s = Some (k, s') -> wf s'.
Proof.
  induction n as [|n IH]; intros e s k s' H; cbn [step_loop].
  - intros E. by injection E as _ <-.
  - case_if; [intros E'; injection E' as _ <-; destruct H; by constructor|].
    destruct (exec_one fuel s) as [s1|] eqn:E1; [|done].
    pose proof (exec_one_wf _ _ _ H E1) as H1. cbv zeta.
    case_if; [intros E'; by injection E' as _ <-|].
    apply IH. case_if; [by apply interp_check_interrupts_wf|done].
Qed.

End Interpreter.

(** ** Unaligned accesses over byte memory *)

(** A machine whose word accesses are four byte cells, little-endian. *)
Class RamMachine (W : Type) {M : Machine W} := {
  ram : W -> Z -> Z;
  ram_u8 w a : is_u8 (ram w a);
  ram_read_word a w : a mod 4 = 0 ->
    read_word a w = (ram w a + 0x100 * ram w (a + 1) + 0x10000 * ram w (a + 2)
                     + 0x1000000 * ram w (a + 3), w);
  ram_write_word a v w x : a mod 4 = 0 -> is_u32 v ->
    ram (write_word a v w) x =
      if (a <=? x) && (x <? a + 4) then v / 2 ^ (8 * (x - a)) mod 0x100 else ram w x;
}.

(** The little-endian word at any address, wrapping at 4 GB. *)
Definition unaligned (m : Z -> Z) (x : Z) : Z :=
  m x + 0x100 * m (u32 (x + 1)) + 0x10000 * m (u32 (x + 2)) + 0x1000000 * m (u32 (x + 3)).

Lemma align4_eq x : align4 x = x - x mod 4.
Proof.
  unfold align4. change 3 with (Z.ones 2). rewrite Z.ldiff_ones_r by lia.
  rewrite Z.shiftl_mul_pow2, Z.shiftr_div_pow2 by lia. change (2 ^ 2) with 4. dlia.
Qed.

Ltac mask_arith :=
  repeat match goal with
  | |- context [Z.land ?c 0x00FFFFFF] => change (Z.land c 0x00FFFFFF) with (Z.land c (Z.ones 24)); rewrite (Z.land_ones c 24) by lia
  | |- context [Z.land ?c 0x0000FFFF] => change (Z.land c 0x0000FFFF) with (Z.land c (Z.ones 16)); rewrite (Z.land_ones c 16) by lia
  | |- context [Z.land ?c 0x000000FF] => change (Z.land c 0x000000FF) with (Z.land c (Z.ones 8)); rewrite (Z.land_ones c 8) by lia
  | |- context [Z.land ?c 0xFF000000] => change (Z.land c 0xFF000000) with (Z.land c (2 ^ 32 - 2 ^ 24)); rewrite (land_high 32 24 c) by (unfold is_u32 in *; lia)
  | |- context [Z.land ?c 0xFFFF0000] => change (Z.land c 0xFFFF0000) with (Z.land c (2 ^ 32 - 2 ^ 16)); rewrite (land_high 32 16 c) by (unfold is_u32 in *; lia)
  | |- context [Z.land ?c 0xFFFFFF00] => change (Z.land c 0xFFFFFF00) with (Z.land c (2 ^ 32 - 2 ^ 8)); rewrite (land_high 32 8 c) by (unfold is_u32 in *; lia)
  end;
  rewrite ?Z.shiftr_div_pow2, ?Z.shiftl_mul_pow2 by lia.

(** The four lanes of each merge, as arithmetic. *)
Lemma lwr_merge_eq lane cur word :
  0 <= lane < 4 -> is_u32 cur -> is_u32 word ->
  lwr_merge lane cur word =
    cur / 2 ^ (32 - 8 * lane) * 2 ^ (32 - 8 * lane) + word / 2 ^ (8 * lane).
Proof.
  intros Hl Hc Hw. unfold lwr_merge, is_u32 in *.
  assert (lane = 0 \/ lane = 1 \/ lane = 2 \/ lane = 3) as [-> | [-> | [-> | ->]]] by lia;
    cbv iota beta delta [Z.eqb Pos.eqb]; mask_arith.
  - change (32 - 8 * 0) with 32. change (8 * 0) with 0. change (2 ^ 32) with 0x100000000.
    change (2 ^ 0) with 1. dlia.
  - rewrite lor_add; [done|lia|]. change (2 ^ 24) with 0x1000000. change (2 ^ 8) with 0x100. dlia.
  - rewrite lor_add; [done|lia|]. change (2 ^ 16) with 0x10000. dlia.
  - rewrite lor_add; [done|lia|]. change (2 ^ 24) with 0x1000000. change (2 ^ 8) with 0x100. dlia.
Qed.

Lemma lwl_merge_eq lane cur word :
  0 <= lane < 4 -> is_u32 cur -> is_u32 word ->
  lwl_merge lane cur word =
    cur mod 2 ^ (24 - 8 * lane) + word mod 2 ^ (8 * lane + 8) * 2 ^ (24 - 8 * lane).
Proof.
  intros Hl Hc Hw. unfold lwl_merge, is_u32 in *.
  assert (lane = 0 \/ lane = 1 \/ lane = 2 \/ lane = 3) as [-> | [-> | [-> | ->]]] by lia;
    cbv iota beta delta [Z.eqb Pos.eqb]; mask_arith.
  - replace (u32 (word * 2 ^ 24)) with (word mod 2 ^ 8 * 2 ^ 24)
      by (unfold u32; change (2 ^ 24) with 0x1000000; change (2 ^ 8) with 0x100; dlia).
    rewrite Z.lor_comm, lor_add; [|lia|change (2 ^ 24) with 0x1000000; dlia].
    change (24 - 8 * 0) with 24. change (8 * 0 + 8) with 8. lia.
  - replace (u32 (word * 2 ^ 16)) with (word mod 2 ^ 16 * 2 ^ 16)
      by (unfold u32; change (2 ^ 16) with 0x10000; dlia).
    rewrite Z.lor_comm, lor_add; [|lia|change (2 ^ 16) with 0x10000; dlia].
    change (24 - 8 * 1) with 16. change (8 * 1 + 8) with 16. lia.
  - replace (u32 (word * 2 ^ 8)) with (word mod 2 ^ 24 * 2 ^ 8)
      by (unfold u32; change (2 ^ 24) with 0x1000000; change (2 ^ 8) with 0x100; dlia).
    rewrite Z.lor_comm, lor_add; [|lia|change (2 ^ 8) with 0x100; dlia].
    change (24 - 8 * 2) with 8. change (8 * 2 + 8) with 24. lia.
  - change (24 - 8 * 3) with 0. change (8 * 3 + 8) with 32. change (2 ^ 0) with 1.
    change (2 ^ 32) with 0x100000000. dlia.
Qed.

Section Unaligned.
Context {W : Type} {M : Machine W} {R : RamMachine W}.

Lemma bus_word_ram a (s : State W) :
  a mod 4 = 0 ->
  bus_word a s = (ram (world s) a + 0x100 * ram (world s) (a + 1) + 0x10000 * ram (world s) (a + 2)
                  + 0x1000000 * ram (world s) (a + 3), s).
Proof. intros Ha. unfold bus_word. rewrite ram_read_word by done. done. Qed.

Definition word_at (m : Z -> Z) (y : Z) : Z :=
  m y + 0x100 * m (y + 1) + 0x10000 * m (y + 2) + 0x1000000 * m (y + 3).

Lemma word_at_u32 (w : W) y : is_u32 (word_at (ram w) y).
Proof.
  unfold word_at, is_u32.
  pose proof (ram_u8 w y). pose proof (ram_u8 w (y + 1)).
  pose proof (ram_u8 w (y + 2)). pose proof (ram_u8 w (y + 3)). unfold is_u8 in *. lia.
Qed.

(** Where an unaligned word sits: [l] bytes into the aligned word at [y], the
    rest at the start of the next aligned word. *)
Lemma split_address x :
  is_u32 x -> let l := x mod 4 in let y := x - l in let y' := u32 (y + 4) in
  0 <= l < 4 /\ y mod 4 = 0 /\ y' mod 4 = 0 /\ align4 x = y /\
  align4 (u32 (x + 3)) = (if l =? 0 then y else y') /\
  u32 (x + 3) mod 4 = (if l =? 0 then 3 else l - 1) /\
  (forall i, 0 <= i < 4 -> u32 (x + i) = if l + i <? 4 then y + l + i else y' + (l + i - 4)).
Proof.
  intros Hx. cbv zeta. unfold is_u32, u32 in *. rewrite !align4_eq.
  repeat split; try dlia.
  - destruct (Z.eqb_spec (x mod 4) 0); dlia.
  - destruct (Z.eqb_spec (x mod 4) 0); dlia.
  - intros i Hi. destruct (Z.ltb_spec (x mod 4 + i) 4); dlia.
Qed.

Ltac bool_const :=
  repeat match goal with
  | |- context [if ?c then _ else _] => let b := eval vm_compute in c in change c with b; cbv iota
  end.
Ltac pow_const :=
  repeat match goal with
  | |- context [2 ^ ?e] => let n := eval vm_compute in (2 ^ e) in change (2 ^ e) with n
  end.
Ltac cells Hb :=
  repeat match goal with
  | |- context [ram ?w (?y + ?a + ?b)] =>
      let n := eval vm_compute in (a + b) in replace (y + a + b) with (y + n) by lia
  | |- context [ram ?w (?y + (?a + ?b - 4))] =>
      let n := eval vm_compute in (a + b - 4) in change (a + b - 4) with n
  | |- context [ram ?w (?y + 0)] => rewrite (Z.add_0_r y)
  end;
  repeat match goal with
  | |- context [ram ?w ?z] => pose proof (Hb z); generalize dependent (ram w z); intros
  end.

Lemma lwr_lwl_word (w : W) x cur :
  is_u32 x -> is_u32 cur ->
  lwl_merge (u32 (x + 3) mod 4)
    (lwr_merge (x mod 4) cur (word_at (ram w) (align4 x)))
    (word_at (ram w) (align4 (u32 (x + 3)))) = unaligned (ram w) x.
Proof.
  intros Hx Hc. destruct (split_address x Hx) as (Hl & Hy & Hy' & Ea & Ea' & El' & Ei).
  set (l := x mod 4) in *. set (y := x - l) in *. set (y' := u32 (y + 4)) in *.
  pose proof (word_at_u32 w (align4 x)) as Hw1. pose proof (word_at_u32 w (align4 (u32 (x + 3)))) as Hw2.
  assert (is_u32 (lwr_merge l cur (word_at (ram w) (align4 x)))) as Hm by (by apply lwr_merge_u32).
  rewrite lwl_merge_eq; [|rewrite El'; case_if; lia|done|done].
  rewrite (lwr_merge_eq l cur) by done. rewrite Ea, Ea', El' in *.
  unfold unaligned. pose proof (Ei 0 ltac:(lia)) as E0. rewrite Z.add_0_r in E0.
  rewrite u32_id in E0 by (unfold is_u32 in Hx; lia).
  rewrite E0 at 1. rewrite (Ei 1), (Ei 2), (Ei 3) by lia. clear E0 Ei Ea Ea' El' Hm.
  assert (forall z, is_u8 (ram w z)) as Hb by (intros; apply ram_u8).
  unfold word_at, is_u8, is_u32 in *.
  assert (l = 0 \/ l = 1 \/ l = 2 \/ l = 3) as [E | [E | [E | E]]] by lia;
    rewrite E; pow_const; bool_const; cells Hb; clear Hl Hy Hy' Hw1 Hw2 Hx E; clearbody y' y l; clear y y' l; dlia.
Qed.

Lemma swr_merge_eq lane cur v :
  0 <= lane < 4 -> is_u32 cur -> is_u32 v ->
  swr_merge lane cur v = v mod 2 ^ (32 - 8 * lane) * 2 ^ (8 * lane) + cur mod 2 ^ (8 * lane).
Proof.
  intros Hl Hc Hv. unfold swr_merge, is_u32 in *.
  assert (lane = 0 \/ lane = 1 \/ lane = 2 \/ lane = 3) as [-> | [-> | [-> | ->]]] by lia;
    cbv iota beta delta [Z.eqb Pos.eqb]; mask_arith; unfold u32.
  - pow_const. dlia.
  - replace (v * 2 ^ 8 mod 0x100000000) with (v mod 2 ^ 24 * 2 ^ 8) by (pow_const; dlia).
    rewrite Z.lor_comm, lor_add; [pow_const; lia|lia|pow_const; dlia].
  - replace (v * 2 ^ 16 mod 0x100000000) with (v mod 2 ^ 16 * 2 ^ 16) by (pow_const; dlia).
    rewrite Z.lor_comm, lor_add; [pow_const; lia|lia|pow_const; dlia].
  - replace (v * 2 ^ 24 mod 0x100000000) with (v mod 2 ^ 8 * 2 ^ 24) by (pow_const; dlia).
    rewrite Z.lor_comm, lor_add; [pow_const; lia|lia|pow_const; dlia].
Qed.

Lemma swl_merge_eq lane cur v :
  0 <= lane < 4 -> is_u32 cur -> is_u32 v ->
  swl_merge lane cur v = cur / 2 ^ (8 * lane + 8) * 2 ^ (8 * lane + 8) + v / 2 ^ (24 - 8 * lane).
Proof.
  intros Hl Hc Hv. unfold swl_merge, is_u32 in *.
  assert (lane = 0 \/ lane = 1 \/ lane = 2 \/ lane = 3) as [-> | [-> | [-> | ->]]] by lia;
    cbv iota beta delta [Z.eqb Pos.eqb]; mask_arith.
  - rewrite lor_add; [done|lia|pow_const; dlia].
  - rewrite lor_add; [done|lia|pow_const; dlia].
  - rewrite lor_add; [done|lia|pow_const; dlia].
  - pow_const. dlia.
Qed.

(** Byte [j] of a word. *)
Definition byte (v j : Z) : Z := v / 2 ^ (8 * j) mod 0x100.

Ltac four x := assert (x = 0 \/ x = 1 \/ x = 2 \/ x = 3) as [-> | [-> | [-> | ->]]] by lia.

Lemma swr_byte l j cur v :
  0 <= l < 4 -> 0 <= j < 4 -> is_u32 cur -> is_u32 v ->
  byte (swr_merge l cur v) j = if j <? l then byte cur j else byte v (j - l).
Proof.
  intros Hl Hj Hc Hv. rewrite swr_merge_eq by done. unfold byte, is_u32 in *.
  four l; four j; bool_const; pow_const; dlia.
Qed.

Lemma swl_byte l j cur v :
  0 <= l < 4 -> 0 <= j < 4 -> is_u32 cur -> is_u32 v ->
  byte (swl_merge l cur v) j = if j <=? l then byte v (3 - l + j) else byte cur j.
Proof.
  intros Hl Hj Hc Hv. rewrite swl_merge_eq by done. unfold byte, is_u32 in *.
  four l; four j; bool_const; pow_const; dlia.
Qed.

Lemma word_at_byte (w : W) y j : 0 <= j < 4 -> byte (word_at (ram w) y) j = ram w (y + j).
Proof.
  intros Hj. unfold byte, word_at.
  pose proof (ram_u8 w y). pose proof (ram_u8 w (y + 1)).
  pose proof (ram_u8 w (y + 2)). pose proof (ram_u8 w (y + 3)). unfold is_u8 in *.
  four j; pow_const; rewrite ?Z.add_0_r; dlia.
Qed.

(** The aligned word a partial store leaves. *)
Lemma write_word_byte (w : W) y v j :
  y mod 4 = 0 -> is_u32 v -> 0 <= j < 4 -> ram (write_word y v w) (y + j) = byte v j.
Proof.
  intros Hy Hv Hj. rewrite ram_write_word by done. unfold byte.
  replace ((y <=? y + j) && (y + j <? y + 4)) with true by lia.
  by replace (y + j - y) with j by lia.
Qed.

Lemma write_word_other (w : W) y v a :
  y mod 4 = 0 -> is_u32 v -> ~ (y <= a < y + 4) -> ram (write_word y v w) a = ram w a.
Proof.
  intros Hy Hv Ha. rewrite ram_write_word by done.
  by replace ((y <=? a) && (a <? y + 4)) with false by lia.
Qed.

(** The memory after SWR at [x] and SWL at [x + 3]. *)
Definition swr_swl (x v : Z) (w : W) : W :=
  let w := write_word (align4 x) (swr_merge (x mod 4) (word_at (ram w) (align4 x)) v) w in
  let x3 := u32 (x + 3) in
  write_word (align4 x3) (swl_merge (x3 mod 4) (word_at (ram w) (align4 x3)) v) w.

Lemma swl_merge_u32 l cur v : 0 <= l < 4 -> is_u32 cur -> is_u32 v -> is_u32 (swl_merge l cur v).
Proof.
  intros Hl Hc Hv. rewrite swl_merge_eq by done. unfold is_u32 in *. four l; pow_const; dlia.
Qed.
Lemma swr_merge_u32 l cur v : 0 <= l < 4 -> is_u32 cur -> is_u32 v -> is_u32 (swr_merge l cur v).
Proof.
  intros Hl Hc Hv. rewrite swr_merge_eq by done. unfold is_u32 in *. four l; pow_const; dlia.
Qed.

Lemma swr_swl_stores (w : W) x v :
  is_u32 x -> is_u32 v ->
  (forall i, 0 <= i < 4 -> ram (swr_swl x v w) (u32 (x + i)) = byte v i) /\
  (forall a, is_u32 a -> (forall i, 0 <= i < 4 -> a <> u32 (x + i)) -> ram (swr_swl x v w) a = ram w a).
Proof.
  intros Hx Hv. destruct (split_address x Hx) as (Hl & Hy & Hy' & Ea & Ea' & El' & Ei).
  unfold swr_swl. rewrite Ea, Ea', El'.
  set (l := x mod 4) in *. set (y := x - l) in *. set (y' := u32 (y + 4)) in *.
  set (w1 := write_word y (swr_merge l (word_at (ram w) y) v) w).
  pose proof (word_at_u32 w y) as Hw0. pose proof (swr_merge_u32 l _ v Hl Hw0 Hv) as Hm1.
  assert (forall j, 0 <= j < 4 -> ram w1 (y + j) = if j <? l then ram w (y + j) else byte v (j - l)) as H1.
  { intros j Hj. unfold w1. rewrite write_word_byte, swr_byte, word_at_byte by done. done. }
  assert (forall a, ~ (y <= a < y + 4) -> ram w1 a = ram w a) as H1'.
  { intros a Ha. unfold w1. by rewrite write_word_other by done. }
  assert (0 <= y < 0x100000000) as Hyr by (unfold y, l, is_u32 in *; dlia).
  assert (y' = y + 4 \/ y' = 0 /\ y + 4 = 0x100000000) as Hy'r by (unfold y', u32; dlia).
  destruct (Z.eqb_spec l 0) as [E0|E0].
  - set (w2 := write_word y _ w1).
    assert (forall j, 0 <= j < 4 -> ram w2 (y + j) = byte v j) as H2.
    { intros j Hj. unfold w2. rewrite write_word_byte; [|done|apply swl_merge_u32; [lia|apply word_at_u32|done]|done].
      rewrite swl_byte; [|lia|done|apply word_at_u32|done].
      destruct (Z.leb_spec j 3); [f_equal; lia|lia]. }
    split.
    + intros i Hi. rewrite Ei by done. destruct (Z.ltb_spec (l + i) 4); [|lia].
      rewrite <- H2 by done. f_equal. lia.
    + intros a Ha Hne. assert (~ (y <= a < y + 4)) as Hna.
      { intros Hin. apply (Hne (a - y) ltac:(lia)). rewrite Ei by lia.
        destruct (Z.ltb_spec (l + (a - y)) 4); lia. }
      unfold w2. rewrite write_word_other; [by apply H1'|done| |done].
      apply swl_merge_u32; [lia|apply word_at_u32|done].
  - set (w2 := write_word y' _ w1).
    assert (y' <> y) as Hne' by lia.
    assert (forall j, 0 <= j < 4 -> ram w2 (y' + j) =
      if j <? l then byte v (4 - l + j) else ram w1 (y' + j)) as H2.
    { intros j Hj. unfold w2. rewrite write_word_byte; [|done|apply swl_merge_u32; [lia|apply word_at_u32|done]|done].
      rewrite swl_byte, word_at_byte; [|done|lia|done|apply word_at_u32|done].
      destruct (Z.leb_spec j (l - 1)), (Z.ltb_spec j l); try lia; first [done|f_equal; lia]. }
    assert (forall a, ~ (y' <= a < y' + 4) -> ram w2 a = ram w1 a) as H2'.
    { intros a Ha. unfold w2. rewrite write_word_other; [done|done| |done].
      apply swl_merge_u32; [lia|apply word_at_u32|done]. }
    split.
    + intros i Hi. rewrite Ei by done. destruct (Z.ltb_spec (l + i) 4).
      * rewrite H2' by lia. rewrite <- Z.add_assoc, H1 by lia.
        destruct (Z.ltb_spec (l + i) l); [lia|f_equal; lia].
      * rewrite H2 by lia. destruct (Z.ltb_spec (l + i - 4) l); [f_equal; lia|lia].
    + intros a Ha Hne. unfold is_u32 in Ha.
      destruct (decide (y' <= a < y' + 4)).
      * replace a with (y' + (a - y')) by lia. rewrite H2 by lia.
        destruct (Z.ltb_spec (a - y') l).
        -- exfalso. apply (Hne (4 - l + (a - y')) ltac:(lia)). rewrite Ei by lia.
           destruct (Z.ltb_spec (l + (4 - l + (a - y'))) 4); lia.
        -- replace (y' + (a - y')) with a by lia. apply H1'. lia.
      * rewrite H2' by lia. destruct (decide (y <= a < y + 4)); [|apply H1'; lia].
        replace a with (y + (a - y)) by lia. rewrite H1 by lia.
        destruct (Z.ltb_spec (a - y) l); [done|]. exfalso. apply (Hne (a - y - l) ltac:(lia)).
        rewrite Ei by lia. destruct (Z.ltb_spec (l + (a - y - l)) 4); lia.
Qed.

Lemma bus_word_aligned x (s : State W) :
  bus_word (align4 x) s = (word_at (ram (world s)) (align4 x), s).
Proof. unfold bus_word. rewrite ram_read_word; [done|]. rewrite align4_eq. dlia. Qed.

Lemma exec_swr insn pc0 a v (s : State W) :
  OP insn = 0x2E ->
  let x := u32 (a + SIMM insn) in
  exec_switch insn pc0 a v s =
    Break (put_word (align4 x) (swr_merge (x mod 4) (word_at (ram (world s)) (align4 x)) v) s).
Proof.
  intros Hop x. unfold exec_switch. rewrite Hop.
  change (exec_store 0x2E insn a v s = Break (put_word (align4 x)
    (swr_merge (x mod 4) (word_at (ram (world s)) (align4 x)) v) s)).
  unfold exec_store. rewrite bus_word_aligned. fold x. by rewrite land_3.
Qed.

Lemma exec_swl insn pc0 a v (s : State W) :
  OP insn = 0x2A ->
  let x := u32 (a + SIMM insn) in
  exec_switch insn pc0 a v s =
    Break (put_word (align4 x) (swl_merge (x mod 4) (word_at (ram (world s)) (align4 x)) v) s).
Proof.
  intros Hop x. unfold exec_switch. rewrite Hop.
  change (exec_store 0x2A insn a v s = Break (put_word (align4 x)
    (swl_merge (x mod 4) (word_at (ram (world s)) (align4 x)) v) s)).
  unfold exec_store. rewrite bus_word_aligned. fold x. by rewrite land_3.
Qed.

Lemma exec_lwr insn pc0 a v (s : State W) :
  OP insn = 0x26 ->
  let x := u32 (a + SIMM insn) in
  exec_switch insn pc0 a v s =
    Break (set_reg (RT insn) (lwr_merge (x mod 4) (reg s (RT insn))
             (word_at (ram (world s)) (align4 x))) s).
Proof.
  intros Hop x. unfold exec_switch. rewrite Hop.
  change (exec_load 0x26 insn a s = Break (set_reg (RT insn) (lwr_merge (x mod 4) (reg s (RT insn))
             (word_at (ram (world s)) (align4 x))) s)).
  unfold exec_load. cbv zeta. fold x. rewrite bus_word_aligned, land_3. done.
Qed.

Lemma exec_lwl insn pc0 a v (s : State W) :
  OP insn = 0x22 ->
  let x := u32 (a + SIMM insn) in
  exec_switch insn pc0 a v s =
    Break (set_reg (RT insn) (lwl_merge (x mod 4) (reg s (RT insn))
             (word_at (ram (world s)) (align4 x))) s).
Proof.
  intros Hop x. unfold exec_switch. rewrite Hop.
  change (exec_load 0x22 insn a s = Break (set_reg (RT insn) (lwl_merge (x mod 4) (reg s (RT insn))
             (word_at (ram (world s)) (align4 x))) s)).
  unfold exec_load. cbv zeta. fold x. rewrite bus_word_aligned, land_3. done.
Qed.

Lemma reg_set_reg r v (s : State W) :
  0 < r < 32 -> length (gpr s) = 32%nat -> reg (set_reg r v s) r = v.
Proof.
  intros Hr Hl. unfold set_reg, reg. destruct (Z.eqb_spec r 0); [lia|].
  cbn [negb gpr upd]. apply aget_aset_eq. lia.
Qed.

Lemma bytes_word (m : Z -> Z) x v :
  is_u32 x -> is_u32 v -> (forall i, 0 <= i < 4 -> m (u32 (x + i)) = byte v i) -> unaligned m x = v.
Proof.
  intros Hx Hv H. unfold unaligned. pose proof (H 0 ltac:(lia)) as H0.
  rewrite Z.add_0_r, u32_id in H0 by (unfold is_u32 in Hx; lia).
  rewrite H0, (H 1), (H 2), (H 3) by lia. unfold byte, is_u32 in *. pow_const. dlia.
Qed.

(** Unaligned accesses round-trip.  SWR at [x] and SWL at [x + 3] store the
    register's four bytes at [x .. x+3] (any alignment, wrapping at 4 GB) and
    touch nothing else; LWR and LWL then load the same value back. *)
Theorem unaligned_roundtrip (swr swl lwr lwl pc0 a v : Z) (s : State W) :
  wf s -> is_u32 a -> is_u32 v ->
  OP swr = 0x2E -> OP swl = 0x2A -> OP lwr = 0x26 -> OP lwl = 0x22 ->
  SIMM swl = SIMM swr + 3 -> SIMM lwr = SIMM swr -> SIMM lwl = SIMM swr + 3 ->
  RT lwl = RT lwr -> RT lwr <> 0 ->
  let x := u32 (a + SIMM swr) in
  exists s1 s2 s3 s4,
    exec_switch swr pc0 a v s = Break s1 /\ exec_switch swl pc0 a v s1 = Break s2 /\
    exec_switch lwr pc0 a v s2 = Break s3 /\ exec_switch lwl pc0 a v s3 = Break s4 /\
    unaligned (ram (world s2)) x = v /\ reg s4 (RT lwr) = v /\
    (forall y, is_u32 y -> (forall i, 0 <= i < 4 -> y <> u32 (x + i)) ->
       ram (world s4) y = ram (world s) y).
Proof.
  intros Hw Ha Hv O1 O2 O3 O4 S2 S3 S4 Hrt Hnz x.
  assert (is_u32 x) as Hx by apply u32_range.
  assert (u32 (a + (SIMM swr + 3)) = u32 (x + 3)) as Ex3 by (unfold x, u32; dlia).
  pose proof (exec_swr swr pc0 a v s O1) as E1. fold x in E1. cbv zeta in E1.
  set (s1 := put_word _ _ s) in E1.
  pose proof (exec_swl swl pc0 a v s1 O2) as E2. cbv zeta in E2. rewrite S2, Ex3 in E2.
  set (s2 := put_word _ _ s1) in E2.
  pose proof (exec_lwr lwr pc0 a v s2 O3) as E3. cbv zeta in E3. rewrite S3 in E3. fold x in E3.
  set (s3 := set_reg (RT lwr) _ s2) in E3.
  pose proof (exec_lwl lwl pc0 a v s3 O4) as E4. cbv zeta in E4. rewrite S4, Ex3, Hrt in E4.
  set (s4 := set_reg (RT lwr) _ s3) in E4.
  assert (world s2 = swr_swl x v (world s)) as Ew by done.
  destruct (swr_swl_stores (world s) x v Hx Hv) as [Hst Hot].
  assert (length (gpr s2) = 32%nat) as Hl2 by apply (wf_gpr _ Hw).
  pose proof (RT_range lwr) as Hr.
  assert (world s3 = world s2 /\ length (gpr s3) = 32%nat) as [Ew3 Hl3].
  { unfold s3, set_reg. destruct (Z.eqb_spec (RT lwr) 0); [done|]. cbn. rewrite length_aset. done. }
  assert (unaligned (ram (world s2)) x = v) as Hu by (rewrite Ew; by apply bytes_word).
  exists s1, s2, s3, s4. repeat (split; [assumption|]). split.
  - unfold s4. rewrite reg_set_reg by (done || lia). unfold s3 at 1.
    rewrite reg_set_reg by (done || lia). rewrite Ew3, lwr_lwl_word; [done|done|].
    apply reg_u32. by repeat apply set_world_wf.
  - intros y Hy Hne. replace (world s4) with (world s2); [rewrite Ew; by apply Hot|].
    unfold s4, set_reg. by destruct (Z.eqb_spec (RT lwr) 0).
Qed.

End Unaligned.

(** ** A concrete machine: flat byte memory, no devices *)

Definition flat_word (w : Z -> Z) (a : Z) : Z :=
  w a mod 0x100 + 0x100 * (w (a + 1) mod 0x100) + 0x10000 * (w (a + 2) mod 0x100)
  + 0x1000000 * (w (a + 3) mod 0x100).

Definition flat_write (n a v : Z) (w : Z -> Z) : Z -> Z := fun x =>
  if (a <=? x) && (x <? a + n) then v / 2 ^ (8 * (x - a)) mod 0x100 else w x.

#[export] Instance FlatMachine : Machine (Z -> Z) := {
  read_word a w := (flat_word w a, w);
  read_half a w := (w a mod 0x100 + 0x100 * (w (a + 1) mod 0x100), w);
  read_byte a w := (w a mod 0x100, w);
  write_word := flat_write 4;
  write_half := flat_write 2;
  write_byte := flat_write 1;
  gte_read_data _ w := (0, w);
  gte_read_ctrl _ w := (0, w);
  gte_write_data _ _ w := w;
  gte_write_ctrl _ _ w := w;
  gte_execute _ w := w;
  i_stat _ := 0;
  i_mask _ := 0;
  irq_raise _ w := w;
  sio_tick _ w := w;
  gpu_vblank_tick w := w;
  timers_tick _ w := w;
  cdrom_tick w := w;
}.

#[export] Instance FlatMachineOk : MachineOk (Z -> Z).
Proof.
  split; intros; cbn; unfold is_u32, is_u16, is_u8, flat_word; try lia; dlia.
Qed.

#[export] Program Instance FlatRam : RamMachine (Z -> Z) := { ram w a := w a mod 0x100 }.
Next Obligation. intros w a. unfold is_u8. cbn. dlia. Qed.
Next Obligation. intros a w Ha. done. Qed.
Next Obligation.
  intros a v w x Ha Hv. cbn. unfold flat_write.
  destruct ((a <=? x) && (x <? a + 4)); [|done]. by rewrite Z.mod_mod by lia.
Qed.

(** A CPU at [p] with zeroed registers over the memory [w]. *)
Definition cpu_at (p : Z) (w : Z -> Z) : State (Z -> Z) :=
  mkState (replicate 32 0) p 0 0 (replicate 32 0) w 0 0 0 0 (replicate 64 0) 0 ∅ 0 0 0 0.

Lemma cpu_at_wf p w : is_u32 p -> wf (cpu_at p w).
Proof.
  intros Hp. constructor; cbn; unfold is_u32, MAX_BREAKPOINTS in *; try lia; try done.
  - split; [done|]. repeat constructor; lia.
  - split; [done|]. repeat constructor; lia.
Qed.

Lemma unaligned_roundtrip_witness :
  let s := cpu_at 0x80010000 (fun _ => 0) in
  let x := u32 (0x80020000 + SIMM 0xB8220006) in
  exists s1 s2 s3 s4,
    exec_switch 0xB8220006 0 0x80020000 0xDEADBEEF s = Break s1 /\
    exec_switch 0xA8220009 0 0x80020000 0xDEADBEEF s1 = Break s2 /\
    exec_switch 0x98230006 0 0x80020000 0xDEADBEEF s2 = Break s3 /\
    exec_switch 0x88230009 0 0x80020000 0xDEADBEEF s3 = Break s4 /\
    unaligned (ram (world s2)) x = 0xDEADBEEF /\ reg s4 (RT 0x98230006) = 0xDEADBEEF /\
    (forall y, is_u32 y -> (forall i, 0 <= i < 4 -> y <> u32 (x + i)) ->
       ram (world s4) y = ram (world s) y).
Proof.
  intros s x.
  apply (unaligned_roundtrip 0xB8220006 0xA8220009 0x98230006 0x88230009 0 0x80020000 0xDEADBEEF s);
    try reflexivity; [apply cpu_at_wf; by unfold is_u32|by unfold is_u32|by unfold is_u32|done].
Defined.

Section Properties.
Context {W : Type} {M : Machine W}.

(** *** Multiplication and division *)

(** The result registers of a multiply or divide instruction. *)
Definition muldiv (insn a b : Z) (s : State W) : option (Z * Z) :=
  match exec_special insn (pc s) a b s with Break s' => Some (lo s', hi s') | _ => None end.

Lemma product_halves r : u32 r + 0x100000000 * u32 (Z.shiftr r 32) = u64 r.
Proof.
  rewrite Z.shiftr_div_pow2 by lia. change (2 ^ 32) with 0x100000000. unfold u32, u64. dlia.
Qed.

Lemma s32_u32 a : is_u32 a -> s32 a = if a <? 0x80000000 then a else a - 0x100000000.
Proof. unfold is_u32, s32. intros H. destruct (Z.ltb_spec a 0x80000000); dlia. Qed.

Lemma s32_of_u32 x : -0x80000000 <= x < 0x80000000 -> s32 (u32 x) = x.
Proof. unfold s32, u32. dlia. Qed.

Lemma signed_division a b :
  is_u32 a -> is_u32 b -> b <> 0 -> ~ (a = 0x80000000 /\ b = 0xFFFFFFFF) ->
  let q := Z.quot (s32 a) (s32 b) in let r := Z.rem (s32 a) (s32 b) in
  s32 a = s32 b * q + r /\ Z.abs r < Z.abs (s32 b) /\ -0x80000000 <= q < 0x80000000 /\
  -0x80000000 <= r < 0x80000000.
Proof.
  intros Ha Hb Hnz Hno q r. pose proof (s32_range a). pose proof (s32_range b).
  assert (s32 b <> 0) as Hb0.
  { rewrite s32_u32 by done. unfold is_u32 in Hb. destruct (Z.ltb_spec b 0x80000000); lia. }
  pose proof (Z.quot_rem (s32 a) (s32 b) Hb0) as Hqr. fold q r in Hqr.
  pose proof (Z.rem_bound_abs (s32 a) (s32 b) Hb0) as Hr. fold r in Hr.
  assert (~ (s32 a = -0x80000000 /\ s32 b = -1)) as Hno'.
  { rewrite !s32_u32 by done. unfold is_u32 in *. intros [E1 E2]. apply Hno.
    destruct (Z.ltb_spec a 0x80000000), (Z.ltb_spec b 0x80000000); lia. }
  split; [lia|]. split; [done|]. assert (Z.abs q <= Z.abs (s32 a)) as Hq.
  { unfold q. pose proof (Z.quot_abs (s32 a) (s32 b) Hb0) as Habs.
    rewrite <- Habs. apply Z.quot_le_upper_bound; nia. }
  split; [|lia]. destruct (Z.eq_dec q 0x80000000) as [Eq|]; [|lia].
  exfalso. apply Hno'. nia.
Qed.

(** Resolve the tests of a handler's [if] chain on a known field. *)
Ltac lit_const :=
  repeat match goal with
  | |- context [Zpos ?x =? ?y] =>
      let b := eval vm_compute in (Zpos x =? y) in
      lazymatch b with true => idtac | false => idtac end;
      change (Zpos x =? y) with b; cbv iota
  end.

(** MULT, MULTU, DIV and DIVU leave the exact 64-bit product, or quotient
    and remainder, in HI:LO for every operand pair, the overflowing
    INT_MIN / -1 and the architected results of a zero divisor included. *)
Theorem muldiv_correct (insn a b : Z) (s : State W) :
  is_u32 a -> is_u32 b -> 0x18 <= FUNC insn <= 0x1B ->
  exists l h, muldiv insn a b s = Some (l, h) /\ is_u32 l /\ is_u32 h /\
    (FUNC insn = 0x18 -> l + 0x100000000 * h = u64 (s32 a * s32 b)) /\
    (FUNC insn = 0x19 -> l + 0x100000000 * h = a * b) /\
    (FUNC insn = 0x1A -> b <> 0 ->
       u32 (s32 b * s32 l + s32 h) = a /\ Z.abs (s32 h) < Z.abs (s32 b)) /\
    (FUNC insn = 0x1B -> b <> 0 -> a = b * l + h /\ h < b) /\
    (0x1A <= FUNC insn -> b = 0 ->
       h = a /\ l = (if (FUNC insn =? 0x1A) && (0x80000000 <=? a) then 1 else 0xFFFFFFFF)).
Proof.
  intros Ha Hb Hf. unfold muldiv, exec_special.
  assert (FUNC insn = 0x18 \/ FUNC insn = 0x19 \/ FUNC insn = 0x1A \/ FUNC insn = 0x1B)
    as [E | [E | [E | E]]] by lia; rewrite E; lit_const; cbv zeta.
  - do 2 eexists. split; [done|]. split; [apply u32_is_u32|]. split; [apply u32_is_u32|].
    split; [intros _; apply product_halves|]. repeat split; intros; lia.
  - do 2 eexists. split; [done|]. split; [apply u32_is_u32|]. split; [apply u32_is_u32|].
    split; [lia|]. split; [|repeat split; intros; lia].
    intros _. cbn [lo hi upd]. rewrite product_halves. unfold u64, is_u32 in *.
    rewrite Z.mod_mod by lia. apply Z.mod_small. nia.
  - destruct (Z.eqb_spec b 0) as [->|Hb0].
    + do 2 eexists. split; [done|]. cbn [lo hi upd]. unfold has.
      pose proof (land_high 32 31 a ltac:(lia) Ha) as Hh.
      change (2 ^ 32 - 2 ^ 31) with 0x80000000 in Hh. change (2 ^ 31) with 0x80000000 in Hh.
      rewrite Hh.
      unfold is_u32 in *.
      destruct (Z.eqb_spec (a / 0x80000000 * 0x80000000) 0), (Z.leb_spec 0x80000000 a);
        cbn [negb]; repeat split; try lia; try dlia.
    + destruct ((a =? 0x80000000) && (b =? 0xFFFFFFFF)) eqn:Eo.
      * apply andb_true_iff in Eo as [Ea Eb]. apply Z.eqb_eq in Ea as ->. apply Z.eqb_eq in Eb as ->.
        do 2 eexists. split; [done|]. cbn [lo hi upd]. unfold is_u32.
        repeat split; intros; try lia; by vm_compute.
      * destruct (signed_division a b Ha Hb Hb0) as (Hqr & Hr & Hq32 & Hr32).
        { intros [-> ->]. done. }
        do 2 eexists. split; [done|]. cbn [lo hi upd].
        split; [apply u32_is_u32|]. split; [apply u32_is_u32|].
        rewrite (s32_of_u32 _ Hq32), (s32_of_u32 _ Hr32). split; [lia|]. split; [lia|].
        split; [|split; intros; lia]. intros _ _. split; [|done].
        rewrite <- Hqr. unfold is_u32, s32, u32 in *. dlia.
  - destruct (Z.eqb_spec b 0) as [->|Hb0]; do 2 eexists; (split; [done|]); cbn [lo hi upd];
      unfold is_u32 in *.
    + repeat split; lia.
    + pose proof (Z.div_mod a b Hb0). pose proof (Z.mod_pos_bound a b ltac:(lia)).
      pose proof (div_u32 a b Ha Hb Hb0) as Hd. unfold is_u32 in Hd.
      repeat split; lia.
Qed.

(** *** Exceptions, delays and recursion depth *)

(** What [exec_fetch] does when tracing is off. *)
Definition fetched (s : State W) : State W :=
  apply_load_delay ((snd (bus_word (pc s) s)) <| pc := u32 (pc s + 4) |>).

Lemma exec_fetch_untraced (s : State W) :
  s_trace_on s = 0 -> exec_fetch s = (fst (bus_word (pc s) s), fetched s).
Proof.
  intros Ht. unfold exec_fetch, fetched, bus_word.
  destruct (read_word (pc s) (world s)) as [v w]. cbn [fst snd].
  change (s_trace_on (s <| world := w |>)) with (s_trace_on s). by rewrite Ht.
Qed.

Lemma apply_load_delay_keeps (s : State W) :
  pc (apply_load_delay s) = pc s /\ cop0 (apply_load_delay s) = cop0 s /\
  world (apply_load_delay s) = world s /\ s_trace_on (apply_load_delay s) = s_trace_on s /\
  s_load_reg (apply_load_delay s) = 0 /\ length (gpr (apply_load_delay s)) = length (gpr s).
Proof.
  unfold apply_load_delay. destruct (Z.eqb_spec (s_load_reg s) 0); cbn [negb].
  - done.
  - cbn. rewrite length_aset. done.
Qed.

Lemma fetched_keeps (s : State W) :
  pc (fetched s) = u32 (pc s + 4) /\ cop0 (fetched s) = cop0 s /\
  world (fetched s) = snd (read_word (pc s) (world s)) /\ s_trace_on (fetched s) = s_trace_on s /\
  s_load_reg (fetched s) = 0 /\ length (gpr (fetched s)) = length (gpr s).
Proof.
  unfold fetched, bus_word. destruct (read_word (pc s) (world s)) as [v w]. cbn [snd].
  pose proof (apply_load_delay_keeps (s <| world := w |> <| pc := u32 (pc s + 4) |>)) as H.
  exact H.
Qed.

(** COP0 after an exception taken outside a delay slot. *)
Lemma raise_exception_regs code (s : State W) :
  length (cop0 s) = 32%nat ->
  let s' := raise_exception code false s in
  c0 s' 14 = pc s /\
  c0 s' 13 = Z.ldiff (Z.lor (Z.ldiff (c0 s 13) 0x7C) (u32 (Z.shiftl code 2))) (Z.shiftl 1 31) /\
  c0 s' 12 = Z.lor (Z.ldiff (c0 s 12) 0x3F) (Z.shiftl (Z.land (c0 s 12) 0x0F) 2) /\
  pc s' = (if has (c0 s 12) 0x00400000 then 0xBFC00180 else 0x80000080).
Proof.
  intros Hl. unfold raise_exception, c0, set_c0, has. cbn [cop0 upd pc].
  assert (forall i v l, 0 <= i < 32 -> length l = 32%nat -> aget (aset l i v) i = v) as Heq.
  { intros i v l Hi Hll. apply aget_aset_eq. lia. }
  rewrite !(aget_aset_ne _ 14 13), !(aget_aset_ne _ 14 12), !(aget_aset_ne _ 13 12),
    !(aget_aset_ne _ 12 13) by lia.
  rewrite !Heq by (rewrite ?length_aset; lia). done.
Qed.

(** What SYSCALL and BREAK leave in COP0.  The handler runs after the PC
    has advanced, so EPC holds the address of the instruction after the trap
    (not of the trap, as the R3000A has it); the cause code is 8 or 9, the
    branch-delay bit is clear, the SR mode stack is pushed and the PC is at
    the vector the BEV bit selects. *)
Theorem syscall_break_epc (fuel : nat) (s : State W) (insn : Z) :
  wf s -> pc s <> 0 -> s_trace_on s = 0 ->
  fst (bus_word (pc s) s) = insn -> OP insn = 0 -> FUNC insn = 0x0C \/ FUNC insn = 0x0D ->
  exists s', exec_one (S fuel) s = Some s' /\
    c0 s' 14 = u32 (pc s + 4) /\ c0 s' 14 <> pc s /\
    Z.land (Z.shiftr (c0 s' 13) 2) 0x1F = (if FUNC insn =? 0x0C then 8 else 9) /\
    Z.testbit (c0 s' 13) 31 = false /\
    Z.land (c0 s' 12) 0x3F = Z.shiftl (Z.land (c0 s 12) 0x0F) 2 /\
    pc s' = (if has (c0 s 12) 0x00400000 then 0xBFC00180 else 0x80000080).
Proof.
  intros Hw Hpc Ht Hi Hop Hf.
  destruct (fetched_keeps s) as (Epc & Ecop & _ & _ & _ & _).
  set (code := if FUNC insn =? 0x0C then 8 else 9).
  assert (exec_one (S fuel) s = Some (raise_exception code false (fetched s))) as E.
  { cbn [exec_one]. destruct (Z.eqb_spec (pc s) 0); [done|].
    rewrite exec_fetch_untraced, Hi by done. unfold exec_switch. rewrite Hop. lit_const.
    change (0 =? 0) with true. cbv iota. unfold exec_special, code.
    destruct Hf as [-> | ->]; lit_const; done. }
  exists (raise_exception code false (fetched s)). split; [done|].
  destruct (raise_exception_regs code (fetched s)) as (E14 & E13 & E12 & Ev).
  { rewrite Ecop. apply (wf_cop0 _ Hw). }
  rewrite E14, E13, E12, Ev, Epc.
  change (c0 (fetched s) 12) with (aget (cop0 (fetched s)) 12).
  change (c0 (fetched s) 13) with (aget (cop0 (fetched s)) 13). rewrite Ecop.
  change (aget (cop0 s) 12) with (c0 s 12). change (aget (cop0 s) 13) with (c0 s 13).
  split; [done|]. split; [pose proof (wf_pc _ Hw); unfold is_u32, u32 in *; dlia|].
  split; [|split; [|split; [|done]]].
  - replace (u32 (Z.shiftl code 2)) with (code * 4) by (unfold code; case_if; done).
    apply Z.bits_inj'. intros i Hi0. rewrite Z.land_spec, Z.shiftr_spec by lia.
    destruct (Z.lt_ge_cases i 5).
    + rewrite Z.ldiff_spec, Z.lor_spec, Z.ldiff_spec.
      assert (i = 0 \/ i = 1 \/ i = 2 \/ i = 3 \/ i = 4) as Hi5 by lia.
      unfold code. destruct Hi5 as [-> | [-> | [-> | [-> | ->]]]]; case_if;
        const_bits; rewrite ?andb_true_r, ?andb_false_r, ?orb_false_r, ?orb_true_r; done.
    + rewrite (testbit_bounded 0x1F 5) by lia.
      rewrite (testbit_bounded (if FUNC insn =? 0x0C then 8 else 9) 5) by (try case_if; lia).
      apply andb_false_r.
  - rewrite Z.ldiff_spec. const_bits. apply andb_false_r.
  - change 0x3F with (Z.ones 6). rewrite Z.land_ones by lia.
    rewrite land_0f, Z.shiftl_mul_pow2 by lia. rewrite Z.ldiff_ones_r by lia.
    rewrite Z.shiftl_mul_pow2, Z.shiftr_div_pow2 by lia.
    rewrite lor_add by (lia || (change (2 ^ 2) with 4; change (2 ^ 6) with 64; dlia)).
    change (2 ^ 2) with 4. change (2 ^ 6) with 64. dlia.
Qed.

Lemma exec_lw insn pc0 a b (s : State W) :
  OP insn = 0x23 ->
  exec_switch insn pc0 a b s =
    let '(v, s) := bus_word (u32 (a + SIMM insn)) s in Break (set_load_delay (RT insn) v s).
Proof. intros Hop. unfold exec_switch. by rewrite Hop. Qed.

(** Loads have no visible delay slot.  After LW the loaded value is still
    pending, but it is written before the next instruction reads its operands,
    so that instruction sees the new value (the file's comment announces the
    R3000A's one-instruction load delay, where it would see the old one). *)
Theorem load_delay_invisible (fuel : nat) (s : State W) (insn : Z) :
  wf s -> pc s <> 0 -> s_trace_on s = 0 ->
  fst (bus_word (pc s) s) = insn -> OP insn = 0x23 -> RT insn <> 0 ->
  let addr := u32 (reg (fetched s) (RS insn) + SIMM insn) in
  exists s', exec_one (S fuel) s = Some s' /\ s_load_reg s' = RT insn /\
    gpr s' = aset (gpr (fetched s)) 0 0 /\
    reg (snd (exec_fetch s')) (RT insn) = fst (bus_word addr (fetched s)).
Proof.
  intros Hw Hpc Ht Hi Hop Hrt addr.
  destruct (fetched_keeps s) as (_ & _ & _ & Etr & _ & Elen).
  destruct (read_word addr (world (fetched s))) as [v w] eqn:Er.
  set (s' := (set_load_delay (RT insn) v ((fetched s) <| world := w |>))
               <| gpr := aset (gpr (fetched s)) 0 0 |>).
  exists s'. split; [|split; [done|split; [done|]]].
  - cbn [exec_one]. destruct (Z.eqb_spec (pc s) 0); [done|].
    rewrite exec_fetch_untraced, Hi, exec_lw by done. fold addr. unfold bus_word. by rewrite Er.
  - unfold bus_word at 1. rewrite Er. cbn [fst].
    rewrite exec_fetch_untraced by (cbn; congruence). cbn [snd].
    unfold fetched at 1, apply_load_delay, bus_word.
    destruct (read_word (pc s') (world s')) as [v' w']. cbn [snd s_load_reg upd].
    change (s_load_reg s') with (RT insn). destruct (Z.eqb_spec (RT insn) 0); [done|].
    cbn [negb]. unfold reg. cbn. pose proof (RT_range insn).
    apply aget_aset_eq. rewrite length_aset, Elen. pose proof (proj1 (wf_gpr _ Hw)). lia.
Qed.

(** *** Recursion depth *)

(** Instructions that execute a delay slot. *)
Definition is_transfer (insn : Z) : bool :=
  ((1 <=? OP insn) && (OP insn <=? 7))
  || ((OP insn =? 0) && ((FUNC insn =? 8) || (FUNC insn =? 9))).

Definition stays (f : @Flow W) : Prop :=
  match f with DelaySlot _ _ => False | _ => True end.

Lemma exec_special_stays insn pc0 a b (s : State W) :
  FUNC insn <> 8 -> FUNC insn <> 9 -> stays (exec_special insn pc0 a b s).
Proof.
  intros H8 H9. unfold exec_special. repeat case_if;
    lazymatch goal with |- stays (DelaySlot _ _) => exfalso; lia | _ => exact I end.
Qed.

Lemma exec_switch_stays insn pc0 a b (s : State W) :
  is_transfer insn = false -> stays (exec_switch insn pc0 a b s).
Proof.
  intros Ht. unfold is_transfer in Ht. unfold exec_switch.
  case_if; [apply exec_special_stays; lia|].
  do 7 (case_if; [exfalso; lia|]).
  repeat case_if; lazymatch goal with |- stays (Break _) => exact I | |- stays (Return _) => exact I | _ => idtac end.
  - unfold exec_cop0. repeat case_if; exact I.
  - unfold exec_cop2, cop2_data, cop2_ctrl.
    repeat (case_if || case_match); exact I.
  - unfold exec_load, bus_byte, bus_half, bus_word. repeat (case_if || case_match); exact I.
  - unfold exec_store, bus_word. repeat (case_if || case_match); exact I.
  - unfold bus_word. destruct (read_word _ _). exact I.
  - unfold cop2_data. destruct (gte_read_data _ _). exact I.
Qed.

Lemma exec_one_no_transfer fuel (s : State W) :
  s_trace_on s = 0 -> is_transfer (fst (bus_word (pc s) s)) = false ->
  exists s', exec_one (S fuel) s = Some s'.
Proof.
  intros Ht Hn. cbn [exec_one]. destruct (pc s =? 0); [by eexists|].
  rewrite exec_fetch_untraced by done.
  pose proof (exec_switch_stays (fst (bus_word (pc s) s)) (pc s)
    (reg (fetched s) (RS (fst (bus_word (pc s) s)))) (reg (fetched s) (RT (fst (bus_word (pc s) s))))
    (fetched s) Hn) as Hs.
  destruct (exec_switch _ _ _ _ _); [by eexists|by eexists|done].
Qed.

(** An instruction returns after at most two levels of [exec_one] when the
    delay slot of a branch holds no branch: the code's recursion is then one
    call deep, whatever the instruction. *)
Theorem exec_one_terminates (s : State W) :
  s_trace_on s = 0 ->
  (forall insn target s2, insn = fst (bus_word (pc s) s) ->
     exec_switch insn (pc s) (reg (fetched s) (RS insn)) (reg (fetched s) (RT insn)) (fetched s)
       = DelaySlot target s2 ->
     s_trace_on s2 = 0 /\ is_transfer (fst (bus_word (pc s2) s2)) = false) ->
  exists s', exec_one 2 s = Some s'.
Proof.
  intros Ht Hslot. change (exec_one 2 s) with (exec_one (S 1) s). cbn [exec_one].
  destruct (pc s =? 0); [by eexists|]. rewrite exec_fetch_untraced by done.
  specialize (Hslot (fst (bus_word (pc s) s))).
  destruct (exec_switch _ _ _ _ _) as [s2|s2|target s2]; [by eexists|by eexists|].
  destruct (Hslot target s2 eq_refl eq_refl) as [Ht2 Hn].
  destruct (exec_one_no_transfer 0 s2 Ht2 Hn) as [s3 E].
  exists (s3 <| pc := target |>). change (exec_one 1 s2 = Some s3) in E. cbn [exec_one] in E.
  rewrite E. done.
Qed.

(** Nothing but the cache-control register answers above 0xC0000000 (memory.c, the
    KSEG2 guard): the words there read as NOPs. *)
Class Kseg2Zero : Prop :=
  kseg2_reads_zero a w : 0xC0000000 <= a < 0x100000000 -> a <> 0xFFFE0130 -> fst (read_word a w) = 0.

(** What one call of [exec_one] fetches and does. *)
Definition flow_of (s : State W) : Flow :=
  let '(insn, s1) := exec_fetch s in exec_switch insn (pc s) (reg s1 (RS insn)) (reg s1 (RT insn)) s1.

Lemma exec_one_flow fuel (s : State W) : pc s <> 0 -> exec_one (S fuel) s =
  match flow_of s with
  | Break s => Some (s <| gpr := aset (gpr s) 0 0 |>)
  | Return s => Some s
  | DelaySlot target s => match exec_one fuel s with Some s => Some (s <| pc := target |>) | None => None end
  end.
Proof.
  intros Hpc. cbn [exec_one]. destruct (Z.eqb_spec (pc s) 0); [done|]. unfold flow_of. by destruct (exec_fetch s).
Qed.

Lemma exec_fetch_pc (s : State W) : fst (exec_fetch s) = fst (read_word (pc s) (world s)) /\ pc (snd (exec_fetch s)) = u32 (pc s + 4).
Proof.
  unfold exec_fetch, bus_word. destruct (read_word (pc s) (world s)) as [v w]. split; [done|]. cbn [snd].
  unfold apply_load_delay. repeat case_if; done.
Qed.

(** A branch leaves the PC on its delay slot. *)
Definition slot_at (p : Z) (f : @Flow W) : Prop := match f with DelaySlot _ s => pc s = p | _ => True end.

Lemma set_reg_pc r v (s : State W) : pc (set_reg r v s) = pc s.
Proof. unfold set_reg. by case_if. Qed.

Lemma branch_slot c insn pc0 (s : State W) : slot_at (pc s) (branch_if c insn pc0 s).
Proof. unfold branch_if. by case_if. Qed.

Lemma exec_switch_slot insn pc0 a b (s : State W) : slot_at (pc s) (exec_switch insn pc0 a b s).
Proof.
  destruct (is_transfer insn) eqn:Ht;
    [|pose proof (exec_switch_stays insn pc0 a b s Ht) as Hs; by destruct (exec_switch _ _ _ _ _)].
  unfold is_transfer in Ht. unfold exec_switch. case_if.
  - unfold exec_special. repeat (case_if; try exact I); try (exfalso; lia); cbn [slot_at]; [done|apply set_reg_pc].
  - case_if.
    { unfold exec_regimm. cbv zeta. destruct (has (RT insn) 0x10); [rewrite <- (set_reg_pc 31 (u32 (pc0 + 8)) s)|]; apply branch_slot. }
    case_if; [done|]. case_if; [apply set_reg_pc|]. do 4 (case_if; [apply branch_slot|]). exfalso. lia.
Qed.

Context {K2 : Kseg2Zero}.

(** Calls nested from an address on: each is four bytes further, and the first in
    the empty segment ends the chain. *)
Definition depth (p : Z) : Z :=
  if p =? 0xFFFE0130 then 2 else if 0xC0000000 <=? p then 1 else (0xC0000000 - p) / 4 + 3.

Definition BRANCH_DEPTH : Z := 0x30000003.

Lemma depth_bounds p : is_u32 p -> 1 <= depth p <= BRANCH_DEPTH.
Proof. unfold is_u32, depth, BRANCH_DEPTH. intros Hp. repeat case_if; dlia. Qed.

Lemma depth_next p : is_u32 p -> (0xC0000000 <= p -> p = 0xFFFE0130) -> depth (u32 (p + 4)) < depth p.
Proof.
  intros Hp Hk. unfold is_u32 in Hp. rewrite u32_id by lia. unfold depth.
  repeat case_if; try lia; dlia.
Qed.

Lemma exec_one_total fuel : forall s : State W, is_u32 (pc s) -> depth (pc s) <= Z.of_nat fuel -> exists s', exec_one fuel s = Some s'.
Proof.
  induction fuel as [|fuel IH]; intros s Hp Hd; [pose proof (depth_bounds _ Hp); lia|].
  destruct (Z.eq_dec (pc s) 0) as [E0|Hpc]; [cbn [exec_one]; rewrite E0; by eexists|].
  rewrite exec_one_flow by done. unfold flow_of. destruct (exec_fetch_pc s) as [Hi Hn].
  destruct (exec_fetch s) as [insn s1]. cbn [fst snd] in Hi, Hn.
  pose proof (exec_switch_slot insn (pc s) (reg s1 (RS insn)) (reg s1 (RT insn)) s1) as Hs.
  destruct (is_transfer insn) eqn:Et.
  - destruct (exec_switch _ _ _ _ _) as [s2|s2|target s2]; [by eexists|by eexists|]. cbn in Hs.
    assert (0xC0000000 <= pc s -> pc s = 0xFFFE0130) as Hk.
    { intros Hge. destruct (Z.eq_dec (pc s) 0xFFFE0130) as [|Hne]; [done|]. exfalso.
      rewrite kseg2_reads_zero in Hi by (unfold is_u32 in Hp; lia). by subst insn. }
    pose proof (depth_next _ Hp Hk). destruct (IH s2) as [s3 ->]; [|rewrite Hs, Hn; lia|by eexists].
    rewrite Hs, Hn. unfold is_u32, u32; dlia.
  - pose proof (exec_switch_stays insn (pc s) (reg s1 (RS insn)) (reg s1 (RT insn)) s1 Et).
    destruct (exec_switch _ _ _ _ _) as [s2|s2|target s2]; [by eexists|by eexists|done].
Qed.

Lemma exec_one_mono fuel : forall fuel' (s s' : State W), (fuel <= fuel')%nat -> exec_one fuel s = Some s' -> exec_one fuel' s = Some s'.
Proof.
  induction fuel as [|fuel IH]; intros [|fuel'] s s' Hf; [done..|lia|].
  destruct (Z.eq_dec (pc s) 0) as [E0|Hpc]; [cbn [exec_one]; by rewrite E0|].
  rewrite !exec_one_flow by done. destruct (flow_of s) as [s2|s2|target s2]; [done..|].
  destruct (exec_one fuel s2) as [s3|] eqn:E; [|done]. by rewrite (IH fuel' s2 s3) by (done || lia).
Qed.

Lemma step_loop_mono fuel fuel' n : forall e (s : State W) r, (fuel <= fuel')%nat -> step_loop fuel n e s = Some r -> step_loop fuel' n e s = Some r.
Proof.
  induction n as [|n IH]; intros e s r Hf; [done|]. cbn [step_loop]. destruct (at_breakpoint s); [done|].
  destruct (exec_one fuel s) as [s1|] eqn:E; [|done]. rewrite (exec_one_mono _ _ _ _ Hf E). cbv zeta.
  destruct (negb _); [done|]. by apply IH.
Qed.

Lemma interp_step_mono fuel fuel' count (s : State W) r :
  (fuel <= fuel')%nat -> interp_step fuel count s = Some r -> interp_step fuel' count s = Some r.
Proof. apply step_loop_mono. Qed.

(** *** The step contract *)

(** A round of the step loop and the number of instructions it executes: one, or a
    taken branch and the round of its delay slot, or none at address 0. *)
Inductive Round : Z -> State W -> State W -> Prop :=
| round_halt s : pc s = 0 -> Round 0 s (s <| s_halted := 1 |>)
| round_plain s s1 : pc s <> 0 -> flow_of s = Break s1 -> Round 1 s (s1 <| gpr := aset (gpr s1) 0 0 |>)
| round_trap s s1 : pc s <> 0 -> flow_of s = Return s1 -> Round 1 s s1
| round_branch n target s s1 s2 : pc s <> 0 -> flow_of s = DelaySlot target s1 -> Round n s1 s2 -> Round (n + 1) s (s2 <| pc := target |>).

(** What follows the [k]-th round: the interrupt check of every sixteenth. *)
Definition settle (k : Z) (s : State W) : State W :=
  if negb (s_halted s =? 0) then s else if Z.land k 0xF =? 0 then interp_check_interrupts s else s.

(** [k] rounds of [n] instructions, off the breakpoints, none after a halt. *)
Inductive Rounds : Z -> Z -> State W -> State W -> Prop :=
| rounds_none s : Rounds 0 0 s s
| rounds_more k n m s s1 s2 : Rounds k n s s1 -> at_breakpoint s1 = false -> k = 0 \/ s_halted s1 = 0 -> Round m s1 s2 ->
    Rounds (k + 1) (n + m) s (settle (k + 1) s2).

Lemma exec_one_round fuel : forall s s' : State W, exec_one fuel s = Some s' -> exists n, Round n s s'.
Proof.
  induction fuel as [|fuel IH]; intros s s'; [done|].
  destruct (Z.eq_dec (pc s) 0) as [E0|Hpc].
  - cbn [exec_one]. rewrite E0. intros [= <-]. exists 0. by constructor.
  - rewrite exec_one_flow by done. destruct (flow_of s) as [s2|s2|target s2] eqn:Ef.
    + intros [= <-]. exists 1. by constructor.
    + intros [= <-]. exists 1. by constructor.
    + destruct (exec_one fuel s2) as [s3|] eqn:E3; [|done]. intros [= <-]. destruct (IH _ _ E3) as [n Hn].
      exists (n + 1). by eapply round_branch.
Qed.

Lemma round_count n (s s' : State W) : Round n s s' -> 0 <= n /\ (n = 0 -> s_halted s' <> 0).
Proof. induction 1 as [| | |n target s s1 s2 ? ? ? [IH _]]; split; try lia. by intros _. Qed.

Lemma rounds_count k n (s s' : State W) : Rounds k n s s' -> 0 <= k /\ 0 <= n /\ k - 1 <= n /\ (s_halted s' = 0 -> k <= n).
Proof.
  induction 1 as [s|k n m s s1 s2 HR (IH1 & IH2 & IH3 & IH4) Hb Hh Hr]; [lia|].
  destruct (round_count _ _ _ Hr) as [Hm Hz]. assert (k <= n) as Hk by (destruct Hh as [->|Hh]; [done|by apply IH4]).
  split; [lia|]. split; [lia|]. split; [lia|]. intros Hs. destruct (Z.eq_dec m 0) as [Em|]; [|lia]. exfalso.
  specialize (Hz Em). unfold settle in Hs. destruct (Z.eqb_spec (s_halted s2) 0) as [|]; [done|]. by apply Hz.
Qed.

Context {MOk : MachineOk W}.

(** How the loop stops. *)
Definition stopped (count k : Z) (s1 s' : State W) : Prop :=
  (k = count /\ s' = s1) \/ (k < count /\ at_breakpoint s1 = true /\ s' = s1 <| s_hit_bp := 1 |>) \/
  (k <= count /\ s_halted s1 <> 0 /\ s' = s1).

Lemma check_interrupts_halted (s : State W) : s_halted (interp_check_interrupts s) = s_halted s.
Proof. unfold interp_check_interrupts. cbv zeta. repeat case_if; done. Qed.

Lemma settle_wf k s : wf s -> wf (settle k s).
Proof. intros Hw. unfold settle. repeat case_if; [done|by apply interp_check_interrupts_wf|done]. Qed.

Lemma step_loop_total n : forall e i (s0 s : State W),
  wf s -> Rounds e i s0 s -> e = 0 \/ s_halted s = 0 -> e + Z.of_nat n < 0x100000000 ->
  exists k j s1 s', (forall fuel, BRANCH_DEPTH <= Z.of_nat fuel -> step_loop fuel n e s = Some (k, s')) /\
    Rounds k j s0 s1 /\ stopped (e + Z.of_nat n) k s1 s' /\ wf s1.
Proof.
  induction n as [|n IH]; intros e i s0 s Hw HR Hh Hb.
  - exists e, i, s, s. split; [done|]. split; [done|]. split; [|done]. left. split; [lia|done].
  - pose proof (rounds_count _ _ _ _ HR) as [He _]. destruct (at_breakpoint s) eqn:Ebp.
    { exists e, i, s, (s <| s_hit_bp := 1 |>). cbn [step_loop]. rewrite Ebp. split; [done|]. split; [done|]. split; [|done].
      right. left. split; [lia|done]. }
    assert (exists s1, (forall fuel, BRANCH_DEPTH <= Z.of_nat fuel -> exec_one fuel s = Some s1)) as [s1 E1].
    { pose proof (wf_pc _ Hw) as Hp. destruct (exec_one_total (Z.to_nat (depth (pc s))) s Hp ltac:(lia)) as [s1 E].
      exists s1. intros fuel Hf. apply (exec_one_mono (Z.to_nat (depth (pc s)))); [|done]. pose proof (depth_bounds _ Hp). lia. }
    assert (exists m, Round m s s1 /\ wf s1) as (m & Hm & Hw1).
    { specialize (E1 (Z.to_nat BRANCH_DEPTH) ltac:(unfold BRANCH_DEPTH; lia)). destruct (exec_one_round _ _ _ E1) as [m Hm].
      exists m. split; [done|]. by eapply exec_one_wf. }
    pose proof (rounds_more _ _ _ _ _ _ HR Ebp Hh Hm) as HR1. unfold settle in HR1.
    destruct (Z.eqb_spec (s_halted s1) 0) as [Es|Es]; cbn [negb] in HR1.
    + destruct (IH (e + 1) (i + m) s0 _ (settle_wf (e + 1) s1 Hw1)) as (k & j & s2 & s' & E & HR2 & Hst & Hw2).
      * unfold settle. by rewrite Es.
      * right. unfold settle. rewrite Es. change (negb (0 =? 0)) with false. cbv iota.
        destruct (Z.land _ 0xF =? 0); [|done]. rewrite check_interrupts_halted. done.
      * lia.
      * exists k, j, s2, s'. replace (e + Z.of_nat (S n)) with (e + 1 + Z.of_nat n) by lia. split; [|done].
        intros fuel Hf. cbn [step_loop]. rewrite Ebp, (E1 fuel Hf). cbv zeta. rewrite u32_id by lia.
        specialize (E fuel Hf). unfold settle in E. by rewrite Es in E |- *.
    + exists (e + 1), (i + m), s1, s1. split.
      { intros fuel Hf. cbn [step_loop]. rewrite Ebp, (E1 fuel Hf). cbv zeta. rewrite u32_id by lia.
        by destruct (Z.eqb_spec (s_halted s1) 0). }
      split; [done|]. split; [|done]. right. right. split; [lia|done].
Qed.

(** C5: the contract of stepping.  A step request returns, whatever the code is: the
    recursion over branches in delay slots is at most [BRANCH_DEPTH] deep, since
    KSEG2 reads as NOPs ([Kseg2Zero], which memory.c keeps:
    [MemLaws.kseg2_fetches_nop]).  It makes [k] rounds, at most the requested number; fewer
    only when the PC sits on an active breakpoint (and the hit flag says so) or the
    CPU halted.  A round is an instruction, or a taken branch together with its
    delay slot, so the [n] instructions executed are at least the returned number,
    save for a last round that only halts, and more when branches were taken.  The
    CPU stays well formed: 32-bit registers, $0 still zero, a valid pending load. *)
Theorem interp_step_contract (count : Z) (s : State W) :
  wf s -> 0 <= count < 0x100000000 ->
  exists k n s1 s', (forall fuel, BRANCH_DEPTH <= Z.of_nat fuel -> interp_step fuel count s = Some (k, s')) /\
    Rounds k n (s <| s_hit_bp := 0 |>) s1 /\ stopped count k s1 s' /\ wf s' /\
    0 <= k <= count /\ k - 1 <= n /\ (s_halted s' = 0 -> k <= n).
Proof.
  intros Hw Hc. assert (wf (s <| s_hit_bp := 0 |>)) as Hw0 by (destruct Hw; by constructor).
  destruct (step_loop_total (Z.to_nat count) 0 0 _ _ Hw0 (rounds_none _)) as (k & n & s1 & s' & E & HR & Hs & Hw1); [by left|lia|].
  rewrite Z2Nat.id, Z.add_0_l in Hs by lia. destruct (rounds_count _ _ _ _ HR) as (Hk & _ & Hn & Hh).
  exists k, n, s1, s'. split; [exact E|]. split; [exact HR|]. split; [exact Hs|].
  destruct Hs as [(-> & ->)|[(Hlt & _ & ->)|(Hle & _ & ->)]]; (split; [first [exact Hw1|destruct Hw1; by constructor]|]); (split; [lia|]); by split.
Qed.

End Properties.

Lemma syscall_break_epc_witness :
  let s := cpu_at 0x80010000 (fun a => if a =? 0x80010000 then 0x0C else 0) in
  exists s', exec_one 1 s = Some s' /\ c0 s' 14 = 0x80010004 /\ c0 s' 14 <> pc s.
Proof.
  intros s.
  destruct (syscall_break_epc 0 s 0x0C) as (s' & E & H & Hn & _);
    [apply cpu_at_wf; by unfold is_u32|done|done|reflexivity|reflexivity|by left|].
  exists s'. split; [exact E|]. split; [exact H|exact Hn].
Defined.

Lemma muldiv_correct_witness :
  exists l h, muldiv 0x1A 0x80000000 0xFFFFFFFF (cpu_at 4 (fun _ => 0)) = Some (l, h) /\
    u32 (s32 0xFFFFFFFF * s32 l + s32 h) = 0x80000000.
Proof.
  destruct (muldiv_correct 0x1A 0x80000000 0xFFFFFFFF (cpu_at 4 (fun _ => 0)))
    as (l & h & E & _ & _ & _ & _ & H & _); [by unfold is_u32|by unfold is_u32|by vm_compute|].
  exists l, h. split; [exact E|]. by apply H.
Defined.

(** A loop at 0x80010000: ADDIU $3,$3,1; J 0x80010000; NOP. *)
Definition loop_code (a : Z) : Z :=
  if a =? 0x80010000 then 0x01 else if a =? 0x80010002 then 0x63
  else if a =? 0x80010003 then 0x24
  else if a =? 0x80010004 then 0x00 else if a =? 0x80010005 then 0x40
  else if a =? 0x80010007 then 0x08 else 0.

(** The flat memory below KSEG2, nothing above. *)
Record Bus := bus { below : Z -> Z }.

Definition below_read (n : Z) (b : Bus) (f : (Z -> Z) -> Z) : Z := if 0xC0000000 <=? n then 0 else f (below b).

#[export] Instance BusMachine : Machine Bus := {
  read_word a b := (below_read a b (fun w => flat_word w a), b);
  read_half a b := (below_read a b (fun w => w a mod 0x100 + 0x100 * (w (a + 1) mod 0x100)), b);
  read_byte a b := (below_read a b (fun w => w a mod 0x100), b);
  write_word a v b := bus (flat_write 4 a v (below b));
  write_half a v b := bus (flat_write 2 a v (below b));
  write_byte a v b := bus (flat_write 1 a v (below b));
  gte_read_data _ b := (0, b);
  gte_read_ctrl _ b := (0, b);
  gte_write_data _ _ b := b;
  gte_write_ctrl _ _ b := b;
  gte_execute _ b := b;
  i_stat _ := 0;
  i_mask _ := 0;
  irq_raise _ b := b;
  sio_tick _ b := b;
  gpu_vblank_tick b := b;
  timers_tick _ b := b;
  cdrom_tick b := b;
}.

#[export] Instance BusMachineOk : MachineOk Bus.
Proof.
  split; intros; cbn; unfold below_read, is_u32, is_u16, is_u8, flat_word; repeat case_if; try lia; dlia.
Qed.

#[export] Instance BusKseg2 : Kseg2Zero (W:=Bus).
Proof. intros a w Ha _. cbn. unfold below_read. case_if; [done|lia]. Qed.

(** The loop, traced. *)
Definition traced : State Bus :=
  mkState (replicate 32 0) 0x80010000 0 0 (replicate 32 0) (bus loop_code) 0 0 1 0 (replicate 64 0) 0 ∅ 0 0 0 0.

(** A step request of 7 returns 7 and executes 10 instructions: three of the rounds
    are jumps with their delay slots. *)
Lemma interp_step_contract_witness :
  exists k n s1 s', interp_step 2 7 traced = Some (k, s') /\ Rounds k n (traced <| s_hit_bp := 0 |>) s1 /\
    stopped 7 k s1 s' /\ wf s' /\ k = 7 /\ k <= n /\ reg s' 3 = 4 /\ interp_trace_count s' = 10.
Proof.
  assert (wf traced) as Hw.
  { constructor; cbn; unfold is_u32, MAX_BREAKPOINTS in *; try lia; try done;
    (split; [done|]; repeat constructor; lia). }
  destruct (interp_step_contract 7 traced Hw) as (k & n & s1 & s' & E & HR & Hs & Hw' & _ & _ & Hn); [lia|].
  assert (exists s2, interp_step 2 7 traced = Some (7, s2) /\ reg s2 3 = 4 /\ interp_trace_count s2 = 10 /\ s_halted s2 = 0)
    as (s2 & E2 & R2 & T2 & H2) by (eexists; split; [vm_compute; reflexivity|]; by vm_compute).
  assert (Some (k, s') = Some (7, s2)) as [= -> ->].
  { rewrite <- (E (Z.to_nat BRANCH_DEPTH)) by (rewrite Z2Nat.id; done). apply (interp_step_mono 2); [|exact E2].
    apply Nat2Z.inj_le. by rewrite Z2Nat.id. }
  exists 7, n, s1, s2. specialize (Hn H2). split_and!; assumption || reflexivity.
Defined.

Lemma load_delay_invisible_witness :
  let w := fun a => if a =? 0x80010000 then 0x10 else if a =? 0x80010002 then 3
                    else if a =? 0x80010003 then 0x8C else if a =? 0x10 then 0x2A else 0 in
  let s := cpu_at 0x80010000 w in
  exists s', exec_one 1 s = Some s' /\ s_load_reg s' = 3 /\
    reg (snd (exec_fetch s')) 3 = 0x2A.
Proof.
  intros w s.
  destruct (load_delay_invisible 0 s 0x8C030010) as (s' & E & L & _ & H);
    [apply cpu_at_wf; by unfold is_u32|done|done|reflexivity|reflexivity|done|].
  exists s'. split; [exact E|]. split; [exact L|exact H].
Defined.

Lemma exec_one_terminates_witness :
  exists s', exec_one 2 (cpu_at 0x80010004 loop_code) = Some s'.
Proof.
  apply (exec_one_terminates (cpu_at 0x80010004 loop_code)); [reflexivity|].
  intros insn target s2 -> E. vm_compute in E. injection E as <- <-. split; reflexivity.
Defined.

End Interp.
