(* ===== verification/DmaController.v ===== *)
(** * DMA controller (src/runtime/src/dma.c)

    [State] holds the statics of the file.  What a transfer reaches (guest RAM
    and the device ports) is the interface [Sinks] over a state [W]; I_STAT is
    kept here because only the raises of the file change it during its
    operations.  [psx_fatal_halt] does not return, so the operations that can
    reach it give an option. *)

From S2P Require Import Prelude Bus Rings.

Module Dma.
Import Rings.

(** The snapshot fields of the CD-ROM the history records. *)
Record CdSnap := mkCdSnap {
  cd_last_sector_lba : Z; cd_sector_size : Z; cd_last_sector_size : Z; cd_sector_read_pos : Z;
  cd_last_sector_mode : Z; cd_mode_reg : Z; cd_sector_available : bool
}.

(** Guest RAM and the device ports. *)
Class Sinks (W : Type) := {
  psx_read_word : Z -> W -> Z;
  psx_write_word : Z -> Z -> W -> W;
  mdec_dma_write_ready : W -> bool;
  mdec_dma_read_ready : W -> bool;
  mdec_dma_write_word : Z -> W -> W;
  mdec_dma_read_word : W -> Z * W;
  mdec_debug : Z -> Z -> Z -> W -> W;    (* event (0..3), address, words *)
  gpu_read_gpuread : W -> Z * W;
  gpu_write_gp0 : Z -> Z -> W -> W;      (* source address, word *)
  spu_dma_write : Z -> W -> W;
  cdrom_dma_ready : W -> bool;
  cdrom_dma_read : W -> Z * W;
  cdrom_dma_sector_word_count : W -> Z;
  cdrom_get_setloc_lba : W -> Z;
  cdrom_debug_snapshot : W -> CdSnap;
  dirty_ram_mark : Z -> Z -> W -> W;
  overlay_capture : Z -> Z -> W -> W;
}.

(** Debug globals the trace records: frame counter, current function, last
    store PC. *)
Record Env := mkEnv { s_frame_count : Z; cur_func : Z; store_pc : Z }.

Record DMAChannel := mkChannel { madr : Z; bcr : Z; chcr : Z }.
#[export] Instance eta_DMAChannel : Eta DMAChannel := fun r => mkChannel (madr r) (bcr r) (chcr r).

Record DMAAsyncChannel := mkAsync {
  a_active : bool; a_debug_started : bool; a_total_words : Z; a_remaining_words : Z;
  a_cycles_accum : Z; a_start_addr : Z
}.
#[export] Instance eta_DMAAsyncChannel : Eta DMAAsyncChannel := fun r =>
  mkAsync (a_active r) (a_debug_started r) (a_total_words r) (a_remaining_words r)
    (a_cycles_accum r) (a_start_addr r).

Record DMADelayedComplete := mkDelayed {
  d_active : bool; d_total_words : Z; d_cycles_remaining : Z
}.

Record CdDmaEntry := mkCdDma { cde_lba : Z; cde_dest : Z; cde_size : Z }.

Record DMATraceEntry := mkTrace {
  tr_seq : Z; tr_frame : Z; tr_kind : Z; tr_channel : Z; tr_total_words : Z; tr_addr : Z;
  tr_val : Z; tr_mask : Z; tr_madr : Z; tr_bcr : Z; tr_chcr : Z; tr_dpcr : Z;
  tr_dicr_before : Z; tr_dicr_after : Z; tr_i_stat_before : Z; tr_i_stat_after : Z;
  tr_func : Z; tr_pc : Z
}.

#[projections(primitive)] Record DMACDROMHistoryEntry := mkHist {
  h_seq : Z; h_frame_start : Z; h_frame_end : Z; h_start_addr : Z; h_final_addr : Z;
  h_requested_words : Z; h_moved_words : Z; h_bcr : Z; h_chcr : Z; h_dpcr : Z; h_dicr_start : Z;
  h_dicr_end : Z; h_i_stat_start : Z; h_i_stat_end : Z; h_func : Z; h_pc : Z; h_lba : Z;
  h_sector_size : Z; h_sector_read_pos_start : Z; h_sector_read_pos_end : Z; h_mode : Z;
  h_sector_available_start : bool; h_sector_available_end : bool; h_completed : bool;
  h_first_words : list Z; h_last_words : list Z
}.
#[export] Instance eta_Hist : Eta DMACDROMHistoryEntry := fun r =>
  mkHist (h_seq r) (h_frame_start r) (h_frame_end r) (h_start_addr r) (h_final_addr r)
    (h_requested_words r) (h_moved_words r) (h_bcr r) (h_chcr r) (h_dpcr r) (h_dicr_start r)
    (h_dicr_end r) (h_i_stat_start r) (h_i_stat_end r) (h_func r) (h_pc r) (h_lba r)
    (h_sector_size r) (h_sector_read_pos_start r) (h_sector_read_pos_end r) (h_mode r)
    (h_sector_available_start r) (h_sector_available_end r) (h_completed r)
    (h_first_words r) (h_last_words r).
Definition hist_zero : DMACDROMHistoryEntry :=
  mkHist 0 0 0 0 0 0 0 0 0 0 0 0 0 0 0 0 0 0 0 0 0 false false false [] [].

#[projections(primitive)] Record State (W : Type) := mkState {
  channels : list DMAChannel;
  mdec_async : list DMAAsyncChannel;
  cdrom_async : DMAAsyncChannel;
  delayed_complete : list DMADelayedComplete;
  dpcr : Z;
  dicr : Z;
  cd_dma_log : gmap Z CdDmaEntry;
  cd_dma_log_head : Z;
  cd_dma_log_total : Z;
  g_dma_exec_depth : Z;
  g_dma_cur_ch : Z;
  g_dma_cur_madr : Z;
  g_dma_cur_bcr : Z;
  g_dma_initiator_pc : Z;
  s_dma_ch_initiator_pc : list Z;
  dma_trace : Ring DMATraceEntry;
  cdrom_dma_history : gmap Z DMACDROMHistoryEntry;
  cdrom_dma_history_seq : Z;
  cdrom_dma_active_entry : DMACDROMHistoryEntry;
  cdrom_dma_history_active : bool;
  g_io_openbus_reads : Z;
  g_io_openbus_writes : Z;
  i_stat : Z;
  log : list Ev;
  world : W;
}.
Arguments mkState {W}.
Arguments channels {W} s.
Arguments mdec_async {W} s.
Arguments cdrom_async {W} s.
Arguments delayed_complete {W} s.
Arguments dpcr {W} s.
Arguments dicr {W} s.
Arguments cd_dma_log {W} s.
Arguments cd_dma_log_head {W} s.
Arguments cd_dma_log_total {W} s.
Arguments g_dma_exec_depth {W} s.
Arguments g_dma_cur_ch {W} s.
Arguments g_dma_cur_madr {W} s.
Arguments g_dma_cur_bcr {W} s.
Arguments g_dma_initiator_pc {W} s.
Arguments s_dma_ch_initiator_pc {W} s.
Arguments dma_trace {W} s.
Arguments cdrom_dma_history {W} s.
Arguments cdrom_dma_history_seq {W} s.
Arguments cdrom_dma_active_entry {W} s.
Arguments cdrom_dma_history_active {W} s.
Arguments g_io_openbus_reads {W} s.
Arguments g_io_openbus_writes {W} s.
Arguments i_stat {W} s.
Arguments log {W} s.
Arguments world {W} s.
#[export] Instance eta_State W : Eta (State W) := fun r =>
  mkState (channels r) (mdec_async r) (cdrom_async r) (delayed_complete r) (dpcr r) (dicr r)
    (cd_dma_log r) (cd_dma_log_head r) (cd_dma_log_total r) (g_dma_exec_depth r) (g_dma_cur_ch r)
    (g_dma_cur_madr r) (g_dma_cur_bcr r) (g_dma_initiator_pc r) (s_dma_ch_initiator_pc r)
    (dma_trace r) (cdrom_dma_history r) (cdrom_dma_history_seq r) (cdrom_dma_active_entry r)
    (cdrom_dma_history_active r) (g_io_openbus_reads r) (g_io_openbus_writes r) (i_stat r)
    (log r) (world r).

Definition CD_DMA_LOG_CAP := 65536.
Definition DMA_MDEC_IN_CYCLES_PER_WORD := 1.
Definition DMA_MDEC_OUT_CYCLES_PER_WORD := 14.
Definition DMA_GPU_CYCLES_PER_WORD := 1.
Definition DMA_CDROM_CYCLES_PER_WORD := 1.
Definition DMA_SPU_CYCLES_PER_WORD := 48.
Definition DICR_WRITE_MASK := 0x00FF807F.
Definition DICR_RESET_MASK := 0x7F000000.
Definition DMA_TRACE_CAP := 0x4000.
Definition DMA_CDROM_HISTORY_CAP := 0x2000.
Definition DMA_CDROM_HISTORY_WORDS := 16.
Definition DMA_MAX_TRANSFER_WORDS := 0x80000.
Definition MAX_NODES := 0x40000.
Definition UINT32_MAX := 0xFFFFFFFF.

Definition channel_zero : DMAChannel := mkChannel 0 0 0.
Definition async_zero : DMAAsyncChannel := mkAsync false false 0 0 0 0.
Definition delayed_zero : DMADelayedComplete := mkDelayed false 0 0.

(** Bit [i] of a register, as C's [(v >> i) & 1]. *)
Definition bit (v i : Z) : bool := Z.testbit v i.

(** RAM address of a transfer: [& 0x1FFFFC]. *)
Definition ram_addr (a : Z) : Z := Z.land a 0x1FFFFC.

Section Controller.
Context {W : Type} {S : Sinks W}.
Abbreviation St := (State W).

Definition chan (s : St) (ch : Z) : DMAChannel := nth (Z.to_nat ch) (channels s) channel_zero.
Definition set_chan (ch : Z) (c : DMAChannel) (s : St) : St :=
  s <| channels := <[Z.to_nat ch := c]> (channels s) |>.
Definition set_madr (ch a : Z) (s : St) : St := set_chan ch ((chan s ch) <| madr := a |>) s.
Definition set_chcr (ch v : Z) (s : St) : St := set_chan ch ((chan s ch) <| chcr := v |>) s.
Definition masync (s : St) (ch : Z) : DMAAsyncChannel := nth (Z.to_nat ch) (mdec_async s) async_zero.
Definition set_masync (ch : Z) (a : DMAAsyncChannel) (s : St) : St :=
  s <| mdec_async := <[Z.to_nat ch := a]> (mdec_async s) |>.
Definition delayed (s : St) (ch : Z) : DMADelayedComplete :=
  nth (Z.to_nat ch) (delayed_complete s) delayed_zero.
Definition set_delayed (ch : Z) (d : DMADelayedComplete) (s : St) : St :=
  s <| delayed_complete := <[Z.to_nat ch := d]> (delayed_complete s) |>.

(** *** Calls out of the file *)

Definition irq_raise (b detail : Z) (s : St) : St :=
  s <| i_stat := psx_irq_raise (i_stat s) b |> <| log := log s ++ [IrqRaise b detail] |>.
Definition ring_record (kind detail aux : Z) (s : St) : St :=
  s <| log := log s ++ [RingRec kind (u8 detail) aux] |>.
Definition with_world (f : W -> W) (s : St) : St := s <| world := f (world s) |>.

(** *** The CD transfer log *)

Definition cd_dma_log_push (lba dest size : Z) (s : St) : St :=
  s <| cd_dma_log := <[cd_dma_log_head s mod CD_DMA_LOG_CAP := mkCdDma lba dest size]> (cd_dma_log s) |>
    <| cd_dma_log_head := u32 (cd_dma_log_head s + 1) mod CD_DMA_LOG_CAP |>
    <| cd_dma_log_total := u32 (cd_dma_log_total s + 1) |>.

Definition cd_dma_log_get_total (s : St) : Z := cd_dma_log_total s.

(** [None] is the C function's lba of -1. *)
Definition cd_dma_log_get_entry (idx : Z) (s : St) : option CdDmaEntry :=
  let cap := CD_DMA_LOG_CAP in
  let oldest := if cap <? cd_dma_log_total s then cd_dma_log_total s - cap else 0 in
  if (idx <? oldest) || (cd_dma_log_total s <=? idx) then None
  else Some (default (mkCdDma 0 0 0) (cd_dma_log s !! (idx mod cap))).

(** *** DICR *)

Definition dicr_master_flag (v : Z) : Z :=
  if has v (Z.shiftl 1 15) || (has v (Z.shiftl 1 23) && has v DICR_RESET_MASK)
  then Z.shiftl 1 31 else 0.

Definition dicr_read_value (v : Z) : Z := Z.lor (Z.ldiff v (Z.shiftl 1 31)) (dicr_master_flag v).

Definition raise_dma_irq_on_master_edge (before : Z) (s : St) : St :=
  if (dicr_master_flag before =? 0) && negb (dicr_master_flag (dicr s) =? 0)
  then irq_raise 3 (Z.land (Z.shiftr (dicr s) 24) 0x7F) s else s.

(** *** Trace *)

Definition trace_dma (e : Env) (kind ch total_words dicr_before i_stat_before : Z) (s : St) : St :=
  let reg f := if (0 <=? ch) && (ch <? 7) then f (chan s ch) else 0 in
  s <| dma_trace := ring_push DMA_TRACE_CAP
    (mkTrace (seq (dma_trace s)) (u32 (s_frame_count e)) kind (u32 ch) total_words 0 0 0
       (reg madr) (reg bcr) (reg chcr) (dpcr s) (dicr_read_value dicr_before)
       (dicr_read_value (dicr s)) i_stat_before (i_stat s) (cur_func e) (store_pc e))
    (dma_trace s) |>.

Definition trace_dma_reg_write (e : Env) (addr val mask dicr_before i_stat_before : Z) (s : St) : St :=
  s <| dma_trace := ring_push DMA_TRACE_CAP
    (mkTrace (seq (dma_trace s)) (u32 (s_frame_count e)) 87 0xFFFFFFFF 0 addr val mask
       0 0 0 (dpcr s) (dicr_read_value dicr_before)
       (dicr_read_value (dicr s)) i_stat_before (i_stat s) (cur_func e) (store_pc e))
    (dma_trace s) |>.

(** *** CD transfer capture *)

Definition start_cdrom_dma_capture (e : Env) (requested_words : Z) (s : St) : St :=
  let c := cdrom_debug_snapshot (world s) in
  let start := ram_addr (madr (chan s 3)) in
  let h := hist_zero
    <| h_seq := cdrom_dma_history_seq s |>
    <| h_frame_start := u32 (s_frame_count e) |>
    <| h_start_addr := start |> <| h_final_addr := start |>
    <| h_requested_words := requested_words |>
    <| h_bcr := bcr (chan s 3) |> <| h_chcr := chcr (chan s 3) |> <| h_dpcr := dpcr s |>
    <| h_dicr_start := dicr_read_value (dicr s) |> <| h_i_stat_start := i_stat s |>
    <| h_func := cur_func e |> <| h_pc := store_pc e |>
    <| h_lba := cd_last_sector_lba c |>
    <| h_sector_size := if 0 <? cd_sector_size c then cd_sector_size c else cd_last_sector_size c |>
    <| h_sector_read_pos_start := cd_sector_read_pos c |>
    <| h_mode := if negb (cd_last_sector_mode c =? 0) then cd_last_sector_mode c else cd_mode_reg c |>
    <| h_sector_available_start := cd_sector_available c |> in
  s <| cdrom_dma_active_entry := h |>
    <| cdrom_dma_history_seq := u64 (cdrom_dma_history_seq s + 1) |>
    <| cdrom_dma_history_active := true |>.

Definition record_cdrom_dma_word (word : Z) (s : St) : St :=
  if negb (cdrom_dma_history_active s) then s else
  let h := cdrom_dma_active_entry s in
  let h := if Z.of_nat (length (h_first_words h)) <? DMA_CDROM_HISTORY_WORDS
           then h <| h_first_words := h_first_words h ++ [word] |> else h in
  let h := if Z.of_nat (length (h_last_words h)) <? DMA_CDROM_HISTORY_WORDS
           then h <| h_last_words := h_last_words h ++ [word] |>
           else h <| h_last_words := drop 1 (h_last_words h) ++ [word] |> in
  s <| cdrom_dma_active_entry := h <| h_moved_words := u32 (h_moved_words h + 1) |> |>.

Definition finish_cdrom_dma_capture (e : Env) (final_addr : Z) (completed : bool) (s : St) : St :=
  if negb (cdrom_dma_history_active s) then s else
  let c := cdrom_debug_snapshot (world s) in
  let h := (cdrom_dma_active_entry s)
    <| h_frame_end := u32 (s_frame_count e) |> <| h_final_addr := ram_addr final_addr |>
    <| h_dicr_end := dicr_read_value (dicr s) |> <| h_i_stat_end := i_stat s |>
    <| h_sector_read_pos_end := cd_sector_read_pos c |>
    <| h_sector_available_end := cd_sector_available c |> <| h_completed := completed |> in
  s <| cdrom_dma_active_entry := h |>
    <| cdrom_dma_history := <[h_seq h mod DMA_CDROM_HISTORY_CAP := h]> (cdrom_dma_history s) |>
    <| cdrom_dma_history_active := false |>.

(** *** Channel predicates *)

Definition channel_enabled (ch : Z) (s : St) : bool := bit (dpcr s) (ch * 4 + 3).

Definition channel_irq_flag_armed (ch : Z) (s : St) : bool :=
  bit (dicr s) (16 + ch) && bit (dicr s) 23.

Definition transfer_word_count (ch : Z) (s : St) : Z :=
  let c := chan s ch in
  let sync_mode := Z.land (Z.shiftr (chcr c) 9) 3 in
  let block_size := Z.land (bcr c) 0xFFFF in
  let block_count := Z.land (Z.shiftr (bcr c) 16) 0xFFFF in
  if (ch =? 3) && (block_size =? 0) then cdrom_dma_sector_word_count (world s) else
  if sync_mode =? 1 then
    let block_size := if block_size =? 0 then 0x10000 else block_size in
    let block_count := if block_count =? 0 then 1 else block_count in
    u32 (block_size * block_count)
  else if block_size =? 0 then 0x10000 else block_size.

(** False is the call of [psx_fatal_halt]. *)
Definition validate_transfer_length (ch : Z) (s : St) : bool :=
  let sync_mode := Z.land (Z.shiftr (chcr (chan s ch)) 9) 3 in
  if (ch =? 2) && (sync_mode =? 2) then true else
  transfer_word_count ch s <=? DMA_MAX_TRANSFER_WORDS.

(** The two busy bits of CHCR. *)
Definition BUSY_BITS := Z.lor (Z.shiftl 1 24) (Z.shiftl 1 28).

Definition complete_transfer (e : Env) (ch : Z) (s : St) : St :=
  let dicr_before := dicr s in
  let i_stat_before := i_stat s in
  let s := set_chcr ch (Z.ldiff (chcr (chan s ch)) BUSY_BITS) s in
  let s := if channel_irq_flag_armed ch s then
             raise_dma_irq_on_master_edge dicr_before
               (s <| dicr := Z.lor (dicr s) (Z.shiftl 1 (24 + ch)) |>)
           else s in
  let s := trace_dma e 67 ch 0 dicr_before i_stat_before s in
  let s := ring_record EV_DMA_DONE ch (chcr (chan s ch)) s in
  ring_record EV_DEQ (SRC_DMA0 + ch) (chcr (chan s ch)) s.

Definition async_cancelled (a : DMAAsyncChannel) : DMAAsyncChannel :=
  a <| a_active := false |> <| a_debug_started := false |> <| a_total_words := 0 |>
    <| a_remaining_words := 0 |> <| a_cycles_accum := 0 |>.

Definition cancel_async_transfer (e : Env) (ch : Z) (s : St) : St :=
  let s := if (0 <=? ch) && (ch <? 2) then set_masync ch (async_cancelled (masync s ch)) s else s in
  let s := if ch =? 3 then
             let s := finish_cdrom_dma_capture e (ram_addr (madr (chan s 3))) false s in
             s <| cdrom_async := async_cancelled (cdrom_async s) |>
           else s in
  if (0 <=? ch) && (ch <? 7) then set_delayed ch delayed_zero s else s.

Definition schedule_delayed_complete (e : Env) (ch total_words cycles_per_word : Z) (s : St) : St :=
  if (total_words =? 0) || (cycles_per_word =? 0) then complete_transfer e ch s else
  let cycles := u64 (total_words * cycles_per_word) in
  let cycles := if UINT32_MAX <? cycles then UINT32_MAX else cycles in
  let s := set_delayed ch (mkDelayed true total_words cycles) s in
  ring_record EV_DMA_SCHED ch (chcr (chan s ch)) s.

Definition advance_delayed_complete (e : Env) (ch cycles : Z) (s : St) : St :=
  let d := delayed s ch in
  if negb (d_active d) then s else
  if cycles <? d_cycles_remaining d then
    set_delayed ch (mkDelayed true (d_total_words d) (d_cycles_remaining d - cycles)) s
  else complete_transfer e ch (set_delayed ch delayed_zero s).

(** *** MDEC channels *)

Definition start_async_mdec_transfer (ch : Z) (s : St) : St :=
  let a := masync s ch in
  if a_active a then s else
  let n := transfer_word_count ch s in
  let s := set_masync ch (mkAsync true false n n 0 (a_start_addr a)) s in
  let s := with_world (mdec_debug (if ch =? 0 then 0 else 2) (ram_addr (madr (chan s ch))) n) s in
  set_masync ch ((masync s ch) <| a_debug_started := true |>) s.

Definition finish_async_mdec_transfer (e : Env) (ch final_addr total_words : Z) (s : St) : St :=
  let s := with_world (mdec_debug (if ch =? 0 then 1 else 3) final_addr total_words) s in
  complete_transfer e ch (cancel_async_transfer e ch s).

(** *** CD-ROM channel *)

Definition start_async_cdrom_transfer (e : Env) (s : St) : St :=
  if a_active (cdrom_async s) then s else
  let n := transfer_word_count 3 s in
  let s := s <| cdrom_async := mkAsync true false n n 0 (ram_addr (madr (chan s 3))) |> in
  let s := start_cdrom_dma_capture e n s in
  if n =? 0 then
    let s := finish_cdrom_dma_capture e (ram_addr (madr (chan s 3))) true s in
    complete_transfer e 3 (cancel_async_transfer e 3 s)
  else s.

Definition finish_async_cdrom_transfer (e : Env) (final_addr : Z) (s : St) : St :=
  let s := finish_cdrom_dma_capture e final_addr true s in
  let a := cdrom_async s in
  let step := bit (chcr (chan s 3)) 1 in
  let load_start := a_start_addr a in
  let size := u32 (a_total_words a * 4) in
  let s :=
    if negb step && (0 <? size) && (load_start <? 0x1C0000) then
      let size := if u32 (0x200000 - load_start) <? size then u32 (0x200000 - load_start) else size in
      let lba := cdrom_get_setloc_lba (world s) in
      let s := if 0 <=? lba then cd_dma_log_push lba load_start size s else s in
      with_world (overlay_capture load_start size) s
    else s in
  let s := set_madr 3 final_addr s in
  complete_transfer e 3 (cancel_async_transfer e 3 s).

(** [+4] or [-4], masked to RAM. *)
Definition next_addr (addr : Z) (step : bool) : Z :=
  ram_addr (u32 (addr + (if step then -4 else 4))).

(** Saturating accumulation of cycles. *)
Definition accumulate (cycles accum : Z) : Z :=
  if UINT32_MAX - accum <? cycles then UINT32_MAX else accum + cycles.

(** The variables of the MDEC word loop; [ml_stop] is its [break]. *)
Record MdecLoop := mkMl { ml_addr : Z; ml_budget : Z; ml_moved : Z; ml_stop : bool; ml_state : St }.

Definition mdec_word (ch : Z) (step : bool) (x : MdecLoop) : MdecLoop :=
  let s := ml_state x in
  let a := ml_addr x in
  let ready := if ch =? 0 then mdec_dma_write_ready (world s) else mdec_dma_read_ready (world s) in
  if negb ready then mkMl a (ml_budget x) (ml_moved x) true s else
  let s :=
    if ch =? 0 then with_world (fun w => mdec_dma_write_word (psx_read_word a w) w) s
    else
      let s := s <| g_dma_cur_madr := a |> in
      with_world (fun w => let '(v, w) := mdec_dma_read_word w in psx_write_word a v w) s in
  let m := masync s ch in
  let s := set_masync ch (m <| a_remaining_words := u32 (a_remaining_words m - 1) |>) s in
  mkMl (next_addr a step) (ml_budget x - 1) (u32 (ml_moved x + 1)) false s.

Definition mdec_guard (ch : Z) (x : MdecLoop) : bool :=
  negb (ml_stop x) && (0 <? a_remaining_words (masync (ml_state x) ch)) && (0 <? ml_budget x).

Definition advance_mdec_channel (e : Env) (ch cycles : Z) (s : St) : St :=
  if negb (a_active (masync s ch)) then s else
  if negb (bit (chcr (chan s ch)) 24) || negb (channel_enabled ch s) then s else
  let direction := bit (chcr (chan s ch)) 0 in
  let step := bit (chcr (chan s ch)) 1 in
  let cycles_per_word := if ch =? 0 then DMA_MDEC_IN_CYCLES_PER_WORD
                         else DMA_MDEC_OUT_CYCLES_PER_WORD in
  if ((ch =? 0) && negb direction) || ((ch =? 1) && direction) then
    finish_async_mdec_transfer e ch (ram_addr (madr (chan s ch))) (a_total_words (masync s ch)) s
  else
  if negb (if ch =? 0 then mdec_dma_write_ready (world s) else mdec_dma_read_ready (world s)) then s
  else
  let a := masync s ch in
  let s := set_masync ch (a <| a_cycles_accum := accumulate cycles (a_cycles_accum a) |>) s in
  let words_budget := a_cycles_accum (masync s ch) / cycles_per_word in
  if words_budget =? 0 then s else
  let addr := ram_addr (madr (chan s ch)) in
  let s := if ch =? 1 then
             s <| g_dma_exec_depth := g_dma_exec_depth s + 1 |> <| g_dma_cur_ch := 1 |>
               <| g_dma_cur_bcr := bcr (chan s 1) |>
               <| g_dma_initiator_pc := aget (s_dma_ch_initiator_pc s) 1 |>
           else s in
  let x := pwhile (Z.to_pos words_budget) (mdec_guard ch) (mdec_word ch step)
             (mkMl addr words_budget 0 false s) in
  let s := ml_state x in
  let s := if ch =? 1 then
             s <| g_dma_cur_ch := -1 |> <| g_dma_exec_depth := g_dma_exec_depth s - 1 |>
           else s in
  if ml_moved x =? 0 then s else
  let a := masync s ch in
  let s := set_masync ch (a <| a_cycles_accum := u32 (a_cycles_accum a - ml_moved x * cycles_per_word) |>) s in
  let s := set_madr ch (ml_addr x) s in
  if a_remaining_words (masync s ch) =? 0
  then finish_async_mdec_transfer e ch (ml_addr x) (a_total_words (masync s ch)) s else s.

(** *** Immediate transfers *)

(** A loop over [n] words of RAM from [addr]: each round gets the address. *)
Definition word_loop (n addr : Z) (step : bool) (f : Z -> St -> St) (s : St) : Z * St :=
  forZ 0 n (fun _ '(a, s) => (next_addr a step, f a s)) (addr, s).

Definition gp0_word (a : Z) (s : St) : St :=
  with_world (fun w => gpu_write_gp0 a (psx_read_word a w) w) s.

(** One node of the linked list: its words go to GP0. *)
Definition list_node (addr : Z) (s : St) : Z * Z * St :=
  let header := psx_read_word addr (world s) in
  let num_words := Z.land (Z.shiftr header 24) 0xFF in
  let '(_, s) := word_loop num_words (ram_addr (u32 (addr + 4))) false gp0_word s in
  (header, num_words, s).

(** The walk: [l_done] is one of its two [break]s taken. *)
Record ListWalk := mkWalk { l_addr : Z; l_safety : Z; l_words : Z; l_done : bool; l_state : St }.

Definition list_round (x : ListWalk) : ListWalk :=
  if MAX_NODES <? l_safety x then
    mkWalk (l_addr x) (u32 (l_safety x + 1)) (l_words x) true (l_state x)
  else
  let safety := u32 (l_safety x + 1) in
  let '(header, num_words, s) := list_node (l_addr x) (l_state x) in
  let words := u32 (l_words x + 1 + num_words) in
  let next := Z.land header 0xFFFFFF in
  if next =? 0xFFFFFF then mkWalk (l_addr x) safety words true (set_madr 2 0x00FFFFFF s)
  else mkWalk (ram_addr next) safety words false s.

Definition list_walk (addr : Z) (s : St) : ListWalk :=
  pwhile (Z.to_pos (MAX_NODES + 2)) (fun x => negb (l_done x)) list_round (mkWalk addr 0 0 false s).

Definition execute_ch2_gpu (s : St) : Z * St :=
  let c := chan s 2 in
  let direction := bit (chcr c) 0 in
  let step := bit (chcr c) 1 in
  let sync_mode := Z.land (Z.shiftr (chcr c) 9) 3 in
  let block_words := u32 (Z.land (bcr c) 0xFFFF * Z.land (Z.shiftr (bcr c) 16) 0xFFFF) in
  let addr := ram_addr (madr c) in
  if negb direction then
    if sync_mode =? 1 then
      let '(addr, s) := word_loop block_words addr step
        (fun a => with_world (fun w => let '(v, w) := gpu_read_gpuread w in psx_write_word a v w)) s in
      (block_words, set_madr 2 addr s)
    else (0, s)
  else if sync_mode =? 1 then
    let '(addr, s) := word_loop block_words addr step gp0_word s in
    (block_words, set_madr 2 addr s)
  else if sync_mode =? 2 then
    let x := list_walk addr s in
    (l_words x, if MAX_NODES <? l_safety x then set_madr 2 (l_addr x) (l_state x) else l_state x)
  else
    let word_count := Z.land (bcr c) 0xFFFF in
    let word_count := if word_count =? 0 then 0x10000 else word_count in
    let '(addr, s) := word_loop word_count addr step gp0_word s in
    (word_count, set_madr 2 addr s).

Definition execute_ch3_cdrom (e : Env) (s : St) : St :=
  if bit (chcr (chan s 3)) 0 then set_chcr 3 (Z.ldiff (chcr (chan s 3)) BUSY_BITS) s
  else start_async_cdrom_transfer e s.

Definition execute_ch4_spu (s : St) : Z * St :=
  let c := chan s 4 in
  let direction := bit (chcr c) 0 in
  let step := bit (chcr c) 1 in
  let total_words := transfer_word_count 4 s in
  let addr := ram_addr (madr c) in
  let '(addr, s) :=
    if direction then
      word_loop total_words addr step (fun a => with_world (fun w => spu_dma_write (psx_read_word a w) w)) s
    else word_loop total_words addr step (fun a => with_world (psx_write_word a 0)) s in
  (total_words, set_madr 4 addr s).

(** One entry of the ordering table. *)
Definition otc_word (num_entries i : Z) (x : Z * St) : Z * St :=
  let '(addr, s) := x in
  let val := if i =? num_entries - 1 then 0x00FFFFFF else Z.land (u32 (addr - 4)) 0x00FFFFFF in
  (ram_addr (u32 (addr - 4)), with_world (psx_write_word addr val) s).

Definition otc_entries (s : St) : Z :=
  let n := Z.land (bcr (chan s 6)) 0xFFFF in if n =? 0 then 0x10000 else n.

Definition execute_ch6_otc (e : Env) (s : St) : St :=
  let num_entries := otc_entries s in
  let addr := ram_addr (madr (chan s 6)) in
  let '(_, s) := forZ 0 num_entries (otc_word num_entries) (addr, s) in
  complete_transfer e 6 s.

Definition try_execute (e : Env) (ch : Z) (s : St) : option St :=
  if negb (bit (chcr (chan s ch)) 24) then Some s else
  if negb (channel_enabled ch s) then Some s else
  let s := set_chcr ch (Z.ldiff (chcr (chan s ch)) (Z.shiftl 1 28)) s in
  let s := trace_dma e 83 ch (transfer_word_count ch s) (dicr s) (i_stat s) s in
  let s := ring_record EV_DMA_KICK ch (chcr (chan s ch)) s in
  let s := ring_record EV_ENQ (SRC_DMA0 + ch) (transfer_word_count ch s) s in
  if negb (validate_transfer_length ch s) then None else
  let s := s <| s_dma_ch_initiator_pc := aset (s_dma_ch_initiator_pc s) ch (store_pc e) |>
             <| g_dma_initiator_pc := store_pc e |>
             <| g_dma_exec_depth := g_dma_exec_depth s + 1 |>
             <| g_dma_cur_ch := ch |> <| g_dma_cur_madr := madr (chan s ch) |>
             <| g_dma_cur_bcr := bcr (chan s ch) |> in
  let r :=
    if ch =? 0 then Some (start_async_mdec_transfer 0 s)
    else if ch =? 1 then Some (start_async_mdec_transfer 1 s)
    else if ch =? 2 then
      let '(n, s) := execute_ch2_gpu s in
      Some (schedule_delayed_complete e 2 n DMA_GPU_CYCLES_PER_WORD s)
    else if ch =? 3 then Some (execute_ch3_cdrom e s)
    else if ch =? 4 then
      let '(n, s) := execute_ch4_spu s in
      Some (schedule_delayed_complete e 4 n DMA_SPU_CYCLES_PER_WORD s)
    else if ch =? 6 then Some (execute_ch6_otc e s)
    else None in
  match r with
  | Some s => Some (s <| g_dma_exec_depth := g_dma_exec_depth s - 1 |> <| g_dma_cur_ch := -1 |>)
  | None => None
  end.

(** *** Public interface *)

Definition dma_get_dicr (s : St) : Z := dicr_read_value (dicr s).
Definition dma_get_dpcr (s : St) : Z := dpcr s.

Definition dma_cdrom_transfer_active (s : St) : bool :=
  a_active (cdrom_async s) && bit (chcr (chan s 3)) 24 && channel_enabled 3 s
  && negb (bit (chcr (chan s 3)) 0).

Definition async_estimate (a : DMAAsyncChannel) (best : Z) : Z :=
  if negb (a_active a) || (a_remaining_words a =? 0) then best else
  let est := if a_cycles_accum a <? a_remaining_words a
             then a_remaining_words a - a_cycles_accum a else 0 in
  if est <? best then est else best.

Definition delayed_estimate (d : DMADelayedComplete) (best : Z) : Z :=
  if d_active d && (d_cycles_remaining d <? best) then d_cycles_remaining d else best.

Definition dma_cycles_to_irq (i_mask : Z) (s : St) : Z :=
  if negb (has i_mask (Z.shiftl 1 3)) then 0xFFFFFFFF else
  let best := 0xFFFFFFFF in
  let best := async_estimate (masync s 0) best in
  let best := async_estimate (masync s 1) best in
  let best := async_estimate (cdrom_async s) best in
  forZ 0 7 (fun ch best => delayed_estimate (delayed s ch) best) best.

(** One word of the CD-ROM loop of [dma_advance]. *)
Definition cdrom_word (step : bool) (x : Z * Z * Z * St) : Z * Z * Z * St :=
  let '(addr, budget, moved, s) := x in
  let '(word, w) := cdrom_dma_read (world s) in
  let s := s <| world := w |> <| g_dma_cur_madr := addr |> in
  let s := with_world (psx_write_word addr word) s in
  let s := record_cdrom_dma_word word s in
  let s := with_world (dirty_ram_mark addr 4) s in
  let a := cdrom_async s in
  let s := s <| cdrom_async := a <| a_remaining_words := u32 (a_remaining_words a - 1) |> |> in
  (next_addr addr step, budget - 1, u32 (moved + 1), s).

Definition cdrom_guard (x : Z * Z * Z * St) : bool :=
  let '(addr, budget, moved, s) := x in
  (0 <? a_remaining_words (cdrom_async s)) && (0 <? budget) && cdrom_dma_ready (world s).

Definition advance_cdrom (e : Env) (cycles : Z) (s : St) : St :=
  if negb (dma_cdrom_transfer_active s) then s else
  let step := bit (chcr (chan s 3)) 1 in
  if bit (chcr (chan s 3)) 0 then
    let s := cancel_async_transfer e 3 s in
    set_chcr 3 (Z.ldiff (chcr (chan s 3)) BUSY_BITS) s
  else if cdrom_dma_ready (world s) then
    let a := cdrom_async s in
    let s := s <| cdrom_async := a <| a_cycles_accum := accumulate cycles (a_cycles_accum a) |> |> in
    let words_budget := a_cycles_accum (cdrom_async s) / DMA_CDROM_CYCLES_PER_WORD in
    let addr := ram_addr (madr (chan s 3)) in
    let s := s <| g_dma_cur_ch := 3 |> <| g_dma_cur_bcr := bcr (chan s 3) |>
               <| g_dma_initiator_pc := aget (s_dma_ch_initiator_pc s) 3 |> in
    let '(addr, budget, moved, s) :=
      pwhile (Z.to_pos words_budget) cdrom_guard (cdrom_word step) (addr, words_budget, 0, s) in
    if 0 <? moved then
      let a := cdrom_async s in
      let s := s <| cdrom_async := a <| a_cycles_accum :=
                   u32 (a_cycles_accum a - moved * DMA_CDROM_CYCLES_PER_WORD) |> |> in
      let s := set_madr 3 addr s in
      if a_remaining_words (cdrom_async s) =? 0 then finish_async_cdrom_transfer e addr s else s
    else s
  else s.

Definition dma_advance (e : Env) (cycles : Z) (s : St) : St :=
  if cycles =? 0 then s else
  let s := s <| g_dma_exec_depth := g_dma_exec_depth s + 1 |> in
  let s := advance_mdec_channel e 0 cycles s in
  let s := advance_mdec_channel e 1 cycles s in
  let s := advance_cdrom e cycles s in
  let s := forZ 0 7 (fun ch => advance_delayed_complete e ch cycles) s in
  s <| g_dma_cur_ch := -1 |> <| g_dma_exec_depth := g_dma_exec_depth s - 1 |>.

Definition dma_debug_clear_trace (s : St) : St := s <| dma_trace := ring_empty |>.
Definition dma_debug_clear_cdrom_history (s : St) : St :=
  s <| cdrom_dma_history := ∅ |> <| cdrom_dma_active_entry := hist_zero |>
    <| cdrom_dma_history_seq := 0 |> <| cdrom_dma_history_active := false |>.

Definition dma_init (s : St) : St :=
  let s := s <| channels := replicate 7 channel_zero |>
             <| mdec_async := replicate 2 async_zero |> <| cdrom_async := async_zero |>
             <| delayed_complete := replicate 7 delayed_zero |>
             <| dpcr := 0x07654321 |> <| dicr := 0 |> in
  dma_debug_clear_cdrom_history (dma_debug_clear_trace s).

Definition in_channels (addr : Z) : bool := (0x1F801080 <=? addr) && (addr <=? 0x1F8010EF).

Definition openbus_read (s : St) : Z * St :=
  (0, s <| g_io_openbus_reads := u64 (g_io_openbus_reads s + 1) |>).

Definition dma_read (addr : Z) (s : St) : Z * St :=
  if addr =? 0x1F8010F0 then (dpcr s, s)
  else if addr =? 0x1F8010F4 then (dma_get_dicr s, s)
  else if in_channels addr then
    let offset := addr - 0x1F801080 in
    let ch := offset / 0x10 in
    let reg := offset mod 0x10 in
    if 6 <? ch then openbus_read s
    else if reg =? 0x00 then (madr (chan s ch), s)
    else if reg =? 0x04 then (bcr (chan s ch), s)
    else if reg =? 0x08 then (chcr (chan s ch), s)
    else if reg =? 0x0C then (0, s)
    else openbus_read s
  else openbus_read s.

Definition openbus_write (s : St) : St :=
  s <| g_io_openbus_writes := u64 (g_io_openbus_writes s + 1) |>.

(** [(old & ~mask) | (val & mask)]. *)
Definition merge_masked (old val mask : Z) : Z := Z.lor (Z.ldiff old mask) (Z.land val mask).

Definition write_dicr (e : Env) (addr val mask : Z) (s : St) : St :=
  let dicr_before := dicr s in
  let i_stat_before := i_stat s in
  let write_mask := Z.land DICR_WRITE_MASK mask in
  let reset_mask := Z.land DICR_RESET_MASK mask in
  let s := s <| dicr := merge_masked (dicr s) val write_mask |> in
  let s := s <| dicr := Z.ldiff (dicr s) (Z.land val reset_mask) |> in
  let s := raise_dma_irq_on_master_edge dicr_before s in
  trace_dma_reg_write e addr val mask dicr_before i_stat_before s.

Definition write_chcr (e : Env) (ch val mask : Z) (s : St) : option St :=
  let s := set_chcr ch (merge_masked (chcr (chan s ch)) val mask) s in
  let s := if has mask (Z.shiftl 1 24) && negb (bit (chcr (chan s ch)) 24)
           then cancel_async_transfer e ch s else s in
  if has mask (Z.shiftl 1 24) && bit (chcr (chan s ch)) 24 then try_execute e ch s else Some s.

Definition dma_write_masked (e : Env) (addr val mask : Z) (s : St) : option St :=
  if addr =? 0x1F8010F0 then Some (s <| dpcr := merge_masked (dpcr s) val mask |>)
  else if addr =? 0x1F8010F4 then Some (write_dicr e addr val mask s)
  else if in_channels addr then
    let offset := addr - 0x1F801080 in
    let ch := offset / 0x10 in
    let reg := offset mod 0x10 in
    if 6 <? ch then Some (openbus_write s)
    else if reg =? 0x00 then Some (set_madr ch (merge_masked (madr (chan s ch)) val mask) s)
    else if reg =? 0x04 then
      Some (set_chan ch ((chan s ch) <| bcr := merge_masked (bcr (chan s ch)) val mask |>) s)
    else if reg =? 0x08 then write_chcr e ch val mask s
    else if reg =? 0x0C then Some s
    else Some (openbus_write s)
  else Some (openbus_write s).

Definition dma_write (e : Env) (addr val : Z) (s : St) : option St :=
  dma_write_masked e addr val 0xFFFFFFFF s.

(** The fields a boot snapshot carries, in order. *)
Record Snapshot := mkSnap {
  sn_channels : list DMAChannel; sn_dpcr : Z; sn_dicr : Z; sn_mdec_async : list DMAAsyncChannel;
  sn_cdrom_async : DMAAsyncChannel; sn_delayed_complete : list DMADelayedComplete
}.
Definition dma_snapshot_write (s : St) : Snapshot :=
  mkSnap (channels s) (dpcr s) (dicr s) (mdec_async s) (cdrom_async s) (delayed_complete s).
Definition dma_snapshot_read (n : Snapshot) (s : St) : St :=
  s <| channels := sn_channels n |> <| dpcr := sn_dpcr n |> <| dicr := sn_dicr n |>
    <| mdec_async := sn_mdec_async n |> <| cdrom_async := sn_cdrom_async n |>
    <| delayed_complete := sn_delayed_complete n |>.

(** ** Frame lemmas *)

Lemma chan_set_chan s ch ch' c :
  0 <= ch < 7 -> 0 <= ch' -> length (channels s) = 7%nat ->
  chan (set_chan ch c s) ch' = if ch' =? ch then c else chan s ch'.
Proof.
  intros Hc Hc' Hl. unfold chan, set_chan. cbn.
  rewrite !nth_lookup. destruct (Z.eqb_spec ch' ch) as [->|Hne].
  - by rewrite list_lookup_insert_eq by lia.
  - by rewrite list_lookup_insert_ne by lia.
Qed.

Lemma delayed_set_delayed s ch ch' d :
  0 <= ch < 7 -> 0 <= ch' -> length (delayed_complete s) = 7%nat ->
  delayed (set_delayed ch d s) ch' = if ch' =? ch then d else delayed s ch'.
Proof.
  intros Hc Hc' Hl. unfold delayed, set_delayed. cbn.
  rewrite !nth_lookup. destruct (Z.eqb_spec ch' ch) as [->|Hne].
  - by rewrite list_lookup_insert_eq by lia.
  - by rewrite list_lookup_insert_ne by lia.
Qed.

Lemma masync_set_masync s ch ch' a :
  0 <= ch < 2 -> 0 <= ch' -> length (mdec_async s) = 2%nat ->
  masync (set_masync ch a s) ch' = if ch' =? ch then a else masync s ch'.
Proof.
  intros Hc Hc' Hl. unfold masync, set_masync. cbn.
  rewrite !nth_lookup. destruct (Z.eqb_spec ch' ch) as [->|Hne].
  - by rewrite list_lookup_insert_eq by lia.
  - by rewrite list_lookup_insert_ne by lia.
Qed.

Lemma set_delayed_twice ch d d' s : set_delayed ch d (set_delayed ch d' s) = set_delayed ch d s.
Proof. unfold set_delayed. cbn. by rewrite list_insert_insert_eq. Qed.

(** ** Delayed completion *)

(** Advancing one channel slice by slice. *)
Definition advance_slices (e : Env) (ch : Z) (cs : list Z) (s : St) : St :=
  fold_left (fun s c => advance_delayed_complete e ch c s) cs s.

Definition total (cs : list Z) : Z := fold_right Z.add 0 cs.

Lemma total_nonneg cs : Forall (fun c => 0 <= c) cs -> 0 <= total cs.
Proof. induction 1; unfold total in *; cbn; lia. Qed.

(** *** DICR *)

Lemma dicr_master_flag_cases v : dicr_master_flag v = 0 \/ dicr_master_flag v = 0x80000000.
Proof. unfold dicr_master_flag. case_if; [by right|by left]. Qed.

Lemma edge_log before s :
  raise_dma_irq_on_master_edge before s =
    if (dicr_master_flag before =? 0) && negb (dicr_master_flag (dicr s) =? 0)
    then s <| i_stat := psx_irq_raise (i_stat s) 3 |>
           <| log := log s ++ [IrqRaise 3 (Z.land (Z.shiftr (dicr s) 24) 0x7F)] |>
    else s.
Proof. done. Qed.

End Controller.

(** ** Properties *)

Section Properties.
Context {W : Type} {S : Sinks W}.

(** Delayed completion is exact and slice-independent.  However the elapsed
    cycles are cut into slices, a delayed channel only counts down until their
    sum reaches its remaining cycles, then clears and completes exactly once;
    later slices do nothing. *)
Theorem delayed_completion_exact (e : Env) (ch words n : Z) (cs : list Z) (s : State W) :
  0 <= ch < 7 -> length (delayed_complete s) = 7%nat -> 0 < n -> Forall (fun c => 0 <= c) cs ->
  advance_slices e ch cs (set_delayed ch (mkDelayed true words n) s) =
    if total cs <? n then set_delayed ch (mkDelayed true words (n - total cs)) s
    else complete_transfer e ch (set_delayed ch delayed_zero s).
Proof.
  intros Hch Hl Hn Hcs. revert n Hn. induction Hcs as [|c cs Hc Hcs IH]; intros n Hn.
  - cbn [advance_slices fold_left total fold_right].
    destruct (Z.ltb_spec 0 n); [|lia]. by rewrite Z.sub_0_r.
  - cbn [advance_slices fold_left].
    change (fold_left _ cs ?x) with (advance_slices e ch cs x).
    assert (delayed (set_delayed ch (mkDelayed true words n) s) ch = mkDelayed true words n) as Ed.
    { rewrite delayed_set_delayed by lia. by rewrite Z.eqb_refl. }
    unfold advance_delayed_complete at 1. rewrite Ed. cbn [d_active d_cycles_remaining d_total_words negb].
    cbn [total fold_right]. change (fold_right Z.add 0 cs) with (total cs).
    pose proof (total_nonneg cs Hcs). destruct (Z.ltb_spec c n) as [Hlt|Hge].
    + rewrite set_delayed_twice, IH by lia.
      replace (n - c - total cs) with (n - (c + total cs)) by lia.
      destruct (Z.ltb_spec (total cs) (n - c)), (Z.ltb_spec (c + total cs) n); try lia; done.
    + rewrite set_delayed_twice. destruct (Z.ltb_spec (c + total cs) n); [lia|].
      assert (delayed (complete_transfer e ch (set_delayed ch delayed_zero s)) ch = delayed_zero) as Ez.
      { transitivity (delayed (set_delayed ch delayed_zero s) ch).
        - unfold complete_transfer, raise_dma_irq_on_master_edge, irq_raise, delayed.
          cbv zeta. repeat case_if; done.
        - rewrite delayed_set_delayed by lia. by rewrite Z.eqb_refl. }
      clear -Ez. revert Ez. generalize (complete_transfer e ch (set_delayed ch delayed_zero s)).
      intros s' Ez. induction cs as [|c' cs IH]; [done|].
      cbn [advance_slices fold_left]. change (fold_left _ cs ?x) with (advance_slices e ch cs x).
      unfold advance_delayed_complete at 1. rewrite Ez. cbn [d_active delayed_zero negb]. exact IH.
Qed.

Definition is_set (v i : Z) : bool := Z.testbit v i.

Lemma ring_record_raises kind detail aux (s : State W) :
  raises_of (log (ring_record kind detail aux s)) = raises_of (log s) /\
  dicr (ring_record kind detail aux s) = dicr s.
Proof. unfold ring_record. cbn. by rewrite raises_of_app, app_nil_r. Qed.

Lemma edge_raises before (s : State W) :
  raises_of (log (raise_dma_irq_on_master_edge before s)) = raises_of (log s) ++
    (if (dicr_master_flag before =? 0) && negb (dicr_master_flag (dicr s) =? 0)
     then [IrqRaise 3 (Z.land (Z.shiftr (dicr s) 24) 0x7F)] else []) /\
  dicr (raise_dma_irq_on_master_edge before s) = dicr s.
Proof. rewrite edge_log. case_if; cbn; by rewrite ?raises_of_app, ?app_nil_r. Qed.

(** The DICR value after a completion and after a register write. *)
Definition dicr_completed (ch v : Z) : Z :=
  if Z.testbit v (16 + ch) && Z.testbit v 23 then Z.lor v (Z.shiftl 1 (24 + ch)) else v.
Definition dicr_written (val mask v : Z) : Z :=
  Z.ldiff (merge_masked v val (Z.land DICR_WRITE_MASK mask))
    (Z.land val (Z.land DICR_RESET_MASK mask)).

Lemma no_edge v : (dicr_master_flag v =? 0) && negb (dicr_master_flag v =? 0) = false.
Proof. by destruct (dicr_master_flag v =? 0). Qed.

Lemma complete_transfer_dicr (e : Env) ch (s : State W) :
  dicr (complete_transfer e ch s) = dicr_completed ch (dicr s) /\
  raises_of (log (complete_transfer e ch s)) = raises_of (log s) ++
    (if (dicr_master_flag (dicr s) =? 0) && negb (dicr_master_flag (dicr_completed ch (dicr s)) =? 0)
     then [IrqRaise 3 (Z.land (Z.shiftr (dicr_completed ch (dicr s)) 24) 0x7F)] else []).
Proof.
  unfold complete_transfer, channel_irq_flag_armed, dicr_completed, bit. cbv zeta.
  rewrite !(proj1 (ring_record_raises _ _ _ _)), !(proj2 (ring_record_raises _ _ _ _)).
  change (dicr (set_chcr ch ?v s)) with (dicr s).
  destruct (Z.testbit (dicr s) (16 + ch) && Z.testbit (dicr s) 23).
  - set (s1 := _ <| dicr := _ |>).
    destruct (edge_raises (dicr s) s1) as [E1 E2]. exact (conj E2 E1).
  - rewrite no_edge, app_nil_r. done.
Qed.

Lemma write_dicr_dicr (e : Env) addr val mask (s : State W) :
  dicr (write_dicr e addr val mask s) = dicr_written val mask (dicr s) /\
  raises_of (log (write_dicr e addr val mask s)) = raises_of (log s) ++
    (if (dicr_master_flag (dicr s) =? 0) && negb (dicr_master_flag (dicr_written val mask (dicr s)) =? 0)
     then [IrqRaise 3 (Z.land (Z.shiftr (dicr_written val mask (dicr s)) 24) 0x7F)] else []).
Proof.
  unfold write_dicr. cbv zeta. set (s1 := _ <| dicr := _ |> <| dicr := _ |>).
  destruct (edge_raises (dicr s) s1) as [E1 E2]. exact (conj E2 E1).
Qed.

(** DICR.  A completion latches its channel flag iff the channel and master
    enables are set; a register write replaces the writable bits, clears
    exactly the acknowledged flags and leaves the rest; bit 31 always reads as
    the aggregate of the others; and I_STAT bit 3 is raised exactly when that
    aggregate goes from 0 to 1. *)
Theorem dicr_edge_and_ack (e : Env) (ch addr val mask : Z) (s : State W) :
  0 <= ch < 7 ->
  let edge before after := (dicr_master_flag before =? 0) && negb (dicr_master_flag after =? 0) in
  let raised s' := raises_of (log s') =
    raises_of (log s) ++ (if edge (dicr s) (dicr s')
                          then [IrqRaise 3 (Z.land (Z.shiftr (dicr s') 24) 0x7F)] else []) in
  let c := complete_transfer e ch s in
  let w := write_dicr e addr val mask s in
  (forall i, 0 <= i -> Z.testbit (dicr c) i =
     Z.testbit (dicr s) i || (Z.testbit (dicr s) (16 + ch) && Z.testbit (dicr s) 23 && (i =? 24 + ch))) /\
  raised c /\
  (forall i, 0 <= i -> Z.testbit (dicr w) i =
     if Z.testbit DICR_RESET_MASK i
     then Z.testbit (dicr s) i && negb (Z.testbit val i && Z.testbit mask i)
     else if Z.testbit DICR_WRITE_MASK i && Z.testbit mask i then Z.testbit val i
     else Z.testbit (dicr s) i) /\
  raised w /\
  (forall s' : State W, Z.testbit (dma_get_dicr s') 31 =
     Z.testbit (dicr s') 15 || (Z.testbit (dicr s') 23 && has (dicr s') DICR_RESET_MASK)).
Proof.
  intros Hch edge raised c w.
  destruct (complete_transfer_dicr e ch s) as [Ec Rc].
  destruct (write_dicr_dicr e addr val mask s) as [Ew Rw].
  split; [|split; [|split; [|split]]].
  - intros i Hi. unfold c. rewrite Ec. unfold dicr_completed.
    destruct (Z.testbit (dicr s) (16 + ch) && Z.testbit (dicr s) 23); cbn [andb].
    + rewrite Z.lor_spec, Z.shiftl_1_l, Z.pow2_bits_eqb by lia. f_equal. apply Z.eqb_sym.
    + by rewrite orb_false_r.
  - unfold raised, edge, c. by rewrite Ec.
  - intros i Hi. unfold w. rewrite Ew. unfold dicr_written, merge_masked.
    autorewrite with zbits.
    assert (Z.testbit DICR_RESET_MASK i = true -> Z.testbit DICR_WRITE_MASK i = false) as Hd.
    { intros Hr. assert (Z.testbit (Z.land DICR_WRITE_MASK DICR_RESET_MASK) i = false) as H0
        by apply Z.bits_0. rewrite Z.land_spec, Hr, andb_true_r in H0. done. }
    destruct (Z.testbit DICR_RESET_MASK i).
    + rewrite Hd by done. cbn. btauto.
    + destruct (Z.testbit DICR_WRITE_MASK i), (Z.testbit mask i); cbn; btauto.
  - unfold raised, edge, w. by rewrite Ew.
  - intros s'. unfold dma_get_dicr, dicr_read_value. rewrite Z.lor_spec, Z.ldiff_spec.
    const_bits. rewrite andb_false_r. cbn [orb]. unfold dicr_master_flag.
    rewrite !has_shift by lia. case_if; rewrite ?E; done.
Qed.

(** *** Precise event slicing *)

(** The shape of the state: array lengths and counter ranges. *)
Record wf (s : State W) : Prop := {
  wf_channels : length (channels s) = 7%nat;
  wf_mdec : length (mdec_async s) = 2%nat;
  wf_delayed : length (delayed_complete s) = 7%nat;
  wf_async : forall a, a = masync s 0 \/ a = masync s 1 \/ a = cdrom_async s ->
    is_u32 (a_remaining_words a) /\ is_u32 (a_cycles_accum a);
}.

(** Nothing a completion would touch has changed. *)
Record quiet (s s' : State W) : Prop := {
  q_log : log s' = log s;
  q_istat : i_stat s' = i_stat s;
  q_dicr : dicr s' = dicr s;
  q_dpcr : dpcr s' = dpcr s;
  q_delayed : delayed_complete s' = delayed_complete s;
}.

Lemma quiet_trans s1 s2 s3 : quiet s1 s2 -> quiet s2 s3 -> quiet s1 s3.
Proof. intros [] []. split; congruence. Qed.

(** The state inside the MDEC word loop. *)
Definition mdec_loop_state (ch : Z) (s : State W) (w : W) (m r : Z) : State W :=
  set_masync ch ((masync s ch) <| a_remaining_words := r |>)
    (s <| world := w |> <| g_dma_cur_madr := m |>).

Lemma masync_loop_state ch (s : State W) w m r :
  0 <= ch < 2 -> length (mdec_async s) = 2%nat ->
  masync (mdec_loop_state ch s w m r) ch = (masync s ch) <| a_remaining_words := r |>.
Proof.
  intros Hch Hl. unfold mdec_loop_state. rewrite masync_set_masync by (done || lia).
  by rewrite Z.eqb_refl.
Qed.

Lemma set_masync_twice ch a a' (s : State W) : set_masync ch a (set_masync ch a' s) = set_masync ch a s.
Proof. unfold set_masync. cbn. by rewrite list_insert_insert_eq. Qed.

Lemma set_masync_id ch (s : State W) :
  0 <= ch < 2 -> length (mdec_async s) = 2%nat -> set_masync ch (masync s ch) s = s.
Proof.
  intros Hch Hl. unfold set_masync, masync. rewrite list_insert_id; [by destruct s|].
  rewrite nth_lookup. destruct (lookup_lt_is_Some_2 (mdec_async s) (Z.to_nat ch)) as [a E]; [lia|].
  by rewrite E.
Qed.

Lemma loop_state_id ch (s : State W) :
  0 <= ch < 2 -> length (mdec_async s) = 2%nat ->
  mdec_loop_state ch s (world s) (g_dma_cur_madr s) (a_remaining_words (masync s ch)) = s.
Proof.
  intros Hch Hl. unfold mdec_loop_state.
  replace ((masync s ch) <| a_remaining_words := a_remaining_words (masync s ch) |>)
    with (masync s ch) by by destruct (masync s ch).
  by apply set_masync_id.
Qed.

(** One word keeps the shape of the loop state. *)
Lemma mdec_word_state ch a (s : State W) w m r (y : State W) :
  0 <= ch < 2 -> length (mdec_async s) = 2%nat ->
  y = mdec_loop_state ch s w m r -> 0 < r < 0x100000000 ->
  exists w' m',
    (let y := if ch =? 0 then with_world (fun w => mdec_dma_write_word (psx_read_word a w) w) y
              else with_world (fun w => let '(v, w) := mdec_dma_read_word w in psx_write_word a v w)
                     (y <| g_dma_cur_madr := a |>) in
     set_masync ch ((masync y ch) <| a_remaining_words := u32 (a_remaining_words (masync y ch) - 1) |>) y)
    = mdec_loop_state ch s w' m' (r - 1).
Proof.
  intros Hch Hl -> Hr. cbv zeta.
  exists (if ch =? 0 then mdec_dma_write_word (psx_read_word a w) w
          else let '(v, w) := mdec_dma_read_word w in psx_write_word a v w),
    (if ch =? 0 then m else a).
  assert (forall y : State W, mdec_async y = mdec_async (mdec_loop_state ch s w m r) ->
    (masync y ch) <| a_remaining_words := u32 (a_remaining_words (masync y ch) - 1) |>
    = (masync s ch) <| a_remaining_words := r - 1 |>) as Hm.
  { intros y Hy. unfold masync at 1 2. rewrite Hy.
    change (nth (Z.to_nat ch) (mdec_async (mdec_loop_state ch s w m r)) async_zero)
      with (masync (mdec_loop_state ch s w m r) ch).
    rewrite masync_loop_state by done. cbn. by rewrite u32_id by lia. }
  rewrite Hm by (case_if; done).
  case_if; unfold mdec_loop_state, set_masync; cbn; by rewrite list_insert_insert_eq.
Qed.

Lemma mdec_loop ch step addr budget (s : State W) :
  0 <= ch < 2 -> length (mdec_async s) = 2%nat -> 0 < budget ->
  is_u32 (a_remaining_words (masync s ch)) ->
  let x := pwhile (Z.to_pos budget) (mdec_guard ch) (mdec_word ch step) (mkMl addr budget 0 false s) in
  exists w m, 0 <= ml_moved x <= Z.min budget (a_remaining_words (masync s ch)) /\
    ml_state x = mdec_loop_state ch s w m (a_remaining_words (masync s ch) - ml_moved x).
Proof.
  intros Hch Hl Hb Hr x. unfold is_u32 in Hr. set (r0 := a_remaining_words (masync s ch)) in *.
  destruct (pwhile_spec (mdec_guard ch) (mdec_word ch step)
    (fun x => exists w m, 0 <= ml_moved x <= r0 /\ ml_budget x = budget - ml_moved x /\
       0 <= ml_budget x /\ ml_state x = mdec_loop_state ch s w m (r0 - ml_moved x))
    (fun x => if ml_stop x then 0 else ml_budget x)
    (Z.to_pos budget) (mkMl addr budget 0 false s))
    as [(w & m & H0 & Hbud & Hb0 & Hs) _].
  - exists (world s), (g_dma_cur_madr s). cbn [ml_moved ml_budget ml_state].
    split; [lia|]. split; [lia|]. split; [lia|]. rewrite Z.sub_0_r. symmetry. by apply loop_state_id.
  - intros y (w & m & H0 & Hbud & Hb0 & Hs) Hg. unfold mdec_guard in Hg.
    rewrite !andb_true_iff in Hg. destruct Hg as [[Hst Hrem] Hbp]. apply negb_true_iff in Hst.
    rewrite Hs, masync_loop_state in Hrem by done. cbn [a_remaining_words upd] in Hrem.
    unfold mdec_word. cbv zeta.
    destruct (if ch =? 0 then _ else _) eqn:Er; cbn [negb].
    + cbn [ml_moved ml_budget ml_stop ml_state]. rewrite Hst. split; [|lia].
      destruct (mdec_word_state ch (ml_addr y) s w m (r0 - ml_moved y) (ml_state y) Hch Hl)
        as (w' & m' & E'); [done|lia|]. exists w', m'.
      rewrite u32_id by lia. split; [lia|]. split; [lia|]. split; [lia|].
      etransitivity; [exact E'|]. f_equal. lia.
    + cbn [ml_moved ml_budget ml_stop ml_state]. rewrite Hst. split; [|lia].
      exists w, m. split; [done|]. split; [done|]. split; [done|exact Hs].
  - intros y _ Hg. unfold mdec_guard in Hg. rewrite !andb_true_iff in Hg.
    destruct Hg as [[Hst _] Hbp]. apply negb_true_iff in Hst. rewrite Hst. lia.
  - cbn. lia.
  - exists w, m. fold x in H0, Hbud, Hb0, Hs. split; [lia|exact Hs].
Qed.

(** A transfer whose CHCR direction bit matches the channel. *)
Definition direction_ok (s : State W) : Prop :=
  (a_active (masync s 0) = true -> bit (chcr (chan s 0)) 0 = true) /\
  (a_active (masync s 1) = true -> bit (chcr (chan s 1)) 0 = false).

(** What the two MDEC advances leave for the rest of [dma_advance]. *)
Record mdec_frame (ch : Z) (s s' : State W) : Prop := {
  mf_quiet : quiet s s';
  mf_cdrom : cdrom_async s' = cdrom_async s;
  mf_len : length (channels s') = length (channels s) /\ length (mdec_async s') = length (mdec_async s);
  mf_chan : forall k, 0 <= k -> k <> ch -> chan s' k = chan s k;
  mf_async : forall k, 0 <= k -> k <> ch -> masync s' k = masync s k;
}.

Lemma mdec_frame_refl ch s : mdec_frame ch s s.
Proof. by split. Qed.

Lemma mdec_frame_trans ch s1 s2 s3 : mdec_frame ch s1 s2 -> mdec_frame ch s2 s3 -> mdec_frame ch s1 s3.
Proof.
  intros [Q1 C1 [L1 L1'] H1 A1] [Q2 C2 [L2 L2'] H2 A2].
  split; [by eapply quiet_trans|congruence|split; congruence|..].
  - intros k Hk Hne. by rewrite H2, H1.
  - intros k Hk Hne. by rewrite A2, A1.
Qed.

Lemma set_masync_frame ch a s :
  0 <= ch < 2 -> length (mdec_async s) = 2%nat -> mdec_frame ch s (set_masync ch a s).
Proof.
  intros Hch Hl. split; [by split|done|split; [done|]|done|].
  - unfold set_masync. cbn. by rewrite length_insert.
  - intros k Hk Hne. rewrite masync_set_masync by (done || lia).
    by destruct (Z.eqb_spec k ch).
Qed.

Lemma set_madr_frame ch v s :
  0 <= ch < 7 -> length (channels s) = 7%nat -> mdec_frame ch s (set_madr ch v s).
Proof.
  intros Hch Hl. split; [by split|done|split; [|done]| |done].
  - unfold set_madr, set_chan. cbn. by rewrite length_insert.
  - intros k Hk Hne. unfold set_madr. rewrite chan_set_chan by (done || lia).
    by destruct (Z.eqb_spec k ch).
Qed.

Lemma flags_frame ch s d c b i :
  mdec_frame ch s (s <| g_dma_exec_depth := d |> <| g_dma_cur_ch := c |> <| g_dma_cur_bcr := b |>
                     <| g_dma_initiator_pc := i |>).
Proof. repeat split. Qed.

Lemma advance_mdec_quiet e ch cycles s :
  ch = 0 \/ ch = 1 -> length (channels s) = 7%nat -> length (mdec_async s) = 2%nat ->
  let a := masync s ch in
  is_u32 (a_remaining_words a) -> is_u32 (a_cycles_accum a) -> 0 < cycles ->
  (a_active a = true -> bit (chcr (chan s ch)) 0 = (ch =? 0)) ->
  (a_active a = true -> a_remaining_words a <> 0 ->
     a_cycles_accum a + cycles < a_remaining_words a) ->
  mdec_frame ch s (advance_mdec_channel e ch cycles s).
Proof.
  intros Hch Hlc Hlm a Hr Hacc Hcy Hdir Hest. unfold advance_mdec_channel. fold a.
  destruct (a_active a) eqn:Eact; cbn [negb]; [|apply mdec_frame_refl].
  destruct (negb (bit (chcr (chan s ch)) 24) || _); [apply mdec_frame_refl|].
  rewrite (Hdir eq_refl). cbv zeta.
  replace (((ch =? 0) && negb (ch =? 0)) || ((ch =? 1) && (ch =? 0))) with false
    by (destruct Hch as [-> | ->]; done).
  destruct (negb (if ch =? 0 then _ else _)); [apply mdec_frame_refl|].
  set (acc := accumulate cycles (a_cycles_accum a)).
  set (s1 := set_masync ch (a <| a_cycles_accum := acc |>) s).
  assert (mdec_frame ch s s1) as F1 by (apply set_masync_frame; lia).
  assert (masync s1 ch = a <| a_cycles_accum := acc |>) as Ea1.
  { unfold s1. rewrite masync_set_masync by (done || lia). by rewrite Z.eqb_refl. }
  rewrite !Ea1. change (a_cycles_accum (a <| a_cycles_accum := acc |>)) with acc.
  set (cpw := if ch =? 0 then DMA_MDEC_IN_CYCLES_PER_WORD else DMA_MDEC_OUT_CYCLES_PER_WORD).
  assert (1 <= cpw <= 14) as Hcpw by (unfold cpw; case_if; by vm_compute).
  destruct (Z.eqb_spec (acc / cpw) 0) as [|Hb]; [exact F1|].
  set (s2 := if ch =? 1 then _ else s1).
  assert (mdec_frame ch s1 s2 /\ masync s2 ch = masync s1 ch) as [F2 Ea2].
  { unfold s2. case_if; [split; [apply flags_frame|done]|split; [apply mdec_frame_refl|done]]. }
  pose proof (mdec_frame_trans _ _ _ _ F1 F2) as F12.
  assert (0 < acc <= 0xFFFFFFFF) as Hacc'.
  { unfold acc, accumulate, UINT32_MAX, is_u32 in *.
    destruct (Z.ltb_spec (0xFFFFFFFF - a_cycles_accum a) cycles); lia. }
  assert (0 < acc / cpw <= acc) as Hbud.
  { split; [assert (0 <= acc / cpw) by (apply Z.div_pos; lia); lia|]. apply Z.div_le_upper_bound; nia. }
  assert (length (mdec_async s2) = 2%nat) as Hlm2 by (rewrite (proj2 (mf_len _ _ _ F12)); done).
  assert (a_remaining_words (masync s2 ch) = a_remaining_words a) as Er2 by (rewrite Ea2, Ea1; done).
  destruct (mdec_loop ch (bit (chcr (chan s ch)) 1) (ram_addr (madr (chan s1 ch))) (acc / cpw) s2)
    as (w & m & Hmv & Hx); [lia|done|lia|by rewrite Er2|].
  rewrite Er2 in Hmv, Hx. set (x := pwhile _ _ _ _) in *.
  assert (mdec_frame ch s2 (ml_state x)) as F3.
  { rewrite Hx. apply (mdec_frame_trans _ _ (s2 <| world := w |> <| g_dma_cur_madr := m |>)).
    - repeat split.
    - apply set_masync_frame; [lia|done]. }
  pose proof (mdec_frame_trans _ _ _ _ F12 F3) as F123.
  set (s3 := if ch =? 1 then _ else ml_state x).
  assert (mdec_frame ch (ml_state x) s3 /\ masync s3 ch = masync (ml_state x) ch) as [F4 Ea3].
  { unfold s3. case_if; (split; [repeat split|done]). }
  pose proof (mdec_frame_trans _ _ _ _ F123 F4) as F1234.
  destruct (Z.eqb_spec (ml_moved x) 0) as [|Hmv0]; [exact F1234|].
  assert (a_remaining_words a <> 0) as Hr0 by lia. specialize (Hest eq_refl Hr0).
  assert (acc < a_remaining_words a) as Hlt.
  { unfold acc, accumulate, UINT32_MAX, is_u32 in *.
    destruct (Z.ltb_spec (0xFFFFFFFF - a_cycles_accum a) cycles); lia. }
  assert (length (mdec_async s3) = 2%nat) as Hlm3 by (rewrite (proj2 (mf_len _ _ _ F1234)); done).
  set (s4 := set_madr ch (ml_addr x) _).
  assert (a_remaining_words (masync s4 ch) = a_remaining_words a - ml_moved x) as Er4.
  { change (masync s4 ch) with (masync (set_masync ch
      ((masync s3 ch) <| a_cycles_accum := u32 (a_cycles_accum (masync s3 ch) - ml_moved x * cpw) |>) s3) ch).
    rewrite masync_set_masync by (done || lia). rewrite Z.eqb_refl. cbn [a_remaining_words upd].
    rewrite Ea3, Hx, masync_loop_state by (done || lia). done. }
  assert (mdec_frame ch s3 s4) as F5.
  { eapply mdec_frame_trans; [apply set_masync_frame; [lia|exact Hlm3]|].
    apply set_madr_frame; [lia|]. rewrite <- Hlc. exact (proj1 (mf_len _ _ _ F1234)). }
  rewrite Er4. destruct (Z.eqb_spec (a_remaining_words a - ml_moved x) 0); [lia|].
  exact (mdec_frame_trans _ _ _ _ F1234 F5).
Qed.

(** The same for the CD-ROM channel. *)
Lemma cdrom_loop step addr budget (s : State W) :
  0 < budget -> is_u32 (a_remaining_words (cdrom_async s)) ->
  let '(_, _, moved, s') := pwhile (Z.to_pos budget) cdrom_guard (cdrom_word step) (addr, budget, 0, s) in
  0 <= moved <= Z.min budget (a_remaining_words (cdrom_async s)) /\ quiet s s' /\
  cdrom_async s' = (cdrom_async s) <| a_remaining_words := a_remaining_words (cdrom_async s) - moved |>.
Proof.
  intros Hb Hr. unfold is_u32 in Hr. set (r0 := a_remaining_words (cdrom_async s)) in *.
  destruct (pwhile_spec cdrom_guard (cdrom_word step)
    (fun x => let '(_, b, moved, s') := x in 0 <= moved <= r0 /\ b = budget - moved /\ 0 <= b /\
       quiet s s' /\ cdrom_async s' = (cdrom_async s) <| a_remaining_words := r0 - moved |>)
    (fun x => let '(_, b, _, _) := x in b) (Z.to_pos budget) (addr, budget, 0, s)) as [H _].
  - split; [lia|]. split; [lia|]. split; [lia|]. split; [by split|].
    rewrite Z.sub_0_r. unfold r0. by destruct (cdrom_async s).
  - intros [[[ad b] moved] y] (Hm & Hbm & Hb0 & Q & Ea) Hg. unfold cdrom_guard in Hg.
    rewrite !andb_true_iff in Hg. destruct Hg as [[Hrem Hbp] _]. rewrite Ea in Hrem.
    cbn [a_remaining_words upd] in Hrem. unfold cdrom_word.
    destruct (cdrom_dma_read (world y)) as [word w] eqn:Er.
    rewrite u32_id by lia. split; [|lia]. split; [lia|]. split; [lia|]. split; [lia|].
    unfold record_cdrom_dma_word. split.
    + apply (quiet_trans _ _ _ Q). destruct (negb _); by split.
    + destruct (negb _); cbn; rewrite Ea; cbn [a_remaining_words upd];
        rewrite u32_id by lia; cbn; f_equal; lia.
  - intros [[[ad b] moved] y] _ Hg. unfold cdrom_guard in Hg. rewrite !andb_true_iff in Hg. lia.
  - lia.
  - destruct (pwhile _ _ _ _) as [[[ad b] moved] y]. destruct H as (H1 & H2 & H3 & H4 & H5).
    split; [lia|done].
Qed.

Lemma advance_cdrom_quiet e cycles (s : State W) :
  let a := cdrom_async s in
  is_u32 (a_remaining_words a) -> is_u32 (a_cycles_accum a) -> 0 < cycles ->
  (a_active a = true -> a_remaining_words a <> 0 ->
     a_cycles_accum a + cycles < a_remaining_words a) ->
  quiet s (advance_cdrom e cycles s).
Proof.
  intros a Hr Hacc Hcy Hest. unfold advance_cdrom.
  destruct (dma_cdrom_transfer_active s) eqn:Eact; [|by split]. cbn [negb].
  unfold dma_cdrom_transfer_active in Eact. rewrite !andb_true_iff, negb_true_iff in Eact.
  destruct Eact as [[[Ha _] _] ->]. fold a in Ha. destruct (cdrom_dma_ready (world s)); [|by split].
  cbv zeta. fold a. set (acc := accumulate cycles (a_cycles_accum a)).
  set (s1 := s <| cdrom_async := _ |>). change (a_cycles_accum (cdrom_async s1)) with acc.
  unfold DMA_CDROM_CYCLES_PER_WORD. rewrite Z.div_1_r.
  assert (0 < acc <= 0xFFFFFFFF) as Hacc'.
  { unfold acc, accumulate, UINT32_MAX, is_u32 in *.
    destruct (Z.ltb_spec (0xFFFFFFFF - a_cycles_accum a) cycles); lia. }
  set (s2 := s1 <| g_dma_cur_ch := _ |> <| g_dma_cur_bcr := _ |> <| g_dma_initiator_pc := _ |>).
  assert (quiet s s2) as Q2 by by split.
  assert (cdrom_async s2 = a <| a_cycles_accum := acc |>) as Ea2 by done.
  clearbody s2.
  pose proof (cdrom_loop (bit (chcr (chan s 3)) 1) (ram_addr (madr (chan s1 3))) acc s2) as L.
  destruct (pwhile _ _ _ _) as [[[ad b] moved] y].
  rewrite Ea2 in L. cbn [a_remaining_words a_cycles_accum upd] in L.
  destruct L as (Hm & Q & Ea); [lia|done|]. pose proof (quiet_trans _ _ _ Q2 Q) as Qy.
  destruct (Z.ltb_spec 0 moved); [|exact Qy].
  specialize (Hest Ha ltac:(lia)).
  assert (acc < a_remaining_words a) as Hlt.
  { unfold acc, accumulate, UINT32_MAX, is_u32 in *.
    destruct (Z.ltb_spec (0xFFFFFFFF - a_cycles_accum a) cycles); lia. }
  match goal with |- context [a_remaining_words (cdrom_async ?z)] =>
    assert (a_remaining_words (cdrom_async z) = a_remaining_words a - moved) as Er;
    [change (a_remaining_words (cdrom_async z)) with (a_remaining_words (cdrom_async y)); by rewrite Ea|]
  end.
  rewrite Er. destruct (Z.eqb_spec (a_remaining_words a - moved) 0); [lia|].
  apply (quiet_trans _ _ _ Qy). by split.
Qed.

Lemma async_estimate_le a best : async_estimate a best <= best.
Proof. unfold async_estimate. destruct (negb _ || _); [lia|]. cbv zeta. btest; lia. Qed.

Lemma async_estimate_active a best :
  a_active a = true -> a_remaining_words a <> 0 -> 0 < async_estimate a best ->
  a_cycles_accum a + async_estimate a best <= a_remaining_words a.
Proof.
  unfold async_estimate. intros -> Hr. destruct (Z.eqb_spec (a_remaining_words a) 0); [done|].
  cbn [negb orb]. cbv zeta. btest; lia.
Qed.

Lemma delayed_estimate_le (s : State W) best :
  forZ 0 7 (fun ch best => delayed_estimate (delayed s ch) best) best <= best /\
  forall ch, 0 <= ch < 7 -> d_active (delayed s ch) = true ->
    forZ 0 7 (fun ch best => delayed_estimate (delayed s ch) best) best <= d_cycles_remaining (delayed s ch).
Proof.
  apply (forZ_ind (fun k b => b <= best /\
    forall ch, 0 <= ch < k -> d_active (delayed s ch) = true -> b <= d_cycles_remaining (delayed s ch)) 0 7);
    [lia|split; [lia|]; intros; lia|].
  intros i x Hi [Hx Hd]. unfold delayed_estimate.
  split.
  - destruct (d_active _); cbn [andb]; btest; lia.
  - intros ch Hch Ha. destruct (decide (ch = i)) as [->|].
    + rewrite Ha. cbn [andb]. btest; lia.
    + specialize (Hd ch ltac:(lia) Ha). destruct (d_active _ && _) eqn:E; [|lia]. apply andb_prop in E as [_ E%Z.ltb_lt]. lia.
Qed.

(** A due time above [cycles] for every active transfer and completion. *)
Lemma estimate_due i_mask cycles (s : State W) :
  Z.testbit i_mask 3 = true -> 0 < cycles < dma_cycles_to_irq i_mask s ->
  (forall a, a = masync s 0 \/ a = masync s 1 \/ a = cdrom_async s ->
     a_active a = true -> a_remaining_words a <> 0 ->
     a_cycles_accum a + cycles < a_remaining_words a) /\
  forall ch, 0 <= ch < 7 -> d_active (delayed s ch) = true -> cycles < d_cycles_remaining (delayed s ch).
Proof.
  intros Hm Hc. unfold dma_cycles_to_irq in Hc. rewrite has_shift, Hm in Hc by lia. cbn [negb] in Hc.
  cbv zeta in Hc. set (b0 := async_estimate (masync s 0) 0xFFFFFFFF) in Hc.
  set (b1 := async_estimate (masync s 1) b0) in Hc.
  set (b2 := async_estimate (cdrom_async s) b1) in Hc.
  destruct (delayed_estimate_le s b2) as [Hle Hd].
  pose proof (async_estimate_le (masync s 1) b0) as L1. fold b1 in L1.
  pose proof (async_estimate_le (cdrom_async s) b1) as L2. fold b2 in L2.
  split.
  - intros a [-> | [-> | ->]] Ha Hr.
    + pose proof (async_estimate_active _ 0xFFFFFFFF Ha Hr) as E. fold b0 in E. lia.
    + pose proof (async_estimate_active _ b0 Ha Hr) as E. fold b1 in E. lia.
    + pose proof (async_estimate_active _ b1 Ha Hr) as E. fold b2 in E. lia.
  - intros ch Hch Ha. specialize (Hd ch Hch Ha). lia.
Qed.

Lemma delayed_loop e cycles (s : State W) :
  length (delayed_complete s) = 7%nat ->
  (forall ch, 0 <= ch < 7 -> d_active (delayed s ch) = true -> cycles < d_cycles_remaining (delayed s ch)) ->
  let s' := forZ 0 7 (fun ch => advance_delayed_complete e ch cycles) s in
  (log s' = log s /\ i_stat s' = i_stat s /\ dicr s' = dicr s) /\
  forall ch, 0 <= ch < 7 -> d_active (delayed s ch) = true ->
    delayed s' ch = mkDelayed true (d_total_words (delayed s ch)) (d_cycles_remaining (delayed s ch) - cycles).
Proof.
  intros Hl Hd s'.
  assert (length (delayed_complete s') = 7%nat /\ (log s' = log s /\ i_stat s' = i_stat s /\ dicr s' = dicr s) /\
    (forall ch, 0 <= ch < 7 -> 7 <= ch -> delayed s' ch = delayed s ch) /\
    forall ch, 0 <= ch < 7 -> d_active (delayed s ch) = true ->
      delayed s' ch = mkDelayed true (d_total_words (delayed s ch)) (d_cycles_remaining (delayed s ch) - cycles))
    as (_ & H1 & _ & H2); [|done].
  apply (forZ_ind (fun k x => length (delayed_complete x) = 7%nat /\
    (log x = log s /\ i_stat x = i_stat s /\ dicr x = dicr s) /\
    (forall ch, 0 <= ch < 7 -> k <= ch -> delayed x ch = delayed s ch) /\
    forall ch, 0 <= ch < k -> d_active (delayed s ch) = true ->
      delayed x ch = mkDelayed true (d_total_words (delayed s ch)) (d_cycles_remaining (delayed s ch) - cycles))
    0 7 (fun ch => advance_delayed_complete e ch cycles)).
  { lia. }
  { split; [exact Hl|]. split; [by repeat split|]. split; [reflexivity|]. intros ch Hch. exfalso. lia. }
  intros i x Hi (Hlx & Hq & Hr & Hw). unfold advance_delayed_complete.
  rewrite (Hr i Hi) by lia. destruct (d_active (delayed s i)) eqn:Ea; cbn [negb].
  - specialize (Hd i Hi Ea). destruct (Z.ltb_spec cycles (d_cycles_remaining (delayed s i))); [|lia].
    split; [by unfold set_delayed; cbn; rewrite length_insert|]. split; [exact Hq|]. split.
    + intros ch Hch Hle. rewrite delayed_set_delayed by lia.
      destruct (Z.eqb_spec ch i); [lia|]. apply Hr; lia.
    + intros ch Hch Ha. rewrite delayed_set_delayed by lia.
      destruct (Z.eqb_spec ch i) as [->|]; [done|]. apply Hw; [lia|done].
  - split; [done|]. split; [done|]. split; [intros; apply Hr; lia|].
    intros ch Hch Ha. destruct (decide (ch = i)) as [->|]; [congruence|]. apply Hw; [lia|done].
Qed.

(** [dma_advance] as a composition. *)
Definition enter_exec (s : State W) : State W := s <| g_dma_exec_depth := g_dma_exec_depth s + 1 |>.
Definition leave_exec (s : State W) : State W :=
  s <| g_dma_cur_ch := -1 |> <| g_dma_exec_depth := g_dma_exec_depth s - 1 |>.

Lemma dma_advance_eq e cycles (s : State W) :
  cycles <> 0 ->
  dma_advance e cycles s =
    leave_exec (forZ 0 7 (fun ch => advance_delayed_complete e ch cycles)
      (advance_cdrom e cycles (advance_mdec_channel e 1 cycles
        (advance_mdec_channel e 0 cycles (enter_exec s))))).
Proof. intros H. unfold dma_advance. apply Z.eqb_neq in H. by rewrite H. Qed.

Lemma quiet_enter (s : State W) : quiet s (enter_exec s).
Proof. by split. Qed.

Lemma leave_keeps (s : State W) :
  log (leave_exec s) = log s /\ i_stat (leave_exec s) = i_stat s /\ dicr (leave_exec s) = dicr s /\
  delayed_complete (leave_exec s) = delayed_complete s.
Proof. done. Qed.

(** C6: The scheduler may run [cycles] < [dma_cycles_to_irq] cycles in one go:
    as long as every active MDEC transfer has the direction of its channel,
    advancing the controller by fewer cycles than it announces completes
    nothing -- no interrupt is raised, no event is recorded, and DICR and
    I_STAT keep their values -- and every scheduled completion comes [cycles]
    closer. *)
Theorem dma_cycles_to_irq_safe (e : Env) (i_mask cycles : Z) (s : State W) :
  wf s -> direction_ok s -> Z.testbit i_mask 3 = true -> 0 < cycles < dma_cycles_to_irq i_mask s ->
  let s' := dma_advance e cycles s in
  (log s' = log s /\ i_stat s' = i_stat s /\ dma_get_dicr s' = dma_get_dicr s) /\
  forall ch, 0 <= ch < 7 -> d_active (delayed s ch) = true ->
    delayed s' ch = mkDelayed true (d_total_words (delayed s ch)) (d_cycles_remaining (delayed s ch) - cycles).
Proof.
  intros [Hc Hm Hd Ha] [D0 D1] Hb Hcy. destruct (estimate_due _ _ _ Hb Hcy) as [Ea Ed].
  cbv zeta. rewrite dma_advance_eq by lia.
  assert (quiet s (enter_exec s) /\ cdrom_async (enter_exec s) = cdrom_async s /\
    mdec_async (enter_exec s) = mdec_async s /\ channels (enter_exec s) = channels s)
    as (Q0 & Cd0 & As0 & Ch0) by (split; [apply quiet_enter|done]).
  set (s1 := enter_exec s) in *. clearbody s1.
  assert (forall k, masync s1 k = masync s k) as Am0 by (intros; unfold masync; by rewrite As0).
  assert (forall k, chan s1 k = chan s k) as Cm0 by (intros; unfold chan; by rewrite Ch0).
  pose proof (advance_mdec_quiet e 0 cycles s1 (or_introl eq_refl)) as F1. cbv zeta in F1.
  rewrite As0, Ch0, Am0, Cm0 in F1.
  destruct (Ha (masync s 0)) as [R0 C0]; [by left|].
  specialize (F1 Hc Hm R0 C0 (proj1 Hcy) D0 (Ea _ (or_introl eq_refl))).
  set (s2 := advance_mdec_channel e 0 cycles s1) in *. destruct F1 as [Q1 Cd1 [L1 L1'] Ch1 As1].
  pose proof (advance_mdec_quiet e 1 cycles s2 (or_intror eq_refl)) as F2. cbv zeta in F2.
  rewrite L1, L1', (As1 1), (Ch1 1), As0, Ch0, Am0, Cm0 in F2 by lia.
  destruct (Ha (masync s 1)) as [R1 C1]; [by right; left|].
  specialize (F2 Hc Hm R1 C1 (proj1 Hcy) D1 (Ea _ (or_intror (or_introl eq_refl)))).
  set (s3 := advance_mdec_channel e 1 cycles s2) in *. destruct F2 as [Q2 Cd2 _ _ _].
  pose proof (advance_cdrom_quiet e cycles s3) as Q3. cbv zeta in Q3. rewrite Cd2, Cd1, Cd0 in Q3.
  destruct (Ha (cdrom_async s)) as [Rc Cc]; [by right; right|].
  specialize (Q3 Rc Cc (proj1 Hcy) (Ea _ (or_intror (or_intror eq_refl)))).
  set (s4 := advance_cdrom e cycles s3) in *. clearbody s4 s3 s2.
  destruct (quiet_trans _ _ _ Q0 (quiet_trans _ _ _ (quiet_trans _ _ _ Q1 Q2) Q3)) as [Ql Qi Qd _ Qdel].
  assert (forall ch, delayed s4 ch = delayed s ch) as Edel by (intros; unfold delayed; by rewrite Qdel).
  destruct (delayed_loop e cycles s4) as [(El & Ei & Edi) Er].
  { by rewrite Qdel. }
  { intros ch Hch. rewrite Edel. by apply Ed. }
  generalize dependent (forZ 0 7 (fun ch => advance_delayed_complete e ch cycles) s4).
  intros s5 El Ei Edi Er. destruct (leave_keeps s5) as (Kl & Ki & Kd & Kc).
  assert (forall k, delayed (leave_exec s5) k = delayed s5 k) as Kdel by (intros; unfold delayed; by rewrite Kc).
  split.
  - split; [congruence|]. split; [congruence|]. unfold dma_get_dicr. congruence.
  - intros ch Hch Hac. rewrite Kdel, <- Edel. apply Er; [exact Hch|]. by rewrite Edel.
Qed.

(** *** The ordering table *)

Lemma ram_addr_eq a : ram_addr a = a mod 0x200000 - a mod 4.
Proof.
  unfold ram_addr.
  replace (Z.land a 0x1FFFFC) with (Z.land (Z.land a (Z.ones 21)) (2 ^ 21 - 2 ^ 2)).
  2:{ rewrite <- Z.land_assoc. f_equal. }
  rewrite Z.land_ones by lia. change (2 ^ 21) with 0x200000.
  pose proof (land_high 21 2 (a mod 0x200000) ltac:(lia)) as H.
  change (2 ^ 21) with 0x200000 in H. rewrite H by dlia. change (2 ^ 2) with 4. dlia.
Qed.

(** The address of entry [i] of a table from [start], downwards, wrapping. *)
Definition entry_addr (start i : Z) : Z := (start - 4 * i) mod 0x200000.

Definition entry_val (n start i : Z) : Z :=
  if i =? n - 1 then 0x00FFFFFF else Z.land (u32 (entry_addr start i - 4)) 0x00FFFFFF.

Definition ram_aligned (a : Z) : Prop := 0 <= a < 0x200000 /\ a mod 4 = 0.

Lemma ram_addr_aligned a : ram_aligned (ram_addr a).
Proof. unfold ram_aligned. rewrite ram_addr_eq. dlia. Qed.

Lemma entry_addr_0 start : ram_aligned start -> entry_addr start 0 = start.
Proof. unfold ram_aligned, entry_addr. intros. dlia. Qed.

Lemma entry_addr_aligned start i : ram_aligned start -> ram_aligned (entry_addr start i).
Proof. unfold ram_aligned, entry_addr. intros. dlia. Qed.

Lemma entry_addr_S start i :
  ram_aligned start -> ram_addr (u32 (entry_addr start i - 4)) = entry_addr start (i + 1).
Proof. unfold ram_aligned, entry_addr, u32. rewrite ram_addr_eq. intros. dlia. Qed.

Lemma entry_addr_inj start i j :
  0 <= i < 0x80000 -> 0 <= j < 0x80000 -> entry_addr start i = entry_addr start j -> i = j.
Proof. unfold entry_addr. intros. dlia. Qed.

Lemma entry_val_small n start i : 0 <= entry_val n start i <= 0xFFFFFF.
Proof.
  unfold entry_val. case_if; [lia|]. rewrite land_ffffff. dlia.
Qed.

Lemma entry_val_next n start i :
  ram_aligned start -> i <> n - 1 ->
  entry_val n start i <> 0xFFFFFF /\ ram_addr (entry_val n start i) = entry_addr start (i + 1).
Proof.
  intros Hs Hi. unfold entry_val. destruct (Z.eqb_spec i (n - 1)); [done|].
  rewrite <- entry_addr_S by done. rewrite !ram_addr_eq. rewrite land_ffffff.
  pose proof (entry_addr_aligned start i Hs) as [Hr Ha]. unfold u32. dlia.
Qed.

(** The GPU linked-list walk terminates for every content of RAM, cyclic
    lists included: after at most 0x40002 rounds one of the two breaks of the
    loop is taken (the fuel of [list_walk] is never what ends it). *)
Theorem list_walk_terminates (addr : Z) (s : State W) :
  l_done (list_walk addr s) = true /\ 1 <= l_safety (list_walk addr s) <= MAX_NODES + 2.
Proof.
  unfold list_walk.
  destruct (pwhile_spec (fun x => negb (l_done x)) list_round
    (fun x => (l_done x = true -> 1 <= l_safety x <= MAX_NODES + 2) /\
              (l_done x = false -> 0 <= l_safety x <= MAX_NODES + 1))
    (fun x => if l_done x then 0 else MAX_NODES + 2 - l_safety x)
    (Z.to_pos (MAX_NODES + 2)) (mkWalk addr 0 0 false s)) as [[Hd _] Hg]; unfold MAX_NODES.
  - cbn. split; [done|lia].
  - intros x [_ Hx] E. apply negb_true_iff in E. specialize (Hx E). rewrite E. clear E.
    unfold MAX_NODES in Hx. unfold list_round, MAX_NODES.
    destruct (Z.ltb_spec 0x40000 (l_safety x)); cbn [l_done l_safety].
    + rewrite u32_id by lia. split; [split; [lia|done]|lia].
    + destruct (list_node _ _) as [[h n] y]. rewrite u32_id by lia.
      destruct (_ =? _); cbn [l_done l_safety]; (split; [split; [|]|]; try done; lia).
  - intros x [_ Hx] E. apply negb_true_iff in E. specialize (Hx E). rewrite E.
    unfold MAX_NODES in Hx. lia.
  - cbn. lia.
  - apply negb_false_iff in Hg. split; [exact Hg|exact (Hd Hg)].
Qed.

(** RAM behaves like memory on word-aligned addresses. *)
Class RamSinks (X : Type) {SX : Sinks X} : Prop := {
  read_written a b v w :
    ram_aligned a -> ram_aligned b ->
    psx_read_word a (psx_write_word b v w) = if a =? b then v else psx_read_word a w;
}.

Context {R : RamSinks W}.

Lemma otc_loop n start (s : State W) :
  ram_aligned start -> 0 < n <= 0x10000 ->
  exists w, forZ 0 n (otc_word n) (start, s) = (entry_addr start n, s <| world := w |>) /\
    forall i, 0 <= i < n -> psx_read_word (entry_addr start i) w = entry_val n start i.
Proof.
  intros Hst Hn.
  apply (forZ_ind (fun k x => exists w, x = (entry_addr start k, s <| world := w |>) /\
    forall i, 0 <= i < k -> psx_read_word (entry_addr start i) w = entry_val n start i) 0 n); [lia| |].
  - exists (world s). rewrite entry_addr_0 by done. split; [by destruct s|lia].
  - intros k x Hk (w & -> & Hw). unfold otc_word. rewrite entry_addr_S by done.
    fold (entry_val n start k).
    exists (psx_write_word (entry_addr start k) (entry_val n start k) w). split; [done|].
    intros i Hi. rewrite read_written by by apply entry_addr_aligned.
    destruct (Z.eqb_spec (entry_addr start i) (entry_addr start k)) as [E|E].
    + apply entry_addr_inj in E; [by subst|lia|lia].
    + apply Hw. assert (i <> k) by congruence. lia.
Qed.

(** A walk over a table of [n] entries. *)
Lemma walk_table n start (s : State W) :
  ram_aligned start -> 0 < n <= 0x10000 ->
  (forall i, 0 <= i < n -> psx_read_word (entry_addr start i) (world s) = entry_val n start i) ->
  list_walk start s =
    mkWalk (entry_addr start (n - 1)) n n true (set_madr 2 0x00FFFFFF s).
Proof.
  intros Hst Hn Hw. unfold list_walk.
  destruct (pwhile_spec (fun x => negb (l_done x)) list_round
    (fun x => if l_done x
      then x = mkWalk (entry_addr start (n - 1)) n n true (set_madr 2 0x00FFFFFF s)
      else exists k, 0 <= k < n /\ x = mkWalk (entry_addr start k) k k false s)
    (fun x => if l_done x then 0 else n + 1 - l_safety x)
    (Z.to_pos (MAX_NODES + 2)) (mkWalk start 0 0 false s)) as [HI Hd].
  - cbn. exists 0. rewrite entry_addr_0 by done. split; [lia|done].
  - intros x HI Hg. destruct (l_done x) eqn:Ed; [done|]. destruct HI as (k & Hk & ->).
    unfold list_round. cbn [l_safety l_addr l_words l_state l_done]. unfold MAX_NODES.
    destruct (Z.ltb_spec 0x40000 k); [lia|]. unfold list_node.
    rewrite Hw by done. pose proof (entry_val_small n start k) as Hv.
    assert (Z.land (Z.shiftr (entry_val n start k) 24) 0xFF = 0) as ->.
    { rewrite land_ff, Z.shiftr_div_pow2 by lia. change (2 ^ 24) with 0x1000000. dlia. }
    change (word_loop 0 ?a false gp0_word s) with (a, s). cbv zeta iota beta.
    assert (Z.land (entry_val n start k) 0xFFFFFF = entry_val n start k) as ->.
    { rewrite land_ffffff. apply Z.mod_small. lia. }
    rewrite Z.add_0_r, !u32_id by lia.
    destruct (Z.eq_dec k (n - 1)) as [->|Hne].
    + unfold entry_val. rewrite !Z.eqb_refl. cbn. replace (n - 1 + 1) with n by lia.
      split; [done|lia].
    + destruct (entry_val_next n start k Hst Hne) as [Hnz ->].
      destruct (Z.eqb_spec (entry_val n start k) 0xFFFFFF); [done|]. cbn [l_done l_safety].
      split; [|lia]. exists (k + 1). split; [lia|done].
  - intros x HI Hg. destruct (l_done x) eqn:Ed; [done|]. destruct HI as (k & Hk & ->). cbn. lia.
  - cbn. unfold MAX_NODES. lia.
  - apply negb_false_iff in Hd. rewrite Hd in HI. exact HI.
Qed.

(** An ordering table cleared by channel 6 is a valid empty display list.
    Whatever its length and start, walking it as the GPU's linked-list
    transfer visits its entries in order, sends nothing to GP0, and stops at
    the end marker. *)
Theorem otc_is_empty_list (e : Env) (s : State W) :
  let n := otc_entries s in
  let start := ram_addr (madr (chan s 6)) in
  let s1 := execute_ch6_otc e s in
  let x := list_walk start s1 in
  0 < n <= 0x10000 /\ l_words x = n /\ l_safety x = n /\
  l_addr x = entry_addr start (n - 1) /\ l_state x = set_madr 2 0x00FFFFFF s1.
Proof.
  intros n start s1 x.
  assert (0 < n <= 0x10000) as Hn.
  { unfold n, otc_entries. rewrite land_ffff.
    destruct (Z.eqb_spec (bcr (chan s 6) mod 0x10000) 0); [lia|].
    pose proof (Z.mod_pos_bound (bcr (chan s 6)) 0x10000 ltac:(lia)). lia. }
  pose proof (ram_addr_aligned (madr (chan s 6))) as Hst. fold start in Hst.
  destruct (otc_loop n start s Hst Hn) as (w & E & Hw).
  assert (s1 = complete_transfer e 6 (s <| world := w |>)) as E1.
  { unfold s1, execute_ch6_otc. fold n start. by rewrite E. }
  assert (world s1 = w) as Ew.
  { rewrite E1. unfold complete_transfer. rewrite edge_log. cbv zeta. repeat case_if; done. }
  unfold x. rewrite (walk_table n start s1 Hst Hn); [done|]. by rewrite Ew.
Qed.

End Properties.

(** ** A concrete machine: word memory, idle devices *)

#[export] Instance FlatSinks : Sinks (Z -> Z) := {
  psx_read_word a w := w a;
  psx_write_word a v w := fun x => if x =? a then v else w x;
  mdec_dma_write_ready _ := true;
  mdec_dma_read_ready _ := true;
  mdec_dma_write_word _ w := w;
  mdec_dma_read_word w := (0x5A, w);
  mdec_debug _ _ _ w := w;
  gpu_read_gpuread w := (0, w);
  gpu_write_gp0 _ _ w := w;
  spu_dma_write _ w := w;
  cdrom_dma_ready _ := true;
  cdrom_dma_read w := (0, w);
  cdrom_dma_sector_word_count _ := 512;
  cdrom_get_setloc_lba _ := 150;
  cdrom_debug_snapshot _ := mkCdSnap 0 0 0 0 0 0 false;
  dirty_ram_mark _ _ w := w;
  overlay_capture _ _ w := w;
}.

#[export] Instance FlatRamSinks : RamSinks (Z -> Z).
Proof. split. intros a b v w _ _. reflexivity. Qed.

Definition blank : State (Z -> Z) :=
  dma_init (mkState [] [] async_zero [] 0 0 ∅ 0 0 0 (-1) 0 0 0 (replicate 7 0) ring_empty ∅ 0
              hist_zero false 0 0 0 [] (fun _ => 0)).

Definition env0 : Env := mkEnv 1 0x80010000 0x80010004.

Lemma delayed_completion_exact_witness :
  advance_slices env0 4 [30; 0; 40] (set_delayed 4 (mkDelayed true 2 96) blank) =
    set_delayed 4 (mkDelayed true 2 26) blank.
Proof.
  rewrite (delayed_completion_exact env0 4 2 96 [30; 0; 40] blank);
    [reflexivity|lia|reflexivity|lia|repeat constructor; lia].
Defined.

Lemma dma_cycles_to_irq_safe_witness :
  let s := set_delayed 4 (mkDelayed true 2 96) blank in
  dma_cycles_to_irq 8 s = 96 /\
  delayed (dma_advance env0 50 s) 4 = mkDelayed true 2 46.
Proof.
  intros s. split; [reflexivity|].
  apply (dma_cycles_to_irq_safe env0 8 50 s).
  - split; [reflexivity|reflexivity|reflexivity|].
    intros a [-> | [-> | ->]]; split; vm_compute; by split.
  - split; intros [=].
  - reflexivity.
  - split; reflexivity.
  - split; [discriminate|reflexivity].
  - reflexivity.
Defined.

Lemma dicr_edge_and_ack_witness :
  raises_of (log (complete_transfer env0 4 (blank <| dicr := 0x00900000 |>))) =
    [IrqRaise 3 0x10].
Proof.
  pose proof (dicr_edge_and_ack env0 4 0x1F8010F4 0 0 (blank <| dicr := 0x00900000 |>)) as H.
  cbv zeta in H. destruct H as (_ & Hr & _); [lia|]. exact Hr.
Defined.

Lemma otc_is_empty_list_witness :
  let s := set_chan 6 (mkChannel 0x80010 4 0) blank in
  l_words (list_walk 0x80010 (execute_ch6_otc env0 s)) = 4.
Proof.
  exact (proj1 (proj2 (otc_is_empty_list (R := FlatRamSinks) env0 (set_chan 6 (mkChannel 0x80010 4 0) blank)))).
Defined.

End Dma.
