(* ===== verification/Memcard.v ===== *)
(** * Memory cards

    src/runtime/src/memcard.c: two 128 KB card images of 1024 sectors, their
    files, the blank-card format and the launcher's summary of a card file.
    The C library's files are the class [Files]; [FilesLaws] states the
    behaviour of a disk the persistence theorem relies on. *)

From S2P Require Import Prelude.
From stdpp Require Import strings.
#[local] Open Scope Z_scope.

Module Memcard.

(** stdio and stat, as memcard.c uses them. *)
Class Files (W : Type) := {
  mkdir : string -> W -> W;
  (* fopen "rb", fread of at most n bytes, fclose; None: cannot be opened *)
  read_file : string -> Z -> W -> option (list Z);
  (* fopen "wb", fwrite, fflush, fclose; true: opened and every call succeeded *)
  write_file : string -> list Z -> W -> bool * W;
  malloc_ok : W -> bool;
  stat_mtime : string -> W -> option Z;
}.

Definition MEMCARD_SIZE := 128 * 1024.
Definition MEMCARD_SECTOR_SIZE := 128.
Definition MEMCARD_SECTORS := 1024.
Definition MAX_CARDS := 2.

Record MemCard := mkCard { data : list Z; filepath : string; present : bool; dirty : bool }.
#[export] Instance eta_MemCard : Eta MemCard := fun c =>
  mkCard (data c) (filepath c) (present c) (dirty c).

Record MemcardSlotConfig := mkSlot { path : option string; enabled : bool }.

Record MemcardSummary := mkSummary {
  exists_ : bool; valid : bool; used_blocks : Z; total_blocks : Z; block_used : list Z;
  mtime : Z; size_bytes : Z
}.
#[export] Instance eta_Summary : Eta MemcardSummary := fun r =>
  mkSummary (exists_ r) (valid r) (used_blocks r) (total_blocks r) (block_used r) (mtime r) (size_bytes r).

Record State (W : Type) := mkState { cards : list MemCard; disk : W }.
Arguments mkState {W}. Arguments cards {W} s. Arguments disk {W} s.
#[export] Instance eta_State W : Eta (State W) := fun s => mkState (cards s) (disk s).

(** memset and memcpy into a byte array. *)
Definition memset (off v n : Z) (d : list Z) : list Z :=
  list_inserts (Z.to_nat off) (replicate (Z.to_nat n) v) d.
Definition memcpy (off : Z) (src d : list Z) : list Z := list_inserts (Z.to_nat off) src d.
Definition bytes (off n : Z) (d : list Z) : list Z := take (Z.to_nat n) (drop (Z.to_nat off) d).

Definition card_zero : MemCard := mkCard (replicate (Z.to_nat MEMCARD_SIZE) 0) "" false false.

(** A NULL or empty C string. *)
Definition given (p : option string) : option string :=
  match p with Some EmptyString => None | _ => p end.

(** snprintf into filepath[512]. *)
Definition snprintf512 (p : string) : string := String.substring 0 511 p.

(** *** The blank card *)

Definition frame_checksum (frame : list Z) : Z :=
  forZ 0 127 (fun i x => Z.lxor x (aget frame i)) 0.

Definition set_checksum (off : Z) (d : list Z) : list Z :=
  aset d (off + 0x7F) (frame_checksum (bytes off 128 d)).

Definition format_dir (s : Z) (d : list Z) : list Z :=
  let off := s * 128 in
  let d := memset off 0 128 d in
  let d := aset d (off + 0) 0xA0 in
  let d := aset d (off + 8) 0xFF in
  let d := aset d (off + 9) 0xFF in
  set_checksum off d.

Definition format_broken (s : Z) (d : list Z) : list Z :=
  let off := s * 128 in
  let d := memset off 0 128 d in
  let d := aset d (off + 0) 0xFF in
  let d := aset d (off + 1) 0xFF in
  let d := aset d (off + 2) 0xFF in
  let d := aset d (off + 3) 0xFF in
  let d := aset d (off + 8) 0xFF in
  let d := aset d (off + 9) 0xFF in
  set_checksum off d.

Definition memcard_format (d : list Z) : list Z :=
  let d := memset 0 0xFF MEMCARD_SIZE d in
  let d := memset 0 0 128 d in
  let d := aset d 0 0x4D in
  let d := aset d 1 0x43 in
  let d := set_checksum 0 d in
  let d := forZ 1 16 format_dir d in
  let d := forZ 16 36 format_broken d in
  let d := forZ 36 63 (fun s => memset (s * 128) 0 128) d in
  memcpy (63 * 128) (bytes 0 128 d) d.

(** *** The launcher's summary *)

Definition scan_block (img : list Z) (s : Z) (out : MemcardSummary) : MemcardSummary :=
  let status := aget img (s * 128) in
  let used := Z.land status 0xF0 =? 0x50 in
  let out := out <| block_used := aset (block_used out) (s - 1) (b2z used) |> in
  if used then out <| used_blocks := used_blocks out + 1 |> else out.

Definition scan_image (img : list Z) (out : MemcardSummary) : MemcardSummary :=
  if (Z.of_nat (length img) =? MEMCARD_SIZE) && (aget img 0 =? 0x4D) && (aget img 1 =? 0x43)
  then forZ 1 16 (scan_block img) (out <| valid := true |>) else out.

Definition summary_zero : MemcardSummary := mkSummary false false 0 15 (replicate 15 0) 0 0.

Section Cards.
Context {W : Type} `{Files W}.
Abbreviation St := (State W).

(** For a non-NULL [out]; a NULL one makes the C function return -1. *)
Definition memcard_summary_path (p : option string) (w : W) : MemcardSummary :=
  match given p with
  | None => summary_zero
  | Some p =>
      match read_file p MEMCARD_SIZE w with
      | None => summary_zero
      | Some img =>
          let out := summary_zero <| exists_ := true |> in
          if negb (malloc_ok w) then out else
          let out := scan_image img (out <| size_bytes := Z.of_nat (length img) |>) in
          match stat_mtime p w with Some t => out <| mtime := t |> | None => out end
      end
  end.

Definition memcard_ensure_dir (dir : option string) (w : W) : W :=
  match given dir with None => w | Some d => mkdir d w end.

(** The file of slot [i]: [None] leaves the slot absent. *)
Definition slot_path (dir : option string) (slot : MemcardSlotConfig) (i : Z) : option string :=
  if negb (enabled slot) then None else
  match given (path slot) with
  | Some p => Some (snprintf512 p)
  | None =>
      match dir with
      | Some d => Some (snprintf512 (String.append d (if i =? 0 then "/card1.mcd" else "/card2.mcd")))
      | None => None
      end
  end.

Definition init_slot (dir : option string) (slots : Z -> MemcardSlotConfig) (i : Z) (s : St) : St :=
  match slot_path dir (slots i) i with
  | None => s
  | Some p =>
      match read_file p MEMCARD_SIZE (disk s) with
      | Some img =>
          let c := mkCard (memcpy 0 img (data card_zero)) p (Z.of_nat (length img) =? MEMCARD_SIZE) false in
          s <| cards := <[Z.to_nat i := c]> (cards s) |>
      | None =>
          let d := memcard_format (data card_zero) in
          let '(ok, w) := write_file p d (disk s) in
          s <| cards := <[Z.to_nat i := mkCard d p ok false]> (cards s) |> <| disk := w |>
      end
  end.

Definition default_slot : MemcardSlotConfig := mkSlot None true.

Definition memcard_init_slots (dir : option string) (slots : option (list MemcardSlotConfig)) (s : St) : St :=
  let s := mkState (replicate 2 card_zero) (memcard_ensure_dir dir (disk s)) in
  let slot i := match slots with Some l => nth (Z.to_nat i) l default_slot | None => default_slot end in
  forZ 0 MAX_CARDS (init_slot dir slot) s.

Definition memcard_init (dir : option string) (s : St) : St :=
  memcard_init_slots dir (Some [mkSlot None true; mkSlot None true]) s.

(** The result code and the file system. *)
Definition memcard_format_file (p : option string) (w : W) : Z * W :=
  match given p with
  | None => (-1, w)
  | Some p =>
      if negb (malloc_ok w) then (-1, w) else
      let '(ok, w) := write_file p (memcard_format (data card_zero)) w in
      (if ok then 0 else -1, w)
  end.

Definition bad_card (card : Z) : bool := (card <? 0) || (MAX_CARDS <=? card).
Definition bad_sector (sector : Z) : bool := (sector <? 0) || (MEMCARD_SECTORS <=? sector).
Definition card_at (s : St) (card : Z) : MemCard := nth (Z.to_nat card) (cards s) card_zero.

(** [None] is a result of -1. *)
Definition memcard_read_sector (card sector : Z) (s : St) : option (list Z) :=
  if bad_card card then None else
  if negb (present (card_at s card)) then None else
  if bad_sector sector then None else
  Some (bytes (sector * MEMCARD_SECTOR_SIZE) MEMCARD_SECTOR_SIZE (data (card_at s card))).

Definition memcard_write_sector (card sector : Z) (buf : list Z) (s : St) : Z * St :=
  if bad_card card then (-1, s) else
  if negb (present (card_at s card)) then (-1, s) else
  if bad_sector sector then (-1, s) else
  let c := card_at s card in
  let c := c <| data := memcpy (sector * MEMCARD_SECTOR_SIZE) buf (data c) |> <| dirty := true |> in
  (0, s <| cards := <[Z.to_nat card := c]> (cards s) |>).

Definition memcard_flush (card : Z) (s : St) : St :=
  if bad_card card then s else
  let c := card_at s card in
  if negb (dirty c) then s else
  match filepath c with
  | EmptyString => s
  | p =>
      let '(ok, w) := write_file p (data c) (disk s) in
      let s := s <| disk := w |> in
      if ok then s <| cards := <[Z.to_nat card := c <| dirty := false |>]> (cards s) |> else s
  end.

Definition memcard_flush_all (s : St) : St := forZ 0 MAX_CARDS memcard_flush s.

Definition memcard_is_present (card : Z) (s : St) : bool :=
  if bad_card card then false else present (card_at s card).

(** Path, magic, present, dirty. *)
Definition memcard_debug_info (card : Z) (s : St) : option (string * (Z * Z) * bool * bool) :=
  if bad_card card then None else
  let c := card_at s card in
  Some (filepath c, (aget (data c) 0, aget (data c) 1), present c, dirty c).

(** The bytes copied to a non-NULL [dst]; the result is their number. *)
Definition memcard_debug_read_buffer (card offset len : Z) (s : St) : list Z :=
  if bad_card card then [] else
  if negb (present (card_at s card)) then [] else
  if len =? 0 then [] else
  if MEMCARD_SIZE <=? offset then [] else
  let avail := u32 (MEMCARD_SIZE - offset) in
  let len := if avail <? len then avail else len in
  bytes offset len (data (card_at s card)).

End Cards.

(** ** Byte arrays *)

Definition frame (s : Z) (d : list Z) : list Z := bytes (s * 128) 128 d.

Lemma lookup_bytes off n d (i : nat) :
  bytes off n d !! i = if decide (i < Z.to_nat n)%nat then d !! (Z.to_nat off + i)%nat else None.
Proof.
  unfold bytes. case_decide.
  - by rewrite lookup_take_lt, lookup_drop by lia.
  - by rewrite lookup_take_ge by lia.
Qed.

Lemma length_bytes off n d :
  0 <= off -> 0 <= n -> off + n <= Z.of_nat (length d) -> length (bytes off n d) = Z.to_nat n.
Proof. intros. unfold bytes. rewrite length_take, length_drop. lia. Qed.

Lemma length_memcpy off src d : length (memcpy off src d) = length d.
Proof. apply length_inserts. Qed.

Lemma length_memset off v n d : length (memset off v n d) = length d.
Proof. apply length_inserts. Qed.

Lemma bytes_aset_in off n i v d :
  0 <= off -> 0 <= i < n -> bytes off n (aset d (off + i) v) = aset (bytes off n d) i v.
Proof.
  intros. unfold bytes, aset. rewrite drop_insert_ge by lia.
  replace (Z.to_nat (off + i) - Z.to_nat off)%nat with (Z.to_nat i) by lia.
  by rewrite take_insert_lt by lia.
Qed.

Lemma bytes_aset_out off n k v d :
  0 <= off -> 0 <= k -> k < off \/ off + n <= k -> bytes off n (aset d k v) = bytes off n d.
Proof.
  intros H0 H1 H2. apply list_eq. intros i. rewrite !lookup_bytes. case_decide; [|done].
  unfold aset. apply list_lookup_insert_ne. lia.
Qed.

Lemma bytes_memcpy_same off n src d :
  0 <= off -> Z.of_nat (length src) = n -> off + n <= Z.of_nat (length d) ->
  bytes off n (memcpy off src d) = src.
Proof.
  intros H0 Hn H1. apply list_eq. intros i. rewrite lookup_bytes. case_decide.
  - unfold memcpy. rewrite list_lookup_inserts by lia. f_equal. lia.
  - symmetry. apply lookup_ge_None_2. lia.
Qed.

Lemma bytes_memcpy_disj off n k src d :
  0 <= off -> 0 <= k -> k + Z.of_nat (length src) <= off \/ off + n <= k ->
  bytes off n (memcpy k src d) = bytes off n d.
Proof.
  intros H0 Hk H1. apply list_eq. intros i. rewrite !lookup_bytes. case_decide; [|done].
  unfold memcpy. destruct H1; [apply list_lookup_inserts_ge; lia|apply list_lookup_inserts_lt; lia].
Qed.

Lemma bytes_memset_in off n k v m d :
  0 <= k -> 0 <= n -> k <= off -> off + n <= k + m -> k + m <= Z.of_nat (length d) ->
  bytes off n (memset k v m d) = replicate (Z.to_nat n) v.
Proof.
  intros H0 Hn H1 H2 H3. apply list_eq. intros i. rewrite lookup_bytes. case_decide.
  - unfold memset. rewrite list_lookup_inserts by (rewrite ?length_replicate; lia).
    rewrite !lookup_replicate_2 by lia. done.
  - symmetry. apply lookup_ge_None_2. rewrite length_replicate. lia.
Qed.

Lemma aget_frame d s i : 0 <= s -> 0 <= i < 128 -> aget d (s * 128 + i) = aget (frame s d) i.
Proof.
  intros. unfold aget, frame. rewrite !nth_lookup_default, lookup_bytes, decide_True by lia.
  do 2 f_equal. lia.
Qed.

(** ** The blank card *)

(** A loop of the formatter: round [s] writes frame [s] and nothing else. *)
Record writes_frame (f : Z -> list Z -> list Z) (k : list Z) : Prop := {
  wr_length : forall s d, length (f s d) = length d;
  wr_same : forall s d, 0 <= s -> s * 128 + 128 <= Z.of_nat (length d) -> frame s (f s d) = k;
  wr_other : forall s t d, 0 <= s -> 0 <= t -> t <> s -> frame t (f s d) = frame t d;
}.

Lemma frames_loop f k lo hi d :
  writes_frame f k -> 0 <= lo <= hi -> hi * 128 <= Z.of_nat (length d) ->
  let d' := forZ lo hi f d in
  length d' = length d /\ (forall t, lo <= t < hi -> frame t d' = k) /\
  (forall t, 0 <= t -> t < lo \/ hi <= t -> frame t d' = frame t d).
Proof.
  intros [Hl Hs Ho] Hle Hd. cbv zeta.
  apply (forZ_ind (fun n x => length x = length d /\ (forall t, lo <= t < n -> frame t x = k) /\
    (forall t, 0 <= t -> t < lo \/ n <= t -> frame t x = frame t d)) lo hi f); [lia| |].
  - split; [done|]. split; [lia|done].
  - intros i x Hi (Hlx & Hx & Hy). rewrite Hl. split; [done|]. split.
    + intros t Ht. destruct (decide (t = i)) as [->|]; [apply Hs; lia|].
      rewrite Ho by lia. apply Hx. lia.
    + intros t Ht Hor. rewrite Ho by lia. apply Hy; lia.
Qed.

(** Push [frame] of the current frame through the stores of a loop body. *)
Lemma frame_aset_in s i v d : 0 <= s -> 0 <= i < 128 -> frame s (aset d (s * 128 + i) v) = aset (frame s d) i v.
Proof. intros. unfold frame. apply bytes_aset_in; lia. Qed.

Lemma frame_aset_out s t i v d :
  0 <= s -> 0 <= t -> t <> s -> 0 <= i < 128 -> frame t (aset d (s * 128 + i) v) = frame t d.
Proof. intros. unfold frame. apply bytes_aset_out; lia. Qed.

Lemma frame_checksum_in s d :
  0 <= s -> frame s (set_checksum (s * 128) d) = aset (frame s d) 127 (frame_checksum (frame s d)).
Proof. intros. unfold set_checksum. apply frame_aset_in; lia. Qed.

Lemma frame_checksum_out s t d :
  0 <= s -> 0 <= t -> t <> s -> frame t (set_checksum (s * 128) d) = frame t d.
Proof. intros. unfold set_checksum. apply frame_aset_out; lia. Qed.

Lemma frame_memset_in s v d :
  0 <= s -> s * 128 + 128 <= Z.of_nat (length d) -> frame s (memset (s * 128) v 128 d) = replicate 128 v.
Proof. intros. unfold frame. apply bytes_memset_in; lia. Qed.

Lemma frame_memset_out s t v d :
  0 <= s -> 0 <= t -> t <> s -> frame t (memset (s * 128) v 128 d) = frame t d.
Proof. intros. unfold frame, memset. apply bytes_memcpy_disj; rewrite ?length_replicate; lia. Qed.

Ltac frames :=
  intros; rewrite ?length_aset, ?length_memset;
  repeat first
    [ rewrite frame_checksum_in by lia | rewrite frame_checksum_out by lia
    | rewrite frame_aset_in by lia | rewrite frame_aset_out by lia
    | rewrite frame_memset_in by lia | rewrite frame_memset_out by lia ].

Definition dir_frame : list Z := 0xA0 :: replicate 7 0 ++ 0xFF :: 0xFF :: replicate 117 0 ++ [0xA0].
Definition broken_frame : list Z := replicate 4 0xFF ++ replicate 4 0 ++ 0xFF :: 0xFF :: replicate 118 0.
Definition header_frame : list Z := 0x4D :: 0x43 :: replicate 125 0 ++ [0x0E].

Lemma format_dir_writes : writes_frame format_dir dir_frame.
Proof.
  split; unfold format_dir.
  - intros. unfold set_checksum. by rewrite !length_aset, length_memset.
  - frames. vm_compute. reflexivity.
  - frames. done.
Qed.

Lemma format_broken_writes : writes_frame format_broken broken_frame.
Proof.
  split; unfold format_broken.
  - intros. unfold set_checksum. by rewrite !length_aset, length_memset.
  - frames. vm_compute. reflexivity.
  - frames. done.
Qed.

Lemma format_empty_writes : writes_frame (fun s => memset (s * 128) 0 128) (replicate 128 0).
Proof. split; [intros; apply length_memset|by frames|by frames]. Qed.

(** Frame [s] of the blank card. *)
Definition blank_frame (s : Z) : list Z :=
  if (s =? 0) || (s =? 63) then header_frame
  else if s <? 16 then dir_frame
  else if s <? 36 then broken_frame
  else if s <? 63 then replicate 128 0
  else replicate 128 0xFF.

Lemma header_written d :
  128 <= Z.of_nat (length d) ->
  let d' := set_checksum 0 (aset (aset (memset 0 0 128 d) 0 0x4D) 1 0x43) in
  length d' = length d /\ frame 0 d' = header_frame /\ forall s, 0 < s -> frame s d' = frame s d.
Proof.
  intros Hd. cbv zeta.
  pose proof (frame_checksum_in 0) as C0. pose proof (fun s => frame_checksum_out 0 s) as C0'.
  pose proof (frame_memset_in 0) as M0. pose proof (fun s => frame_memset_out 0 s) as M0'.
  pose proof (frame_aset_in 0 0) as A0. pose proof (frame_aset_in 0 1) as A1.
  pose proof (fun s => frame_aset_out 0 s 0) as A0'. pose proof (fun s => frame_aset_out 0 s 1) as A1'.
  change (0 * 128 + 1) with 1 in *. change (0 * 128 + 0) with 0 in *. change (0 * 128) with 0 in *.
  split; [unfold set_checksum; by rewrite !length_aset, length_memset|]. split.
  - rewrite C0, A1, A0, M0 by lia. vm_compute. reflexivity.
  - intros s Hs. by rewrite C0', A1', A0', M0' by lia.
Qed.

Lemma formatter_loops d :
  length d = Z.to_nat MEMCARD_SIZE -> frame 0 d = header_frame ->
  (forall s, 0 < s < MEMCARD_SECTORS -> frame s d = replicate 128 0xFF) ->
  let d' := forZ 36 63 (fun s => memset (s * 128) 0 128) (forZ 16 36 format_broken (forZ 1 16 format_dir d)) in
  length d' = length d /\
  forall s, 0 <= s < MEMCARD_SECTORS -> s <> 63 -> frame s d' = blank_frame s.
Proof.
  intros Hd F0 F. cbv zeta. unfold MEMCARD_SECTORS in *.
  assert (Z.of_nat (length d) = 131072) as Hl by (rewrite Hd, Z2Nat.id; [reflexivity|unfold MEMCARD_SIZE; lia]).
  clear Hd.
  destruct (frames_loop _ _ 1 16 d format_dir_writes) as (L3 & F3 & F3'); [lia|lia|].
  revert L3 F3 F3'. generalize (forZ 1 16 format_dir d). intros d3 L3 F3 F3'.
  destruct (frames_loop _ _ 16 36 d3 format_broken_writes) as (L4 & F4 & F4'); [lia|lia|].
  revert L4 F4 F4'. generalize (forZ 16 36 format_broken d3). intros d4 L4 F4 F4'.
  destruct (frames_loop _ _ 36 63 d4 format_empty_writes) as (L5 & F5 & F5'); [lia|lia|].
  revert L5 F5 F5'. generalize (forZ 36 63 (fun s => memset (s * 128) 0 128) d4). intros d5 L5 F5 F5'.
  split; [congruence|]. intros s Hs Hne. unfold blank_frame.
  destruct (Z.eqb_spec s 63); [contradiction|]. rewrite orb_false_r.
  destruct (Z.eqb_spec s 0) as [->|]; [by rewrite F5', F4', F3' by lia|].
  destruct (Z.ltb_spec s 16); [by rewrite F5', F4', F3 by lia|].
  destruct (Z.ltb_spec s 36); [by rewrite F5', F4 by lia|].
  destruct (Z.ltb_spec s 63); [by rewrite F5 by lia|].
  by rewrite F5', F4', F3', F by lia.
Qed.

Lemma format_frames d :
  length d = Z.to_nat MEMCARD_SIZE ->
  length (memcard_format d) = Z.to_nat MEMCARD_SIZE /\
  forall s, 0 <= s < MEMCARD_SECTORS -> frame s (memcard_format d) = blank_frame s.
Proof.
  intros Hd. rewrite <- Hd.
  assert (Z.of_nat (length d) = 131072) as Hl by (rewrite Hd, Z2Nat.id; [reflexivity|unfold MEMCARD_SIZE; lia]).
  unfold memcard_format.
  assert (length (memset 0 0xFF MEMCARD_SIZE d) = length d) as L1 by apply length_memset.
  assert (forall s, 0 <= s < MEMCARD_SECTORS ->
    frame s (memset 0 0xFF MEMCARD_SIZE d) = replicate 128 0xFF) as F1.
  { intros s Hs. unfold MEMCARD_SECTORS in Hs. unfold frame.
    apply bytes_memset_in; unfold MEMCARD_SIZE; lia. }
  revert L1 F1. generalize (memset 0 0xFF MEMCARD_SIZE d). intros d1 L1 F1.
  destruct (header_written d1) as (L2 & F20 & F2); [lia|]. cbv zeta.
  revert L2 F20 F2. generalize (set_checksum 0 (aset (aset (memset 0 0 128 d1) 0 0x4D) 1 0x43)).
  intros d2 L2 F20 F2.
  destruct (formatter_loops d2) as [L5 F5]; [congruence|exact F20| |].
  { intros s Hs. rewrite F2 by lia. apply F1. lia. }
  revert L5 F5. match goal with |- context [bytes 0 128 ?x] => generalize x end. intros d5 L5 F5.
  assert (bytes 0 128 d5 = header_frame) as E0 by (apply (F5 0); unfold MEMCARD_SECTORS; lia).
  rewrite E0. split; [rewrite length_memcpy; congruence|]. intros s Hs.
  destruct (decide (s = 63)) as [->|Hne].
  - unfold frame. apply bytes_memcpy_same; [lia|reflexivity|rewrite L5, L2, L1, Hl; lia].
  - rewrite <- F5 by done. unfold frame. apply bytes_memcpy_disj; [lia|lia|].
    change (length header_frame) with 128%nat. lia.
Qed.

Lemma scan_unused img out :
  (forall s, 1 <= s < 16 -> (Z.land (aget img (s * 128)) 0xF0 =? 0x50) = false) ->
  block_used out = replicate 15 0 -> forZ 1 16 (scan_block img) out = out.
Proof.
  intros Hu Hb.
  apply (forZ_ind (fun _ x => x = out) 1 16); [lia|done|].
  intros i x Hi ->. unfold scan_block. rewrite Hu by lia. cbv zeta. rewrite Hb.
  replace (aset (replicate 15 0) (i - 1) (b2z false)) with (block_used out); [by destruct out|].
  rewrite Hb. symmetry. unfold aset. apply list_insert_id. rewrite lookup_replicate_2 by lia. done.
Qed.

(** C8: formatting any 128 KB buffer gives a well-formed blank card: the "MC"
    header and its copy in the write-test frame, every header, directory and
    broken-sector frame carrying its own checksum, fifteen free directory
    entries, 0xFF in the data blocks, and a launcher summary that calls the
    card valid with no block used. *)
Theorem memcard_format_valid (d : list Z) :
  length d = Z.to_nat MEMCARD_SIZE ->
  let c := memcard_format d in
  length c = Z.to_nat MEMCARD_SIZE /\
  (forall s, 0 <= s < 36 \/ s = 63 -> aget (frame s c) 0x7F = frame_checksum (frame s c)) /\
  frame 63 c = frame 0 c /\
  (forall s, 1 <= s <= 15 -> aget c (s * 128) = 0xA0) /\
  (forall i, 64 * 128 <= i < MEMCARD_SIZE -> aget c i = 0xFF) /\
  scan_image c summary_zero = (summary_zero <| valid := true |>).
Proof.
  intros Hd c. destruct (format_frames d Hd) as [Hl Hf]. fold c in Hl, Hf.
  clearbody c. clear d Hd. unfold MEMCARD_SECTORS in Hf. split; [exact Hl|].
  assert (Z.of_nat (length c) = MEMCARD_SIZE) as Hlz by (rewrite Hl, Z2Nat.id; [done|unfold MEMCARD_SIZE; lia]).
  clear Hl.
  assert (forall s, 1 <= s < 16 -> aget c (s * 128) = 0xA0) as Hdir.
  { intros s Hs. rewrite <- (Z.add_0_r (s * 128)), aget_frame, Hf by lia. unfold blank_frame. btest; lia || done. }
  assert (forall i, 0 <= i < 128 -> aget c i = aget header_frame i) as Hhd.
  { intros i Hi. change i with (0 * 128 + i). rewrite aget_frame, Hf by lia. done. }
  split; [|split; [|split; [|split]]].
  - intros s Hs. rewrite Hf by lia. unfold blank_frame. btest; try lia; vm_compute; reflexivity.
  - by rewrite !Hf by lia.
  - intros s Hs. apply Hdir. lia.
  - intros i Hi. replace i with (i / 128 * 128 + i mod 128) by dlia. unfold MEMCARD_SIZE in Hi.
    assert (64 <= i / 128 < 1024 /\ 0 <= i mod 128 < 128) as [H1 H2] by dlia.
    rewrite aget_frame, Hf by lia. replace (blank_frame (i / 128)) with (replicate 128 0xFF).
    + unfold aget. rewrite nth_lookup_default, lookup_replicate_2 by lia. done.
    + unfold blank_frame. btest; lia || done.
  - unfold scan_image. rewrite !Hhd, Hlz, Z.eqb_refl by lia.
    change (aget header_frame 0 =? 0x4D) with true. change (aget header_frame 1 =? 0x43) with true.
    cbn [andb]. apply scan_unused; [|done]. intros s Hs. by rewrite Hdir by lia.
Qed.

(** ** Sectors *)

Section Sectors.
Context {W : Type} `{Files W}.

Record wf (s : State W) : Prop := {
  wf_cards : length (cards s) = 2%nat;
  wf_data : forall i, 0 <= i < MAX_CARDS -> Z.of_nat (length (data (card_at s i))) = MEMCARD_SIZE;
}.

Definition in_range (card sector : Z) : Prop := 0 <= card < MAX_CARDS /\ 0 <= sector < MEMCARD_SECTORS.

Lemma bad_card_spec card : bad_card card = false <-> 0 <= card < MAX_CARDS.
Proof. unfold bad_card. rewrite orb_false_iff. lia. Qed.

Lemma bad_sector_spec sector : bad_sector sector = false <-> 0 <= sector < MEMCARD_SECTORS.
Proof. unfold bad_sector. rewrite orb_false_iff. lia. Qed.

Lemma card_at_insert (s : State W) i j c :
  length (cards s) = 2%nat -> 0 <= i < MAX_CARDS -> 0 <= j ->
  card_at (s <| cards := <[Z.to_nat i := c]> (cards s) |>) j = if j =? i then c else card_at s j.
Proof.
  intros Hl Hi Hj. unfold card_at, MAX_CARDS in *. cbn [cards upd]. rewrite !nth_lookup.
  destruct (Z.eqb_spec j i) as [->|].
  - by rewrite list_lookup_insert_eq by lia.
  - by rewrite list_lookup_insert_ne by lia.
Qed.

Lemma write_rejected card sector buf (s : State W) :
  (bad_card card || negb (present (card_at s card)) || bad_sector sector) = true ->
  memcard_write_sector card sector buf s = (-1, s) /\ memcard_read_sector card sector s = None.
Proof.
  unfold memcard_write_sector, memcard_read_sector.
  destruct (bad_card card); [done|]. destruct (negb _); [done|]. by destruct (bad_sector sector).
Qed.

(** One write, every case. *)
Lemma write_sector_spec (card sector : Z) (buf : list Z) (s : State W) :
  wf s -> Z.of_nat (length buf) = MEMCARD_SECTOR_SIZE ->
  let '(r, s') := memcard_write_sector card sector buf s in
  wf s' /\
  ((r = -1 /\ s' = s /\ memcard_read_sector card sector s = None /\
    ~ (in_range card sector /\ memcard_is_present card s = true)) \/
   (r = 0 /\ in_range card sector /\ memcard_is_present card s = true /\
    dirty (card_at s' card) = true /\ memcard_read_sector card sector s' = Some buf /\
    forall c k, (c, k) <> (card, sector) -> memcard_read_sector c k s' = memcard_read_sector c k s)).
Proof.
  intros [Hl Hd] Hb. destruct (bad_card card || negb (present (card_at s card)) || bad_sector sector) eqn:E.
  - destruct (write_rejected card sector buf s E) as [-> Er]. split; [by split|]. left.
    split; [done|]. split; [done|]. split; [done|]. intros [[Hc Hs] Hp].
    apply bad_card_spec in Hc. apply bad_sector_spec in Hs.
    unfold memcard_is_present in Hp. rewrite Hc in Hp. rewrite Hc, Hs, Hp in E. done.
  - rewrite !orb_false_iff in E. destruct E as [[Ec Ep] Es]. unfold memcard_write_sector.
    rewrite Ec, Ep, Es. cbv zeta. apply negb_false_iff in Ep.
    pose proof (proj1 (bad_card_spec card) Ec) as Hc. pose proof (proj1 (bad_sector_spec sector) Es) as Hs.
    set (c := (card_at s card) <| data := _ |> <| dirty := true |>).
    assert (data c = memcpy (sector * MEMCARD_SECTOR_SIZE) buf (data (card_at s card))) as Edat by done.
    assert (present c = true) as Epc by exact Ep. assert (dirty c = true) as Edc by done. clearbody c.
    set (s' := s <| cards := _ |>).
    assert (forall j, 0 <= j -> card_at s' j = if j =? card then c else card_at s j) as Hat
      by (intros; by apply card_at_insert).
    assert (length (cards s') = 2%nat) as Hl' by (cbn [cards upd s']; by rewrite length_insert).
    clearbody s'. specialize (Hd card Hc) as Hdc.
    split; [split; [done|]|right].
    { intros i Hi. rewrite Hat by lia. case_if; [by rewrite Edat, length_memcpy|by apply Hd]. }
    split; [done|]. split; [done|]. split; [unfold memcard_is_present; by rewrite Ec|].
    rewrite Hat, Z.eqb_refl by lia. split; [done|].
    unfold MEMCARD_SECTOR_SIZE, MEMCARD_SECTORS, MEMCARD_SIZE in *. split.
    + unfold memcard_read_sector. rewrite Ec, Hat, Z.eqb_refl, Epc, Es by lia. cbn [negb]. f_equal.
      rewrite Edat. apply bytes_memcpy_same; unfold MEMCARD_SECTOR_SIZE; lia.
    + intros k t Hne. unfold memcard_read_sector. destruct (bad_card k) eqn:Ek; [done|].
      pose proof (proj1 (bad_card_spec k) Ek). rewrite Hat by lia.
      destruct (Z.eqb_spec k card) as [->|]; [|done]. rewrite Epc, Ep. cbn [negb].
      destruct (bad_sector t) eqn:Et; [done|]. pose proof (proj1 (bad_sector_spec t) Et).
      unfold MEMCARD_SECTORS, MEMCARD_SECTOR_SIZE in *.
      assert (t <> sector) by congruence. f_equal. rewrite Edat. apply bytes_memcpy_disj; lia.
Qed.

(** sector access is an array of 1024 sectors per present card.  A write to
    an absent card, a card number other than 0 and 1 or a sector outside
    0..1023 is refused with -1 and changes nothing, and so is the read; any
    other write succeeds, marks the card dirty, is read back exactly, and
    leaves every other sector of both cards alone. *)
Theorem memcard_sector_rw (card sector : Z) (buf : list Z) (s : State W) :
  wf s -> Z.of_nat (length buf) = MEMCARD_SECTOR_SIZE ->
  let '(r, s') := memcard_write_sector card sector buf s in
  wf s' /\
  ((r = -1 /\ s' = s /\ memcard_read_sector card sector s = None /\
    ~ (in_range card sector /\ memcard_is_present card s = true)) \/
   (r = 0 /\ in_range card sector /\ memcard_is_present card s = true /\
    dirty (card_at s' card) = true /\ memcard_read_sector card sector s' = Some buf /\
    forall c k, (c, k) <> (card, sector) -> memcard_read_sector c k s' = memcard_read_sector c k s)).
Proof. exact (write_sector_spec card sector buf s). Qed.

Lemma read_sector_length card sector d (s : State W) :
  wf s -> memcard_read_sector card sector s = Some d -> length d = 128%nat.
Proof.
  intros [Hl Hd]. unfold memcard_read_sector.
  destruct (bad_card card) eqn:Ec; [done|]. destruct (negb _); [done|].
  destruct (bad_sector sector) eqn:Es; [done|]. intros [= <-].
  apply bad_card_spec in Ec. apply bad_sector_spec in Es. specialize (Hd card Ec).
  unfold MEMCARD_SECTOR_SIZE, MEMCARD_SECTORS, MEMCARD_SIZE in *. rewrite length_bytes; lia.
Qed.

Lemma write_sector_wf card sector buf (s : State W) :
  wf s -> length buf = 128%nat -> wf (memcard_write_sector card sector buf s).2.
Proof.
  intros Hw Hb. pose proof (write_sector_spec card sector buf s Hw ltac:(rewrite Hb; reflexivity)) as H'.
  destruct (memcard_write_sector card sector buf s) as [r s']. exact (proj1 H').
Qed.

Lemma flush_data card i (s : State W) :
  length (cards s) = 2%nat -> 0 <= i -> data (card_at (memcard_flush card s) i) = data (card_at s i) /\
  present (card_at (memcard_flush card s) i) = present (card_at s i) /\
  length (cards (memcard_flush card s)) = length (cards s).
Proof.
  intros Hl Hi. unfold memcard_flush. destruct (bad_card card) eqn:Ec; [done|].
  pose proof (proj1 (bad_card_spec card) Ec) as Hc.
  destruct (negb (dirty _)); [done|]. destruct (filepath _); [done|].
  destruct (write_file _ _ _) as [[] w]; [|done].
  set (s1 := s <| disk := w |>). assert (length (cards s1) = 2%nat) as Hl1 by exact Hl.
  rewrite (card_at_insert s1) by done. cbn [cards upd]. rewrite length_insert.
  destruct (Z.eqb_spec i card) as [->|]; done.
Qed.

(** Flushing changes no card's contents. *)
Lemma flush_read card c k (s : State W) :
  length (cards s) = 2%nat -> memcard_read_sector c k (memcard_flush card s) = memcard_read_sector c k s.
Proof.
  intros Hl. unfold memcard_read_sector. destruct (bad_card c) eqn:Ec; [done|].
  pose proof (proj1 (bad_card_spec c) Ec). destruct (flush_data card c s Hl) as (-> & -> & _); [lia|done].
Qed.

Lemma flush_present card c (s : State W) :
  length (cards s) = 2%nat -> memcard_is_present c (memcard_flush card s) = memcard_is_present c s.
Proof.
  intros Hl. unfold memcard_is_present. destruct (bad_card c) eqn:Ec; [done|].
  pose proof (proj1 (bad_card_spec c) Ec). by destruct (flush_data card c s Hl) as (_ & -> & _); [lia|].
Qed.

Lemma flush_wf card (s : State W) : wf s -> wf (memcard_flush card s).
Proof.
  intros [Hl Hd]. split.
  - destruct (flush_data card 0 s Hl ltac:(lia)) as (_ & _ & ->). exact Hl.
  - intros i Hi. destruct (flush_data card i s Hl ltac:(lia)) as (-> & _). by apply Hd.
Qed.

(** ** Persistence *)

(** The disk: a fully written file reads back, other files and a created
    directory do not disturb it. *)
Class FilesLaws : Prop := {
  read_after_write p d w w' n :
    write_file p d w = (true, w') -> Z.of_nat (length d) = n -> read_file p n w' = Some d;
  read_other p q d w ok w' n d' :
    write_file p d w = (ok, w') -> p <> q -> read_file q n w = Some d' -> read_file q n w' = Some d';
  read_mkdir dir p n w d : read_file p n w = Some d -> read_file p n (mkdir dir w) = Some d;
}.

Context {L : FilesLaws}.

Lemma init_slot_file dir slots i p d (s : State W) :
  read_file p MEMCARD_SIZE (disk s) = Some d ->
  read_file p MEMCARD_SIZE (disk (init_slot dir slots i s)) = Some d.
Proof.
  intros Hr. unfold init_slot. destruct (slot_path _ _ _) as [q|]; [|done].
  destruct (read_file q _ _) eqn:Eq; [done|]. destruct (write_file q _ _) as [ok w'] eqn:Ew.
  cbn [disk upd]. eapply read_other; [exact Ew| |exact Hr]. intros ->. congruence.
Qed.

Lemma init_slot_length dir slots i (s : State W) :
  length (cards (init_slot dir slots i s)) = length (cards s).
Proof.
  unfold init_slot. destruct (slot_path _ _ _); [|done]. destruct (read_file _ _ _).
  - cbn [cards upd]. apply length_insert.
  - destruct (write_file _ _ _). cbn [cards upd]. apply length_insert.
Qed.

Lemma init_slot_other dir slots i j (s : State W) :
  length (cards s) = 2%nat -> 0 <= i < MAX_CARDS -> 0 <= j -> j <> i ->
  card_at (init_slot dir slots i s) j = card_at s j.
Proof.
  intros Hl Hi Hj Hne. apply Z.eqb_neq in Hne.
  unfold init_slot. destruct (slot_path _ _ _); [|done]. destruct (read_file _ _ _).
  - by rewrite card_at_insert, Hne by done.
  - destruct (write_file _ _ _) as [ok w].
    exact (eq_trans (card_at_insert s i j _ Hl Hi Hj) ltac:(by rewrite Hne)).
Qed.

Lemma memcpy_all src d : length src = length d -> memcpy 0 src d = src.
Proof.
  intros Hl. apply list_eq. intros i. destruct (decide (i < length d)%nat).
  - unfold memcpy. rewrite list_lookup_inserts by lia. f_equal. lia.
  - rewrite !lookup_ge_None_2; [done| |]; rewrite ?length_memcpy; lia.
Qed.

Lemma init_slot_loads dir slots i p d (s : State W) :
  length (cards s) = 2%nat -> 0 <= i < MAX_CARDS ->
  slot_path dir (slots i) i = Some p -> read_file p MEMCARD_SIZE (disk s) = Some d ->
  Z.of_nat (length d) = MEMCARD_SIZE ->
  card_at (init_slot dir slots i s) i = mkCard d p true false.
Proof.
  intros Hl Hi Hp Hr Hd. unfold init_slot. rewrite Hp, Hr, card_at_insert, Z.eqb_refl, Hd, Z.eqb_refl by lia.
  rewrite memcpy_all; [done|]. unfold card_zero. cbn [data]. rewrite length_replicate. lia.
Qed.

Lemma boot_loads dir (slots : list MemcardSlotConfig) i p d (s : State W) :
  0 <= i < MAX_CARDS -> slot_path dir (nth (Z.to_nat i) slots default_slot) i = Some p ->
  read_file p MEMCARD_SIZE (disk s) = Some d -> Z.of_nat (length d) = MEMCARD_SIZE ->
  card_at (memcard_init_slots dir (Some slots) s) i = mkCard d p true false.
Proof.
  intros Hi Hp Hr Hd. unfold memcard_init_slots. cbv zeta.
  set (slot := fun i => nth (Z.to_nat i) slots default_slot).
  set (s0 := mkState _ _).
  assert (length (cards s0) = 2%nat) as L0 by reflexivity.
  assert (read_file p MEMCARD_SIZE (disk s0) = Some d) as R0.
  { unfold s0. cbn [disk]. unfold memcard_ensure_dir. destruct (given dir); [by apply read_mkdir|done]. }
  clearbody s0. change (card_at (init_slot dir slot 1 (init_slot dir slot 0 s0)) i = mkCard d p true false).
  pose proof (init_slot_length dir slot 0 s0) as L1. pose proof (init_slot_file dir slot 0 p d s0 R0) as R1.
  assert (i = 0 \/ i = 1) as [-> | ->] by (unfold MAX_CARDS in Hi; lia).
  - rewrite init_slot_other by (unfold MAX_CARDS; congruence || lia). by apply init_slot_loads.
  - apply init_slot_loads; [congruence|done|done|exact R1|done].
Qed.

(** C7: a cleared dirty flag is durable.  If flushing a dirty card clears its
    flag, then the next run, started with the same file for that slot and
    whatever configuration for the other one, finds the card present and
    reads from every sector exactly what this run would read. *)
Theorem memcard_flush_durable (dir : option string) (slots : list MemcardSlotConfig) (i : Z) (s : State W) :
  wf s -> 0 <= i < MAX_CARDS -> present (card_at s i) = true -> dirty (card_at s i) = true ->
  slot_path dir (nth (Z.to_nat i) slots default_slot) i = Some (filepath (card_at s i)) ->
  let s1 := memcard_flush i s in
  dirty (card_at s1 i) = false ->
  let s2 := memcard_init_slots dir (Some slots) s1 in
  memcard_is_present i s2 = true /\
  forall sector, memcard_read_sector i sector s2 = memcard_read_sector i sector s.
Proof.
  intros [Hl Hd] Hi Hp Hdi Hslot s1. pose proof (proj2 (bad_card_spec i) Hi) as Hbc.
  unfold s1, memcard_flush. rewrite Hbc. cbv zeta. rewrite Hdi. cbn [negb].
  destruct (filepath (card_at s i)) as [|a p0] eqn:Ef; [intros; congruence|]. rewrite <- Ef in *.
  destruct (write_file _ _ _) as [ok w] eqn:Ew. destruct ok.
  2:{ intros E. exfalso. change (dirty (card_at s i) = false) in E. congruence. }
  intros _. set (sf := (s <| disk := w |>) <| cards := _ |>).
  assert (read_file (filepath (card_at s i)) MEMCARD_SIZE (disk sf) = Some (data (card_at s i))) as Hr.
  { eapply read_after_write; [exact Ew|]. by apply Hd. }
  rewrite Ef in Ew, Hr, Hslot.
  pose proof (boot_loads dir slots i _ _ sf Hi Hslot Hr (Hd i Hi)) as Hat.
  split.
  - unfold memcard_is_present. by rewrite Hbc, Hat.
  - intros sector. unfold memcard_read_sector. by rewrite Hbc, Hat, Hp.
Qed.

End Sectors.

(** A disk without failures. *)
#[export] Instance FlatFiles : Files (gmap string (list Z)) := {
  mkdir _ w := w;
  read_file p n w := take (Z.to_nat n) <$> w !! p;
  write_file p d w := (true, <[p := d]> w);
  malloc_ok _ := true;
  stat_mtime _ _ := None;
}.

#[export] Instance FlatLaws : FilesLaws (W := gmap string (list Z)).
Proof.
  split.
  - intros p d w w' n [= <-] <-. cbn. rewrite lookup_insert_eq. cbn.
    by rewrite Nat2Z.id, firstn_all.
  - intros p q d w ok w' n d' [= <- <-] Hne Hr. cbn in *. by rewrite lookup_insert_ne.
  - done.
Qed.

Definition demo : State (gmap string (list Z)) :=
  mkState [mkCard (data card_zero) "a.mcd" true true; card_zero] ∅.

Lemma demo_wf : wf demo.
Proof.
  split; [reflexivity|]. intros i Hi. unfold MAX_CARDS in Hi.
  assert (data (card_at demo i) = data card_zero) as -> by (assert (i = 0 \/ i = 1) as [-> | ->] by lia; reflexivity).
  unfold card_zero. cbn [data]. rewrite length_replicate, Z2Nat.id by (unfold MEMCARD_SIZE; lia). reflexivity.
Qed.

Lemma memcard_format_valid_witness :
  exists d, length d = Z.to_nat MEMCARD_SIZE /\ frame 63 (memcard_format d) = frame 0 (memcard_format d).
Proof.
  exists (data card_zero). assert (length (data card_zero) = Z.to_nat MEMCARD_SIZE) as Hl by apply length_replicate.
  split; [exact Hl|]. exact (proj1 (proj2 (proj2 (memcard_format_valid (data card_zero) Hl)))).
Defined.

Lemma memcard_sector_rw_witness :
  wf (memcard_write_sector 0 5 (replicate 128 7) demo).2.
Proof.
  pose proof (memcard_sector_rw 0 5 (replicate 128 7) demo demo_wf eq_refl) as H.
  destruct (memcard_write_sector 0 5 (replicate 128 7) demo) as [r s'].
  exact (proj1 H).
Defined.

Lemma memcard_flush_durable_witness :
  memcard_is_present 0 (memcard_init_slots None (Some [mkSlot (Some "a.mcd") true]) (memcard_flush 0 demo)) = true.
Proof.
  apply (memcard_flush_durable None [mkSlot (Some "a.mcd") true] 0 demo demo_wf).
  - by split.
  - reflexivity.
  - reflexivity.
  - reflexivity.
  - reflexivity.
Defined.

End Memcard.
