(* ===== verification/SerialPort.v ===== *)
(** * The serial port

    src/runtime/src/sio.c, the cycle-paced model (SIO_MODEL_CYCLE_PACED = 1):
    the SIO0 registers, the controller and memory-card protocol state machines,
    the one-byte shifter with its one-byte buffer and acknowledge pipeline, the
    byte, transaction and interrupt rings, and the host-side pad interface.
    The cards are those of [Memcard]. *)

From S2P Require Import Prelude Bus Memcard.

Module Sio.

(** What a byte exchange reads of the rest of the runtime: the current guest
    function, COP0 SR, the in-exception flag, RAM byte 0x7514. *)
Record Env := mkEnv { func_addr : Z; cop0_sr : Z; in_exception : Z; counter_7514 : Z }.

Inductive PadState := PAD_IDLE | PAD_WAIT_ACCESS | PAD_SEND_RESPONSE.

Inductive McState :=
| MC_IDLE | MC_CMD | MC_ID1 | MC_ID2 | MC_ADDR_MSB | MC_ADDR_LSB
| MC_READ_ACK1 | MC_READ_ACK2 | MC_READ_MSB_ECHO | MC_READ_LSB_ECHO
| MC_READ_DATA | MC_READ_CHK | MC_READ_END
| MC_WRITE_DATA | MC_WRITE_CHK | MC_WRITE_ACK1 | MC_WRITE_ACK2 | MC_WRITE_END
| MC_GETID_1 | MC_GETID_2 | MC_GETID_3 | MC_GETID_4.

Inductive ActiveDevice := DEV_NONE | DEV_PAD | DEV_MEMCARD.
Inductive SioBusOwner := SIO_OWNER_NONE | SIO_OWNER_CARD | SIO_OWNER_PAD | SIO_OWNER_UNKNOWN.

#[export] Instance PadState_eq_dec : EqDecision PadState. Proof. solve_decision. Defined.
#[export] Instance McState_eq_dec : EqDecision McState. Proof. solve_decision. Defined.
#[export] Instance ActiveDevice_eq_dec : EqDecision ActiveDevice. Proof. solve_decision. Defined.
#[export] Instance SioBusOwner_eq_dec : EqDecision SioBusOwner. Proof. solve_decision. Defined.

(** The enumerations' integer values. *)
Definition mc_code (m : McState) : Z :=
  match m with
  | MC_IDLE => 0 | MC_CMD => 1 | MC_ID1 => 2 | MC_ID2 => 3 | MC_ADDR_MSB => 4 | MC_ADDR_LSB => 5
  | MC_READ_ACK1 => 6 | MC_READ_ACK2 => 7 | MC_READ_MSB_ECHO => 8 | MC_READ_LSB_ECHO => 9
  | MC_READ_DATA => 10 | MC_READ_CHK => 11 | MC_READ_END => 12
  | MC_WRITE_DATA => 13 | MC_WRITE_CHK => 14 | MC_WRITE_ACK1 => 15 | MC_WRITE_ACK2 => 16
  | MC_WRITE_END => 17 | MC_GETID_1 => 18 | MC_GETID_2 => 19 | MC_GETID_3 => 20 | MC_GETID_4 => 21
  end.
Definition pad_code (p : PadState) : Z :=
  match p with PAD_IDLE => 0 | PAD_WAIT_ACCESS => 1 | PAD_SEND_RESPONSE => 2 end.
Definition dev_code (d : ActiveDevice) : Z :=
  match d with DEV_NONE => 0 | DEV_PAD => 1 | DEV_MEMCARD => 2 end.
Definition owner_code (o : SioBusOwner) : Z :=
  match o with SIO_OWNER_NONE => 0 | SIO_OWNER_CARD => 1 | SIO_OWNER_PAD => 2 | SIO_OWNER_UNKNOWN => 3 end.

Definition idle (m : McState) : bool := bool_decide (m = MC_IDLE).

(** ** State *)

#[projections(primitive)] Record Regs := mkRegs {
  sio_tx_data : Z; sio_rx_data : Z; sio_stat : Z; sio_mode : Z; sio_ctrl : Z; sio_baud : Z
}.
#[export] Instance eta_Regs : Eta Regs := fun r =>
  mkRegs (sio_tx_data r) (sio_rx_data r) (sio_stat r) (sio_mode r) (sio_ctrl r) (sio_baud r).

#[projections(primitive)] Record Pad := mkPad {
  pad_buttons : list Z; pad_analog : list Z; pad_stick : list (list Z);
  analog_mode_locked : list Z; pad_connected : Z; pad_state : PadState; pad_response : list Z;
  pad_response_len : Z; pad_response_idx : Z; pad_current_cmd : Z; pad_in_config : list Z;
  pad_supports_config : list Z; pad_type_req : list Z; g_pad_legacy_cfg : bool
}.
#[export] Instance eta_Pad : Eta Pad := fun p =>
  mkPad (pad_buttons p) (pad_analog p) (pad_stick p) (analog_mode_locked p) (pad_connected p)
    (pad_state p) (pad_response p) (pad_response_len p) (pad_response_idx p) (pad_current_cmd p)
    (pad_in_config p) (pad_supports_config p) (pad_type_req p) (g_pad_legacy_cfg p).

(** McSlotState; the working mc_ variables are one too. *)
#[projections(primitive)] Record McSlotState := mkMc {
  mc_state : McState; mc_cmd : Z; mc_sector : Z; mc_sector_msb : Z; mc_sector_lsb : Z;
  mc_data : list Z; mc_data_idx : Z; mc_checksum : Z; mc_flag : Z
}.
#[export] Instance eta_Mc : Eta McSlotState := fun m =>
  mkMc (mc_state m) (mc_cmd m) (mc_sector m) (mc_sector_msb m) (mc_sector_lsb m) (mc_data m)
    (mc_data_idx m) (mc_checksum m) (mc_flag m).

#[projections(primitive)] Record Pace := mkPace {
  sio_shift_active : bool; sio_shift_byte : Z; sio_shift_remaining : Z;
  sio_tx_buffered : bool; sio_tx_buffer : Z; sio_shift_ack_irq_en : bool;
  sio_tx_buffer_ack_irq_en : bool; sio_pending_ack : bool; sio_ack_remaining : Z;
  sio_pending_ack_irq_en : bool; sio_bus_owner : SioBusOwner; sio_bus_byte_index : Z;
  g_sio_timing_active : bool
}.
#[export] Instance eta_Pace : Eta Pace := fun p =>
  mkPace (sio_shift_active p) (sio_shift_byte p) (sio_shift_remaining p) (sio_tx_buffered p)
    (sio_tx_buffer p) (sio_shift_ack_irq_en p) (sio_tx_buffer_ack_irq_en p) (sio_pending_ack p)
    (sio_ack_remaining p) (sio_pending_ack_irq_en p) (sio_bus_owner p) (sio_bus_byte_index p)
    (g_sio_timing_active p).

#[projections(primitive)] Record IrqCtx := mkIrqCtx {
  sio_irq_pending : bool; sio_irq_countdown : Z; sio_ack_visible_reads : Z;
  sio_irq_pending_source : Z; sio_irq_pending_slot : Z; sio_irq_pending_delay : Z;
  sio_irq_pending_mc_state : Z; sio_irq_pending_byte_seq : Z
}.
#[export] Instance eta_IrqCtx : Eta IrqCtx := fun c =>
  mkIrqCtx (sio_irq_pending c) (sio_irq_countdown c) (sio_ack_visible_reads c)
    (sio_irq_pending_source c) (sio_irq_pending_slot c) (sio_irq_pending_delay c)
    (sio_irq_pending_mc_state c) (sio_irq_pending_byte_seq c).

(** Ring entries. *)
Record SioTraceEntry := mkTrace {
  t_seq : Z; t_tx : Z; t_rx : Z; t_mc_pre : Z; t_mc_post : Z; t_dev_pre : Z; t_dev_post : Z;
  t_ctrl : Z; t_func : Z; t_was_abort : bool; t_irq_countdown : Z; t_in_exception : Z;
  t_counter : Z; t_sr : Z; t_slot0 : Z; t_slot1 : Z
}.

#[projections(primitive)] Record SioTxnEntry := mkTxn {
  x_seq : Z; x_start_byte : Z; x_end_byte : Z; x_start_func : Z; x_end_func : Z; x_slot : Z;
  x_cmd : Z; x_sector : Z; x_ack_count : Z; x_terminal : Z; x_reason : Z; x_bytes : Z;
  x_tx : list Z; x_rx : list Z
}.
#[export] Instance eta_Txn : Eta SioTxnEntry := fun x =>
  mkTxn (x_seq x) (x_start_byte x) (x_end_byte x) (x_start_func x) (x_end_func x) (x_slot x)
    (x_cmd x) (x_sector x) (x_ack_count x) (x_terminal x) (x_reason x) (x_bytes x) (x_tx x) (x_rx x).

Record SioIrqEntry := mkIrq {
  q_seq : Z; q_byte_seq : Z; q_before : Z; q_after : Z; q_mc_state : Z; q_device : Z; q_ctrl : Z;
  q_func : Z; q_counter : Z; q_source : Z; q_slot : Z; q_delay : Z
}.

#[projections(primitive)] Record CardArmAudit := mkAudit {
  au_tx_total : Z; au_armed : Z; au_no_ack : Z; au_no_ackirqen : Z; au_ctrl_last : Z;
  au_stat_pre : Z; au_stat_post : Z; au_countdown : Z
}.
#[export] Instance eta_Audit : Eta CardArmAudit := fun a =>
  mkAudit (au_tx_total a) (au_armed a) (au_no_ack a) (au_no_ackirqen a) (au_ctrl_last a)
    (au_stat_pre a) (au_stat_post a) (au_countdown a).

(** Observability only: counters and rings no guest-visible value depends on. *)
#[projections(primitive)] Record Diag := mkDiag {
  poll_counter : Z; probe_count : Z; ack_count : Z; cmd_count : Z; read_count : Z; read_done : Z;
  last_caller : Z; abort_count : Z; abort_state : Z; abort_ctrl : Z; max_state : Z; tx_writes : Z;
  tx_gated : Z; last_ctrl_on_tx : Z;
  trace_buf : gmap Z SioTraceEntry; trace_idx : Z; trace_seq : Z;
  txn_buf : gmap Z SioTxnEntry; txn_idx : Z; txn_seq : Z; txn_is_open : bool; txn_cur : SioTxnEntry;
  irq_buf : gmap Z SioIrqEntry; irq_idx : Z; irq_seq : Z;
  audit_card : CardArmAudit; audit_pad : CardArmAudit; audit_none : CardArmAudit;
  last_stat_observed : Z;
  pace_buffered : Z; pace_dropped_busy : Z; pace_promoted : Z; pace_promoted_card : Z;
  pace_pad_in_card : Z; pace_shift_completes : Z; pace_ack_fires : Z;
  advance_called : Z; advance_with_work : Z
}.
#[export] Instance eta_Diag : Eta Diag := fun d =>
  mkDiag (poll_counter d) (probe_count d) (ack_count d) (cmd_count d) (read_count d) (read_done d)
    (last_caller d) (abort_count d) (abort_state d) (abort_ctrl d) (max_state d) (tx_writes d)
    (tx_gated d) (last_ctrl_on_tx d) (trace_buf d) (trace_idx d) (trace_seq d) (txn_buf d)
    (txn_idx d) (txn_seq d) (txn_is_open d) (txn_cur d) (irq_buf d) (irq_idx d) (irq_seq d)
    (audit_card d) (audit_pad d) (audit_none d) (last_stat_observed d) (pace_buffered d)
    (pace_dropped_busy d) (pace_promoted d) (pace_promoted_card d) (pace_pad_in_card d)
    (pace_shift_completes d) (pace_ack_fires d) (advance_called d) (advance_with_work d).

(** What starvation_ring_record gets of the port's state. *)
Record SrSnap := mkSr {
  sr_ctrl : Z; sr_stat : Z; sr_shift_active : bool; sr_shift_remaining : Z; sr_tx_buffered : bool;
  sr_pending_ack : bool; sr_ack_remaining : Z; sr_owner : Z; sr_byte_index : Z; sr_device : Z;
  sr_mc_state : Z; sr_pad_state : Z; sr_slot : Z; sr_timing : bool
}.

(** Calls into the diagnostic files of the runtime. *)
Inductive Call :=
| DebugPoll
| LogSioWrite (addr value width : Z)
| StarvationRecord (kind tx rx : Z) (snap : SrSnap)
| CardReadSummary (slot cmd sector checksum data_idx : Z) (data128 : list Z)
| CardDataWritesArm (value mc_state data_idx slot : Z).

#[projections(primitive)] Record State (W : Type) := mkState {
  regs : Regs; pad : Pad; selected_slot : Z; mc : McSlotState; mc_slot : Z;
  mc_slots : list McSlotState; active_device : ActiveDevice; pace : Pace; irqctx : IrqCtx;
  diag : Diag; cards : Memcard.State W; i_stat : Z; log : list Ev; calls : list Call
}.
Arguments mkState {W}.
Arguments regs {W} s. Arguments pad {W} s. Arguments selected_slot {W} s. Arguments mc {W} s.
Arguments mc_slot {W} s. Arguments mc_slots {W} s. Arguments active_device {W} s.
Arguments pace {W} s. Arguments irqctx {W} s. Arguments diag {W} s. Arguments cards {W} s.
Arguments i_stat {W} s. Arguments log {W} s. Arguments calls {W} s.
#[export] Instance eta_State W : Eta (State W) := fun s =>
  mkState (regs s) (pad s) (selected_slot s) (mc s) (mc_slot s) (mc_slots s) (active_device s)
    (pace s) (irqctx s) (diag s) (cards s) (i_stat s) (log s) (calls s).

(** ** Constants *)

Definition IRQ_SIO0 := 7.
Definition SIO_STAT_TX_RDY := 0x1.
Definition SIO_STAT_RX_RDY := 0x2.
Definition SIO_STAT_TX_EMPTY := 0x4.
Definition SIO_STAT_ACK := 0x80.
Definition SIO_STAT_IRQ := 0x200.
Definition TX_IDLE := Z.lor SIO_STAT_TX_RDY SIO_STAT_TX_EMPTY.
Definition SIO_CTRL_TX_EN := 0x1.
Definition SIO_CTRL_SELECT := 0x2.
Definition SIO_CTRL_ACK := 0x10.
Definition SIO_CTRL_RESET := 0x40.
Definition SIO_CTRL_ACK_IRQ_EN := 0x1000.
Definition SIO_CTRL_SLOT := 0x2000.
Definition SIO_BAUD_CYCLES_DEFAULT := 1088.
Definition SIO_ACK_CYCLES_DEFAULT := 170.
Definition sio_tick_quantum_cycles := 64.
Definition SIO_TRACE_CAP := 0x100000.
Definition SIO_TXN_CAP := 0x10000.
Definition SIO_TXN_MAX_BYTES := 256.
Definition SIO_IRQ_RING_CAP := 0x100000.
Definition MAX_TRANSITIONS := 8.
Definition UINT32_MAX := 0xFFFFFFFF.

Definition SIO_TXN_END_SUCCESS := 1.
Definition SIO_TXN_END_ABORT_RESELECT := 2.
Definition SIO_TXN_END_ABORT_RESET := 3.
Definition SIO_TXN_END_ABORT_SLOT := 4.
Definition SIO_TXN_END_ABORT_BAD_CMD := 5.
Definition SIO_TXN_END_ABORT_OTHER := 6.
Definition SIO_IRQ_SRC_CARD_ACK := 1.
Definition SIO_IRQ_SRC_PAD_ACK := 2.

Definition SR_EVT_TX_DATA_WRITE := 1.
Definition SR_EVT_RX_DATA_READ := 2.
Definition SR_EVT_STAT_READ := 3.
Definition SR_EVT_CTRL_WRITE := 4.
Definition SR_EVT_MODE_WRITE := 5.
Definition SR_EVT_BAUD_WRITE := 6.
Definition SR_EVT_SHIFT_START := 7.
Definition SR_EVT_BUFFER_LOAD := 8.
Definition SR_EVT_TX_DROPPED := 9.
Definition SR_EVT_SHIFT_DONE := 10.
Definition SR_EVT_ACK_FIRE := 11.
Definition SR_EVT_SELECT_ASSERT := 12.
Definition SR_EVT_SELECT_DEASS := 13.
Definition SR_EVT_RESET := 14.

Definition mc_zero : McSlotState := mkMc MC_IDLE 0 0 0 0 (replicate 128 0) 0 0 0x08.
Definition txn_zero : SioTxnEntry := 
  mkTxn 0 0 0 0 0 0 0 0 0 0 0 0 (replicate 256 0) (replicate 256 0).
Definition audit_zero : CardArmAudit := mkAudit 0 0 0 0 0 0 0 0.

(** ** Operations *)

Section Port.
Context {W : Type} `{F : Memcard.Files W}.
Abbreviation St := (State W).

Definition on_regs (f : Regs -> Regs) (s : St) : St := s <| regs := f (regs s) |>.
Definition on_pad (f : Pad -> Pad) (s : St) : St := s <| pad := f (pad s) |>.
Definition on_mc (f : McSlotState -> McSlotState) (s : St) : St := s <| mc := f (mc s) |>.
Definition on_pace (f : Pace -> Pace) (s : St) : St := s <| pace := f (pace s) |>.
Definition on_irq (f : IrqCtx -> IrqCtx) (s : St) : St := s <| irqctx := f (irqctx s) |>.
Definition on_diag (f : Diag -> Diag) (s : St) : St := s <| diag := f (diag s) |>.

Definition set_rx (v : Z) : St -> St := on_regs (fun r => r <| sio_rx_data := v |>).
Definition or_stat (m : Z) : St -> St := on_regs (fun r => r <| sio_stat := Z.lor (sio_stat r) m |>).
Definition clear_stat (m : Z) : St -> St :=
  on_regs (fun r => r <| sio_stat := Z.ldiff (sio_stat r) m |>).
Definition set_mc_state (m : McState) : St -> St := on_mc (fun c => c <| mc_state := m |>).

Definition call (c : Call) (s : St) : St := s <| calls := calls s ++ [c] |>.
Definition irq_raise (b detail : Z) (s : St) : St :=
  s <| i_stat := psx_irq_raise (i_stat s) b |> <| log := log s ++ [IrqRaise b detail] |>.
Definition ring_record (kind detail aux : Z) (s : St) : St :=
  s <| log := log s ++ [RingRec kind detail aux] |>.

Definition sio_debug_poll_maybe (s : St) : St :=
  let s := on_diag (fun d => d <| poll_counter := u32 (poll_counter d + 1) |>) s in
  if Z.land (poll_counter (diag s)) 0x3FF =? 0 then call DebugPoll s else s.

Definition sr_record (kind tx rx : Z) (s : St) : St :=
  call (StarvationRecord kind tx rx
    (mkSr (sio_ctrl (regs s)) (sio_stat (regs s)) (sio_shift_active (pace s))
       (sio_shift_remaining (pace s)) (sio_tx_buffered (pace s)) (sio_pending_ack (pace s))
       (sio_ack_remaining (pace s)) (owner_code (sio_bus_owner (pace s)))
       (sio_bus_byte_index (pace s)) (dev_code (active_device s)) (mc_code (mc_state (mc s)))
       (pad_code (pad_state (pad s))) (selected_slot s) (g_sio_timing_active (pace s)))) s.

(** *** Saving and loading a card slot *)

Definition slot_at (s : St) (slot : Z) : McSlotState := nth (Z.to_nat slot) (mc_slots s) mc_zero.
Definition set_slot (slot : Z) (m : McSlotState) (s : St) : St :=
  s <| mc_slots := <[Z.to_nat slot := m]> (mc_slots s) |>.

Definition mc_save_slot (slot : Z) (s : St) : St :=
  if (slot <? 0) || (1 <? slot) then s else set_slot slot (mc s) s.

Definition mc_load_slot (slot : Z) (s : St) : St :=
  if (slot <? 0) || (1 <? slot) then s else s <| mc := slot_at s slot |>.

Definition sio_card_protocol_active (s : St) : bool :=
  negb (idle (mc_state (mc s))) || negb (idle (mc_state (slot_at s 0)))
  || negb (idle (mc_state (slot_at s 1))).

(** *** The transaction ring *)

Definition txn_open (slot start_byte_seq func : Z) (s : St) : St :=
  on_diag (fun d => d <| txn_cur := txn_zero <| x_seq := txn_seq d |>
      <| x_start_byte := start_byte_seq |> <| x_start_func := func |> <| x_slot := slot |>
      <| x_sector := 0xFFFF |> |> <| txn_is_open := true |>) s.

Definition txn_record_byte (tx rx cmd_after sector_after : Z) (got_ack : bool) (byte_seq : Z) (s : St) : St :=
  if negb (txn_is_open (diag s)) then s else
  let x := txn_cur (diag s) in
  let x := if x_bytes x <? SIO_TXN_MAX_BYTES then
             x <| x_tx := aset (x_tx x) (x_bytes x) tx |> <| x_rx := aset (x_rx x) (x_bytes x) rx |>
           else x in
  let x := x <| x_bytes := u16 (x_bytes x + 1) |> <| x_end_byte := byte_seq |> in
  let x := if negb (cmd_after =? 0) && (x_cmd x =? 0) then x <| x_cmd := cmd_after |> else x in
  let x := if negb (sector_after =? 0xFFFF) then x <| x_sector := sector_after |> else x in
  let x := if got_ack then x <| x_ack_count := u16 (x_ack_count x + 1) |> else x in
  on_diag (fun d => d <| txn_cur := x |>) s.

Definition txn_close (end_reason terminal_state func : Z) (s : St) : St :=
  if negb (txn_is_open (diag s)) then s else
  on_diag (fun d =>
    let x := (txn_cur d) <| x_reason := end_reason |> <| x_terminal := terminal_state |>
               <| x_end_func := func |> in
    d <| txn_cur := x |> <| txn_buf := <[txn_idx d := x]> (txn_buf d) |>
      <| txn_idx := (txn_idx d + 1) mod SIO_TXN_CAP |> <| txn_seq := u32 (txn_seq d + 1) |>
      <| txn_is_open := false |>) s.

(** *** The interrupt-arming audit *)

Definition audit_step (ctrl_pre stat_pre stat_post : Z) (armed : bool) (countdown_after : Z)
    (a : CardArmAudit) : CardArmAudit :=
  let a := a <| au_tx_total := u32 (au_tx_total a + 1) |> in
  let a := if armed then a <| au_armed := u32 (au_armed a + 1) |>
           else if negb (has stat_post 0x0080) then a <| au_no_ack := u32 (au_no_ack a + 1) |>
           else if negb (has ctrl_pre 0x1000) then a <| au_no_ackirqen := u32 (au_no_ackirqen a + 1) |>
           else a in
  a <| au_ctrl_last := ctrl_pre |> <| au_stat_pre := stat_pre |> <| au_stat_post := stat_post |>
    <| au_countdown := countdown_after |>.

Definition sio_card_arm_audit_record (dev : ActiveDevice) (ctrl_pre stat_pre stat_post : Z)
    (armed : bool) (countdown_after : Z) (s : St) : St :=
  let f := audit_step ctrl_pre stat_pre stat_post armed countdown_after in
  on_diag (fun d =>
    match dev with
    | DEV_MEMCARD => d <| audit_card := f (audit_card d) |>
    | DEV_PAD => d <| audit_pad := f (audit_pad d) |>
    | DEV_NONE => d <| audit_none := f (audit_none d) |>
    end) s.

(** *** Initialisation *)

Definition pad_reset (p : Pad) : Pad :=
  p <| pad_state := PAD_IDLE |> <| pad_response_len := 0 |> <| pad_response_idx := 0 |>
    <| pad_current_cmd := 0 |>.

(** Shifter, buffer and acknowledge dropped together. *)
Definition pace_kill (p : Pace) : Pace :=
  p <| sio_shift_active := false |> <| sio_shift_remaining := 0 |> <| sio_tx_buffered := false |>
    <| sio_shift_ack_irq_en := false |> <| sio_tx_buffer_ack_irq_en := false |>
    <| sio_pending_ack := false |> <| sio_ack_remaining := 0 |> <| sio_pending_ack_irq_en := false |>.

Definition pace_reset (p : Pace) : Pace :=
  (pace_kill p) <| sio_bus_owner := SIO_OWNER_NONE |> <| sio_bus_byte_index := 0 |>
    <| g_sio_timing_active := false |>.

Definition sio_init (s : St) : St :=
  let s := s <| regs := mkRegs 0 0xFF TX_IDLE 0 0 0 |> in
  let s := on_pad (fun p => (pad_reset p) <| pad_buttons := [0xFFFF; 0xFFFF] |>
                     <| pad_in_config := [0; 0] |> <| pad_type_req := [-1; -1] |>
                     <| analog_mode_locked := [0; 0] |> <| pad_connected := 0 |>) s in
  let s := set_mc_state MC_IDLE s in
  let s := s <| mc_slots := [mc_zero; mc_zero] |> <| active_device := DEV_NONE |> in
  let s := on_irq (fun c => c <| sio_irq_pending := false |> <| sio_irq_countdown := 0 |>
                     <| sio_ack_visible_reads := 0 |>) s in
  let s := on_pace pace_reset s in
  on_diag (fun d => d <| txn_is_open := false |>) s.

Definition sio_cycles_to_irq (i_mask : Z) (s : St) : Z :=
  if negb (has i_mask (Z.shiftl 1 7)) then 0xFFFFFFFF else
  let best := 0xFFFFFFFF in
  let c := irqctx s in
  let best := if sio_irq_pending c && (0 <? sio_irq_countdown c) && (u32 (sio_irq_countdown c) <? best)
              then u32 (sio_irq_countdown c) else best in
  let p := pace s in
  if g_sio_timing_active p then
    let best := if sio_pending_ack p && (0 <? sio_ack_remaining p) && (u32 (sio_ack_remaining p) <? best)
                then u32 (sio_ack_remaining p) else best in
    if sio_shift_active p && (0 <? sio_shift_remaining p) && (u32 (sio_shift_remaining p) <? best)
    then u32 (sio_shift_remaining p) else best
  else best.

(** *** The host side of the pads *)

Definition bad_slot (slot : Z) : bool := (slot <? 0) || (1 <? slot).

Definition sio_connect_pad (slot : Z) (s : St) : St :=
  if bad_slot slot then s
  else on_pad (fun p => p <| pad_connected := u8 (Z.lor (pad_connected p) (Z.shiftl 1 slot)) |>) s.

Definition sio_set_pad_connected (slot : Z) (connected : bool) (s : St) : St :=
  if bad_slot slot then s else
  on_pad (fun p => p <| pad_connected :=
    if connected then Z.lor (pad_connected p) (u8 (Z.shiftl 1 slot))
    else Z.land (pad_connected p) (u8 (Z.lnot (Z.shiftl 1 slot))) |>) s.

Definition sio_set_pad_config_capable (slot : Z) (capable : bool) (s : St) : St :=
  if bad_slot slot then s else
  let s := on_pad (fun p => p <| pad_supports_config := aset (pad_supports_config p) slot (b2z capable) |>) s in
  if capable then s
  else on_pad (fun p => p <| pad_in_config := aset (pad_in_config p) slot 0 |>) s.

Definition sio_set_pad_state_slot (slot buttons : Z) (s : St) : St :=
  if bad_slot slot then s
  else on_pad (fun p => p <| pad_buttons := aset (pad_buttons p) slot buttons |>) s.
Definition sio_set_pad_state (buttons : Z) (s : St) : St := sio_set_pad_state_slot 0 buttons s.

Definition sio_set_pad_sticks (slot lx ly rx ry : Z) (s : St) : St :=
  if bad_slot slot then s
  else on_pad (fun p => p <| pad_stick := <[Z.to_nat slot := [lx; ly; rx; ry]]> (pad_stick p) |>) s.

Definition sio_set_pad_analog (slot : Z) (enabled : bool) (lx ly rx ry : Z) (s : St) : St :=
  if bad_slot slot then s else
  let s := on_pad (fun p => p <| pad_analog := aset (pad_analog p) slot (b2z enabled) |>
                     <| pad_type_req := aset (pad_type_req p) slot (-1) |>) s in
  sio_set_pad_sticks slot lx ly rx ry s.

Definition sio_request_pad_type (slot : Z) (analog : bool) (s : St) : St :=
  if bad_slot slot then s else
  let want := b2z analog in
  on_pad (fun p => p <| pad_type_req :=
    aset (pad_type_req p) slot (if aget (pad_analog p) slot =? want then -1 else want) |>) s.

Definition sio_get_pad_buttons (s : St) : Z := aget (pad_buttons (pad s)) 0.
Definition sio_get_pad_buttons_slot (slot : Z) (s : St) : Z :=
  if bad_slot slot then 0xFFFF else aget (pad_buttons (pad s)) slot.
Definition sio_get_pad_connected (slot : Z) (s : St) : bool :=
  if bad_slot slot then false else has (pad_connected (pad s)) (Z.shiftl 1 slot).
Definition sio_get_pad_analog (slot : Z) (s : St) : Z :=
  if bad_slot slot then 0 else aget (pad_analog (pad s)) slot.

Definition sio_get_legacy_cfg (s : St) : bool := g_pad_legacy_cfg (pad s).
Definition sio_set_legacy_cfg (v : bool) : St -> St :=
  on_pad (fun p => p <| g_pad_legacy_cfg := v |> <| pad_in_config := [0; 0] |>).

Definition sio_peek_stat (s : St) : Z := sio_stat (regs s).
Definition sio_peek_ctrl (s : St) : Z := sio_ctrl (regs s).
Definition sio_peek_rx_data (s : St) : Z := sio_rx_data (regs s).

(** *** The controller *)

(** A deferred host type request of slot [i], applied at an idle boundary. *)
Definition apply_type_req (i : Z) (p : Pad) : Pad :=
  if (0 <=? aget (pad_type_req p) i) && (aget (pad_in_config p) i =? 0)
     && (aget (analog_mode_locked p) i =? 0)
  then p <| pad_analog := aset (pad_analog p) i (aget (pad_type_req p) i) |>
         <| pad_type_req := aset (pad_type_req p) i (-1) |>
  else p.

Definition response (l : list Z) : Pad -> Pad := fun p =>
  p <| pad_response := l ++ drop (length l) (pad_response p) |>
    <| pad_response_len := Z.of_nat (length l) |>.

(** A frame of buttons, with the stick axes when [axes]. *)
Definition poll_frame (id slot : Z) (axes : bool) (p : Pad) : list Z :=
  let btn := aget (pad_buttons p) slot in
  let st := nth (Z.to_nat slot) (pad_stick p) [] in
  [id; 0x5A; Z.land btn 0xFF; u8 (Z.shiftr btn 8)] ++
  (if axes then [aget st 2; aget st 3; aget st 0; aget st 1] else []).

Definition zero_frame (id : Z) : list Z := [id; 0x5A; 0; 0; 0; 0; 0; 0].

(** The canned answers to the configuration commands. *)
Definition config_response (tx analog : Z) : list Z :=
  if tx =? 0x45 then [0xF3; 0x5A; 0x03; b2z (negb (analog =? 0)); 0x01; 0x02; 0x01; 0x00]
  else if tx =? 0x46 then [0xF3; 0x5A; 0x00; 0x00; 0x01; 0x02; 0x00; 0x0A]
  else if tx =? 0x47 then [0xF3; 0x5A; 0x00; 0x00; 0x02; 0x00; 0x01; 0x00]
  else if tx =? 0x4C then [0xF3; 0x5A; 0x00; 0x00; 0x00; 0x04; 0x00; 0x00]
  else [0xF3; 0x5A; 0x00; 0x00; 0x00; 0x00; 0x00; 0x00].

Definition cur_id (slot : Z) (p : Pad) : Z :=
  if negb (aget (pad_in_config p) slot =? 0) then 0xF3
  else if negb (aget (pad_analog p) slot =? 0) then 0x73 else 0x41.

(** The frame a command selects, [None] for no answer. *)
Definition command_response (tx slot : Z) (p : Pad) : option (list Z) :=
  let ds := negb (aget (pad_supports_config p) slot =? 0) in
  let in_config := negb (aget (pad_in_config p) slot =? 0) in
  let analog := aget (pad_analog p) slot in
  if tx =? 0x42 then Some (poll_frame (cur_id slot p) slot (negb (analog =? 0) || in_config) p)
  else if ds && (tx =? 0x43) then
    if g_pad_legacy_cfg p then Some (zero_frame 0xF3)
    else if negb in_config then Some (poll_frame (cur_id slot p) slot (negb (analog =? 0)) p)
    else Some (zero_frame (cur_id slot p))
  else if ds && g_pad_legacy_cfg p && ((tx =? 0x45) || (tx =? 0x46) || (tx =? 0x47) || (tx =? 0x4C) || (tx =? 0x4D))
  then Some (config_response tx analog)
  else if ds && negb (g_pad_legacy_cfg p) && in_config
       && ((tx =? 0x44) || (tx =? 0x45) || (tx =? 0x46) || (tx =? 0x47) || (tx =? 0x4C) || (tx =? 0x4D) || (tx =? 0x4F))
  then Some (config_response tx analog)
  else None.

(** The data bytes of commands 0x43 and 0x44. *)
Definition latch_config (tx slot : Z) (p : Pad) : Pad :=
  if g_pad_legacy_cfg p then p else
  let p := if (pad_current_cmd p =? 0x43) && (pad_response_idx p =? 2)
           then p <| pad_in_config := aset (pad_in_config p) slot (b2z (tx =? 0x01)) |> else p in
  let p := if (pad_current_cmd p =? 0x44) && (pad_response_idx p =? 2)
           then p <| pad_analog := aset (pad_analog p) slot (b2z (tx =? 0x01)) |>
                  <| pad_type_req := aset (pad_type_req p) slot (-1) |> else p in
  if (pad_current_cmd p =? 0x44) && (pad_response_idx p =? 3)
  then if tx =? 0x03 then p <| analog_mode_locked := aset (analog_mode_locked p) slot 1 |>
       else if tx =? 0x02 then p <| analog_mode_locked := aset (analog_mode_locked p) slot 0 |>
       else p
  else p.

(** One byte: the received byte and whether the pad acknowledges. *)
Definition pad_exchange (tx slot : Z) (p : Pad) : Z * bool * Pad :=
  let p := if bool_decide (pad_state p = PAD_IDLE) then forZ 0 2 apply_type_req p else p in
  match pad_state p with
  | PAD_IDLE =>
      if (tx =? 0x01) && has (pad_connected p) (Z.shiftl 1 slot)
      then (0xFF, true, p <| pad_state := PAD_WAIT_ACCESS |>)
      else (0xFF, false, p)
  | PAD_WAIT_ACCESS =>
      let p := p <| pad_current_cmd := tx |> <| pad_response_idx := 1 |> in
      match command_response tx slot p with
      | Some l =>
          let p := (response l p) <| pad_state := PAD_SEND_RESPONSE |> in
          (aget (pad_response p) 0, true, p)
      | None => (0xFF, false, pad_reset p)
      end
  | PAD_SEND_RESPONSE =>
      let p := latch_config tx slot p in
      if pad_response_idx p <? pad_response_len p then
        let v := aget (pad_response p) (pad_response_idx p) in
        let p := p <| pad_response_idx := u8 (pad_response_idx p + 1) |> in
        if pad_response_idx p <? pad_response_len p then (v, true, p) else (v, false, pad_reset p)
      else (0xFF, false, pad_reset p)
  end.

Definition pad_process_byte (tx : Z) (s : St) : St :=
  let '(rx, ack, p) := pad_exchange tx (selected_slot s) (pad s) in
  let s := on_pad (fun _ => p) s in
  let s := set_rx rx s in
  let s := if ack then or_stat SIO_STAT_ACK s else s in
  or_stat TX_IDLE (or_stat SIO_STAT_RX_RDY s).

(** *** The memory card *)

Definition acknowledge (v : Z) (s : St) : St := or_stat SIO_STAT_ACK (set_rx v s).

(** Next state, answer, acknowledge. *)
Definition answer (m : McState) (v : Z) (s : St) : St := acknowledge v (set_mc_state m s).

Definition xor_data (d : list Z) (x : Z) : Z := forZ 0 128 (fun i x => Z.lxor x (aget d i)) x.

Definition mc_step (tx : Z) (s : St) : St :=
  let m := mc s in
  match mc_state m with
  | MC_IDLE =>
      let s := s <| mc_slot := selected_slot s |> in
      if Memcard.memcard_is_present (mc_slot s) (cards s) then
        on_diag (fun d => d <| ack_count := ack_count d + 1 |>) (answer MC_CMD 0xFF s)
      else set_rx 0xFF s
  | MC_CMD =>
      let s := on_mc (fun c => c <| mc_cmd := tx |>) s in
      let s := on_diag (fun d => d <| cmd_count := cmd_count d + 1 |>) s in
      if (tx =? 0x52) || (tx =? 0x57) || (tx =? 0x53) then
        let s := if tx =? 0x52 then on_diag (fun d => d <| read_count := read_count d + 1 |>) s else s in
        on_mc (fun c => c <| mc_flag := 0 |>) (answer MC_ID1 (mc_flag m) s)
      else set_rx 0xFF (set_mc_state MC_IDLE s)
  | MC_ID1 => answer MC_ID2 0x5A s
  | MC_ID2 => answer (if mc_cmd m =? 0x53 then MC_GETID_1 else MC_ADDR_MSB) 0x5D s
  | MC_GETID_1 => answer MC_GETID_2 0x04 s
  | MC_GETID_2 => answer MC_GETID_3 0x00 s
  | MC_GETID_3 => answer MC_GETID_4 0x00 s
  | MC_GETID_4 => set_rx 0x80 (set_mc_state MC_IDLE s)
  | MC_ADDR_MSB => answer MC_ADDR_LSB 0x00 (on_mc (fun c => c <| mc_sector_msb := tx |>) s)
  | MC_ADDR_LSB =>
      let sector := Z.lor (u16 (Z.shiftl (mc_sector_msb m) 8)) tx in
      let s := on_mc (fun c => c <| mc_sector_lsb := tx |> <| mc_sector := sector |>) s in
      let s :=
        if mc_cmd m =? 0x52 then
          let d := if sector <? Memcard.MEMCARD_SECTORS
                   then default (mc_data m) (Memcard.memcard_read_sector (mc_slot s) sector (cards s))
                   else replicate 128 0xFF in
          on_mc (fun c => c <| mc_data := d |> <| mc_data_idx := 0 |>
                   <| mc_checksum := xor_data d (Z.lxor (mc_sector_msb c) tx) |>
                   <| mc_state := MC_READ_ACK1 |>) s
        else on_mc (fun c => c <| mc_data_idx := 0 |> <| mc_state := MC_WRITE_DATA |>) s in
      acknowledge 0x00 s
  | MC_READ_ACK1 => answer MC_READ_ACK2 0x5C s
  | MC_READ_ACK2 => answer MC_READ_MSB_ECHO 0x5D s
  | MC_READ_MSB_ECHO => answer MC_READ_LSB_ECHO (mc_sector_msb m) s
  | MC_READ_LSB_ECHO =>
      answer MC_READ_DATA (mc_sector_lsb m) (on_mc (fun c => c <| mc_data_idx := 0 |>) s)
  | MC_READ_DATA =>
      let v := aget (mc_data m) (mc_data_idx m) in
      let s := on_mc (fun c => c <| mc_data_idx := mc_data_idx c + 1 |>) s in
      let s := if 128 <=? mc_data_idx (mc s) then set_mc_state MC_READ_CHK s else s in
      acknowledge v s
  | MC_READ_CHK => answer MC_READ_END (mc_checksum m) s
  | MC_READ_END =>
      let s := set_mc_state MC_IDLE s in
      let s := on_diag (fun d => d <| read_done := read_done d + 1 |>) s in
      let s := call (CardReadSummary (u8 (mc_slot s)) (mc_cmd m) (mc_sector m) (mc_checksum m)
                       (u8 (mc_data_idx m)) (mc_data m)) s in
      set_rx (if mc_sector m <? Memcard.MEMCARD_SECTORS then 0x47 else 0xFF) s
  | MC_WRITE_DATA =>
      let s := on_mc (fun c => c <| mc_data := aset (mc_data c) (mc_data_idx c) tx |>
                        <| mc_data_idx := mc_data_idx c + 1 |>) s in
      let s := if 128 <=? mc_data_idx (mc s) then set_mc_state MC_WRITE_CHK s else s in
      acknowledge 0x00 s
  | MC_WRITE_CHK =>
      let expected := xor_data (mc_data m) (Z.lxor (mc_sector_msb m) (mc_sector_lsb m)) in
      let s := answer MC_WRITE_ACK1 0x00 s in
      if (tx =? expected) && (mc_sector m <? Memcard.MEMCARD_SECTORS) then
        let '(_, k) := Memcard.memcard_write_sector (mc_slot s) (mc_sector m) (mc_data m) (cards s) in
        let s := s <| cards := Memcard.memcard_flush (mc_slot s) k |> in
        on_mc (fun c => c <| mc_checksum := 0x47 |>) s
      else if Memcard.MEMCARD_SECTORS <=? mc_sector m
      then on_mc (fun c => c <| mc_checksum := 0xFF |>) s
      else on_mc (fun c => c <| mc_checksum := 0x4E |>) s
  | MC_WRITE_ACK1 => answer MC_WRITE_ACK2 0x5C s
  | MC_WRITE_ACK2 => answer MC_WRITE_END 0x5D s
  | MC_WRITE_END =>
      on_mc (fun c => c <| mc_flag := 0 |>) (set_rx (mc_checksum m) (set_mc_state MC_IDLE s))
  end.

Definition mc_process_byte (tx : Z) (s : St) : St :=
  let code := mc_code (mc_state (mc s)) in
  let s := if max_state (diag s) <? code then on_diag (fun d => d <| max_state := code |>) s else s in
  or_stat TX_IDLE (or_stat SIO_STAT_RX_RDY (mc_step tx s)).

(** *** A byte on the bus *)

Definition slot_of_ctrl (s : St) : Z := if has (sio_ctrl (regs s)) SIO_CTRL_SLOT then 1 else 0.
Definition set_device (d : ActiveDevice) (s : St) : St := s <| active_device := d |>.

(** The card's turn: open a transaction when none is, note the state before. *)
Definition card_byte (slot tx : Z) (e : Env) (s : St) : St * option Z :=
  let s := if txn_is_open (diag s) then s else txn_open slot (trace_seq (diag s)) (func_addr e) s in
  (mc_process_byte tx s, Some (mc_code (mc_state (mc s)))).

Definition no_device (s : St) : St := or_stat TX_IDLE (set_rx 0xFF s).

(** The routing of a byte; the second component is the card's state before the
    byte when the card processed it. *)
Definition route_byte (e : Env) (tx : Z) (s : St) : St * option Z :=
  match active_device s with
  | DEV_NONE =>
      let s := s <| selected_slot := slot_of_ctrl s |> in
      if tx =? 0x01 then
        let s := if idle (mc_state (mc s)) then s
                 else set_mc_state MC_IDLE (mc_save_slot (mc_slot s) s) in
        (pad_process_byte tx (set_device DEV_PAD s), None)
      else if tx =? 0x81 then
        let s := mc_load_slot (selected_slot s) s in
        let s :=
          if idle (mc_state (mc s)) then s else
          let code := mc_code (mc_state (mc s)) in
          let s := on_diag (fun d => d <| abort_count := abort_count d + 1 |> <| abort_state := code |>
                                <| abort_ctrl := sio_ctrl (regs s) |>) s in
          set_mc_state MC_IDLE (txn_close SIO_TXN_END_ABORT_RESELECT code (func_addr e) s) in
        let s := (set_device DEV_MEMCARD s) <| mc_slot := selected_slot s |> in
        let s := on_diag (fun d => d <| probe_count := probe_count d + 1 |>
                              <| last_caller := func_addr e |>) s in
        card_byte (selected_slot s) tx e s
      else
        let s := mc_load_slot (selected_slot s) s in
        if negb (idle (mc_state (mc s))) && (selected_slot s =? mc_slot s) then
          card_byte (mc_slot s) tx e (set_device DEV_MEMCARD s)
        else
          let s := if idle (mc_state (mc s)) then s
                   else txn_close SIO_TXN_END_ABORT_SLOT (mc_code (mc_state (mc s))) (func_addr e) s in
          (no_device (set_mc_state MC_IDLE s), None)
  | DEV_PAD => (pad_process_byte tx s, None)
  | DEV_MEMCARD =>
      if idle (mc_state (mc s)) then
        if tx =? 0x81 then card_byte (mc_slot s) tx e s
        else
          let s := (set_device DEV_NONE s) <| selected_slot := slot_of_ctrl s |> in
          if tx =? 0x01 then (pad_process_byte tx (set_device DEV_PAD s), None)
          else (no_device s, None)
      else (mc_process_byte tx s, Some (mc_code (mc_state (mc s))))
  end.

Definition end_reason_of (pre : Z) : Z :=
  if (pre =? mc_code MC_READ_END) || (pre =? mc_code MC_WRITE_END) || (pre =? mc_code MC_GETID_4)
  then SIO_TXN_END_SUCCESS
  else if pre =? mc_code MC_CMD then SIO_TXN_END_ABORT_BAD_CMD else SIO_TXN_END_ABORT_OTHER.

(** Record the byte in its transaction, and close it when the card went idle. *)
Definition track_byte (e : Env) (tx ack_before : Z) (pre : option Z) (s : St) : St :=
  match pre with
  | Some pre =>
      if negb (txn_is_open (diag s)) then s else
      let code := mc_code (mc_state (mc s)) in
      let sector_now := if (mc_code MC_READ_ACK1 <=? code) || (code =? mc_code MC_WRITE_DATA)
                           || (mc_code MC_WRITE_ACK1 <=? code)
                        then mc_sector (mc s) else 0xFFFF in
      let s := txn_record_byte tx (sio_rx_data (regs s)) (mc_cmd (mc s)) sector_now
                 (ack_before <? ack_count (diag s)) (trace_seq (diag s)) s in
      if idle (mc_state (mc s)) && negb (pre =? mc_code MC_IDLE)
      then txn_close (end_reason_of pre) pre (func_addr e) s else s
  | None => s
  end.

Definition trace_byte (e : Env) (tx mc_pre dev_pre cd abort_before : Z) (s : St) : St :=
  on_diag (fun d =>
    d <| trace_buf := <[trace_idx d :=
           mkTrace (trace_seq d) tx (sio_rx_data (regs s)) mc_pre (mc_code (mc_state (mc s)))
             dev_pre (dev_code (active_device s)) (sio_ctrl (regs s)) (func_addr e)
             (abort_before <? abort_count d) cd (u8 (in_exception e)) (counter_7514 e)
             (cop0_sr e) (mc_code (mc_state (slot_at s 0))) (mc_code (mc_state (slot_at s 1)))]>
         (trace_buf d) |>
      <| trace_idx := (trace_idx d + 1) mod SIO_TRACE_CAP |>
      <| trace_seq := u32 (trace_seq d + 1) |>) s.

Definition sio_process_byte (e : Env) (tx : Z) (s : St) : St :=
  let mc_pre := mc_code (mc_state (mc s)) in
  let dev_pre := dev_code (active_device s) in
  let cd := if 255 <? sio_irq_countdown (irqctx s) then 255 else u8 (sio_irq_countdown (irqctx s)) in
  let abort_before := abort_count (diag s) in
  let ack_before := ack_count (diag s) in
  let '(s, pre) := route_byte e tx s in
  let s := track_byte e tx ack_before pre s in
  trace_byte e tx mc_pre dev_pre cd abort_before s.

(** *** Acknowledge and shifter *)

(** The interrupt ring entry of a delivered IRQ7. *)
Definition record_irq (e : Env) (before : Z) (s : St) : St :=
  let c := irqctx s in
  on_diag (fun d =>
    d <| irq_buf := <[irq_idx d :=
           mkIrq (irq_seq d) (sio_irq_pending_byte_seq c) before (i_stat s) (sio_irq_pending_mc_state c)
             (dev_code (active_device s)) (sio_ctrl (regs s)) (func_addr e) (counter_7514 e)
             (sio_irq_pending_source c) (sio_irq_pending_slot c) (sio_irq_pending_delay c)]> (irq_buf d) |>
      <| irq_idx := (irq_idx d + 1) mod SIO_IRQ_RING_CAP |>
      <| irq_seq := u32 (irq_seq d + 1) |>) s.

Definition timing_done (s : St) : St :=
  let p := pace s in
  if negb (sio_shift_active p) && negb (sio_tx_buffered p) && negb (sio_pending_ack p)
  then on_pace (fun p => p <| g_sio_timing_active := false |>) s else s.

Definition sio_consume_ack_event (s : St) : bool * St :=
  (has (sio_stat (regs s)) SIO_STAT_ACK, clear_stat SIO_STAT_ACK s).

Definition sio_fire_ack_irq (e : Env) (s : St) : St :=
  let s := or_stat SIO_STAT_ACK s in
  let s := on_irq (fun c => c <| sio_ack_visible_reads := 2 |>) s in
  let s := sr_record SR_EVT_ACK_FIRE 0 0 s in
  let irq_enabled := sio_pending_ack_irq_en (pace s) || has (sio_ctrl (regs s)) SIO_CTRL_ACK_IRQ_EN in
  let s := on_pace (fun p => p <| sio_pending_ack_irq_en := false |>) s in
  if negb irq_enabled then s else
  let s := or_stat SIO_STAT_IRQ s in
  let before := i_stat s in
  let s := ring_record EV_DEQ SRC_SIO 0 (irq_raise IRQ_SIO0 0 s) in
  let s := record_irq e before s in
  let s := on_diag (fun d => d <| pace_ack_fires := u64 (pace_ack_fires d + 1) |>) s in
  timing_done s.

(** The context the next acknowledge interrupt will report. *)
Definition irq_context (source delay : Z) (s : St) : St :=
  on_irq (fun c => c <| sio_irq_pending_source := source |>
            <| sio_irq_pending_slot := u8 (selected_slot s) |>
            <| sio_irq_pending_delay := u8 delay |>
            <| sio_irq_pending_mc_state := mc_code (mc_state (mc s)) |>
            <| sio_irq_pending_byte_seq := trace_seq (diag s) |>) s.

Definition promote_buffer (p : Pace) : Pace :=
  p <| sio_shift_byte := sio_tx_buffer p |> <| sio_shift_active := true |>
    <| sio_shift_remaining := SIO_BAUD_CYCLES_DEFAULT |>
    <| sio_shift_ack_irq_en := sio_tx_buffer_ack_irq_en p |>
    <| sio_tx_buffered := false |> <| sio_tx_buffer_ack_irq_en := false |>.

Definition sio_handle_shift_complete (e : Env) (s : St) : St :=
  let b := sio_shift_byte (pace s) in
  let s := sr_record SR_EVT_SHIFT_DONE b 0 s in
  let code := mc_code (mc_state (mc s)) in
  let s := if (b =? 0x01) && (mc_code MC_READ_DATA <=? code) && (code <=? mc_code MC_READ_END)
           then on_diag (fun d => d <| pace_pad_in_card := u64 (pace_pad_in_card d + 1) |>) s else s in
  let s := sio_process_byte e b s in
  let '(acked, s) := sio_consume_ack_event s in
  let s := on_pace (fun p => p <| sio_shift_active := false |>) s in
  let s := or_stat SIO_STAT_RX_RDY s in
  let s := on_diag (fun d => d <| pace_shift_completes := u64 (pace_shift_completes d + 1) |>) s in
  let s := irq_context (match active_device s with DEV_MEMCARD => SIO_IRQ_SRC_CARD_ACK
                        | _ => SIO_IRQ_SRC_PAD_ACK end) SIO_ACK_CYCLES_DEFAULT s in
  let s := if acked then
             on_pace (fun p => p <| sio_pending_ack := true |>
                        <| sio_ack_remaining := SIO_ACK_CYCLES_DEFAULT |>
                        <| sio_pending_ack_irq_en := sio_shift_ack_irq_en p |>) s
           else s in
  let s :=
    if sio_tx_buffered (pace s) then
      let s := or_stat SIO_STAT_TX_EMPTY (on_pace promote_buffer s) in
      let s := on_pace (fun p => p <| sio_bus_byte_index := u32 (sio_bus_byte_index p + 1) |>) s in
      let s := on_diag (fun d => d <| pace_promoted := u64 (pace_promoted d + 1) |>) s in
      if bool_decide (sio_bus_owner (pace s) = SIO_OWNER_CARD)
      then on_diag (fun d => d <| pace_promoted_card := u64 (pace_promoted_card d + 1) |>) s else s
    else or_stat TX_IDLE s in
  timing_done s.

(** The event loop sio_advance and sio_tick share. *)
Record EvLoop := mkEv { el_remaining : Z; el_transitions : Z; el_break : bool; el_state : St }.

Inductive NextEvent := NoEvent | ShiftDone | AckDone.

(** How far the loop steps, and to which event. *)
Definition next_event (remaining : Z) (p : Pace) : Z * NextEvent :=
  let '(dt, ev) := (remaining, NoEvent) in
  let '(dt, ev) := if sio_shift_active p && (0 <? sio_shift_remaining p) && (sio_shift_remaining p <? dt)
                   then (sio_shift_remaining p, ShiftDone) else (dt, ev) in
  let '(dt, ev) := if sio_pending_ack p && (0 <? sio_ack_remaining p) && (sio_ack_remaining p <? dt)
                   then (sio_ack_remaining p, AckDone) else (dt, ev) in
  if sio_shift_active p && (sio_shift_remaining p <=? 0) then (0, ShiftDone)
  else if sio_pending_ack p && (sio_ack_remaining p <=? 0) then (0, AckDone)
  else (dt, ev).

Definition count_down (dt : Z) (p : Pace) : Pace :=
  let p := if sio_shift_active p then p <| sio_shift_remaining := sio_shift_remaining p - dt |> else p in
  if sio_pending_ack p then p <| sio_ack_remaining := sio_ack_remaining p - dt |> else p.

Definition event_guard (x : EvLoop) : bool :=
  (0 <? el_remaining x) && (el_transitions x <? MAX_TRANSITIONS) && negb (el_break x).

Definition event_round (e : Env) (x : EvLoop) : EvLoop :=
  let s := el_state x in
  let '(dt, ev) := next_event (el_remaining x) (pace s) in
  let s := on_pace (count_down dt) s in
  let remaining := el_remaining x - dt in
  match ev with
  | ShiftDone => mkEv remaining (el_transitions x + 1) false (sio_handle_shift_complete e s)
  | AckDone => mkEv remaining (el_transitions x + 1) false
                 (sio_fire_ack_irq e (on_pace (fun p => p <| sio_pending_ack := false |>) s))
  | NoEvent => mkEv remaining (el_transitions x) true s
  end.

Definition event_loop (e : Env) (cycles : Z) (s : St) : EvLoop :=
  pwhile 16 event_guard (event_round e) (mkEv cycles 0 false s).

Definition sio_advance (e : Env) (cycles : Z) (s : St) : St :=
  if cycles =? 0 then s else
  let s := on_diag (fun d => d <| advance_called := u64 (advance_called d + 1) |>) s in
  if negb (g_sio_timing_active (pace s)) then s else
  let s := on_diag (fun d => d <| advance_with_work := u64 (advance_with_work d + 1) |>) s in
  el_state (event_loop e (s32 cycles) s).

Definition sio_tick (e : Env) (cycles : Z) (s : St) : St :=
  let s := if 0 <? cycles then el_state (event_loop e cycles s) else s in
  let c := irqctx s in
  if sio_irq_pending c && (0 <? sio_irq_countdown c) then
    let s := on_irq (fun c => c <| sio_irq_countdown := sio_irq_countdown c - 1 |>) s in
    if sio_irq_countdown (irqctx s) =? 0 then
      let s := on_irq (fun c => c <| sio_irq_pending := false |>) s in
      let s := or_stat SIO_STAT_ACK s in
      let s := on_irq (fun c => c <| sio_ack_visible_reads := 2 |>) s in
      let s := or_stat TX_IDLE (or_stat SIO_STAT_IRQ s) in
      let before := i_stat s in
      let s := ring_record EV_DEQ SRC_SIO 1 (irq_raise IRQ_SIO0 1 s) in
      record_irq e before s
    else s
  else s.

Definition sio_tick_quantum (e : Env) : St -> St := sio_tick e sio_tick_quantum_cycles.

(** *** Register reads *)

Definition sio_read (e : Env) (addr : Z) (s : St) : Z * St :=
  let s := sio_tick e 0 (sio_debug_poll_maybe s) in
  if addr =? 0x1F801040 then
    let b := sio_rx_data (regs s) in
    let s := clear_stat SIO_STAT_RX_RDY s in
    let s := sr_record SR_EVT_RX_DATA_READ 0 b s in
    let code := mc_code (mc_state (mc s)) in
    let s := if bool_decide (active_device s = DEV_MEMCARD)
                && (mc_code MC_READ_DATA <=? code) && (code <=? mc_code MC_READ_END)
             then call (CardDataWritesArm b code (u8 (mc_data_idx (mc s))) (u8 (mc_slot s))) s else s in
    (b, s)
  else if addr =? 0x1F801044 then
    let observed := sio_stat (regs s) in
    let s := if observed =? last_stat_observed (diag s) then s
             else sr_record SR_EVT_STAT_READ 0 0
                    (on_diag (fun d => d <| last_stat_observed := observed |>) s) in
    let s :=
      if 0 <? sio_ack_visible_reads (irqctx s) then
        let s := on_irq (fun c => c <| sio_ack_visible_reads := sio_ack_visible_reads c - 1 |>) s in
        if sio_ack_visible_reads (irqctx s) =? 0 then clear_stat SIO_STAT_ACK s else s
      else s in
    (observed, s)
  else if addr =? 0x1F801048 then (sio_mode (regs s), s)
  else if addr =? 0x1F80104A then (sio_ctrl (regs s), s)
  else if addr =? 0x1F80104E then (sio_baud (regs s), s)
  else (0, s).

(** *** Register writes *)

(** A byte the pad answers at once; its acknowledge goes through the pacer. *)
Definition tx_pad_fast (e : Env) (b : Z) (s : St) : St :=
  let ctrl_pre := sio_ctrl (regs s) in
  let stat_pre := sio_stat (regs s) in
  let s := on_pace (fun p => (pace_kill p) <| sio_bus_owner := SIO_OWNER_PAD |>
                      <| sio_bus_byte_index := u32 (sio_bus_byte_index p + 1) |>
                      <| g_sio_timing_active := false |>) s in
  let s := sr_record SR_EVT_TX_DATA_WRITE b 0 s in
  let s := sio_process_byte e b s in
  let dev := active_device s in
  let armed := has (sio_stat (regs s)) SIO_STAT_ACK && has (sio_ctrl (regs s)) SIO_CTRL_ACK_IRQ_EN in
  let s :=
    if armed then
      let s := clear_stat (Z.lor SIO_STAT_ACK TX_IDLE) s in
      let s := on_pace (fun p => p <| sio_pending_ack := true |>
                          <| sio_ack_remaining := SIO_BAUD_CYCLES_DEFAULT + SIO_ACK_CYCLES_DEFAULT |>
                          <| sio_pending_ack_irq_en := true |> <| g_sio_timing_active := true |>) s in
      let s := ring_record EV_ENQ SRC_SIO (u32 (sio_ack_remaining (pace s))) s in
      irq_context SIO_IRQ_SRC_PAD_ACK SIO_ACK_CYCLES_DEFAULT s
    else or_stat TX_IDLE s in
  sio_card_arm_audit_record dev ctrl_pre stat_pre (sio_stat (regs s)) armed
    (sio_irq_countdown (irqctx s)) s.

Definition owner_of (b : Z) : SioBusOwner :=
  if b =? 0x81 then SIO_OWNER_CARD else if b =? 0x01 then SIO_OWNER_PAD else SIO_OWNER_UNKNOWN.

(** A byte for the shifter: started, buffered or dropped. *)
Definition tx_paced (b : Z) (s : St) : St :=
  let s := sr_record SR_EVT_TX_DATA_WRITE b 0 s in
  let s := if sio_bus_byte_index (pace s) =? 0
           then on_pace (fun p => p <| sio_bus_owner := owner_of b |>) s else s in
  let s := on_pace (fun p => p <| sio_bus_byte_index := u32 (sio_bus_byte_index p + 1) |>) s in
  let irq_en := has (sio_ctrl (regs s)) SIO_CTRL_ACK_IRQ_EN in
  if negb (sio_shift_active (pace s)) then
    let s := on_pace (fun p => p <| sio_shift_byte := b |> <| sio_shift_active := true |>
                        <| sio_shift_remaining := SIO_BAUD_CYCLES_DEFAULT |>
                        <| sio_shift_ack_irq_en := irq_en |>) s in
    let s := clear_stat TX_IDLE s in
    let s := on_pace (fun p => p <| g_sio_timing_active := true |>) s in
    sr_record SR_EVT_SHIFT_START b 0 s
  else if negb (sio_tx_buffered (pace s)) then
    let s := on_pace (fun p => p <| sio_tx_buffer := b |> <| sio_tx_buffered := true |>
                        <| sio_tx_buffer_ack_irq_en := irq_en |>) s in
    let s := clear_stat SIO_STAT_TX_EMPTY s in
    let s := on_diag (fun d => d <| pace_buffered := u64 (pace_buffered d + 1) |>) s in
    sr_record SR_EVT_BUFFER_LOAD b 0 s
  else
    let s := on_diag (fun d => d <| pace_dropped_busy := u64 (pace_dropped_busy d + 1) |>) s in
    sr_record SR_EVT_TX_DROPPED b 0 s.

Definition pad_fast_path (b : Z) (s : St) : bool :=
  negb (bool_decide (active_device s = DEV_MEMCARD)) &&
  (bool_decide (active_device s = DEV_PAD) || bool_decide (sio_bus_owner (pace s) = SIO_OWNER_PAD)
   || (b =? 0x01)).

Definition write_tx (e : Env) (value : Z) (s : St) : St :=
  let b := u8 value in
  let s := on_regs (fun r => r <| sio_tx_data := b |>) s in
  let s := on_diag (fun d => d <| tx_writes := tx_writes d + 1 |>
                        <| last_ctrl_on_tx := sio_ctrl (regs s) |>) s in
  if negb (has (sio_ctrl (regs s)) SIO_CTRL_TX_EN) then
    sr_record SR_EVT_TX_DATA_WRITE b 0 (on_diag (fun d => d <| tx_gated := tx_gated d + 1 |>) s)
  else if pad_fast_path b s then tx_pad_fast e b s else tx_paced b s.

Definition ctrl_ack (s : St) : St :=
  on_irq (fun c => c <| sio_ack_visible_reads := 0 |>)
    (clear_stat SIO_STAT_ACK (clear_stat SIO_STAT_IRQ s)).

Definition idle_slots (s : St) : St :=
  s <| mc_slots := map (fun m => m <| mc_state := MC_IDLE |>) (mc_slots s) |>.

Definition ctrl_reset (e : Env) (value : Z) (s : St) : St :=
  let code := mc_code (mc_state (mc s)) in
  let s := if idle (mc_state (mc s)) then s
           else on_diag (fun d => d <| abort_count := abort_count d + 1 |> <| abort_state := code |>
                             <| abort_ctrl := u16 value |>) s in
  let s := txn_close SIO_TXN_END_ABORT_RESET code (func_addr e) s in
  let s := on_regs (fun r => r <| sio_stat := TX_IDLE |> <| sio_mode := 0 |> <| sio_ctrl := 0 |>
                        <| sio_baud := 0 |>) s in
  let s := idle_slots (set_mc_state MC_IDLE (on_pad pad_reset s)) in
  let s := set_device DEV_NONE s in
  let s := on_irq (fun c => c <| sio_irq_pending := false |> <| sio_irq_countdown := 0 |>
                     <| sio_ack_visible_reads := 0 |>) s in
  sr_record SR_EVT_RESET 0 0 (on_pace pace_reset s).

Definition ctrl_select (s : St) : St :=
  sr_record SR_EVT_SELECT_ASSERT 0 0
    (on_pace (fun p => p <| sio_bus_owner := SIO_OWNER_NONE |> <| sio_bus_byte_index := 0 |>) s).

Definition ctrl_tx_disable (value : Z) (s : St) : St :=
  let p := pace s in
  if sio_shift_active p || sio_tx_buffered p || sio_pending_ack p then
    let s := on_pace pace_kill s in
    let s := if has value SIO_CTRL_SELECT then s
             else on_pace (fun p => p <| sio_bus_owner := SIO_OWNER_NONE |> <| sio_bus_byte_index := 0 |>) s in
    or_stat TX_IDLE (on_pace (fun p => p <| g_sio_timing_active := false |>) s)
  else s.

(** A slot after SELECT drops: flag and data survive. *)
Definition deselected (m : McSlotState) : McSlotState :=
  m <| mc_state := MC_IDLE |> <| mc_cmd := 0 |> <| mc_sector := 0 |> <| mc_sector_msb := 0 |>
    <| mc_sector_lsb := 0 |> <| mc_data_idx := 0 |> <| mc_checksum := 0 |>.

Definition ctrl_deselect (e : Env) (s : St) : St :=
  let card := bool_decide (active_device s = DEV_MEMCARD) in
  let code := mc_code (mc_state (mc s)) in
  let s := if card && negb (idle (mc_state (mc s)))
           then txn_close SIO_TXN_END_ABORT_OTHER code (func_addr e) s else s in
  let s := if card && (0 <=? mc_slot s) && (mc_slot s <=? 1)
           then set_slot (mc_slot s) ((slot_at s (mc_slot s)) <| mc_flag := mc_flag (mc s) |>) s else s in
  let s := set_mc_state MC_IDLE s in
  let s := s <| mc_slots := map deselected (mc_slots s) |> in
  let s := set_device DEV_NONE (on_pad pad_reset s) in
  let s := or_stat TX_IDLE (on_pace pace_reset s) in
  sr_record SR_EVT_SELECT_DEASS 0 0 s.

Definition write_ctrl (e : Env) (value : Z) (s : St) : St :=
  let old := sio_ctrl (regs s) in
  let s := on_regs (fun r => r <| sio_ctrl := u16 value |>) s in
  let s := sr_record SR_EVT_CTRL_WRITE (Z.land value 0xFF) (Z.land (Z.shiftr value 8) 0xFF) s in
  let s := if has value SIO_CTRL_ACK then ctrl_ack s else s in
  let s := if has value SIO_CTRL_RESET then ctrl_reset e value s else s in
  let s := if negb (has old SIO_CTRL_SELECT) && has value SIO_CTRL_SELECT then ctrl_select s else s in
  let s := if has old SIO_CTRL_TX_EN && negb (has value SIO_CTRL_TX_EN) then ctrl_tx_disable value s else s in
  if has old SIO_CTRL_SELECT && negb (has value SIO_CTRL_SELECT) then ctrl_deselect e s else s.

Definition sio_write (e : Env) (addr value : Z) (s : St) : St :=
  let s := sio_debug_poll_maybe s in
  let s := call (LogSioWrite addr value 4) s in
  let s :=
    if addr =? 0x1F801040 then write_tx e value s
    else if addr =? 0x1F801048 then
      sr_record SR_EVT_MODE_WRITE (Z.land value 0xFF) (Z.land (Z.shiftr value 8) 0xFF)
        (on_regs (fun r => r <| sio_mode := u16 value |>) s)
    else if addr =? 0x1F80104A then write_ctrl e value s
    else if addr =? 0x1F80104E then
      sr_record SR_EVT_BAUD_WRITE (Z.land value 0xFF) (Z.land (Z.shiftr value 8) 0xFF)
        (on_regs (fun r => r <| sio_baud := u16 value |>) s)
    else s in
  sio_tick e 0 s.

(** *** Boot snapshot *)

Record Snapshot := mkSnap {
  n_regs : Regs; n_analog : list Z; n_connected : Z; n_pad_state : PadState; n_selected : Z;
  n_response : list Z; n_len : Z; n_idx : Z; n_cmd : Z; n_in_config : list Z; n_type_req : list Z;
  n_mc : McSlotState; n_mc_slot : Z; n_slots : list McSlotState; n_device : ActiveDevice;
  n_pace : Pace; n_irq : IrqCtx
}.

Definition sio_snapshot_write (s : St) : Snapshot :=
  let p := pad s in
  mkSnap (regs s) (pad_analog p) (pad_connected p) (pad_state p) (selected_slot s) (pad_response p)
    (pad_response_len p) (pad_response_idx p) (pad_current_cmd p) (pad_in_config p) (pad_type_req p)
    (mc s) (mc_slot s) (mc_slots s) (active_device s) (pace s) (irqctx s).

Definition sio_snapshot_read (n : Snapshot) (s : St) : St :=
  let s := s <| regs := n_regs n |> <| selected_slot := n_selected n |> <| mc := n_mc n |>
             <| mc_slot := n_mc_slot n |> <| mc_slots := n_slots n |>
             <| active_device := n_device n |> <| pace := n_pace n |> <| irqctx := n_irq n |> in
  on_pad (fun p => p <| pad_analog := n_analog n |> <| pad_connected := n_connected n |>
            <| pad_state := n_pad_state n |> <| pad_response := n_response n |>
            <| pad_response_len := n_len n |> <| pad_response_idx := n_idx n |>
            <| pad_current_cmd := n_cmd n |> <| pad_in_config := n_in_config n |>
            <| pad_type_req := n_type_req n |>) s.

End Port.

(** ** The invariant

    Everything the C code indexes with, and the pacer's counters. *)

Section Invariant.
Context {W : Type} `{F : Memcard.Files W}.
Implicit Types s : State W.

Definition pair_of {A} (P : A -> Prop) (l : list A) : Prop := length l = 2%nat /\ Forall P l.

Definition flag_ok (x : Z) : Prop := x = 0 \/ x = 1.
Definition req_ok (x : Z) : Prop := x = -1 \/ x = 0 \/ x = 1.
Definition port_ok (slot : Z) : Prop := slot = 0 \/ slot = 1.

Record pad_ok (p : Pad) : Prop := {
  po_buttons : length (pad_buttons p) = 2%nat;
  po_analog : pair_of flag_ok (pad_analog p);
  po_stick : pair_of (fun l => length l = 4%nat) (pad_stick p);
  po_locked : pair_of flag_ok (analog_mode_locked p);
  po_config : pair_of flag_ok (pad_in_config p);
  po_supports : pair_of flag_ok (pad_supports_config p);
  po_req : pair_of req_ok (pad_type_req p);
  po_response : length (pad_response p) = 8%nat;
  po_len : 0 <= pad_response_len p <= 8;
  po_idx : 0 <= pad_response_idx p <= 8;
}.

(** In the two data states the index is inside the sector buffer. *)
Definition streaming (m : McState) : bool :=
  match m with MC_READ_DATA | MC_WRITE_DATA => true | _ => false end.

Record mc_ok (m : McSlotState) : Prop := {
  mo_data : length (mc_data m) = 128%nat;
  mo_idx : 0 <= mc_data_idx m <= 128;
  mo_stream : streaming (mc_state m) = true -> mc_data_idx m < 128;
}.

Record pace_ok (p : Pace) : Prop := {
  pa_shift : 0 <= sio_shift_remaining p <= SIO_BAUD_CYCLES_DEFAULT;
  pa_ack : 0 <= sio_ack_remaining p <= SIO_BAUD_CYCLES_DEFAULT + SIO_ACK_CYCLES_DEFAULT;
  pa_buffer : sio_tx_buffered p = true -> sio_shift_active p = true;
  pa_timing : sio_shift_active p || sio_pending_ack p = true -> g_sio_timing_active p = true;
}.

Definition wf (s : State W) : Prop :=
  pad_ok (pad s) /\ port_ok (selected_slot s) /\ mc_ok (mc s) /\ port_ok (mc_slot s) /\
  pair_of mc_ok (mc_slots s) /\ pace_ok (pace s) /\ Memcard.wf (cards s).

Lemma pair_aset (P : Z -> Prop) l i v : P v -> pair_of P l -> pair_of P (aset l i v).
Proof. intros Hv [Hl Hf]. split; [by rewrite length_aset|by apply aset_Forall]. Qed.

Lemma pair_insert {A} (P : A -> Prop) l i v : P v -> pair_of P l -> pair_of P (<[i := v]> l).
Proof. intros Hv [Hl Hf]. split; [by rewrite length_insert|by apply Forall_insert]. Qed.

Lemma pair_map {A} (P : A -> Prop) f l : (forall x, P x -> P (f x)) -> pair_of P l -> pair_of P (map f l).
Proof.
  intros Hf [Hl HP]. split; [by rewrite length_map|].
  clear Hl. induction HP; simpl; constructor; auto.
Qed.

Lemma pair_aget (P : Z -> Prop) l i : pair_of P l -> port_ok i -> P (aget l i).
Proof.
  intros [Hl Hf] Hi. destruct l as [|a [|b [|]]]; try discriminate Hl.
  inversion_clear Hf as [|? ? Ha Hf']. inversion_clear Hf' as [|? ? Hb _].
  destruct Hi as [-> | ->]; [exact Ha|exact Hb].
Qed.

Lemma pair_nth {A} (P : A -> Prop) l i d : pair_of P l -> port_ok i -> P (nth (Z.to_nat i) l d).
Proof.
  intros [Hl Hf] Hi. destruct l as [|a [|b [|]]]; try discriminate Hl.
  inversion_clear Hf as [|? ? Ha Hf']. inversion_clear Hf' as [|? ? Hb _].
  destruct Hi as [-> | ->]; [exact Ha|exact Hb].
Qed.

Lemma b2z_flag b : flag_ok (b2z b).
Proof. destruct b; [by right|by left]. Qed.
Lemma flag_req x : flag_ok x -> req_ok x.
Proof. intros [|]; [right; by left|by right; right]. Qed.

Create HintDb sio.
#[local] Hint Resolve pair_aset pair_insert b2z_flag flag_req : sio.
#[local] Hint Extern 1 (flag_ok 0) => left; reflexivity : sio.
#[local] Hint Extern 1 (flag_ok 1) => right; reflexivity : sio.
#[local] Hint Extern 1 (req_ok (-1)) => left; reflexivity : sio.

(** *** The pad *)

Ltac pad_auto := intros []; split; cbn; rewrite ?length_aset; auto with sio; try lia.

Lemma pad_reset_ok p : pad_ok p -> pad_ok (pad_reset p).
Proof. pad_auto. Qed.

Lemma apply_type_req_ok i p : port_ok i -> pad_ok p -> pad_ok (apply_type_req i p).
Proof.
  intros Hi H. unfold apply_type_req. destruct (_ && _ && _) eqn:E; [|done].
  rewrite !andb_true_iff in E. destruct E as [[E _] _]. revert H. pad_auto.
  apply pair_aset; [|done]. destruct (pair_aget _ _ i po_req0 Hi) as [E'|[E'|E']]; rewrite E' in *;
    [lia|by left|by right].
Qed.

Lemma latch_config_ok tx slot p : pad_ok p -> pad_ok (latch_config tx slot p).
Proof.
  intros H. unfold latch_config. destruct (g_pad_legacy_cfg p); [done|].
  set (p1 := if _ && _ then _ else p). assert (pad_ok p1) as H1.
  { unfold p1. case_if; [revert H; pad_auto|done]. }
  clearbody p1. set (p2 := if _ && _ then _ else p1). assert (pad_ok p2) as H2.
  { unfold p2. case_if; [revert H1; pad_auto|done]. }
  clearbody p2. repeat case_if; try done; revert H2; pad_auto.
Qed.

Lemma latch_config_idx tx slot p :
  pad_response_idx (latch_config tx slot p) = pad_response_idx p /\
  pad_response_len (latch_config tx slot p) = pad_response_len p /\
  pad_response (latch_config tx slot p) = pad_response p.
Proof. unfold latch_config. repeat case_if; done. Qed.

Lemma command_response_length tx slot p l :
  command_response tx slot p = Some l -> (length l = 4 \/ length l = 8)%nat.
Proof.
  unfold command_response, poll_frame, zero_frame, config_response.
  repeat case_if; intros E'; simplify_eq; auto.
Qed.

Lemma pad_exchange_ok tx slot p rx ack p' :
  pad_exchange tx slot p = (rx, ack, p') -> pad_ok p -> pad_ok p'.
Proof.
  intros E H. unfold pad_exchange in E.
  set (p1 := if bool_decide _ then _ else p) in E.
  assert (pad_ok p1) as H1.
  { unfold p1. case_bool_decide; [|done].
    exact (apply_type_req_ok 1 _ (or_intror eq_refl) (apply_type_req_ok 0 _ (or_introl eq_refl) H)). }
  clearbody p1. destruct (pad_state p1).
  - destruct (_ && _); injection E as <- <- <-; [revert H1; pad_auto|done].
  - set (p2 := p1 <| pad_current_cmd := tx |> <| pad_response_idx := 1 |>) in E.
    assert (pad_ok p2) as H2 by (revert H1; unfold p2; pad_auto). clearbody p2.
    destruct (command_response tx slot p2) as [l|] eqn:El; injection E as <- <- <-.
    + pose proof (command_response_length _ _ _ _ El) as Hl. revert H2. pad_auto.
      rewrite length_app, length_drop. lia.
    + by apply pad_reset_ok.
  - pose proof (latch_config_ok tx slot p1 H1) as H2. set (p2 := latch_config tx slot p1) in *. clearbody p2.
    destruct (Z.ltb_spec (pad_response_idx p2) (pad_response_len p2)).
    + set (p3 := p2 <| pad_response_idx := _ |>) in E.
      assert (pad_ok p3) as H3.
      { revert H2. unfold p3. pad_auto. rewrite u8_id; lia. }
      clearbody p3. destruct (_ <? _); injection E as <- <- <-; [done|by apply pad_reset_ok].
    + injection E as <- <- <-. by apply pad_reset_ok.
Qed.

(** *** The card *)

Lemma mc_ok_move m st : mc_ok m -> streaming st = false -> mc_ok (m <| mc_state := st |>).
Proof. intros [] H. split; cbn; [done|done|by rewrite H]. Qed.

(** Unfold a composition of component updates to its components. *)
Ltac wf_parts :=
  match goal with
  | H : wf _ |- wf _ =>
      let HP := fresh "HP" in let HS := fresh "HS" in let HM := fresh "HM" in let HK := fresh "HK" in
      let HL := fresh "HL" in let HQ := fresh "HQ" in let HC := fresh "HC" in
      destruct H as (HP & HS & HM & HK & HL & HQ & HC);
      split; [|split; [|split; [|split; [|split; [|split]]]]]; try assumption
  end.

Lemma mc_step_wf tx s : wf s -> wf (mc_step tx s).
Proof.
  intros H. unfold mc_step. destruct (mc_state (mc s)) eqn:Em; unfold answer, acknowledge; cbv zeta.
  - case_if; wf_parts. by apply mc_ok_move.
  - repeat case_if; wf_parts; (destruct HM; split; cbn; done).
  - wf_parts. by apply mc_ok_move.
  - wf_parts. apply mc_ok_move; [done|]. by case_if.
  - wf_parts. destruct HM; split; cbn; done.
  - set (d := if _ <? Memcard.MEMCARD_SECTORS then _ else _).
    assert (length d = 128%nat) as Hd.
    { destruct H as (_ & _ & HM & _ & _ & _ & HC). unfold d. case_if; [|apply length_replicate].
      match goal with |- context [default _ ?r] => destruct r eqn:Er end;
        [exact (Memcard.read_sector_length _ _ _ _ HC Er)|apply HM]. }
    clearbody d. case_if; wf_parts; (split; cbn; [|lia|lia]); [exact Hd|apply HM].
  - wf_parts. by apply mc_ok_move.
  - wf_parts. by apply mc_ok_move.
  - wf_parts. by apply mc_ok_move.
  - wf_parts. destruct HM; split; cbn; [done|lia|lia].
  - match goal with |- context [128 <=? ?i] => change i with (mc_data_idx (mc s) + 1) end.
    destruct (Z.leb_spec 128 (mc_data_idx (mc s) + 1)); wf_parts;
      (destruct HM as [? ? Hs]; rewrite Em in Hs; specialize (Hs eq_refl); split; cbn; [done|lia|intros; lia || congruence]).
  - wf_parts. by apply mc_ok_move.
  - wf_parts. by apply mc_ok_move.
  - match goal with |- context [128 <=? ?i] => change i with (mc_data_idx (mc s) + 1) end.
    destruct (Z.leb_spec 128 (mc_data_idx (mc s) + 1)); wf_parts;
      (destruct HM as [? ? Hs]; rewrite Em in Hs; specialize (Hs eq_refl);
       split; cbn; [by rewrite length_aset|lia|intros; lia || congruence]).
  - case_if.
    + match goal with |- context [Memcard.memcard_write_sector ?a ?b ?c ?k] =>
        pose proof (Memcard.write_sector_wf a b c k) as Hw;
        destruct (Memcard.memcard_write_sector a b c k) as [r k'] end.
      wf_parts; [destruct HM; split; cbn; done|].
      apply Memcard.flush_wf, Hw; [exact HC|apply HM].
    + case_if; wf_parts; (destruct HM; split; cbn; done).
  - wf_parts. by apply mc_ok_move.
  - wf_parts. by apply mc_ok_move.
  - wf_parts. destruct HM; split; cbn; done.
  - wf_parts. by apply mc_ok_move.
  - wf_parts. by apply mc_ok_move.
  - wf_parts. by apply mc_ok_move.
  - wf_parts. by apply mc_ok_move.
Qed.

Lemma mc_process_byte_wf tx s : wf s -> wf (mc_process_byte tx s).
Proof.
  intros H. unfold mc_process_byte. cbv zeta.
  assert (forall s', wf s' -> wf (or_stat TX_IDLE (or_stat SIO_STAT_RX_RDY s'))) as Hs by (intros s' H'; exact H').
  apply Hs, mc_step_wf. case_if; exact H.
Qed.

Lemma pad_process_byte_wf tx s : wf s -> wf (pad_process_byte tx s).
Proof.
  intros H. unfold pad_process_byte. destruct (pad_exchange _ _ _) as [[rx ack] p] eqn:E.
  assert (pad_ok p) as Hp by exact (pad_exchange_ok _ _ _ _ _ _ E (proj1 H)).
  case_if; wf_parts.
Qed.

(** *** Routing *)

Lemma port_of_ctrl s : port_ok (slot_of_ctrl s).
Proof. unfold slot_of_ctrl, port_ok. case_if; auto. Qed.

Lemma bad_port slot : port_ok slot -> (slot <? 0) || (1 <? slot) = false.
Proof. by intros [-> | ->]. Qed.

Lemma txn_close_wf r t f s : wf s -> wf (txn_close r t f s).
Proof. intros H. unfold txn_close. case_if; exact H. Qed.

Lemma set_idle_wf s : wf s -> wf (set_mc_state MC_IDLE s).
Proof. intros H. wf_parts. by apply mc_ok_move. Qed.

Lemma save_slot_wf slot s : wf s -> wf (mc_save_slot slot s).
Proof. intros H. unfold mc_save_slot. case_if; [exact H|]. wf_parts. by apply pair_insert. Qed.

Lemma load_slot_wf s : wf s -> wf (mc_load_slot (selected_slot s) s).
Proof.
  intros H. unfold mc_load_slot. case_if; [exact H|]. wf_parts.
  exact (pair_nth mc_ok (mc_slots s) (selected_slot s) mc_zero HL HS).
Qed.

Lemma card_byte_wf slot tx e s : wf s -> wf (card_byte slot tx e s).1.
Proof. intros H. unfold card_byte. cbv zeta. cbn [fst]. apply mc_process_byte_wf. case_if; exact H. Qed.

Lemma set_device_wf d s : wf s -> wf (set_device d s).
Proof. intros H. exact H. Qed.

Lemma select_wf s : wf s -> wf (s <| selected_slot := slot_of_ctrl s |>).
Proof. intros H. wf_parts. apply port_of_ctrl. Qed.

Lemma route_byte_wf e tx s : wf s -> wf (route_byte e tx s).1.
Proof.
  intros H. unfold route_byte. destruct (active_device s); cbv zeta.
  - pose proof (select_wf s H) as H1. set (s1 := s <| selected_slot := slot_of_ctrl s |>) in *. clearbody s1.
    case_if; [|case_if].
    + apply pad_process_byte_wf, set_device_wf. case_if; [done|]. by apply set_idle_wf, save_slot_wf.
    + apply card_byte_wf. set (s2 := if idle _ then _ else _).
      assert (wf s2 /\ selected_slot s2 = selected_slot s2) as [H2 _].
      { split; [|done]. unfold s2. pose proof (load_slot_wf s1 H1) as Hl. case_if; [exact Hl|].
        apply set_idle_wf, txn_close_wf. exact Hl. }
      clearbody s2. wf_parts.
    + pose proof (load_slot_wf s1 H1) as Hl.
      set (s2 := mc_load_slot (selected_slot s1) s1) in *. clearbody s2. case_if.
      * by apply card_byte_wf.
      * assert (forall x, wf x -> wf (no_device x)) as Hn by (intros x Hx; exact Hx). cbn [fst].
        apply Hn, set_idle_wf. case_if; [done|]. by apply txn_close_wf.
  - by apply pad_process_byte_wf.
  - case_if; [case_if|].
    + by apply card_byte_wf.
    + pose proof (select_wf (set_device DEV_NONE s) H) as H1.
      set (s1 := (set_device DEV_NONE s) <| selected_slot := _ |>) in *.
      case_if; [apply pad_process_byte_wf; exact H1|exact H1].
    + by apply mc_process_byte_wf.
Qed.

Lemma track_byte_wf e tx a pre s : wf s -> wf (track_byte e tx a pre s).
Proof.
  intros H. unfold track_byte. destruct pre as [pre|]; [|done]. case_if; [done|]. cbv zeta.
  assert (forall a b c d f g x, wf x -> wf (txn_record_byte a b c d f g x)) as Hr.
  { intros. unfold txn_record_byte. case_if; assumption. }
  case_if; [apply txn_close_wf|]; by apply Hr.
Qed.

Lemma sio_process_byte_wf e tx s : wf s -> wf (sio_process_byte e tx s).
Proof.
  intros H. unfold sio_process_byte. cbv zeta. pose proof (route_byte_wf e tx s H) as Hr.
  destruct (route_byte e tx s) as [s1 pre]. exact (track_byte_wf _ _ _ _ _ Hr).
Qed.

(** *** The pacer *)

Lemma pace_wf f s : pace_ok (f (pace s)) -> wf s -> wf (on_pace f s).
Proof. intros Hf H. wf_parts. Qed.

Lemma timing_done_wf s : wf s -> wf (timing_done s).
Proof.
  intros H. unfold timing_done. case_if; [|done]. apply pace_wf; [|done].
  destruct H as (_ & _ & _ & _ & _ & [] & _).
  rewrite !andb_true_iff, !negb_true_iff in E. destruct E as [[E1 E2] E3].
  split; cbn; [done|done|by rewrite E2|by rewrite E1, E3].
Qed.

(** Processing a byte leaves the pacer alone. *)
Lemma mc_step_pace tx s : pace (mc_step tx s) = pace s.
Proof.
  unfold mc_step. destruct (mc_state (mc s)); repeat case_if; try reflexivity.
  destruct (Memcard.memcard_write_sector _ _ _ _). reflexivity.
Qed.

Lemma mc_process_byte_pace tx s : pace (mc_process_byte tx s) = pace s.
Proof.
  unfold mc_process_byte. cbv zeta.
  assert (forall x, pace (or_stat TX_IDLE (or_stat SIO_STAT_RX_RDY x)) = pace x) as -> by reflexivity.
  rewrite mc_step_pace. case_if; reflexivity.
Qed.

Lemma pad_process_byte_pace tx s : pace (pad_process_byte tx s) = pace s.
Proof. unfold pad_process_byte. destruct (pad_exchange _ _ _) as [[? []] ?]; reflexivity. Qed.

Lemma card_byte_pace slot tx e s : pace (card_byte slot tx e s).1 = pace s.
Proof. unfold card_byte. cbv zeta. cbn [fst]. rewrite mc_process_byte_pace. case_if; reflexivity. Qed.

Lemma txn_close_pace r t f s : pace (txn_close r t f s) = pace s.
Proof. unfold txn_close. case_if; reflexivity. Qed.

Lemma load_slot_pace slot s : pace (mc_load_slot slot s) = pace s.
Proof. unfold mc_load_slot. case_if; reflexivity. Qed.

Lemma save_slot_pace slot s : pace (mc_save_slot slot s) = pace s.
Proof. unfold mc_save_slot. case_if; reflexivity. Qed.

Lemma set_idle_pace s : pace (set_mc_state MC_IDLE s) = pace s.
Proof. reflexivity. Qed.

Lemma no_device_pace s : pace (no_device s) = pace s.
Proof. reflexivity. Qed.

Lemma set_device_pace d s : pace (set_device d s) = pace s.
Proof. reflexivity. Qed.

Lemma on_diag_pace f s : pace (on_diag f s) = pace s.
Proof. reflexivity. Qed.

Lemma route_byte_pace e tx s : pace (route_byte e tx s).1 = pace s.
Proof.
  unfold route_byte. destruct (active_device s); cbv zeta.
  - transitivity (pace (s <| selected_slot := slot_of_ctrl s |>)); [|reflexivity].
    generalize (s <| selected_slot := slot_of_ctrl s |>). intros s1. case_if; [|case_if]; cbn [fst].
    + rewrite pad_process_byte_pace, set_device_pace. case_if; [done|].
      by rewrite set_idle_pace, save_slot_pace.
    + rewrite card_byte_pace, on_diag_pace.
      match goal with |- pace ((set_device DEV_MEMCARD ?x) <| mc_slot := _ |>) = _ => transitivity (pace x); [reflexivity|] end.
      case_if; [apply load_slot_pace|]. by rewrite set_idle_pace, txn_close_pace, on_diag_pace, load_slot_pace.
    + case_if; cbn [fst].
      * by rewrite card_byte_pace, set_device_pace, load_slot_pace.
      * rewrite no_device_pace, set_idle_pace. case_if; rewrite ?txn_close_pace; apply load_slot_pace.
  - apply pad_process_byte_pace.
  - case_if; [case_if|]; cbn [fst].
    + apply card_byte_pace.
    + case_if; cbn [fst]; [by rewrite pad_process_byte_pace|reflexivity].
    + apply mc_process_byte_pace.
Qed.

Lemma track_byte_pace e tx a pre s : pace (track_byte e tx a pre s) = pace s.
Proof.
  unfold track_byte. destruct pre as [pre|]; [|done]. case_if; [done|]. cbv zeta.
  assert (forall a b c d f g (x : State W), pace (txn_record_byte a b c d f g x) = pace x) as Hr.
  { intros. unfold txn_record_byte. case_if; reflexivity. }
  case_if; rewrite ?txn_close_pace; apply Hr.
Qed.

Lemma process_byte_pace e tx s : pace (sio_process_byte e tx s) = pace s.
Proof.
  unfold sio_process_byte. cbv zeta. pose proof (route_byte_pace e tx s) as Hr.
  destruct (route_byte e tx s) as [s1 pre]. cbn [fst] in Hr. rewrite <- Hr.
  exact (track_byte_pace _ _ _ _ s1).
Qed.

Lemma next_event_spec rem p :
  pace_ok p -> 0 < rem ->
  let '(dt, ev) := next_event rem p in
  0 <= dt <= rem /\
  (sio_shift_active p = true -> dt <= sio_shift_remaining p) /\
  (sio_pending_ack p = true -> dt <= sio_ack_remaining p) /\
  match ev with
  | ShiftDone => sio_shift_active p = true /\ sio_shift_remaining p = dt
  | AckDone => sio_pending_ack p = true /\ sio_ack_remaining p = dt
  | NoEvent => dt = rem
  end.
Proof.
  intros [[Hs _] [Ha _] _ _] Hr. unfold next_event.
  destruct (sio_shift_active p) eqn:Es, (sio_pending_ack p) eqn:Ep; cbn [andb]; btest; cbn [andb];
    cbv beta iota zeta; btest; cbv beta iota zeta; repeat split; intros; try lia; try done.
Qed.

Lemma count_down_ok rem p :
  pace_ok p -> 0 < rem -> pace_ok (count_down (next_event rem p).1 p).
Proof.
  intros Hp Hr. pose proof (next_event_spec rem p Hp Hr) as H.
  destruct (next_event rem p) as [dt ev]. destruct H as (H0 & H1 & H2 & _). cbn [fst].
  destruct Hp as [Hs Ha Hb Ht]. unfold count_down.
  destruct (sio_shift_active p) eqn:Es; cbn; destruct (sio_pending_ack p) eqn:Ep;
    split; cbn; try rewrite Es; try rewrite Ep; try done; try lia; auto.
  all: destruct (sio_tx_buffered p); auto.
Qed.

Lemma count_down_flags dt p :
  sio_shift_active (count_down dt p) = sio_shift_active p /\
  sio_pending_ack (count_down dt p) = sio_pending_ack p /\
  sio_tx_buffered (count_down dt p) = sio_tx_buffered p /\
  g_sio_timing_active (count_down dt p) = g_sio_timing_active p.
Proof. unfold count_down. repeat case_if; done. Qed.

Lemma fire_ack_wf e s : wf s -> wf (sio_fire_ack_irq e s).
Proof.
  intros H. unfold sio_fire_ack_irq. cbv zeta.
  assert (forall x, wf x -> wf (on_pace (fun p => p <| sio_pending_ack_irq_en := false |>) x)) as Hp.
  { intros x Hx. apply pace_wf; [|exact Hx]. destruct Hx as (_ & _ & _ & _ & _ & [] & _). by split. }
  case_if.
  - apply Hp. exact H.
  - apply timing_done_wf.
    match goal with |- context [record_irq e ?b ?x] => assert (wf x) as Hx; [|exact Hx] end.
    apply (Hp _ H).
Qed.

(** The other components. *)
Definition rest s := (pad s, selected_slot s, mc s, mc_slot s, mc_slots s, cards s).

Lemma wf_rest s x : wf s -> rest x = rest s -> pace_ok (pace x) -> wf x.
Proof. unfold wf, rest. intros H [= -> -> -> -> -> ->] Hp. tauto. Qed.

(** The pacer after a completed byte. *)
Definition shift_pace (acked : bool) (p : Pace) : Pace :=
  let p := p <| sio_shift_active := false |> in
  let p := if acked then p <| sio_pending_ack := true |> <| sio_ack_remaining := SIO_ACK_CYCLES_DEFAULT |>
                            <| sio_pending_ack_irq_en := sio_shift_ack_irq_en p |> else p in
  let p := if sio_tx_buffered p
           then (promote_buffer p) <| sio_bus_byte_index := u32 (sio_bus_byte_index p + 1) |> else p in
  if negb (sio_shift_active p) && negb (sio_tx_buffered p) && negb (sio_pending_ack p)
  then p <| g_sio_timing_active := false |> else p.

(** What a byte exchange is about: all but the pacer, the diagnostics, the
    status word, TX_DATA and the interrupt context. *)
Definition calm s :=
  (rest s, active_device s, sio_rx_data (regs s), sio_ctrl (regs s), sio_irq_pending (irqctx s)).
Definition visible s := (calm s, i_stat s, log s).

Lemma timing_done_spec s :
  visible (timing_done s) = visible s /\
  pace (timing_done s) =
    let p := pace s in
    if negb (sio_shift_active p) && negb (sio_tx_buffered p) && negb (sio_pending_ack p)
    then p <| g_sio_timing_active := false |> else p.
Proof. unfold timing_done. cbv zeta. case_if; done. Qed.

(** A completed byte is a processed byte and a pacer step. *)
Lemma shift_complete_spec e s :
  exists s1 acked, visible s1 = visible s /\ regs s1 = regs s /\ pace s1 = pace s /\
    let s2 := sio_process_byte e (sio_shift_byte (pace s)) s1 in
    acked = has (sio_stat (regs s2)) SIO_STAT_ACK /\
    let x := sio_handle_shift_complete e s in
    visible x = visible s2 /\ pace x = shift_pace acked (pace s).
Proof.
  unfold sio_handle_shift_complete. cbv zeta.
  set (s1 := if _ && _ then _ else _).
  assert (visible s1 = visible s /\ regs s1 = regs s /\ pace s1 = pace s) as (V1 & G1 & P1)
    by (unfold s1; case_if; done).
  clearbody s1. exists s1. pose proof (process_byte_pace e (sio_shift_byte (pace s)) s1) as P2.
  rewrite P1 in P2. set (s2 := sio_process_byte e _ s1) in *. clearbody s2.
  exists (has (sio_stat (regs s2)) SIO_STAT_ACK). do 3 (split; [assumption|]).
  split; [reflexivity|]. unfold sio_consume_ack_event. cbv beta iota.
  set (acked := has _ _). clearbody acked. rewrite <- P2. clear.
  set (s4 := irq_context _ _ _).
  assert (visible s4 = visible s2 /\ pace s4 = (pace s2) <| sio_shift_active := false |>) as [V4 P4] by done.
  clearbody s4. set (s5 := if acked then _ else s4).
  assert (visible s5 = visible s4 /\ pace s5 = if acked
    then (pace s4) <| sio_pending_ack := true |> <| sio_ack_remaining := SIO_ACK_CYCLES_DEFAULT |>
                   <| sio_pending_ack_irq_en := sio_shift_ack_irq_en (pace s4) |>
    else pace s4) as [V5 P5] by (unfold s5; destruct acked; done).
  clearbody s5. set (s6 := if sio_tx_buffered (pace s5) then _ else _).
  assert (visible s6 = visible s5 /\ pace s6 = if sio_tx_buffered (pace s5)
    then (promote_buffer (pace s5)) <| sio_bus_byte_index := u32 (sio_bus_byte_index (pace s5) + 1) |>
    else pace s5) as [V6 P6] by (unfold s6; destruct (sio_tx_buffered (pace s5)); [case_if|]; done).
  clearbody s6. destruct (timing_done_spec s6) as [-> ->]. split; [congruence|].
  unfold shift_pace. cbv zeta. rewrite <- P4, <- P5, <- P6. done.
Qed.

Lemma shift_pace_ok acked p : pace_ok p -> sio_shift_active p = true -> pace_ok (shift_pace acked p).
Proof.
  intros [H1 H2 H3 H4] Ha. rewrite Ha in H4. specialize (H4 eq_refl).
  unfold shift_pace, SIO_ACK_CYCLES_DEFAULT, SIO_BAUD_CYCLES_DEFAULT in *. destruct acked; cbn;
    destruct (sio_tx_buffered p) eqn:Eb; cbn; rewrite ?Eb; cbn; try case_if; split; cbn; rewrite ?Eb;
    try done; try lia; try (by rewrite H4).
  by apply negb_true_iff in E as ->.
Qed.

Lemma shift_complete_wf e s :
  wf s -> sio_shift_active (pace s) = true -> wf (sio_handle_shift_complete e s).
Proof.
  intros H Hact. destruct (shift_complete_spec e s) as (s1 & acked & V1 & _ & P1 & _ & V2 & P2).
  assert (rest s1 = rest s) as R1 by (unfold visible, calm in V1; congruence).
  assert (rest (sio_handle_shift_complete e s) = rest (sio_process_byte e (sio_shift_byte (pace s)) s1)) as R2
    by (unfold visible, calm in V2; congruence).
  assert (pace_ok (pace s)) as Hp by apply H.
  apply (wf_rest (sio_process_byte e (sio_shift_byte (pace s)) s1)).
  - apply sio_process_byte_wf, (wf_rest s); [done|done|by rewrite P1].
  - exact R2.
  - rewrite P2. by apply shift_pace_ok.
Qed.

(** *** The event loop *)

Lemma event_round_wf e x :
  wf (el_state x) -> event_guard x = true -> wf (el_state (event_round e x)).
Proof.
  intros H Hg. unfold event_guard in Hg. rewrite !andb_true_iff in Hg. destruct Hg as [[Hr%Z.ltb_lt _] _].
  assert (pace_ok (pace (el_state x))) as Hp by apply H. unfold event_round.
  pose proof (next_event_spec _ _ Hp Hr) as Hn. pose proof (count_down_ok _ _ Hp Hr) as Hc.
  destruct (next_event _ _) as [dt ev]. cbn [fst] in Hc.
  pose proof (pace_wf (count_down dt) _ Hc H) as H1.
  destruct ev; cbn [el_state]; [exact H1| |].
  - apply shift_complete_wf; [exact H1|]. destruct Hn as (_ & _ & _ & Ha & _).
    exact (eq_trans (proj1 (count_down_flags dt (pace (el_state x)))) Ha).
  - apply fire_ack_wf, pace_wf; [|exact H1]. destruct H1 as (_ & _ & _ & _ & _ & [Q1 Q2 Q3 Q4] & _).
    split; cbn; [done|done|done|]. rewrite orb_false_r. intros Ha. apply Q4, orb_true_iff. left. exact Ha.
Qed.

Lemma event_loop_wf e cycles s : wf s -> wf (el_state (event_loop e cycles s)).
Proof.
  intros H. unfold event_loop. rewrite pwhile_nwhile. generalize (Pos.to_nat 16) as n.
  intros n. assert (wf (el_state (mkEv cycles 0 false s))) as H0 by exact H. revert H0.
  generalize (mkEv cycles 0 false s). induction n as [|n IH]; intros x Hx; simpl; [done|].
  destruct (event_guard x) eqn:Eg; [|done]. apply IH. by apply event_round_wf.
Qed.

Lemma sio_tick_wf e cycles s : wf s -> wf (sio_tick e cycles s).
Proof.
  intros H. unfold sio_tick. cbv zeta. set (s1 := if 0 <? cycles then _ else _).
  assert (wf s1) as H1 by (unfold s1; case_if; [by apply event_loop_wf|done]). clearbody s1.
  repeat case_if; exact H1.
Qed.

Lemma sio_advance_wf e cycles s : wf s -> wf (sio_advance e cycles s).
Proof.
  intros H. unfold sio_advance. cbv zeta. repeat case_if; try exact H. apply event_loop_wf. exact H.
Qed.

Lemma sio_read_wf e addr s : wf s -> wf (sio_read e addr s).2.
Proof.
  intros H. unfold sio_read. cbv zeta.
  assert (wf (sio_tick e 0 (sio_debug_poll_maybe s))) as H1.
  { apply sio_tick_wf. unfold sio_debug_poll_maybe. cbv zeta. case_if; exact H. }
  generalize dependent (sio_tick e 0 (sio_debug_poll_maybe s)). intros s1 H1.
  repeat case_if; exact H1.
Qed.

Lemma pace_kill_ok p : pace_ok p -> pace_ok (pace_kill p).
Proof. intros []. split; cbn; try done; unfold SIO_BAUD_CYCLES_DEFAULT, SIO_ACK_CYCLES_DEFAULT; lia. Qed.

Lemma pace_owner_ok p o i : pace_ok p -> pace_ok (p <| sio_bus_owner := o |> <| sio_bus_byte_index := i |>).
Proof. by intros []. Qed.

Lemma pace_stopped_ok p t :
  pace_ok p -> sio_shift_active p = false -> sio_pending_ack p = false ->
  pace_ok (p <| g_sio_timing_active := t |>).
Proof. intros [] E1 E2. split; cbn; try done. by rewrite E1, E2. Qed.

Lemma tx_pad_fast_wf e b s : wf s -> wf (tx_pad_fast e b s).
Proof.
  intros H. unfold tx_pad_fast. cbv zeta. set (s1 := on_pace _ s).
  assert (pace_ok (pace s)) as Hp by apply H.
  assert (wf s1) as H1.
  { apply pace_wf; [|exact H]. apply pace_stopped_ok; [|done|done].
    by apply pace_owner_ok, pace_kill_ok. }
  clearbody s1. pose proof (sio_process_byte_wf e b (sr_record SR_EVT_TX_DATA_WRITE b 0 s1) H1) as H2.
  set (s2 := sio_process_byte e b _) in *. clearbody s2.
  match goal with |- wf (sio_card_arm_audit_record _ _ _ _ _ _ ?x) => assert (wf x) as Hx; [|exact Hx] end.
  case_if; [|exact H2].
  match goal with |- wf (irq_context _ _ (ring_record _ _ _ ?x)) => assert (wf x) as Hx; [|exact Hx] end.
  apply pace_wf; [|exact H2]. destruct H2 as (_ & _ & _ & _ & _ & [Q1 Q2 Q3 Q4] & _).
  split; cbn; [exact Q1|unfold SIO_BAUD_CYCLES_DEFAULT, SIO_ACK_CYCLES_DEFAULT; lia|exact Q3|done].
Qed.

Lemma tx_paced_wf b s : wf s -> wf (tx_paced b s).
Proof.
  intros H. unfold tx_paced. cbv zeta. set (s1 := if sio_bus_byte_index _ =? 0 then _ else _).
  assert (wf s1) as H1.
  { unfold s1. case_if; [|exact H]. apply pace_wf; [|exact H].
    destruct H as (_ & _ & _ & _ & _ & [] & _). by split. }
  clearbody s1. set (s2 := on_pace _ s1). assert (wf s2) as H2.
  { apply pace_wf; [|exact H1]. destruct H1 as (_ & _ & _ & _ & _ & [] & _). by split. }
  clearbody s2. assert (pace_ok (pace s2)) as [Q1 Q2 Q3 Q4] by apply H2.
  destruct (sio_shift_active (pace s2)) eqn:Ea; cbn [negb].
  - destruct (negb (sio_tx_buffered (pace s2))); [|exact H2].
    match goal with |- wf (sr_record _ _ _ (on_diag _ (clear_stat _ ?x))) => assert (wf x) as Hx; [|exact Hx] end.
    apply pace_wf; [|exact H2]. split; cbn; [exact Q1|exact Q2|intros _; exact Ea|intros _; exact (Q4 eq_refl)].
  - match goal with |- wf (sr_record _ _ _ (on_pace ?f (clear_stat _ (on_pace ?g s2)))) =>
      assert (wf (on_pace (fun p => f (g p)) s2)) as Hx; [|exact Hx] end.
    apply pace_wf; [|exact H2].
    split; cbn; [unfold SIO_BAUD_CYCLES_DEFAULT; lia|exact Q2|done|done].
Qed.

Lemma write_tx_wf e v s : wf s -> wf (write_tx e v s).
Proof.
  intros H. unfold write_tx. cbv zeta. case_if; [exact H|].
  case_if; [apply tx_pad_fast_wf; exact H|apply tx_paced_wf; exact H].
Qed.

Lemma idle_slots_ok l : pair_of mc_ok l -> pair_of mc_ok (map (fun m => m <| mc_state := MC_IDLE |>) l).
Proof. apply pair_map. intros m Hm. by apply mc_ok_move. Qed.

Lemma deselected_ok m : mc_ok m -> mc_ok (deselected m).
Proof. intros []. split; cbn; [done|lia|done]. Qed.

Lemma pace_reset_ok p : pace_ok p -> pace_ok (pace_reset p).
Proof. intros H. by apply pace_stopped_ok; [apply pace_owner_ok, pace_kill_ok| |]. Qed.

Lemma ctrl_reset_wf e v s : wf s -> wf (ctrl_reset e v s).
Proof.
  intros H. unfold ctrl_reset. cbv zeta. set (s1 := if idle _ then s else _).
  assert (wf s1) as H1 by (unfold s1; case_if; exact H). clearbody s1.
  pose proof (txn_close_wf SIO_TXN_END_ABORT_RESET (mc_code (mc_state (mc s))) (func_addr e) s1 H1) as H2.
  set (s2 := txn_close _ _ _ s1) in *. clearbody s2. wf_parts.
  - by apply pad_reset_ok.
  - by apply mc_ok_move.
  - by apply idle_slots_ok.
  - by apply pace_reset_ok.
Qed.

Lemma ctrl_tx_disable_wf v s : wf s -> wf (ctrl_tx_disable v s).
Proof.
  intros H. unfold ctrl_tx_disable. cbv zeta. case_if; [|exact H].
  assert (pace_ok (pace s)) as Hp by apply H.
  match goal with |- wf (or_stat _ ?x) => assert (wf x) as Hx; [|exact Hx] end.
  case_if; wf_parts; (apply pace_stopped_ok; [|done|done]).
  - by apply pace_kill_ok.
  - by apply pace_owner_ok, pace_kill_ok.
Qed.

Lemma ctrl_deselect_wf e s : wf s -> wf (ctrl_deselect e s).
Proof.
  intros H. unfold ctrl_deselect. cbv zeta. set (s1 := if _ && negb (idle _) then _ else s).
  assert (wf s1) as H1 by (unfold s1; case_if; [by apply txn_close_wf|done]). clearbody s1.
  set (s2 := if _ && _ && _ then _ else s1). assert (wf s2) as H2.
  { unfold s2. case_if; [|done]. wf_parts. apply pair_insert; [|done].
    assert (mc_ok (slot_at s1 (mc_slot s1))) as [] by exact (pair_nth mc_ok _ _ mc_zero HL HK).
    by split. }
  clearbody s2. wf_parts.
  - by apply pad_reset_ok.
  - by apply mc_ok_move.
  - apply pair_map; [exact deselected_ok|done].
  - by apply pace_reset_ok.
Qed.

Lemma write_ctrl_wf e v s : wf s -> wf (write_ctrl e v s).
Proof.
  intros H. unfold write_ctrl. cbv zeta. generalize (sio_ctrl (regs s)). intros old.
  set (s1 := sr_record _ _ _ _). assert (wf s1) as H1 by exact H. clearbody s1.
  set (s2 := if has v SIO_CTRL_ACK then _ else _).
  assert (wf s2) as H2 by (unfold s2; case_if; exact H1). clearbody s2.
  set (s3 := if has v SIO_CTRL_RESET then _ else _).
  assert (wf s3) as H3 by (unfold s3; case_if; [by apply ctrl_reset_wf|done]). clearbody s3.
  set (s4 := if negb _ && _ then _ else s3). assert (wf s4) as H4.
  { unfold s4. case_if; [|done]. unfold ctrl_select.
    match goal with |- wf (sr_record _ _ _ ?x) => assert (wf x) as Hx; [|exact Hx] end.
    apply pace_wf; [|exact H3]. apply pace_owner_ok, H3. }
  clearbody s4. set (s5 := if _ && negb _ then _ else s4).
  assert (wf s5) as H5 by (unfold s5; case_if; [by apply ctrl_tx_disable_wf|done]). clearbody s5.
  case_if; [by apply ctrl_deselect_wf|done].
Qed.

Lemma sio_write_wf e addr v s : wf s -> wf (sio_write e addr v s).
Proof.
  intros H. unfold sio_write. cbv zeta. apply sio_tick_wf.
  set (s1 := call _ _). assert (wf s1) as H1.
  { unfold s1, sio_debug_poll_maybe. cbv zeta. case_if; exact H. }
  clearbody s1. repeat case_if; try exact H1; [by apply write_tx_wf|by apply write_ctrl_wf].
Qed.

(** *** Reachable states *)

(** What the guest, the clock and the host do to the port. *)
Inductive Op :=
| OpRead (addr : Z)
| OpWrite (addr value : Z)
| OpAdvance (cycles : Z)
| OpTick (cycles : Z)
| OpConnect (slot : Z) (connected : bool)
| OpConfigCapable (slot : Z) (capable : bool)
| OpButtons (slot buttons : Z)
| OpSticks (slot lx ly rx ry : Z)
| OpAnalog (slot : Z) (enabled : bool) (lx ly rx ry : Z)
| OpRequestType (slot : Z) (analog : bool)
| OpLegacy (v : bool)
| OpInit.

Definition run_op (e : Env) (o : Op) (s : State W) : State W :=
  match o with
  | OpRead a => (sio_read e a s).2
  | OpWrite a v => sio_write e a v s
  | OpAdvance c => sio_advance e c s
  | OpTick c => sio_tick e c s
  | OpConnect slot c => sio_set_pad_connected slot c s
  | OpConfigCapable slot c => sio_set_pad_config_capable slot c s
  | OpButtons slot b => sio_set_pad_state_slot slot b s
  | OpSticks slot a b c d => sio_set_pad_sticks slot a b c d s
  | OpAnalog slot en a b c d => sio_set_pad_analog slot en a b c d s
  | OpRequestType slot a => sio_request_pad_type slot a s
  | OpLegacy v => sio_set_legacy_cfg v s
  | OpInit => sio_init s
  end.

Definition run (ops : list (Env * Op)) (s : State W) : State W :=
  fold_left (fun s eo => run_op eo.1 eo.2 s) ops s.

(** The static initialisers of the file, over given cards. *)
Definition power_on (k : Memcard.State W) : State W :=
  mkState (mkRegs 0 0 0 0 0 0)
    (mkPad [0xFFFF; 0xFFFF] [0; 0] [[0x80; 0x80; 0x80; 0x80]; [0x80; 0x80; 0x80; 0x80]] [0; 0] 0
       PAD_IDLE (replicate 8 0) 0 0 0 [0; 0] [1; 1] [-1; -1] false)
    0 mc_zero 0 [mc_zero; mc_zero] DEV_NONE
    (mkPace false 0 0 false 0 false false false 0 false SIO_OWNER_NONE 0 false)
    (mkIrqCtx false 0 0 0 0 0 0 0)
    (mkDiag 0 0 0 0 0 0 0 0 0 0 0 0 0 0 ∅ 0 0 ∅ 0 0 false txn_zero ∅ 0 0 audit_zero audit_zero audit_zero
       0xFFFF 0 0 0 0 0 0 0 0 0)
    k 0 [] [].

Lemma mc_zero_ok : mc_ok mc_zero.
Proof. split; [reflexivity|cbn; lia|done]. Qed.

Lemma pad_wf f s : pad_ok (f (pad s)) -> wf s -> wf (on_pad f s).
Proof. intros Hf H. wf_parts. Qed.

Lemma pair_const (P : Z -> Prop) x : P x -> pair_of P [x; x].
Proof. intros H. split; [done|by repeat constructor]. Qed.

Lemma sio_init_wf s : wf s -> wf (sio_init s).
Proof.
  intros H. unfold sio_init. cbv zeta. wf_parts.
  - revert HP. pad_auto; apply pair_const; auto with sio.
  - by apply mc_ok_move.
  - split; [reflexivity|]. repeat constructor; apply mc_zero_ok.
  - by apply pace_reset_ok.
Qed.

Lemma power_on_wf k : Memcard.wf k -> wf (power_on k).
Proof.
  intros Hk. unfold wf, power_on. cbn [pad selected_slot mc mc_slot mc_slots pace cards].
  split; [|split; [by left|split; [exact mc_zero_ok|split; [by left|split; [|split; [|exact Hk]]]]]].
  - split; cbn; try done; try lia; try (apply pair_const; auto with sio).
    split; [done|by repeat constructor].
  - split; [reflexivity|]. repeat constructor; apply mc_zero_ok.
  - by split.
Qed.

Lemma run_op_wf e o s : wf s -> wf (run_op e o s).
Proof.
  intros H. destruct o; cbn [run_op].
  - by apply sio_read_wf.
  - by apply sio_write_wf.
  - by apply sio_advance_wf.
  - by apply sio_tick_wf.
  - unfold sio_set_pad_connected. case_if; [done|]. apply pad_wf; [|done]. generalize (proj1 H). pad_auto.
  - unfold sio_set_pad_config_capable. cbv zeta. case_if; [done|].
    assert (wf (on_pad (fun p => p <| pad_supports_config :=
      aset (pad_supports_config p) slot (b2z capable) |>) s)) as H1.
    { apply pad_wf; [|done]. generalize (proj1 H). pad_auto. }
    case_if; [exact H1|]. apply pad_wf; [|exact H1]. generalize (proj1 H1). pad_auto.
  - unfold sio_set_pad_state_slot. case_if; [done|]. apply pad_wf; [|done]. generalize (proj1 H). pad_auto.
  - unfold sio_set_pad_sticks. case_if; [done|]. apply pad_wf; [|done]. generalize (proj1 H). pad_auto.
  - unfold sio_set_pad_analog, sio_set_pad_sticks. cbv zeta. case_if; [done|].
    set (s1 := on_pad _ s). assert (wf s1) as H1.
    { apply pad_wf; [|done]. generalize (proj1 H). pad_auto. }
    apply pad_wf; [|exact H1]. generalize (proj1 H1). pad_auto.
  - unfold sio_request_pad_type. case_if; [done|]. apply pad_wf; [|done]. generalize (proj1 H). pad_auto.
    apply pair_aset; [|done]. case_if; [by left|apply flag_req, b2z_flag].
  - apply pad_wf; [|done]. generalize (proj1 H). pad_auto. apply pair_const; auto with sio.
  - by apply sio_init_wf.
Qed.

(** Whatever the guest writes and reads, the clock advances and the host
    does to the pads, every state the port reaches from power-on keeps its
    memory safe: the sector buffer index is inside the buffer whenever a data
    byte is exchanged, the pad response index and length stay within the
    eight-byte response, slots are 0 or 1, the shifter and acknowledge
    counters stay within one byte time, a buffered byte implies a byte in the
    shifter, pending work keeps the scheduler gate open, and the cards keep
    their size. *)
Theorem sio_reachable_safe (k : Memcard.State W) (ops : list (Env * Op)) :
  Memcard.wf k ->
  let s := run ops (sio_init (power_on k)) in
  pad_ok (pad s) /\ port_ok (selected_slot s) /\ mc_ok (mc s) /\ port_ok (mc_slot s) /\
  pair_of mc_ok (mc_slots s) /\ pace_ok (pace s) /\ Memcard.wf (cards s).
Proof.
  intros Hk. unfold run. pose proof (sio_init_wf _ (power_on_wf k Hk)) as H0.
  revert H0. generalize (sio_init (power_on k)). induction ops as [|[e o] ops IH]; intros s H; simpl; [exact H|].
  apply IH. by apply run_op_wf.
Qed.

End Invariant.

#[export] Existing Instance Memcard.FlatFiles.

Definition env0 : Env := mkEnv 0x80010000 0x401 0 0.

Lemma sio_reachable_safe_witness :
  mc_ok (mc (run [(env0, OpWrite 0x1F80104A 0x1003); (env0, OpWrite 0x1F801040 0x81); (env0, OpAdvance 1300)]
    (sio_init (power_on Memcard.demo)))).
Proof.
  exact (proj1 (proj2 (proj2 (sio_reachable_safe Memcard.demo
    [(env0, OpWrite 0x1F80104A 0x1003); (env0, OpWrite 0x1F801040 0x81); (env0, OpAdvance 1300)]
    Memcard.demo_wf)))).
Defined.

End Sio.
