(* ===== verification/SerialProtocol.v ===== *)
(** * The serial protocols

    What the guest sees on the wire of [SerialPort]: the memory-card read and
    write transactions at the level of register accesses and guest cycles, the
    byte queue of the shifter, the event clock and the controller's poll. *)

From stdpp Require Import strings.
From S2P Require Import Prelude Bus Memcard SerialPort.

Module SioProtocol.
Import Sio.

Section Protocol.
Context {W : Type} `{F : Memcard.Files W}.
Implicit Types s : State W.

(** ** The card as a device

    One byte of the protocol, without the port: the received byte, whether the
    card acknowledges, its new state. *)

Definition card_fun (tx slot : Z) (m : McSlotState) (k : Memcard.State W) :
    Z * bool * McSlotState * Memcard.State W :=
  let go st v := (v, true, m <| mc_state := st |>, k) in
  match mc_state m with
  | MC_IDLE => if Memcard.memcard_is_present slot k then go MC_CMD 0xFF else (0xFF, false, m, k)
  | MC_CMD =>
      if (tx =? 0x52) || (tx =? 0x57) || (tx =? 0x53)
      then (mc_flag m, true, m <| mc_cmd := tx |> <| mc_state := MC_ID1 |> <| mc_flag := 0 |>, k)
      else (0xFF, false, m <| mc_cmd := tx |> <| mc_state := MC_IDLE |>, k)
  | MC_ID1 => go MC_ID2 0x5A
  | MC_ID2 => go (if mc_cmd m =? 0x53 then MC_GETID_1 else MC_ADDR_MSB) 0x5D
  | MC_GETID_1 => go MC_GETID_2 0x04
  | MC_GETID_2 => go MC_GETID_3 0x00
  | MC_GETID_3 => go MC_GETID_4 0x00
  | MC_GETID_4 => (0x80, false, m <| mc_state := MC_IDLE |>, k)
  | MC_ADDR_MSB => (0x00, true, m <| mc_sector_msb := tx |> <| mc_state := MC_ADDR_LSB |>, k)
  | MC_ADDR_LSB =>
      let sector := Z.lor (u16 (Z.shiftl (mc_sector_msb m) 8)) tx in
      let m' := m <| mc_sector_lsb := tx |> <| mc_sector := sector |> in
      if mc_cmd m =? 0x52 then
        let d := if sector <? Memcard.MEMCARD_SECTORS
                 then default (mc_data m) (Memcard.memcard_read_sector slot sector k)
                 else replicate 128 0xFF in
        (0x00, true, m' <| mc_data := d |> <| mc_data_idx := 0 |>
           <| mc_checksum := xor_data d (Z.lxor (mc_sector_msb m) tx) |>
           <| mc_state := MC_READ_ACK1 |>, k)
      else (0x00, true, m' <| mc_data_idx := 0 |> <| mc_state := MC_WRITE_DATA |>, k)
  | MC_READ_ACK1 => go MC_READ_ACK2 0x5C
  | MC_READ_ACK2 => go MC_READ_MSB_ECHO 0x5D
  | MC_READ_MSB_ECHO => go MC_READ_LSB_ECHO (mc_sector_msb m)
  | MC_READ_LSB_ECHO =>
      (mc_sector_lsb m, true, m <| mc_data_idx := 0 |> <| mc_state := MC_READ_DATA |>, k)
  | MC_READ_DATA =>
      let v := aget (mc_data m) (mc_data_idx m) in
      let m := m <| mc_data_idx := mc_data_idx m + 1 |> in
      (v, true, if 128 <=? mc_data_idx m then m <| mc_state := MC_READ_CHK |> else m, k)
  | MC_READ_CHK => go MC_READ_END (mc_checksum m)
  | MC_READ_END =>
      (if mc_sector m <? Memcard.MEMCARD_SECTORS then 0x47 else 0xFF, false,
       m <| mc_state := MC_IDLE |>, k)
  | MC_WRITE_DATA =>
      let m := m <| mc_data := aset (mc_data m) (mc_data_idx m) tx |>
                 <| mc_data_idx := mc_data_idx m + 1 |> in
      (0x00, true, if 128 <=? mc_data_idx m then m <| mc_state := MC_WRITE_CHK |> else m, k)
  | MC_WRITE_CHK =>
      let expected := xor_data (mc_data m) (Z.lxor (mc_sector_msb m) (mc_sector_lsb m)) in
      let m' := m <| mc_state := MC_WRITE_ACK1 |> in
      if (tx =? expected) && (mc_sector m <? Memcard.MEMCARD_SECTORS) then
        (0x00, true, m' <| mc_checksum := 0x47 |>,
         Memcard.memcard_flush slot (Memcard.memcard_write_sector slot (mc_sector m) (mc_data m) k).2)
      else if Memcard.MEMCARD_SECTORS <=? mc_sector m
      then (0x00, true, m' <| mc_checksum := 0xFF |>, k)
      else (0x00, true, m' <| mc_checksum := 0x4E |>, k)
  | MC_WRITE_ACK1 => go MC_WRITE_ACK2 0x5C
  | MC_WRITE_ACK2 => go MC_WRITE_END 0x5D
  | MC_WRITE_END => (mc_checksum m, false, m <| mc_state := MC_IDLE |> <| mc_flag := 0 |>, k)
  end.

(** The card of [slot] is being addressed, in protocol state [m]. *)
Definition card_at s (slot : Z) (m : McSlotState) (k : Memcard.State W) : Prop :=
  active_device s = DEV_MEMCARD /\ mc s = m /\ mc_slot s = slot /\ selected_slot s = slot /\ cards s = k.

Definition step_result tx s (r : Z * bool * McSlotState * Memcard.State W) : Prop :=
  let '(rx, ack, m', k') := r in
  let s' := mc_step tx s in
  card_at s' (selected_slot s) m' k' /\ sio_rx_data (regs s') = rx /\ sio_ctrl (regs s') = sio_ctrl (regs s) /\
  sio_stat (regs s') = (if ack then Z.lor (sio_stat (regs s)) SIO_STAT_ACK else sio_stat (regs s)) /\
  pace s' = pace s /\ irqctx s' = irqctx s.

Ltac step_done := unfold step_result, card_at; repeat split; first [reflexivity|eassumption|symmetry; eassumption].

(** [mc_step] implements [card_fun]. *)
Lemma mc_step_refines tx s :
  active_device s = DEV_MEMCARD -> mc_slot s = selected_slot s ->
  step_result tx s (card_fun tx (selected_slot s) (mc s) (cards s)).
Proof.
  intros Hd Hs. unfold card_fun. destruct (mc_state (mc s)) eqn:Em; cbv zeta;
    try (unfold step_result, mc_step; rewrite Em; cbv zeta; step_done).
  - unfold step_result, mc_step. rewrite Em. cbv zeta.
    change (Memcard.memcard_is_present (mc_slot (s <| mc_slot := selected_slot s |>)) (cards (s <| mc_slot := selected_slot s |>)))
      with (Memcard.memcard_is_present (selected_slot s) (cards s)).
    case_if; step_done.
  - unfold step_result, mc_step. rewrite Em. cbv zeta. repeat case_if; step_done.
  - unfold step_result, mc_step. rewrite Em. cbv zeta. rewrite <- Hs.
    destruct (mc_cmd (mc s) =? 0x52); step_done.
  - unfold step_result, mc_step. rewrite Em. cbv zeta.
    change (mc_data_idx (mc (on_mc (fun c => c <| mc_data_idx := mc_data_idx c + 1 |>) s))) with (mc_data_idx (mc s) + 1).
    change (mc_data_idx ((mc s) <| mc_data_idx := mc_data_idx (mc s) + 1 |>)) with (mc_data_idx (mc s) + 1).
    destruct (128 <=? mc_data_idx (mc s) + 1); step_done.
  - unfold step_result, mc_step. rewrite Em. cbv zeta.
    repeat match goal with |- context [128 <=? ?i] => progress change i with (mc_data_idx (mc s) + 1) end.
    destruct (128 <=? mc_data_idx (mc s) + 1); step_done.
  - unfold step_result, mc_step. rewrite Em. cbv zeta. rewrite <- Hs.
    destruct ((tx =? _) && _); [|destruct (Memcard.MEMCARD_SECTORS <=? _); step_done].
    change (mc_slot (answer MC_WRITE_ACK1 0 s)) with (mc_slot s).
    change (cards (answer MC_WRITE_ACK1 0 s)) with (cards s).
    destruct (Memcard.memcard_write_sector (mc_slot s) (mc_sector (mc s)) (mc_data (mc s)) (cards s)) as [r k].
    step_done.
Qed.

(** ** One byte *)

(** Everything but the diagnostics. *)
Definition port s :=
  (rest s, active_device s, regs s, pace s, irqctx s, i_stat s, log s).

Lemma track_port e tx a pre s : port (track_byte e tx a pre s) = port s.
Proof.
  unfold track_byte. destruct pre as [pre|]; [|done]. case_if; [done|]. cbv zeta.
  assert (forall r t f x, port (txn_close r t f x) = port x) as Hc.
  { intros r t f x. unfold txn_close. case_if; reflexivity. }
  assert (forall a b c d f g (x : State W), port (txn_record_byte a b c d f g x) = port x) as Hr.
  { intros. unfold txn_record_byte. case_if; reflexivity. }
  case_if; rewrite ?Hc; apply Hr.
Qed.

Lemma process_port e tx s : port (sio_process_byte e tx s) = port (route_byte e tx s).1.
Proof.
  unfold sio_process_byte. cbv zeta. destruct (route_byte e tx s) as [s1 pre]. exact (track_port _ _ _ _ s1).
Qed.

Lemma ack_lor v m : has (Z.lor v m) SIO_STAT_ACK = has v SIO_STAT_ACK || has m SIO_STAT_ACK.
Proof.
  change SIO_STAT_ACK with (2 ^ 7). by rewrite !has_pow2, Z.lor_spec by lia.
Qed.

(** The outcome of a byte the card of [slot] answers. *)
Definition card_outcome s (slot : Z) (r : Z * bool * McSlotState * Memcard.State W) s' : Prop :=
  let '(rx, ack, m', k') := r in
  card_at s' slot m' k' /\ sio_rx_data (regs s') = rx /\ sio_ctrl (regs s') = sio_ctrl (regs s) /\
  has (sio_stat (regs s')) SIO_STAT_ACK = (ack || has (sio_stat (regs s)) SIO_STAT_ACK) /\
  irqctx s' = irqctx s.

Lemma mc_process_outcome tx s s0 slot m k :
  port s0 = port s -> card_at s0 slot m k ->
  card_outcome s slot (card_fun tx slot m k) (mc_process_byte tx s0).
Proof.
  intros Hp (Hd & Hm & Hms & Hss & Hk). unfold mc_process_byte. cbv zeta.
  set (s1 := if max_state _ <? _ then _ else s0).
  assert (port s1 = port s0) as Hp1 by (unfold s1; case_if; reflexivity). clearbody s1.
  unfold port, rest in Hp, Hp1.
  assert (active_device s1 = DEV_MEMCARD) as Hd1 by congruence. assert (mc s1 = m) as Hm1 by congruence.
  assert (mc_slot s1 = slot) as Hms1 by congruence. assert (selected_slot s1 = slot) as Hss1 by congruence.
  assert (cards s1 = k) as Hk1 by congruence. assert (regs s1 = regs s) as Hg1 by congruence.
  assert (irqctx s1 = irqctx s) as Hi1 by congruence. clear Hp Hp1.
  pose proof (mc_step_refines tx s1 Hd1 ltac:(congruence)) as Hr. rewrite Hss1, Hm1, Hk1 in Hr.
  unfold step_result, card_outcome in *.
  destruct (card_fun tx _ _ _) as [[[rx ack] m'] k']. destruct Hr as (Hc & Hrx & Hct & Hst & _ & Hi).
  rewrite Hss1 in Hc.
  split; [exact Hc|]. split; [exact Hrx|]. split; [|split].
  - rewrite <- Hg1, <- Hct. reflexivity.
  - change (sio_stat (regs (or_stat TX_IDLE (or_stat SIO_STAT_RX_RDY (mc_step tx s1)))))
      with (Z.lor (Z.lor (sio_stat (regs (mc_step tx s1))) SIO_STAT_RX_RDY) TX_IDLE).
    rewrite !ack_lor, Hst. change (has SIO_STAT_RX_RDY SIO_STAT_ACK) with false.
    change (has TX_IDLE SIO_STAT_ACK) with false. rewrite !orb_false_r.
    rewrite Hg1. destruct ack; [|done]. rewrite ack_lor. change (has SIO_STAT_ACK SIO_STAT_ACK) with true.
    by rewrite orb_true_r.
  - change (irqctx (mc_step tx s1) = irqctx s). congruence.
Qed.

Lemma outcome_port s slot r s1 s2 :
  port s2 = port s1 -> card_outcome s slot r s1 -> card_outcome s slot r s2.
Proof.
  destruct r as [[[rx ack] m'] k']. unfold card_outcome, card_at, port, rest. intros Hp Ho.
  destruct Ho as ((H1 & H2 & H3 & H4 & H5) & H6 & H7 & H8 & H9). repeat split; congruence.
Qed.

(** A byte to the card being addressed. *)
Lemma process_card e tx s slot m k :
  card_at s slot m k -> mc_state m <> MC_IDLE \/ tx = 0x81 ->
  card_outcome s slot (card_fun tx slot m k) (sio_process_byte e tx s).
Proof.
  intros Hc Htx. apply (outcome_port s _ _ (route_byte e tx s).1); [apply process_port|].
  destruct Hc as (Hd & Hm & Hc). unfold route_byte. rewrite Hd, Hm. unfold idle.
  case_bool_decide as Hi.
  - destruct Htx as [Hn | ->]; [done|]. change (0x81 =? 0x81) with true. cbv iota. unfold card_byte. cbv zeta. cbn [fst].
    apply mc_process_outcome.
    + case_if; reflexivity.
    + case_if; (split; [exact Hd|split; [exact Hm|exact Hc]]).
  - cbn [fst]. by apply mc_process_outcome.
Qed.

(** The select byte to the card of the slot in CTRL. *)
Lemma process_select e s slot :
  active_device s = DEV_NONE -> slot_of_ctrl s = slot ->
  card_outcome s slot (card_fun 0x81 slot ((slot_at s slot) <| mc_state := MC_IDLE |>) (cards s))
    (sio_process_byte e 0x81 s).
Proof.
  intros Hd Hs. apply (outcome_port s _ _ (route_byte e 0x81 s).1); [apply process_port|].
  unfold route_byte. rewrite Hd, Hs. change (0x81 =? 0x01) with false. change (0x81 =? 0x81) with true.
  cbv iota zeta. assert (port_ok slot) as Hp by (rewrite <- Hs; apply port_of_ctrl).
  unfold card_byte. cbv zeta. cbn [fst].
  set (s1 := s <| selected_slot := slot |>).
  assert (mc_load_slot (selected_slot s1) s1 = s1 <| mc := slot_at s slot |>) as ->.
  { unfold mc_load_slot. change (selected_slot s1) with slot. by rewrite (bad_port slot Hp). }
  set (s2 := s1 <| mc := slot_at s slot |>). set (s3 := if idle _ then s2 else _).
  assert (mc s3 = (slot_at s slot) <| mc_state := MC_IDLE |> /\ rest s3 = (pad s, slot, mc s3, mc_slot s, mc_slots s, cards s) /\
    regs s3 = regs s /\ pace s3 = pace s /\ irqctx s3 = irqctx s /\ i_stat s3 = i_stat s /\ log s3 = log s)
    as (Hm & Hr & Hg & Hpc & Hi & His & Hl).
  { unfold s3, idle. case_bool_decide as E.
    - split; [|done]. change (mc s2) with (slot_at s slot) in *. by rewrite <- E.
    - unfold txn_close. case_if; done. }
  clearbody s3. clear s2 s1.
  set (s4 := if txn_is_open _ then _ else _).
  assert (card_at s4 slot ((slot_at s slot) <| mc_state := MC_IDLE |>) (cards s) /\
    regs s4 = regs s /\ irqctx s4 = irqctx s) as (Hc & Hg4 & Hi4).
  { unfold rest in Hr. assert (selected_slot s3 = slot /\ cards s3 = cards s) as [Hs3 Hk3] by (split; congruence).
    unfold s4, card_at. case_if; cbn; repeat split; congruence || exact Hm. }
  clearbody s4. pose proof (mc_process_outcome 0x81 s4 s4 slot _ _ eq_refl Hc) as Ho.
  unfold card_outcome in *. destruct (card_fun _ _ _ _) as [[[rx ack] m'] k'].
  rewrite <- Hg4, <- Hi4. exact Ho.
Qed.

(** ** One register exchange

    The guest writes TX_DATA, 1300 cycles pass, the guest reads RX_DATA. *)

Definition exchange (e : Env) (b : Z) (s : State W) : Z * State W :=
  sio_read e 0x1F801040 (sio_advance e 1300 (sio_write e 0x1F801040 b s)).

(** Nothing in flight, transmission enabled, no legacy interrupt pending. *)
Record line_idle s : Prop := {
  li_tx : has (sio_ctrl (regs s)) SIO_CTRL_TX_EN = true;
  li_shift : sio_shift_active (pace s) = false;
  li_buffer : sio_tx_buffered (pace s) = false;
  li_ack : sio_pending_ack (pace s) = false;
  li_legacy : sio_irq_pending (irqctx s) = false;
}.

(** A byte goes to the shifter. *)
Definition to_shifter (b : Z) s : Prop :=
  active_device s = DEV_MEMCARD \/
  (active_device s = DEV_NONE /\ sio_bus_owner (pace s) <> SIO_OWNER_PAD /\ b <> 0x01).

Lemma tick_idle e s : sio_irq_pending (irqctx s) = false -> sio_tick e 0 s = s.
Proof. intros H. unfold sio_tick. cbv zeta. change (0 <? 0) with false. cbv iota. by rewrite H. Qed.

Lemma write_starts_shift e b s :
  line_idle s -> to_shifter b s -> 0 <= b < 0x100 ->
  let s' := sio_write e 0x1F801040 b s in
  visible s' = visible s /\ sio_shift_active (pace s') = true /\ sio_shift_byte (pace s') = b /\
  sio_shift_remaining (pace s') = 1088 /\ sio_tx_buffered (pace s') = false /\
  sio_pending_ack (pace s') = false /\ g_sio_timing_active (pace s') = true.
Proof.
  intros [H1 H2 H3 H4 H5] Hto Hb. unfold sio_write. cbv zeta.
  set (s1 := call _ _).
  assert (regs s1 = regs s /\ pace s1 = pace s /\ irqctx s1 = irqctx s /\ visible s1 = visible s)
    as (Hg & Hp & Hi & Hw) by (unfold s1, sio_debug_poll_maybe; cbv zeta; case_if; done).
  clearbody s1. change (0x1F801040 =? 0x1F801040) with true. cbv iota.
  unfold write_tx. cbv zeta. set (s2 := on_diag _ _).
  assert (sio_ctrl (regs s2) = sio_ctrl (regs s) /\ pace s2 = pace s /\ irqctx s2 = irqctx s /\ visible s2 = visible s)
    as (Hg2 & Hp2 & Hi2 & Hw2).
  { split; [exact (f_equal sio_ctrl Hg)|]. split; [exact Hp|]. split; [exact Hi|]. exact Hw. }
  clearbody s2. rewrite Hg2, H1. cbn [negb].
  assert (pad_fast_path (u8 b) s2 = false) as ->.
  { rewrite u8_id by lia. unfold pad_fast_path, visible, calm in *.
    assert (active_device s2 = active_device s) as -> by congruence. rewrite Hp2.
    destruct Hto as [-> | (-> & Ho & Hne)]; [done|].
    rewrite (bool_decide_eq_false_2 (sio_bus_owner (pace s) = SIO_OWNER_PAD)) by done.
    apply Z.eqb_neq in Hne. by rewrite Hne. }
  rewrite u8_id by lia. unfold tx_paced. cbv zeta.
  set (s3 := if sio_bus_byte_index _ =? 0 then _ else _).
  assert (sio_shift_active (pace s3) = false /\ sio_tx_buffered (pace s3) = false /\
    sio_pending_ack (pace s3) = false /\ irqctx s3 = irqctx s /\ visible s3 = visible s)
    as (E1 & E2 & E3 & E4 & E5).
  { unfold s3. rewrite <- Hp2 in H2, H3, H4. case_if; (split; [exact H2|]; split; [exact H3|]; split; [exact H4|]; split; [exact Hi2|exact Hw2]). }
  clearbody s3. set (s4 := on_pace _ s3).
  assert (sio_shift_active (pace s4) = false /\ sio_tx_buffered (pace s4) = false /\
    sio_pending_ack (pace s4) = false /\ sio_irq_pending (irqctx s4) = false /\ visible s4 = visible s)
    as (G1 & G2 & G3 & G4 & G5).
  { split; [exact E1|]. split; [exact E2|]. split; [exact E3|]. split; [|exact E5].
    exact (eq_trans (f_equal sio_irq_pending E4) H5). }
  clearbody s4. rewrite G1. cbn [negb].
  rewrite tick_idle by exact G4. split; [exact G5|]. repeat split; [exact G2|exact G3].
Qed.

Lemma fire_ack_calm e s :
  calm (sio_fire_ack_irq e s) = calm s /\
  sio_shift_active (pace (sio_fire_ack_irq e s)) = sio_shift_active (pace s) /\
  sio_tx_buffered (pace (sio_fire_ack_irq e s)) = sio_tx_buffered (pace s) /\
  sio_pending_ack (pace (sio_fire_ack_irq e s)) = sio_pending_ack (pace s).
Proof.
  unfold sio_fire_ack_irq. cbv zeta. case_if; [done|].
  match goal with |- context [timing_done ?x] => destruct (timing_done_spec x) as [Hv Hp]; set (y := x) in * end.
  assert (calm y = calm s /\ sio_shift_active (pace y) = sio_shift_active (pace s) /\
    sio_tx_buffered (pace y) = sio_tx_buffered (pace s) /\
    sio_pending_ack (pace y) = sio_pending_ack (pace s)) as (Hc & H1 & H2 & H3) by done.
  clearbody y. rewrite Hp. cbv zeta. split; [unfold visible in Hv; congruence|].
  case_if; rewrite <- H1, <- H2, <- H3; done.
Qed.

(** The pacer is empty. *)
Definition drained (p : Pace) : Prop :=
  sio_shift_active p = false /\ sio_tx_buffered p = false /\ sio_pending_ack p = false.

Lemma next_event_drained r p : drained p -> next_event r p = (r, NoEvent).
Proof. intros (H1 & H2 & H3). unfold next_event. by rewrite H1, H3. Qed.

Lemma drained_round e r t s :
  drained (pace s) -> calm (el_state (event_round e (mkEv r t false s))) = calm s /\
  drained (pace (el_state (event_round e (mkEv r t false s)))) /\
  el_break (event_round e (mkEv r t false s)) = true.
Proof.
  intros Hd. unfold event_round. cbn [el_remaining el_state]. rewrite next_event_drained by done.
  split; [reflexivity|]. split; [|reflexivity]. cbn [el_state].
  destruct (count_down_flags r (pace s)) as (E1 & E2 & E3 & _). destruct Hd as (H1 & H2 & H3).
  split; [exact (eq_trans E1 H1)|]. split; [exact (eq_trans E3 H2)|exact (eq_trans E2 H3)].
Qed.

Lemma nwhile_break e n x : el_break x = true -> nwhile n event_guard (event_round e) x = x.
Proof. intros H. apply nwhile_stop. unfold event_guard. by rewrite H, andb_false_r. Qed.

Lemma nwhile_round e n r t s :
  0 < r -> t < MAX_TRANSITIONS ->
  nwhile (S n) event_guard (event_round e) (mkEv r t false s) =
  nwhile n event_guard (event_round e) (event_round e (mkEv r t false s)).
Proof.
  intros Hr Ht. cbn [nwhile]. replace (event_guard (mkEv r t false s)) with true; [done|].
  unfold event_guard. cbn [el_remaining el_transitions el_break].
  apply Z.ltb_lt in Hr. apply Z.ltb_lt in Ht. by rewrite Hr, Ht.
Qed.

Lemma loop_drained e n r t s :
  0 < r -> t < MAX_TRANSITIONS -> drained (pace s) ->
  let x := nwhile (S n) event_guard (event_round e) (mkEv r t false s) in
  calm (el_state x) = calm s /\ drained (pace (el_state x)).
Proof.
  intros Hr Ht Hd. cbv zeta. rewrite nwhile_round by done.
  destruct (drained_round e r t s Hd) as (H1 & H2 & H3). by rewrite nwhile_break.
Qed.

Lemma event_round_eq e r t dt ev s :
  next_event r (pace s) = (dt, ev) ->
  event_round e (mkEv r t false s) =
    match ev with
    | ShiftDone => mkEv (r - dt) (t + 1) false (sio_handle_shift_complete e (on_pace (count_down dt) s))
    | AckDone => mkEv (r - dt) (t + 1) false
        (sio_fire_ack_irq e (on_pace (fun p => p <| sio_pending_ack := false |>) (on_pace (count_down dt) s)))
    | NoEvent => mkEv (r - dt) t true (on_pace (count_down dt) s)
    end.
Proof. intros E. unfold event_round. cbn [el_remaining el_state el_transitions]. by rewrite E. Qed.

(** Acknowledge pending only: it fires, then the pacer is empty. *)
Lemma loop_ack e n r t s :
  170 < r -> t + 1 < MAX_TRANSITIONS ->
  sio_shift_active (pace s) = false -> sio_tx_buffered (pace s) = false ->
  sio_pending_ack (pace s) = true -> sio_ack_remaining (pace s) = 170 ->
  let x := nwhile (S (S n)) event_guard (event_round e) (mkEv r t false s) in
  calm (el_state x) = calm s /\ drained (pace (el_state x)).
Proof.
  intros Hr Ht H1 H2 H3 H4. cbv zeta. rewrite nwhile_round by lia.
  assert (next_event r (pace s) = (170, AckDone)) as En.
  { unfold next_event. rewrite H1, H3, H4. cbn [andb]. change (0 <? 170) with true. cbn [andb].
    apply Z.ltb_lt in Hr. rewrite Hr. reflexivity. }
  rewrite (event_round_eq e r t 170 AckDone s En).
  match goal with |- context [sio_fire_ack_irq e ?y] => destruct (fire_ack_calm e y) as (Hc & F1 & F2 & F3);
    set (z := sio_fire_ack_irq e y) in * end.
  destruct (count_down_flags 170 (pace s)) as (E1 & E2 & E3 & _).
  assert (drained (pace z)) as Hd.
  { split; [exact (eq_trans F1 (eq_trans E1 H1))|]. split; [exact (eq_trans F2 (eq_trans E3 H2))|exact F3]. }
  destruct (loop_drained e n (r - 170) (t + 1) z) as [G1 G2]; [lia|lia|exact Hd|].
  split; [exact (eq_trans G1 Hc)|exact G2].
Qed.

Lemma loop_byte e n b s :
  sio_shift_active (pace s) = true -> sio_shift_byte (pace s) = b ->
  sio_shift_remaining (pace s) = 1088 -> sio_tx_buffered (pace s) = false ->
  sio_pending_ack (pace s) = false ->
  exists s1, visible s1 = visible s /\
    let x := nwhile (S (S (S n))) event_guard (event_round e) (mkEv 1300 0 false s) in
    calm (el_state x) = calm (sio_process_byte e b s1) /\ drained (pace (el_state x)).
Proof.
  intros H1 H2 H3 H4 H5. cbv zeta. rewrite nwhile_round by done.
  assert (next_event 1300 (pace s) = (1088, ShiftDone)) as En.
  { unfold next_event. by rewrite H1, H3, H5. }
  rewrite (event_round_eq e 1300 0 1088 ShiftDone s En).
  replace (1300 - 1088) with 212 by lia. replace (0 + 1) with 1 by lia.
  assert (visible (on_pace (count_down 1088) s) = visible s) as V2 by reflexivity.
  assert (sio_shift_byte (pace (on_pace (count_down 1088) s)) = b /\
    sio_tx_buffered (pace (on_pace (count_down 1088) s)) = false /\
    sio_pending_ack (pace (on_pace (count_down 1088) s)) = false) as (B2 & T2 & A2).
  { change (pace (on_pace (count_down 1088) s)) with (count_down 1088 (pace s)). unfold count_down.
    repeat case_if; (split; [exact H2|split; [exact H4|exact H5]]). }
  revert V2 B2 T2 A2. generalize (on_pace (count_down 1088) s). intros s2 V2 B2 T2 A2.
  destruct (shift_complete_spec e s2) as (s3 & acked & V3 & _ & _ & _ & Vx & Px). rewrite B2 in Vx.
  exists s3. split; [congruence|].
  revert Vx Px. generalize (sio_handle_shift_complete e s2). intros x Vx Px.
  assert (calm x = calm (sio_process_byte e b s3)) as Cx by (unfold visible in Vx; congruence).
  rewrite <- Cx.
  assert (sio_shift_active (pace x) = false /\ sio_tx_buffered (pace x) = false /\
    sio_pending_ack (pace x) = acked /\ (acked = true -> sio_ack_remaining (pace x) = 170)) as (X1 & X2 & X3 & X4).
  { rewrite Px. unfold shift_pace. destruct acked; cbn; rewrite T2; cbn; rewrite ?A2, ?T2; cbn; by rewrite ?A2. }
  destruct acked.
  - apply (loop_ack e n 212 1 x); [lia|done|done|done|done|by apply X4].
  - apply (loop_drained e (S n) 212 1 x); [lia|done|by repeat split].
Qed.

Lemma advance_loop e c s :
  c <> 0 -> s32 c = c -> g_sio_timing_active (pace s) = true ->
  exists s0, visible s0 = visible s /\ pace s0 = pace s /\
    sio_advance e c s = el_state (nwhile 16 event_guard (event_round e) (mkEv c 0 false s0)).
Proof.
  intros Hc Hs Ht. unfold sio_advance. apply Z.eqb_neq in Hc. rewrite Hc. cbv zeta.
  assert (pace (on_diag (fun d => d <| advance_called := u64 (advance_called d + 1) |>) s) = pace s) as -> by reflexivity.
  rewrite Ht, Hs. cbn [negb]. eexists. split; [|split]; [| |unfold event_loop; rewrite pwhile_nwhile; reflexivity].
  - reflexivity.
  - reflexivity.
Qed.

Lemma advance_byte e b s :
  sio_shift_active (pace s) = true -> sio_shift_byte (pace s) = b ->
  sio_shift_remaining (pace s) = 1088 -> sio_tx_buffered (pace s) = false ->
  sio_pending_ack (pace s) = false -> g_sio_timing_active (pace s) = true ->
  exists s1, visible s1 = visible s /\
    let x := sio_advance e 1300 s in
    calm x = calm (sio_process_byte e b s1) /\ drained (pace x).
Proof.
  intros H1 H2 H3 H4 H5 H6.
  destruct (advance_loop e 1300 s) as (s0 & V0 & P0 & ->); [done|reflexivity|done|].
  rewrite <- P0 in H1, H2, H3, H4, H5. rewrite <- V0. by apply (loop_byte e 13 b s0).
Qed.

Lemma read_rx e s :
  sio_irq_pending (irqctx s) = false ->
  exists s', sio_read e 0x1F801040 s = (sio_rx_data (regs s), s') /\ calm s' = calm s /\ pace s' = pace s.
Proof.
  intros H. unfold sio_read.
  assert (exists x, sio_debug_poll_maybe s = x /\ calm x = calm s /\ pace x = pace s) as (x & -> & C & P).
  { eexists. split; [reflexivity|]. unfold sio_debug_poll_maybe. cbv zeta. case_if; done. }
  rewrite tick_idle by (unfold calm in C; congruence).
  rewrite Z.eqb_refl. cbv zeta. eexists. split; [f_equal; unfold calm in C; congruence|].
  rewrite <- C, <- P. case_if; done.
Qed.

Lemma exchange_spec e b s :
  line_idle s -> to_shifter b s -> 0 <= b < 0x100 ->
  exists s1, visible s1 = visible s /\
    let s2 := sio_process_byte e b s1 in
    (sio_irq_pending (irqctx s2) = false ->
     (exchange e b s).1 = sio_rx_data (regs s2) /\ calm (exchange e b s).2 = calm s2 /\
     drained (pace (exchange e b s).2)).
Proof.
  intros Hi Ht Hb. destruct (write_starts_shift e b s Hi Ht Hb) as (V & W1 & W2 & W3 & W4 & W5 & W6).
  cbv zeta in V. unfold exchange. set (s0 := sio_write e 0x1F801040 b s) in *. clearbody s0.
  destruct (advance_byte e b s0 W1 W2 W3 W4 W5 W6) as (s1 & V1 & Hc & Hd). cbv zeta in Hc, Hd.
  exists s1. split; [congruence|]. cbv zeta. intros Hp.
  revert Hc Hd. generalize (sio_advance e 1300 s0). intros x Hc Hd.
  destruct (read_rx e x) as (y & -> & Cy & Py); [unfold calm in Hc; congruence|]. cbn [fst snd].
  split; [unfold calm in Hc; congruence|]. rewrite Py. split; [congruence|exact Hd].
Qed.

Lemma card_at_calm s1 s2 slot m k : calm s1 = calm s2 -> card_at s2 slot m k -> card_at s1 slot m k.
Proof.
  unfold calm, rest, card_at. intros Hc (H1 & H2 & H3 & H4 & H5). repeat split; congruence.
Qed.

Lemma line_idle_calm s1 s2 :
  calm s1 = calm s2 -> drained (pace s1) -> has (sio_ctrl (regs s2)) SIO_CTRL_TX_EN = true ->
  sio_irq_pending (irqctx s2) = false -> line_idle s1.
Proof.
  unfold calm. intros Hc (H1 & H2 & H3) Ht Hp.
  assert (sio_ctrl (regs s1) = sio_ctrl (regs s2)) as E by congruence. split; [by rewrite E|done|done|done|congruence].
Qed.

(** What an exchange with the card of [slot] leaves. *)
Definition exchanged s (slot : Z) (r : Z * bool * McSlotState * Memcard.State W) (y : Z * State W) : Prop :=
  let '(rx, _, m', k') := r in y.1 = rx /\ card_at y.2 slot m' k' /\ line_idle y.2.

Lemma exchange_outcome e b s slot r :
  line_idle s -> to_shifter b s -> 0 <= b < 0x100 ->
  (forall s1, visible s1 = visible s -> card_outcome s1 slot r (sio_process_byte e b s1)) ->
  exchanged s slot r (exchange e b s).
Proof.
  intros Hi Hto Hb Ho. destruct (exchange_spec e b s Hi Hto Hb) as (s1 & V & Hx). cbv zeta in Hx.
  specialize (Ho s1 V). unfold card_outcome, exchanged in *. destruct r as [[[rx ack] m'] k'].
  destruct Ho as (Hc & Hrx & Hct & _ & Hir).
  assert (sio_irq_pending (irqctx s1) = false /\ sio_ctrl (regs s1) = sio_ctrl (regs s)) as [Hp1 Hct1].
  { unfold visible, calm in V. split; [rewrite <- (li_legacy s Hi); congruence|congruence]. }
  destruct Hx as (H1 & H2 & H3); [by rewrite Hir|]. split; [by rewrite H1|].
  split; [by eapply card_at_calm|]. apply (line_idle_calm _ _ H2 H3).
  - rewrite Hct, Hct1. apply Hi.
  - by rewrite Hir.
Qed.

Lemma exchange_card e b s slot m k :
  card_at s slot m k -> line_idle s -> mc_state m <> MC_IDLE \/ b = 0x81 -> 0 <= b < 0x100 ->
  exchanged s slot (card_fun b slot m k) (exchange e b s).
Proof.
  intros Hc Hi Hm Hb. apply exchange_outcome; [done|by left; apply Hc|done|].
  intros s1 V. apply process_card; [|done]. apply (card_at_calm s1 s); [unfold visible in V; congruence|done].
Qed.

Lemma exchange_select e s slot :
  line_idle s -> active_device s = DEV_NONE -> sio_bus_owner (pace s) <> SIO_OWNER_PAD ->
  slot_of_ctrl s = slot ->
  exchanged s slot (card_fun 0x81 slot ((slot_at s slot) <| mc_state := MC_IDLE |>) (cards s))
    (exchange e 0x81 s).
Proof.
  intros Hi Hd Ho Hs. apply exchange_outcome; [done|by right|lia|].
  intros s1 V. unfold visible, calm, rest in V.
  assert (slot_of_ctrl s1 = slot) as Hs1.
  { rewrite <- Hs. unfold slot_of_ctrl. by replace (sio_ctrl (regs s1)) with (sio_ctrl (regs s)) by congruence. }
  replace (slot_at s slot) with (slot_at s1 slot).
  - replace (cards s) with (cards s1) by congruence. apply process_select; [congruence|done].
  - unfold slot_at. by replace (mc_slots s1) with (mc_slots s) by congruence.
Qed.

(** ** Conversations *)

Fixpoint talk (l : list (Env * Z)) (s : State W) : list Z * State W :=
  match l with
  | [] => ([], s)
  | (e, b) :: l =>
      let '(rx, s) := exchange e b s in
      let '(rxs, s) := talk l s in (rx :: rxs, s)
  end.

(** The card's side; [None] when a byte would not be for the card. *)
Fixpoint card_talk (slot : Z) (l : list Z) (m : McSlotState) (k : Memcard.State W) :
    option (list Z * McSlotState * Memcard.State W) :=
  match l with
  | [] => Some ([], m, k)
  | b :: l =>
      if idle (mc_state m) && negb (b =? 0x81) then None else
      let '(rx, _, m, k) := card_fun b slot m k in
      match card_talk slot l m k with
      | Some (rxs, m, k) => Some (rx :: rxs, m, k)
      | None => None
      end
  end.

Lemma talk_app l1 l2 s :
  talk (l1 ++ l2) s =
    let '(r1, s1) := talk l1 s in let '(r2, s2) := talk l2 s1 in (r1 ++ r2, s2).
Proof.
  revert s. induction l1 as [|[e b] l1 IH]; intros s; cbn [app talk].
  - by destruct (talk l2 s).
  - destruct (exchange e b s) as [rx s1]. rewrite IH. destruct (talk l1 s1) as [r1 s2].
    by destruct (talk l2 s2).
Qed.

Lemma card_talk_app slot l1 l2 m k :
  card_talk slot (l1 ++ l2) m k =
    match card_talk slot l1 m k with
    | Some (r1, m1, k1) =>
        match card_talk slot l2 m1 k1 with Some (r2, m2, k2) => Some (r1 ++ r2, m2, k2) | None => None end
    | None => None
    end.
Proof.
  revert m k. induction l1 as [|b l1 IH]; intros m k; cbn [app card_talk].
  - destruct (card_talk slot l2 m k) as [[[? ?] ?]|]; done.
  - case_if; [done|]. destruct (card_fun b slot m k) as [[[rx a] m1] k1]. rewrite IH.
    destruct (card_talk slot l1 m1 k1) as [[[r1 m2] k2]|]; [|done].
    destruct (card_talk slot l2 m2 k2) as [[[? ?] ?]|]; done.
Qed.

Lemma talk_card slot l s m k rxs m' k' :
  card_at s slot m k -> line_idle s -> Forall is_u8 (map snd l) ->
  card_talk slot (map snd l) m k = Some (rxs, m', k') ->
  (talk l s).1 = rxs /\ card_at (talk l s).2 slot m' k' /\ line_idle (talk l s).2.
Proof.
  revert s m k rxs. induction l as [|[e b] l IH]; intros s m k rxs Hc Hi Hb H; cbn [map snd card_talk talk] in *.
  - by simplify_eq.
  - inversion_clear Hb as [|? ? Hb0 Hb'].
    destruct (idle (mc_state m) && negb (b =? 0x81)) eqn:Ei; [done|].
    assert (mc_state m <> MC_IDLE \/ b = 0x81) as Hm.
    { apply andb_false_iff in Ei. destruct Ei as [Ei|Ei].
      - left. unfold idle in Ei. by apply bool_decide_eq_false in Ei.
      - right. by apply negb_false_iff, Z.eqb_eq in Ei. }
    pose proof (exchange_card e b s slot m k Hc Hi Hm Hb0) as Hx.
    unfold exchanged in Hx. destruct (card_fun b slot m k) as [[[rx a] m1] k1].
    destruct (exchange e b s) as [rx' s1]. cbn [fst snd] in Hx. destruct Hx as (-> & Hc1 & Hi1).
    destruct (card_talk slot (map snd l) m1 k1) as [[[r1 m2] k2]|] eqn:E1; [|done].
    injection H as <- <- <-. destruct (IH s1 m1 k1 r1 Hc1 Hi1 Hb' E1) as (G1 & G2 & G3).
    destruct (talk l s1) as [r2 s2]. cbn [fst snd] in *. by subst.
Qed.

(** ** The transactions, on the card's side *)

Lemma card_talk_cons slot b l m k rx a m1 k1 r m2 k2 :
  mc_state m <> MC_IDLE \/ b = 0x81 -> card_fun b slot m k = (rx, a, m1, k1) ->
  card_talk slot l m1 k1 = Some (r, m2, k2) ->
  card_talk slot (b :: l) m k = Some (rx :: r, m2, k2).
Proof.
  intros Hm E1 E2. cbn [card_talk].
  assert (idle (mc_state m) && negb (b =? 0x81) = false) as ->.
  { destruct Hm as [Hm | ->]; [|apply andb_false_r]. unfold idle. by rewrite bool_decide_eq_false_2. }
  by rewrite E1, E2.
Qed.

Ltac busy := left; cbn; discriminate.

(** Select, command and address: the card answers its flag, its identity and
    two zeroes. *)
Lemma card_header slot cmd x1 x2 msb l m k r m2 k2 :
  Memcard.memcard_is_present slot k = true -> mc_state m = MC_IDLE -> cmd = 0x52 \/ cmd = 0x57 ->
  card_talk slot l (m <| mc_state := MC_ADDR_LSB |> <| mc_cmd := cmd |> <| mc_flag := 0 |>
                      <| mc_sector_msb := msb |>) k = Some (r, m2, k2) ->
  card_talk slot (0x81 :: cmd :: x1 :: x2 :: msb :: l) m k =
    Some (0xFF :: mc_flag m :: 0x5A :: 0x5D :: 0 :: r, m2, k2).
Proof.
  intros Hp Hm Hcmd Hl.
  assert ((cmd =? 0x52) || (cmd =? 0x57) || (cmd =? 0x53) = true) as Hc by (destruct Hcmd as [-> | ->]; done).
  assert ((cmd =? 0x53) = false) as Hc' by (destruct Hcmd as [-> | ->]; done).
  eapply card_talk_cons; [by right|unfold card_fun; rewrite Hm, Hp; reflexivity|].
  eapply card_talk_cons; [busy|unfold card_fun; cbv beta iota zeta delta [mc_state]; rewrite Hc; reflexivity|].
  eapply card_talk_cons; [busy|reflexivity|].
  eapply card_talk_cons; [busy|unfold card_fun; cbn; rewrite Hc'; reflexivity|].
  eapply card_talk_cons; [busy|reflexivity|]. exact Hl.
Qed.

(** The data bytes of a read. *)
Lemma card_read_data slot l rest m k r m2 k2 :
  mc_state m = MC_READ_DATA -> length (mc_data m) = 128%nat ->
  (0 < length l)%nat -> 0 <= mc_data_idx m -> mc_data_idx m + Z.of_nat (length l) = 128 ->
  card_talk slot rest (m <| mc_data_idx := 128 |> <| mc_state := MC_READ_CHK |>) k = Some (r, m2, k2) ->
  card_talk slot (l ++ rest) m k = Some (drop (Z.to_nat (mc_data_idx m)) (mc_data m) ++ r, m2, k2).
Proof.
  revert m. induction l as [|b l IH]; intros m Hm Hd Hl Hi Hn Hr; cbn [length] in *; [lia|]. cbn [app].
  rewrite (drop_S _ (aget (mc_data m) (mc_data_idx m)) (Z.to_nat (mc_data_idx m))); cycle 1.
  { unfold aget. destruct (nth_lookup_or_length (mc_data m) (Z.to_nat (mc_data_idx m)) 0) as [E|E]; [exact E|lia]. }
  eapply card_talk_cons; [left; congruence|unfold card_fun; rewrite Hm; reflexivity|].
  change (mc_data_idx (m <| mc_data_idx := mc_data_idx m + 1 |>)) with (mc_data_idx m + 1).
  destruct l as [|b' l].
  - cbn [length] in Hn. replace (mc_data_idx m + 1) with 128 by lia. change (128 <=? 128) with true. cbv iota.
    rewrite drop_ge by (rewrite Hd; lia). exact Hr.
  - replace (128 <=? mc_data_idx m + 1) with false by (symmetry; apply Z.leb_gt; cbn [length] in Hn; lia).
    replace (S (Z.to_nat (mc_data_idx m))) with (Z.to_nat (mc_data_idx m + 1)) by lia.
    set (m1 := m <| mc_data_idx := mc_data_idx m + 1 |>).
    pose proof (IH m1 Hm Hd) as G. change (mc_data_idx m1) with (mc_data_idx m + 1) in G.
    apply G; [cbn [length]; lia|lia|cbn [length] in *; lia|exact Hr].
Qed.

(** The data bytes of a write. *)
Lemma card_write_data slot l rest m k r m2 k2 :
  mc_state m = MC_WRITE_DATA -> length (mc_data m) = 128%nat ->
  (0 < length l)%nat -> 0 <= mc_data_idx m -> mc_data_idx m + Z.of_nat (length l) = 128 ->
  card_talk slot rest (m <| mc_data := take (Z.to_nat (mc_data_idx m)) (mc_data m) ++ l |>
                         <| mc_data_idx := 128 |> <| mc_state := MC_WRITE_CHK |>) k = Some (r, m2, k2) ->
  card_talk slot (l ++ rest) m k = Some (replicate (length l) 0 ++ r, m2, k2).
Proof.
  revert m. induction l as [|b l IH]; intros m Hm Hd Hl Hi Hn Hr; cbn [length] in *; [lia|]. cbn [app replicate].
  eapply card_talk_cons; [left; congruence|unfold card_fun; rewrite Hm; reflexivity|].
  set (m1 := m <| mc_data := _ |> <| mc_data_idx := _ |>).
  change (mc_data_idx m1) with (mc_data_idx m + 1).
  assert (take (Z.to_nat (mc_data_idx m + 1)) (mc_data m1) = take (Z.to_nat (mc_data_idx m)) (mc_data m) ++ [b]) as Ht.
  { change (mc_data m1) with (aset (mc_data m) (mc_data_idx m) b). unfold aset.
    replace (Z.to_nat (mc_data_idx m + 1)) with (S (Z.to_nat (mc_data_idx m))) by lia.
    erewrite take_S_r by (apply list_lookup_insert_eq; rewrite Hd; lia). by rewrite take_insert_ge by lia. }
  assert (length (mc_data m1) = 128%nat) as Hd1 by (rewrite <- Hd; apply length_aset).
  destruct l as [|b' l].
  - cbn [length] in Hn. replace (mc_data_idx m + 1) with 128 by lia. change (128 <=? 128) with true. cbv iota.
    replace (mc_data_idx m + 1) with 128 in Ht by lia. rewrite <- Ht, take_ge in Hr by (rewrite Hd1; lia).
    replace (mc_data_idx m + 1) with 128 in Hr by lia.
    subst m1. replace (mc_data_idx m + 1) with 128 by lia. exact Hr.
  - replace (128 <=? mc_data_idx m + 1) with false by (symmetry; apply Z.leb_gt; cbn [length] in Hn; lia).
    apply IH; [exact Hm|exact Hd1|cbn [length]; lia| | |];
      change (mc_data_idx m1) with (mc_data_idx m + 1); [cbn [length] in *; lia..|].
    rewrite Ht, <- app_assoc. exact Hr.
Qed.

Definition read_message (x1 x2 msb lsb : Z) (pad : list Z) : list Z :=
  0x81 :: 0x52 :: x1 :: x2 :: msb :: lsb :: pad.
Definition write_message (x1 x2 msb lsb : Z) (d : list Z) (chk : Z) (pad : list Z) : list Z :=
  0x81 :: 0x57 :: x1 :: x2 :: msb :: lsb :: d ++ chk :: pad.
(** The exclusive-or of the address and the data. *)
Definition checksum (msb lsb : Z) (d : list Z) : Z := fold_left Z.lxor d (Z.lxor msb lsb).

Lemma xor_data_fold d x : length d = 128%nat -> xor_data d x = fold_left Z.lxor d x.
Proof.
  intros Hd. unfold xor_data.
  enough (forZ 0 128 (fun i x => Z.lxor x (aget d i)) x = fold_left Z.lxor (take (Z.to_nat 128) d) x) as ->
    by (rewrite take_ge; [done|rewrite Hd; done]).
  apply (forZ_ind (fun k y => y = fold_left Z.lxor (take (Z.to_nat k) d) x)); [done|done|].
  intros i y Hi ->. replace (Z.to_nat (i + 1)) with (S (Z.to_nat i)) by lia.
  destruct (lookup_lt_is_Some_2 d (Z.to_nat i)) as [v Hv]; [lia|].
  rewrite (take_S_r _ _ _ Hv), fold_left_app. cbn [fold_left]. f_equal. unfold aget. by apply nth_lookup_Some.
Qed.

Lemma sector_of_bytes msb lsb :
  0 <= msb < 0x100 -> 0 <= lsb < 0x100 -> Z.lor (u16 (Z.shiftl msb 8)) lsb = msb * 256 + lsb.
Proof.
  intros Hm Hl. rewrite Z.shiftl_mul_pow2 by lia. change (2 ^ 8) with 256.
  assert (u16 (msb * 256) = msb * 256) as -> by (unfold u16; apply Z.mod_small; lia).
  change 256 with (2 ^ 8). apply lor_add; lia.
Qed.

Lemma read_some card sector d (k : Memcard.State W) :
  Memcard.memcard_read_sector card sector k = Some d ->
  Memcard.memcard_is_present card k = true /\ 0 <= sector < Memcard.MEMCARD_SECTORS.
Proof.
  unfold Memcard.memcard_read_sector, Memcard.memcard_is_present. repeat (case_if; [done|]). intros _.
  split.
  - by apply negb_false_iff.
  - unfold Memcard.bad_sector in *. lia.
Qed.

Lemma card_read slot x1 x2 msb lsb pad d m k :
  Memcard.wf k -> mc_state m = MC_IDLE -> 0 <= msb < 0x100 -> 0 <= lsb < 0x100 ->
  Memcard.memcard_read_sector slot (msb * 256 + lsb) k = Some d -> length pad = 134%nat ->
  exists m', mc_state m' = MC_IDLE /\
    card_talk slot (read_message x1 x2 msb lsb pad) m k =
      Some (0xFF :: mc_flag m :: 0x5A :: 0x5D :: 0 :: 0 :: 0x5C :: 0x5D :: msb :: lsb ::
              d ++ [checksum msb lsb d; 0x47], m', k).
Proof.
  intros Hk Hm Hmsb Hlsb Hr Hpad. pose proof (Memcard.read_sector_length _ _ _ _ Hk Hr) as Hd.
  destruct (read_some _ _ _ _ Hr) as [Hp Hs]. pose proof (proj2 (Z.ltb_lt _ _) (proj2 Hs)) as Hlt.
  destruct pad as [|p1 [|p2 [|p3 [|p4 pad]]]]; try discriminate. injection Hpad as Hpad.
  rewrite <- (take_drop 128 pad). assert (length (take 128 pad) = 128%nat) as Ht by (rewrite length_take; lia).
  assert (length (drop 128 pad) = 2%nat) as Hdr by (rewrite length_drop; lia).
  destruct (drop 128 pad) as [|q1 [|q2 [|? ?]]]; try discriminate. revert Ht. generalize (take 128 pad). intros l Ht.
  eexists. split; cycle 1.
  { unfold read_message. apply card_header; [done|done|by left|].
    eapply card_talk_cons; [busy|unfold card_fun; cbn; rewrite sector_of_bytes by done; rewrite Hr, Hlt; reflexivity|].
    do 4 (eapply card_talk_cons; [busy|reflexivity|]).
    match goal with |- card_talk _ _ ?x _ = _ =>
      pose proof (fun m2 => card_read_data slot l [q1; q2] x k [checksum msb lsb d; 0x47] m2 k) as G end.
    apply G; [reflexivity|exact Hd|lia|done|rewrite Ht; done|].
    eapply card_talk_cons; [busy|unfold card_fun; cbn; rewrite (xor_data_fold d) by done; reflexivity|].
    eapply card_talk_cons; [busy|unfold card_fun; cbn; rewrite Hlt by done; reflexivity|]. reflexivity. }
  reflexivity.
Qed.

(** The status the card ends a write with, and what it stores. *)
Definition write_status (msb lsb : Z) (d : list Z) (chk : Z) : Z :=
  if Memcard.MEMCARD_SECTORS <=? msb * 256 + lsb then 0xFF
  else if chk =? checksum msb lsb d then 0x47 else 0x4E.
Definition write_effect (slot msb lsb : Z) (d : list Z) (chk : Z) (k : Memcard.State W) : Memcard.State W :=
  if (chk =? checksum msb lsb d) && (msb * 256 + lsb <? Memcard.MEMCARD_SECTORS)
  then Memcard.memcard_flush slot (Memcard.memcard_write_sector slot (msb * 256 + lsb) d k).2
  else k.

Lemma card_write_chk slot l msb lsb d chk m k r m2 k2 :
  length d = 128%nat -> mc_state m = MC_WRITE_CHK -> mc_data m = d -> mc_sector_msb m = msb -> mc_sector_lsb m = lsb ->
  mc_sector m = msb * 256 + lsb ->
  card_talk slot l (m <| mc_state := MC_WRITE_ACK1 |> <| mc_checksum := write_status msb lsb d chk |>)
    (write_effect slot msb lsb d chk k) = Some (r, m2, k2) ->
  card_talk slot (chk :: l) m k = Some (0 :: r, m2, k2).
Proof.
  intros Hlen Hm Hd H1 H2 H3 Hl.
  assert (card_fun chk slot m k = (0, true,
    m <| mc_state := MC_WRITE_ACK1 |> <| mc_checksum := write_status msb lsb d chk |>,
    write_effect slot msb lsb d chk k)) as E.
  { unfold card_fun, write_status, write_effect, checksum. rewrite Hm, Hd, H1, H2, H3. cbv zeta.
    rewrite xor_data_fold by done.
    rewrite (Z.leb_antisym (msb * 256 + lsb)).
    destruct (chk =? _); destruct (_ <? Memcard.MEMCARD_SECTORS); reflexivity. }
  eapply card_talk_cons; [left; congruence|exact E|exact Hl].
Qed.

Lemma card_write slot x1 x2 msb lsb d chk pad m k :
  Memcard.memcard_is_present slot k = true -> mc_state m = MC_IDLE ->
  0 <= msb < 0x100 -> 0 <= lsb < 0x100 ->
  length d = 128%nat -> length (mc_data m) = 128%nat -> length pad = 3%nat ->
  exists m', mc_state m' = MC_IDLE /\ mc_flag m' = 0 /\
    card_talk slot (write_message x1 x2 msb lsb d chk pad) m k =
      Some (0xFF :: mc_flag m :: 0x5A :: 0x5D :: 0 :: 0 :: replicate 128 0 ++
              [0; 0x5C; 0x5D; write_status msb lsb d chk], m', write_effect slot msb lsb d chk k).
Proof.
  intros Hp Hm Hmsb Hlsb Hd Hmd Hpad.
  destruct pad as [|p1 [|p2 [|p3 [|? ?]]]]; try discriminate.
  eexists. split; [|split]; cycle 2.
  { unfold write_message. apply card_header; [done|done|by right|].
    eapply card_talk_cons; [busy|unfold card_fun; cbn; rewrite sector_of_bytes by done; reflexivity|].
    rewrite <- Hd.
    match goal with |- card_talk _ _ ?x _ = _ =>
      apply (card_write_data slot d (chk :: [p1; p2; p3]) x k); [reflexivity|exact Hmd|lia|done|rewrite Hd; done|] end.
    apply (card_write_chk _ _ msb lsb d chk); [exact Hd|reflexivity..|].
    do 3 (eapply card_talk_cons; [busy|unfold card_fun; cbn; reflexivity|]). reflexivity. }
  all: reflexivity.
Qed.

(** ** Whole transactions on the port *)

Lemma talk_select e l s slot rxs m' k' :
  line_idle s -> active_device s = DEV_NONE -> sio_bus_owner (pace s) <> SIO_OWNER_PAD ->
  slot_of_ctrl s = slot -> Forall is_u8 (map snd l) ->
  card_talk slot (0x81 :: map snd l) ((slot_at s slot) <| mc_state := MC_IDLE |>) (cards s) = Some (rxs, m', k') ->
  (talk ((e, 0x81) :: l) s).1 = rxs /\ card_at (talk ((e, 0x81) :: l) s).2 slot m' k' /\
  line_idle (talk ((e, 0x81) :: l) s).2.
Proof.
  intros Hi Hd Ho Hs Hb H. cbn [card_talk] in H. rewrite andb_false_r in H.
  pose proof (exchange_select e s slot Hi Hd Ho Hs) as Hx. unfold exchanged in Hx.
  destruct (card_fun 0x81 slot _ (cards s)) as [[[rx a] m1] k1]. cbn [talk].
  destruct (exchange e 0x81 s) as [rx' s1]. cbn [fst snd] in Hx. destruct Hx as (-> & Hc1 & Hi1).
  destruct (card_talk slot (map snd l) m1 k1) as [[[r m2] k2]|] eqn:E; [|done].
  injection H as <- <- <-. destruct (talk_card slot l s1 m1 k1 r m2 k2 Hc1 Hi1 Hb E) as (G1 & G2 & G3).
  destruct (talk l s1) as [r2 s2]. cbn [fst snd] in *. by subst.
Qed.

(** The port before a transaction with the card of [slot]: idle line, no
    device addressed, the pad not owning the bus. *)
Record ready (slot : Z) s : Prop := {
  rd_wf : wf s;
  rd_idle : line_idle s;
  rd_device : active_device s = DEV_NONE;
  rd_owner : sio_bus_owner (pace s) <> SIO_OWNER_PAD;
  rd_slot : slot_of_ctrl s = slot;
}.

Definition wire (l : list (Env * Z)) : list Z := map snd l.

Lemma talk_message l s slot msg rxs m' k' :
  ready slot s -> wire l = 0x81 :: msg -> Forall is_u8 (0x81 :: msg) ->
  card_talk slot (0x81 :: msg) ((slot_at s slot) <| mc_state := MC_IDLE |>) (cards s) = Some (rxs, m', k') ->
  (talk l s).1 = rxs /\ card_at (talk l s).2 slot m' k' /\ line_idle (talk l s).2.
Proof.
  intros [_ Hi Hd Ho Hs] Hl Hb Ht. destruct l as [|[e b] l]; [done|].
  unfold wire in Hl. cbn [map snd] in Hl. injection Hl as -> <-. inversion_clear Hb. by apply talk_select.
Qed.

(** A first conversation, then a second one with the same card. *)
Lemma talk_then l1 l2 s slot r1 m1 k1 r2 m2 k2 :
  ((talk l1 s).1 = r1 /\ card_at (talk l1 s).2 slot m1 k1 /\ line_idle (talk l1 s).2) ->
  Forall is_u8 (wire l2) -> card_talk slot (wire l2) m1 k1 = Some (r2, m2, k2) ->
  (talk (l1 ++ l2) s).1 = r1 ++ r2 /\ card_at (talk (l1 ++ l2) s).2 slot m2 k2 /\
  line_idle (talk (l1 ++ l2) s).2.
Proof.
  intros (H1 & Hc & Hi) Hb Ht. rewrite talk_app. destruct (talk l1 s) as [x1 s1]. cbn [fst snd] in *.
  destruct (talk_card slot l2 s1 m1 k1 r2 m2 k2 Hc Hi Hb Ht) as (H2 & Hc2 & Hi2).
  destruct (talk l2 s1) as [x2 s2]. cbn [fst snd] in *. by subst.
Qed.

Lemma ready_slot_data slot s : ready slot s -> length (mc_data (slot_at s slot)) = 128%nat.
Proof.
  intros [H _ _ _ Hs]. destruct H as (_ & _ & _ & _ & [Hl Hf] & _). unfold slot_at. rewrite <- Hs.
  enough (mc_ok (nth (Z.to_nat (slot_of_ctrl s)) (mc_slots s) mc_zero)) as Ho by apply Ho.
  destruct (nth_in_or_default (Z.to_nat (slot_of_ctrl s)) (mc_slots s) mc_zero) as [Hin | ->]; [|apply mc_zero_ok].
  rewrite Forall_forall in Hf. apply Hf. by apply list_elem_of_In.
Qed.

Lemma write_effect_keeps slot msb lsb d chk k :
  Memcard.wf k -> length d = 128%nat ->
  Memcard.wf (write_effect slot msb lsb d chk k).
Proof.
  intros Hk Hd. unfold write_effect. case_if; [|done]. by apply Memcard.flush_wf, Memcard.write_sector_wf.
Qed.

(** A good write stores the data. *)
Lemma write_effect_reads slot msb lsb d k :
  Memcard.wf k -> length d = 128%nat -> Memcard.memcard_is_present slot k = true ->
  0 <= msb * 256 + lsb < Memcard.MEMCARD_SECTORS ->
  Memcard.memcard_read_sector slot (msb * 256 + lsb) (write_effect slot msb lsb d (checksum msb lsb d) k) = Some d.
Proof.
  intros Hk Hd Hp Hs. unfold write_effect. rewrite Z.eqb_refl.
  rewrite (proj2 (Z.ltb_lt _ _) (proj2 Hs)). cbn [andb].
  pose proof (Memcard.write_sector_wf slot (msb * 256 + lsb) d k Hk Hd) as Hw.
  rewrite Memcard.flush_read by apply Hw.
  pose proof (Memcard.write_sector_spec slot (msb * 256 + lsb) d k Hk ltac:(rewrite Hd; done)) as Hspec.
  destruct (Memcard.memcard_write_sector _ _ _ k) as [r k']. cbn [snd] in *.
  destruct Hspec as (_ & [(_ & _ & _ & Hn)|(_ & _ & _ & _ & Hr & _)]); [|exact Hr].
  exfalso. apply Hn. split; [|done]. split; [|exact Hs].
  unfold Memcard.memcard_is_present in Hp. apply Memcard.bad_card_spec. by destruct (Memcard.bad_card slot).
Qed.

(** C9: reading a sector over the wire. From an idle port, the 140 bytes of the
    memory-card read command (select, 0x52, two pad bytes, the sector address,
    134 more bytes) exchanged through TX_DATA and RX_DATA, one byte time apart,
    return exactly: 0xFF, the card's flag, the identity 5A 5D, two zeroes, the
    acknowledge 5C 5D, the address echoed, the 128 bytes of the sector, their
    exclusive-or with the address, and 0x47; the cards are unchanged and the
    port is idle again. *)
Theorem sio_card_read slot s l x1 x2 msb lsb pad d :
  ready slot s -> wire l = read_message x1 x2 msb lsb pad -> Forall is_u8 (wire l) -> length pad = 134%nat ->
  Memcard.memcard_read_sector slot (msb * 256 + lsb) (cards s) = Some d ->
  let '(rxs, s') := talk l s in
  rxs = 0xFF :: mc_flag (slot_at s slot) :: 0x5A :: 0x5D :: 0 :: 0 :: 0x5C :: 0x5D :: msb :: lsb ::
          d ++ [checksum msb lsb d; 0x47] /\
  cards s' = cards s /\ line_idle s'.
Proof.
  intros Hr Hl Hb Hpad Hd. rewrite Hl in Hb. pose proof Hb as Hb'. unfold read_message in Hb'.
  rewrite !Forall_cons in Hb'. destruct Hb' as (_ & _ & _ & _ & Hm & Hs & _).
  assert (Memcard.wf (cards s)) as Hk by apply (rd_wf _ _ Hr).
  destruct (card_read slot x1 x2 msb lsb pad d ((slot_at s slot) <| mc_state := MC_IDLE |>) (cards s))
    as (m' & _ & Ht); try done.
  destruct (talk_message l s slot _ _ _ _ Hr Hl Hb Ht) as (Hx & (_ & _ & _ & _ & Hc) & Hi).
  destruct (talk l s) as [rxs s']. done.
Qed.

(** C10: writing a sector over the wire. The 138 bytes of the write command
    (select, 0x57, two pad bytes, the address, the data, the checksum, three
    more bytes) are answered by the header, zeroes, 5C 5D and the status: 0x47
    for a good checksum and a sector of the card, 0x4E for a bad checksum, 0xFF
    for an address past the last sector; only in the first case are the cards
    changed, to the sector written and flushed to its file. *)
Theorem sio_card_write slot s l x1 x2 msb lsb d chk pad :
  ready slot s -> wire l = write_message x1 x2 msb lsb d chk pad -> Forall is_u8 (wire l) ->
  length d = 128%nat -> length pad = 3%nat -> Memcard.memcard_is_present slot (cards s) = true ->
  let '(rxs, s') := talk l s in
  rxs = 0xFF :: mc_flag (slot_at s slot) :: 0x5A :: 0x5D :: 0 :: 0 :: replicate 128 0 ++
          [0; 0x5C; 0x5D; write_status msb lsb d chk] /\
  cards s' = write_effect slot msb lsb d chk (cards s) /\ line_idle s'.
Proof.
  intros Hr Hl Hb Hd Hpad Hp. rewrite Hl in Hb. pose proof Hb as Hb'. unfold write_message in Hb'.
  rewrite !Forall_cons in Hb'. destruct Hb' as (_ & _ & _ & _ & Hm & Hs & _).
  destruct (card_write slot x1 x2 msb lsb d chk pad ((slot_at s slot) <| mc_state := MC_IDLE |>) (cards s))
    as (m' & _ & _ & Ht); try done; [by apply (ready_slot_data slot s)|].
  destruct (talk_message l s slot _ _ _ _ Hr Hl Hb Ht) as (Hx & (_ & _ & _ & _ & Hc) & Hi).
  destruct (talk l s) as [rxs s']. done.
Qed.

(** What is written over the wire is read back over the wire. A write
    transaction with the right checksum, followed by a read transaction of the
    same sector, receives the data written (bytes 149 to 276 of the
    conversation), whatever the sector held before and whatever the timing
    environment of each exchange. *)
Theorem sio_card_roundtrip slot s l1 l2 x1 x2 y1 y2 msb lsb d pad1 pad2 :
  ready slot s -> wire l1 = write_message x1 x2 msb lsb d (checksum msb lsb d) pad1 ->
  wire l2 = read_message y1 y2 msb lsb pad2 -> Forall is_u8 (wire l1) -> Forall is_u8 (wire l2) ->
  length d = 128%nat -> length pad1 = 3%nat -> length pad2 = 134%nat ->
  Memcard.memcard_is_present slot (cards s) = true -> msb * 256 + lsb < Memcard.MEMCARD_SECTORS ->
  take 128 (drop 148 (talk (l1 ++ l2) s).1) = d.
Proof.
  intros Hr Hl1 Hl2 Hb1 Hb2 Hd Hp1 Hp2 Hp Hs. rewrite Hl1 in Hb1. pose proof Hb1 as Hb'. unfold write_message in Hb'.
  rewrite !Forall_cons in Hb'. destruct Hb' as (_ & _ & _ & _ & Hm & Hlsb & _). unfold is_u8 in Hm, Hlsb.
  assert (Memcard.wf (cards s)) as Hk by apply (rd_wf _ _ Hr).
  destruct (card_write slot x1 x2 msb lsb d (checksum msb lsb d) pad1 ((slot_at s slot) <| mc_state := MC_IDLE |>) (cards s))
    as (m1 & Hm1 & _ & Ht1); try done; [by apply (ready_slot_data slot s)|].
  pose proof (talk_message l1 s slot _ _ _ _ Hr Hl1 Hb1 Ht1) as H1.
  destruct (card_read slot y1 y2 msb lsb pad2 d m1 (write_effect slot msb lsb d (checksum msb lsb d) (cards s)))
    as (m2 & _ & Ht2); try done; [by apply write_effect_keeps|apply write_effect_reads; try done; lia|].
  rewrite <- Hl2 in Ht2. destruct (talk_then l1 l2 s slot _ m1 _ _ m2 _ H1 Hb2 Ht2) as (-> & _).
  match goal with |- take _ (drop _ (?a ++ ?x1 :: ?x2 :: ?x3 :: ?x4 :: ?x5 :: ?x6 :: ?x7 :: ?x8 :: ?x9 :: ?x10 :: ?b)) = _ =>
    change (a ++ x1 :: x2 :: x3 :: x4 :: x5 :: x6 :: x7 :: x8 :: x9 :: x10 :: b)
      with (a ++ [x1; x2; x3; x4; x5; x6; x7; x8; x9; x10] ++ b) end.
  rewrite app_assoc, drop_app_length', take_app_length' by (reflexivity || by rewrite Hd). reflexivity.
Qed.

End Protocol.

(** ** Witnesses: the first card of [Memcard.demo] *)

#[export] Existing Instance Memcard.FlatFiles.

(** After the guest raised CTRL with TX and the select line enabled. *)
Definition selecting : State (gmap string (list Z)) :=
  sio_write env0 0x1F80104A 0x0003 (sio_init (power_on Memcard.demo)).

Lemma selecting_ready : ready 0 selecting.
Proof.
  split.
  - apply sio_write_wf, sio_init_wf, power_on_wf, Memcard.demo_wf.
  - split; reflexivity.
  - reflexivity.
  - discriminate.
  - reflexivity.
Qed.

Definition at_env (l : list Z) : list (Env * Z) := map (pair env0) l.

Lemma wire_at_env l : wire (at_env l) = l.
Proof. unfold wire, at_env. rewrite map_map. apply map_id. Qed.

Ltac byte_list := vm_compute; repeat constructor; discriminate.

Lemma sio_card_read_witness :
  let '(rxs, s') := talk (at_env (read_message 0 0 0 5 (replicate 134 0))) selecting in
  rxs = 0xFF :: mc_flag (slot_at selecting 0) :: 0x5A :: 0x5D :: 0 :: 0 :: 0x5C :: 0x5D :: 0 :: 5 ::
          replicate 128 0 ++ [checksum 0 5 (replicate 128 0); 0x47] /\
  cards s' = cards selecting /\ line_idle s'.
Proof.
  apply (sio_card_read 0 selecting (at_env (read_message 0 0 0 5 (replicate 134 0))) 0 0 0 5 (replicate 134 0)).
  - exact selecting_ready.
  - apply wire_at_env.
  - rewrite wire_at_env. byte_list.
  - reflexivity.
  - vm_compute. reflexivity.
Defined.

Lemma sio_card_write_witness :
  let d := replicate 128 7 in
  let '(rxs, s') := talk (at_env (write_message 0 0 0 5 d 9 [0; 0; 0])) selecting in
  rxs = 0xFF :: mc_flag (slot_at selecting 0) :: 0x5A :: 0x5D :: 0 :: 0 :: replicate 128 0 ++
          [0; 0x5C; 0x5D; write_status 0 5 d 9] /\
  cards s' = write_effect 0 0 5 d 9 (cards selecting) /\ line_idle s'.
Proof.
  apply (sio_card_write 0 selecting (at_env (write_message 0 0 0 5 (replicate 128 7) 9 [0; 0; 0])) 0 0 0 5
    (replicate 128 7) 9 [0; 0; 0]).
  - exact selecting_ready.
  - apply wire_at_env.
  - rewrite wire_at_env. byte_list.
  - reflexivity.
  - reflexivity.
  - reflexivity.
Defined.

Lemma sio_card_roundtrip_witness :
  let d := replicate 128 7 in
  take 128 (drop 148 (talk (at_env (write_message 0 0 0 5 d 5 [0; 0; 0]) ++
    at_env (read_message 0 0 0 5 (replicate 134 0))) selecting).1) = d.
Proof.
  apply (sio_card_roundtrip 0 selecting (at_env (write_message 0 0 0 5 (replicate 128 7) 5 [0; 0; 0]))
    (at_env (read_message 0 0 0 5 (replicate 134 0))) 0 0 0 0 0 5 (replicate 128 7) [0; 0; 0] (replicate 134 0)).
  - exact selecting_ready.
  - apply wire_at_env.
  - apply wire_at_env.
  - rewrite wire_at_env. byte_list.
  - rewrite wire_at_env. byte_list.
  - reflexivity.
  - reflexivity.
  - reflexivity.
  - reflexivity.
  - reflexivity.
Defined.

End SioProtocol.
