(* ===== verification/SerialClock.v ===== *)
(** * The clock of the serial port

    The event loop that [sio_advance] and [sio_tick] of [SerialPort] share:
    its transitions never reach the cap, splitting a span of cycles changes
    nothing, the shifter and its buffer are a queue of two bytes, and where the
    distance announced to the scheduler lands. *)

From stdpp Require Import strings.
From S2P Require Import Prelude Bus Memcard SerialPort SerialProtocol.

Module SioClock.
Import Sio SioProtocol.

#[export] Instance NextEvent_dec : EqDecision NextEvent.
Proof. solve_decision. Defined.

Section Clock.
Context {W : Type} `{F : Memcard.Files W}.
Implicit Types s : State W.

(** ** The loop as a relation *)

(** What an event does once the clock stands on it. *)
Definition fire (e : Env) (ev : NextEvent) s : State W :=
  match ev with
  | ShiftDone => sio_handle_shift_complete e s
  | AckDone => sio_fire_ack_irq e (on_pace (fun p => p <| sio_pending_ack := false |>) s)
  | NoEvent => s
  end.

(** [runs e r s s']: from [s], [r] cycles lead to [s'], every event due on the
    way fired in order. *)
Inductive runs (e : Env) : Z -> State W -> State W -> Prop :=
| runs_end r s : next_event r (pace s) = (r, NoEvent) -> runs e r s (on_pace (count_down r) s)
| runs_event r s s' dt ev :
    next_event r (pace s) = (dt, ev) -> ev <> NoEvent ->
    runs e (r - dt) (fire e ev (on_pace (count_down dt) s)) s' -> runs e r s s'.

(** Every comparison of a step of the clock. *)
Ltac clock_cases p :=
  unfold next_event, count_down;
  let sa := fresh "sa" in let sr := fresh "sr" in let pa := fresh "pa" in let ar := fresh "ar" in
  destruct p as [sa ? sr ? ? ? ? pa ar ? ? ? ?]; cbn; destruct sa, pa; cbn; rewrite ?andb_true_r, ?andb_false_r;
  repeat (match goal with
    | |- context [?a <? ?b] => destruct (Z.ltb_spec a b)
    | |- context [?a <=? ?b] => destruct (Z.leb_spec a b) end; cbn).

Lemma next_event_none r p dt : next_event r p = (dt, NoEvent) -> dt = r.
Proof. clock_cases p; congruence. Qed.

(** An event is due strictly before the end of the span. *)
Lemma next_event_before r p dt ev : next_event r p = (dt, ev) -> ev <> NoEvent -> 0 < r -> dt < r.
Proof. clock_cases p; intros [= <- <-] Hn Hr; done || lia. Qed.

Lemma runs_det e r s s1 s2 : runs e r s s1 -> runs e r s s2 -> s1 = s2.
Proof.
  intros H. revert s2. induction H as [r s En|r s s1 dt ev En Hev H IH]; intros s2 H2;
    inversion H2; subst; try done;
    match goal with A : next_event ?r ?p = _, B : next_event ?r ?p = _ |- _ => rewrite A in B; simplify_eq end; auto.
Qed.

(** ** Splitting a span *)

Lemma count_down_split a b p : count_down (a + b) p = count_down b (count_down a p).
Proof. unfold count_down. destruct p as [[] ? ? ? ? ? ? [] ? ? ? ? ?]; cbn; f_equal; lia. Qed.

(** Beyond a span without event the next event is the same. *)
Lemma next_event_later a b p :
  0 < a -> 0 < b -> next_event a p = (a, NoEvent) ->
  next_event (a + b) p = ((next_event b (count_down a p)).1 + a, (next_event b (count_down a p)).2).
Proof.
  intros Ha Hb. clock_cases p; intros E; simplify_eq; try (exfalso; lia); f_equal; lia.
Qed.

(** A longer span starts with the same event. *)
Lemma next_event_longer a b p dt ev :
  0 < a -> 0 < b -> next_event a p = (dt, ev) -> ev <> NoEvent -> next_event (a + b) p = (dt, ev).
Proof.
  intros Ha Hb. clock_cases p; intros [= <- <-] Hn; try done; try (exfalso; lia); f_equal; lia.
Qed.

Lemma runs_split e a b s s1 s2 :
  0 < a -> 0 < b -> runs e a s s1 -> runs e b s1 s2 -> runs e (a + b) s s2.
Proof.
  intros Ha Hb H. revert Ha. induction H as [a s En|a s s1 dt ev En Hev H IH]; intros Ha H2.
  - pose proof (next_event_later a b (pace s) Ha Hb En) as El.
    assert (forall c, on_pace (count_down (c + a)) s = on_pace (count_down c) (on_pace (count_down a) s)) as Hc.
    { intros c. rewrite (Z.add_comm c a). unfold on_pace. by rewrite count_down_split. }
    revert El. change (count_down a (pace s)) with (pace (on_pace (count_down a) s)). intros El.
    destruct H2 as [b x En'|b x s2 dt' ev' En' Hev' H']; rewrite En' in El; cbn [fst snd] in El.
    + rewrite (Z.add_comm b a) in *. rewrite <- (Z.add_comm b a), <- Hc. apply runs_end. by rewrite (Z.add_comm b a).
    + eapply runs_event; [exact El|exact Hev'|]. rewrite Hc.
      by replace (a + b - (dt' + a)) with (b - dt') by lia.
  - pose proof (next_event_before a (pace s) dt ev En Hev Ha) as Hdt.
    eapply runs_event; [exact (next_event_longer a b _ _ _ Ha Hb En Hev)|exact Hev|].
    replace (a + b - dt) with (a - dt + b) by lia. apply IH; [lia|exact H2].
Qed.

(** ** The cap is never reached *)

(** How many events the pacer can still produce. *)
Definition potential (p : Pace) : nat :=
  (if sio_shift_active p then 2 else 0) + (if sio_tx_buffered p then 2 else 0) +
  (if sio_pending_ack p then 1 else 0).

Lemma potential_bound p : (potential p <= 5)%nat.
Proof. unfold potential. repeat case_if; lia. Qed.

Lemma potential_count_down dt p : potential (count_down dt p) = potential p.
Proof. destruct (count_down_flags dt p) as (H1 & H2 & H3 & _). unfold potential. by rewrite H1, H2, H3. Qed.

Lemma potential_shift acked p :
  sio_shift_active p = true -> (potential (shift_pace acked p) < potential p)%nat.
Proof.
  intros Ha. unfold potential, shift_pace. destruct p as [? ? ? [] ? ? ? [] ? ? ? ? ?]; cbn in Ha; subst;
    destruct acked; cbn; lia.
Qed.

(** Each event consumes some of it. *)
Lemma fire_potential e r s dt ev :
  next_event r (pace s) = (dt, ev) -> ev <> NoEvent -> 0 < r -> pace_ok (pace s) ->
  (potential (pace (fire e ev (on_pace (count_down dt) s))) < potential (pace s))%nat.
Proof.
  intros En Hev Hr Hok. pose proof (next_event_spec r (pace s) Hok Hr) as Hn. rewrite En in Hn.
  rewrite <- (potential_count_down dt (pace s)). destruct Hn as (_ & _ & _ & Hn).
  destruct ev; [done| |]; unfold fire.
  - destruct (shift_complete_spec e (on_pace (count_down dt) s)) as (s1 & acked & _ & _ & _ & _ & _ & ->).
    apply potential_shift. destruct (count_down_flags dt (pace s)) as (H1 & _). exact (eq_trans H1 (proj1 Hn)).
  - match goal with |- context [sio_fire_ack_irq e ?y] => destruct (fire_ack_calm e y) as (_ & H1 & H2 & H3) end.
    unfold potential. rewrite H1, H2, H3. destruct (count_down_flags dt (pace s)) as (_ & H4 & _).
    change (pace (on_pace (fun p => p <| sio_pending_ack := false |>) (on_pace (count_down dt) s)))
      with ((count_down dt (pace s)) <| sio_pending_ack := false |>).
    assert (sio_pending_ack (count_down dt (pace s)) = true) as -> by (rewrite H4; apply Hn).
    cbn. lia.
Qed.

Lemma event_round_fire e r t dt ev s :
  next_event r (pace s) = (dt, ev) -> ev <> NoEvent ->
  event_round e (mkEv r t false s) = mkEv (r - dt) (t + 1) false (fire e ev (on_pace (count_down dt) s)).
Proof. intros En Hev. rewrite (event_round_eq e r t dt ev s En). destruct ev; [by destruct Hev|exact eq_refl|exact eq_refl]. Qed.

Lemma wf_pace s : wf s -> pace_ok (pace s).
Proof. intros H. apply H. Qed.

Lemma loop_runs e n r t s :
  wf s -> 0 < r -> t + Z.of_nat (potential (pace s)) < MAX_TRANSITIONS -> (potential (pace s) < n)%nat ->
  let x := nwhile n event_guard (event_round e) (mkEv r t false s) in
  runs e r s (el_state x) /\ el_break x = true.
Proof.
  revert r t s. induction n as [|n IH]; intros r t s Hw Hr Ht Hn; [lia|]. cbv zeta.
  rewrite nwhile_round by lia. destruct (next_event r (pace s)) as [dt ev] eqn:En.
  pose proof (event_round_wf e (mkEv r t false s) Hw) as Hw1. unfold event_guard in Hw1.
  cbn [el_remaining el_transitions el_break] in Hw1.
  specialize (Hw1 ltac:(rewrite (proj2 (Z.ltb_lt 0 r) Hr), (proj2 (Z.ltb_lt t _)) by lia; done)).
  destruct (decide (ev = NoEvent)) as [-> | Hev].
  { rewrite (event_round_eq e r t dt NoEvent s En), nwhile_break by done. cbn [el_state el_break].
    pose proof (next_event_none _ _ _ En) as ->. split; [by apply runs_end|done]. }
  rewrite (event_round_fire e r t dt ev s En Hev) in *. cbn [el_state] in Hw1.
  pose proof (next_event_before r _ dt ev En Hev Hr).
  pose proof (fire_potential e r s dt ev En Hev Hr (wf_pace s Hw)) as Hp.
  pose proof (fun x => runs_event e r s x dt ev En Hev) as Hgo. revert Hw1 Hp Hgo.
  generalize (fire e ev (on_pace (count_down dt) s)) as s1. intros s1 Hw1 Hp Hgo.
  destruct (IH (r - dt) (t + 1) s1 Hw1) as [H1 H2]; [lia|lia|lia|]. split; [|exact H2]. by apply Hgo.
Qed.

(** The loop of [sio_advance] realises [runs]. *)
Lemma event_loop_runs e c s :
  wf s -> 0 < c -> runs e c s (el_state (event_loop e c s)) /\ el_break (event_loop e c s) = true.
Proof.
  intros Hw Hc. unfold event_loop. rewrite pwhile_nwhile. pose proof (potential_bound (pace s)).
  apply loop_runs; [done|done|unfold MAX_TRANSITIONS; lia|]. change (Pos.to_nat 16) with 16%nat. lia.
Qed.

(** C11: the clock of the port does not depend on how time is cut: from every
    well-formed state, running the event loop of [sio_advance] for [a + b]
    cycles gives the state of running it for [a] cycles and then for [b], byte
    completions, promotions from the buffer and acknowledge interrupts
    included; and the loop always ends because the span is used up, never
    because of its cap of eight transitions. *)
Theorem sio_clock_additive e a b s :
  wf s -> 0 < a -> 0 < b ->
  el_state (event_loop e (a + b) s) = el_state (event_loop e b (el_state (event_loop e a s))) /\
  el_break (event_loop e (a + b) s) = true.
Proof.
  intros Hw Ha Hb. destruct (event_loop_runs e a s Hw Ha) as [H1 _].
  destruct (event_loop_runs e b _ (event_loop_wf e a s Hw) Hb) as [H2 _].
  destruct (event_loop_runs e (a + b) s Hw ltac:(lia)) as [H3 H4]. split; [|exact H4].
  eapply runs_det; [exact H3|]. by eapply runs_split.
Qed.

(** ** Where the announced distance lands *)

(** A byte alone in the shifter is due after the distance announced. *)
Lemma landing_distance s :
  wf s -> g_sio_timing_active (pace s) = true -> sio_shift_active (pace s) = true ->
  0 < sio_shift_remaining (pace s) -> sio_pending_ack (pace s) = false ->
  sio_irq_pending (irqctx s) = false ->
  sio_cycles_to_irq 0xFFFFFFFF s = sio_shift_remaining (pace s).
Proof.
  intros Hw Ht Hs Hr Hp Hi. destruct (wf_pace s Hw) as [[_ Hb] _ _ _]. unfold SIO_BAUD_CYCLES_DEFAULT in Hb.
  unfold sio_cycles_to_irq. change (has 0xFFFFFFFF (Z.shiftl 1 7)) with true. cbv zeta. cbn [negb].
  rewrite Hi, Ht, Hs, Hp. cbn [andb]. rewrite (proj2 (Z.ltb_lt _ _) Hr). cbn [andb].
  assert (u32 (sio_shift_remaining (pace s)) = sio_shift_remaining (pace s)) as ->
    by (unfold u32; apply Z.mod_small; lia).
  by rewrite (proj2 (Z.ltb_lt _ _)) by lia.
Qed.

(** The byte in the shifter once its time is exactly used up. *)
Definition due s : State W := on_pace (fun p => p <| sio_shift_remaining := 0 |>) s.

Lemma count_down_due s :
  sio_shift_active (pace s) = true -> sio_pending_ack (pace s) = false ->
  on_pace (count_down (sio_shift_remaining (pace s))) s = due s.
Proof.
  intros Hs Hp. unfold on_pace, due, on_pace. do 2 f_equal. revert Hs Hp. generalize (pace s). intros p Hs Hp.
  unfold count_down. destruct p; cbn in *. subst. cbn. by rewrite Z.sub_diag.
Qed.

Lemma shift_pace_quiet acked p :
  sio_pending_ack p = false -> next_event 1 (shift_pace acked p) = (1, NoEvent).
Proof.
  intros Hp. unfold next_event, shift_pace. destruct p as [? ? ? [] ? ? ? ? ? ? ? ? ?]; cbn in Hp; subst;
    destruct acked; reflexivity.
Qed.

Lemma land_exactly e s :
  wf s -> sio_shift_active (pace s) = true -> 0 < sio_shift_remaining (pace s) ->
  sio_pending_ack (pace s) = false ->
  el_state (event_loop e (sio_shift_remaining (pace s)) s) = due s.
Proof.
  intros Hw Hs Hr Hp. destruct (event_loop_runs e _ s Hw Hr) as [H1 _].
  rewrite <- count_down_due by done. eapply runs_det; [exact H1|]. apply runs_end.
  unfold next_event. rewrite Hs, Hp, Z.ltb_irrefl, andb_false_r. cbn [andb].
  by rewrite (proj2 (Z.leb_gt _ _) Hr).
Qed.

Lemma due_fires e s :
  wf s -> sio_shift_active (pace s) = true -> 0 < sio_shift_remaining (pace s) -> sio_pending_ack (pace s) = false ->
  el_state (event_loop e 1 (due s)) =
    on_pace (count_down 1) (sio_handle_shift_complete e (on_pace (count_down 0) (due s))).
Proof.
  intros Hw Hs Hr Hp. assert (wf (due s)) as Hd.
  { rewrite <- (land_exactly e s Hw Hs Hr Hp). by apply event_loop_wf. }
  destruct (event_loop_runs e 1 (due s) Hd) as [H1 _]; [done|].
  eapply runs_det; [exact H1|]. eapply (runs_event e 1 (due s) _ 0 ShiftDone); [|done|].
  - unfold next_event. change (sio_shift_active (pace (due s))) with (sio_shift_active (pace s)).
    change (sio_pending_ack (pace (due s))) with (sio_pending_ack (pace s)). by rewrite Hs, Hp.
  - change (1 - 0) with 1. apply runs_end.
    destruct (shift_complete_spec e (on_pace (count_down 0) (due s))) as (s1 & acked & _ & _ & _ & _ & _ & Px).
    unfold fire. rewrite Px. apply shift_pace_quiet. destruct (count_down_flags 0 (pace (due s))) as (_ & H2 & _).
    exact (eq_trans H2 Hp).
Qed.

(** Advancing the port by exactly the distance [sio_cycles_to_irq]
    announces, as the scheduler's chunks do, does not process the byte in the
    shifter: the state differs only in the counter, which is 0, while the byte
    stays active; in that state no event is announced any more (0xFFFFFFFF),
    although the byte is processed by the very next cycle the port is given. *)
Theorem sio_landing_hides_event e s :
  wf s -> g_sio_timing_active (pace s) = true -> sio_shift_active (pace s) = true ->
  0 < sio_shift_remaining (pace s) -> sio_pending_ack (pace s) = false ->
  sio_irq_pending (irqctx s) = false ->
  let s1 := el_state (event_loop e (sio_cycles_to_irq 0xFFFFFFFF s) s) in
  s1 = due s /\ sio_shift_active (pace s1) = true /\
  sio_cycles_to_irq 0xFFFFFFFF s1 = 0xFFFFFFFF /\
  el_state (event_loop e 1 s1) =
    on_pace (count_down 1) (sio_handle_shift_complete e (on_pace (count_down 0) (due s))).
Proof.
  intros Hw Ht Hs Hr Hp Hi. rewrite landing_distance by done. rewrite (land_exactly e s) by done. cbv zeta.
  split; [done|]. split; [exact Hs|]. split; [|by apply due_fires].
  unfold sio_cycles_to_irq. change (has 0xFFFFFFFF (Z.shiftl 1 7)) with true. cbv zeta. cbn [negb].
  change (irqctx (due s)) with (irqctx s). change (g_sio_timing_active (pace (due s))) with (g_sio_timing_active (pace s)).
  change (sio_pending_ack (pace (due s))) with (sio_pending_ack (pace s)).
  change (sio_shift_remaining (pace (due s))) with 0. rewrite Hi, Ht, Hp. cbn [andb].
  by rewrite andb_false_r.
Qed.

(** ** The shifter and its buffer are a queue of two bytes *)

Definition queue (p : Pace) : list (Z * bool) :=
  (if sio_shift_active p then [(sio_shift_byte p, sio_shift_ack_irq_en p)] else []) ++
  (if sio_tx_buffered p then [(sio_tx_buffer p, sio_tx_buffer_ack_irq_en p)] else []).

Lemma queue_write b s :
  pace_ok (pace s) ->
  queue (pace (tx_paced b s)) =
    if Z.of_nat (length (queue (pace s))) <? 2
    then queue (pace s) ++ [(b, has (sio_ctrl (regs s)) SIO_CTRL_ACK_IRQ_EN)] else queue (pace s).
Proof.
  intros [_ _ Hb _]. unfold tx_paced. cbv zeta. set (s1 := if _ =? 0 then _ else _).
  assert (sio_shift_active (pace s1) = sio_shift_active (pace s) /\
    sio_tx_buffered (pace s1) = sio_tx_buffered (pace s) /\ queue (pace s1) = queue (pace s) /\
    sio_ctrl (regs s1) = sio_ctrl (regs s)) as (H1 & H2 & H3 & H4) by (unfold s1; case_if; done).
  clearbody s1. set (s2 := on_pace _ s1).
  assert (sio_shift_active (pace s2) = sio_shift_active (pace s1) /\
    sio_tx_buffered (pace s2) = sio_tx_buffered (pace s1) /\ queue (pace s2) = queue (pace s1) /\
    sio_ctrl (regs s2) = sio_ctrl (regs s1)) as (G1 & G2 & G3 & G4) by done.
  clearbody s2. rewrite <- H1, <- H2 in Hb. rewrite <- H3, <- H4, <- G3, <- G4. rewrite <- G1, <- G2 in Hb.
  clear - Hb. unfold queue.
  destruct (sio_shift_active (pace s2)) eqn:Ea, (sio_tx_buffered (pace s2)) eqn:Eb; cbn;
    rewrite ?Ea, ?Eb; try done. by specialize (Hb eq_refl).
Qed.

Lemma queue_shift acked p :
  pace_ok p -> sio_shift_active p = true -> queue (shift_pace acked p) = tail (queue p).
Proof.
  intros _ Ha. unfold queue, shift_pace. destruct p as [? ? ? [] ? ? ? [] ? ? ? ? ?]; cbn in Ha; subst;
    destruct acked; reflexivity.
Qed.

(** The transmitter is a first-in first-out queue of two bytes, the shifter
    and the buffer: a byte written to TX_DATA on the paced path joins the end
    with the acknowledge-interrupt enable of CTRL at that moment, and is
    dropped exactly when two bytes are waiting; a completed byte is the head
    of the queue, which is the byte processed, and leaves the tail. *)
Theorem sio_tx_queue e b s :
  wf s ->
  queue (pace (tx_paced b s)) =
    (if Z.of_nat (length (queue (pace s))) <? 2
     then queue (pace s) ++ [(b, has (sio_ctrl (regs s)) SIO_CTRL_ACK_IRQ_EN)] else queue (pace s)) /\
  forall x en q, queue (pace s) = (x, en) :: q ->
    queue (pace (sio_handle_shift_complete e s)) = q /\
    exists s1, visible s1 = visible s /\
      visible (sio_handle_shift_complete e s) = visible (sio_process_byte e x s1).
Proof.
  intros Hw. pose proof (wf_pace s Hw) as Hp. split; [by apply queue_write|]. intros x en q Hq.
  assert (sio_shift_active (pace s) = true /\ sio_shift_byte (pace s) = x) as [Ha <-].
  { unfold queue in Hq. destruct Hp as [_ _ Hb _]. destruct (sio_shift_active (pace s)); [by simplify_eq/=|].
    destruct (sio_tx_buffered (pace s)); [by specialize (Hb eq_refl)|done]. }
  destruct (shift_complete_spec e s) as (s1 & acked & V & _ & _ & _ & Vx & ->). split; [|by exists s1].
  rewrite queue_shift by done. by rewrite Hq.
Qed.

(** ** The controller's poll *)

(** What the host does to the pads, possibly between two bytes. *)
Definition is_host (o : Op) : bool :=
  match o with
  | OpConnect _ _ | OpConfigCapable _ _ | OpButtons _ _ | OpSticks _ _ _ _ _ | OpAnalog _ _ _ _ _ _
  | OpRequestType _ _ | OpLegacy _ => true
  | _ => false
  end.

(** What the frame in flight depends on. *)
Definition in_flight s :=
  let p := pad s in
  (pad_state p, pad_response p, pad_response_len p, pad_response_idx p, pad_current_cmd p, selected_slot s).

Lemma host_in_flight e o s : is_host o = true -> in_flight (run_op e o s) = in_flight s.
Proof.
  destruct o; try done; intros _; cbn [run_op];
    unfold sio_set_pad_connected, sio_set_pad_config_capable, sio_set_pad_state_slot, sio_set_pad_analog,
      sio_set_pad_sticks, sio_request_pad_type, sio_set_legacy_cfg; cbv zeta; repeat case_if; reflexivity.
Qed.

Definition host_ops (h : list (Env * Op)) : Prop := Forall (fun eo => is_host eo.2 = true) h.

Lemma hosts_in_flight h s : host_ops h -> in_flight (run h s) = in_flight s.
Proof.
  unfold run. intros H. revert s. induction H as [|[e o] h Ho _ IH]; intros s; cbn [fold_left]; [done|].
  rewrite IH. by apply host_in_flight.
Qed.

Lemma hosts_wf h s : wf s -> wf (run h s).
Proof.
  unfold run. revert s. induction h as [|[e o] h IH]; intros s H; cbn [fold_left]; [done|].
  apply IH. by apply run_op_wf.
Qed.

(** Bytes to the pad, each after host operations and with the acknowledge
    latch consumed; the answers with their acknowledges. *)
Definition pad_byte (b : Z) s : (Z * bool) * State W :=
  let s := pad_process_byte b (sio_consume_ack_event s).2 in
  ((sio_rx_data (regs s), has (sio_stat (regs s)) SIO_STAT_ACK), s).

Fixpoint pad_talk (l : list (list (Env * Op) * Z)) s : list (Z * bool) * State W :=
  match l with
  | [] => ([], s)
  | (h, b) :: l =>
      let '(r, s) := pad_byte b (run h s) in
      let '(rs, s) := pad_talk l s in (r :: rs, s)
  end.

Lemma clear_ack v : has (Z.ldiff v SIO_STAT_ACK) SIO_STAT_ACK = false.
Proof.
  change SIO_STAT_ACK with (2 ^ 7). rewrite has_pow2, Z.ldiff_spec by lia.
  change (Z.testbit (2 ^ 7) 7) with true. apply andb_false_r.
Qed.

(** A byte is [pad_exchange] on the pad. *)
Lemma pad_byte_spec b s rx ack p :
  pad_exchange b (selected_slot s) (pad s) = (rx, ack, p) ->
  (pad_byte b s).1 = (rx, ack) /\ pad (pad_byte b s).2 = p /\ selected_slot (pad_byte b s).2 = selected_slot s.
Proof.
  intros E. unfold pad_byte, sio_consume_ack_event. cbn [snd]. unfold pad_process_byte.
  change (selected_slot (clear_stat SIO_STAT_ACK s)) with (selected_slot s).
  change (pad (clear_stat SIO_STAT_ACK s)) with (pad s). rewrite E. cbv zeta. cbn [fst snd].
  split; [|by destruct ack]. f_equal; [by destruct ack|].
  pose proof (clear_ack (sio_stat (regs s))) as Hc.
  destruct ack.
  - match goal with |- has ?v _ = _ => change v with
      (Z.lor (Z.lor (Z.lor (Z.ldiff (sio_stat (regs s)) SIO_STAT_ACK) SIO_STAT_ACK) SIO_STAT_RX_RDY) TX_IDLE) end.
    rewrite !ack_lor, Hc. reflexivity.
  - match goal with |- has ?v _ = _ => change v with
      (Z.lor (Z.lor (Z.ldiff (sio_stat (regs s)) SIO_STAT_ACK) SIO_STAT_RX_RDY) TX_IDLE) end.
    rewrite !ack_lor, Hc. reflexivity.
Qed.

(** A frame acknowledges every byte but its last. *)
Fixpoint answers (d : list Z) : list (Z * bool) :=
  match d with [] => [] | x :: d => (x, negb (bool_decide (d = []))) :: answers d end.

Lemma latch_config_poll tx slot p : pad_current_cmd p = 0x42 -> latch_config tx slot p = p.
Proof.
  intros H. unfold latch_config. cbv zeta. rewrite H. change (0x42 =? 0x43) with false. cbn [andb].
  rewrite H. change (0x42 =? 0x44) with false. cbn [andb]. rewrite H. change (0x42 =? 0x44) with false. cbn [andb].
  by destruct (g_pad_legacy_cfg p).
Qed.

(** The rest of a latched frame. *)
Record sending (d : list Z) s : Prop := {
  sg_state : pad_state (pad s) = PAD_SEND_RESPONSE;
  sg_cmd : pad_current_cmd (pad s) = 0x42;
  sg_idx : 0 <= pad_response_idx (pad s);
  sg_len : pad_response_idx (pad s) + Z.of_nat (length d) = pad_response_len (pad s);
  sg_max : pad_response_len (pad s) <= 8;
  sg_data : d = drop (Z.to_nat (pad_response_idx (pad s)))
                  (take (Z.to_nat (pad_response_len (pad s))) (pad_response (pad s)));
}.

Lemma sending_in_flight d s s' : in_flight s' = in_flight s -> sending d s -> sending d s'.
Proof. unfold in_flight. intros [= H1 H2 H3 H4 H5 _] []. split; by rewrite ?H1, ?H2, ?H3, ?H4, ?H5. Qed.

Lemma send_byte b x d s :
  sending (x :: d) s ->
  (pad_byte b s).1 = (x, negb (bool_decide (d = []))) /\
  (if bool_decide (d = []) then pad_state (pad (pad_byte b s).2) = PAD_IDLE else sending d (pad_byte b s).2).
Proof.
  intros [H1 H2 H3 H4 H5 H6]. cbn [length] in H4. remember (pad s) as p eqn:Ep.
  assert (take (Z.to_nat (pad_response_len p)) (pad_response p) !! Z.to_nat (pad_response_idx p) = Some x) as Hx.
  { rewrite <- (Nat.add_0_r (Z.to_nat _)), <- lookup_drop, <- H6. done. }
  assert (pad_response p !! Z.to_nat (pad_response_idx p) = Some x) as Hx'
    by (rewrite lookup_take_Some in Hx; apply Hx).
  assert (aget (pad_response p) (pad_response_idx p) = x) as Hg by (unfold aget; by apply nth_lookup_Some).
  assert (u8 (pad_response_idx p + 1) = pad_response_idx p + 1) as Hu by (apply u8_id; lia).
  set (p1 := p <| pad_response_idx := u8 (pad_response_idx p + 1) |>).
  assert (pad_exchange b (selected_slot s) (pad s) =
    if pad_response_idx p1 <? pad_response_len p1 then (x, true, p1) else (x, false, pad_reset p1)) as E.
  { unfold pad_exchange. rewrite <- Ep, H1. cbn [bool_decide]. rewrite bool_decide_eq_false_2 by done.
    rewrite H1, latch_config_poll by done. rewrite (proj2 (Z.ltb_lt _ _)) by lia. cbv zeta. rewrite Hg. done. }
  assert (pad_response_idx p1 = pad_response_idx p + 1) as Hi by exact Hu.
  change (pad_response_len p1) with (pad_response_len p) in E. rewrite Hi in E.
  destruct d as [|y d]; cbn [length] in H4.
  - rewrite (proj2 (Z.ltb_ge _ _)) in E by lia. destruct (pad_byte_spec b s _ _ _ E) as (G1 & G2 & _).
    split; [exact G1|]. rewrite bool_decide_eq_true_2, G2 by done. done.
  - rewrite (proj2 (Z.ltb_lt _ _)) in E by lia. destruct (pad_byte_spec b s _ _ _ E) as (G1 & G2 & _).
    split; [exact G1|]. rewrite bool_decide_eq_false_2 by done. split; rewrite ?G2; try done; rewrite ?Hi; try (cbn [length]; lia).
    + change (pad_response_len p1) with (pad_response_len p). cbn [length]. lia.
    + change (pad_response_len p1) with (pad_response_len p). change (pad_response p1) with (pad_response p).
      replace (Z.to_nat (pad_response_idx p + 1)) with (S (Z.to_nat (pad_response_idx p))) by lia.
      rewrite (drop_S _ _ _ Hx) in H6. by injection H6.
Qed.

Lemma send_frame l d s :
  sending d s -> length l = length d -> d <> [] -> Forall (fun hb => host_ops hb.1) l ->
  (pad_talk l s).1 = answers d /\ pad_state (pad (pad_talk l s).2) = PAD_IDLE.
Proof.
  revert d s. induction l as [|[h b] l IH]; intros [|x d] s Hs Hl Hd Hh; try done.
  inversion_clear Hh as [|? ? Hh1 Hh2]. cbn [fst] in Hh1. cbn [pad_talk].
  pose proof (sending_in_flight _ _ _ (hosts_in_flight h s Hh1) Hs) as Hs1.
  destruct (send_byte b x d _ Hs1) as [G1 G2]. destruct (pad_byte b (run h s)) as [r s1]. cbn [fst snd] in *.
  subst r. cbn [answers]. injection Hl as Hl. destruct d as [|y d].
  - destruct l; [|done]. done.
  - cbn [bool_decide] in *. rewrite bool_decide_eq_false_2 in * by done.
    destruct (IH (y :: d) s1 G2 Hl ltac:(done) Hh2) as [K1 K2]. destruct (pad_talk l s1) as [rs s2].
    cbn [fst snd] in *. by rewrite K1.
Qed.

(** The frame the pad of [slot] latches on a poll. *)
Definition pad_frame (slot : Z) (p : Pad) : list Z :=
  poll_frame (cur_id slot p) slot (negb (aget (pad_analog p) slot =? 0) || negb (aget (pad_in_config p) slot =? 0)) p.

(** A frame is as long as its identity says. *)
Lemma pad_frame_shape slot p :
  exists id b0 b1 t, pad_frame slot p = id :: 0x5A :: b0 :: b1 :: t /\
    ((id = 0x41 /\ t = []) \/ ((id = 0x73 \/ id = 0xF3) /\ length t = 4%nat)).
Proof.
  unfold pad_frame, poll_frame, cur_id. cbv zeta.
  destruct (aget (pad_in_config p) slot =? 0), (aget (pad_analog p) slot =? 0); cbn [negb orb app];
    do 4 eexists; (split; [reflexivity|]); auto.
Qed.

Lemma access_byte s :
  pad_state (pad s) = PAD_IDLE -> has (pad_connected (pad s)) (Z.shiftl 1 (selected_slot s)) = true ->
  (pad_byte 0x01 s).1 = (0xFF, true) /\ pad_state (pad (pad_byte 0x01 s).2) = PAD_WAIT_ACCESS /\
  selected_slot (pad_byte 0x01 s).2 = selected_slot s.
Proof.
  intros Hi Hc. set (p1 := forZ 0 2 apply_type_req (pad s)).
  assert (pad_state p1 = PAD_IDLE /\ pad_connected p1 = pad_connected (pad s)) as [H1 H2].
  { unfold p1. apply (forZ_inv (fun p => pad_state p = PAD_IDLE /\ pad_connected p = pad_connected (pad s))); [done|].
    intros i x _ Hx. unfold apply_type_req. by case_if. }
  assert (pad_exchange 0x01 (selected_slot s) (pad s) = (0xFF, true, p1 <| pad_state := PAD_WAIT_ACCESS |>)) as E.
  { unfold pad_exchange. rewrite Hi, bool_decide_eq_true_2 by done. fold p1. cbv zeta. rewrite H1, H2, Hc. done. }
  destruct (pad_byte_spec 0x01 s _ _ _ E) as (G1 & G2 & G3). by rewrite G1, G2, G3.
Qed.

Lemma poll_byte s :
  pad_state (pad s) = PAD_WAIT_ACCESS ->
  exists x d, pad_frame (selected_slot s) (pad s) = x :: d /\
    (pad_byte 0x42 s).1 = (x, true) /\ sending d (pad_byte 0x42 s).2.
Proof.
  intros Hw. destruct (pad_frame_shape (selected_slot s) (pad s)) as (id & b0 & b1 & t & Ef & Ht).
  exists id, (0x5A :: b0 :: b1 :: t). split; [done|].
  set (p1 := (pad s) <| pad_current_cmd := 0x42 |> <| pad_response_idx := 1 |>).
  assert (pad_exchange 0x42 (selected_slot s) (pad s) =
    (id, true, (response (pad_frame (selected_slot s) (pad s)) p1) <| pad_state := PAD_SEND_RESPONSE |>)) as E.
  { unfold pad_exchange. rewrite Hw, bool_decide_eq_false_2 by done. cbv zeta. rewrite Hw. fold p1.
    change (command_response 0x42 (selected_slot s) p1) with (Some (pad_frame (selected_slot s) (pad s))).
    cbv iota. by rewrite Ef. }
  destruct (pad_byte_spec 0x42 s _ _ _ E) as (G1 & G2 & _). split; [exact G1|]. rewrite Ef in G2.
  assert (length t = 0 \/ length t = 4)%nat as Hl by (destruct Ht as [[_ ->]|[_ ->]]; auto).
  split; rewrite G2; try done; cbn; [lia|lia|].
  rewrite Nat2Z.id. cbn. by rewrite take_app_length.
Qed.

(** A controller poll is answered by the frame latched at the 0x42 byte,
    whatever the host does to the pads between any two bytes (buttons, sticks,
    analog switches, type requests, hot-plugging): the guest receives 0xFF,
    then the identity, 0x5A, the buttons and, for an analog or configuring
    pad, the four axes of that moment; every byte but the last is
    acknowledged; the identity always agrees with the length of the frame; and
    the pad is idle afterwards. *)
Theorem sio_pad_poll s h0 h1 l :
  pad_state (pad s) = PAD_IDLE -> host_ops h0 -> host_ops h1 -> Forall (fun hb => host_ops hb.1) l ->
  has (pad_connected (pad (run h0 s))) (Z.shiftl 1 (selected_slot s)) = true ->
  let frame := pad_frame (selected_slot s) (pad (run h1 (pad_byte 0x01 (run h0 s)).2)) in
  S (length l) = length frame ->
  let '(rs, s') := pad_talk ((h0, 0x01) :: (h1, 0x42) :: l) s in
  rs = (0xFF, true) :: answers frame /\ pad_state (pad s') = PAD_IDLE /\
  exists id b0 b1 t, frame = id :: 0x5A :: b0 :: b1 :: t /\
    ((id = 0x41 /\ t = []) \/ ((id = 0x73 \/ id = 0xF3) /\ length t = 4%nat)).
Proof.
  intros Hi H0 H1 Hl Hc frame Hn.
  pose proof (hosts_in_flight h0 s H0) as F0. unfold in_flight in F0. injection F0 as F0 _ _ _ _ S0.
  destruct (access_byte (run h0 s)) as (A1 & A2 & A3); [by rewrite F0|by rewrite S0|].
  subst frame. revert A1 A2 A3 Hn. cbn [pad_talk]. destruct (pad_byte 0x01 (run h0 s)) as [r0 s1]. cbn [fst snd].
  intros -> A2 A3 Hn. pose proof (hosts_in_flight h1 s1 H1) as F1. unfold in_flight in F1. injection F1 as F1 _ _ _ _ S1.
  destruct (poll_byte (run h1 s1)) as (x & d & E & B1 & B2); [by rewrite F1|].
  rewrite S1, A3, S0 in E. rewrite E in *. destruct (pad_byte 0x42 (run h1 s1)) as [r1 s2]. cbn [fst snd] in *. subst r1.
  destruct (pad_frame_shape (selected_slot s) (pad (run h1 s1))) as (id & b0 & b1 & t & Ef & Ht).
  rewrite E in Ef. injection Ef as -> ->. injection Hn as Hn.
  destruct (send_frame l _ s2 B2 Hn) as [K1 K2]; [done|exact Hl|]. destruct (pad_talk l s2) as [rs s3].
  cbn [fst snd] in *. subst rs. split; [done|]. split; [exact K2|]. by exists id, b0, b1, t.
Qed.

(** A locked pad keeps a host request for later. *)
Lemma locked_request_kept i p :
  aget (analog_mode_locked p) i <> 0 -> apply_type_req i p = p.
Proof. intros H. unfold apply_type_req. apply Z.eqb_neq in H. by rewrite H, andb_false_r. Qed.

(** What a snapshot restores, and what it leaves to the state it is read into. *)
Lemma snapshot_restores s s' :
  let r := sio_snapshot_read (sio_snapshot_write s) s' in
  regs r = regs s /\ mc r = mc s /\ mc_slot r = mc_slot s /\ mc_slots r = mc_slots s /\
  selected_slot r = selected_slot s /\ active_device r = active_device s /\ pace r = pace s /\
  irqctx r = irqctx s /\ in_flight r = in_flight s /\
  analog_mode_locked (pad r) = analog_mode_locked (pad s') /\
  pad_supports_config (pad r) = pad_supports_config (pad s') /\
  pad_buttons (pad r) = pad_buttons (pad s') /\ pad_stick (pad r) = pad_stick (pad s').
Proof. repeat split. Qed.

End Clock.

(** ** Witnesses *)

(** The select byte in the shifter. *)
Definition shifting : State (gmap string (list Z)) := sio_write env0 0x1F801040 0x81 selecting.

Lemma shifting_wf : wf shifting.
Proof. apply sio_write_wf, selecting_ready. Qed.

Lemma sio_clock_additive_witness :
  el_state (event_loop env0 (700 + 600) shifting) =
    el_state (event_loop env0 600 (el_state (event_loop env0 700 shifting))) /\
  el_break (event_loop env0 (700 + 600) shifting) = true.
Proof. apply (sio_clock_additive env0 700 600 shifting shifting_wf); lia. Defined.

Lemma sio_landing_hides_event_witness :
  let s1 := el_state (event_loop env0 (sio_cycles_to_irq 0xFFFFFFFF shifting) shifting) in
  s1 = due shifting /\ sio_shift_active (pace s1) = true /\
  sio_cycles_to_irq 0xFFFFFFFF s1 = 0xFFFFFFFF /\
  el_state (event_loop env0 1 s1) =
    on_pace (count_down 1) (sio_handle_shift_complete env0 (on_pace (count_down 0) (due shifting))).
Proof.
  apply (sio_landing_hides_event env0 shifting shifting_wf); reflexivity.
Defined.

Lemma sio_tx_queue_witness :
  queue (pace (tx_paced 0x52 shifting)) = [(0x81, false); (0x52, false)].
Proof. exact (proj1 (sio_tx_queue env0 0x52 shifting shifting_wf)). Defined.

(** A pad on port 0 the host switches to analog in the middle of a frame. *)
Definition padded : State (gmap string (list Z)) := sio_connect_pad 0 selecting.

Lemma sio_pad_poll_witness :
  let l := [([(env0, OpAnalog 0 true 1 2 3 4)], 0); ([(env0, OpButtons 0 0)], 0); ([], 0)] in
  let frame := pad_frame 0 (pad (run [] (pad_byte 0x01 (run [] padded)).2)) in
  let '(rs, s') := pad_talk (([], 0x01) :: ([], 0x42) :: l) padded in
  rs = (0xFF, true) :: answers frame /\ pad_state (pad s') = PAD_IDLE /\
  exists id b0 b1 t, frame = id :: 0x5A :: b0 :: b1 :: t /\
    ((id = 0x41 /\ t = []) \/ ((id = 0x73 \/ id = 0xF3) /\ length t = 4%nat)).
Proof.
  apply (sio_pad_poll padded [] [] [([(env0, OpAnalog 0 true 1 2 3 4)], 0); ([(env0, OpButtons 0 0)], 0); ([], 0)]).
  - reflexivity.
  - constructor.
  - constructor.
  - repeat constructor.
  - reflexivity.
  - reflexivity.
Defined.

End SioClock.
