(* ===== verification/Interrupts.v ===== *)
(** * Interrupt delivery

    src/runtime/src/interrupts.c in the build with PSX_ENABLE_BLOCK_CYCLES and
    without PSX_COSIM: VBlank pacing, the delivery gates, the synchronous
    exception handler with its setjmp/longjmp escapes, nested deliveries and the
    post-exception cooldown.

    The handler and the code it runs are recompiled guest code: a [Guest] tree of
    the actions that reach this file.  A [jmp_buf] is the identity of the
    activation of [psx_check_interrupts] that filled it; jumping to one whose
    activation has ended is undefined behaviour, as in C.  Everything runs on one
    fiber. *)

From S2P Require Import Prelude Bus.

Module Irq.

(** ** State *)

#[projections(primitive)] Record Cpu := mkCpu {
  pc : Z; gpr : list Z; hi : Z; lo : Z; cop0 : list Z
}.
#[export] Instance eta_Cpu : Eta Cpu := fun c => mkCpu (pc c) (gpr c) (hi c) (lo c) (cop0 c).

Inductive Escape := ESCAPE_NONE | RFE_RETURN | SYSCALL_RETURN | LEGACY_SENTINEL.
#[export] Instance Escape_dec : EqDecision Escape.
Proof. solve_decision. Defined.

Definition escape_code (e : Escape) : Z :=
  match e with ESCAPE_NONE => 0 | RFE_RETURN => 1 | SYSCALL_RETURN => 2 | LEGACY_SENTINEL => 3 end.

(** The VBlank clock. *)
#[projections(primitive)] Record Pacing := mkPacing {
  cycles_since_vblank : Z; last_sio_seq_seen : Z; last_sio_progress_cycle : Z; dispatch_count : Z;
  g_vblank_raise_count : Z
}.
#[export] Instance eta_Pacing : Eta Pacing := fun p =>
  mkPacing (cycles_since_vblank p) (last_sio_seq_seen p) (last_sio_progress_cycle p)
    (dispatch_count p) (g_vblank_raise_count p).

(** The host side of exceptions: guard, cooldown and escapes. *)
#[projections(primitive)] Record Exc := mkExc {
  in_exception : bool; exception_nest_depth : Z; post_exception_cooldown_until : Z;
  exception_jmpbuf : option Z; live_frames : list Z; next_frame : Z;
  g_rfe_escape_pending : bool; g_exc_escape_reason : Escape; g_exception_real_epc : Z;
  s_compiled_interrupt_resume_pc : Z; g_dirty_safe_resume_pc : Z;
  s_last_interrupt_check_pc : Z; s_last_interrupt_check_cycle : Z;
  g_psx_dispatch_depth : Z; g_psx_call_bail : bool; g_dirty_interp_active : Z
}.
#[export] Instance eta_Exc : Eta Exc := fun x =>
  mkExc (in_exception x) (exception_nest_depth x) (post_exception_cooldown_until x)
    (exception_jmpbuf x) (live_frames x) (next_frame x) (g_rfe_escape_pending x)
    (g_exc_escape_reason x) (g_exception_real_epc x) (s_compiled_interrupt_resume_pc x)
    (g_dirty_safe_resume_pc x) (s_last_interrupt_check_pc x) (s_last_interrupt_check_cycle x)
    (g_psx_dispatch_depth x) (g_psx_call_bail x) (g_dirty_interp_active x).

#[projections(primitive)] Record IrqCtxEntry := mkCtx {
  q_seq : Z; q_cycle : Z; q_istat : Z; q_imask : Z; q_sr : Z; q_d44 : Z; q_cdrom : Z;
  q_is_vblank : bool; q_dma_depth : Z; q_take_pc : Z; q_real_epc : Z; q_exit_pc : Z;
  q_exit_reason : Z; q_same_thread : bool; q_restored : bool; q_v1_exit : Z; q_v1_saved : Z;
  q_ra_exit : Z; q_ra_saved : Z; q_redirects : Z
}.
#[export] Instance eta_Ctx : Eta IrqCtxEntry := fun q =>
  mkCtx (q_seq q) (q_cycle q) (q_istat q) (q_imask q) (q_sr q) (q_d44 q) (q_cdrom q)
    (q_is_vblank q) (q_dma_depth q) (q_take_pc q) (q_real_epc q) (q_exit_pc q) (q_exit_reason q)
    (q_same_thread q) (q_restored q) (q_v1_exit q) (q_v1_saved q) (q_ra_exit q) (q_ra_saved q)
    (q_redirects q).
Definition ctx_zero : IrqCtxEntry := mkCtx 0 0 0 0 0 0 0 false 0 0 0 0 0 false false 0 0 0 0 0.

(** Telemetry. *)
#[projections(primitive)] Record Diag := mkDiag {
  total_checks : Z; exception_entries_total : Z; exception_reentry_blocks : Z;
  g_nestgate_depth : Z; g_nestgate_rfepend : Z; g_nestgate_escreason : Z; g_nestgate_iec : Z;
  g_vblank_deliver_count : Z; g_irq_deliver_count : Z; g_cdrom_deliver_count : Z;
  s_last_istat : Z; s_last_outcome : Z; g_psx_bail_anomaly : Z;
  g_irqctx_ring : gmap Z IrqCtxEntry; g_irqctx_seq : Z
}.
#[export] Instance eta_Diag : Eta Diag := fun d =>
  mkDiag (total_checks d) (exception_entries_total d) (exception_reentry_blocks d)
    (g_nestgate_depth d) (g_nestgate_rfepend d) (g_nestgate_escreason d) (g_nestgate_iec d)
    (g_vblank_deliver_count d) (g_irq_deliver_count d) (g_cdrom_deliver_count d) (s_last_istat d)
    (s_last_outcome d) (g_psx_bail_anomaly d) (g_irqctx_ring d) (g_irqctx_seq d).

#[projections(primitive)] Record State (W : Type) := mkState {
  cpu : Cpu; i_stat : Z; i_mask : Z; pacing : Pacing; exc : Exc; diag : Diag; world : W;
  log : list Ev
}.
Arguments mkState {W}. Arguments cpu {W} s. Arguments i_stat {W} s. Arguments i_mask {W} s.
Arguments pacing {W} s. Arguments exc {W} s. Arguments diag {W} s. Arguments world {W} s.
Arguments log {W} s.
#[export] Instance eta_State W : Eta (State W) := fun s =>
  mkState (cpu s) (i_stat s) (i_mask s) (pacing s) (exc s) (diag s) (world s) (log s).

(** The rest of the runtime as this file sees it. *)
Class Machine (W : Type) := {
  psx_get_cycle_count : W -> Z;
  psx_read_word : Z -> W -> Z;
  psx_write_word : Z -> Z -> W -> W;
  sio_get_seq : W -> Z;
  sio_card_protocol_active : W -> bool;
  dma_cdrom_transfer_active : W -> Z;
  g_dma_exec_depth : W -> Z;
  gpu_vblank_tick : W -> W;
  debug_server_poll : W -> W;
  savestate_poll : Z -> W -> W;
  timers_cycles_to_irq : Z -> W -> Z;
  cdrom_cycles_to_irq : Z -> W -> Z;
  dma_cycles_to_irq : Z -> W -> Z;
  sio_cycles_to_irq : Z -> W -> Z;
  PSX_SAME_THREAD_RESTORE : option Z;
}.

(** ** Constants *)

Definition IRQ_VBLANK := 0.
Definition IRQ_CDROM := 2.
Definition IRQ_SIO0 := 7.
Definition COP0_SR := 12.
Definition COP0_CAUSE := 13.
Definition COP0_EPC := 14.
Definition VBLANK_CYCLES := 564480.
Definition VBLANK_DEFER_STALE_CYCLES := VBLANK_CYCLES * 10.
Definition POST_EXC_CLAIMED_COOLDOWN_CYCLES := 128.
Definition POST_EXC_UNCLAIMED_COOLDOWN_CYCLES := 8192.
Definition PSX_EXC_SENTINEL_PC := 0x80000048.
Definition IRQCTX_RING_CAP := 64.
Definition EV_NONE := 0.
Definition EV_IRQ_DELIVER := 1.
Definition EV_IRQ_GATE := 2.
Definition EV_ISTAT_RAISE := 3.
Definition EV_ISTAT_CHANGE := 4.
Definition SRC_VBLANK := 16.
Definition GATE_IN_EXCEPTION := 1.
Definition GATE_COOLDOWN := 2.
Definition GATE_SR_IE := 3.
Definition GATE_SR_IM2 := 4.

Section Delivery.
Context {W : Type} `{M : Machine W}.
Abbreviation St := (State W).
Implicit Types s : State W.

Definition on_cpu (f : Cpu -> Cpu) (s : St) : St := s <| cpu := f (cpu s) |>.
Definition on_pacing (f : Pacing -> Pacing) (s : St) : St := s <| pacing := f (pacing s) |>.
Definition on_exc (f : Exc -> Exc) (s : St) : St := s <| exc := f (exc s) |>.
Definition on_diag (f : Diag -> Diag) (s : St) : St := s <| diag := f (diag s) |>.
Definition now (s : St) : Z := psx_get_cycle_count (world s).
Definition record (kind detail aux : Z) (s : St) : St := s <| log := log s ++ [RingRec kind detail aux] |>.
Definition irq_raise (b detail : Z) (s : St) : St :=
  s <| i_stat := psx_irq_raise (i_stat s) b |> <| log := log s ++ [IrqRaise b detail] |>.
Definition set_cop0 (r v : Z) : St -> St := on_cpu (fun c => c <| cop0 := aset (cop0 c) r v |>).
Definition get_cop0 (r : Z) (s : St) : Z := aget (cop0 (cpu s)) r.

(** ** VBlank pacing *)

Definition note_sio_progress_cycle (s : St) : St :=
  let cur := sio_get_seq (world s) in
  if cur =? last_sio_seq_seen (pacing s) then s
  else on_pacing (fun p => p <| last_sio_seq_seen := cur |> <| last_sio_progress_cycle := now s |>) s.

Definition should_defer_vblank_for_sio (s : St) : bool :=
  if negb (sio_card_protocol_active (world s)) then false else
  let last := last_sio_progress_cycle (pacing s) in
  let since := if last <=? now s then now s - last else 0 in
  since <? VBLANK_DEFER_STALE_CYCLES.

Definition fire_vblank_edge (s : St) : St :=
  let s := on_pacing (fun p => p <| cycles_since_vblank := u32 (cycles_since_vblank p - VBLANK_CYCLES) |>
                        <| dispatch_count := 0 |>) s in
  let s := record EV_DEQ SRC_VBLANK (u32 (now s)) s in
  let s := record EV_ENQ SRC_VBLANK (u32 (now s + VBLANK_CYCLES)) s in
  let s := irq_raise IRQ_VBLANK 0 s in
  let s := on_pacing (fun p => p <| g_vblank_raise_count := u64 (g_vblank_raise_count p + 1) |>) s in
  let s := record EV_ISTAT_RAISE IRQ_VBLANK 0 s in
  s <| world := gpu_vblank_tick (world s) |>.

Definition vblank_due (s : St) : bool := VBLANK_CYCLES <=? cycles_since_vblank (pacing s).

(** At most 2^32 / VBLANK_CYCLES = 7608 edges fit in the counter. *)
Definition interrupts_service_scheduled_events (s : St) : St :=
  let s := note_sio_progress_cycle s in
  if in_exception (exc s) then s
  else pwhile 7609 (fun s => vblank_due s && negb (should_defer_vblank_for_sio s)) fire_vblank_edge s.

Definition interrupts_cycles_to_vblank (s : St) : Z :=
  if vblank_due s then 0 else VBLANK_CYCLES - cycles_since_vblank (pacing s).

Definition interrupts_advance_cycles (cycles : Z) (s : St) : St :=
  interrupts_service_scheduled_events
    (on_pacing (fun p => p <| cycles_since_vblank := u32 (cycles_since_vblank p + cycles) |>) s).

Definition cycles_to_next_event (s : St) : Z :=
  let min d best := if d <? best then d else best in
  let best := 0xFFFFFFFF in
  let best := if has (i_mask s) (Z.shiftl 1 IRQ_VBLANK) then min (interrupts_cycles_to_vblank s) best else best in
  let best := min (timers_cycles_to_irq (i_mask s) (world s)) best in
  let best := min (cdrom_cycles_to_irq (i_mask s) (world s)) best in
  let best := min (dma_cycles_to_irq (i_mask s) (world s)) best in
  min (sio_cycles_to_irq (i_mask s) (world s)) best.

Definition interrupts_init (s : St) : St :=
  let s := on_pacing (fun p => p <| dispatch_count := 0 |> <| cycles_since_vblank := 0 |>
                        <| last_sio_seq_seen := sio_get_seq (world s) |>
                        <| last_sio_progress_cycle := now s |>) s in
  let s := on_exc (fun x => x <| in_exception := false |> <| exception_nest_depth := 0 |>
                     <| g_psx_dispatch_depth := 0 |> <| post_exception_cooldown_until := 0 |>) s in
  on_diag (fun d => d <| total_checks := 0 |> <| exception_entries_total := 0 |>
             <| exception_reentry_blocks := 0 |>) s.

(** ** The gates *)

Definition irq_record_outcome (kind detail aux : Z) (s : St) : St :=
  let key := u16 (Z.lor (Z.shiftl kind 8) detail) in
  let repeat := key =? s_last_outcome (diag s) in
  let s := on_diag (fun d => d <| s_last_outcome := key |>) s in
  if kind =? EV_NONE then s
  else if kind =? EV_IRQ_DELIVER then record EV_IRQ_DELIVER detail aux s
  else if repeat then s else record kind detail 0 s.

(** The PC an interrupt taken now would resume at; 0 at a clean boundary. *)
Definition take_pc (s : St) : Z :=
  if negb (g_dirty_safe_resume_pc (exc s) =? 0) then g_dirty_safe_resume_pc (exc s)
  else s_compiled_interrupt_resume_pc (exc s).

(** Before the gates: telemetry, due VBlanks, save-state poll, I_STAT edge. *)
Definition check_prologue (s : St) : St :=
  let s := on_exc (fun x => x <| s_last_interrupt_check_pc := take_pc s |>
                     <| s_last_interrupt_check_cycle := now s |>) s in
  let s := on_diag (fun d => d <| total_checks := u64 (total_checks d + 1) |>) s in
  let s := if Z.land (total_checks (diag s)) 0x3FFF =? 0
           then s <| world := debug_server_poll (world s) |> else s in
  let s := interrupts_service_scheduled_events s in
  let s := if in_exception (exc s) then s else
           let s := s <| world := savestate_poll (s_last_interrupt_check_pc (exc s)) (world s) |> in
           on_pacing (fun p => p <| dispatch_count := u32 (dispatch_count p + 1) |>) s in
  if i_stat s =? s_last_istat (diag s) then s
  else record EV_ISTAT_CHANGE 0 0 (on_diag (fun d => d <| s_last_istat := i_stat s |>) s).

Definition pending (s : St) : Z := Z.land (i_stat s) (i_mask s).

(** A nested delivery is refused. *)
Definition nest_veto (s : St) : bool :=
  (2 <=? exception_nest_depth (exc s)) || g_rfe_escape_pending (exc s)
  || negb (bool_decide (g_exc_escape_reason (exc s) = ESCAPE_NONE))
  || negb (has (get_cop0 COP0_SR s) 0x01).

Definition count_veto (s : St) : St :=
  let x := exc s in
  let s :=
    if 2 <=? exception_nest_depth x then on_diag (fun d => d <| g_nestgate_depth := u64 (g_nestgate_depth d + 1) |>) s
    else if g_rfe_escape_pending x then on_diag (fun d => d <| g_nestgate_rfepend := u64 (g_nestgate_rfepend d + 1) |>) s
    else if negb (bool_decide (g_exc_escape_reason x = ESCAPE_NONE))
    then on_diag (fun d => d <| g_nestgate_escreason := u64 (g_nestgate_escreason d + 1) |>) s
    else on_diag (fun d => d <| g_nestgate_iec := u64 (g_nestgate_iec d + 1) |>) s in
  let s := on_diag (fun d => d <| exception_reentry_blocks := u64 (exception_reentry_blocks d + 1) |>) s in
  irq_record_outcome EV_IRQ_GATE GATE_IN_EXCEPTION 0 s.

(** The gates in order: whether to deliver. *)
Definition gates (s : St) : bool * St :=
  if pending s =? 0 then (false, irq_record_outcome EV_NONE 0 0 s) else
  if in_exception (exc s) && nest_veto s then (false, count_veto s) else
  let until := post_exception_cooldown_until (exc s) in
  if negb (until =? 0) && (now s <? until) then (false, irq_record_outcome EV_IRQ_GATE GATE_COOLDOWN 0 s) else
  let s := if negb (until =? 0) then on_exc (fun x => x <| post_exception_cooldown_until := 0 |>) s else s in
  if negb (has (get_cop0 COP0_SR s) 0x01) then (false, irq_record_outcome EV_IRQ_GATE GATE_SR_IE 0 s) else
  if negb (has (get_cop0 COP0_SR s) 0x400) then (false, irq_record_outcome EV_IRQ_GATE GATE_SR_IM2 0 s) else
  (true, s).

(** ** Entry *)

(** The locals of one delivery. *)
Record Frame := mkFrame {
  f_id : Z; f_prev_in_exception : bool; f_pre_istat : Z; f_gpr : list Z; f_hi : Z; f_lo : Z;
  f_entry_tcb : Z; f_prev_interp : Z; f_depth : Z
}.

Definition last_ctx (s : St) : Z := Z.land (u64 (g_irqctx_seq (diag s) - 1)) (IRQCTX_RING_CAP - 1).
Definition on_last_ctx (f : IrqCtxEntry -> IrqCtxEntry) (s : St) : St :=
  let k := last_ctx s in
  on_diag (fun d => d <| g_irqctx_ring := <[k := f (default ctx_zero (g_irqctx_ring d !! k))]> (g_irqctx_ring d) |>) s.

Definition count_delivery (s : St) : St :=
  let s := irq_record_outcome EV_IRQ_DELIVER 0 (take_pc s) s in
  let p := pending s in
  let s := on_diag (fun d =>
    let d := d <| g_irq_deliver_count := u64 (g_irq_deliver_count d + 1) |> in
    let d := if has p (Z.shiftl 1 IRQ_VBLANK) then d <| g_vblank_deliver_count := u64 (g_vblank_deliver_count d + 1) |> else d in
    if has p (Z.shiftl 1 IRQ_CDROM) then d <| g_cdrom_deliver_count := u64 (g_cdrom_deliver_count d + 1) |> else d) s in
  let e := mkCtx (g_irqctx_seq (diag s)) (now s) (i_stat s) (i_mask s) (get_cop0 COP0_SR s)
    (psx_read_word 0x80079D44 (world s)) (dma_cdrom_transfer_active (world s))
    (has p (Z.shiftl 1 IRQ_VBLANK)) (g_dma_exec_depth (world s)) 0 0 0 0 false false 0 0 0 0 0 in
  on_diag (fun d => d <| g_irqctx_ring := <[Z.land (g_irqctx_seq d) (IRQCTX_RING_CAP - 1) := e]> (g_irqctx_ring d) |>
             <| g_irqctx_seq := u64 (g_irqctx_seq d + 1) |>) s.

Definition push_sr (sr : Z) : Z := Z.lor (Z.land sr 0xFFFFFFC0) (Z.shiftl (Z.land sr 0x0F) 2).
Definition pop_sr (sr : Z) : Z := Z.lor (Z.land sr 0xFFFFFFC0) (Z.land (Z.shiftr sr 2) 0x0F).

(** A guest PC the resume can be installed at. *)
Definition resumable (pc : Z) : bool :=
  negb (pc =? 0) && (Z.land pc 0x3 =? 0) && (Z.land pc 0x1FFFFFFF <? 0x00200000).

Definition set_epc (s : St) : St :=
  let real := take_pc s in
  let s := on_exc (fun x => x <| g_rfe_escape_pending := false |>) s in
  let s :=
    if resumable real then
      on_exc (fun x => x <| g_exception_real_epc := real |> <| g_exc_escape_reason := ESCAPE_NONE |>)
        (set_cop0 COP0_EPC real s)
    else
      let s := s <| world := psx_write_word PSX_EXC_SENTINEL_PC 0 (world s) |> in
      on_exc (fun x => x <| g_exception_real_epc := PSX_EXC_SENTINEL_PC |> <| g_exc_escape_reason := LEGACY_SENTINEL |>)
        (set_cop0 COP0_EPC PSX_EXC_SENTINEL_PC s) in
  on_last_ctx (fun q => q <| q_take_pc := real |> <| q_real_epc := g_exception_real_epc (exc s) |>
                 <| q_exit_pc := 0 |> <| q_exit_reason := 0 |> <| q_same_thread := false |>
                 <| q_restored := false |> <| q_v1_exit := 0 |> <| q_v1_saved := 0 |>
                 <| q_ra_exit := 0 |> <| q_ra_saved := 0 |> <| q_redirects := 0 |>) s.

(** The running thread's TCB. *)
Definition current_tcb (s : St) : Z :=
  let pcb := psx_read_word 0x108 (world s) in
  if negb (pcb =? 0) then psx_read_word (Z.land pcb 0x1FFFFFFF) (world s) else 0.

(** The exception vector. *)
Definition handler_pc (sr : Z) (s : St) : Z :=
  if has sr 0x00400000 then 0xBFC00180 else
  let w0 := psx_read_word 0x80000080 (world s) in
  let w1 := psx_read_word 0x80000084 (world s) in
  u32 (u32 (Z.shiftl (Z.land w0 0xFFFF) 16) + s16 (Z.land w1 0xFFFF)).

Definition enter_exception (s : St) : Frame * Z * St :=
  let sr := get_cop0 COP0_SR s in
  let s := count_delivery s in
  let prev := in_exception (exc s) in
  let s := on_exc (fun x => x <| in_exception := true |> <| exception_nest_depth := exception_nest_depth x + 1 |>) s in
  let s := on_diag (fun d => d <| exception_entries_total := u64 (exception_entries_total d + 1) |>) s in
  let pre_istat := i_stat s in
  let s := set_cop0 COP0_CAUSE (Z.lor (Z.ldiff (get_cop0 COP0_CAUSE s) 0x7C) 0x400) s in
  let s := set_cop0 COP0_SR (push_sr sr) s in
  let s := set_epc s in
  let target := handler_pc sr s in
  let id := next_frame (exc s) in
  let f := mkFrame id prev pre_istat (gpr (cpu s)) (hi (cpu s)) (lo (cpu s)) (current_tcb s)
             (g_dirty_interp_active (exc s)) (g_psx_dispatch_depth (exc s)) in
  let s := if g_psx_call_bail (exc s)
           then on_diag (fun d => d <| g_psx_bail_anomaly := u64 (g_psx_bail_anomaly d + 1) |>)
                  (on_exc (fun x => x <| g_psx_call_bail := false |>) s) else s in
  let s := on_exc (fun x => x <| g_dirty_interp_active := 0 |> <| g_psx_dispatch_depth := 0 |>
                     <| exception_jmpbuf := Some id |> <| live_frames := id :: live_frames x |>
                     <| next_frame := id + 1 |>) s in
  (f, target, s).

(** ** Exit *)

Definition same_guest_pc (a b : Z) : bool := Z.land (Z.lxor a b) 0x1FFFFFFF =? 0.

Definition s_str_mode : Z :=
  match PSX_SAME_THREAD_RESTORE (W := W) with
  | None => 1
  | Some n => if (n <? 0) || (2 <? n) then 1 else n
  end.

Definition same_thread_resume (f : Frame) (s : St) : bool :=
  let x := exc s in
  let base := negb (bool_decide (g_exc_escape_reason x = LEGACY_SENTINEL))
              && negb (g_exception_real_epc x =? 0)
              && same_guest_pc (pc (cpu s)) (g_exception_real_epc x) in
  if s_str_mode =? 1 then base
  else if s_str_mode =? 2
  then base && negb (f_entry_tcb f =? 0) && (f_entry_tcb f =? current_tcb s)
  else false.

Definition cooldown (f : Frame) (s : St) : Z :=
  if negb (pending s =? 0) && (i_stat s =? f_pre_istat f)
  then now s + POST_EXC_UNCLAIMED_COOLDOWN_CYCLES
  else
    let claimed := Z.ldiff (f_pre_istat f) (i_stat s) in
    if has (Z.lor claimed (pending s)) (Z.shiftl 1 IRQ_SIO0) then 0
    else now s + POST_EXC_CLAIMED_COOLDOWN_CYCLES.

Definition leave_exception (f : Frame) (s : St) : St :=
  let s := on_exc (fun x => x <| g_dirty_interp_active := f_prev_interp f |>
                     <| g_psx_dispatch_depth := f_depth f |>) s in
  let same := same_thread_resume f s in
  let restore := bool_decide (g_exc_escape_reason (exc s) = LEGACY_SENTINEL) || same in
  let c := cpu s in
  let reason := g_exc_escape_reason (exc s) in
  let s := on_last_ctx (fun q => q <| q_exit_pc := pc c |> <| q_exit_reason := escape_code reason |>
                          <| q_same_thread := same |> <| q_restored := restore |>
                          <| q_v1_exit := aget (gpr c) 3 |> <| q_v1_saved := aget (f_gpr f) 3 |>
                          <| q_ra_exit := aget (gpr c) 31 |> <| q_ra_saved := aget (f_gpr f) 31 |>) s in
  let s := if restore
           then on_cpu (fun c => c <| gpr := f_gpr f |> <| hi := f_hi f |> <| lo := f_lo f |>) s else s in
  let s := on_exc (fun x => x <| g_rfe_escape_pending := false |> <| g_exc_escape_reason := ESCAPE_NONE |>) s in
  let s := if negb (has (get_cop0 COP0_SR s) 0x01)
           then set_cop0 COP0_SR (pop_sr (get_cop0 COP0_SR s)) s else s in
  let s := on_exc (fun x => x <| in_exception := f_prev_in_exception f |>
                     <| exception_nest_depth := if 0 <? exception_nest_depth x then exception_nest_depth x - 1
                                                else exception_nest_depth x |>) s in
  let s := on_exc (fun x => x <| post_exception_cooldown_until := cooldown f s |>) s in
  (* the activation ends: its jmp_buf contents are dead *)
  on_exc (fun x => x <| live_frames := tail (live_frames x) |>) s.

(** ** Guest code *)

Inductive Exit := Returned | Longjmp1.
Inductive Result := Done (x : Exit) (s : St) | Undefined.

(** longjmp(exception_jmpbuf, ...): fine while the activation is live. *)
Definition jmpbuf_live (s : St) : bool :=
  match exception_jmpbuf (exc s) with
  | Some id => bool_decide (id ∈ live_frames (exc s))
  | None => false
  end.

Definition exception_longjmp (s : St) : Result :=
  if jmpbuf_live s then Done Longjmp1 s else Undefined.

(** What recompiled code does that reaches this file. *)
Inductive Guest :=
| GReturn                                            (* psx_dispatch returns *)
| GStep (f : Cpu * Z * Z * W -> Cpu * Z * Z * W) (k : Guest)   (* CPU, I_STAT, I_MASK, memory *)
| GAdvance (cycles : Z) (k : Guest)                  (* interrupts_advance_cycles *)
| GCheck (resume_pc : Z) (handler : Guest) (k : Guest)  (* psx_check_interrupts_at *)
| GRfe (target : Z) (k : Guest)                      (* rfe; jr target *)
| GReturnFromException (target : Z)                  (* SYSCALL/B0:0x17 return, TCB restored *)
| GSentinel (k : Guest)                              (* dispatch of the sentinel PC *)
| GRestoreState (redirected k : Guest).              (* psx_restore_state_escape *)

Definition guest_step (f : Cpu * Z * Z * W -> Cpu * Z * Z * W) (s : St) : St :=
  let '(c, st, mask, w) := f (cpu s, i_stat s, i_mask s, world s) in
  s <| cpu := c |> <| i_stat := st |> <| i_mask := mask |> <| world := w |>.

Definition psx_rfe_mark_escape (s : St) : St :=
  if in_exception (exc s) && negb (bool_decide (g_exc_escape_reason (exc s) = LEGACY_SENTINEL))
  then on_exc (fun x => x <| g_rfe_escape_pending := true |> <| g_exc_escape_reason := RFE_RETURN |>) s
  else s.

(** The recompiled rfe and the jump that follows it. *)
Definition rfe (target : Z) (s : St) : St :=
  let s := set_cop0 COP0_SR (pop_sr (get_cop0 COP0_SR s)) s in
  let s := psx_rfe_mark_escape s in
  on_cpu (fun c => c <| pc := target |>) s.

(** psx_check_interrupts, the handler given as what dispatching it does. *)
Definition check_interrupts (dispatch : Z -> St -> Result) (s : St) : option St :=
  let s := check_prologue s in
  let '(deliver, s) := gates s in
  if negb deliver then Some s else
  let '(f, target, s) := enter_exception s in
  match dispatch target s with
  | Undefined => None
  | Done Returned s => Some (leave_exception f s)
  | Done Longjmp1 s => Some (leave_exception f (on_exc (fun x => x <| g_psx_dispatch_depth := 0 |>) s))
  end.

Definition psx_check_interrupts_at (dispatch : Z -> St -> Result) (resume_pc : Z) (s : St) : option St :=
  let prev := s_compiled_interrupt_resume_pc (exc s) in
  let prev_dirty := g_dirty_safe_resume_pc (exc s) in
  let s := on_exc (fun x => x <| s_compiled_interrupt_resume_pc := resume_pc |> <| g_dirty_safe_resume_pc := 0 |>) s in
  match check_interrupts dispatch s with
  | Some s => Some (on_exc (fun x => x <| g_dirty_safe_resume_pc := prev_dirty |>
                              <| s_compiled_interrupt_resume_pc := prev |>) s)
  | None => None
  end.

Definition psx_interrupts_checked_at_current_cycle (resume_pc : Z) (s : St) : bool :=
  (s_last_interrupt_check_cycle (exc s) =? now s)
  && same_guest_pc (s_last_interrupt_check_pc (exc s)) resume_pc.

Definition psx_check_interrupts_dispatch_entry (dispatch : Z -> St -> Result) (resume_pc : Z) (s : St) : option St :=
  if psx_interrupts_checked_at_current_cycle resume_pc s then Some s
  else psx_check_interrupts_at dispatch resume_pc s.

(** longjmp code 2: the activation dispatches again, at cpu->pc. *)
Definition redirect (s : St) : St :=
  on_exc (fun x => x <| g_psx_dispatch_depth := 0 |>)
    (on_last_ctx (fun q => q <| q_redirects := u32 (q_redirects q + 1) |>) s).

Fixpoint run (g : Guest) (s : St) : Result :=
  match g with
  | GReturn => Done Returned s
  | GStep f k => run k (guest_step f s)
  | GAdvance c k => run k (interrupts_advance_cycles c s)
  | GCheck pc h k =>
      match psx_check_interrupts_at (fun _ => run h) pc s with
      | Some s => run k s
      | None => Undefined
      end
  | GRfe target k =>
      let s := rfe target s in
      if g_rfe_escape_pending (exc s) && in_exception (exc s)
      then exception_longjmp (on_exc (fun x => x <| g_rfe_escape_pending := false |>) s)
      else run k s
  | GReturnFromException target =>
      let s := set_cop0 COP0_SR (pop_sr (get_cop0 COP0_SR s)) s in
      let s := on_cpu (fun c => c <| pc := target |>) s in
      if in_exception (exc s)
      then exception_longjmp (on_exc (fun x => x <| g_exc_escape_reason := SYSCALL_RETURN |>
                                        <| g_rfe_escape_pending := false |>) s)
      else Done Returned s
  | GSentinel k =>
      if in_exception (exc s)
      then exception_longjmp (on_cpu (fun c => c <| pc := 0 |>) s) else run k s
  | GRestoreState r k =>
      if in_exception (exc s)
      then if jmpbuf_live s then run r (redirect s) else Undefined
      else run k s
  end.

(** ** Which parts an operation touches *)

Lemma pwhile_inv {A} (P : A -> Prop) n c (b : A -> A) a :
  P a -> (forall x, P x -> P (b x)) -> P (pwhile n c b a).
Proof.
  intros Ha Hb. rewrite pwhile_nwhile. revert a Ha.
  induction (Pos.to_nat n) as [|k IH]; intros a Ha; simpl; [done|]. case_if; auto.
Qed.

Lemma note_keeps s :
  exc (note_sio_progress_cycle s) = exc s /\ cpu (note_sio_progress_cycle s) = cpu s /\
  i_mask (note_sio_progress_cycle s) = i_mask s.
Proof. unfold note_sio_progress_cycle. cbv zeta. by case_if. Qed.

(** Scheduled events leave the CPU and the exception machinery alone. *)
Lemma service_keeps s :
  exc (interrupts_service_scheduled_events s) = exc s /\ cpu (interrupts_service_scheduled_events s) = cpu s /\
  i_mask (interrupts_service_scheduled_events s) = i_mask s.
Proof.
  unfold interrupts_service_scheduled_events. cbv zeta. destruct (note_keeps s) as (H1 & H2 & H3).
  case_if; [done|]. rewrite <- H1, <- H2, <- H3.
  apply (pwhile_inv (fun x => exc x = exc (note_sio_progress_cycle s) /\ cpu x = cpu (note_sio_progress_cycle s) /\
    i_mask x = i_mask (note_sio_progress_cycle s))); [done|].
  intros x Hx. exact Hx.
Qed.

Lemma advance_keeps c s :
  exc (interrupts_advance_cycles c s) = exc s /\ cpu (interrupts_advance_cycles c s) = cpu s /\
  i_mask (interrupts_advance_cycles c s) = i_mask s.
Proof.
  unfold interrupts_advance_cycles. match goal with |- context [interrupts_service_scheduled_events ?x] =>
    exact (service_keeps x) end.
Qed.

Lemma outcome_keeps k d a s :
  exc (irq_record_outcome k d a s) = exc s /\ cpu (irq_record_outcome k d a s) = cpu s /\
  i_mask (irq_record_outcome k d a s) = i_mask s /\ i_stat (irq_record_outcome k d a s) = i_stat s /\
  world (irq_record_outcome k d a s) = world s.
Proof. unfold irq_record_outcome. cbv zeta. repeat case_if; done. Qed.

(** Everything of the exception machinery but the record of this check. *)
Definition settled (x : Exc) : Exc := x <| s_last_interrupt_check_pc := 0 |> <| s_last_interrupt_check_cycle := 0 |>.

Lemma prologue_keeps s :
  settled (exc (check_prologue s)) = settled (exc s) /\ cpu (check_prologue s) = cpu s /\
  i_mask (check_prologue s) = i_mask s.
Proof.
  unfold check_prologue. cbv zeta. set (s1 := on_exc _ s). set (s2 := on_diag _ s1).
  assert (settled (exc s2) = settled (exc s) /\ cpu s2 = cpu s /\ i_mask s2 = i_mask s) as (H1 & H2 & H3) by done.
  clearbody s2. set (s3 := if _ =? 0 then _ else s2).
  assert (exc s3 = exc s2 /\ cpu s3 = cpu s2 /\ i_mask s3 = i_mask s2) as (G1 & G2 & G3) by (unfold s3; by case_if).
  clearbody s3. destruct (service_keeps s3) as (K1 & K2 & K3). set (s4 := interrupts_service_scheduled_events s3) in *.
  clearbody s4. set (s5 := if in_exception _ then s4 else _).
  assert (exc s5 = exc s4 /\ cpu s5 = cpu s4 /\ i_mask s5 = i_mask s4) as (L1 & L2 & L3) by (unfold s5; by case_if).
  clearbody s5. case_if.
  - split; [congruence|split; congruence].
  - change (settled (exc s5) = settled (exc s) /\ cpu s5 = cpu s /\ i_mask s5 = i_mask s).
    split; [congruence|split; congruence].
Qed.

Lemma count_veto_keeps s :
  exc (count_veto s) = exc s /\ cpu (count_veto s) = cpu s /\ i_mask (count_veto s) = i_mask s /\
  i_stat (count_veto s) = i_stat s /\ world (count_veto s) = world s.
Proof.
  unfold count_veto. cbv zeta.
  match goal with |- context [irq_record_outcome ?k ?d ?a ?x] => destruct (outcome_keeps k d a x) as (H1 & H2 & H3 & H4 & H5);
    set (y := x) in * end.
  rewrite H1, H2, H3, H4, H5. unfold y. repeat case_if; done.
Qed.

(** The gates only end an elapsed cooldown. *)
Lemma gates_keeps s :
  cpu (gates s).2 = cpu s /\ i_mask (gates s).2 = i_mask s /\ i_stat (gates s).2 = i_stat s /\
  world (gates s).2 = world s /\
  (exc (gates s).2 = exc s \/ exc (gates s).2 = (exc s) <| post_exception_cooldown_until := 0 |>).
Proof.
  unfold gates. cbv zeta.
  pose proof (outcome_keeps EV_NONE 0 0 s) as H0. pose proof (outcome_keeps EV_IRQ_GATE GATE_COOLDOWN 0 s) as H1.
  pose proof (count_veto_keeps s) as H2.
  case_if; [cbn [snd]; tauto|]. case_if; [cbn [snd]; tauto|]. case_if; [cbn [snd]; tauto|].
  set (s1 := if negb (post_exception_cooldown_until (exc s) =? 0) then _ else s).
  assert (cpu s1 = cpu s /\ i_mask s1 = i_mask s /\ i_stat s1 = i_stat s /\ world s1 = world s /\
    (exc s1 = exc s \/ exc s1 = (exc s) <| post_exception_cooldown_until := 0 |>)) as H3
    by (unfold s1; case_if; tauto).
  clearbody s1. case_if; [|case_if; [|exact H3]]; cbn [snd].
  - destruct (outcome_keeps EV_IRQ_GATE GATE_SR_IE 0 s1) as (-> & -> & -> & -> & ->). exact H3.
  - destruct (outcome_keeps EV_IRQ_GATE GATE_SR_IM2 0 s1) as (-> & -> & -> & -> & ->). exact H3.
Qed.

(** ** The jump buffer *)

Definition frames s := (live_frames (exc s), next_frame (exc s), exception_jmpbuf (exc s)).

Lemma settled_frames s s' : settled (exc s) = settled (exc s') -> frames s = frames s'.
Proof.
  intros H. unfold frames.
  change (live_frames (exc s)) with (live_frames (settled (exc s))). change (next_frame (exc s)) with (next_frame (settled (exc s))).
  change (exception_jmpbuf (exc s)) with (exception_jmpbuf (settled (exc s))). by rewrite H.
Qed.

Lemma gates_frames s : frames (gates s).2 = frames s.
Proof. destruct (gates_keeps s) as (_ & _ & _ & _ & H). unfold frames. by destruct H as [-> | ->]. Qed.

Lemma set_epc_frames s : frames (set_epc s) = frames s.
Proof. unfold set_epc. cbv zeta. by case_if. Qed.

Lemma count_delivery_exc s : exc (count_delivery s) = exc s /\ cpu (count_delivery s) = cpu s.
Proof.
  unfold count_delivery. cbv zeta. destruct (outcome_keeps EV_IRQ_DELIVER 0 (take_pc s) s) as (H1 & H2 & _).
  set (y := irq_record_outcome _ _ _ s) in *. clearbody y. split; [exact H1|exact H2].
Qed.

Lemma enter_frames s f t s1 :
  enter_exception s = (f, t, s1) ->
  frames s1 = (next_frame (exc s) :: live_frames (exc s), next_frame (exc s) + 1, Some (next_frame (exc s))) /\
  f_prev_in_exception f = in_exception (exc s).
Proof.
  unfold enter_exception. cbv zeta. destruct (count_delivery_exc s) as [H1 _].
  set (s2 := count_delivery s) in *. clearbody s2.
  match goal with |- context [set_epc ?x] => set (s3 := x); pose proof (set_epc_frames s3) as H3; set (s4 := set_epc s3) in * end.
  assert (frames s3 = frames s2 /\ in_exception (exc s2) = in_exception (exc s)) as [H4 H5] by (rewrite H1; done).
  assert (frames s4 = frames s) as H6 by (rewrite H3, H4; unfold frames; by rewrite H1).
  clearbody s4. clear s3 H3 H4. unfold frames in H6. injection H6 as F1 F2 F3.
  intros [= <- _ <-]. cbn [f_prev_in_exception]. split; [|exact H5].
  unfold frames. rewrite <- F1, <- F2. by case_if.
Qed.

Lemma leave_frames f s :
  frames (leave_exception f s) = (tail (live_frames (exc s)), next_frame (exc s), exception_jmpbuf (exc s)) /\
  in_exception (exc (leave_exception f s)) = f_prev_in_exception f /\
  g_exc_escape_reason (exc (leave_exception f s)) = ESCAPE_NONE.
Proof.
  unfold leave_exception. cbv zeta. repeat case_if; done.
Qed.

(** What code run from [s] does to the frames by the time it is at [s']. *)
Definition unwound s s' : Prop :=
  live_frames (exc s') = live_frames (exc s) /\ next_frame (exc s) <= next_frame (exc s') /\
  (frames s' = frames s \/ exists id, exception_jmpbuf (exc s') = Some id /\ next_frame (exc s) <= id).

Lemma unwound_refl s s' : frames s' = frames s -> unwound s s'.
Proof. unfold unwound. intros H. unfold frames in H. injection H as H1 H2 H3. rewrite H1, H2. split; [done|]. split; [lia|]. left. unfold frames. congruence. Qed.

Lemma unwound_trans s1 s2 s3 : unwound s1 s2 -> unwound s2 s3 -> unwound s1 s3.
Proof.
  intros (A1 & A2 & A3) (B1 & B2 & B3). split; [congruence|]. split; [lia|].
  destruct B3 as [B3|(id & B3 & B4)]; [|right; exists id; split; [done|lia]].
  destruct A3 as [A3|(id & A3 & A4)]; [left; congruence|]. right. exists id. split; [|done].
  unfold frames in B3. congruence.
Qed.

(** A delivery leaves a buffer whose activation is gone. *)
Lemma delivery_unwound dispatch s s' :
  (forall t x y r, dispatch t x = Done r y -> unwound x y) ->
  (gates (check_prologue s)).1 = true -> check_interrupts dispatch s = Some s' ->
  unwound s s' /\ (exists id, exception_jmpbuf (exc s') = Some id /\ next_frame (exc s) <= id) /\
  in_exception (exc s') = in_exception (exc s) /\ g_exc_escape_reason (exc s') = ESCAPE_NONE.
Proof.
  intros Hd Hg. unfold check_interrupts. destruct (prologue_keeps s) as (Hset & _ & _).
  pose proof (settled_frames _ _ Hset) as Hf0.
  assert (in_exception (exc (check_prologue s)) = in_exception (exc s)) as Hi0.
  { change (in_exception (settled (exc (check_prologue s))) = in_exception (settled (exc s))). by rewrite Hset. }
  set (s0 := check_prologue s) in *. clearbody s0. pose proof (gates_frames s0) as Hf1.
  assert (in_exception (exc (gates s0).2) = in_exception (exc s0)) as Hi1.
  { destruct (gates_keeps s0) as (_ & _ & _ & _ & H). by destruct H as [-> | ->]. }
  destruct (gates s0) as [b s1]. cbn [fst snd] in *. subst b. cbn [negb].
  destruct (enter_exception s1) as [[f t] s2] eqn:Ee. destruct (enter_frames _ _ _ _ Ee) as [Hf2 Hp].
  assert (frames s1 = frames s) as Hf by congruence. unfold frames in Hf. injection Hf as E1 E2 E3.
  rewrite E1, E2 in Hf2. unfold frames in Hf2. injection Hf2 as E4 E5 E6.
  destruct (dispatch t s2) as [x s3|] eqn:Ed; [|done]. pose proof (Hd _ _ _ _ Ed) as (U1 & U2 & U3).
  assert (exists id, exception_jmpbuf (exc s3) = Some id /\ next_frame (exc s) <= id) as Hj.
  { destruct U3 as [U3|(id & U3 & U4)]; [|exists id; split; [done|lia]].
    exists (next_frame (exc s)). unfold frames in U3. split; [congruence|lia]. }
  assert (forall y, frames y = frames s3 -> unwound s (leave_exception f y) /\
    (exists id, exception_jmpbuf (exc (leave_exception f y)) = Some id /\ next_frame (exc s) <= id) /\
    in_exception (exc (leave_exception f y)) = in_exception (exc s) /\
    g_exc_escape_reason (exc (leave_exception f y)) = ESCAPE_NONE) as Hl.
  { intros y Hy. destruct (leave_frames f y) as (L1 & L2 & L3). revert L1 L2 L3.
    generalize (leave_exception f y). intros z L1 L2 L3. unfold frames in Hy, L1.
    injection Hy as Y1 Y2 Y3. injection L1 as L4 L5 L6.
    assert (exists id, exception_jmpbuf (exc z) = Some id /\ next_frame (exc s) <= id) as Hj'
      by (rewrite L6, Y3; exact Hj).
    split; [|split; [exact Hj'|split; [congruence|exact L3]]].
    split; [rewrite L4, Y1, U1, E4; done|]. split; [lia|by right]. }
  destruct x; intros [= <-]; by apply Hl.
Qed.

Lemma at_resume dispatch pc s s' :
  psx_check_interrupts_at dispatch pc s = Some s' ->
  exists s0 s1, frames s0 = frames s /\ in_exception (exc s0) = in_exception (exc s) /\
    s0 = on_exc (fun x => x <| s_compiled_interrupt_resume_pc := pc |> <| g_dirty_safe_resume_pc := 0 |>) s /\
    check_interrupts dispatch s0 = Some s1 /\ frames s' = frames s1 /\
    in_exception (exc s') = in_exception (exc s1) /\ g_exc_escape_reason (exc s') = g_exc_escape_reason (exc s1).
Proof.
  unfold psx_check_interrupts_at. cbv zeta. set (s0 := on_exc _ s). intros H.
  destruct (check_interrupts dispatch s0) as [s1|] eqn:E; [|done]. injection H as <-.
  exists s0, s1. repeat split. exact E.
Qed.

Lemma check_unwound dispatch s s' :
  (forall t x y r, dispatch t x = Done r y -> unwound x y) ->
  check_interrupts dispatch s = Some s' -> unwound s s'.
Proof.
  intros Hd H. destruct (gates (check_prologue s)).1 eqn:Eg; [by eapply delivery_unwound|].
  unfold check_interrupts in H. apply unwound_refl. rewrite <- (settled_frames (check_prologue s) s) by apply prologue_keeps.
  rewrite <- (gates_frames (check_prologue s)). destruct (gates (check_prologue s)) as [b s1]. cbn [fst snd] in *. subst b. cbn [negb] in H.
  congruence.
Qed.

Lemma longjmp_done s x s' : exception_longjmp s = Done x s' -> s' = s.
Proof. unfold exception_longjmp. case_if; intros H; by simplify_eq. Qed.

Lemma mark_frames s : frames (psx_rfe_mark_escape s) = frames s.
Proof. unfold psx_rfe_mark_escape. by case_if. Qed.

Lemma rfe_frames t s : frames (rfe t s) = frames s.
Proof. unfold rfe. cbv zeta. exact (mark_frames (set_cop0 COP0_SR (pop_sr (get_cop0 COP0_SR s)) s)). Qed.

Lemma run_unwound g s x s' : run g s = Done x s' -> unwound s s'.
Proof.
  revert s x s'. induction g as [|f k IH|c k IH|pc h IHh k IHk|t k IH|t|k IH|r IHr k IHk]; intros s x s'; cbn [run].
  - intros H. simplify_eq. by apply unwound_refl.
  - intros H. eapply unwound_trans; [|by eapply IH]. apply unwound_refl. unfold guest_step.
    destruct (f _) as [[[? ?] ?] ?]. done.
  - intros H. eapply unwound_trans; [|by eapply IH]. apply unwound_refl. unfold frames.
    by destruct (advance_keeps c s) as (-> & _).
  - destruct (psx_check_interrupts_at _ pc s) as [s1|] eqn:E; [|done]. intros H.
    eapply unwound_trans; [|by eapply IHk]. destruct (at_resume _ _ _ _ E) as (a & b & F1 & _ & _ & Hc & F2 & _).
    eapply unwound_trans; [by apply (unwound_refl s a)|]. eapply unwound_trans; [|by apply (unwound_refl b s1)].
    eapply check_unwound; [|exact Hc]. intros t0 y z q. apply IHh.
  - cbv zeta. case_if.
    + intros H. apply longjmp_done in H as ->. apply unwound_refl. exact (rfe_frames t s).
    + intros H. eapply unwound_trans; [|by eapply IH]. apply unwound_refl, rfe_frames.
  - cbv zeta. case_if.
    + intros H. apply longjmp_done in H as ->. by apply unwound_refl.
    + intros H. simplify_eq. by apply unwound_refl.
  - case_if; [|by apply IH]. intros H. apply longjmp_done in H as ->. by apply unwound_refl.
  - case_if; [|by apply IHk]. case_if; [|done]. intros H. eapply unwound_trans; [|by eapply IHr]. by apply unwound_refl.
Qed.

(** A return from exception inside a handler. *)
Definition escaped (target : Z) s : St :=
  on_exc (fun x => x <| g_rfe_escape_pending := false |> <| g_exc_escape_reason := RFE_RETURN |>)
    (on_cpu (fun c => c <| pc := target |>) (set_cop0 COP0_SR (pop_sr (get_cop0 COP0_SR s)) s)).

Lemma run_rfe target k s :
  in_exception (exc s) = true -> g_exc_escape_reason (exc s) <> LEGACY_SENTINEL ->
  run (GRfe target k) s = exception_longjmp (escaped target s).
Proof.
  intros Hi Hr. cbn [run]. cbv zeta. unfold rfe. cbv zeta.
  set (s2 := set_cop0 COP0_SR _ s).
  assert (psx_rfe_mark_escape s2 =
    on_exc (fun x => x <| g_rfe_escape_pending := true |> <| g_exc_escape_reason := RFE_RETURN |>) s2) as ->.
  { unfold psx_rfe_mark_escape. change (exc s2) with (exc s). by rewrite Hi, bool_decide_eq_false_2. }
  match goal with |- (if ?b && ?c then _ else _) = _ => change b with true; change c with (in_exception (exc s)) end.
  rewrite Hi. reflexivity.
Qed.

(** What [psx_check_interrupts_at] makes of the state before checking. *)
Definition resume_at (pc : Z) s : St :=
  on_exc (fun x => x <| s_compiled_interrupt_resume_pc := pc |> <| g_dirty_safe_resume_pc := 0 |>) s.

(** An interrupt is delivered at [pc]. *)
Definition deliverable (pc : Z) s : bool := (gates (check_prologue (resume_at pc s))).1.

Definition frames_ok s : Prop := Forall (fun id => id < next_frame (exc s)) (live_frames (exc s)).

(** A nested delivery breaks the handler it interrupts. When code running
    inside an exception handler takes a nested interrupt, whatever the nested
    handler does, the outer handler's own return from exception afterwards is
    undefined behaviour: it longjmps through a buffer that the nested
    psx_check_interrupts filled and that died when that activation returned. *)
Theorem nested_rfe_undefined pc h target k s :
  frames_ok s -> in_exception (exc s) = true -> deliverable pc s = true ->
  run (GCheck pc h (GRfe target k)) s = Undefined.
Proof.
  intros Hok Hi Hd.
  change (match psx_check_interrupts_at (fun _ => run h) pc s with Some s => run (GRfe target k) s | None => Undefined end = Undefined).
  destruct (psx_check_interrupts_at _ pc s) as [s1|] eqn:E; [|done].
  destruct (at_resume _ _ _ _ E) as (a & b & F1 & I1 & -> & Hc & F2 & I2 & R2).
  assert (forall t x y r, (fun _ : Z => run h) t x = Done r y -> unwound x y) as Hh
    by (intros t0 x y r; apply run_unwound).
  destruct (delivery_unwound _ _ _ Hh Hd Hc) as ((U1 & _ & _) & (id & J1 & J2) & I3 & R3).
  change (next_frame (exc (resume_at pc s))) with (next_frame (exc s)) in J2.
  change (live_frames (exc (resume_at pc s))) with (live_frames (exc s)) in U1.
  assert (in_exception (exc s1) = true) as I4 by (rewrite I2, I3; exact Hi).
  assert (g_exc_escape_reason (exc s1) = ESCAPE_NONE) as R4 by congruence.
  unfold frames in F2. injection F2 as F3 _ F4.
  rewrite run_rfe by (done || rewrite R4; done). unfold exception_longjmp, jmpbuf_live.
  change (exception_jmpbuf (exc (escaped target s1))) with (exception_jmpbuf (exc s1)).
  change (live_frames (exc (escaped target s1))) with (live_frames (exc s1)).
  rewrite F4, J1, F3, U1, bool_decide_eq_false_2; [done|].
  intros Hin. unfold frames_ok in Hok. rewrite Forall_forall in Hok. specialize (Hok id Hin). lia.
Qed.

(** ** A transparent interrupt *)

(** A handler that works on the machine without nesting or touching SR, and
    returns to [target] with rfe. *)
Inductive returns_to (target : Z) : Guest -> Prop :=
| ret_rfe k : returns_to target (GRfe target k)
| ret_step f k :
    (forall c st mask w, aget (cop0 (f (c, st, mask, w)).1.1.1) COP0_SR = aget (cop0 c) COP0_SR /\
       length (cop0 (f (c, st, mask, w)).1.1.1) = length (cop0 c)) ->
    returns_to target k -> returns_to target (GStep f k)
| ret_advance c k : returns_to target k -> returns_to target (GAdvance c k).

Lemma guest_step_exc f s : exc (guest_step f s) = exc s.
Proof. unfold guest_step. by destruct (f _) as [[[? ?] ?] ?]. Qed.

Lemma run_returning target h s :
  returns_to target h -> in_exception (exc s) = true -> g_exc_escape_reason (exc s) <> LEGACY_SENTINEL ->
  jmpbuf_live s = true ->
  exists s1, run h s = Done Longjmp1 (escaped target s1) /\ exc s1 = exc s /\
    get_cop0 COP0_SR s1 = get_cop0 COP0_SR s /\ length (cop0 (cpu s1)) = length (cop0 (cpu s)).
Proof.
  intros Hh. revert s. induction Hh as [k|f k Hf Hk IH|c k Hk IH]; intros s Hi Hr Hj.
  - exists s. split; [|done]. rewrite run_rfe by done. unfold exception_longjmp.
    change (jmpbuf_live (escaped target s)) with (jmpbuf_live s). by rewrite Hj.
  - cbn [run]. pose proof (guest_step_exc f s) as He.
    destruct (IH (guest_step f s)) as (s1 & H1 & H2 & H3 & H4); [by rewrite He..|unfold jmpbuf_live; by rewrite He|].
    exists s1. split; [exact H1|]. split; [congruence|]. rewrite H3, H4. unfold get_cop0, guest_step.
    pose proof (Hf (cpu s) (i_stat s) (i_mask s) (world s)) as E. by destruct (f _) as [[[? ?] ?] ?].
  - cbn [run]. destruct (advance_keeps c s) as (He & Hc & _).
    destruct (IH (interrupts_advance_cycles c s)) as (s1 & H1 & H2 & H3 & H4);
      [by rewrite He..|unfold jmpbuf_live; by rewrite He|].
    exists s1. split; [exact H1|]. split; [congruence|]. rewrite H3, H4. unfold get_cop0. by rewrite Hc.
Qed.

Definition cop0_ok s : Prop := length (cop0 (cpu s)) = 32%nat.

Lemma resumable_pos pc0 : resumable pc0 = true -> pc0 <> 0.
Proof. unfold resumable. intros H ->. done. Qed.

(** What entering leaves to the handler and to the exit. *)
Lemma enter_spec s f t s1 :
  cop0_ok s -> resumable (take_pc s) = true -> enter_exception s = (f, t, s1) ->
  f_gpr f = gpr (cpu s) /\ f_hi f = hi (cpu s) /\ f_lo f = lo (cpu s) /\
  f_prev_in_exception f = in_exception (exc s) /\ f_pre_istat f = i_stat s /\
  in_exception (exc s1) = true /\ exception_nest_depth (exc s1) = exception_nest_depth (exc s) + 1 /\
  g_exception_real_epc (exc s1) = take_pc s /\ g_exc_escape_reason (exc s1) = ESCAPE_NONE /\
  get_cop0 COP0_SR s1 = push_sr (get_cop0 COP0_SR s) /\ get_cop0 COP0_EPC s1 = take_pc s /\
  live_frames (exc s1) = next_frame (exc s) :: live_frames (exc s) /\ jmpbuf_live s1 = true /\
  length (cop0 (cpu s1)) = 32%nat.
Proof.
  intros Hc Hr E. destruct (enter_frames _ _ _ _ E) as [Hf Hp]. unfold frames in Hf. injection Hf as F1 F2 F3.
  assert (jmpbuf_live s1 = true) as Hj.
  { unfold jmpbuf_live. rewrite F3, F1. apply bool_decide_eq_true_2. left. }
  revert E. unfold enter_exception. cbv zeta. destruct (count_delivery_exc s) as [H1 H2].
  assert (i_stat (count_delivery s) = i_stat s) as H3.
  { unfold count_delivery. cbv zeta. destruct (outcome_keeps EV_IRQ_DELIVER 0 (take_pc s) s) as (_ & _ & _ & H & _). exact H. }
  set (s2 := count_delivery s) in *. clearbody s2.
  match goal with |- context [set_epc ?x] => set (s3 := x) end.
  assert (take_pc s3 = take_pc s) as H4 by (unfold take_pc; change (g_dirty_safe_resume_pc (exc s3)) with (g_dirty_safe_resume_pc (exc s2));
    change (s_compiled_interrupt_resume_pc (exc s3)) with (s_compiled_interrupt_resume_pc (exc s2)); by rewrite H1).
  assert (gpr (cpu s3) = gpr (cpu s) /\ hi (cpu s3) = hi (cpu s) /\ lo (cpu s3) = lo (cpu s)) as (C1 & C2 & C3)
    by (rewrite <- H2; done).
  assert (in_exception (exc s3) = true /\ exception_nest_depth (exc s3) = exception_nest_depth (exc s) + 1) as [X1 X2]
    by (rewrite <- H1; done).
  assert (length (cop0 (cpu s3)) = 32%nat) as L3 by (rewrite <- Hc, <- H2; cbn; by rewrite !length_aset).
  assert (get_cop0 COP0_SR s3 = push_sr (get_cop0 COP0_SR s)) as S3.
  { unfold get_cop0. rewrite <- H2. cbn. rewrite aget_aset_eq; [unfold get_cop0; by rewrite H2|].
    unfold cop0_ok in Hc. rewrite length_aset, H2, Hc. unfold COP0_SR. lia. }
  clearbody s3. set (s4 := set_epc s3).
  assert (gpr (cpu s4) = gpr (cpu s3) /\ hi (cpu s4) = hi (cpu s3) /\ lo (cpu s4) = lo (cpu s3) /\
    in_exception (exc s4) = in_exception (exc s3) /\ exception_nest_depth (exc s4) = exception_nest_depth (exc s3) /\
    g_exception_real_epc (exc s4) = take_pc s /\ g_exc_escape_reason (exc s4) = ESCAPE_NONE /\
    cop0 (cpu s4) = aset (cop0 (cpu s3)) COP0_EPC (take_pc s)) as (D1 & D2 & D3 & D4 & D5 & D6 & D7 & D8).
  { unfold s4, set_epc. cbv zeta. rewrite H4, Hr. done. }
  clearbody s4. intros E. apply pair_eq in E as [E Es]. apply pair_eq in E as [<- _].
  assert (cpu s1 = cpu s4 /\ in_exception (exc s1) = in_exception (exc s4) /\
    exception_nest_depth (exc s1) = exception_nest_depth (exc s4) /\
    g_exception_real_epc (exc s1) = g_exception_real_epc (exc s4) /\
    g_exc_escape_reason (exc s1) = g_exc_escape_reason (exc s4)) as (G1 & G2 & G3 & G4 & G5)
    by (rewrite <- Es; case_if; done).
  clear Es. cbn [f_gpr f_hi f_lo f_prev_in_exception f_pre_istat] in *.
  split; [congruence|]. split; [congruence|]. split; [congruence|]. split; [exact Hp|]. split; [exact H3|].
  split; [congruence|]. split; [congruence|]. split; [congruence|]. split; [congruence|].
  split; [|split; [|split; [congruence|split; [exact Hj|]]]]; unfold get_cop0; rewrite G1, D8.
  - rewrite aget_aset_ne by (unfold COP0_SR, COP0_EPC; lia). exact S3.
  - apply aget_aset_eq. rewrite L3. unfold COP0_EPC. lia.
  - by rewrite length_aset.
Qed.

(** The SR stack: a push and a pop keep all but bits 4 and 5. *)
Definition kept_sr (sr : Z) : Z := sr / 64 * 64 + sr mod 16.

Lemma push_sr_eq sr : is_u32 sr -> push_sr sr = sr / 64 * 64 + sr mod 16 * 4.
Proof.
  intros H. unfold push_sr. change 0xFFFFFFC0 with (2 ^ 32 - 2 ^ 6). rewrite land_high by (unfold is_u32 in H; lia).
  change 0x0F with (Z.ones 4). rewrite Z.land_ones, Z.shiftl_mul_pow2 by lia. change (2 ^ 4) with 16. change (2 ^ 2) with 4.
  rewrite lor_add by dlia. change (2 ^ 6) with 64. lia.
Qed.

Lemma pop_push_sr sr : is_u32 sr -> pop_sr (push_sr sr) = kept_sr sr.
Proof.
  intros H. pose proof (push_sr_eq sr H) as E. assert (is_u32 (push_sr sr)) as Hp by (rewrite E; unfold is_u32 in *; dlia).
  unfold pop_sr. change 0xFFFFFFC0 with (2 ^ 32 - 2 ^ 6). rewrite land_high by (unfold is_u32 in Hp; lia).
  change 0x0F with (Z.ones 4). rewrite Z.land_ones, Z.shiftr_div_pow2 by lia. change (2 ^ 4) with 16. change (2 ^ 2) with 4.
  rewrite lor_add by dlia. change (2 ^ 6) with 64. rewrite E. unfold kept_sr, is_u32 in *. dlia.
Qed.

Lemma has_low sr : has sr 0x01 = (sr mod 2 =? 1).
Proof. change 0x01 with (2 ^ 0). rewrite has_pow2 by lia. rewrite Z.bit0_odd, Zmod_odd. by destruct (Z.odd sr). Qed.

Lemma gates_deliver s :
  (gates s).1 = true -> has (get_cop0 COP0_SR s) 0x01 = true /\ has (get_cop0 COP0_SR s) 0x400 = true /\ pending s <> 0.
Proof.
  unfold gates. cbv zeta. case_if; [done|]. case_if; [done|]. case_if; [done|].
  set (s1 := if negb (post_exception_cooldown_until (exc s) =? 0) then _ else s).
  assert (get_cop0 COP0_SR s1 = get_cop0 COP0_SR s) as -> by (unfold s1; by case_if).
  destruct (has (get_cop0 COP0_SR s) 0x01); [|done]. destruct (has (get_cop0 COP0_SR s) 0x400); [|done].
  intros _. split; [done|]. split; [done|]. by apply Z.eqb_neq.
Qed.

Lemma leave_spec f s :
  g_exc_escape_reason (exc s) <> LEGACY_SENTINEL -> s_str_mode = 1 -> g_exception_real_epc (exc s) <> 0 ->
  pc (cpu s) = g_exception_real_epc (exc s) -> has (get_cop0 COP0_SR s) 0x01 = true ->
  0 < exception_nest_depth (exc s) ->
  let s' := leave_exception f s in
  gpr (cpu s') = f_gpr f /\ hi (cpu s') = f_hi f /\ lo (cpu s') = f_lo f /\ pc (cpu s') = pc (cpu s) /\
  get_cop0 COP0_SR s' = get_cop0 COP0_SR s /\ in_exception (exc s') = f_prev_in_exception f /\
  exception_nest_depth (exc s') = exception_nest_depth (exc s) - 1 /\
  live_frames (exc s') = tail (live_frames (exc s)).
Proof.
  intros Hr Hm He Hpc Hsr Hd. cbv zeta. unfold leave_exception. cbv zeta.
  set (s1 := on_exc _ s). 
  assert (same_thread_resume f s1 = true) as ->.
  { unfold same_thread_resume. cbv zeta. rewrite Hm. change (1 =? 1) with true. cbv iota.
    change (g_exc_escape_reason (exc s1)) with (g_exc_escape_reason (exc s)).
    change (g_exception_real_epc (exc s1)) with (g_exception_real_epc (exc s)). change (cpu s1) with (cpu s).
    rewrite bool_decide_eq_false_2 by done. apply Z.eqb_neq in He. rewrite He, Hpc. cbn [negb andb].
    unfold same_guest_pc. by rewrite Z.lxor_nilpotent. }
  rewrite orb_true_r.
  match goal with |- context [has (get_cop0 COP0_SR ?x) 0x01] =>
    change (get_cop0 COP0_SR x) with (get_cop0 COP0_SR s) end.
  rewrite Hsr. cbn [negb].
  apply Z.ltb_lt in Hd.
  repeat match goal with |- _ /\ _ => split; [first [reflexivity|idtac]|] end; try reflexivity.
  change ((if 0 <? exception_nest_depth (exc s) then exception_nest_depth (exc s) - 1 else exception_nest_depth (exc s))
    = exception_nest_depth (exc s) - 1). by rewrite Hd.
Qed.

(** What the prologue and the gates leave of a check at [pc0]. *)
Lemma resumed_facts pc0 s s1 :
  settled (exc s1) = settled (exc (resume_at pc0 s)) \/
  settled (exc s1) = (settled (exc (resume_at pc0 s))) <| post_exception_cooldown_until := 0 |> ->
  take_pc s1 = pc0 /\ in_exception (exc s1) = in_exception (exc s) /\
  exception_nest_depth (exc s1) = exception_nest_depth (exc s) /\ live_frames (exc s1) = live_frames (exc s).
Proof.
  intros H.
  assert (g_dirty_safe_resume_pc (settled (exc s1)) = 0 /\ s_compiled_interrupt_resume_pc (settled (exc s1)) = pc0 /\
    in_exception (settled (exc s1)) = in_exception (exc s) /\
    exception_nest_depth (settled (exc s1)) = exception_nest_depth (exc s) /\
    live_frames (settled (exc s1)) = live_frames (exc s)) as (H1 & H2 & H3) by (destruct H as [-> | ->]; done).
  split; [|exact H3]. unfold take_pc.
  change (g_dirty_safe_resume_pc (exc s1)) with (g_dirty_safe_resume_pc (settled (exc s1))). rewrite H1. exact H2.
Qed.

(** C12: an interrupt is transparent to the code it interrupts. At a guest PC
    where the gates let a delivery through, and for every handler that works on
    memory, devices and registers, lets time pass and returns to that PC with
    rfe: the check returns with all general registers, HI and LO and the PC of
    the interrupted code, the interrupt-enable stack of SR back in place (bits
    4 and 5, the oldest level, cleared), the exception guard, the nesting depth
    and the stack of live activations as before. *)
Theorem interrupt_transparent pc0 h s :
  s_str_mode = 1 -> cop0_ok s -> is_u32 (get_cop0 COP0_SR s) -> 0 <= exception_nest_depth (exc s) ->
  resumable pc0 = true -> deliverable pc0 s = true -> returns_to pc0 h ->
  exists s', psx_check_interrupts_at (fun _ => run h) pc0 s = Some s' /\
    gpr (cpu s') = gpr (cpu s) /\ hi (cpu s') = hi (cpu s) /\ lo (cpu s') = lo (cpu s) /\ pc (cpu s') = pc0 /\
    get_cop0 COP0_SR s' = kept_sr (get_cop0 COP0_SR s) /\
    in_exception (exc s') = in_exception (exc s) /\
    exception_nest_depth (exc s') = exception_nest_depth (exc s) /\
    live_frames (exc s') = live_frames (exc s).
Proof.
  intros Hm Hc Hu Hn Hres Hd Hh. unfold deliverable in Hd. unfold psx_check_interrupts_at. cbv zeta.
  change (on_exc _ s) with (resume_at pc0 s). unfold check_interrupts.
  destruct (prologue_keeps (resume_at pc0 s)) as (P1 & P2 & _). set (s0 := check_prologue (resume_at pc0 s)) in *.
  clearbody s0. pose proof (gates_deliver s0 Hd) as (Hsr & _ & _).
  destruct (gates_keeps s0) as (G1 & _ & _ & _ & G2). destruct (gates s0) as [b s1]. cbn [fst snd] in *. subst b. cbn [negb].
  assert (cpu s1 = cpu s) as C1 by (rewrite G1, P2; done).
  assert (settled (exc s1) = settled (exc (resume_at pc0 s)) \/
    settled (exc s1) = (settled (exc (resume_at pc0 s))) <| post_exception_cooldown_until := 0 |>) as P3
    by (destruct G2 as [-> | ->]; [left; exact P1|right; rewrite <- P1; done]).
  assert (take_pc s1 = pc0 /\ in_exception (exc s1) = in_exception (exc s) /\
    exception_nest_depth (exc s1) = exception_nest_depth (exc s) /\ live_frames (exc s1) = live_frames (exc s))
    as (T1 & T2 & T3 & T4) by exact (resumed_facts pc0 s s1 P3).
  destruct (enter_exception s1) as [[f t] s2] eqn:Ee.
  destruct (enter_spec s1 f t s2) as (F1 & F2 & F3 & F4 & _ & E1 & E2 & E3 & E4 & E5 & _ & E6 & E7 & L2);
    [unfold cop0_ok; by rewrite C1|by rewrite T1|exact Ee|].
  destruct (run_returning pc0 h s2 Hh E1) as (s3 & R1 & R2 & R3 & R4); [by rewrite E4|exact E7|]. rewrite R1.
  set (s4 := on_exc _ (escaped pc0 s3)).
  assert (get_cop0 COP0_SR s1 = get_cop0 COP0_SR s) as S1 by (unfold get_cop0; by rewrite C1).
  assert (get_cop0 COP0_SR s4 = kept_sr (get_cop0 COP0_SR s)) as S4.
  { change (get_cop0 COP0_SR s4) with (aget (aset (cop0 (cpu s3)) COP0_SR (pop_sr (get_cop0 COP0_SR s3))) COP0_SR).
    rewrite aget_aset_eq by (rewrite R4, L2; unfold COP0_SR; lia). by rewrite R3, E5, S1, pop_push_sr. }
  assert (has (get_cop0 COP0_SR s4) 0x01 = true) as H4.
  { rewrite S4, has_low. unfold kept_sr. rewrite has_low in Hsr. change (get_cop0 COP0_SR s0) with (get_cop0 COP0_SR s0) in Hsr.
    assert (get_cop0 COP0_SR s0 = get_cop0 COP0_SR s) as Es by (unfold get_cop0; by rewrite P2). rewrite Es in Hsr. dlia. }
  assert (exc s4 = (exc s3) <| g_rfe_escape_pending := false |> <| g_exc_escape_reason := RFE_RETURN |>
    <| g_psx_dispatch_depth := 0 |>) as X4 by done.
  assert (pc (cpu s4) = pc0) as Q4 by done. clearbody s4. rewrite R2 in X4. clear R1 R2 R3 R4 s3.
  destruct (leave_spec f s4) as (L1' & L2' & L3' & L4' & L5' & L6' & L7' & L8').
  - by rewrite X4.
  - exact Hm.
  - rewrite X4. change (g_exception_real_epc (exc s2) <> 0). rewrite E3, T1. by apply resumable_pos.
  - rewrite X4. change (pc (cpu s4) = g_exception_real_epc (exc s2)). congruence.
  - exact H4.
  - rewrite X4. change (0 < exception_nest_depth (exc s2)). lia.
  - rewrite X4 in L7', L8'. revert L1' L2' L3' L4' L5' L6' L7' L8'. generalize (leave_exception f s4).
    intros s5 K1 K2 K3 K4 K5 K6 K7 K8. eexists. split; [reflexivity|].
    change (exception_nest_depth (exc s5) = exception_nest_depth (exc s2) - 1) in K7.
    change (live_frames (exc s5) = tail (live_frames (exc s2))) in K8. rewrite E6 in K8. cbn [tail] in K8.
    match goal with |- gpr (cpu ?x) = _ /\ _ => change (cpu x) with (cpu s5);
      change (get_cop0 COP0_SR x) with (get_cop0 COP0_SR s5); change (in_exception (exc x)) with (in_exception (exc s5));
      change (exception_nest_depth (exc x)) with (exception_nest_depth (exc s5));
      change (live_frames (exc x)) with (live_frames (exc s5)) end.
    rewrite K1, K2, K3, K4, K5, K6, K7, K8, F1, F2, F3, F4, C1, S4, E2, T2, T3, T4.
    repeat split; [exact Q4|lia].
Qed.

(** ** VBlank pacing *)

(** The GPU's VBlank tick leaves the clock and the card protocol alone. *)
Class VBlankLaws := {
  tick_cycle_count w : psx_get_cycle_count (gpu_vblank_tick w) = psx_get_cycle_count w;
  tick_card_active w : sio_card_protocol_active (gpu_vblank_tick w) = sio_card_protocol_active w;
}.

(** Edges held back: the guest is in its handler, or a card transfer progresses. *)
Definition vblank_held s : bool :=
  in_exception (exc s) || should_defer_vblank_for_sio (note_sio_progress_cycle s).

(** [k] edges fired from [s]. *)
Definition edges_fired (k : nat) s s' : Prop :=
  cycles_since_vblank (pacing s') = cycles_since_vblank (pacing s) - Z.of_nat k * VBLANK_CYCLES /\
  g_vblank_raise_count (pacing s') = u64 (g_vblank_raise_count (pacing s) + Z.of_nat k) /\
  raises_of (log s') = raises_of (log s) ++ repeat (IrqRaise IRQ_VBLANK 0) k /\
  world s' = Nat.iter k gpu_vblank_tick (world s) /\
  should_defer_vblank_for_sio s' = should_defer_vblank_for_sio s.

Lemma edges_fired_0 s :
  0 <= g_vblank_raise_count (pacing s) < 2 ^ 64 -> edges_fired 0 s s.
Proof.
  intros H. unfold edges_fired. split; [lia|]. split; [unfold u64; rewrite Z.add_0_r, Z.mod_small; done|].
  split; [by rewrite app_nil_r|done].
Qed.

Lemma edges_fired_S `{L : VBlankLaws} k s x :
  edges_fired k s x -> VBLANK_CYCLES <= cycles_since_vblank (pacing x) < 2 ^ 32 ->
  edges_fired (S k) s (fire_vblank_edge x).
Proof.
  intros (E1 & E2 & E3 & E4 & E5) Hc. unfold edges_fired.
  change (cycles_since_vblank (pacing (fire_vblank_edge x))) with (u32 (cycles_since_vblank (pacing x) - VBLANK_CYCLES)).
  change (g_vblank_raise_count (pacing (fire_vblank_edge x))) with (u64 (g_vblank_raise_count (pacing x) + 1)).
  change (world (fire_vblank_edge x)) with (gpu_vblank_tick (world x)).
  split; [|split; [|split; [|split]]].
  - unfold u32. rewrite Z.mod_small by (unfold VBLANK_CYCLES in *; lia). rewrite E1. lia.
  - rewrite E2. unfold u64. rewrite Zplus_mod_idemp_l. f_equal. lia.
  - change (log (fire_vblank_edge x)) with
      ((((log x ++ [RingRec EV_DEQ SRC_VBLANK (u32 (now x))]) ++
         [RingRec EV_ENQ SRC_VBLANK (u32 (now x + VBLANK_CYCLES))]) ++
         [IrqRaise IRQ_VBLANK 0]) ++ [RingRec EV_ISTAT_RAISE IRQ_VBLANK 0]).
    rewrite !raises_of_app, E3. cbn [raises_of List.filter is_raise].
    rewrite !app_nil_r, <- app_assoc. f_equal. symmetry. apply (repeat_cons k).
  - by rewrite E4.
  - rewrite <- E5. unfold should_defer_vblank_for_sio, now.
    change (world (fire_vblank_edge x)) with (gpu_vblank_tick (world x)).
    change (last_sio_progress_cycle (pacing (fire_vblank_edge x))) with (last_sio_progress_cycle (pacing x)).
    by rewrite tick_cycle_count, tick_card_active.
Qed.

Lemma note_pacing s :
  cycles_since_vblank (pacing (note_sio_progress_cycle s)) = cycles_since_vblank (pacing s) /\
  g_vblank_raise_count (pacing (note_sio_progress_cycle s)) = g_vblank_raise_count (pacing s) /\
  log (note_sio_progress_cycle s) = log s /\ world (note_sio_progress_cycle s) = world s.
Proof. unfold note_sio_progress_cycle. cbv zeta. by case_if. Qed.

(** The loop fires until less than a period is left. *)
Lemma service_edges `{L : VBlankLaws} s :
  0 <= g_vblank_raise_count (pacing s) < 2 ^ 64 -> 0 <= cycles_since_vblank (pacing s) < 2 ^ 32 ->
  let k := if vblank_held s then 0%nat else Z.to_nat (cycles_since_vblank (pacing s) / VBLANK_CYCLES) in
  edges_fired k (note_sio_progress_cycle s) (interrupts_service_scheduled_events s).
Proof.
  intros Hr Hc. cbv zeta. unfold vblank_held, interrupts_service_scheduled_events. cbv zeta.
  destruct (note_pacing s) as (N1 & N2 & _). destruct (note_keeps s) as (Nx & _). rewrite <- Nx.
  set (s1 := note_sio_progress_cycle s) in *. clearbody s1. rewrite <- N1 in *. rewrite <- N2 in *. clear N1 N2 Nx s.
  destruct (in_exception (exc s1)); cbn [orb]; [by apply edges_fired_0|].
  destruct (should_defer_vblank_for_sio s1) eqn:Ed.
  { rewrite pwhile_nwhile, nwhile_stop; [by apply edges_fired_0|]. rewrite Ed. apply andb_false_r. }
  pose proof (pwhile_spec (fun x => vblank_due x && negb (should_defer_vblank_for_sio x)) fire_vblank_edge
    (fun x => exists k, edges_fired k s1 x /\ 0 <= cycles_since_vblank (pacing x))
    (fun x => cycles_since_vblank (pacing x) / VBLANK_CYCLES) 7609 s1) as [(k & Hk & H0) Hst].
  - exists 0%nat. split; [by apply edges_fired_0|lia].
  - intros x (k & Hk & H0) Hx. apply andb_prop in Hx as [Hx _]. unfold vblank_due in Hx. apply Z.leb_le in Hx.
    pose proof Hk as (C1 & _).
    assert (edges_fired (S k) s1 (fire_vblank_edge x)) as Hk'
      by (apply edges_fired_S; [exact Hk|unfold VBLANK_CYCLES in *; lia]).
    pose proof Hk' as (C2 & _).
    assert (cycles_since_vblank (pacing (fire_vblank_edge x)) = cycles_since_vblank (pacing x) - VBLANK_CYCLES) as C3 by lia.
    unfold VBLANK_CYCLES in *. split; [exists (S k); split; [exact Hk'|lia]|]. rewrite C3. dlia.
  - intros x (k & Hk & H0) Hx. apply andb_prop in Hx as [Hx _]. unfold vblank_due in Hx. apply Z.leb_le in Hx.
    unfold VBLANK_CYCLES in *. dlia.
  - unfold VBLANK_CYCLES. dlia.
  - assert (k = Z.to_nat (cycles_since_vblank (pacing s1) / VBLANK_CYCLES)) as <-; [|exact Hk].
    revert Hk H0 Hst. generalize (pwhile 7609 (fun x => vblank_due x && negb (should_defer_vblank_for_sio x)) fire_vblank_edge s1).
    intros y (C1 & _ & _ & _ & C5) H0 Hst. rewrite C5, Ed, andb_true_r in Hst. unfold vblank_due in Hst.
    apply Z.leb_gt in Hst. rewrite C1 in H0, Hst. revert Hc H0 Hst. clear.
    generalize (cycles_since_vblank (pacing s1)). unfold VBLANK_CYCLES. intros z H1 H2 H3.
    rewrite <- (Z.div_unique z 564480 (Z.of_nat k) (z - Z.of_nat k * 564480)); lia.
Qed.

(** VBlank pacing loses no cycle and no frame. Advancing the clock by c
    cycles raises one VBlank interrupt per full period of 564480 cycles
    accumulated, however many periods c spans, and carries the rest over;
    while the guest is in its exception handler, or a memory-card transfer made
    progress within the last ten frames, no edge is raised and every cycle
    stays on the counter for later. *)
Theorem vblank_pacing `{L : VBlankLaws} c s :
  0 <= cycles_since_vblank (pacing s) -> 0 <= c -> cycles_since_vblank (pacing s) + c < 2 ^ 32 ->
  0 <= g_vblank_raise_count (pacing s) < 2 ^ 64 ->
  let total := cycles_since_vblank (pacing s) + c in
  let n := if vblank_held s then 0 else total / VBLANK_CYCLES in
  let s' := interrupts_advance_cycles c s in
  cycles_since_vblank (pacing s') = (if vblank_held s then total else total mod VBLANK_CYCLES) /\
  g_vblank_raise_count (pacing s') = u64 (g_vblank_raise_count (pacing s) + n) /\
  raises_of (log s') = raises_of (log s) ++ repeat (IrqRaise IRQ_VBLANK 0) (Z.to_nat n) /\
  world s' = Nat.iter (Z.to_nat n) gpu_vblank_tick (world s).
Proof.
  intros H0 Hc Ht Hr. cbv zeta. unfold interrupts_advance_cycles.
  set (s1 := on_pacing _ s).
  assert (cycles_since_vblank (pacing s1) = cycles_since_vblank (pacing s) + c) as C1
    by (change (u32 (cycles_since_vblank (pacing s) + c) = cycles_since_vblank (pacing s) + c);
        unfold u32; apply Z.mod_small; lia).
  assert (vblank_held s1 = vblank_held s) as Hh.
  { unfold vblank_held, note_sio_progress_cycle, should_defer_vblank_for_sio. cbv zeta.
    change (sio_get_seq (world s1)) with (sio_get_seq (world s)).
    change (last_sio_seq_seen (pacing s1)) with (last_sio_seq_seen (pacing s)).
    destruct (sio_get_seq (world s) =? last_sio_seq_seen (pacing s)); reflexivity. }
  pose proof (service_edges s1 Hr ltac:(lia)) as (E1 & E2 & E3 & E4 & _). rewrite Hh, C1 in *.
  destruct (note_pacing s1) as (N1 & N2 & N3 & N4). rewrite N1, C1 in E1. rewrite N2 in E2. rewrite N3 in E3. rewrite N4 in E4.
  change (g_vblank_raise_count (pacing s1)) with (g_vblank_raise_count (pacing s)) in E2.
  change (log s1) with (log s) in E3. change (world s1) with (world s) in E4.
  destruct (vblank_held s).
  - split; [lia|]. done.
  - unfold VBLANK_CYCLES in *. rewrite Z2Nat.id in E1, E2 by dlia. split; [dlia|]. done.
Qed.

End Delivery.

(** ** A concrete machine *)

Module Demo.

(** A clock and a RAM of words. *)
Definition World : Type := Z * gmap Z Z.
#[export] Instance machine : Machine World := {
  psx_get_cycle_count w := w.1;
  psx_read_word a w := default 0 (w.2 !! a);
  psx_write_word a v w := (w.1, <[a := v]> w.2);
  sio_get_seq w := 0;
  sio_card_protocol_active w := false;
  dma_cdrom_transfer_active w := 0;
  g_dma_exec_depth w := 0;
  gpu_vblank_tick w := w;
  debug_server_poll w := w;
  savestate_poll _ w := w;
  timers_cycles_to_irq _ w := 0xFFFFFFFF;
  cdrom_cycles_to_irq _ w := 0xFFFFFFFF;
  dma_cycles_to_irq _ w := 0xFFFFFFFF;
  sio_cycles_to_irq _ w := 0xFFFFFFFF;
  PSX_SAME_THREAD_RESTORE := None
}.
#[export] Instance laws : VBlankLaws (W := World).
Proof. split; done. Qed.

(** Running guest code at 0x80010000, a VBlank pending, interrupts on. *)
Definition cpu0 : Cpu :=
  mkCpu 0x80010000 (aset (replicate 32 0) 4 77) 5 6 (aset (replicate 32 0) COP0_SR 0x40000401).
Definition exc0 : Exc :=
  mkExc false 0 0 None [] 0 false ESCAPE_NONE 0 0 0 0 0 0 false 0.
Definition diag0 : Diag := mkDiag 0 0 0 0 0 0 0 0 0 0 0 0 0 ∅ 0.
Definition s0 : State World :=
  mkState cpu0 1 1 (mkPacing 0 0 0 0 0) exc0 diag0 (1000, ∅) [].

(** The same machine inside its handler, interrupts enabled again. *)
Definition s1 : State World :=
  s0 <| exc := mkExc true 1 0 (Some 0) [0] 1 false ESCAPE_NONE 0x80010000 0 0 0 0 0 false 0 |>.

(** A handler: clobbers a0, acknowledges the VBlank, takes time, returns. *)
Definition handler : Guest (W := World) :=
  GStep (fun '(c, st, mask, w) => (c <| gpr := aset (gpr c) 4 0 |>, Z.land st 0xFFFE, mask, w))
    (GAdvance 300 (GRfe 0x80010000 GReturn)).

End Demo.
Import (hints) Demo.

Lemma nested_rfe_undefined_witness :
  frames_ok Demo.s1 /\ run (GCheck 0x80010000 Demo.handler (GRfe 0x80010000 GReturn)) Demo.s1 = Undefined.
Proof.
  assert (frames_ok Demo.s1) as H by (repeat constructor).
  split; [exact H|]. apply nested_rfe_undefined; [exact H|reflexivity|vm_compute; reflexivity].
Defined.

Lemma interrupt_transparent_witness :
  exists s', psx_check_interrupts_at (fun _ => run Demo.handler) 0x80010000 Demo.s0 = Some s' /\
    aget (gpr (cpu s')) 4 = 77 /\ get_cop0 COP0_SR s' = 0x40000401.
Proof.
  destruct (interrupt_transparent 0x80010000 Demo.handler Demo.s0) as (s' & H & G & _ & _ & _ & S & _).
  - reflexivity.
  - reflexivity.
  - vm_compute. split; [discriminate|reflexivity].
  - vm_compute. discriminate.
  - reflexivity.
  - vm_compute. reflexivity.
  - repeat constructor.
  - exists s'. split; [exact H|]. rewrite G, S. split; reflexivity.
Defined.

Lemma vblank_pacing_witness :
  let s' := interrupts_advance_cycles 1128970 Demo.s0 in
  cycles_since_vblank (pacing s') = 10 /\ g_vblank_raise_count (pacing s') = 2.
Proof.
  cbv zeta. destruct (vblank_pacing 1128970 Demo.s0) as (H1 & H2 & _); [vm_compute..|].
  1-4: repeat split; discriminate.
  rewrite H1, H2. split; reflexivity.
Defined.

End Irq.
