(* ===== verification/Scheduler.v ===== *)
(** * The guest clock and device servicing

    src/runtime/src/psx_cycles.c in the build without PSX_COSIM: the cycle
    counter, the event-deadline fast path (devices catch up when the next event
    is due or when the guest touches a device register) and the exact per-charge
    path it replaces.

    The devices are an interface: [Devices] is what psx_cycles.c calls, and
    [DeviceLaws] what it relies on: the root counters and the VBlank clock keep
    them (Board.v), the serial port ([SioClock.sio_landing_hides_event]) and the
    CD-ROM controller ([CdDemo.cdrom_landing_delays_read]) do not.  Device code does not charge cycles. *)

From S2P Require Import Prelude.

Module Clock.

(** ** State *)

(** Calls to the starvation probes. *)
Inductive Probe := starvation_watchdog_check | starvation_ring_pc_sample.

#[projections(primitive)] Record State (W : Type) := mkState {
  psx_cycle_count : Z; s_devices_synced_cycle : Z; s_next_service_cycle : Z; s_in_device_service : bool;
  g_event_step_conservative : bool; s_watchdog_throttle : Z; s_pc_sample_throttle : Z;
  world : W; probes : list Probe
}.
Arguments mkState {W}. Arguments psx_cycle_count {W} s. Arguments s_devices_synced_cycle {W} s.
Arguments s_next_service_cycle {W} s. Arguments s_in_device_service {W} s.
Arguments g_event_step_conservative {W} s. Arguments s_watchdog_throttle {W} s.
Arguments s_pc_sample_throttle {W} s. Arguments world {W} s. Arguments probes {W} s.
#[export] Instance eta_State W : Eta (State W) := fun s =>
  mkState (psx_cycle_count s) (s_devices_synced_cycle s) (s_next_service_cycle s) (s_in_device_service s)
    (g_event_step_conservative s) (s_watchdog_throttle s) (s_pc_sample_throttle s) (world s) (probes s).

(** The device models, called with psx_cycle_count as first argument. *)
Class Devices (W : Type) := {
  sio_advance : Z -> Z -> W -> W;
  cdrom_advance : Z -> Z -> W -> W;
  dma_advance : Z -> Z -> W -> W;
  timers_advance : Z -> Z -> W -> W;
  interrupts_advance_cycles : Z -> Z -> W -> W;
  interrupts_service_scheduled_events : Z -> W -> W;
  interrupts_cycles_to_vblank : Z -> W -> Z;
  timers_cycles_to_irq : Z -> Z -> W -> Z;
  cdrom_cycles_to_irq : Z -> Z -> W -> Z;
  dma_cycles_to_irq : Z -> Z -> W -> Z;
  sio_cycles_to_irq : Z -> Z -> W -> Z;
  i_stat : W -> Z;
}.

Definition PSX_DEADLINE_HARD_CAP := 16384.

Section Servicing.
Context {W : Type} `{D : Devices W}.
Abbreviation St := (State W).
Implicit Types (s : St) (w : W).

(** ** Servicing *)

(** Every device advanced by [c], with the counter already at [now]. *)
Definition devices_advance (now c : Z) (w : W) : W :=
  interrupts_advance_cycles now c (timers_advance now c (dma_advance now c
    (cdrom_advance now c (sio_advance now c w)))).

Definition advance_devices (c : Z) (s : St) : St :=
  let now := u64 (psx_cycle_count s + c) in
  s <| psx_cycle_count := now |> <| world := devices_advance now c (world s) |>.

Definition service_scheduled (s : St) : St :=
  s <| world := interrupts_service_scheduled_events (psx_cycle_count s) (world s) |>.

Definition devices_cycles_to_next_internal_event (now : Z) (w : W) : Z :=
  let min d best := if d <? best then d else best in
  let best := interrupts_cycles_to_vblank now w in
  let best := min (timers_cycles_to_irq now 0xFFFFFFFF w) best in
  let best := min (cdrom_cycles_to_irq now 0xFFFFFFFF w) best in
  let best := min (dma_cycles_to_irq now 0xFFFFFFFF w) best in
  let best := min (sio_cycles_to_irq now 0xFFFFFFFF w) best in
  if best =? 0 then 1 else best.

Definition psx_devices_recompute_deadline (s : St) : St :=
  let next := devices_cycles_to_next_internal_event (psx_cycle_count s) (world s) in
  let next := if PSX_DEADLINE_HARD_CAP <? next then PSX_DEADLINE_HARD_CAP else next in
  s <| s_next_service_cycle := u64 (psx_cycle_count s + next) |>.

(** One chunk of the catch-up: never past the next event. *)
Definition service_chunk (target : Z) (s : St) : St :=
  let remaining := u32 (target - psx_cycle_count s) in
  let to_ev := devices_cycles_to_next_internal_event (psx_cycle_count s) (world s) in
  let step := if (0 <? to_ev) && (to_ev <? remaining) then to_ev else remaining in
  let step := if step =? 0 then 1 else step in
  service_scheduled (advance_devices step s).

(** Every chunk is at least one cycle, so 2^64 rounds cover any gap. *)
Definition psx_devices_service_to_now (s : St) : St :=
  if s_in_device_service s then s else
  let s := s <| s_in_device_service := true |> in
  let target := psx_cycle_count s in
  let s :=
    if s_devices_synced_cycle s <? target then
      let s := s <| psx_cycle_count := s_devices_synced_cycle s |> in
      let s := service_scheduled s in
      let s := pwhile 0x10000000000000000 (fun s => psx_cycle_count s <? target) (service_chunk target) s in
      s <| s_devices_synced_cycle := target |>
    else s in
  let s := psx_devices_recompute_deadline s in
  s <| s_in_device_service := false |>.

Definition psx_devices_mmio_sync (s : St) : St :=
  let s := if negb (s_devices_synced_cycle s =? psx_cycle_count s) then psx_devices_service_to_now s else s in
  s <| s_next_service_cycle := 0 |>.

(** One round of the exact path; the loop runs on the cycles left. *)
Definition exact_round (x : Z * St) : Z * St :=
  let '(cycles, s) := x in
  let step := cycles in
  let step :=
    if g_event_step_conservative s && (1 <? step) then 1
    else let to_vblank := interrupts_cycles_to_vblank (psx_cycle_count s) (world s) in
         if (0 <? to_vblank) && (to_vblank <? step) then to_vblank else step in
  let step := if step =? 0 then cycles else step in
  let s := advance_devices step s in
  (u32 (cycles - step), service_scheduled s).

Definition psx_advance_cycles_exact (cycles : Z) (s : St) : St :=
  let s := service_scheduled s in
  let '(_, s) := pwhile 0x100000000 (fun x => 0 <? x.1) exact_round (cycles, s) in
  s <| s_devices_synced_cycle := psx_cycle_count s |> <| s_next_service_cycle := 0 |>.

(** The probes are called once per 65536 and per 1048576 charged cycles. *)
Definition charge_probes (cycles : Z) (s : St) : St :=
  let s := s <| s_watchdog_throttle := u32 (s_watchdog_throttle s + cycles) |> in
  let s := if 65536 <=? s_watchdog_throttle s
           then s <| s_watchdog_throttle := 0 |> <| probes := probes s ++ [starvation_watchdog_check] |> else s in
  let s := s <| s_pc_sample_throttle := u32 (s_pc_sample_throttle s + cycles) |> in
  if 1048576 <=? s_pc_sample_throttle s
  then s <| s_pc_sample_throttle := 0 |> <| probes := probes s ++ [starvation_ring_pc_sample] |> else s.

(** Outside a lockstep replay. *)
Definition psx_advance_cycles (cycles : Z) (s : St) : St :=
  if cycles =? 0 then s else
  let s :=
    if g_event_step_conservative s then psx_advance_cycles_exact cycles s
    else if s_in_device_service s then s <| psx_cycle_count := u64 (psx_cycle_count s + cycles) |>
    else
      let s := s <| psx_cycle_count := u64 (psx_cycle_count s + cycles) |> in
      if (s_next_service_cycle s =? 0) || (s_next_service_cycle s <=? psx_cycle_count s)
      then psx_devices_service_to_now s else s in
  charge_probes cycles s.

Definition psx_cycles_resync_after_restore (s : St) : St :=
  s <| s_devices_synced_cycle := psx_cycle_count s |> <| s_next_service_cycle := 0 |>
    <| s_in_device_service := false |>.

(** ** What the guest does to the clock *)

(** A charge, or an access to a device register (memory.c syncs first). *)
Inductive Op :=
| Charge (cycles : Z)
| Access (f : Z -> W -> W * Z).

Definition op_cycles (o : Op) : Z := match o with Charge c => c | Access _ => 0 end.
Definition total_cycles (l : list Op) : Z := foldr (fun o n => op_cycles o + n) 0 l.

(** The state after one operation and the value the guest got. *)
Definition run_op (o : Op) (s : St) : Z * St :=
  match o with
  | Charge c => (0, psx_advance_cycles c s)
  | Access f =>
      let s := psx_devices_mmio_sync s in
      let '(w, v) := f (psx_cycle_count s) (world s) in
      (v, s <| world := w |>)
  end.

(** What the guest can see after each operation: clock, I_STAT, value read. *)
Fixpoint run_ops (l : list Op) (s : St) : list (Z * Z * Z) * St :=
  match l with
  | [] => ([], s)
  | o :: l =>
      let '(v, s) := run_op o s in
      let '(tr, s') := run_ops l s in
      ((psx_cycle_count s, i_stat (world s), v) :: tr, s')
  end.

(** ** What the devices promise *)

(** One cycle of every device. *)
Definition tick (x : Z * W) : Z * W := (x.1 + 1, devices_advance (x.1 + 1) 1 x.2).

(** No scheduled event is due. *)
Definition serviced (now : Z) (w : W) : Prop := interrupts_service_scheduled_events now w = w.

End Servicing.

(** The devices in states they can reach ([dev_ok]): servicing is idempotent;
    advancing by no more than the announced distance is the same as single
    cycles and leaves nothing scheduled; short of the distance no line of
    I_STAT changes. *)
Class DeviceLaws (W : Type) `{Devices W} := {
  dev_ok : Z -> W -> Prop;
  law_next n w : dev_ok n w -> 0 < devices_cycles_to_next_internal_event n w;
  law_service_ok n w : dev_ok n w -> dev_ok n (interrupts_service_scheduled_events n w);
  law_service_idem n w : dev_ok n w -> serviced n (interrupts_service_scheduled_events n w);
  law_advance_ok n k w :
    dev_ok n w -> serviced n w -> 0 < k <= devices_cycles_to_next_internal_event n w -> k < 2 ^ 32 ->
    n + k < 2 ^ 64 -> dev_ok (n + k) (devices_advance (n + k) k w) /\ serviced (n + k) (devices_advance (n + k) k w);
  law_steps n k w :
    dev_ok n w -> serviced n w -> 0 < k <= devices_cycles_to_next_internal_event n w -> k < 2 ^ 32 ->
    n + k < 2 ^ 64 -> ziter tick k (n, w) = (n + k, devices_advance (n + k) k w);
  law_quiet n k w :
    dev_ok n w -> serviced n w -> 0 < k < devices_cycles_to_next_internal_event n w -> k < 2 ^ 32 ->
    n + k < 2 ^ 64 -> i_stat (devices_advance (n + k) k w) = i_stat w;
}.

Section Replay.
Context {W : Type} `{D : Devices W} `{L : !DeviceLaws W}.
Abbreviation St := (State W).
Implicit Types (s : St) (w : W).

(** ** The per-cycle reference *)

(** A serviced world [k] cycles after [n] (pairs of a time and a world). *)
Definition good (x : Z * W) : Prop := dev_ok x.1 x.2 /\ serviced x.1 x.2.

Lemma tick_good x : good x -> x.1 + 1 < 2 ^ 64 -> good (tick x).
Proof.
  intros [H1 H2] H. pose proof (law_next _ _ H1). unfold good, tick. cbn [fst snd].
  apply law_advance_ok; done || lia.
Qed.

Lemma ticks_fst k x : 0 <= k -> (ziter tick k x).1 = x.1 + k.
Proof.
  intros Hk. revert k Hk. apply natlike_ind; [rewrite ziter_0; lia|].
  intros k Hk IH. unfold Z.succ. rewrite ziter_S by lia. unfold tick at 1. cbn [fst]. lia.
Qed.

Lemma ticks_good k x : good x -> 0 <= k -> x.1 + k < 2 ^ 64 -> good (ziter tick k x).
Proof.
  intros Hx Hk. revert k Hk. apply (natlike_ind (fun k => x.1 + k < 2 ^ 64 -> good (ziter tick k x))).
  - intros _. by rewrite ziter_0.
  - intros k Hk IH Hb. unfold Z.succ. rewrite ziter_S by lia. apply tick_good; [apply IH; lia|].
    rewrite ticks_fst by lia. lia.
Qed.

Lemma service_good n w : dev_ok n w -> good (n, interrupts_service_scheduled_events n w).
Proof. intros H. split; [by apply law_service_ok|by apply law_service_idem]. Qed.

(** An advance within the announced distance, then the (idle) service. *)
Lemma chunk_is_ticks k s :
  good (psx_cycle_count s, world s) -> 0 <= psx_cycle_count s ->
  0 < k <= devices_cycles_to_next_internal_event (psx_cycle_count s) (world s) -> k < 2 ^ 32 ->
  psx_cycle_count s + k < 2 ^ 64 ->
  service_scheduled (advance_devices k s) =
    (s <| psx_cycle_count := psx_cycle_count s + k |>)
      <| world := (ziter tick k (psx_cycle_count s, world s)).2 |>.
Proof.
  intros [H1 H2] H0 Hk Hk32 Hb. cbn [fst snd] in *. rewrite law_steps by done. cbn [snd].
  unfold service_scheduled, advance_devices. cbv zeta. rewrite u64_id by lia.
  destruct (law_advance_ok _ k _ H1 H2) as [_ H3]; [done..|].
  match goal with |- context [interrupts_service_scheduled_events ?n ?w] =>
    change n with (psx_cycle_count s + k);
    change w with (devices_advance (psx_cycle_count s + k) k (world s)) end.
  by rewrite H3.
Qed.

(** ** The fast path replays the gap *)

(** [s] moved to the pair [x]. *)
Definition at_time (x : Z * W) s : St := s <| psx_cycle_count := x.1 |> <| world := x.2 |>.

Lemma at_time_at x y s : at_time x (at_time y s) = at_time x s.
Proof. done. Qed.

Lemma service_loop_spec target s n w :
  good (n, w) -> 0 <= n <= target -> target < 2 ^ 64 ->
  pwhile 0x10000000000000000 (fun s => psx_cycle_count s <? target) (service_chunk target) (at_time (n, w) s) =
    at_time (ziter tick (target - n) (n, w)) s.
Proof.
  intros Hg Hn Ht.
  pose proof (pwhile_spec (fun s => psx_cycle_count s <? target) (service_chunk target)
    (fun x => exists k, 0 <= k <= target - n /\ x = at_time (ziter tick k (n, w)) s)
    (fun x => target - psx_cycle_count x) 0x10000000000000000 (at_time (n, w) s)) as [(k & Hk & E) Hst].
  - exists 0. rewrite ziter_0. split; [lia|done].
  - intros x (k & Hk & ->) Hx.
    pose proof (ticks_good k (n, w) Hg ltac:(lia) ltac:(cbn [fst]; lia)) as Hgk.
    pose proof (ticks_fst k (n, w) ltac:(lia)) as Hf. cbn [fst] in Hf.
    assert (psx_cycle_count (at_time (ziter tick k (n, w)) s) = n + k) as Hc by exact Hf.
    rewrite Hc in Hx. apply Z.ltb_lt in Hx.
    unfold service_chunk. cbv zeta. rewrite Hc. change (world (at_time (ziter tick k (n, w)) s)) with (ziter tick k (n, w)).2.
    set (d := devices_cycles_to_next_internal_event (n + k) (ziter tick k (n, w)).2).
    assert (0 < d) as Hd by (unfold d; rewrite <- Hf; apply law_next, (proj1 Hgk)).
    set (r := u32 (target - (n + k))).
    set (step := if (if (0 <? d) && (d <? r) then d else r) =? 0 then 1 else if (0 <? d) && (d <? r) then d else r).
    assert (0 < step <= d /\ step <= target - (n + k) /\ step < 2 ^ 32) as (S1 & S2 & S3).
    { unfold step. assert (0 <= r <= target - (n + k) /\ r < 2 ^ 32) as [R1 R2]
        by (unfold r, u32; pose proof (Z.mod_le (target - (n + k)) 0x100000000 ltac:(lia) ltac:(lia)); 
            pose proof (Z.mod_pos_bound (target - (n + k)) 0x100000000 ltac:(lia)); lia).
      destruct (Z.ltb_spec 0 d); [|lia]. cbn [andb].
      destruct (Z.ltb_spec d r); [destruct (Z.eqb_spec d 0)|destruct (Z.eqb_spec r 0)]; lia. }
    clearbody step. rewrite chunk_is_ticks.
    + rewrite Hc. change (world (at_time (ziter tick k (n, w)) s)) with (ziter tick k (n, w)).2.
      assert ((n + k, (ziter tick k (n, w)).2) = ziter tick k (n, w)) as -> by (rewrite <- Hf; by destruct (ziter tick k (n, w))).
      rewrite <- ziter_add by lia. split; [|cbn [psx_cycle_count]; change (target - (n + k + step) < target - (n + k)); lia].
      exists (k + step). split; [lia|].
      assert ((ziter tick (k + step) (n, w)).1 = n + k + step) as E by (rewrite ticks_fst by lia; cbn [fst]; lia).
      unfold at_time. by rewrite E.
    + rewrite Hc. change (world (at_time (ziter tick k (n, w)) s)) with (ziter tick k (n, w)).2. rewrite <- Hf.
      by rewrite <- surjective_pairing.
    + rewrite Hc. lia.
    + rewrite Hc. change (world (at_time (ziter tick k (n, w)) s)) with (ziter tick k (n, w)).2. fold d. lia.
    + lia.
    + rewrite Hc. lia.
  - intros x (k & Hk & ->) Hx. apply Z.ltb_lt in Hx. lia.
  - change (psx_cycle_count (at_time (n, w) s)) with n. lia.
  - rewrite E. rewrite E in Hst. apply Z.ltb_ge in Hst.
    change (target <= (ziter tick k (n, w)).1) in Hst. rewrite ticks_fst in Hst by lia. cbn [fst] in Hst.
    by replace k with (target - n) by lia.
Qed.

(** The world [k] cycles after a service at [n]. *)
Definition after (n k : Z) (w : W) : W := (ziter tick k (n, interrupts_service_scheduled_events n w)).2.

Lemma after_good n k w : dev_ok n w -> 0 <= k -> n + k < 2 ^ 64 -> good (n + k, after n k w).
Proof.
  intros Hw Hk Hb. pose proof (ticks_good k _ (service_good n w Hw) Hk Hb) as H.
  unfold after. pose proof (ticks_fst k (n, interrupts_service_scheduled_events n w) Hk) as E. cbn [fst] in E.
  rewrite <- E. by rewrite <- surjective_pairing.
Qed.

Lemma after_add n a b w :
  dev_ok n w -> 0 <= a -> 0 <= b -> n + a < 2 ^ 64 -> after n (a + b) w = after (n + a) b (after n a w).
Proof.
  intros Hw Ha Hb Hn. destruct (after_good n a w Hw Ha Hn) as [_ Hs]. unfold after at 2. cbn [fst snd] in Hs. rewrite Hs.
  unfold after. rewrite ziter_add by lia.
  pose proof (ticks_fst a (n, interrupts_service_scheduled_events n w) Ha) as E. cbn [fst] in E.
  rewrite <- E. by rewrite <- surjective_pairing.
Qed.

Definition next_distance n w : Z :=
  let d := devices_cycles_to_next_internal_event n w in
  if PSX_DEADLINE_HARD_CAP <? d then PSX_DEADLINE_HARD_CAP else d.

Lemma service_to_now_spec s :
  s_in_device_service s = false -> 0 <= s_devices_synced_cycle s < psx_cycle_count s -> psx_cycle_count s < 2 ^ 64 ->
  dev_ok (s_devices_synced_cycle s) (world s) ->
  let w := after (s_devices_synced_cycle s) (psx_cycle_count s - s_devices_synced_cycle s) (world s) in
  psx_devices_service_to_now s =
    s <| world := w |> <| s_devices_synced_cycle := psx_cycle_count s |>
      <| s_next_service_cycle := u64 (psx_cycle_count s + next_distance (psx_cycle_count s) w) |>.
Proof.
  intros Hi Hs Hc Hok w. unfold psx_devices_service_to_now. rewrite Hi. cbv zeta.
  match goal with |- context [if ?b <? ?c then _ else _] => change b with (s_devices_synced_cycle s); change c with (psx_cycle_count s) end.
  destruct (Z.ltb_spec (s_devices_synced_cycle s) (psx_cycle_count s)); [|lia].
  match goal with |- context [pwhile _ (fun y => psx_cycle_count y <? ?t) _ ?x] =>
    change t with (psx_cycle_count s);
    change x with (at_time (s_devices_synced_cycle s, interrupts_service_scheduled_events (s_devices_synced_cycle s) (world s))
      (s <| s_in_device_service := true |>)) end.
  rewrite service_loop_spec by (done || lia || by apply service_good).
  change (ziter tick _ _) with (ziter tick (psx_cycle_count s - s_devices_synced_cycle s)
    (s_devices_synced_cycle s, interrupts_service_scheduled_events (s_devices_synced_cycle s) (world s))).
  pose proof (ticks_fst (psx_cycle_count s - s_devices_synced_cycle s)
    (s_devices_synced_cycle s, interrupts_service_scheduled_events (s_devices_synced_cycle s) (world s)) ltac:(lia)) as E.
  cbn [fst] in E. replace (s_devices_synced_cycle s + (psx_cycle_count s - s_devices_synced_cycle s)) with (psx_cycle_count s) in E by lia.
  assert (ziter tick (psx_cycle_count s - s_devices_synced_cycle s)
    (s_devices_synced_cycle s, interrupts_service_scheduled_events (s_devices_synced_cycle s) (world s)) = (psx_cycle_count s, w)) as ->
    by (apply injective_projections; [exact E|reflexivity]).
  clearbody w. clear E. destruct s as [n y nx i cv wt pt w0 ps]. unfold s_in_device_service in Hi. subst i. reflexivity.
Qed.

Lemma exact_spec c s :
  g_event_step_conservative s = true -> 0 < c < 2 ^ 32 -> 0 <= psx_cycle_count s -> psx_cycle_count s + c < 2 ^ 64 ->
  dev_ok (psx_cycle_count s) (world s) ->
  psx_advance_cycles_exact c s =
    s <| psx_cycle_count := psx_cycle_count s + c |> <| world := after (psx_cycle_count s) c (world s) |>
      <| s_devices_synced_cycle := psx_cycle_count s + c |> <| s_next_service_cycle := 0 |>.
Proof.
  intros Hg Hc H0 Hb Hok. unfold psx_advance_cycles_exact. cbv zeta.
  set (x0 := (psx_cycle_count s, interrupts_service_scheduled_events (psx_cycle_count s) (world s))).
  assert (good x0) as Hx0 by by apply service_good.
  change (service_scheduled s) with (at_time x0 s).
  pose proof (pwhile_spec (fun x : Z * St => 0 <? x.1) exact_round
    (fun y => exists k, 0 <= k <= c /\ y = (c - k, at_time (ziter tick k x0) s)) fst 0x100000000 (c, at_time x0 s))
    as [(k & Hk & E) Hst].
  - exists 0. rewrite ziter_0, Z.sub_0_r. split; [lia|done].
  - intros y (k & Hk & ->) Hy. cbn [fst] in Hy. apply Z.ltb_lt in Hy.
    pose proof (ticks_good k x0 Hx0 ltac:(lia) ltac:(change (psx_cycle_count s + k < 2 ^ 64); lia)) as Hgk.
    pose proof (ticks_fst k x0 ltac:(lia)) as Hf. change x0.1 with (psx_cycle_count s) in Hf.
    unfold exact_round. cbv zeta. change (g_event_step_conservative (at_time (ziter tick k x0) s)) with (g_event_step_conservative s).
    rewrite Hg. cbn [andb].
    assert (forall to_vblank, (if (if 1 <? c - k then 1 else if (0 <? to_vblank) && (to_vblank <? c - k) then to_vblank else c - k) =? 0
      then c - k else if 1 <? c - k then 1 else if (0 <? to_vblank) && (to_vblank <? c - k) then to_vblank else c - k) = 1) as ->.
    { intros v. destruct (Z.ltb_spec 1 (c - k)); [done|]. assert (c - k = 1) as -> by lia.
      destruct (Z.ltb_spec 0 v), (Z.ltb_spec v 1); try done. lia. }
    pose proof (law_next _ _ (proj1 Hgk)) as Hn.
    rewrite chunk_is_ticks.
    + change (psx_cycle_count (at_time (ziter tick k x0) s)) with (ziter tick k x0).1.
      change (world (at_time (ziter tick k x0) s)) with (ziter tick k x0).2. rewrite <- surjective_pairing, ziter_1.
      cbn [fst]. rewrite u32_id by lia. split; [|lia]. exists (k + 1). split; [lia|]. f_equal; [lia|].
      rewrite ziter_S by lia. done.
    + change (good ((ziter tick k x0).1, (ziter tick k x0).2)). by rewrite <- surjective_pairing.
    + change (0 <= (ziter tick k x0).1). lia.
    + change (0 < 1 <= devices_cycles_to_next_internal_event (ziter tick k x0).1 (ziter tick k x0).2). lia.
    + lia.
    + change ((ziter tick k x0).1 + 1 < 2 ^ 64). lia.
  - intros y (k & Hk & ->) Hy. by apply Z.ltb_lt in Hy.
  - cbn [fst]. lia.
  - rewrite E in *. cbn [fst] in Hst. apply Z.ltb_ge in Hst. assert (k = c) as -> by lia.
    pose proof (ticks_fst c x0 ltac:(lia)) as Hf. change x0.1 with (psx_cycle_count s) in Hf.
    unfold after. fold x0. unfold at_time. rewrite Hf. done.
Qed.

(** ** The fast path and the exact path in step *)

Definition throttles s := (s_watchdog_throttle s, s_pc_sample_throttle s, probes s).

(** A fast-path state against the exact-path state with every device up to date. *)
Record sim (f r : St) : Prop := {
  sim_count : psx_cycle_count r = psx_cycle_count f;
  sim_synced : s_devices_synced_cycle r = psx_cycle_count r;
  sim_modes : (g_event_step_conservative f, s_in_device_service f, g_event_step_conservative r) = (false, false, true);
  sim_throttles : throttles f = throttles r;
  sim_ok : dev_ok (s_devices_synced_cycle f) (world f);
  sim_range : 0 <= s_devices_synced_cycle f <= psx_cycle_count f;
  sim_world :
    let d := next_distance (s_devices_synced_cycle f) (world f) in
    if s_devices_synced_cycle f =? psx_cycle_count f
    then world r = world f /\ (s_next_service_cycle f = 0 \/
           serviced (s_devices_synced_cycle f) (world f) /\ s_next_service_cycle f <= s_devices_synced_cycle f + d)
    else serviced (s_devices_synced_cycle f) (world f) /\
         world r = after (s_devices_synced_cycle f) (psx_cycle_count f - s_devices_synced_cycle f) (world f) /\
         psx_cycle_count f < s_next_service_cycle f <= s_devices_synced_cycle f + d;
}.

(** The probes' own step. *)
Definition probe_step (c : Z) (t : Z * Z * list Probe) : Z * Z * list Probe :=
  let '(a, b, l) := t in
  let a := u32 (a + c) in
  let '(a, l) := if 65536 <=? a then (0, l ++ [starvation_watchdog_check]) else (a, l) in
  let b := u32 (b + c) in
  if 1048576 <=? b then (a, 0, l ++ [starvation_ring_pc_sample]) else (a, b, l).

Definition set_throttles (t : Z * Z * list Probe) s : St :=
  s <| s_watchdog_throttle := t.1.1 |> <| s_pc_sample_throttle := t.1.2 |> <| probes := t.2 |>.

Lemma charge_probes_eq c s : charge_probes c s = set_throttles (probe_step c (throttles s)) s.
Proof.
  unfold charge_probes, throttles, probe_step. cbv zeta.
  match goal with |- context [65536 <=? s_watchdog_throttle ?x] => change (s_watchdog_throttle x) with (u32 (s_watchdog_throttle s + c)) end.
  destruct (65536 <=? u32 (s_watchdog_throttle s + c));
  match goal with |- context [1048576 <=? s_pc_sample_throttle ?x] => change (s_pc_sample_throttle x) with (u32 (s_pc_sample_throttle s + c)) end;
  by case_if.
Qed.

Lemma sim_probes c f r : sim f r -> sim (charge_probes c f) (charge_probes c r).
Proof.
  intros [H1 H2 H3 H4 H5 H6 H7]. rewrite !charge_probes_eq, H4. by split.
Qed.

Lemma next_distance_range n w : dev_ok n w -> 0 < next_distance n w <= devices_cycles_to_next_internal_event n w /\ next_distance n w <= 16384.
Proof. intros H. pose proof (law_next _ _ H). unfold next_distance, PSX_DEADLINE_HARD_CAP. cbv zeta. case_if; lia. Qed.

(** Catching up brings the world to the reference's. *)
Lemma sim_world_after f r :
  sim f r -> s_devices_synced_cycle f < psx_cycle_count f -> psx_cycle_count f < 2 ^ 64 ->
  world r = after (s_devices_synced_cycle f) (psx_cycle_count f - s_devices_synced_cycle f) (world f) /\
  serviced (s_devices_synced_cycle f) (world f).
Proof.
  intros [_ _ _ _ _ _ H] Hlt _. cbv zeta in H. destruct (Z.eqb_spec (s_devices_synced_cycle f) (psx_cycle_count f)); [lia|].
  tauto.
Qed.

Lemma sim_modes_split f r :
  sim f r -> g_event_step_conservative f = false /\ s_in_device_service f = false /\ g_event_step_conservative r = true.
Proof. intros H. pose proof (sim_modes _ _ H) as E. apply pair_eq in E as [E1 E3]. apply pair_eq in E1 as [E1 E2]. done. Qed.

(** A sync shows the guest the reference's devices. *)
Lemma sim_sync f r :
  sim f r -> psx_cycle_count f < 2 ^ 64 ->
  sim (psx_devices_mmio_sync f) (psx_devices_mmio_sync r) /\
  world (psx_devices_mmio_sync f) = world r /\ world (psx_devices_mmio_sync r) = world r /\
  s_devices_synced_cycle (psx_devices_mmio_sync f) = psx_cycle_count f /\
  psx_cycle_count (psx_devices_mmio_sync f) = psx_cycle_count f /\
  psx_cycle_count (psx_devices_mmio_sync r) = psx_cycle_count f /\
  s_next_service_cycle (psx_devices_mmio_sync f) = 0.
Proof.
  intros Hs Hb. destruct (sim_modes_split _ _ Hs) as (M1 & M2 & M3). pose proof Hs as [S1 S2 S3 S4 S5 S6 S7]. cbv zeta in S7.
  assert (psx_devices_mmio_sync r = r <| s_next_service_cycle := 0 |>) as ->.
  { unfold psx_devices_mmio_sync. rewrite S2, Z.eqb_refl. done. }
  unfold psx_devices_mmio_sync. cbv zeta.
  destruct (Z.eqb_spec (s_devices_synced_cycle f) (psx_cycle_count f)) as [E|E]; cbn [negb].
  - destruct S7 as [W1 W2]. split; [|split; [exact (eq_sym W1)|done]].
    split; try done. cbv zeta.
    change (if s_devices_synced_cycle f =? psx_cycle_count f then world r = world f /\ (0 = 0 \/
           serviced (s_devices_synced_cycle f) (world f) /\ 0 <= s_devices_synced_cycle f +
             next_distance (s_devices_synced_cycle f) (world f)) else
       serviced (s_devices_synced_cycle f) (world f) /\
         world r = after (s_devices_synced_cycle f) (psx_cycle_count f - s_devices_synced_cycle f) (world f) /\
         psx_cycle_count f < 0 <= s_devices_synced_cycle f +
             next_distance (s_devices_synced_cycle f) (world f)).
    rewrite E, Z.eqb_refl. split; [done|by left].
  - destruct S7 as (W1 & W2 & W3).
    pose proof (service_to_now_spec f M2 ltac:(lia) Hb S5) as Hspec. cbv zeta in Hspec. rewrite <- W2 in Hspec.
    rewrite Hspec. split; [|done]. split; try done.
    + change (dev_ok (psx_cycle_count f) (world r)). rewrite W2.
      pose proof (after_good (s_devices_synced_cycle f) (psx_cycle_count f - s_devices_synced_cycle f) (world f) S5 ltac:(lia) ltac:(lia)) as [G _].
      cbn [fst snd] in G. by replace (s_devices_synced_cycle f + (psx_cycle_count f - s_devices_synced_cycle f)) with (psx_cycle_count f) in G by lia.
    + change (0 <= psx_cycle_count f <= psx_cycle_count f). lia.
    + cbv zeta. match goal with |- if ?b then _ else _ => change b with (psx_cycle_count f =? psx_cycle_count f) end.
      rewrite Z.eqb_refl. split; [done|by left].
Qed.

(** Between syncs the guest sees the reference's interrupt lines. *)
Lemma sim_istat f r : sim f r -> psx_cycle_count f < 2 ^ 64 ->
  i_stat (world f) = i_stat (world r).
Proof.
  intros Hs Hb. pose proof Hs as [S1 S2 S3 S4 S5 S6 S7]. cbv zeta in S7.
  destruct (Z.eqb_spec (s_devices_synced_cycle f) (psx_cycle_count f)) as [E|E]; [by destruct S7 as [-> _]|].
  destruct S7 as (W1 & W2 & W3). pose proof (next_distance_range _ _ S5). rewrite W2. unfold after. unfold serviced in W1. rewrite W1.
  rewrite law_steps by (done || lia). symmetry. by apply law_quiet; (done || lia).
Qed.

(** The reference's devices are where the fast path's will be. *)
Lemma sim_ref f r :
  sim f r -> psx_cycle_count f < 2 ^ 64 ->
  dev_ok (psx_cycle_count f) (world r) /\
  forall c, 0 < c -> after (psx_cycle_count f) c (world r) =
    after (s_devices_synced_cycle f) (psx_cycle_count f + c - s_devices_synced_cycle f) (world f).
Proof.
  intros [S1 S2 S3 S4 S5 S6 S7] Hb. cbv zeta in S7.
  destruct (Z.eqb_spec (s_devices_synced_cycle f) (psx_cycle_count f)) as [E|E].
  - destruct S7 as [-> _]. rewrite E in *. split; [done|]. intros c Hc. f_equal. lia.
  - destruct S7 as (W1 & -> & W3).
    pose proof (after_good (s_devices_synced_cycle f) (psx_cycle_count f - s_devices_synced_cycle f) (world f) S5 ltac:(lia) ltac:(lia)) as [G _].
    cbn [fst snd] in G.
    pose proof (fun c Hc => after_add (s_devices_synced_cycle f) (psx_cycle_count f - s_devices_synced_cycle f) c (world f) S5
      ltac:(lia) Hc ltac:(lia)) as A.
    replace (s_devices_synced_cycle f + (psx_cycle_count f - s_devices_synced_cycle f)) with (psx_cycle_count f) in G, A by lia.
    split; [done|]. intros c Hc. rewrite <- A by lia. f_equal. lia.
Qed.

Lemma sim_charge c f r :
  sim f r -> 0 <= c < 2 ^ 32 -> psx_cycle_count f + c < 2 ^ 64 - 2 ^ 32 ->
  sim (psx_advance_cycles c f) (psx_advance_cycles c r) /\
  psx_cycle_count (psx_advance_cycles c f) = psx_cycle_count f + c.
Proof.
  intros Hs Hc Hb. unfold psx_advance_cycles. destruct (Z.eqb_spec c 0) as [->|Hc0]; [split; [done|lia]|].
  destruct (sim_modes_split _ _ Hs) as (M1 & M2 & M3). destruct (sim_ref _ _ Hs ltac:(lia)) as [Hok Hadd].
  pose proof Hs as [S1 S2 S3 S4 S5 S6 S7]. cbv zeta in S7. rewrite M1, M2, M3. cbv zeta.
  rewrite exact_spec by (done || rewrite ?S1; done || lia). rewrite u64_id by lia.
  specialize (Hadd c ltac:(lia)).
  set (r1 := r <| psx_cycle_count := psx_cycle_count r + c |> <| world := after (psx_cycle_count r) c (world r) |>
      <| s_devices_synced_cycle := psx_cycle_count r + c |> <| s_next_service_cycle := 0 |>).
  set (f1 := f <| psx_cycle_count := psx_cycle_count f + c |>).
  assert (forall f2, sim f2 r1 -> psx_cycle_count f2 = psx_cycle_count f + c ->
    sim (charge_probes c f2) (charge_probes c r1) /\ psx_cycle_count (charge_probes c f2) = psx_cycle_count f + c) as Hfin.
  { intros f2 H1 H2. split; [by apply sim_probes|]. rewrite charge_probes_eq. exact H2. }
  change (s_next_service_cycle f1) with (s_next_service_cycle f). change (psx_cycle_count f1) with (psx_cycle_count f + c).
  assert (world r1 = after (s_devices_synced_cycle f) (psx_cycle_count f + c - s_devices_synced_cycle f) (world f)) as Hw
    by (change (world r1) with (after (psx_cycle_count r) c (world r)); by rewrite S1).
  assert (psx_cycle_count r1 = psx_cycle_count f + c) as C1 by (change (psx_cycle_count r + c = psx_cycle_count f + c); lia).
  assert (s_devices_synced_cycle r1 = psx_cycle_count r1 /\ throttles r1 = throttles r /\
    g_event_step_conservative r1 = true) as (Y1 & T1 & G1) by done.
  assert (throttles f1 = throttles f /\ g_event_step_conservative f1 = false /\ s_in_device_service f1 = false) as (T2 & G2 & I2) by done.
  assert (psx_cycle_count f1 = psx_cycle_count f + c /\ s_devices_synced_cycle f1 = s_devices_synced_cycle f /\
    world f1 = world f /\ s_next_service_cycle f1 = s_next_service_cycle f) as (C2 & Y2 & W2 & N2) by done.
  destruct ((s_next_service_cycle f =? 0) || (s_next_service_cycle f <=? psx_cycle_count f + c)) eqn:Edue.
  - clearbody r1 f1. pose proof (service_to_now_spec f1 I2 ltac:(lia) ltac:(lia)) as Hspec. cbv zeta in Hspec.
    rewrite Y2, W2, C2, <- Hw in Hspec. rewrite Hspec by done.
    pose proof (after_good (s_devices_synced_cycle f) (psx_cycle_count f + c - s_devices_synced_cycle f) (world f) S5 ltac:(lia) ltac:(lia)) as [G G'].
    cbn [fst snd] in G, G'. rewrite <- Hw in G, G'.
    replace (s_devices_synced_cycle f + (psx_cycle_count f + c - s_devices_synced_cycle f)) with (psx_cycle_count f + c) in G, G' by lia.
    pose proof (next_distance_range _ _ G) as [R1 R2].
    set (f2 := f1 <| world := world r1 |> <| s_devices_synced_cycle := _ |> <| s_next_service_cycle := _ |>).
    assert (psx_cycle_count f2 = psx_cycle_count f1 /\ s_devices_synced_cycle f2 = psx_cycle_count f + c /\
      world f2 = world r1 /\ throttles f2 = throttles f1 /\ g_event_step_conservative f2 = g_event_step_conservative f1 /\
      s_in_device_service f2 = s_in_device_service f1 /\
      s_next_service_cycle f2 = u64 (psx_cycle_count f + c + next_distance (psx_cycle_count f + c) (world r1)))
      as (C3 & Y3 & W3 & T3 & G3 & I3 & N3) by done.
    clearbody f2. apply Hfin; [|congruence]. split; try congruence.
    + lia.
    + cbv zeta. rewrite Y3, C3, C2, Z.eqb_refl, W3. split; [done|]. right. split; [done|]. rewrite N3, u64_id by lia. lia.
  - apply orb_false_iff in Edue as [E1 E2]. apply Z.eqb_neq in E1. apply Z.leb_gt in E2.
    assert (serviced (s_devices_synced_cycle f) (world f) /\ s_next_service_cycle f <= s_devices_synced_cycle f +
      next_distance (s_devices_synced_cycle f) (world f)) as [Q1 Q2].
    { destruct (s_devices_synced_cycle f =? psx_cycle_count f); [|tauto]. destruct S7 as [_ [?|?]]; [lia|done]. }
    clearbody r1 f1. apply Hfin; [|exact C2]. split; try congruence.
    + lia.
    + cbv zeta. rewrite Y2, C2, W2, N2. destruct (Z.eqb_spec (s_devices_synced_cycle f) (psx_cycle_count f + c)); [lia|].
      split; [done|]. split; [exact Hw|lia].
Qed.

Definition op_ok (o : Op) : Prop :=
  match o with
  | Charge c => 0 <= c < 2 ^ 32
  | Access f => forall n w, dev_ok n w -> dev_ok n (f n w).1
  end.

Lemma sim_op o f r :
  sim f r -> op_ok o -> psx_cycle_count f + op_cycles o < 2 ^ 64 - 2 ^ 32 ->
  (run_op o f).1 = (run_op o r).1 /\ sim (run_op o f).2 (run_op o r).2 /\
  psx_cycle_count (run_op o f).2 = psx_cycle_count f + op_cycles o.
Proof.
  intros Hs Ho Hb. destruct o as [c|g]; cbn [run_op op_cycles] in *.
  - cbn [fst snd]. split; [done|]. by apply sim_charge.
  - destruct (sim_sync _ _ Hs ltac:(lia)) as (H & W1 & W2 & Y1 & C1 & C2 & N1). cbv zeta. rewrite C1, C2, W1, W2.
    pose proof H as [S1 S2 S3 S4 S5 S6 S7]. rewrite Y1, W1 in S5. specialize (Ho _ _ S5).
    destruct (g (psx_cycle_count f) (world r)) as [w v]. cbn [fst snd] in *. split; [done|].
    split; [|change (psx_cycle_count (psx_devices_mmio_sync f) = psx_cycle_count f + 0); lia].
    revert H W1 W2 Y1 C1 C2 N1 S1 S2 S3 S4 S6. generalize (psx_devices_mmio_sync f), (psx_devices_mmio_sync r).
    intros f1 r1 H W1 W2 Y1 C1 C2 N1 S1 S2 S3 S4 S6. split; try done.
    + change (dev_ok (s_devices_synced_cycle f1) w). by rewrite Y1.
    + cbv zeta. set (f2 := f1 <| world := w |>).
      assert (s_devices_synced_cycle f2 = s_devices_synced_cycle f1 /\ psx_cycle_count f2 = psx_cycle_count f1 /\
        s_next_service_cycle f2 = s_next_service_cycle f1) as (-> & -> & ->) by done.
      rewrite Y1, C1, Z.eqb_refl. split; [done|by left].
Qed.

(** C17: over devices that keep [DeviceLaws] (advanced up to the announced distance in
    one chunk they reach the state of advancing cycle by cycle, raise no line before
    it, and are serviced idempotently), the event-deadline fast path shows the guest
    the same machine as exact per-cycle servicing.  The root counters and the VBlank
    clock keep the laws (Board.v); the serial port and the CD-ROM controller do not
    (a serial event landed on is served late, a CD-ROM response completed inside a
    chunk holds the read stream for the whole chunk; the DMA controller is not
    instantiated), so for those the comment of psx_cycles.c that the paths are
    identical is not established.  Run any sequence of cycle charges and
    device-register accesses, however long the charges, once on the production
    path, which lets the devices lag and replays the gap in event-bounded chunks, and once with
    g_event_step_conservative set, which steps every device one cycle at a
    time: after every operation the clock, the lines of I_STAT and the value
    the access returned are the same, the starvation probes have been called
    alike, and once synced the devices are in the same state. *)
Theorem deadline_path_exact (ops : list Op) s :
  (g_event_step_conservative s, s_in_device_service s) = (false, false) ->
  s_devices_synced_cycle s = psx_cycle_count s -> s_next_service_cycle s = 0 ->
  dev_ok (psx_cycle_count s) (world s) -> Forall op_ok ops ->
  0 <= psx_cycle_count s -> psx_cycle_count s + total_cycles ops < 2 ^ 64 - 2 ^ 32 ->
  let fast := run_ops ops s in
  let exact := run_ops ops (s <| g_event_step_conservative := true |>) in
  fast.1 = exact.1 /\ probes fast.2 = probes exact.2 /\
  world (psx_devices_mmio_sync fast.2) = world (psx_devices_mmio_sync exact.2).
Proof.
  intros Hm Hy Hn Hok Hops H0 Hb. cbv zeta. apply pair_eq in Hm as [M1 M2].
  assert (sim s (s <| g_event_step_conservative := true |>)) as Hs.
  { set (r := s <| g_event_step_conservative := true |>).
    assert (psx_cycle_count r = psx_cycle_count s /\ s_devices_synced_cycle r = s_devices_synced_cycle s /\
      g_event_step_conservative r = true /\ throttles r = throttles s /\ world r = world s) as (C & Y & G & T & Wr) by done.
    clearbody r. split; try congruence; [lia|]. cbv zeta. rewrite Hy, Z.eqb_refl. split; [done|by left]. }
  revert Hs. generalize (s <| g_event_step_conservative := true |>). intros r Hs. clear Hy Hn Hok M1 M2.
  assert (0 <= total_cycles ops) as Ht by
    (clear Hb; induction Hops as [|[c|g] l Ho Hl IH]; cbn [total_cycles foldr op_cycles op_ok] in *; unfold total_cycles in *; lia).
  revert s r Hs H0 Hb. induction Hops as [|o l Ho Hl IH]; intros f r Hs H0 Hb.
  - split; [done|]. split; [|].
    + pose proof (sim_throttles _ _ Hs) as E. by apply pair_eq in E as [_ E].
    + change (psx_cycle_count f + 0 < 2 ^ 64 - 2 ^ 32) in Hb. destruct (sim_sync _ _ Hs ltac:(lia)) as (_ & E1 & E2 & _). cbn [run_ops snd]. congruence.
  - change (total_cycles (o :: l)) with (op_cycles o + total_cycles l) in *.
    assert (0 <= op_cycles o /\ 0 <= total_cycles l) as [P1 P2].
    { split; [destruct o; cbn [op_ok op_cycles] in *; lia|].
      clear -Hl. induction Hl as [|[c|g] l Ho Hl IH]; cbn [total_cycles foldr op_cycles op_ok] in *; unfold total_cycles in *; lia. }
    destruct (sim_op o f r Hs Ho ltac:(lia)) as (E1 & E2 & E3). cbn [run_ops].
    destruct (run_op o f) as [v f1], (run_op o r) as [v' r1]. cbn [fst snd] in *. subst v'.
    destruct (IH P2 f1 r1 E2 ltac:(lia) ltac:(lia)) as (I1 & I2 & I3).
    destruct (run_ops l f1) as [tr f2], (run_ops l r1) as [tr' r2]. cbn [fst snd] in *.
    split; [|done]. rewrite I1, (sim_count _ _ E2), (sim_istat _ _ E2) by lia. done.
Qed.

(** ** The clock other components charge *)

Definition clock_inv s : Prop :=
  (g_event_step_conservative s, s_in_device_service s) = (false, false) /\
  0 <= s_devices_synced_cycle s <= psx_cycle_count s /\ dev_ok (s_devices_synced_cycle s) (world s).

Lemma advance_cycles_count c s :
  clock_inv s -> 0 <= c < 2 ^ 32 -> psx_cycle_count s + c < 2 ^ 63 ->
  clock_inv (psx_advance_cycles c s) /\ psx_cycle_count (psx_advance_cycles c s) = psx_cycle_count s + c.
Proof.
  intros (Hm & Hy & Hok) Hc Hb. apply pair_eq in Hm as [M1 M2]. unfold psx_advance_cycles.
  destruct (Z.eqb_spec c 0) as [->|Hc0]; [split; [split; [by rewrite M1, M2|done]|lia]|].
  rewrite M1, M2. cbv zeta. rewrite u64_id by lia. set (s1 := s <| psx_cycle_count := psx_cycle_count s + c |>).
  assert (psx_cycle_count s1 = psx_cycle_count s + c /\ s_devices_synced_cycle s1 = s_devices_synced_cycle s /\
    world s1 = world s /\ g_event_step_conservative s1 = false /\ s_in_device_service s1 = false) as (C1 & Y1 & W1 & G1 & I1) by done.
  clearbody s1.
  assert (forall s2, clock_inv s2 /\ psx_cycle_count s2 = psx_cycle_count s + c ->
    clock_inv (charge_probes c s2) /\ psx_cycle_count (charge_probes c s2) = psx_cycle_count s + c) as Hp
    by (intros s2 H2; rewrite charge_probes_eq; exact H2).
  apply Hp. case_if.
  - rewrite service_to_now_spec by (rewrite ?Y1, ?W1; done || lia). cbv zeta. rewrite Y1, W1, C1.
    set (s2 := s1 <| world := _ |> <| s_devices_synced_cycle := _ |> <| s_next_service_cycle := _ |>).
    assert (psx_cycle_count s2 = psx_cycle_count s1 /\ s_devices_synced_cycle s2 = psx_cycle_count s + c /\
      world s2 = after (s_devices_synced_cycle s) (psx_cycle_count s + c - s_devices_synced_cycle s) (world s) /\
      g_event_step_conservative s2 = g_event_step_conservative s1 /\ s_in_device_service s2 = s_in_device_service s1)
      as (C2 & Y2 & W2 & G2 & I2) by done. clearbody s2.
    split; [|congruence]. split; [by rewrite G2, I2, G1, I1|]. split; [lia|]. rewrite Y2, W2.
    pose proof (after_good (s_devices_synced_cycle s) (psx_cycle_count s + c - s_devices_synced_cycle s) (world s) Hok ltac:(lia) ltac:(lia)) as [G _].
    cbn [fst snd] in G. by replace (s_devices_synced_cycle s + (psx_cycle_count s + c - s_devices_synced_cycle s)) with (psx_cycle_count s + c) in G by lia.
  - split; [|done]. split; [by rewrite G1, I1|]. split; [lia|]. by rewrite Y1, W1.
Qed.

(** Setting g_event_step_conservative between a charge and the next sync loses
    time: the exact path takes the lagging devices as up to date, so they never
    see the cycles of the gap. *)
Lemma toggle_loses_gap c s :
  g_event_step_conservative s = true -> 0 < c < 2 ^ 32 ->
  0 <= s_devices_synced_cycle s < psx_cycle_count s -> psx_cycle_count s + c < 2 ^ 64 ->
  dev_ok (psx_cycle_count s) (world s) ->
  world (psx_advance_cycles c s) = after (psx_cycle_count s) c (world s) /\
  s_devices_synced_cycle (psx_advance_cycles c s) = psx_cycle_count s + c.
Proof.
  intros Hg Hc Hy Hb Hok. unfold psx_advance_cycles. destruct (Z.eqb_spec c 0); [lia|]. rewrite Hg. cbv zeta.
  rewrite exact_spec by (done || lia). by rewrite charge_probes_eq.
Qed.

End Replay.

End Clock.
