(* ===== verification/CpuTiming.v ===== *)
(** * CPU timing

    The cycle cost of guest instructions: the load-delay interlock of
    src/runtime/include/psx_cyc.h and the load costs of src/runtime/src/memory.c,
    the mult/div and GTE completion deadlines of src/runtime/src/psx_cycles.c,
    the register masks of src/runtime/include/psx_instr_cost.h and the
    instruction-cache fetch cost of src/runtime/src/psx_icache.c, in the build
    with PSX_ENABLE_BLOCK_CYCLES, outside lockstep replays.

    The clock is an interface, [GuestClock], that Scheduler.v implements. *)

From Stdlib Require Import Ascii String.
From S2P Require Import Prelude.
Import Datatypes.

Module Timing.

(** ** State *)

#[projections(primitive)] Record State (C : Type) := mkState {
  read_absorb : list Z; read_absorb_which : Z; read_fudge : Z; ld_which_t : Z; ld_absorb : Z;
  muldiv_ts_done : Z; gte_ts_done : Z; s_icache_tv : list Z; clock : C
}.
Arguments mkState {C}. Arguments read_absorb {C} s. Arguments read_absorb_which {C} s. Arguments read_fudge {C} s.
Arguments ld_which_t {C} s. Arguments ld_absorb {C} s. Arguments muldiv_ts_done {C} s. Arguments gte_ts_done {C} s.
Arguments s_icache_tv {C} s. Arguments clock {C} s.
#[export] Instance eta_State C : Eta (State C) := fun s =>
  mkState (read_absorb s) (read_absorb_which s) (read_fudge s) (ld_which_t s) (ld_absorb s) (muldiv_ts_done s)
    (gte_ts_done s) (s_icache_tv s) (clock s).

(** The clock: psx_advance_cycles adds to psx_cycle_count. *)
Class GuestClock (C : Type) := {
  psx_advance_cycles : Z -> C -> C;
  psx_cycle_count : C -> Z;
  clock_ok : C -> Prop;
  advance_count c x : clock_ok x -> 0 <= c < 2 ^ 32 -> psx_cycle_count x + c < 2 ^ 63 ->
    clock_ok (psx_advance_cycles c x) /\ psx_cycle_count (psx_advance_cycles c x) = psx_cycle_count x + c;
}.

(** The process environment, and atoi of the C library. *)
Class Env := { getenv : string -> option string; atoi : string -> Z }.

(** First character of a string; NUL for the empty one. *)
Definition ch0 (e : string) : ascii := match e with EmptyString => Ascii.zero | String a _ => a end.
Definition is_0 (e : string) : bool := Ascii.eqb (ch0 e) (Ascii.ascii_of_nat 48).
Definition is_empty (e : string) : bool := match e with EmptyString => true | _ => false end.

(** ** Instruction registers *)

Definition psx_instr_base_cycles (insn : Z) : Z := 1.

Definition psx_cyc_dep_res_mask (insn : Z) : Z :=
  let op := Z.shiftr insn 26 in
  let rs := Z.land (Z.shiftr insn 21) 0x1F in
  let rt := Z.land (Z.shiftr insn 16) 0x1F in
  let rd := Z.land (Z.shiftr insn 11) 0x1F in
  let M_rs := Z.shiftl 1 rs in
  let M_rt := Z.shiftl 1 rt in
  let M_rd := Z.shiftl 1 rd in
  let among l x := existsb (Z.eqb x) l in
  if op =? 0x00 then
    let fn := Z.land insn 0x3F in
    if among [0x00; 0x02; 0x03] fn then Z.lor M_rt M_rd
    else if among [0x04; 0x06; 0x07] fn then Z.lor (Z.lor M_rs M_rt) M_rd
    else if among [0x08; 0x09] fn then Z.lor M_rs M_rd
    else if among [0x10; 0x12] fn then M_rd
    else if among [0x11; 0x13] fn then M_rs
    else if among [0x18; 0x19; 0x1A; 0x1B] fn then Z.lor M_rs M_rt
    else if among [0x20; 0x21; 0x22; 0x23; 0x24; 0x25; 0x26; 0x27; 0x2A; 0x2B] fn
    then Z.lor (Z.lor M_rs M_rt) M_rd
    else 0
  else if op =? 0x01 then
    let link := if Z.land rt 0x1E =? 0x10 then Z.shiftl 1 31 else 0 in
    Z.lor M_rs link
  else if op =? 0x02 then 0
  else if op =? 0x03 then Z.shiftl 1 31
  else if among [0x04; 0x05] op then Z.lor M_rs M_rt
  else if among [0x06; 0x07] op then M_rs
  else if among [0x08; 0x09; 0x0A; 0x0B; 0x0C; 0x0D; 0x0E] op then Z.lor M_rs M_rt
  else if op =? 0x0F then M_rt
  else if among [0x20; 0x21; 0x22; 0x23; 0x24; 0x25; 0x26] op then M_rs
  else if among [0x28; 0x29; 0x2A; 0x2B; 0x2E] op then Z.lor M_rs M_rt
  else 0.

Section Costs.
Context {C : Type} `{K : GuestClock C} `{EnvI : Env}.
Abbreviation St := (State C).
Implicit Types s : St.

Definition now (s : St) : Z := psx_cycle_count (clock s).
Definition advance (c : Z) (s : St) : St := s <| clock := psx_advance_cycles c (clock s) |>.
Definition set_absorb (r v : Z) (s : St) : St := s <| read_absorb := aset (read_absorb s) r v |>.

(** ** The load-delay interlock *)

Definition psx_cyc_base (s : St) : St :=
  let w := read_absorb_which s in
  if negb (aget (read_absorb s) w =? 0) then set_absorb w (u8 (aget (read_absorb s) w - 1)) s
  else advance 1 s.

(** __builtin_ctz, of a nonzero word. *)
Definition ctz (m : Z) : Z := Z.log2 (Z.land m (- m)).

(** The loop clears one bit per round: 32 rounds at most. *)
Definition psx_cyc_deps (reg_mask : Z) (s : St) : St :=
  let x :=
    pwhile 32 (fun x => negb (x.1 =? 0))
      (fun x => (Z.land x.1 (u32 (x.1 - 1)), aset x.2 (ctz x.1) 0))
      (Z.land reg_mask 0xFFFFFFFE, read_absorb s) in
  s <| read_absorb := x.2 |>.

Definition psx_cyc_lds (s : St) : St :=
  let lw := ld_which_t s in
  let s := set_absorb lw (u8 (ld_absorb s)) s in
  s <| read_fudge := lw |>
    <| read_absorb_which := u8 (Z.lor (read_absorb_which s) (Z.land lw 0x1F)) |>
    <| ld_which_t := 0x20 |>.

Definition psx_cyc_step (reg_mask : Z) (s : St) : St :=
  psx_cyc_lds (psx_cyc_deps reg_mask (psx_cyc_base s)).

(** ** Loads *)

Definition s_mw : bool := match getenv "PSX_MMIO_WAIT" with Some e => negb (is_0 e) | None => true end.
Definition s_ld : bool := match getenv "PSX_LOAD_DELAY" with Some e => negb (is_0 e) | None => true end.
Definition s_pp : Z :=
  match getenv "PSX_POLL_PROOF" with Some e => if is_empty e then 0 else atoi e | None => 0 end.

Definition between (lo hi x : Z) : bool := (lo <=? x) && (x <=? hi).

Definition psx_mmio_read_wait (phys size : Z) : Z :=
  if phys <? 0x00800000 then 3
  else if between 0x1FC00000 0x1FC7FFFF phys then 0
  else if between 0x1F000000 0x1F7FFFFF phys then 0
  else if between 0x1F801000 0x1F802FFF phys then
    if negb s_mw then 0
    else if between 0x1F801C00 0x1F801FFF phys then if size =? 4 then 36 else 16
    else if between 0x1F801800 0x1F80180F phys then 6 * size
    else if between 0x1F801810 0x1F801817 phys then 1
    else if between 0x1F801820 0x1F801827 phys then 1
    else if between 0x1F801000 0x1F801023 phys then 1
    else if between 0x1F801040 0x1F80104F phys then 1
    else if between 0x1F801050 0x1F80105F phys then 1
    else if between 0x1F801070 0x1F801077 phys then 1
    else if between 0x1F801080 0x1F8010FF phys then 1
    else if between 0x1F801100 0x1F80113F phys then 1
    else 0
  else 0.

Definition psx_cyc_readmem (phys size compl_cost arm_rt : Z) (s : St) : St :=
  let s := set_absorb (read_absorb_which s) 0 s in
  let s := s <| read_absorb_which := 0 |> in
  if between 0x1F800000 0x1F8003FF phys then
    s <| ld_absorb := 0 |> <| ld_which_t := u8 arm_rt |>
  else
    let s := advance (Z.land (Z.shiftr (read_fudge s) 4) 2) s in
    let region := psx_mmio_read_wait phys size in
    let cost := u32 (region + compl_cost) in
    let s := s <| ld_absorb := cost |> in
    let s := advance cost s in
    let s := s <| ld_which_t := u8 arm_rt |> in
    if (phys <? 0x00800000) && (0 <? s_pp) then advance (u32 s_pp) s else s.

Definition psx_cyc_load_timing (addr size rt reg_mask : Z) (s : St) : St :=
  if negb s_ld then s else
  let s := psx_cyc_base s in
  let s := psx_cyc_deps reg_mask s in
  let s := if ld_which_t s =? rt then s <| ld_which_t := 0 |> else s in
  let s := psx_cyc_lds s in
  psx_cyc_readmem (Z.land addr 0x1FFFFFFF) size 2 rt s.

(** The timing of psx_cyc_load_word, _half and _byte and of psx_cyc_lwc2_read;
    the value is the uncharged psx_read_*. *)
Definition psx_cyc_load_word (addr rt reg_mask : Z) : St -> St := psx_cyc_load_timing addr 4 rt reg_mask.
Definition psx_cyc_load_half (addr rt reg_mask : Z) : St -> St := psx_cyc_load_timing addr 2 rt reg_mask.
Definition psx_cyc_load_byte (addr rt reg_mask : Z) : St -> St := psx_cyc_load_timing addr 1 rt reg_mask.
Definition psx_cyc_lwc2_read (addr : Z) : St -> St := psx_cyc_readmem (Z.land addr 0x1FFFFFFF) 4 1 0x20.

(** ** Multiplication, division and GTE deadlines *)

Definition PSX_MULT_TAB24 : list Z :=
  [14; 14; 14; 14; 14; 14; 14; 14; 14; 14; 14; 14;
   10; 10; 10; 10; 10; 10; 10; 10; 10;
   7; 7; 7].

(** __builtin_clz, of a nonzero 32-bit word. *)
Definition psx_clz32 (v : Z) : Z := 31 - Z.log2 v.

Definition psx_mult_latency_s (rs : Z) : Z :=
  aget PSX_MULT_TAB24 (psx_clz32 (Z.lor (Z.lxor rs (u32 (Z.shiftr (s32 rs) 31))) 0x400)).
Definition psx_mult_latency_u (rs : Z) : Z := aget PSX_MULT_TAB24 (psx_clz32 (Z.lor rs 0x400)).

Definition psx_muldiv_set (latency : Z) (s : St) : St := s <| muldiv_ts_done := u64 (now s + latency) |>.

Definition psx_muldiv_stall (s : St) : St :=
  if now s <? muldiv_ts_done s then
    if muldiv_ts_done s =? u64 (now s + 1) then s <| muldiv_ts_done := u64 (muldiv_ts_done s - 1) |> else
    let stall := u32 (muldiv_ts_done s - now s) in
    let w := read_absorb_which s in
    let give := aget (read_absorb s) w in
    let s := set_absorb w (u8 (if stall <? give then give - stall else 0)) s in
    advance stall s
  else s.

Definition psx_gte_read (rt : Z) (s : St) : St :=
  let s :=
    if now s <? gte_ts_done s then
      let stall := u32 (gte_ts_done s - now s) in
      advance stall (s <| ld_absorb := stall |>)
    else s <| ld_absorb := 0 |> in
  s <| ld_which_t := u8 rt |>.

Definition PSX_GTE_LAT_M1 : list Z :=
  [14; 14; 0; 0; 0; 0; 7; 0; 0; 0; 0; 0; 5; 0; 0; 0;
   7; 7; 7; 18; 12; 0; 43; 0; 0; 0; 7; 16; 10; 0; 13; 0;
   29; 0; 0; 0; 0; 0; 0; 0; 4; 7; 16; 0; 0; 4; 4; 0;
   22; 0; 0; 0; 0; 0; 0; 0; 0; 0; 0; 0; 0; 4; 4; 38].

Definition psx_gte_cmd_latency (cmd : Z) : Z := aget PSX_GTE_LAT_M1 (Z.land cmd 0x3F).

Definition psx_gte_stall (s : St) : St :=
  if now s <? gte_ts_done s then advance (u32 (gte_ts_done s - now s)) s else s.

Definition psx_gte_set (latency : Z) (s : St) : St :=
  let s := if now s <? gte_ts_done s then advance (u32 (gte_ts_done s - now s)) s else s in
  s <| gte_ts_done := u64 (now s + latency) |>.

(** ** Instruction cache *)

Definition psx_icache_enabled : bool :=
  match getenv "PSX_ICACHE" with Some e => if is_empty e then true else negb (is_0 e) | None => true end.

Definition psx_icache_reset (s : St) : St :=
  s <| s_icache_tv := forZ 0 1024 (fun i tv => aset tv i 0x1) (s_icache_tv s) |>.

(** Refill of a line from the missing word: the tags and the cost. *)
Definition icache_refill (addr : Z) (tv : list Z) : list Z * Z :=
  let line := Z.land addr 0xFFFFFFF0 in
  let bidx := Z.shiftr (Z.land addr 0xFF0) 2 in
  let tv := aset tv (bidx + 0) (Z.lor (Z.lor line 0x0) 0x2) in
  let tv := aset tv (bidx + 1) (Z.lor (Z.lor line 0x4) 0x2) in
  let tv := aset tv (bidx + 2) (Z.lor (Z.lor line 0x8) 0x2) in
  let tv := aset tv (bidx + 3) (Z.lor (Z.lor line 0xC) 0x2) in
  forZ (Z.shiftr (Z.land addr 0xC) 2) 4
    (fun i x => (aset x.1 (bidx + i) (Z.ldiff (aget x.1 (bidx + i)) 0x2), x.2 + 1)) (tv, 3).

Definition psx_icache_fetch (addr : Z) (s : St) : St :=
  if negb psx_icache_enabled then s else
  let idx := Z.shiftr (Z.land addr 0xFFC) 2 in
  if aget (s_icache_tv s) idx =? addr then s else
  let s := set_absorb (read_absorb_which s) 0 s in
  let s := s <| read_absorb_which := 0 |> in
  if 0xA0000000 <=? addr then advance 4 s else
  let '(tv, cost) := icache_refill addr (s_icache_tv s) in
  advance cost (s <| s_icache_tv := tv |>).

(** ** The instruction cache against its specification *)

Definition line_of (addr : Z) : Z := addr / 16.
Definition set_of (addr : Z) : Z := (addr / 16) mod 256.
Definition word_of (addr : Z) : Z := (addr / 4) mod 4.

(** A cache line as the specification has it: the line held and its first valid word. *)
Abbreviation Cache := (gmap Z (Z * Z)).

Definition spec_hit (addr : Z) (m : Cache) : bool :=
  match m !! set_of addr with Some (la, w0) => (la =? line_of addr) && (w0 <=? word_of addr) | None => false end.
Definition spec_fetch (addr : Z) (m : Cache) : Cache * Z :=
  if 0xA0000000 <=? addr then (m, 4)
  else if spec_hit addr m then (m, 0)
  else (<[set_of addr := (line_of addr, word_of addr)]> m, 3 + (4 - word_of addr)).

Fixpoint spec_cost (l : list Z) (m : Cache) : Z :=
  match l with [] => 0 | a :: l => let '(m', c) := spec_fetch a m in c + spec_cost l m' end.

Definition fetchable (addr : Z) : Prop := is_u32 addr /\ addr mod 4 = 0.

(** The tags a specification cache stands for. *)
Definition tag_of (m : Cache) (l i : Z) : Z :=
  match m !! l with Some (la, w0) => la * 16 + 4 * i + (if w0 <=? i then 0 else 2) | None => 1 end.
Definition cached (tv : list Z) (m : Cache) : Prop :=
  length tv = 1024%nat /\
  (forall l i, 0 <= l < 256 -> 0 <= i < 4 -> aget tv (4 * l + i) = tag_of m l i) /\
  (forall l la w0, m !! l = Some (la, w0) -> la mod 256 = l /\ 0 <= la * 16 < 0xA0000000 /\ 0 <= w0 < 4).

Lemma idx_eq addr : is_u32 addr -> Z.shiftr (Z.land addr 0xFFC) 2 = 4 * set_of addr + word_of addr.
Proof.
  intros H. change 0xFFC with (2 ^ 12 - 2 ^ 2). rewrite land_field, Z.shiftr_div_pow2 by lia.
  change (2 ^ 2) with 4. change (2 ^ (12 - 2)) with 1024. rewrite Z.div_mul by lia. unfold set_of, word_of, is_u32 in *. dlia.
Qed.

Lemma bidx_eq addr : is_u32 addr -> Z.shiftr (Z.land addr 0xFF0) 2 = 4 * set_of addr.
Proof.
  intros H. change 0xFF0 with (2 ^ 12 - 2 ^ 4). rewrite land_field, Z.shiftr_div_pow2 by lia.
  change (2 ^ 4) with 16. change (2 ^ 2) with 4. change (2 ^ (12 - 4)) with 256. unfold set_of. dlia.
Qed.

Lemma word_eq addr : Z.shiftr (Z.land addr 0xC) 2 = word_of addr.
Proof.
  change 0xC with (2 ^ 4 - 2 ^ 2). rewrite land_field, Z.shiftr_div_pow2 by lia.
  change (2 ^ 2) with 4. change (2 ^ (4 - 2)) with 4. unfold word_of. by rewrite Z.div_mul by lia.
Qed.

Lemma invalid_tag la c : 0 <= c < 16 -> Z.land c 2 = 0 -> Z.lor (Z.lor (la * 16) c) 2 = la * 16 + (c + 2).
Proof.
  intros H Hc. rewrite <- Z.lor_assoc. assert (Z.lor c 2 = c + 2) as -> by (pose proof (Z.add_lor_land c 2); lia).
  assert (c + 2 < 16) by (destruct (Z.eq_dec c 14) as [->|]; [done|]; destruct (Z.eq_dec c 15) as [->|]; [done|lia]).
  apply (lor_add 4); lia.
Qed.

Lemma refill_spec addr tv :
  is_u32 addr -> length tv = 1024%nat ->
  let '(tv', cost) := icache_refill addr tv in
  cost = 3 + (4 - word_of addr) /\ length tv' = 1024%nat /\
  (forall i, 0 <= i < 4 -> aget tv' (4 * set_of addr + i) =
     line_of addr * 16 + 4 * i + (if word_of addr <=? i then 0 else 2)) /\
  (forall k, 0 <= k -> k < 4 * set_of addr \/ 4 * set_of addr + 4 <= k -> aget tv' k = aget tv k).
Proof.
  intros Hu Hl. unfold icache_refill. cbv zeta. rewrite bidx_eq, word_eq by done.
  assert (Z.land addr 0xFFFFFFF0 = line_of addr * 16) as ->.
  { change 0xFFFFFFF0 with (2 ^ 32 - 2 ^ 4). rewrite land_field by lia. change (2 ^ 4) with 16. change (2 ^ (32 - 4)) with 268435456.
    unfold line_of, is_u32 in *. rewrite Z.mod_small; [done|dlia]. }
  assert (0 <= set_of addr < 256) as Hs by (unfold set_of; dlia).
  assert (0 <= word_of addr < 4) as Hw by (unfold word_of; dlia).
  set (b := 4 * set_of addr) in *. assert (0 <= b <= 1020) as Hb by (unfold b; lia). set (la := line_of addr) in *. 
  rewrite !invalid_tag by (done || lia).
  set (tv1 := aset (aset (aset (aset tv _ _) _ _) _ _) _ _).
  assert (length tv1 = 1024%nat) as H1 by (unfold tv1; by rewrite !length_aset).
  assert (forall i, 0 <= i < 4 -> aget tv1 (b + i) = la * 16 + (4 * i + 2)) as H2.
  { intros i Hi. assert (i = 0 \/ i = 1 \/ i = 2 \/ i = 3) as [-> | [-> | [-> | ->]]] by lia; unfold tv1;
      repeat first [rewrite aget_aset_eq by (rewrite ?length_aset; lia) | rewrite aget_aset_ne by lia]; lia. }
  assert (forall k, 0 <= k -> k < b \/ b + 4 <= k -> aget tv1 k = aget tv k) as H3
    by (intros k Hk Hout; unfold tv1; rewrite !aget_aset_ne by lia; done).
  clearbody tv1. 
  pose proof (forZ_ind (fun n x => x.2 = 3 + (n - word_of addr) /\ length x.1 = 1024%nat /\
    (forall i, 0 <= i < 4 -> aget x.1 (b + i) = la * 16 + 4 * i + (if (word_of addr <=? i) && (i <? n) then 0 else 2)) /\
    (forall k, 0 <= k -> k < b \/ b + 4 <= k -> aget x.1 k = aget tv k)) (word_of addr) 4
    (fun i x => (aset x.1 (b + i) (Z.ldiff (aget x.1 (b + i)) 2), x.2 + 1)) (tv1, 3)) as Hloop.
  destruct Hloop as (F1 & F2 & F3 & F4).
  - lia.
  - cbn [fst snd]. split; [lia|]. split; [done|]. split; [|done]. intros i Hi. rewrite H2 by done.
    destruct (Z.leb_spec (word_of addr) i), (Z.ltb_spec i (word_of addr)); cbn [andb]; lia.
  - intros n [x c] Hn (I1 & I2 & I3 & I4). cbn [fst snd] in *. split; [lia|]. split; [by rewrite length_aset|].
    split; [|intros k Hk Hout; rewrite aget_aset_ne by lia; by apply I4].
    intros i Hi. destruct (Z.eq_dec i n) as [->|Hne].
    + rewrite aget_aset_eq by lia. rewrite I3 by lia. rewrite Z.ltb_irrefl, andb_false_r.
      replace (la * 16 + 4 * n + 2) with (la * 16 + (4 * n + 2)) by lia. rewrite ldiff_low by lia.
      assert (Z.ldiff (4 * n + 2) 2 = 4 * n) as -> by (assert (n = 0 \/ n = 1 \/ n = 2 \/ n = 3) as [-> | [-> | [-> | ->]]] by lia; done).
      destruct (Z.leb_spec (word_of addr) n), (Z.ltb_spec n (n + 1)); cbn [andb]; lia.
    + rewrite aget_aset_ne by lia. rewrite I3 by lia. f_equal.
      destruct (Z.leb_spec (word_of addr) i), (Z.ltb_spec i n), (Z.ltb_spec i (n + 1)); cbn [andb]; lia.
  - revert F1 F2 F3 F4. generalize (forZ (word_of addr) 4 (fun i x => (aset x.1 (b + i) (Z.ldiff (aget x.1 (b + i)) 2), x.2 + 1)) (tv1, 3)).
    intros [x c]. cbn [fst snd]. intros F1 F2 F3 F4. split; [lia|]. split; [done|]. split; [|done]. intros i Hi. rewrite F3 by done.
    f_equal. destruct (Z.leb_spec (word_of addr) i), (Z.ltb_spec i 4); cbn [andb]; lia.
Qed.

Lemma spec_fetch_cached addr m tv :
  fetchable addr -> cached tv m ->
  (aget tv (4 * set_of addr + word_of addr) =? addr) = (addr <? 0xA0000000) && spec_hit addr m.
Proof.
  intros [Hu Ha] (Hl & Ht & Hm). unfold is_u32 in Hu.
  assert (0 <= set_of addr < 256) as Hs by (unfold set_of; dlia).
  assert (0 <= word_of addr < 4) as Hw by (unfold word_of; dlia).
  rewrite Ht by done. unfold tag_of, spec_hit. specialize (Hm (set_of addr)).
  destruct (m !! set_of addr) as [[la w0]|]; [|rewrite andb_false_r; apply Z.eqb_neq; intros <-; done].
  destruct (Hm la w0 eq_refl) as (M1 & M2 & M3). unfold line_of, word_of in *.
  destruct (Z.leb_spec w0 ((addr / 4) mod 4)); [|rewrite andb_false_r, andb_false_r; apply Z.eqb_neq; dlia].
  rewrite andb_true_r. destruct (Z.eqb_spec la (addr / 16)) as [->|Hne]; [|rewrite andb_false_r; apply Z.eqb_neq; dlia].
  rewrite andb_true_r. destruct (Z.ltb_spec addr 0xA0000000); [apply Z.eqb_eq; dlia|dlia].
Qed.

Lemma spec_fill_cached addr m tv :
  fetchable addr -> addr < 0xA0000000 -> cached tv m ->
  cached (icache_refill addr tv).1 (<[set_of addr := (line_of addr, word_of addr)]> m) /\
  (icache_refill addr tv).2 = 3 + (4 - word_of addr).
Proof.
  intros [Hu Ha] Hlow (Hl & Ht & Hm). pose proof (refill_spec addr tv Hu Hl) as R. unfold is_u32 in Hu.
  assert (0 <= set_of addr < 256) as Hs by (unfold set_of; dlia).
  destruct (icache_refill addr tv) as [tv' c]. destruct R as (-> & R1 & R2 & R3). cbn [fst snd]. split; [|done].
  split; [done|]. split.
  - intros l i Hl' Hi. unfold tag_of. destruct (Z.eq_dec l (set_of addr)) as [->|Hne].
    + rewrite lookup_insert_eq. rewrite R2 by done. reflexivity.
    + rewrite lookup_insert_ne by done. rewrite R3 by lia. by apply Ht.
  - intros l la w0. destruct (Z.eq_dec l (set_of addr)) as [->|Hne].
    + rewrite lookup_insert_eq. intros H. apply Some_inj in H. apply pair_eq in H as [<- <-].
      unfold line_of, set_of, word_of. dlia.
    + rewrite lookup_insert_ne by done. apply Hm.
Qed.

Lemma fetch_spec addr s m :
  psx_icache_enabled = true -> fetchable addr -> clock_ok (clock s) -> now s + 7 < 2 ^ 63 -> cached (s_icache_tv s) m ->
  let s' := psx_icache_fetch addr s in
  cached (s_icache_tv s') (spec_fetch addr m).1 /\ now s' = now s + (spec_fetch addr m).2 /\ clock_ok (clock s') /\
  ((addr <? 0xA0000000) && spec_hit addr m = true -> s' = s) /\ 0 <= (spec_fetch addr m).2 <= 7.
Proof.
  intros He Ha Hk Hn Hc. cbv zeta. unfold psx_icache_fetch. cbv zeta. rewrite He. cbn [negb].
  rewrite idx_eq, (spec_fetch_cached addr m) by (done || apply Ha). unfold spec_fetch.
  assert (0 <= word_of addr < 4) as Hw by (unfold word_of; dlia).
  destruct (Z.ltb_spec addr 0xA0000000), (Z.leb_spec 0xA0000000 addr); try lia; cbn [andb].
  - destruct (spec_hit addr m); cbn [fst snd]; [split; [done|]; split; [lia|]; split; [done|]; split; [done|lia]|].
    set (s1 := (set_absorb (read_absorb_which s) 0 s) <| read_absorb_which := 0 |>).
    assert (clock s1 = clock s /\ s_icache_tv s1 = s_icache_tv s) as [C1 T1] by done. clearbody s1.
    destruct (spec_fill_cached addr m (s_icache_tv s) Ha H Hc) as [F1 F2]. rewrite T1.
    destruct (icache_refill addr (s_icache_tv s)) as [tv cost]. cbn [fst snd] in *. subst cost.
    unfold now, advance in *. cbn. rewrite C1.
    destruct (advance_count (3 + (4 - word_of addr)) (clock s)) as [A1 A2]; [done|lia|lia|].
    split; [done|]. split; [done|]. split; [done|]. split; [done|lia].
  - cbn [fst snd]. unfold now, advance in *. cbn.
    destruct (advance_count 4 (clock s)) as [A1 A2]; [done|lia|lia|]. split; [done|]. split; [done|]. split; [done|]. split; [done|lia].
Qed.

Definition fetches (l : list Z) s : St := fold_left (fun s a => psx_icache_fetch a s) l s.

Lemma fetches_spec l s m :
  psx_icache_enabled = true -> Forall fetchable l -> clock_ok (clock s) -> now s + 7 * Z.of_nat (length l) < 2 ^ 63 ->
  cached (s_icache_tv s) m ->
  now (fetches l s) = now s + spec_cost l m /\ clock_ok (clock (fetches l s)) /\
  now (fetches l s) <= now s + 7 * Z.of_nat (length l).
Proof.
  intros He Hl. revert s m. induction Hl as [|a l Ha Hl IH]; intros s m Hk Hn Hc.
  - cbn [fetches fold_left spec_cost length]. split; [lia|]. split; [done|lia].
  - cbn [length] in Hn. destruct (fetch_spec a s m He Ha Hk ltac:(lia) Hc) as (F1 & F2 & F3 & _ & F4).
    cbn [spec_cost]. change (fetches (a :: l) s) with (fetches l (psx_icache_fetch a s)).
    destruct (spec_fetch a m) as [m' c]. cbn [fst snd length] in *.
    destruct (IH (psx_icache_fetch a s) m' F3 ltac:(lia) F1) as (I1 & I2 & I3). split; [lia|]. split; [done|lia].
Qed.

Lemma reset_cached s : length (s_icache_tv s) = 1024%nat -> cached (s_icache_tv (psx_icache_reset s)) ∅.
Proof.
  intros Hl. unfold psx_icache_reset.
  destruct (forZ_aset (fun i => i) (fun _ => 1) 0 1024 (s_icache_tv s)) as (H1 & H2 & _); [lia|rewrite Hl; lia|lia|].
  split; [by rewrite <- Hl|]. split.
  - intros l i Hl' Hi. unfold tag_of. rewrite lookup_empty. apply H2. lia.
  - intros l la w0. by rewrite lookup_empty.
Qed.

(** C18: the instruction cache costs what its description says. From reset and
    for every stream of aligned fetches, the cycles charged are those of a
    direct-mapped cache of 256 four-word lines, each holding one line from its
    first missed word on: nothing for a hit, 4 for an uncached address, and for
    a miss at word w of a line 3 plus one per word from w to the line's end. *)
Theorem icache_refines (l : list Z) s :
  psx_icache_enabled = true -> Forall fetchable l -> clock_ok (clock s) ->
  now s + 7 * Z.of_nat (length l) < 2 ^ 63 -> length (s_icache_tv s) = 1024%nat ->
  now (fetches l (psx_icache_reset s)) = now s + spec_cost l ∅.
Proof.
  intros He Hl Hk Hn Ht. by destruct (fetches_spec l (psx_icache_reset s) ∅ He Hl Hk Hn (reset_cached s Ht)) as (H & _).
Qed.

(** No two fetches of [l] compete for a line of the cache. *)
Definition no_conflict (l : list Z) : Prop :=
  forall a b, a ∈ l -> b ∈ l -> set_of a = set_of b -> line_of a = line_of b.

Fixpoint spec_run (l : list Z) (m : Cache) : Cache :=
  match l with [] => m | a :: l => spec_run l (spec_fetch a m).1 end.

Lemma fetches_cached l s m :
  psx_icache_enabled = true -> Forall fetchable l -> clock_ok (clock s) -> now s + 7 * Z.of_nat (length l) < 2 ^ 63 ->
  cached (s_icache_tv s) m -> cached (s_icache_tv (fetches l s)) (spec_run l m).
Proof.
  intros He Hl. revert s m. induction Hl as [|a l Ha Hl IH]; intros s m Hk Hn Hc; [done|].
  cbn [length] in Hn. destruct (fetch_spec a s m He Ha Hk ltac:(lia) Hc) as (F1 & F2 & F3 & _ & F4).
  change (fetches (a :: l) s) with (fetches l (psx_icache_fetch a s)). cbn [spec_run]. apply IH; [done|lia|done].
Qed.

(** Once hit, an address stays hit while only non-conflicting ones are fetched. *)
Lemma spec_hit_stays a b m :
  (set_of a = set_of b -> line_of a = line_of b) -> spec_hit a m = true -> spec_hit a (spec_fetch b m).1 = true.
Proof.
  intros Hab Ha. unfold spec_fetch. destruct (0xA0000000 <=? b); [done|]. destruct (spec_hit b m) eqn:Hb; [done|].
  cbn [fst]. unfold spec_hit in *. destruct (Z.eq_dec (set_of b) (set_of a)) as [Es|Es].
  - rewrite Es, lookup_insert_eq, (Hab (eq_sym Es)), Z.eqb_refl. rewrite Es in Hb.
    destruct (m !! set_of a) as [[la w0]|]; [|done]. apply andb_prop in Ha as [H1 H2]. apply Z.eqb_eq in H1. subst la.
    rewrite (Hab (eq_sym Es)), Z.eqb_refl in Hb. cbn [andb] in *. apply Z.leb_le in H2. apply Z.leb_gt in Hb. apply Z.leb_le. lia.
  - by rewrite lookup_insert_ne.
Qed.

Lemma spec_hit_after a m : a < 0xA0000000 -> spec_hit a (spec_fetch a m).1 = true.
Proof.
  intros Ha. unfold spec_fetch. destruct (Z.leb_spec 0xA0000000 a); [lia|]. destruct (spec_hit a m) eqn:Eh; [done|].
  cbn [fst]. unfold spec_hit. by rewrite lookup_insert_eq, Z.eqb_refl, Z.leb_refl.
Qed.

Lemma spec_run_hits a l m :
  a < 0xA0000000 -> (forall b, b ∈ l -> set_of a = set_of b -> line_of a = line_of b) ->
  a ∈ l \/ spec_hit a m = true -> spec_hit a (spec_run l m) = true.
Proof.
  intros Ha. revert m. induction l as [|b l IH]; intros m Hl [Hin|Hm]; cbn [spec_run]; [by apply elem_of_nil in Hin|done|..].
  - apply elem_of_cons in Hin as [->|Hin].
    + apply IH; [intros c Hc; apply Hl; by right|right; by apply spec_hit_after].
    + apply IH; [intros c Hc; apply Hl; by right|by left].
  - apply IH; [intros c Hc; apply Hl; by right|]. right. apply spec_hit_stays; [apply Hl; left|done].
Qed.

Lemma fetch_hit a s m :
  fetchable a -> a < 0xA0000000 -> cached (s_icache_tv s) m -> spec_hit a m = true -> psx_icache_fetch a s = s.
Proof.
  intros Ha Hlow Hc Hh. unfold psx_icache_fetch. cbv zeta.
  rewrite idx_eq, (spec_fetch_cached a m) by (done || apply Ha). rewrite Hh.
  destruct (Z.ltb_spec a 0xA0000000); [|lia]. by destruct psx_icache_enabled.
Qed.

(** Code that fits in the cache runs from it. Whatever was fetched since
    reset, once a sequence of cached fetches with no two addresses competing
    for a line has run once, running it again, any number of times, charges
    no cycle and changes nothing. *)
Theorem icache_hot_loop (l0 l : list Z) (n : nat) s :
  psx_icache_enabled = true -> Forall fetchable l0 -> Forall fetchable l -> Forall (fun a => a < 0xA0000000) l ->
  no_conflict l -> clock_ok (clock s) -> now s + 7 * Z.of_nat (length (l0 ++ l)) < 2 ^ 63 ->
  length (s_icache_tv s) = 1024%nat ->
  let s1 := fetches (l0 ++ l) (psx_icache_reset s) in
  Nat.iter n (fetches l) s1 = s1.
Proof.
  intros He H0 Hl Hlow Hno Hk Hn Ht. cbv zeta.
  assert (Forall fetchable (l0 ++ l)) as Hall by by apply Forall_app.
  pose proof (fetches_cached _ (psx_icache_reset s) _ He Hall Hk Hn (reset_cached s Ht)) as Hc.
  destruct (fetches_spec _ (psx_icache_reset s) _ He Hall Hk Hn (reset_cached s Ht)) as (_ & Hk1 & Hn1).
  assert (forall a, a ∈ l -> spec_hit a (spec_run (l0 ++ l) ∅) = true) as Hhit.
  { intros a Ha. rewrite Forall_forall in Hlow.
    assert (forall l1 l2 m, spec_run (l1 ++ l2) m = spec_run l2 (spec_run l1 m)) as ->
      by (intros l1; induction l1; intros; cbn; auto).
    apply spec_run_hits; [by apply Hlow|intros b Hb Eb; by apply Hno|by left]. }
  set (s1 := fetches (l0 ++ l) (psx_icache_reset s)) in *. set (m := spec_run (l0 ++ l) ∅) in *. clearbody s1 m.
  assert (fetches l s1 = s1) as Hfix.
  { assert (forall l', (forall a, a ∈ l' -> a ∈ l) -> fetches l' s1 = s1) as H; [|by apply H].
    induction l' as [|a l' IH]; intros Hsub; [done|].
    assert (a ∈ l) as Ha by (apply Hsub; left). rewrite Forall_forall in Hl, Hlow.
    change (fetches (a :: l') s1) with (fetches l' (psx_icache_fetch a s1)).
    rewrite (fetch_hit a s1 m) by (auto; by apply Hlow). apply IH. intros b Hb. apply Hsub. by right. }
  induction n as [|n IH]; [done|]. change (fetches l (Nat.iter n (fetches l) s1) = s1). by rewrite IH.
Qed.

(** ** The load-delay interlock *)

(** Every nonzero word is an odd number shifted: its lowest set bit. *)
Lemma lowest_bit m : 0 < m -> exists k q, 0 <= k /\ 0 <= q /\ m = (2 * q + 1) * 2 ^ k.
Proof.
  induction m as [m IH] using (well_founded_induction (Z.lt_wf 0)). intros Hm.
  destruct (Z.Even_or_Odd m) as [[q ->]|[q ->]].
  - destruct (IH q ltac:(lia) ltac:(lia)) as (k & r & H1 & H2 & ->). exists (k + 1), r. rewrite Z.pow_add_r by lia. lia.
  - exists 0, q. lia.
Qed.

Lemma lowest_bit_ops k q :
  0 <= k -> 0 <= q -> let m := (2 * q + 1) * 2 ^ k in
  Z.land m (- m) = 2 ^ k /\ Z.land m (m - 1) = 2 * q * 2 ^ k.
Proof.
  intros Hk Hq m.
  assert (0 <= 2 ^ k - 1 < 2 ^ k) as Hp by (pose proof (Z.pow_pos_nonneg 2 k); lia).
  assert (m - 1 = Z.lor (2 * q * 2 ^ k) (2 ^ k - 1)) as Em1 by (rewrite lor_add by lia; unfold m; lia).
  assert (forall n, 0 <= n -> Z.testbit (m - 1) n = if n <? k then true else Z.testbit (2 * q) (n - k)) as B1.
  { intros n Hn. rewrite Em1, Z.lor_spec. replace (2 ^ k - 1) with (Z.ones k) by (rewrite Z.ones_equiv; lia).
    destruct (Z.ltb_spec n k).
    - rewrite Z.mul_pow2_bits_low, Z.ones_spec_low by lia. done.
    - rewrite Z.ones_spec_high by lia. rewrite Z.mul_pow2_bits by lia. apply orb_false_r. }
  assert (forall n, 0 <= n -> Z.testbit m n = if n <? k then false else Z.testbit (2 * q + 1) (n - k)) as B2.
  { intros n Hn. unfold m. destruct (Z.ltb_spec n k); [by apply Z.mul_pow2_bits_low|by apply Z.mul_pow2_bits]. }
  assert (forall n, 0 < n -> Z.testbit (2 * q + 1) n = Z.testbit (2 * q) n) as B3.
  { intros n Hn. replace n with (Z.succ (n - 1)) by lia. by rewrite Z.testbit_odd_succ, Z.testbit_even_succ by lia. }
  split; apply Z.bits_inj'; intros n Hn; rewrite Z.land_spec, ?B1, B2 by lia.
  - replace (- m) with (Z.lnot (m - 1)) by (unfold Z.lnot; lia). rewrite Z.lnot_spec, B1, Z.pow2_bits_eqb by lia.
    destruct (Z.ltb_spec n k); [symmetry; apply Z.eqb_neq; lia|]. destruct (Z.eqb_spec k n) as [->|].
    + rewrite Z.sub_diag, Z.testbit_odd_0, Z.testbit_even_0. done.
    + rewrite B3 by lia. apply andb_negb_r.
  - destruct (Z.ltb_spec n k); [by rewrite Z.mul_pow2_bits_low|]. rewrite Z.mul_pow2_bits by lia.
    destruct (Z.eq_dec n k) as [->|]; [by rewrite Z.sub_diag, Z.testbit_even_0, andb_false_r|].
    rewrite B3 by lia. apply andb_diag.
Qed.

(** The registers [mask] names; register 0 never counts. *)
Definition uses (r mask : Z) : bool := (1 <=? r) && Z.testbit mask r.

Lemma clear_low_bits k q n :
  0 <= k -> 0 <= n -> Z.testbit ((2 * q + 1) * 2 ^ k) n = Z.testbit (2 * q * 2 ^ k) n || (n =? k).
Proof.
  intros Hk Hn. destruct (Z.ltb_spec n k).
  - rewrite !Z.mul_pow2_bits_low by lia. symmetry. apply orb_false_iff. split; [done|]. apply Z.eqb_neq. lia.
  - rewrite !Z.mul_pow2_bits by lia. destruct (Z.eqb_spec n k) as [->|].
    + rewrite Z.sub_diag, Z.testbit_odd_0. by rewrite orb_true_r.
    + rewrite orb_false_r. replace (n - k) with (Z.succ (n - k - 1)) by lia.
      by rewrite Z.testbit_odd_succ, Z.testbit_even_succ by lia.
Qed.

Lemma deps_spec mask s :
  length (read_absorb s) = 33%nat -> is_u32 mask ->
  exists ra, psx_cyc_deps mask s = s <| read_absorb := ra |> /\ length ra = 33%nat /\
    forall r, 0 <= r -> aget ra r = if uses r mask then 0 else aget (read_absorb s) r.
Proof.
  intros Hl Hm. unfold psx_cyc_deps.
  pose proof (land_range_r 32 mask 0xFFFFFFFE ltac:(lia) ltac:(lia)) as Hr.
  assert (forall r, 0 <= r -> Z.testbit (Z.land mask 0xFFFFFFFE) r = uses r mask) as Hbits.
  { intros r H0. change 0xFFFFFFFE with (2 ^ 32 - 2 ^ 1). rewrite land_high by (unfold is_u32 in Hm; lia).
    unfold uses. destruct (Z.leb_spec 1 r).
    - rewrite Z.mul_pow2_bits by lia. change (2 ^ 1) with (2 ^ 1). rewrite Z.div_pow2_bits by lia. cbn [andb]. f_equal. lia.
    - rewrite Z.mul_pow2_bits_low by lia. done. }
  set (m0 := Z.land mask 0xFFFFFFFE) in *. clearbody m0.
  pose proof (pwhile_spec (fun x : Z * list Z => negb (x.1 =? 0))
    (fun x => (Z.land x.1 (u32 (x.1 - 1)), aset x.2 (ctz x.1) 0))
    (fun x => 0 <= x.1 < 2 ^ 32 /\ length x.2 = 33%nat /\
      forall r, 0 <= r -> (Z.testbit x.1 r = true -> uses r mask = true) /\
        aget x.2 r = if uses r mask && negb (Z.testbit x.1 r) then 0 else aget (read_absorb s) r)
    (fun x => if x.1 =? 0 then 0 else 32 - ctz x.1) 32 (m0, read_absorb s)) as [(I1 & I2 & I3) Hst].
  - cbn [fst snd]. split; [lia|]. split; [done|]. intros r H0. rewrite Hbits by done. split; [done|].
    by rewrite andb_negb_r.
  - intros [m ra] (I1 & I2 & I3) Hx. cbn [fst snd] in *. apply negb_true_iff, Z.eqb_neq in Hx.
    destruct (lowest_bit m ltac:(lia)) as (k & q & Hk & Hq & ->).
    destruct (lowest_bit_ops k q Hk Hq) as [O1 O2]. cbv zeta in O1, O2. unfold ctz. rewrite O1, u32_id, O2 by lia.
    rewrite Z.log2_pow2 by lia.
    assert (k < 32) as Hk32. { apply (Z.pow_lt_mono_r_iff 2); [lia|lia|]. nia. }
    assert (0 < 2 ^ k) as Hp by (apply Z.pow_pos_nonneg; lia).
    split.
    + split; [nia|]. split; [by rewrite length_aset|]. intros r H0. destruct (I3 r H0) as [J1 J2].
      rewrite clear_low_bits in J1, J2 by lia. destruct (Z.eqb_spec r k) as [->|Hne].
      * rewrite orb_true_r in J1. split; [by rewrite J1|]. rewrite aget_aset_eq by lia. rewrite J1 by done.
        rewrite Z.mul_pow2_bits, Z.sub_diag, Z.testbit_even_0 by lia. done.
      * rewrite orb_false_r in J1, J2. rewrite aget_aset_ne by lia. by split.
    + destruct (Z.eqb_spec ((2 * q + 1) * 2 ^ k) 0); [lia|]. destruct (Z.eqb_spec (2 * q * 2 ^ k) 0); [lia|].
      destruct (lowest_bit (2 * q) ltac:(nia)) as (k' & q' & Hk' & Hq' & E2). rewrite E2, <- Z.mul_assoc, <- Z.pow_add_r by lia.
      destruct (lowest_bit_ops (k' + k) q' ltac:(lia) Hq') as [O3 _]. cbv zeta in O3. rewrite O3, Z.log2_pow2 by lia.
      assert (k' <> 0) by (intros ->; lia). lia.
  - intros [m ra] (I1 & I2 & I3) Hx. cbn [fst snd] in *. apply negb_true_iff, Z.eqb_neq in Hx.
    destruct (Z.eqb_spec m 0); [lia|]. destruct (lowest_bit m ltac:(lia)) as (k & q & Hk & Hq & ->).
    destruct (lowest_bit_ops k q Hk Hq) as [O1 O2]. cbv zeta in O1. unfold ctz. rewrite O1, Z.log2_pow2 by lia.
    assert (k < 32) as Hk32; [|lia]. apply (Z.pow_lt_mono_r_iff 2); [lia|lia|]. nia.
  - cbn [fst]. case_if; [lia|]. unfold ctz. pose proof (Z.log2_nonneg (Z.land m0 (- m0))). lia.
  - cbv zeta. revert I1 I2 I3 Hst. generalize (pwhile 32 (fun x : Z * list Z => negb (x.1 =? 0)) (fun x => (Z.land x.1 (u32 (x.1 - 1)), aset x.2 (ctz x.1) 0)) (m0, read_absorb s)).
    intros [m ra] I1 I2 I3 Hst. cbn [fst snd] in *. exists ra. split; [done|]. split; [done|].
    intros r H0. destruct (I3 r H0) as [_ ->]. apply negb_false_iff, Z.eqb_eq in Hst. subst m.
    by rewrite Z.testbit_0_l, andb_true_r.
Qed.

(** Registers, indices and clock in their C ranges. *)
Record pipe_ok (s : St) : Prop := {
  ok_len : length (read_absorb s) = 33%nat;
  ok_bytes : Forall is_u8 (read_absorb s);
  ok_which : 0 <= read_absorb_which s < 32;
  ok_pending : 0 <= ld_which_t s <= 32;
  ok_fudge : 0 <= read_fudge s <= 32;
  ok_clock : clock_ok (clock s);
}.

Lemma u8_u8 x : is_u8 (u8 x).
Proof. apply u8_range. Qed.

Lemma advance_spec c s :
  pipe_ok s -> 0 <= c < 2 ^ 32 -> now s + c < 2 ^ 63 ->
  pipe_ok (advance c s) /\ now (advance c s) = now s + c.
Proof.
  intros [H1 H2 H3 H4 H5 H6] Hc Hn. destruct (advance_count c (clock s) H6 Hc Hn) as [A1 A2].
  split; [by split|exact A2].
Qed.

Lemma set_absorb_ok r v s : pipe_ok s -> is_u8 v -> pipe_ok (set_absorb r v s).
Proof.
  intros [H1 H2 H3 H4 H5 H6] Hv. split; try done.
  - change (length (aset (read_absorb s) r v) = 33%nat). by rewrite length_aset.
  - change (Forall is_u8 (aset (read_absorb s) r v)). by apply aset_Forall.
Qed.

(** The cycles the next base charges: one, unless a give-back is left. *)
Definition base_cost s : Z := if aget (read_absorb s) (read_absorb_which s) =? 0 then 1 else 0.

Lemma base_spec s :
  pipe_ok s -> now s + 1 < 2 ^ 63 ->
  pipe_ok (psx_cyc_base s) /\ now (psx_cyc_base s) = now s + base_cost s /\
  read_absorb (psx_cyc_base s) = aset (read_absorb s) (read_absorb_which s)
    (Z.max 0 (aget (read_absorb s) (read_absorb_which s) - 1)) /\
  (read_absorb_which (psx_cyc_base s), read_fudge (psx_cyc_base s), ld_which_t (psx_cyc_base s), ld_absorb (psx_cyc_base s)) =
    (read_absorb_which s, read_fudge s, ld_which_t s, ld_absorb s).
Proof.
  intros Hok Hn. unfold psx_cyc_base, base_cost. pose proof Hok as [H1 H2 H3 _ _ _].
  assert (is_u8 (aget (read_absorb s) (read_absorb_which s))) as Hb by (apply aget_Forall; [done|exact H2]).
  set (g := aget (read_absorb s) (read_absorb_which s)) in *. unfold is_u8 in Hb.
  destruct (Z.eqb_spec g 0) as [Eg|]; cbn [negb].
  - destruct (advance_spec 1 s Hok ltac:(lia) ltac:(lia)) as [A1 A2]. split; [done|]. split; [done|]. split; [|done].
    change (read_absorb (advance 1 s)) with (read_absorb s). unfold aset, g, aget in *.
    rewrite Eg. change (Z.max 0 (0 - 1)) with 0. symmetry. apply list_insert_id.
    destruct (lookup_lt_is_Some_2 (read_absorb s) (Z.to_nat (read_absorb_which s)) ltac:(lia)) as [x Hx].
    rewrite nth_lookup_default, Hx in Eg. cbn in Eg. by subst x.
  - split; [apply set_absorb_ok; [done|apply u8_u8]|]. split; [unfold now; cbn; lia|]. split; [|done].
    change (aset (read_absorb s) (read_absorb_which s) (u8 (g - 1)) = aset (read_absorb s) (read_absorb_which s) (Z.max 0 (g - 1))).
    f_equal. rewrite u8_id by lia. lia.
Qed.

Lemma deps_ok mask s :
  pipe_ok s -> is_u32 mask ->
  pipe_ok (psx_cyc_deps mask s) /\ now (psx_cyc_deps mask s) = now s /\
  (forall r, 0 <= r -> aget (read_absorb (psx_cyc_deps mask s)) r = if uses r mask then 0 else aget (read_absorb s) r) /\
  (read_absorb_which (psx_cyc_deps mask s), read_fudge (psx_cyc_deps mask s), ld_which_t (psx_cyc_deps mask s), ld_absorb (psx_cyc_deps mask s)) =
    (read_absorb_which s, read_fudge s, ld_which_t s, ld_absorb s).
Proof.
  intros Hok Hm. destruct (deps_spec mask s (ok_len _ Hok) Hm) as (ra & -> & Hl & Hr).
  split; [|done]. destruct Hok as [H1 H2 H3 H4 H5 H6]. split; try done.
  change (Forall is_u8 ra). apply Forall_lookup. intros i x Hx.
  pose proof (Hr (Z.of_nat i) ltac:(lia)) as E. unfold aget at 1 in E. rewrite nth_lookup_default, Nat2Z.id, Hx in E. cbn in E.
  subst x. case_if; [done|]. apply aget_Forall; [done|exact H2].
Qed.

Lemma lds_spec s :
  pipe_ok s ->
  pipe_ok (psx_cyc_lds s) /\ now (psx_cyc_lds s) = now s /\
  read_absorb (psx_cyc_lds s) = aset (read_absorb s) (ld_which_t s) (u8 (ld_absorb s)) /\
  read_fudge (psx_cyc_lds s) = ld_which_t s /\ ld_which_t (psx_cyc_lds s) = 0x20 /\
  read_absorb_which (psx_cyc_lds s) = Z.lor (read_absorb_which s) (Z.land (ld_which_t s) 0x1F) /\
  ld_absorb (psx_cyc_lds s) = ld_absorb s.
Proof.
  intros Hok. pose proof (set_absorb_ok (ld_which_t s) (u8 (ld_absorb s)) s Hok (u8_u8 _)) as [H1 H2 H3 H4 H5 H6].
  destruct Hok as [G1 G2 G3 G4 G5 G6].
  assert (0 <= Z.lor (read_absorb_which s) (Z.land (ld_which_t s) 0x1F) < 32) as Hw.
  { apply (lor_range 5); [lia|lia|]. apply (land_range_r 5); lia. }
  assert (read_absorb_which (psx_cyc_lds s) = Z.lor (read_absorb_which s) (Z.land (ld_which_t s) 0x1F)) as Ew.
  { change (u8 (Z.lor (read_absorb_which s) (Z.land (ld_which_t s) 0x1F)) = Z.lor (read_absorb_which s) (Z.land (ld_which_t s) 0x1F)).
    apply u8_id. lia. }
  split; [|done]. split; [exact H1|exact H2|by rewrite Ew| |exact G4|exact H6].
  change (0 <= 0x20 <= 32). lia.
Qed.

Lemma step_eq mask s : psx_cyc_step mask s = psx_cyc_lds (psx_cyc_deps mask (psx_cyc_base s)).
Proof. reflexivity. Qed.

(** One instruction that is not a load. *)
Lemma step_spec mask s :
  pipe_ok s -> is_u32 mask -> now s + 1 < 2 ^ 63 ->
  let s' := psx_cyc_step mask s in
  pipe_ok s' /\ now s' = now s + base_cost s /\ ld_which_t s' = 0x20 /\
  read_absorb_which s' = Z.lor (read_absorb_which s) (Z.land (ld_which_t s) 0x1F) /\
  forall r, 0 <= r < 33 -> aget (read_absorb s') r =
    if r =? ld_which_t s then u8 (ld_absorb s)
    else if uses r mask then 0
    else if r =? read_absorb_which s then Z.max 0 (aget (read_absorb s) r - 1) else aget (read_absorb s) r.
Proof.
  intros Hok Hm Hn. cbv zeta. rewrite step_eq.
  pose proof (base_spec s Hok Hn) as B. revert B. generalize (psx_cyc_base s). intros s1 (B1 & B2 & B3 & B4).
  pose proof (deps_ok mask s1 B1 Hm) as D. revert D. generalize (psx_cyc_deps mask s1). intros s2 (D1 & D2 & D3 & D4).
  pose proof (lds_spec s2 D1) as L. revert L. generalize (psx_cyc_lds s2). intros s3 (L1 & L2 & L3 & L4 & L5 & L6 & L7).
  rewrite B4 in D4. apply pair_eq in D4 as [D4 D5]. apply pair_eq in D4 as [D4 D6]. apply pair_eq in D4 as [D4 D7].
  pose proof (ok_len _ D1). pose proof (ok_which _ Hok). pose proof (ok_pending _ Hok). pose proof (ok_len _ Hok).
  split; [done|]. split; [lia|]. split; [done|]. split; [congruence|]. intros r Hr. rewrite L3, D6, D5.
  destruct (Z.eqb_spec r (ld_which_t s)) as [->|Hne]; [rewrite aget_aset_eq by lia; done|].
  rewrite aget_aset_ne by lia. rewrite D3 by lia. destruct (uses r mask); [done|]. rewrite B3.
  destruct (Z.eqb_spec r (read_absorb_which s)) as [->|]; [by rewrite aget_aset_eq by lia|by rewrite aget_aset_ne by lia].
Qed.

Definition steps (ms : list Z) s : St := fold_left (fun s m => psx_cyc_step m s) ms s.

Lemma fold_cons {A B} (f : A -> B -> A) b l a : fold_left f (b :: l) a = fold_left f l (f a b).
Proof. done. Qed.

(** Instructions up to the first that touches [rt], that one included. *)
Fixpoint until_use (rt : Z) (ms : list Z) : Z :=
  match ms with [] => 0 | m :: ms => 1 + (if uses rt m then 0 else until_use rt ms) end.

Lemma until_use_nonneg rt ms : 0 <= until_use rt ms.
Proof. induction ms as [|m ms IH]; cbn [until_use]; [lia|]. case_if; lia. Qed.


Lemma steps_giveback rt ms s :
  pipe_ok s -> 1 <= rt < 32 -> read_absorb_which s = rt -> ld_which_t s = 0x20 -> Forall is_u32 ms ->
  now s + Z.of_nat (length ms) < 2 ^ 63 ->
  now (steps ms s) = now s + Z.of_nat (length ms) - Z.min (aget (read_absorb s) rt) (until_use rt ms).
Proof.
  intros Hok Hrt Hw Hp Hms. revert s Hok Hw Hp. induction Hms as [|m ms Hm Hms IH]; intros s Hok Hw Hp Hn.
  - unfold steps. cbn [fold_left length until_use].
    assert (is_u8 (aget (read_absorb s) rt)) as Hb by (apply aget_Forall; [done|apply ok_bytes, Hok]). unfold is_u8 in Hb. lia.
  - cbn [length] in Hn. unfold steps in *. rewrite fold_cons. cbv beta. pose proof (step_spec m s Hok Hm ltac:(lia)) as S. cbv zeta in S. revert S.
    generalize (psx_cyc_step m s). intros s' (S1 & S2 & S3 & S4 & S5). rewrite Hw, Hp in S4. change (Z.land 0x20 0x1F) with 0 in S4.
    rewrite Z.lor_0_r in S4. assert (is_u8 (aget (read_absorb s) rt)) as Hb by (apply aget_Forall; [done|apply ok_bytes, Hok]).
    unfold is_u8 in Hb. unfold base_cost in S2. rewrite Hw in S2.
    rewrite IH by (done || (destruct (aget (read_absorb s) rt =? 0); lia)).
    rewrite (S5 rt) by lia. rewrite Hp, Hw, Z.eqb_refl. destruct (Z.eqb_spec rt 0x20); [lia|].
    pose proof (until_use_nonneg rt ms). cbn [until_use length]. rewrite S2.
    destruct (Z.eqb_spec (aget (read_absorb s) rt) 0); destruct (uses rt m); lia.
Qed.

Lemma wait_range phys size : 1 <= size <= 4 -> 0 <= psx_mmio_read_wait phys size <= 36.
Proof. intros H. unfold psx_mmio_read_wait. repeat case_if; lia. Qed.

(** The interlock half of a load from outside the scratchpad, with no earlier
    load pending. *)
Lemma load_spec addr size rt mask s :
  pipe_ok s -> s_ld = true -> s_pp <= 0 -> 1 <= size <= 4 -> 1 <= rt < 32 -> is_u32 mask ->
  between 0x1F800000 0x1F8003FF (Z.land addr 0x1FFFFFFF) = false ->
  ld_which_t s = 0x20 -> aget (read_absorb s) 0 = 0 -> now s + 64 < 2 ^ 63 ->
  let c := psx_mmio_read_wait (Z.land addr 0x1FFFFFFF) size + 2 in
  let s' := psx_cyc_load_timing addr size rt mask s in
  pipe_ok s' /\ now s' = now s + base_cost s + 2 + c /\ ld_which_t s' = rt /\ ld_absorb s' = c /\
  read_absorb_which s' = 0 /\ aget (read_absorb s') 0 = 0.
Proof.
  intros Hok Hld Hpp Hsz Hrt Hm Hsp Hp H0 Hn. cbv zeta. unfold psx_cyc_load_timing. rewrite Hld. cbn [negb].
  pose proof (wait_range (Z.land addr 0x1FFFFFFF) size Hsz) as Hwait.
  pose proof (ok_which _ Hok) as Hw. pose proof (ok_len _ Hok) as Hlen.
  pose proof (base_spec s Hok ltac:(lia)) as B. revert B. generalize (psx_cyc_base s). intros s1 (B1 & B2 & B3 & B4).
  pose proof (deps_ok mask s1 B1 Hm) as D. revert D. generalize (psx_cyc_deps mask s1). intros s2 (D1 & D2 & D3 & D4).
  rewrite B4 in D4. apply pair_eq in D4 as [D4 D5]. apply pair_eq in D4 as [D4 D6]. apply pair_eq in D4 as [D4 D7].
  rewrite D6, Hp. destruct (Z.eqb_spec 0x20 rt); [lia|].
  pose proof (lds_spec s2 D1) as L. revert L. generalize (psx_cyc_lds s2). intros s3 (L1 & L2 & L3 & L4 & L5 & L6 & L7).
  rewrite D6, Hp in L3, L4, L6. change (Z.land 0x20 0x1F) with 0 in L6. rewrite Z.lor_0_r, D4 in L6.
  assert (aget (read_absorb s3) 0 = 0) as Z3.
  { rewrite L3, aget_aset_ne, D3 by lia. change (uses 0 mask) with false. cbn iota. rewrite B3.
    destruct (Z.eq_dec (read_absorb_which s) 0) as [E|E]; [rewrite E, aget_aset_eq by lia; lia|by rewrite aget_aset_ne by lia]. }
  unfold psx_cyc_readmem. cbv zeta. rewrite Hsp.
  set (phys := Z.land addr 0x1FFFFFFF) in *.
  pose proof (set_absorb_ok (read_absorb_which s3) 0 s3 L1 ltac:(unfold is_u8; lia)) as S4.
  set (s4 := (set_absorb (read_absorb_which s3) 0 s3) <| read_absorb_which := 0 |>).
  assert (pipe_ok s4) as K4 by (destruct S4; split; try done; change (0 <= 0 < 32); lia).
  assert (read_fudge s4 = 0x20 /\ now s4 = now s3 /\ read_absorb_which s4 = 0 /\ read_absorb s4 = aset (read_absorb s3) (read_absorb_which s3) 0)
    as (F4 & N4 & W4 & A4) by (rewrite <- L4; done).
  assert (aget (read_absorb s4) 0 = 0) as Z4.
  { rewrite A4. pose proof (ok_len _ L1). pose proof (ok_which _ L1).
    destruct (Z.eq_dec (read_absorb_which s3) 0) as [E|E]; [rewrite E, aget_aset_eq by lia; done|by rewrite aget_aset_ne by lia]. }
  clearbody s4. rewrite F4. change (Z.land (Z.shiftr 0x20 4) 2) with 2.
  assert (base_cost s <= 1 /\ 0 <= base_cost s) as [Hb1 Hb2] by (unfold base_cost; case_if; lia).
  destruct (advance_spec 2 s4 K4 ltac:(lia) ltac:(lia)) as [A5 N5].
  assert (read_absorb_which (advance 2 s4) = read_absorb_which s4 /\ read_absorb (advance 2 s4) = read_absorb s4) as [W5 R5] by done.
  set (s5 := advance 2 s4) in *. clearbody s5.
  set (c := psx_mmio_read_wait phys size + 2) in *. rewrite (u32_id c) by lia.
  set (s6 := s5 <| ld_absorb := c |>).
  assert (pipe_ok s6) as K6 by (destruct A5; by split).
  assert (now s6 = now s5 /\ ld_absorb s6 = c /\ read_absorb_which s6 = read_absorb_which s5 /\ read_absorb s6 = read_absorb s5)
    as (N6 & C6 & W6 & R6) by done. clearbody s6.
  destruct (advance_spec c s6 K6 ltac:(lia) ltac:(lia)) as [A7 N7].
  assert (ld_absorb (advance c s6) = ld_absorb s6 /\ read_absorb_which (advance c s6) = read_absorb_which s6 /\
    read_absorb (advance c s6) = read_absorb s6) as (C7 & W7 & R7) by done. set (s7 := advance c s6) in *. clearbody s7.
  rewrite u8_id by lia. replace (0 <? s_pp) with false by lia. rewrite andb_false_r.
  set (s8 := s7 <| ld_which_t := rt |>).
  assert (now s8 = now s7 /\ ld_absorb s8 = ld_absorb s7 /\ read_absorb_which s8 = read_absorb_which s7 /\
    read_absorb s8 = read_absorb s7 /\ ld_which_t s8 = rt) as (N8 & C8 & W8 & R8 & P8) by done.
  assert (pipe_ok s8) as K8 by (destruct A7; split; try done; change (0 <= rt <= 32); lia).
  clearbody s8. split; [done|]. split; [lia|]. split; [done|]. split; [congruence|]. split; [congruence|]. congruence.
Qed.

(** What a load costs, and what the code after it gets back. A load from
    outside the scratchpad with none pending charges its base cycle (unless a
    give-back absorbs it), the two-cycle fudge, the wait of its region and two
    cycles to complete. The instruction in its delay slot is charged as usual;
    the ones after it run free up to the region wait plus two, and no longer
    than to the first that touches the loaded register. *)
Theorem load_giveback addr size rt mask slot (ms : list Z) s :
  pipe_ok s -> s_ld = true -> s_pp <= 0 -> 1 <= size <= 4 -> 1 <= rt < 32 ->
  Forall is_u32 (mask :: slot :: ms) ->
  between 0x1F800000 0x1F8003FF (Z.land addr 0x1FFFFFFF) = false ->
  ld_which_t s = 0x20 -> aget (read_absorb s) 0 = 0 -> now s + 64 + Z.of_nat (length ms) < 2 ^ 63 ->
  let c := psx_mmio_read_wait (Z.land addr 0x1FFFFFFF) size + 2 in
  now (steps (slot :: ms) (psx_cyc_load_timing addr size rt mask s)) =
    now s + base_cost s + 2 + c + 1 + Z.of_nat (length ms) - Z.min c (until_use rt ms).
Proof.
  intros Hok Hld Hpp Hsz Hrt Hms Hsp Hp H0 Hn. cbv zeta.
  apply Forall_cons in Hms as [Hm Hms]. apply Forall_cons in Hms as [Hslot Hms].
  pose proof (wait_range (Z.land addr 0x1FFFFFFF) size Hsz) as Hwait.
  pose proof (load_spec addr size rt mask s Hok Hld Hpp Hsz Hrt Hm Hsp Hp H0 ltac:(lia)) as Hl. cbv zeta in Hl. revert Hl.
  generalize (psx_cyc_load_timing addr size rt mask s). intros s1 (L1 & L2 & L3 & L4 & L5 & L6).
  assert (base_cost s <= 1 /\ 0 <= base_cost s) as [Hb1 Hb2] by (unfold base_cost; case_if; lia).
  unfold steps. rewrite fold_cons. cbv beta. fold (steps ms (psx_cyc_step slot s1)).
  pose proof (step_spec slot s1 L1 Hslot ltac:(lia)) as Hs. cbv zeta in Hs. revert Hs. generalize (psx_cyc_step slot s1).
  intros s2 (S1 & S2 & S3 & S4 & S5). rewrite L5, L3, land_1f, Z.lor_0_l, Z.mod_small in S4 by lia.
  assert (base_cost s1 = 1) as Hb by (unfold base_cost; by rewrite L5, L6).
  rewrite (steps_giveback rt ms s2) by (done || lia).
  rewrite (S5 rt) by lia. rewrite L3, Z.eqb_refl, L4, u8_id by lia. lia.
Qed.

(** ** Completion deadlines *)

(** A multiplication or division overlaps the code that follows it. When
    MFLO or MFHI reads the result n cycles after the operation started, the
    clock stands at the start plus the latency, or where it was when the
    result is already there; one cycle short of the deadline costs nothing.
    The stall eats the same number of cycles of a pending give-back. *)
Theorem muldiv_stall_exact latency n s :
  pipe_ok s -> 0 <= now s -> 0 <= latency < 256 -> 0 <= n < 2 ^ 32 -> now s + n + 256 < 2 ^ 63 ->
  let s1 := psx_muldiv_stall (advance n (psx_muldiv_set latency s)) in
  let stall := if latency - n <=? 1 then 0 else latency - n in
  now s1 = now s + n + stall /\ pipe_ok s1 /\
  aget (read_absorb s1) (read_absorb_which s) = Z.max 0 (aget (read_absorb s) (read_absorb_which s) - stall).
Proof.
  intros Hok H0 Hlat Hn Hb. cbv zeta. unfold psx_muldiv_set. rewrite u64_id by lia.
  set (s0 := s <| muldiv_ts_done := now s + latency |>).
  assert (pipe_ok s0) as K0 by (destruct Hok; by split).
  destruct (advance_spec n s0 K0 Hn ltac:(change (now s + n < 2 ^ 63); lia)) as [K1 N1]. change (now s0) with (now s) in N1.
  assert (muldiv_ts_done (advance n s0) = now s + latency /\ read_absorb_which (advance n s0) = read_absorb_which s /\
    read_absorb (advance n s0) = read_absorb s) as (M1 & W1 & R1) by done.
  set (s1 := advance n s0) in *. clearbody s1. clear s0 K0. unfold psx_muldiv_stall. cbv zeta. rewrite N1, M1, (u64_id (now s + n + 1)) by lia.
  pose proof (ok_len _ Hok) as Hl. pose proof (ok_which _ Hok) as Hw.
  assert (is_u8 (aget (read_absorb s) (read_absorb_which s))) as Hg by (apply aget_Forall; [done|apply ok_bytes, Hok]).
  unfold is_u8 in Hg.
  destruct (Z.ltb_spec (now s + n) (now s + latency)); [|destruct (Z.leb_spec (latency - n) 1); [|lia];
    split; [lia|split; [done|rewrite R1; lia]]].
  destruct (Z.eqb_spec (now s + latency) (now s + n + 1)).
  - destruct (Z.leb_spec (latency - n) 1); [|lia]. rewrite (u64_id (now s + latency - 1)) by lia.
    set (s2 := s1 <| muldiv_ts_done := now s + latency - 1 |>).
    assert (now s2 = now s1 /\ read_absorb s2 = read_absorb s1) as [-> ->] by done.
    assert (pipe_ok s2) by (destruct K1; by split). split; [lia|]. split; [done|rewrite R1; lia].
  - destruct (Z.leb_spec (latency - n) 1); [lia|].
    replace (now s + latency - (now s + n)) with (latency - n) by lia. rewrite (u32_id (latency - n)) by lia.
    rewrite W1, R1. set (v := u8 _).
    assert (v = Z.max 0 (aget (read_absorb s) (read_absorb_which s) - (latency - n))) as Ev
      by (unfold v; destruct (Z.ltb_spec (latency - n) (aget (read_absorb s) (read_absorb_which s))); rewrite u8_id by lia; lia).
    pose proof (set_absorb_ok (read_absorb_which s) v s1 K1 ltac:(unfold is_u8; lia)) as K2.
    assert (now (set_absorb (read_absorb_which s) v s1) = now s1 /\
      read_absorb (set_absorb (read_absorb_which s) v s1) = aset (read_absorb s1) (read_absorb_which s) v) as [N2 R2] by done.
    set (s2 := set_absorb (read_absorb_which s) v s1) in *. clearbody s2 v.
    destruct (advance_spec (latency - n) s2 K2 ltac:(lia) ltac:(lia)) as [K3 N3].
    assert (read_absorb (advance (latency - n) s2) = read_absorb s2) as R3 by done.
    split; [lia|]. split; [done|]. rewrite R3, R2, R1, aget_aset_eq by lia. lia.
Qed.

End Costs.

End Timing.
