(* ===== verification/Board.v ===== *)
(** * A board: devices under the scheduler

    The device interface of Scheduler.v implemented by the models of this
    development: the root counters of RootCounters.v and the VBlank clock of
    Interrupts.v, with I_STAT shared between them and the other devices idle.
    The clock interface of CpuTiming.v is implemented by the scheduler. *)

From S2P Require Import Prelude Bus RootCounters Interrupts Scheduler CpuTiming.

Import (hints) Timers Irq Clock Timing.

Module Board.

(** The state behind Interrupts.v: the time and the root counters. *)
Abbreviation Behind := (Z * Timers.State)%type.

#[export] Instance machine : Irq.Machine Behind := {
  psx_get_cycle_count w := w.1;
  psx_read_word _ _ := 0;
  psx_write_word _ _ w := w;
  sio_get_seq _ := 0;
  sio_card_protocol_active _ := false;
  dma_cdrom_transfer_active _ := 0;
  g_dma_exec_depth _ := 0;
  gpu_vblank_tick w := w;
  debug_server_poll w := w;
  savestate_poll _ w := w;
  timers_cycles_to_irq mask w := Timers.timers_cycles_to_irq mask w.2;
  cdrom_cycles_to_irq _ _ := 0xFFFFFFFF;
  dma_cycles_to_irq _ _ := 0xFFFFFFFF;
  sio_cycles_to_irq _ _ := 0xFFFFFFFF;
  PSX_SAME_THREAD_RESTORE := None
}.

Abbreviation World := (Irq.State Behind).

(** The counter psx_cycle_count, as the devices read it. *)
Definition set_now (n : Z) (w : World) : World := w <| Irq.world := (n, (Irq.world w).2) |>.

(** The timers' bus calls land in I_STAT. *)
Definition timers_step (n c : Z) (w : World) : World :=
  let t := Timers.timers_advance c (Irq.world w).2 in
  w <| Irq.i_stat := istat_after (Timers.log t) (Irq.i_stat w) |>
    <| Irq.world := (n, Timers.mkState (Timers.timers t) []) |>.

#[export] Instance devices : Clock.Devices World := {
  sio_advance _ _ w := w;
  cdrom_advance _ _ w := w;
  dma_advance _ _ w := w;
  timers_advance n c w := timers_step n c w;
  interrupts_advance_cycles n c w := Irq.interrupts_advance_cycles c (set_now n w);
  interrupts_service_scheduled_events n w := Irq.interrupts_service_scheduled_events (set_now n w);
  interrupts_cycles_to_vblank _ w := Irq.interrupts_cycles_to_vblank w;
  timers_cycles_to_irq _ mask w := Timers.timers_cycles_to_irq mask (Irq.world w).2;
  cdrom_cycles_to_irq _ _ _ := 0xFFFFFFFF;
  dma_cycles_to_irq _ _ _ := 0xFFFFFFFF;
  sio_cycles_to_irq _ _ _ := 0xFFFFFFFF;
  i_stat w := Irq.i_stat w
}.

(** ** What the board promises *)

Definition since (w : World) : Z := Irq.cycles_since_vblank (Irq.pacing w).

Record ok (n : Z) (w : World) : Prop := {
  ok_now : (Irq.world w).1 = n;
  ok_timers : Timers.wf_state (Irq.world w).2;
  ok_log : Timers.log (Irq.world w).2 = [];
  ok_since : 0 <= since w < 2 ^ 32;
  ok_seq : Irq.last_sio_seq_seen (Irq.pacing w) = 0;
  ok_out : Irq.in_exception (Irq.exc w) = false;
}.

Definition below (w : World) : Prop := since w < Irq.VBLANK_CYCLES.

Lemma note_idle w : Irq.last_sio_seq_seen (Irq.pacing w) = 0 -> Irq.note_sio_progress_cycle w = w.
Proof. intros H. unfold Irq.note_sio_progress_cycle. cbv zeta. rewrite H. done. Qed.

Lemma service_below w :
  Irq.last_sio_seq_seen (Irq.pacing w) = 0 -> below w -> Irq.interrupts_service_scheduled_events w = w.
Proof.
  intros H Hb. unfold Irq.interrupts_service_scheduled_events. cbv zeta. rewrite note_idle by done. case_if; [done|].
  rewrite pwhile_nwhile, nwhile_stop; [done|]. unfold Irq.vblank_due. apply andb_false_intro1, Z.leb_gt. exact Hb.
Qed.

(** A service fires until less than a period is left. *)
Lemma service_ok w :
  ok (Irq.world w).1 w ->
  ok (Irq.world w).1 (Irq.interrupts_service_scheduled_events w) /\ below (Irq.interrupts_service_scheduled_events w) /\
  (Irq.world (Irq.interrupts_service_scheduled_events w)).2 = (Irq.world w).2.
Proof.
  intros [H1 H2 H3 H4 H5 H6]. unfold Irq.interrupts_service_scheduled_events. cbv zeta. rewrite note_idle, H6 by done.
  pose proof (pwhile_spec (fun s => Irq.vblank_due s && negb (Irq.should_defer_vblank_for_sio s)) Irq.fire_vblank_edge
    (fun x => ok (Irq.world w).1 x /\ Irq.world x = Irq.world w) (fun x => since x / Irq.VBLANK_CYCLES) 7609 w) as [(I1 & I2) Hst].
  - split; [by split|done].
  - intros x [[J1 J2 J3 J4 J5 J6] Jw] Hx. rewrite andb_true_r in Hx. apply Z.leb_le in Hx.
    change (Irq.VBLANK_CYCLES <= since x) in Hx.
    assert (since (Irq.fire_vblank_edge x) = since x - Irq.VBLANK_CYCLES) as E
      by (change (u32 (since x - Irq.VBLANK_CYCLES) = since x - Irq.VBLANK_CYCLES); unfold Irq.VBLANK_CYCLES in *; apply u32_id; lia).
    split; [|rewrite E; unfold Irq.VBLANK_CYCLES in *; dlia].
    split; [|exact Jw]. split; try done. rewrite E. unfold Irq.VBLANK_CYCLES in *. lia.
  - intros x [Jx _] Hx. rewrite andb_true_r in Hx. apply Z.leb_le in Hx. change (Irq.VBLANK_CYCLES <= since x) in Hx.
    unfold Irq.VBLANK_CYCLES in *. dlia.
  - unfold Irq.VBLANK_CYCLES. dlia.
  - revert I1 I2 Hst. generalize (pwhile 7609 (fun s => Irq.vblank_due s && negb (Irq.should_defer_vblank_for_sio s)) Irq.fire_vblank_edge w).
    intros x I1 I2 Hst. rewrite andb_true_r in Hst. apply Z.leb_gt in Hst. split; [done|]. split; [exact Hst|]. by rewrite I2.
Qed.

(** ** Advancing *)

Lemma timers_split n a b w :
  ok n w -> 0 < a -> 0 < b -> a + b < 2 ^ 32 - 2146 ->
  timers_step (n + a + b) (a + b) w = timers_step (n + a + b) b (timers_step (n + a) a w).
Proof.
  intros [_ (t0 & t1 & t2 & l & E & H0 & H1 & H2) Hl _ _ _] Ha Hb Hab. rewrite E in Hl. change (l = []) in Hl. subst l.
  unfold timers_step. cbv zeta. rewrite E.
  set (ta := Timers.timers_advance a _).
  assert (ta = Timers.mk3 (Timers.adv_tm 0 a t0) (Timers.adv_tm 1 a t1) (Timers.adv_tm 2 a t2)
    (Timers.adv_ev 0 a t0 ++ Timers.adv_ev 1 a t1 ++ Timers.adv_ev 2 a t2)) as Ea by (unfold ta; by rewrite Timers.timers_advance_mk3).
  clearbody ta. subst ta. rewrite Timers.timers_advance_mk3 by lia.
  pose proof (Timers.wf_slot_frac _ _ H0). pose proof (Timers.wf_slot_frac _ _ H1). pose proof (Timers.wf_slot_frac _ _ H2).
  destruct (Timers.adv_split 0 a b t0) as [-> ->]; [done || lia..|].
  destruct (Timers.adv_split 1 a b t1) as [-> ->]; [done || lia..|].
  destruct (Timers.adv_split 2 a b t2) as [-> ->]; [done || lia..|].
  match goal with |- context [Timers.timers_advance b ?x] =>
    change x with (Timers.mk3 (Timers.adv_tm 0 a t0) (Timers.adv_tm 1 a t1) (Timers.adv_tm 2 a t2) []) end.
  rewrite Timers.timers_advance_mk3 by lia. unfold Timers.mk3.
  match goal with |- ?x = ?y => assert (Irq.i_stat x = Irq.i_stat y) as Ei; [|] end.
  - change (istat_after ((Timers.adv_ev 0 a t0 ++ Timers.adv_ev 0 b (Timers.adv_tm 0 a t0)) ++
        (Timers.adv_ev 1 a t1 ++ Timers.adv_ev 1 b (Timers.adv_tm 1 a t1)) ++
        (Timers.adv_ev 2 a t2 ++ Timers.adv_ev 2 b (Timers.adv_tm 2 a t2))) (Irq.i_stat w) =
      istat_after (Timers.adv_ev 0 b (Timers.adv_tm 0 a t0) ++ Timers.adv_ev 1 b (Timers.adv_tm 1 a t1) ++
        Timers.adv_ev 2 b (Timers.adv_tm 2 a t2))
        (istat_after (Timers.adv_ev 0 a t0 ++ Timers.adv_ev 1 a t1 ++ Timers.adv_ev 2 a t2) (Irq.i_stat w))).
    rewrite <- istat_after_app. apply istat_after_perm. rewrite <- !app_assoc. solve_Permutation.
  - match goal with |- ?x = ?y => change x with (x <| Irq.i_stat := Irq.i_stat x |>); rewrite Ei end. done.
Qed.

(** The VBlank clock moved on, nothing fired yet. *)
Definition bump (k : Z) (w : World) : World :=
  w <| Irq.pacing := (Irq.pacing w) <| Irq.cycles_since_vblank := since w + k |> |>.

Lemma advance_eq n k w :
  0 <= since w -> 0 <= k -> since w + k < 2 ^ 32 ->
  Clock.devices_advance n k w = Irq.interrupts_service_scheduled_events (bump k (timers_step n k w)).
Proof.
  intros H0 Hk Hb. change (Clock.devices_advance n k w) with (Irq.interrupts_service_scheduled_events
    ((timers_step n k w) <| Irq.pacing := (Irq.pacing w) <| Irq.cycles_since_vblank := u32 (since w + k) |> |>)).
  rewrite u32_id by lia. done.
Qed.

Lemma timers_step_ok n k w :
  ok n w -> 0 < k < 2 ^ 32 -> 
  Timers.wf_state (Irq.world (timers_step (n + k) k w)).2 /\ Timers.log (Irq.world (timers_step (n + k) k w)).2 = [].
Proof.
  intros [_ (t0 & t1 & t2 & l & E & H0 & H1 & H2) _ _ _ _] Hk. split; [|done].
  unfold timers_step. cbv zeta. rewrite E, Timers.timers_advance_mk3 by lia.
  eexists _, _, _, []. split; [reflexivity|]. split; [|split]; apply Timers.adv_wf; done || lia.
Qed.

Lemma bump_ok n k w :
  ok n w -> 0 < k -> since w + k < 2 ^ 32 -> ok (n + k) (bump k (timers_step (n + k) k w)).
Proof.
  intros Hok Hk Hb. pose proof (ok_since _ _ Hok) as Hs. destruct (timers_step_ok n k w Hok ltac:(lia)) as [T1 T2]. destruct Hok as [H1 H2 H3 H4 H5 H6].
  split; [done|exact T1|exact T2| |exact H5|exact H6].
  change (0 <= since w + k < 2 ^ 32). lia.
Qed.

Lemma advance_two n a b w :
  ok n w -> 0 < a -> 0 < b -> since w + a + b <= Irq.VBLANK_CYCLES ->
  Clock.devices_advance (n + a + b) (a + b) w = Clock.devices_advance (n + a + b) b (Clock.devices_advance (n + a) a w).
Proof.
  intros Hok Ha Hb Hv. pose proof (ok_since _ _ Hok) as Hs. unfold Irq.VBLANK_CYCLES in Hv.
  rewrite (advance_eq (n + a) a) by lia.
  rewrite (service_below (bump a (timers_step (n + a) a w))).
  - assert (since (bump a (timers_step (n + a) a w)) = since w + a) as E by done.
    rewrite !advance_eq by lia. f_equal. rewrite (timers_split n a b w) by (done || lia).
    generalize (timers_step (n + a) a w). intros x.
    change (timers_step (n + a + b) b (bump a x)) with (bump a (timers_step (n + a + b) b x)).
    generalize (timers_step (n + a + b) b x). intros y. unfold bump.
    change (since (y <| Irq.pacing := (Irq.pacing y) <| Irq.cycles_since_vblank := since y + a |> |>)) with (since y + a).
    rewrite Z.add_assoc. done.
  - exact (ok_seq _ _ Hok).
  - change (since w + a < Irq.VBLANK_CYCLES). unfold Irq.VBLANK_CYCLES. lia.
Qed.

(** ** The promises *)

Lemma deadline_pos mask t tm : 0 <= t <= 2 -> Timers.wf_slot t tm -> 0 < Timers.deadline mask t tm.
Proof.
  intros Ht Hw. unfold Timers.deadline, Timers.deliverable. case_if; [|lia].
  destruct (Timers.armed_dist tm) as [d|] eqn:Ed; [|lia].
  pose proof (Timers.armed_dist_range tm d (proj1 Hw) Ed). destruct Hw as [_ Hf]. nia.
Qed.

Lemma next_event_below n w :
  ok n w -> below w ->
  0 < Clock.devices_cycles_to_next_internal_event n w <= Irq.VBLANK_CYCLES - since w /\
  Clock.devices_cycles_to_next_internal_event n w <= Timers.timers_cycles_to_irq 0xFFFFFFFF (Irq.world w).2.
Proof.
  intros Hok Hb. pose proof (ok_since _ _ Hok) as Hs. unfold below in Hb.
  assert (0 < Timers.timers_cycles_to_irq 0xFFFFFFFF (Irq.world w).2 <= 0xFFFFFFFF) as Ht.
  { destruct (ok_timers _ _ Hok) as (t0 & t1 & t2 & l & -> & H0 & H1 & H2). rewrite Timers.cycles_to_irq_mk3 by done.
    pose proof (deadline_pos 0xFFFFFFFF 0 t0 ltac:(lia) H0). pose proof (deadline_pos 0xFFFFFFFF 1 t1 ltac:(lia) H1).
    pose proof (deadline_pos 0xFFFFFFFF 2 t2 ltac:(lia) H2). lia. }
  unfold Clock.devices_cycles_to_next_internal_event. cbv zeta.
  change (Clock.interrupts_cycles_to_vblank n w) with (if Irq.VBLANK_CYCLES <=? since w then 0 else Irq.VBLANK_CYCLES - since w).
  change (Clock.timers_cycles_to_irq n 0xFFFFFFFF w) with (Timers.timers_cycles_to_irq 0xFFFFFFFF (Irq.world w).2).
  change (Clock.cdrom_cycles_to_irq n 0xFFFFFFFF w) with 0xFFFFFFFF. change (Clock.dma_cycles_to_irq n 0xFFFFFFFF w) with 0xFFFFFFFF.
  change (Clock.sio_cycles_to_irq n 0xFFFFFFFF w) with 0xFFFFFFFF.
  destruct (Z.leb_spec Irq.VBLANK_CYCLES (since w)); [lia|]. 
  generalize dependent (Timers.timers_cycles_to_irq 0xFFFFFFFF (Irq.world w).2). intros t Ht.
  unfold Irq.VBLANK_CYCLES in *. btest; lia.
Qed.

Lemma next_event_pos n w : ok n w -> 0 < Clock.devices_cycles_to_next_internal_event n w.
Proof.
  intros Hok. destruct (Z.lt_ge_cases (since w) Irq.VBLANK_CYCLES) as [H|H]; [by apply next_event_below|].
  pose proof (ok_since _ _ Hok) as Hs.
  unfold Clock.devices_cycles_to_next_internal_event. cbv zeta.
  change (Clock.interrupts_cycles_to_vblank n w) with (if Irq.VBLANK_CYCLES <=? since w then 0 else Irq.VBLANK_CYCLES - since w).
  change (Clock.timers_cycles_to_irq n 0xFFFFFFFF w) with (Timers.timers_cycles_to_irq 0xFFFFFFFF (Irq.world w).2).
  change (Clock.cdrom_cycles_to_irq n 0xFFFFFFFF w) with 0xFFFFFFFF. change (Clock.dma_cycles_to_irq n 0xFFFFFFFF w) with 0xFFFFFFFF.
  change (Clock.sio_cycles_to_irq n 0xFFFFFFFF w) with 0xFFFFFFFF.
  destruct (ok_timers _ _ Hok) as (t0 & t1 & t2 & l & -> & H0 & H1 & H2). rewrite Timers.cycles_to_irq_mk3 by done.
  pose proof (deadline_pos 0xFFFFFFFF 0 t0 ltac:(lia) H0). pose proof (deadline_pos 0xFFFFFFFF 1 t1 ltac:(lia) H1).
  pose proof (deadline_pos 0xFFFFFFFF 2 t2 ltac:(lia) H2). btest; lia.
Qed.

Lemma set_now_id n w : ok n w -> set_now n w = w.
Proof. intros [H _ _ _ _ _]. subst n. destruct w as [c st m p x d [a b] l]. done. Qed.

Lemma serviced_below n w : ok n w -> Clock.serviced n w -> below w.
Proof.
  intros Hok Hs. unfold Clock.serviced in Hs.
  change (Irq.interrupts_service_scheduled_events (set_now n w) = w) in Hs. rewrite set_now_id in Hs by done.
  rewrite <- Hs. apply service_ok. by rewrite (ok_now _ _ Hok).
Qed.

Lemma advance_ok n k w :
  ok n w -> below w -> 0 < k <= Irq.VBLANK_CYCLES - since w ->
  ok (n + k) (Clock.devices_advance (n + k) k w) /\ below (Clock.devices_advance (n + k) k w).
Proof.
  intros Hok Hb Hk. pose proof (ok_since _ _ Hok) as Hs. unfold Irq.VBLANK_CYCLES in *.
  rewrite advance_eq by lia. pose proof (bump_ok n k w Hok ltac:(lia) ltac:(lia)) as H.
  destruct (service_ok (bump k (timers_step (n + k) k w))) as (S1 & S2 & _); [exact H|].
  split; [exact S1|exact S2].
Qed.

Lemma below_serviced n w : ok n w -> below w -> Clock.serviced n w.
Proof.
  intros Hok Hb. unfold Clock.serviced. change (Irq.interrupts_service_scheduled_events (set_now n w) = w).
  rewrite set_now_id by done. apply service_below; [exact (ok_seq _ _ Hok)|done].
Qed.

#[export] Instance device_laws : Clock.DeviceLaws World.
Proof.
  refine (@Clock.Build_DeviceLaws World devices ok _ _ _ _ _ _).
  - intros n w Hok. by apply next_event_pos.
  - intros n w Hok. change (ok n (Irq.interrupts_service_scheduled_events (set_now n w))). rewrite set_now_id by done.
    destruct (service_ok w) as (S & _); [by rewrite (ok_now _ _ Hok)|]. by rewrite (ok_now _ _ Hok) in S.
  - intros n w Hok. change (Clock.interrupts_service_scheduled_events n w) with (Irq.interrupts_service_scheduled_events (set_now n w)).
    rewrite set_now_id by done. destruct (service_ok w) as (S & Hb & _); [by rewrite (ok_now _ _ Hok)|].
    rewrite (ok_now _ _ Hok) in S. by apply below_serviced.
  - intros n k w Hok Hs Hk _ _. pose proof (serviced_below n w Hok Hs) as Hb.
    destruct (next_event_below n w Hok Hb) as [Hn _].
    destruct (advance_ok n k w Hok Hb ltac:(lia)) as [A1 A2]. split; [done|by apply below_serviced].
  - intros n k w Hok Hs Hk _ _. pose proof (serviced_below n w Hok Hs) as Hb.
    destruct (next_event_below n w Hok Hb) as [[_ Hn] _].
    assert (forall j, 0 < j -> j <= k -> ziter Clock.tick j (n, w) = (n + j, Clock.devices_advance (n + j) j w)) as H; [|apply H; lia].
    intros j Hj. assert (1 <= j) as Hj1 by lia. clear Hj. pattern j. apply (Zlt_lower_bound_ind _ 1); [|done]. clear j Hj1.
    intros j IH Hj Hjk. destruct (Z.eq_dec j 1) as [->|Hne]; [by rewrite ziter_1|].
    replace j with (j - 1 + 1) at 1 by lia. rewrite ziter_S by lia. rewrite IH by lia.
    unfold Clock.tick. cbn [fst snd]. f_equal; [lia|].
    pose proof (advance_two n (j - 1) 1 w Hok ltac:(lia) ltac:(lia) ltac:(lia)) as E.
    replace (n + (j - 1) + 1) with (n + j) in * by lia. replace (j - 1 + 1) with j in E by lia. by rewrite E.
  - intros n k w Hok Hs Hk _ _. pose proof (serviced_below n w Hok Hs) as Hb. pose proof (ok_since _ _ Hok) as Hsc.
    destruct (next_event_below n w Hok Hb) as [[_ Hn] Ht]. unfold Irq.VBLANK_CYCLES in Hn. rewrite advance_eq by lia.
    rewrite service_below; [|exact (ok_seq _ _ Hok)|change (since w + k < 564480); lia].
    change (istat_after (Timers.log (Timers.timers_advance k (Irq.world w).2)) (Irq.i_stat w) = Irq.i_stat w).
    destruct (ok_timers _ _ Hok) as (t0 & t1 & t2 & l & E & H0 & H1 & H2). pose proof (ok_log _ _ Hok) as Hl. rewrite E in *.
    change (l = []) in Hl. subst l. rewrite Timers.cycles_to_irq_mk3 in Ht by done. rewrite Timers.timers_advance_mk3 by lia.
    assert (forall t tm, 0 <= t <= 2 -> Timers.wf_slot t tm -> k < Timers.deadline 0xFFFFFFFF t tm -> Timers.adv_ev t k tm = []) as Hq.
    { intros t tm Ht' Hw Hd. apply Timers.adv_ev_before; [done|done|lia|]. intros d Ed. unfold Timers.deadline in Hd.
      rewrite Timers.deliverable_bit, Ed in Hd; [done|lia|].
      assert (t = 0 \/ t = 1 \/ t = 2) as [-> | [-> | ->]] by lia; reflexivity. }
    rewrite !Hq by (done || lia). done.
Defined.

(** ** The clock of CpuTiming.v *)

#[export] Instance guest_clock : Timing.GuestClock (Clock.State World) := {
  psx_advance_cycles c x := Clock.psx_advance_cycles c x;
  psx_cycle_count x := Clock.psx_cycle_count x;
  clock_ok x := Clock.clock_inv x;
  advance_count c x := Clock.advance_cycles_count c x
}.

(** ** Concrete runs *)

(** Nothing set in the environment. *)
#[export] Instance empty_env : Timing.Env := { getenv _ := None; atoi _ := 0 }.

(** Root counters running, a VBlank 480 cycles away. *)
Definition w0 : World :=
  Irq.mkState (Irq.mkCpu 0 [] 0 0 []) 0 0x71 (Irq.mkPacing 564000 0 0 0 0)
    (Irq.mkExc false 0 0 None [] 0 false Irq.ESCAPE_NONE 0 0 0 0 0 0 false 0)
    (Irq.mkDiag 0 0 0 0 0 0 0 0 0 0 0 0 0 ∅ 0) (1000, Timers.demo_state) [].

Definition s0 : Clock.State World := Clock.mkState 1000 1000 0 false false 0 0 w0 [].

Lemma w0_ok : ok 1000 w0.
Proof.
  split; [done|apply Timers.demo_state_wf|done| |done|done]. vm_compute. split; [discriminate|reflexivity].
Qed.

(** Reading counter 0, and acknowledging every pending interrupt. *)
Definition read_counter (n : Z) (w : World) : World * Z :=
  (w, Timers.counter (Timers.timer_at (Irq.world w).2 0)).
Definition ack_all (n : Z) (w : World) : World * Z := (w <| Irq.i_stat := 0 |>, 0).

Definition demo_ops : list (Clock.Op (W := World)) :=
  [Clock.Charge 100; Clock.Access read_counter; Clock.Charge 1000; Clock.Access ack_all; Clock.Charge 1200000;
   Clock.Access read_counter; Clock.Charge 7].

Lemma deadline_path_exact_witness :
  (Clock.run_ops demo_ops s0).1 = (Clock.run_ops demo_ops (s0 <| Clock.g_event_step_conservative := true |>)).1.
Proof.
  apply (Clock.deadline_path_exact demo_ops s0); [done..| | |done|done].
  - exact w0_ok.
  - unfold demo_ops. repeat (apply List.Forall_cons; [cbn [Clock.op_ok]; first [lia|intros n w []; by split]|]). apply List.Forall_nil.
Defined.

Definition t0 : Timing.State (Clock.State World) :=
  Timing.mkState (replicate 33 0) 0 0 0x20 0 0 0 (replicate 1024 0) s0.

Lemma s0_inv : Clock.clock_inv s0.
Proof. split; [done|]. split; [done|exact w0_ok]. Qed.

Lemma t0_ok : Timing.pipe_ok t0.
Proof.
  split; [done| |done|done|done|exact s0_inv].
  change (Forall is_u8 (replicate 33 0)). apply Forall_replicate. done.
Qed.

(** LW r4 from RAM, a slot, three instructions, the use of r4, one more. *)
Lemma load_giveback_witness :
  Timing.now (Timing.steps [0; 0; 0; 0; 0x10; 0] (Timing.psx_cyc_load_timing 0x80010000 4 4 0x20 t0)) = 1000 + 1 + 2 + 5 + 1 + 5 - 4.
Proof.
  pose proof (Timing.load_giveback 0x80010000 4 4 0x20 0 [0; 0; 0; 0x10; 0] t0 t0_ok) as H. cbv zeta in H.
  rewrite H; [reflexivity|reflexivity|done|lia|lia| |reflexivity|reflexivity|reflexivity|reflexivity].
  repeat constructor; done.
Defined.

Lemma muldiv_stall_exact_witness :
  Timing.now (Timing.psx_muldiv_stall (Timing.advance 10 (Timing.psx_muldiv_set 37 t0))) = 1000 + 37.
Proof.
  destruct (Timing.muldiv_stall_exact 37 10 t0 t0_ok) as (H & _); [done..|]. rewrite H. reflexivity.
Defined.

(** A loop at 0x80010000..0x80010010, after code elsewhere. *)
Definition loop : list Z := [0x80010000; 0x80010004; 0x80010008; 0x8001000C; 0x80010010].

Lemma loop_fetchable : Forall Timing.fetchable loop.
Proof. repeat constructor; done. Qed.

Lemma icache_refines_witness :
  Timing.now (Timing.fetches loop (Timing.psx_icache_reset t0)) = 1000 + 14.
Proof.
  rewrite Timing.icache_refines; [reflexivity|reflexivity|exact loop_fetchable|exact s0_inv|reflexivity|reflexivity].
Defined.

Lemma icache_hot_loop_witness :
  let s1 := Timing.fetches ([0x80000080] ++ loop) (Timing.psx_icache_reset t0) in
  Nat.iter 100 (Timing.fetches loop) s1 = s1.
Proof.
  apply (Timing.icache_hot_loop [0x80000080] loop 100 t0);
    [reflexivity| |exact loop_fetchable| | |exact s0_inv|reflexivity|reflexivity].
  - repeat constructor; done.
  - repeat constructor.
  - intros a b Ha Hb. unfold loop in *. set_unfold in Ha. set_unfold in Hb.
    repeat match goal with H : _ \/ _ |- _ => destruct H as [H|H] | H : False |- _ => destruct H end;
      subst; vm_compute; try done; intros; congruence.
Defined.

End Board.
