(* ===== verification/Cdrom.v ===== *)
(** * CD-ROM controller

    src/runtime/src/cdrom.c: the register banks, the command state machine with
    its immediate and delayed responses, the sector stream, XA audio and the
    presentation of responses as interrupts.

    [State] groups the statics of the file.  The disc image (iso_reader) is the
    class [Iso]; the runtime globals a call reads are its [Env] argument; calls
    to the SPU and to the interrupt controller are appended to logs.  The debug
    rings are those of Rings.v. *)

From Stdlib Require Import Ascii String.
From S2P Require Import Prelude Bus Rings.
Import Datatypes.

Module Cdrom.

(** ** State *)

Class Iso (H : Type) := {
  iso_open : string -> option H;
  iso_read_sector : H -> Z -> option (list Z);       (* SECTOR_SIZE bytes *)
  iso_read_raw_sector : H -> Z -> option (list Z);   (* RAW_SECTOR_SIZE bytes *)
  iso_sector_count : H -> Z;
  iso_track_count : H -> Z;
  iso_track_start_lba : H -> Z -> Z;
}.

(** g_debug_current_func_addr, g_debug_last_store_pc, s_frame_count, host_ms()
    and dma_cdrom_transfer_active(). *)
Record Env := mkEnv { func_addr : Z; store_pc : Z; s_frame_count : Z; host_ms : Z; dma_active : bool }.

Inductive AudioCall := spu_cd_audio_reset | spu_cd_audio_push (stereo : list Z) (frames : Z).

#[projections(primitive)] Record Regs := mkRegs {
  index_reg : Z; stat_reg : Z; request_reg : Z; irq_enable : Z; irq_flag : Z;
  cdrom_intc_request_latched : bool; cdrom_irq_generation : Z; cdrom_intc_latched_generation : Z;
  cdrom_irq_present_delay : Z
}.
#[export] Instance eta_Regs : Eta Regs := fun r =>
  mkRegs (index_reg r) (stat_reg r) (request_reg r) (irq_enable r) (irq_flag r) (cdrom_intc_request_latched r)
    (cdrom_irq_generation r) (cdrom_intc_latched_generation r) (cdrom_irq_present_delay r).

#[projections(primitive)] Record Fifos := mkFifos {
  param_fifo : list Z; param_count : Z; response_fifo : list Z; response_read : Z; response_count : Z
}.
#[export] Instance eta_Fifos : Eta Fifos := fun f =>
  mkFifos (param_fifo f) (param_count f) (response_fifo f) (response_read f) (response_count f).

#[projections(primitive)] Record Sector := mkSector {
  sector_buffer : list Z; sector_read_pos : Z; sector_available : bool; sector_size : Z
}.
#[export] Instance eta_Sector : Eta Sector := fun b =>
  mkSector (sector_buffer b) (sector_read_pos b) (sector_available b) (sector_size b).

#[projections(primitive)] Record Last := mkLast {
  last_sector_buffer : list Z; last_sector_lba : Z; last_sector_size : Z; last_sector_frame : Z;
  last_sector_mode : Z; last_sector_have_raw : bool; last_sector_raw_mode : Z; last_sector_xa_file : Z;
  last_sector_xa_channel : Z; last_sector_xa_submode : Z; last_sector_xa_coding : Z
}.
#[export] Instance eta_Last : Eta Last := fun l =>
  mkLast (last_sector_buffer l) (last_sector_lba l) (last_sector_size l) (last_sector_frame l) (last_sector_mode l)
    (last_sector_have_raw l) (last_sector_raw_mode l) (last_sector_xa_file l) (last_sector_xa_channel l)
    (last_sector_xa_submode l) (last_sector_xa_coding l).

#[projections(primitive)] Record Drive := mkDrive {
  seek_min : Z; seek_sec : Z; seek_sect : Z; s_setloc_lba : Z; setloc_seek_far : bool;
  reading : bool; read_min : Z; read_sec : Z; read_sect : Z; mode_reg : Z; read_cmd : Z; read_delay : Z;
  filter_file : Z; filter_channel : Z; cd_muted : bool
}.
#[export] Instance eta_Drive : Eta Drive := fun d =>
  mkDrive (seek_min d) (seek_sec d) (seek_sect d) (s_setloc_lba d) (setloc_seek_far d) (reading d) (read_min d)
    (read_sec d) (read_sect d) (mode_reg d) (read_cmd d) (read_delay d) (filter_file d) (filter_channel d) (cd_muted d).

#[projections(primitive)] Record Xa := mkXa {
  xa_hist_l : Z * Z; xa_hist_r : Z * Z; xa_stream_file : Z; xa_stream_channel : Z; xa_stream_coding : Z;
  xa_stream_active : bool
}.
#[export] Instance eta_Xa : Eta Xa := fun x =>
  mkXa (xa_hist_l x) (xa_hist_r x) (xa_stream_file x) (xa_stream_channel x) (xa_stream_coding x) (xa_stream_active x).

#[projections(primitive)] Record Speed := mkSpeed {
  g_disc_speed_divisor : Z; g_game_divisor : Z; g_instant_max_per_frame : Z
}.
#[export] Instance eta_Speed : Eta Speed := fun s =>
  mkSpeed (g_disc_speed_divisor s) (g_game_divisor s) (g_instant_max_per_frame s).

#[projections(primitive)] Record PendingCmd := mkPending { p_cmd : Z; p_pending : bool; p_delay : Z; p_phase : Z }.
#[export] Instance eta_Pending : Eta PendingCmd := fun p => mkPending (p_cmd p) (p_pending p) (p_delay p) (p_phase p).

#[projections(primitive)] Record QueuedCmd := mkQueued { q_cmd : Z; q_params : list Z; q_param_count : Z; q_pending : bool }.
#[export] Instance eta_Queued : Eta QueuedCmd := fun q => mkQueued (q_cmd q) (q_params q) (q_param_count q) (q_pending q).

(** Ring entries. *)
Record TraceEntry := mkTrace {
  t_seq : Z; t_kind : Z; t_addr : Z; t_val : Z; t_width : Z; t_func : Z; t_pc : Z; t_frame : Z; t_i_stat : Z;
  t_index_reg : Z; t_stat_reg : Z; t_request_reg : Z; t_irq_enable : Z; t_irq_flag : Z; t_mode_reg : Z;
  t_param_count : Z; t_response_read : Z; t_response_count : Z; t_sector_available : bool; t_sector_read_pos : Z;
  t_sector_size : Z; t_pending_cmd : Z; t_pending_pending : bool; t_pending_delay : Z; t_reading : bool;
  t_read_cmd : Z; t_read_delay : Z
}.
Record CommandEntry := mkCommand {
  c_seq : Z; c_frame : Z; c_func : Z; c_pc : Z; c_i_stat : Z; c_kind : Z; c_cmd : Z; c_param_count : Z;
  c_params : list Z; c_stat : Z; c_request : Z; c_irq_enable : Z; c_irq_flag : Z; c_mode : Z;
  c_seek : Z * Z * Z; c_read : Z * Z * Z; c_read_cmd : Z; c_reading : bool; c_pending_cmd : Z;
  c_pending_pending : bool; c_queued_cmd : Z; c_queued_pending : bool
}.
Record CDROMSectorDelivery := mkDelivery {
  raw_mode : Z; xa_file : Z; xa_channel : Z; xa_submode : Z; xa_coding : Z; data_delivered : bool;
  xa_audio_delivered : bool; skip_reason : Z
}.
#[export] Instance eta_Delivery : Eta CDROMSectorDelivery := fun d =>
  mkDelivery (raw_mode d) (xa_file d) (xa_channel d) (xa_submode d) (xa_coding d) (data_delivered d)
    (xa_audio_delivered d) (skip_reason d).
Record SectorEntry := mkSectorEntry {
  s_seq : Z; s_lba : Z; s_size : Z; s_frame : Z; s_mode : Z; s_have_raw : bool; s_delivery : CDROMSectorDelivery;
  s_bytes_len : Z; s_bytes : list Z
}.
#[projections(primitive)] Record CdBurst := mkBurst {
  b_start_frame : Z; b_end_frame : Z; b_start_ms : Z; b_end_ms : Z; b_sectors : Z; b_rate : Z; b_divisor : Z
}.
#[export] Instance eta_Burst : Eta CdBurst := fun b =>
  mkBurst (b_start_frame b) (b_end_frame b) (b_start_ms b) (b_end_ms b) (b_sectors b) (b_rate b) (b_divisor b).

#[projections(primitive)] Record Diag := mkDiag {
  cdrom_trace : Rings.Ring TraceEntry; command_history : Rings.Ring CommandEntry;
  sector_history : Rings.Ring SectorEntry; s_bursts : gmap Z CdBurst; s_burst_count : Z; s_dataready_fires : Z
}.
#[export] Instance eta_Diag : Eta Diag := fun d =>
  mkDiag (cdrom_trace d) (command_history d) (sector_history d) (s_bursts d) (s_burst_count d) (s_dataready_fires d).

#[projections(primitive)] Record State (H : Type) := mkState {
  regs : Regs; fifos : Fifos; sector : Sector; last : Last; drive : Drive; xa : Xa; speed : Speed;
  pending : PendingCmd; queued_cmd : QueuedCmd; diag : Diag; iso_handle : option H; disc_scex : list Z;
  i_stat : Z; log : list Ev; audio : list AudioCall
}.
Arguments mkState {H}. Arguments regs {H} s. Arguments fifos {H} s. Arguments sector {H} s. Arguments last {H} s.
Arguments drive {H} s. Arguments xa {H} s. Arguments speed {H} s. Arguments pending {H} s. Arguments queued_cmd {H} s.
Arguments diag {H} s. Arguments iso_handle {H} s. Arguments disc_scex {H} s. Arguments i_stat {H} s. Arguments log {H} s.
Arguments audio {H} s.
#[export] Instance eta_State H : Eta (State H) := fun s =>
  mkState (regs s) (fifos s) (sector s) (last s) (drive s) (xa s) (speed s) (pending s) (queued_cmd s) (diag s)
    (iso_handle s) (disc_scex s) (i_stat s) (log s) (audio s).

(** ** Constants *)

Definition CDROM_IRQ_PRESENT_DELAY := 5000.
Definition PARAM_FIFO_SIZE := 16.
Definition RESPONSE_FIFO_SIZE := 16.
Definition SECTOR_SIZE := 2048.
Definition RAW_SECTOR_SIZE := 2352.
Definition RAW_USER_DATA_OFFSET := 24.
Definition WHOLE_SECTOR_OFFSET := 12.
Definition WHOLE_SECTOR_SIZE := RAW_SECTOR_SIZE - WHOLE_SECTOR_OFFSET.
Definition FALLBACK_SECTOR_HEADER_SIZE := 12.
Definition FALLBACK_WHOLE_SECTOR_SIZE := FALLBACK_SECTOR_HEADER_SIZE + SECTOR_SIZE.
Definition SECTOR_BUFFER_SIZE := WHOLE_SECTOR_SIZE.
Definition XA_SUBHEADER_OFFSET := 16.
Definition XA_DATA_OFFSET := 24.
Definition XA_SOUND_GROUPS := 18.
Definition XA_MAX_44100_FRAMES := 9408.
Definition XA_SUBMODE_AUDIO := 0x04.
Definition XA_SUBMODE_REALTIME := 0x40.
Definition CDROM_SECTOR_MODE2 := 0x02.
Definition CDROM_SKIP_NONE := 0.
Definition CDROM_SKIP_XA_AUDIO_REALTIME := 1.
Definition CDROM_REQUEST_BFRD := 0x80.
Definition CDROM_MIN_DELAY := 500.
Definition VBLANK_CYCLES_NTSC := 564480.
Definition CDROM_SINGLE_SPEED_SECTOR_CYCLES := 451584.
Definition CD_BURST_CAP := 128.
Definition CD_BURST_GAP_FRAMES := 30.
Definition CDROM_TRACE_CAP := 0x10000.
Definition CDROM_COMMAND_HISTORY_CAP := 0x2000.
Definition CDROM_SECTOR_HISTORY_CAP := 0x2000.
Definition CDROM_SECTOR_HISTORY_BYTES := 128.
Definition CDSTAT_ERROR := 0x01.
Definition CDSTAT_MOTOR := 0x02.
Definition CDSTAT_SEEKERR := 0x04.
Definition CDSTAT_IDERROR := 0x08.
Definition CDSTAT_SHELL := 0x10.
Definition CDSTAT_READ := 0x20.
Definition CDSTAT_SEEK := 0x40.
Definition CDSTAT_PLAY := 0x80.
Definition CDIRQ_DATA_READY := 1.
Definition CDIRQ_COMPLETE := 2.
Definition CDIRQ_ACK := 3.
Definition CDIRQ_ERROR := 5.
Definition EV_ISTAT_RAISE := 3.

(** The character codes of the trace kinds. *)
Definition ch (a : ascii) : Z := Z.of_nat (nat_of_ascii a).
Arguments ch a%_char.

Section Controller.
Context {H : Type} `{I : Iso H}.
Abbreviation St := (State H).
Implicit Types s : St.

Definition on_regs (f : Regs -> Regs) (s : St) : St := s <| regs := f (regs s) |>.
Definition on_fifos (f : Fifos -> Fifos) (s : St) : St := s <| fifos := f (fifos s) |>.
Definition on_sector (f : Sector -> Sector) (s : St) : St := s <| sector := f (sector s) |>.
Definition on_last (f : Last -> Last) (s : St) : St := s <| last := f (last s) |>.
Definition on_drive (f : Drive -> Drive) (s : St) : St := s <| drive := f (drive s) |>.
Definition on_xa (f : Xa -> Xa) (s : St) : St := s <| xa := f (xa s) |>.
Definition on_diag (f : Diag -> Diag) (s : St) : St := s <| diag := f (diag s) |>.
Definition set_stat (v : Z) : St -> St := on_regs (fun r => r <| stat_reg := v |>).
Definition stat (s : St) : Z := stat_reg (regs s).
Definition record (kind detail aux : Z) (s : St) : St := s <| log := log s ++ [RingRec kind detail aux] |>.
Definition call_spu (c : AudioCall) (s : St) : St := s <| audio := audio s ++ [c] |>.
Definition irq_raise (b detail : Z) (s : St) : St :=
  s <| i_stat := psx_irq_raise (i_stat s) b |> <| log := log s ++ [IrqRaise b detail] |>.
Definition has_disc (s : St) : bool := match iso_handle s with Some _ => true | None => false end.

(** ** Diagnostics *)

Definition trace_cdrom (e : Env) (kind addr val width : Z) (s : St) : St :=
  let r := regs s in let f := fifos s in let b := sector s in let d := drive s in let p := pending s in
  on_diag (fun g => g <| cdrom_trace :=
    Rings.ring_push CDROM_TRACE_CAP
      (mkTrace (Rings.seq (cdrom_trace g)) kind addr val width (func_addr e) (store_pc e) (u32 (s_frame_count e))
         (i_stat s) (index_reg r) (stat_reg r) (request_reg r) (irq_enable r) (irq_flag r) (mode_reg d)
         (u8 (param_count f)) (u8 (response_read f)) (u8 (response_count f)) (sector_available b) (sector_read_pos b)
         (sector_size b) (p_cmd p) (p_pending p) (p_delay p) (reading d) (read_cmd d) (read_delay d))
      (cdrom_trace g) |>) s.

(** A parameter count clamped to the FIFO's size. *)
Definition clamp_count (n : Z) : Z := if n <? 0 then 0 else if PARAM_FIFO_SIZE <? n then PARAM_FIFO_SIZE else n.

Definition record_command_history (e : Env) (kind cmd : Z) (params : list Z) (count : Z) (s : St) : St :=
  let r := regs s in let d := drive s in
  let count := clamp_count count in
  on_diag (fun g => g <| command_history :=
    Rings.ring_push CDROM_COMMAND_HISTORY_CAP
      (mkCommand (Rings.seq (command_history g)) (u32 (s_frame_count e)) (func_addr e) (store_pc e) (i_stat s)
         kind cmd count (take (Z.to_nat count) params) (stat_reg r) (request_reg r) (irq_enable r) (irq_flag r)
         (mode_reg d) (seek_min d, seek_sec d, seek_sect d) (u8 (read_min d), u8 (read_sec d), u8 (read_sect d))
         (read_cmd d) (reading d) (p_cmd (pending s)) (p_pending (pending s)) (q_cmd (queued_cmd s))
         (q_pending (queued_cmd s)))
      (command_history g) |>) s.

Definition record_sector_history (e : Env) (lba size mode : Z) (have_raw : bool) (bytes : list Z)
    (delivery : CDROMSectorDelivery) (s : St) : St :=
  let n := if size <? CDROM_SECTOR_HISTORY_BYTES then u16 size else CDROM_SECTOR_HISTORY_BYTES in
  let kept := take (Z.to_nat n) bytes in
  on_diag (fun g => g <| sector_history :=
    Rings.ring_push CDROM_SECTOR_HISTORY_CAP
      (mkSectorEntry (Rings.seq (sector_history g)) lba size (u32 (s_frame_count e)) mode have_raw delivery n
         (kept ++ replicate (Z.to_nat CDROM_SECTOR_HISTORY_BYTES - length kept) 0))
      (sector_history g) |>) s.

Definition burst_note_sector (e : Env) (s : St) : St :=
  let f := u32 (s_frame_count e) in
  on_diag (fun g =>
    let last := if 0 <? s_burst_count g then s_bursts g !! ((s_burst_count g - 1) mod CD_BURST_CAP) else None in
    let fresh := mkBurst f f (host_ms e) (host_ms e) 0 0 0 in
    let '(k, b, g) :=
      match last with
      | Some b =>
          if u32 (b_end_frame b + CD_BURST_GAP_FRAMES) <? f
          then (s_burst_count g mod CD_BURST_CAP, fresh, g <| s_burst_count := u32 (s_burst_count g + 1) |>)
          else ((s_burst_count g - 1) mod CD_BURST_CAP, b, g)
      | None => (s_burst_count g mod CD_BURST_CAP, fresh, g <| s_burst_count := u32 (s_burst_count g + 1) |>)
      end in
    let b := b <| b_end_frame := f |> <| b_end_ms := host_ms e |> <| b_sectors := u32 (b_sectors b + 1) |>
               <| b_rate := u32 (g_instant_max_per_frame (speed s)) |>
               <| b_divisor := u32 (g_disc_speed_divisor (speed s)) |> in
    g <| s_bursts := <[k := b]> (s_bursts g) |>) s.

(** ** Delays *)

Definition cdrom_set_speed (divisor : Z) (s : St) : St := s <| speed := (speed s) <| g_disc_speed_divisor := divisor |> |>.
Definition cdrom_set_game_speed (divisor : Z) (s : St) : St := s <| speed := (speed s) <| g_game_divisor := divisor |> |>.
Definition cdrom_notify_game_started (s : St) : St :=
  s <| speed := (speed s) <| g_disc_speed_divisor := g_game_divisor (speed s) |> |>.
Definition cdrom_set_instant_rate (per_frame : Z) (s : St) : St :=
  let n := if per_frame <? 1 then 1 else per_frame in
  let n := if 4096 <? n then 4096 else n in
  s <| speed := (speed s) <| g_instant_max_per_frame := n |> |>.

Definition instant_period (s : St) : Z :=
  let p := Z.quot VBLANK_CYCLES_NTSC (g_instant_max_per_frame (speed s)) in
  if p <? CDROM_MIN_DELAY then CDROM_MIN_DELAY else p.

Definition apply_speed (delay : Z) (s : St) : Z :=
  if xa_stream_active (xa s) then delay
  else if g_disc_speed_divisor (speed s) =? 0 then instant_period s
  else let d := Z.quot delay (g_disc_speed_divisor (speed s)) in
       if d <? CDROM_MIN_DELAY then CDROM_MIN_DELAY else d.

Definition double_speed (s : St) : bool := has (mode_reg (drive s)) 0x80.
Definition sector_delay_cycles (s : St) : Z :=
  apply_speed (if double_speed s then Z.quot CDROM_SINGLE_SPEED_SECTOR_CYCLES 2 else CDROM_SINGLE_SPEED_SECTOR_CYCLES) s.
Definition initial_read_delay_cycles (s : St) : Z :=
  apply_speed (if double_speed s then CDROM_SINGLE_SPEED_SECTOR_CYCLES else CDROM_SINGLE_SPEED_SECTOR_CYCLES * 2) s.
Definition seek_complete_delay_cycles (s : St) : Z :=
  apply_speed (if setloc_seek_far (drive s) then CDROM_SINGLE_SPEED_SECTOR_CYCLES * 4 else 0x800) s.

(** ** Responses and interrupts *)

Definition response_clear : St -> St := on_fifos (fun f => f <| response_read := 0 |> <| response_count := 0 |>).
Definition response_push (val : Z) : St -> St := on_fifos (fun f =>
  if response_count f <? RESPONSE_FIFO_SIZE
  then f <| response_fifo := aset (response_fifo f) (response_count f) (u8 val) |> <| response_count := response_count f + 1 |>
  else f).

Definition set_irq (e : Env) (type : Z) (s : St) : St :=
  let s := on_regs (fun r => r <| irq_flag := u8 type |> <| cdrom_irq_generation := u32 (cdrom_irq_generation r + 1) |>
                       <| cdrom_intc_request_latched := false |>
                       <| cdrom_irq_present_delay := CDROM_IRQ_PRESENT_DELAY |>) s in
  let s := trace_cdrom e (ch "I") 0 type 0 s in
  record EV_DEQ SRC_CD_IRQ type s.

(** The current response is enabled in irq_enable. *)
Definition irq_enabled (r : Regs) : bool :=
  negb (irq_flag r =? 0) && has (irq_enable r) (Z.shiftl 1 (irq_flag r - 1)).

Definition present_cdrom_irq (e : Env) (s : St) : St :=
  let r := regs s in
  if 0 <? cdrom_irq_present_delay r then s
  else if irq_enabled r && negb (cdrom_intc_request_latched r) then
    let s := irq_raise 2 (irq_flag r) s in
    let s := on_regs (fun r => r <| cdrom_intc_request_latched := true |>
                         <| cdrom_intc_latched_generation := cdrom_irq_generation r |>) s in
    let s := record EV_ISTAT_RAISE 2 0 s in
    trace_cdrom e (ch "F") 0 (irq_flag r) 0 s
  else s.

Definition fire_cdrom_irq (e : Env) (s : St) : St :=
  let r := regs s in
  let s := if negb (irq_flag r =? 0) && negb (has (irq_enable r) (Z.shiftl 1 (irq_flag r - 1)))
           then trace_cdrom e (ch "f") 0 (irq_flag r) 0 s else s in
  present_cdrom_irq e s.

Definition refresh_cdrom_irq_line (e : Env) (s : St) : St := present_cdrom_irq e s.

End Controller.

(** ** Positions *)

Definition bcd_to_bin (bcd : Z) : Z := Z.shiftr bcd 4 * 10 + Z.land bcd 0x0F.
Definition msf_to_lba (m s f : Z) : Z := (m * 60 + s) * 75 + f - 150.
Definition bin_to_bcd (val : Z) : Z := u8 (Z.lor (Z.shiftl (Z.quot val 10) 4) (Z.rem val 10)).
Definition lba_to_msf (lba pregap : Z) : Z * Z * Z :=
  let frames := lba + pregap in
  let frames := if frames <? 0 then 0 else frames in
  let m := Z.quot frames (60 * 75) in
  let frames := Z.rem frames (60 * 75) in
  (m, Z.quot frames 75, Z.rem frames 75).
Definition advance_msf (p : Z * Z * Z) : Z * Z * Z :=
  let '(m, s, f) := p in
  let f := f + 1 in
  let '(f, s) := if 75 <=? f then (0, s + 1) else (f, s) in
  let '(s, m) := if 60 <=? s then (0, m + 1) else (s, m) in
  (m, s, f).

(** ** XA audio *)

Definition XA_K0 : list Z := [0; 60; 115; 98; 122].
Definition XA_K1 : list Z := [0; 0; -52; -55; -60].

Definition clamp16_cd (v : Z) : Z := if 32767 <? v then 32767 else if v <? -32768 then -32768 else s16 v.

(** A signed nibble. *)
Definition nibble (n : Z) : Z := let n := Z.land n 0x0F in if 8 <=? n then n - 16 else n.

(** Shift and filter of a block header. *)
Definition xa_shift (hdr : Z) : Z := let s := 12 - Z.land hdr 0x0F in if s <? 0 then 0 else s.
Definition xa_filter (hdr : Z) : Z := Z.land (Z.shiftr hdr 4) 0x03.

(** One sample of a channel with its two previous samples, newest first. *)
Definition xa_sample (hdr n : Z) (h : Z * Z) : Z :=
  clamp16_cd (nibble n * 2 ^ xa_shift hdr +
    Z.shiftr (aget XA_K0 (xa_filter hdr) * h.1 + aget XA_K1 (xa_filter hdr) * h.2 + 32) 6).

(** The decoder's histories and its output, newest frame first. *)
Definition XaAcc : Type := (Z * Z) * (Z * Z) * list (Z * Z).

Definition xa_stereo_frame (data : list Z) (g blk i : Z) (x : XaAcc) : XaAcc :=
  let '(hl, hr, out) := x in
  let grp := g * 128 in
  let b := aget data (grp + 16 + blk + i * 4) in
  let l := xa_sample (aget data (grp + 4 + blk * 2)) b hl in
  let r := xa_sample (aget data (grp + 4 + blk * 2 + 1)) (Z.shiftr b 4) hr in
  ((l, hl.1), (r, hr.1), (l, r) :: out).

Definition xa_decode_sector_4bit_stereo (data : list Z) (hl hr : Z * Z) : XaAcc :=
  forZ 0 XA_SOUND_GROUPS (fun g => forZ 0 4 (fun blk => forZ 0 28 (xa_stereo_frame data g blk))) (hl, hr, []).

Definition xa_mono_frame (data : list Z) (g blk n i : Z) (x : XaAcc) : XaAcc :=
  let '(hl, hr, out) := x in
  let grp := g * 128 in
  let b := aget data (grp + 16 + blk + i * 4) in
  let v := xa_sample (aget data (grp + 4 + blk * 2 + n)) (if n =? 0 then b else Z.shiftr b 4) hl in
  ((v, hl.1), hr, (v, v) :: out).

Definition xa_decode_sector_4bit_mono (data : list Z) (hl hr : Z * Z) : XaAcc :=
  let '(hl, _, out) :=
    forZ 0 XA_SOUND_GROUPS (fun g => forZ 0 4 (fun blk => forZ 0 2 (fun n => forZ 0 28 (xa_mono_frame data g blk n))))
      (hl, hr, []) in
  (hl, hl, out).

(** Linear interpolation to 44100 Hz.  The C product is an int: it wraps here
    where C leaves it undefined. *)
Definition xa_mix (cur next phase : Z) : Z := s16 (cur + Z.quot (s32 ((next - cur) * phase)) 44100).

Definition resample_step (inp : list (Z * Z)) (sample_rate : Z) (x : Z * Z * list (Z * Z)) : Z * Z * list (Z * Z) :=
  let '(in_pos, phase, out) := x in
  let next_pos := if in_pos + 1 <? Z.of_nat (length inp) then in_pos + 1 else in_pos in
  let cur := nth (Z.to_nat in_pos) inp (0, 0) in
  let next := nth (Z.to_nat next_pos) inp (0, 0) in
  let out := (xa_mix cur.1 next.1 phase, xa_mix cur.2 next.2 phase) :: out in
  let '(phase, in_pos) :=
    pwhile 0x80000000 (fun y => 44100 <=? y.1) (fun y => (y.1 - 44100, y.2 + 1)) (phase + sample_rate, in_pos) in
  (in_pos, phase, out).

(** A round writes a frame, so [max_frames] rounds are enough. *)
Definition xa_resample_to_44100 (inp : list (Z * Z)) (sample_rate max_frames : Z) : list (Z * Z) :=
  if (Z.of_nat (length inp) <=? 0) || (sample_rate <=? 0) || (max_frames <=? 0) then [] else
  let '(_, _, out) :=
    pwhile (Z.to_pos max_frames)
      (fun x => (x.1.1 <? Z.of_nat (length inp)) && (Z.of_nat (length x.2) <? max_frames))
      (resample_step inp sample_rate) (0, 0, []) in
  rev out.

Definition interleave (l : list (Z * Z)) : list Z := flat_map (fun p => [p.1; p.2]) l.

Definition delivery_zero : CDROMSectorDelivery := mkDelivery 0 0 0 0 0 false false 0.

Definition xa_is_audio_realtime (d : CDROMSectorDelivery) : bool :=
  (raw_mode d =? CDROM_SECTOR_MODE2) &&
  (Z.land (xa_submode d) (Z.lor XA_SUBMODE_AUDIO XA_SUBMODE_REALTIME) =? Z.lor XA_SUBMODE_AUDIO XA_SUBMODE_REALTIME).

Definition classify_raw_sector (raw : option (list Z)) : CDROMSectorDelivery :=
  match raw with
  | None => delivery_zero
  | Some raw_data =>
      let d := delivery_zero <| raw_mode := aget raw_data 15 |> in
      if raw_mode d =? CDROM_SECTOR_MODE2 then
        d <| xa_file := aget raw_data (XA_SUBHEADER_OFFSET + 0) |> <| xa_channel := aget raw_data (XA_SUBHEADER_OFFSET + 1) |>
          <| xa_submode := aget raw_data (XA_SUBHEADER_OFFSET + 2) |> <| xa_coding := aget raw_data (XA_SUBHEADER_OFFSET + 3) |>
      else d
  end.

(** ** Sectors *)

Section Sectors.
Context {H : Type} `{I : Iso H}.
Abbreviation St := (State H).
Implicit Types s : St.

Definition xa_reset_decode : St -> St := on_xa (fun x =>
  mkXa (0, 0) (0, 0) 0xFF 0xFF 0xFF false).

(** [raw]: the sector when it was read raw. *)
Definition maybe_deliver_xa_audio (e : Env) (raw : option (list Z)) (d : CDROMSectorDelivery) (s : St) : bool * St :=
  match raw with
  | None => (false, s)
  | Some raw_data =>
    let mode := mode_reg (drive s) in
    if negb (has mode 0x40) || cd_muted (drive s) then (false, s) else
    if negb (xa_is_audio_realtime d) then (false, s) else
    let file := xa_file d in let channel := xa_channel d in let coding := xa_coding d in
    let id := Z.lor (Z.lor (Z.shiftl file 16) (Z.shiftl channel 8)) coding in
    if has mode 0x08 && (negb (file =? filter_file (drive s)) || negb (channel =? filter_channel (drive s)))
    then (false, trace_cdrom e (ch "a") 0 id 0 s) else
    let stereo := has coding 0x01 in
    let rate_code := Z.land (Z.shiftr coding 2) 0x03 in
    let depth_code := Z.land (Z.shiftr coding 4) 0x03 in
    let sample_rate := if rate_code =? 0 then 37800 else if rate_code =? 1 then 18900 else 0 in
    if negb (depth_code =? 0) || (sample_rate =? 0) then (false, trace_cdrom e (ch "X") 0 id 0 s) else
    let x := xa s in
    let s :=
      if negb (xa_stream_active x) || negb (xa_stream_file x =? file) || negb (xa_stream_channel x =? channel)
         || negb (xa_stream_coding x =? coding)
      then on_xa (fun x => x <| xa_stream_file := file |> <| xa_stream_channel := channel |>
                             <| xa_stream_coding := coding |> <| xa_stream_active := true |>) (xa_reset_decode s)
      else s in
    let data := drop (Z.to_nat XA_DATA_OFFSET) raw_data in
    let '(hl, hr, native) :=
      (if stereo then xa_decode_sector_4bit_stereo else xa_decode_sector_4bit_mono) data (xa_hist_l (xa s)) (xa_hist_r (xa s)) in
    let s := on_xa (fun x => x <| xa_hist_l := hl |> <| xa_hist_r := hr |>) s in
    let pcm := xa_resample_to_44100 (rev native) sample_rate XA_MAX_44100_FRAMES in
    let out_frames := Z.of_nat (length pcm) in
    let s := call_spu (spu_cd_audio_push (interleave pcm) out_frames) s in
    let s := trace_cdrom e (ch "A") 0
               (Z.lor (Z.lor (Z.lor (u32 (Z.shiftl file 24)) (Z.shiftl channel 16)) (Z.shiftl coding 8))
                  (Z.land (Z.quot out_frames 32) 0xFF)) 0 s in
    (true, s)
  end.

(** memcpy of [data] over a zeroed sector buffer. *)
Definition buffer_of (data : list Z) : list Z :=
  data ++ replicate (Z.to_nat SECTOR_BUFFER_SIZE - length data) 0.

Definition read_sector_at (e : Env) (p : Z * Z * Z) (s : St) : bool * St :=
  let '(min, sec, sect) := p in
  let lba := msf_to_lba min sec sect in
  let raw := match iso_handle s with Some h => iso_read_raw_sector h lba | None => None end in
  let user_data :=
    match iso_handle s with
    | None => replicate (Z.to_nat SECTOR_SIZE) 0
    | Some h =>
        match raw with
        | Some r => take (Z.to_nat SECTOR_SIZE) (drop (Z.to_nat RAW_USER_DATA_OFFSET) r)
        | None => default (replicate (Z.to_nat SECTOR_SIZE) 0) (iso_read_sector h lba)
        end
    end in
  let have_raw := match raw with Some _ => true | None => false end in
  let d := classify_raw_sector raw in
  let '(audio_delivered, s) := maybe_deliver_xa_audio e raw d s in
  let mode := mode_reg (drive s) in
  let d := d <| xa_audio_delivered := audio_delivered |> <| data_delivered := true |> in
  let d := if audio_delivered || (has mode 0x08 && xa_is_audio_realtime d)
           then d <| data_delivered := false |> <| skip_reason := CDROM_SKIP_XA_AUDIO_REALTIME |> else d in
  let delivered := data_delivered d in
  let whole :=
    match raw with
    | Some r => take (Z.to_nat WHOLE_SECTOR_SIZE) (drop (Z.to_nat WHOLE_SECTOR_OFFSET) r)
    | None => [bin_to_bcd min; bin_to_bcd sec; bin_to_bcd sect; 0x02] ++ replicate 8 0 ++ user_data
    end in
  let payload := if negb delivered then [] else if has mode 0x20 then whole else user_data in
  let size :=
    if negb delivered then 0
    else if has mode 0x20 then (if have_raw then WHOLE_SECTOR_SIZE else FALLBACK_WHOLE_SECTOR_SIZE)
    else SECTOR_SIZE in
  let buf := buffer_of payload in
  let history_bytes := if delivered then buf else user_data in
  let history_size := if delivered then size else SECTOR_SIZE in
  let s := on_sector (fun b => b <| sector_buffer := buf |> <| sector_size := size |> <| sector_read_pos := 0 |>
                                 <| sector_available := delivered |>) s in
  let s :=
    if delivered then
      burst_note_sector e (on_last (fun l => l <| last_sector_buffer :=
        take (Z.to_nat size) buf ++ drop (Z.to_nat size) (last_sector_buffer l) |>) s)
    else on_last (fun l => l <| last_sector_buffer := buffer_of user_data |>) s in
  let s := on_last (fun l =>
    mkLast (last_sector_buffer l) lba (if delivered then size else history_size) (u32 (s_frame_count e)) mode have_raw
      (raw_mode d) (xa_file d) (xa_channel d) (xa_submode d) (xa_coding d)) s in
  let s := record_sector_history e lba history_size mode have_raw history_bytes d s in
  let s := trace_cdrom e (ch "S") 0 (u32 lba) 0 s in
  let s := if negb delivered
           then trace_cdrom e (ch "s") 0
                  (Z.lor (Z.lor (Z.lor (u32 (Z.shiftl (xa_file d) 24)) (Z.shiftl (xa_channel d) 16))
                     (Z.shiftl (xa_submode d) 8)) (xa_coding d)) 0 s else s in
  (delivered, s).

Definition clear_sector_buffer (s : St) : St :=
  let s := on_sector (fun b => b <| sector_read_pos := 0 |> <| sector_size := 0 |> <| sector_available := false |>) s in
  on_regs (fun r => r <| request_reg := Z.ldiff (request_reg r) CDROM_REQUEST_BFRD |>) s.

Definition start_read_stream (cmd : Z) (s : St) : St :=
  let s := clear_sector_buffer s in
  let s := if has (mode_reg (drive s)) 0x40 then call_spu spu_cd_audio_reset (xa_reset_decode s) else s in
  let s := on_drive (fun d => d <| read_min := seek_min d |> <| read_sec := seek_sec d |> <| read_sect := seek_sect d |>
                                <| read_cmd := cmd |>) s in
  let delay := initial_read_delay_cycles s in
  let s := on_drive (fun d => d <| read_delay := delay |> <| reading := true |>) s in
  let s := set_stat (Z.lor (stat s) CDSTAT_READ) s in
  record EV_ENQ SRC_CD_READ (u32 delay) s.

Definition stop_read_stream : St -> St :=
  on_drive (fun d => d <| reading := false |> <| read_cmd := 0 |> <| read_delay := 0 |>).

Definition data_fifo_ready (s : St) : bool :=
  has (request_reg (regs s)) CDROM_REQUEST_BFRD && sector_available (sector s)
  && (sector_read_pos (sector s) <? sector_size (sector s)).

(** The next sector of the stream into the buffer; the position moves on. *)
Definition read_next_sector (e : Env) (s : St) : bool * St :=
  let d := drive s in
  let '(delivered, s) := read_sector_at e (read_min d, read_sec d, read_sect d) s in
  let s := on_drive (fun d =>
    let '(m, sc, f) := advance_msf (read_min d, read_sec d, read_sect d) in
    d <| read_min := m |> <| read_sec := sc |> <| read_sect := f |>) s in
  (delivered, s).

Definition deliver_read_sector (e : Env) (s : St) : bool * St :=
  let '(delivered, s) := read_next_sector e s in
  if negb delivered then (false, s) else
  let s := fire_cdrom_irq e (set_irq e CDIRQ_DATA_READY (response_push (stat s) (response_clear s))) in
  (true, on_diag (fun g => g <| s_dataready_fires := u64 (s_dataready_fires g + 1) |>) s).

Definition deliver_read_sector_without_irq (e : Env) (s : St) : bool * St := read_next_sector e s.

End Sectors.

(** ** Commands *)

Section Commands.
Context {H : Type} `{I : Iso H}.
Abbreviation St := (State H).
Implicit Types s : St.

Definition param (i : Z) (s : St) : Z := aget (param_fifo (fifos s)) i.
Definition n_params (s : St) : Z := param_count (fifos s).
Definition push_all (l : list Z) (s : St) : St := fold_left (fun s v => response_push v s) l s.

(** The responses most commands share. *)
Definition ack (e : Env) (s : St) : St := set_irq e CDIRQ_ACK (response_push (stat s) s).
Definition complete (e : Env) (s : St) : St := set_irq e CDIRQ_COMPLETE (response_push (stat s) s).
Definition error (e : Env) (s : St) : St := set_irq e CDIRQ_ERROR (response_push (Z.lor (stat s) CDSTAT_ERROR) s).
Definition arm (cmd delay : Z) (s : St) : St := s <| pending := mkPending cmd true delay 1 |>.
Definition quiet_audio (s : St) : St := call_spu spu_cd_audio_reset (xa_reset_decode s).

Definition cmd_GetStat (e : Env) (s : St) : St :=
  ack e (set_stat (Z.lor (stat s) (if has_disc s then CDSTAT_MOTOR else CDSTAT_SHELL)) s).

Definition cmd_SetLoc (e : Env) (s : St) : St :=
  let s :=
    if 3 <=? n_params s then
      let d := drive s in
      let current_lba := if 0 <=? last_sector_lba (last s) then last_sector_lba (last s)
                         else msf_to_lba (seek_min d) (seek_sec d) (seek_sect d) in
      let m := u8 (bcd_to_bin (param 0 s)) in
      let sc := u8 (bcd_to_bin (param 1 s)) in
      let f := u8 (bcd_to_bin (param 2 s)) in
      let lba := msf_to_lba m sc f in
      on_drive (fun d => d <| seek_min := m |> <| seek_sec := sc |> <| seek_sect := f |> <| s_setloc_lba := lba |>
                           <| setloc_seek_far := 16 <? Z.abs (current_lba - lba) |>) s
    else s in
  ack e s.

(** ReadN and ReadS. *)
Definition cmd_Read (e : Env) (cmd : Z) (s : St) : St :=
  if negb (has_disc s) then error e s else ack e (start_read_stream cmd s).

Definition cmd_MotorOn (e : Env) (s : St) : St :=
  if has (stat s) CDSTAT_MOTOR
  then set_irq e CDIRQ_ERROR (response_push 0x20 (response_push (Z.lor (stat s) CDSTAT_ERROR) s))
  else let s := ack e s in arm 0x07 (apply_speed 30000 s) s.

Definition cmd_Stop (e : Env) (s : St) : St :=
  let s := quiet_audio (stop_read_stream s) in
  let s := set_stat (Z.ldiff (stat s) (Z.lor (Z.lor CDSTAT_READ CDSTAT_PLAY) CDSTAT_SEEK)) s in
  let s := ack e s in arm 0x08 (apply_speed 30000 s) s.

Definition cmd_Pause (e : Env) (s : St) : St :=
  let s := quiet_audio (stop_read_stream s) in
  let s := set_stat (Z.ldiff (stat s) CDSTAT_READ) s in
  let s := ack e s in arm 0x09 (apply_speed 10000 s) s.

Definition cmd_Init (e : Env) (s : St) : St :=
  let s := xa_reset_decode (call_spu spu_cd_audio_reset (stop_read_stream s)) in
  let s := set_stat (if has_disc s then CDSTAT_MOTOR else CDSTAT_SHELL) s in
  let s := ack e s in arm 0x0A (apply_speed 50000 s) s.

Definition cmd_Mute (e : Env) (on : bool) (s : St) : St := ack e (on_drive (fun d => d <| cd_muted := on |>) s).

Definition cmd_SetFilter (e : Env) (s : St) : St :=
  let s := if 2 <=? n_params s
           then xa_reset_decode (on_drive (fun d => d <| filter_file := param 0 s |> <| filter_channel := param 1 s |>) s)
           else s in
  ack e s.

Definition cmd_SetMode (e : Env) (s : St) : St :=
  let s :=
    if 1 <=? n_params s then
      let s := on_drive (fun d => d <| mode_reg := param 0 s |>) s in
      if negb (has (mode_reg (drive s)) 0x40) then quiet_audio s else s
    else s in
  ack e s.

Definition cmd_Getparam (e : Env) (s : St) : St :=
  set_irq e CDIRQ_ACK (push_all [stat s; mode_reg (drive s); 0x00; filter_file (drive s); filter_channel (drive s)] s).

Definition cmd_GetlocL (e : Env) (s : St) : St :=
  let l := last s in let d := drive s in
  let lba := if 0 <=? last_sector_lba l then last_sector_lba l
             else msf_to_lba (read_min d) (read_sec d) (read_sect d) in
  let '(m, sc, f) := lba_to_msf lba 150 in
  set_irq e CDIRQ_ACK (push_all [bin_to_bcd m; bin_to_bcd sc; bin_to_bcd f;
    if negb (last_sector_raw_mode l =? 0) then last_sector_raw_mode l else CDROM_SECTOR_MODE2;
    last_sector_xa_file l; last_sector_xa_channel l; last_sector_xa_submode l; last_sector_xa_coding l] s).

Definition cmd_GetlocP (e : Env) (s : St) : St :=
  let l := last s in let d := drive s in
  let lba := if reading d then msf_to_lba (read_min d) (read_sec d) (read_sect d)
             else if 0 <=? last_sector_lba l then last_sector_lba l
             else msf_to_lba (seek_min d) (seek_sec d) (seek_sect d) in
  let '(rm, rs, rf) := lba_to_msf lba 0 in
  let '(am, as_, af) := lba_to_msf lba 150 in
  set_irq e CDIRQ_ACK (push_all [0x01; 0x01; bin_to_bcd rm; bin_to_bcd rs; bin_to_bcd rf;
    bin_to_bcd am; bin_to_bcd as_; bin_to_bcd af] s).

Definition cmd_GetTN (e : Env) (s : St) : St :=
  let last := match iso_handle s with Some h => iso_track_count h | None => 1 end in
  let last := if last <? 1 then 1 else last in
  set_irq e CDIRQ_ACK (push_all [stat s; 0x01; bin_to_bcd last] s).

Definition cmd_GetTD (e : Env) (s : St) : St :=
  match iso_handle s with
  | None => set_irq e CDIRQ_ERROR (push_all [Z.lor (stat s) CDSTAT_ERROR; 0x80] s)
  | Some h =>
      let raw := if 1 <=? n_params s then param 0 s else 0 in
      let track := bcd_to_bin raw in
      let lba := if (raw =? 0xAA) || (track =? 0) then s32 (iso_sector_count h) else s32 (iso_track_start_lba h track) in
      let '(m, sc, _) := lba_to_msf lba 150 in
      set_irq e CDIRQ_ACK (push_all [stat s; bin_to_bcd m; bin_to_bcd sc] s)
  end.

Definition cmd_Play (e : Env) (s : St) : St :=
  if negb (has_disc s) then error e s else
  ack e (set_stat (Z.lor (Z.lor (Z.ldiff (stat s) (Z.lor CDSTAT_SEEK CDSTAT_READ)) CDSTAT_MOTOR) CDSTAT_PLAY) s).

(** SeekL and SeekP. *)
Definition cmd_Seek (e : Env) (cmd : Z) (s : St) : St :=
  if negb (has_disc s)
  then set_irq e CDIRQ_ERROR (response_push (Z.lor (Z.lor (stat s) CDSTAT_ERROR) CDSTAT_SEEKERR) s)
  else
    let s := quiet_audio s in
    let s := set_stat (Z.lor (stat s) CDSTAT_SEEK) s in
    let s := ack e s in arm cmd (seek_complete_delay_cycles s) s.

Definition cmd_GetID (e : Env) (s : St) : St := let s := ack e s in arm 0x1A (apply_speed 30000 s) s.
Definition cmd_ReadTOC (e : Env) (s : St) : St := let s := ack e s in arm 0x1E (apply_speed 100000 s) s.

Definition cmd_Test (e : Env) (s : St) : St :=
  if (1 <=? n_params s) && (param 0 s =? 0x20)
  then set_irq e CDIRQ_ACK (push_all [0x94; 0x09; 0x19; 0xC0] s)
  else ack e s.

Definition dispatch_command (e : Env) (cmd : Z) (s : St) : St :=
  if cmd =? 0x01 then cmd_GetStat e s
  else if cmd =? 0x02 then cmd_SetLoc e s
  else if cmd =? 0x03 then cmd_Play e s
  else if cmd =? 0x06 then cmd_Read e cmd s
  else if cmd =? 0x07 then cmd_MotorOn e s
  else if cmd =? 0x08 then cmd_Stop e s
  else if cmd =? 0x09 then cmd_Pause e s
  else if cmd =? 0x0A then cmd_Init e s
  else if cmd =? 0x0B then cmd_Mute e true s
  else if cmd =? 0x0C then cmd_Mute e false s
  else if cmd =? 0x0D then cmd_SetFilter e s
  else if cmd =? 0x0E then cmd_SetMode e s
  else if cmd =? 0x0F then cmd_Getparam e s
  else if cmd =? 0x10 then cmd_GetlocL e s
  else if cmd =? 0x11 then cmd_GetlocP e s
  else if cmd =? 0x13 then cmd_GetTN e s
  else if cmd =? 0x14 then cmd_GetTD e s
  else if (cmd =? 0x15) || (cmd =? 0x16) then cmd_Seek e cmd s
  else if cmd =? 0x19 then cmd_Test e s
  else if cmd =? 0x1A then cmd_GetID e s
  else if cmd =? 0x1B then cmd_Read e cmd s
  else if cmd =? 0x1E then cmd_ReadTOC e s
  else error e s.

Definition exec_command (e : Env) (cmd : Z) (s : St) : St :=
  let s := trace_cdrom e (ch "C") 0 cmd 0 s in
  let s := record EV_ENQ SRC_CD_CMD cmd s in
  let count := clamp_count (n_params s) in
  let params := take (Z.to_nat count) (param_fifo (fifos s)) in
  let s := response_clear s in
  let s := dispatch_command e cmd s in
  let s := on_fifos (fun f => f <| param_count := 0 |>) s in
  let s := fire_cdrom_irq e s in
  record_command_history e (ch "C") cmd params count s.

Definition try_execute_queued_command (e : Env) (s : St) : St :=
  let q := queued_cmd s in
  if negb (q_pending q) || negb (irq_flag (regs s) =? 0) then s else
  let cmd := q_cmd q in
  let count := clamp_count (q_param_count q) in
  let s := on_fifos (fun f => f <| param_fifo := take (Z.to_nat count) (q_params q) ++ drop (Z.to_nat count) (param_fifo f) |>
                                <| param_count := count |>) s in
  let s := s <| queued_cmd := mkQueued 0 (replicate (Z.to_nat PARAM_FIFO_SIZE) 0) 0 false |> in
  exec_command e cmd s.

Definition queue_or_exec_command (e : Env) (cmd : Z) (s : St) : St :=
  if irq_flag (regs s) =? 0 then exec_command e cmd s else
  let count := clamp_count (n_params s) in
  let params := take (Z.to_nat count) (param_fifo (fifos s)) ++ drop (Z.to_nat count) (q_params (queued_cmd s)) in
  let s := s <| queued_cmd := mkQueued cmd params count true |> in
  let s := on_fifos (fun f => f <| param_count := 0 |>) s in
  let s := trace_cdrom e (ch "Q") 0 cmd 0 s in
  record_command_history e (ch "Q") cmd params count s.

(** ** Time *)

(** What completes when the delay of a command runs out. *)
Definition complete_pending (e : Env) (s : St) : St :=
  let cmd := p_cmd (pending s) in
  if (cmd =? 0x06) || (cmd =? 0x1B) then
    if reading (drive s) then
      let '(delivered, s) := read_next_sector e s in
      if delivered then fire_cdrom_irq e (set_irq e CDIRQ_DATA_READY (response_push (stat s) s)) else s
    else s
  else if cmd =? 0x07 then fire_cdrom_irq e (complete e (set_stat (Z.lor (stat s) CDSTAT_MOTOR) s))
  else if cmd =? 0x08 then
    fire_cdrom_irq e (complete e (set_stat (Z.ldiff (stat s)
      (Z.lor (Z.lor (Z.lor CDSTAT_MOTOR CDSTAT_READ) CDSTAT_PLAY) CDSTAT_SEEK)) s))
  else if cmd =? 0x09 then fire_cdrom_irq e (complete e (set_stat (Z.ldiff (stat s) CDSTAT_READ) s))
  else if cmd =? 0x0A then fire_cdrom_irq e (complete e s)
  else if (cmd =? 0x15) || (cmd =? 0x16) then
    fire_cdrom_irq e (complete e (on_drive (fun d => d <| setloc_seek_far := false |>) (set_stat (Z.ldiff (stat s) CDSTAT_SEEK) s)))
  else if cmd =? 0x1A then
    fire_cdrom_irq e
      (if negb (has_disc s)
       then set_irq e CDIRQ_ERROR (push_all [Z.lor (stat s) CDSTAT_IDERROR; 0x80] s)
       else set_irq e CDIRQ_COMPLETE (push_all ([stat s; 0x00; 0x20; 0x00] ++ disc_scex s) s))
  else if cmd =? 0x1E then fire_cdrom_irq e (complete e s)
  else s.

Definition process_pending (e : Env) (cycles : Z) (s : St) : St :=
  if negb (p_pending (pending s)) then s else
  if cycles =? 0 then s else
  if negb (irq_flag (regs s) =? 0) then s else
  let delay := s32 (p_delay (pending s) - cycles) in
  let s := s <| pending := (pending s) <| p_delay := delay |> |> in
  if 0 <? delay then s else
  let s := s <| pending := (pending s) <| p_pending := false |> |> in
  complete_pending e (response_clear s).

Definition process_read_stream (e : Env) (cycles : Z) (s : St) : St :=
  if negb (reading (drive s)) then s else
  let held := negb (irq_flag (regs s) =? 0) in
  if held && negb (dma_active e) then s else
  if sector_available (sector s) && held then s else
  let s := if 0 <? cycles then on_drive (fun d => d <| read_delay := s32 (read_delay d - cycles) |>) s else s in
  if read_delay (drive s) <=? 0 then
    let s :=
      if negb held then
        let s := if sector_available (sector s) then trace_cdrom e (ch "O") 0 (u32 (sector_read_pos (sector s))) 0 s else s in
        (deliver_read_sector e s).2
      else (deliver_read_sector_without_irq e s).2 in
    let s := on_drive (fun d => d <| read_delay := s32 (read_delay d + sector_delay_cycles s) |>) s in
    if read_delay (drive s) <=? 0 then on_drive (fun d => d <| read_delay := sector_delay_cycles s |>) s else s
  else s.

Definition cdrom_advance (e : Env) (cycles : Z) (s : St) : St :=
  let s :=
    if 0 <? cdrom_irq_present_delay (regs s) then
      let d := s32 (cdrom_irq_present_delay (regs s) - cycles) in
      on_regs (fun r => r <| cdrom_irq_present_delay := if d <? 0 then 0 else d |>) s
    else s in
  let s := refresh_cdrom_irq_line e s in
  let s := try_execute_queued_command e s in
  let s := process_pending e cycles s in
  let s := process_read_stream e cycles s in
  refresh_cdrom_irq_line e s.

Definition cdrom_tick (e : Env) : St -> St := cdrom_advance e 33868.

Definition cdrom_cycles_to_irq (i_mask : Z) (s : St) : Z :=
  if negb (has i_mask (Z.shiftl 1 2)) then 0xFFFFFFFF else
  let best := 0xFFFFFFFF in
  let best :=
    if irq_enabled (regs s) then
      let d := if 0 <? cdrom_irq_present_delay (regs s) then cdrom_irq_present_delay (regs s) else 0 in
      if d <? best then d else best
    else best in
  let best := if p_pending (pending s) && (0 <? p_delay (pending s)) && (p_delay (pending s) <? best)
              then p_delay (pending s) else best in
  if reading (drive s) && (0 <? read_delay (drive s)) && (read_delay (drive s) <? best) then read_delay (drive s) else best.

(** ** Registers *)

Definition cdrom_read (e : Env) (addr : Z) (s : St) : Z * St :=
  let '(ret, s) :=
    if addr =? 0x1F801800 then
      let f := fifos s in
      let v := Z.land (index_reg (regs s)) 0x03 in
      let v := if param_count f =? 0 then Z.lor v (Z.shiftl 1 3) else v in
      let v := if param_count f <? PARAM_FIFO_SIZE then Z.lor v (Z.shiftl 1 4) else v in
      let v := if response_read f <? response_count f then Z.lor v (Z.shiftl 1 5) else v in
      let v := if data_fifo_ready s then Z.lor v (Z.shiftl 1 6) else v in
      let v := if q_pending (queued_cmd s) then Z.lor v (Z.shiftl 1 7) else v in
      (v, s)
    else if addr =? 0x1F801801 then
      let f := fifos s in
      if response_read f <? response_count f
      then (aget (response_fifo f) (response_read f), on_fifos (fun f => f <| response_read := response_read f + 1 |>) s)
      else (0, s)
    else if addr =? 0x1F801802 then
      if data_fifo_ready s then
        let v := aget (sector_buffer (sector s)) (sector_read_pos (sector s)) in
        let s := on_sector (fun b => b <| sector_read_pos := sector_read_pos b + 1 |>) s in
        (v, if sector_size (sector s) <=? sector_read_pos (sector s)
            then on_sector (fun b => b <| sector_available := false |>) s else s)
      else (0, s)
    else if addr =? 0x1F801803 then
      if (index_reg (regs s) =? 0) || (index_reg (regs s) =? 2) then (irq_enable (regs s), s)
      else (Z.lor (irq_flag (regs s)) 0xE0, s)
    else (0, s) in
  (ret, trace_cdrom e (ch "R") addr ret 1 s).

(** A write of 1s to irq_flag. *)
Definition irq_acknowledge (val : Z) : St -> St := on_regs (fun r =>
  let had_active_irq := negb (Z.land (irq_flag r) 0x1F =? 0) in
  let r := r <| irq_flag := Z.ldiff (irq_flag r) (Z.land val 0x1F) |> in
  if had_active_irq && (Z.land (irq_flag r) 0x1F =? 0) then r <| cdrom_intc_request_latched := false |> else r).

Definition cdrom_write (e : Env) (addr value : Z) (s : St) : St :=
  let val := u8 value in
  let s := trace_cdrom e (ch "W") addr val 1 s in
  let index := index_reg (regs s) in
  if addr =? 0x1F801800 then on_regs (fun r => r <| index_reg := Z.land val 0x03 |>) s
  else if addr =? 0x1F801801 then if index =? 0 then queue_or_exec_command e val s else s
  else if addr =? 0x1F801802 then
    if index =? 0 then
      on_fifos (fun f => if param_count f <? PARAM_FIFO_SIZE
        then f <| param_fifo := aset (param_fifo f) (param_count f) val |> <| param_count := param_count f + 1 |> else f) s
    else if index =? 1 then on_regs (fun r => r <| irq_enable := Z.land val 0x1F |>) s else s
  else if addr =? 0x1F801803 then
    if index =? 0 then
      let s := on_regs (fun r => r <| request_reg := val |>) s in
      if negb (has val CDROM_REQUEST_BFRD) then on_sector (fun b => b <| sector_read_pos := 0 |>) s else s
    else if index =? 1 then
      let s := irq_acknowledge val s in
      let s := if has val 0x40 then on_fifos (fun f => f <| param_count := 0 |>) s else s in
      try_execute_queued_command e s
    else s
  else s.

(** ** DMA channel 3 *)

Definition cdrom_dma_ready (s : St) : bool :=
  has (request_reg (regs s)) CDROM_REQUEST_BFRD && sector_available (sector s)
  && (sector_read_pos (sector s) + 4 <=? sector_size (sector s)).

(** [s_dma_trace]: PSX_CD_DMA_TRACE is set. *)
Definition cdrom_dma_read (s_dma_trace : bool) (e : Env) (s : St) : Z * St :=
  if cdrom_dma_ready s then
    let b := sector s in
    let byte i := aget (sector_buffer b) (sector_read_pos b + i) in
    let val := byte 0 + byte 1 * 0x100 + byte 2 * 0x10000 + byte 3 * 0x1000000 in
    let s := on_sector (fun b => b <| sector_read_pos := sector_read_pos b + 4 |>) s in
    let s := if sector_size (sector s) <=? sector_read_pos (sector s)
             then on_sector (fun b => b <| sector_available := false |>) s else s in
    (val, if s_dma_trace then trace_cdrom e (ch "D") 0 val 4 s else s)
  else (0, s).

Definition cdrom_dma_sector_word_count (s : St) : Z :=
  let size := sector_size (sector s) in
  let size := if size <=? 0 then (if has (mode_reg (drive s)) 0x20 then WHOLE_SECTOR_SIZE else SECTOR_SIZE) else size in
  u32 (Z.quot (size + 3) 4).

(** ** Start, probes, snapshot *)

Definition cdrom_init (e : Env) (cue_path : option string) (s : St) : St :=
  let s := on_fifos (fun f => mkFifos (replicate 16 0) 0 (replicate 16 0) 0 0) s in
  let s := on_sector (fun b => mkSector (replicate (Z.to_nat SECTOR_BUFFER_SIZE) 0) 0 false 0) s in
  let s := on_last (fun _ => mkLast (replicate (Z.to_nat SECTOR_BUFFER_SIZE) 0) (-1) 0 0 0 false 0 0 0 0 0) s in
  let s := on_regs (fun r => mkRegs 0 (stat_reg r) 0 0x1F 0 false 0 0 0) s in
  let s := stop_read_stream s in
  let s := on_drive (fun d => d <| mode_reg := 0 |> <| filter_file := 0 |> <| filter_channel := 0 |> <| cd_muted := false |>) s in
  let s := quiet_audio s in
  let s := s <| pending := (pending s) <| p_pending := false |> |>
             <| queued_cmd := mkQueued 0 (replicate 16 0) 0 false |> in
  let s := on_drive (fun d => d <| seek_min := 0 |> <| seek_sec := 0 |> <| seek_sect := 0 |> <| setloc_seek_far := false |>) s in
  let s := on_diag (fun g => g <| sector_history := Rings.ring_empty |>) s in
  let s := match cue_path with Some p => s <| iso_handle := iso_open p |> | None => s end in
  let s := set_stat (if has_disc s then CDSTAT_MOTOR else CDSTAT_SHELL) s in
  let s := on_diag (fun g => g <| cdrom_trace := Rings.ring_empty |> <| command_history := Rings.ring_empty |>) s in
  trace_cdrom e (ch "N") 0 (if has_disc s then 1 else 0) 0 s.

Definition cdrom_set_disc_scex (scex : list Z) (s : St) : St := s <| disc_scex := scex |>.

Definition cdrom_load_in_progress (e : Env) (s : St) : bool :=
  if xa_stream_active (xa s) then false
  else if reading (drive s) then true
  else if 0 <? s_burst_count (diag s) then
    match s_bursts (diag s) !! ((s_burst_count (diag s) - 1) mod CD_BURST_CAP) with
    | Some b => u32 (s_frame_count e) <=? u32 (b_end_frame b + CD_BURST_GAP_FRAMES)
    | None => u32 (s_frame_count e) <=? CD_BURST_GAP_FRAMES
    end
  else false.

Definition cdrom_debug_clear_trace (s : St) : St := on_diag (fun g => g <| cdrom_trace := Rings.ring_empty |>) s.
Definition cdrom_debug_clear_command_history (s : St) : St := on_diag (fun g => g <| command_history := Rings.ring_empty |>) s.
Definition cdrom_debug_clear_sector_history (s : St) : St := on_diag (fun g => g <| sector_history := Rings.ring_empty |>) s.

(** Bytes of the last sector: [len] from [offset], as far as the sector goes. *)
Definition cdrom_debug_copy_last_sector (offset len : Z) (s : St) : list Z :=
  let l := last s in
  if (last_sector_size l <=? 0) || (u32 (last_sector_size l) <=? offset) then [] else
  let avail := u32 (last_sector_size l) - offset in
  let len := if avail <? len then avail else len in
  take (Z.to_nat len) (drop (Z.to_nat offset) (last_sector_buffer l)).

(** The most recent [max] bursts, newest first. *)
Definition cdrom_get_bursts (max : Z) (s : St) : list CdBurst :=
  let g := diag s in
  let n := Z.min (Z.min CD_BURST_CAP (s_burst_count g)) max in
  map (fun k => default (mkBurst 0 0 0 0 0 0 0) (s_bursts g !! (u32 (s_burst_count g - 1 - k) mod CD_BURST_CAP))) (seqZ 0 n).

(** What a boot snapshot carries: everything but the diagnostics, the disc and
    its region string. *)
Record Snapshot := mkSnapshot {
  sn_regs : Regs; sn_fifos : Fifos; sn_sector : Sector; sn_last : Last; sn_drive : Drive; sn_xa : Xa; sn_speed : Speed;
  sn_pending : PendingCmd; sn_queued : QueuedCmd
}.
Definition cdrom_snapshot_write (s : St) : Snapshot :=
  mkSnapshot (regs s) (fifos s) (sector s) (last s) (drive s) (xa s) (speed s) (pending s) (queued_cmd s).
Definition cdrom_snapshot_read (n : Snapshot) (s : St) : St :=
  s <| regs := sn_regs n |> <| fifos := sn_fifos n |> <| sector := sn_sector n |> <| last := sn_last n |> <| drive := sn_drive n |>
    <| xa := sn_xa n |> <| speed := sn_speed n |> <| pending := sn_pending n |> <| queued_cmd := sn_queued n |>.

End Commands.

End Cdrom.
