(* ===== verification/CdromProtocol.v ===== *)
(** * CD-ROM controller: responses and interrupts

    What holds of every run of Cdrom.v: the buffers and cursors stay in their
    bounds, a response the guest has not acknowledged is never replaced, and a
    response raises I_STAT bit 2 once, exactly when its presentation delay has
    run out.

    [Quiet], [Silent] and [Answered] relate the states around a helper of
    cdrom.c: it leaves the response alone, it only builds response bytes, it
    produces one response.  The hint database [cd] chains their lemmas through
    the bodies of the commands. *)

From Stdlib Require Import Ascii String.
From S2P Require Import Prelude Bus Rings Cdrom.
Import Datatypes Cdrom.
Import (hints) Cdrom.

Module CdProtocol.

(** ** The history of interrupts *)

Definition is_response (ev : Ev) : bool :=
  match ev with RingRec k d _ => (k =? EV_DEQ) && (d =? SRC_CD_IRQ) | IrqRaise _ _ => false end.

(** Interrupts raised and responses produced in a log. *)
Definition raised (l : list Ev) : Z := Z.of_nat (length (List.filter is_raise l)).
Definition responses (l : list Ev) : Z := Z.of_nat (length (List.filter is_response l)).

Lemma raised_snoc l ev : raised (l ++ [ev]) = raised l + (if is_raise ev then 1 else 0).
Proof. unfold raised. rewrite List.filter_app, length_app. simpl. case_match; simpl; lia. Qed.
Lemma responses_snoc l ev : responses (l ++ [ev]) = responses l + (if is_response ev then 1 else 0).
Proof. unfold responses. rewrite List.filter_app, length_app. simpl. case_match; simpl; lia. Qed.

Create HintDb cd discriminated.
#[local] Hint Constants Opaque : cd.
#[local] Hint Variables Opaque : cd.

Section Protocol.
Context {H : Type} `{I : Iso H}.
Abbreviation St := (State H).
Implicit Types s : St.

(** The response is armed and waits for its delay. *)
Definition armed (r : Regs) : bool := irq_enabled r && negb (cdrom_intc_request_latched r).
(** Presenting it now raises the interrupt. *)
Definition due (r : Regs) : bool := armed r && (cdrom_irq_present_delay r <=? 0).

(** ** Frames *)

(** The part of the registers the interrupt logic reads. *)
Definition irq_view (r : Regs) : Z * Z * bool * Z * Z :=
  (irq_flag r, irq_enable r, cdrom_intc_request_latched r, cdrom_irq_generation r, cdrom_irq_present_delay r).
Definition response_view (f : Fifos) : list Z * Z * Z := (response_fifo f, response_read f, response_count f).

Record Silent (s s' : St) : Prop := mkSilent {
  si_view : irq_view (regs s') = irq_view (regs s);
  si_queue : queued_cmd s' = queued_cmd s;
  si_istat : i_stat s' = i_stat s;
  si_raised : raised (log s') = raised (log s);
  si_responses : responses (log s') = responses (log s)
}.

Record Quiet (s s' : St) : Prop := mkQuiet {
  qu_silent : Silent s s';
  qu_response : response_view (fifos s') = response_view (fifos s)
}.

Record Answered (s s' : St) : Prop := mkAnswered {
  an_flag : 1 <= irq_flag (regs s') <= 5;
  an_enable : irq_enable (regs s') = irq_enable (regs s);
  an_latch : cdrom_intc_request_latched (regs s') = false;
  an_generation : cdrom_irq_generation (regs s') = u32 (cdrom_irq_generation (regs s) + 1);
  an_delay : cdrom_irq_present_delay (regs s') = CDROM_IRQ_PRESENT_DELAY;
  an_istat : i_stat s' = i_stat s;
  an_raised : raised (log s') = raised (log s);
  an_responses : responses (log s') = responses (log s) + 1
}.

Lemma silent_refl s : Silent s s.
Proof. done. Qed.
Lemma quiet_refl s : Quiet s s.
Proof. done. Qed.
Lemma quiet_is_silent s s' : Quiet s s' -> Silent s s'.
Proof. by intros []. Qed.
Lemma silent_trans s1 s2 s3 : Silent s1 s2 -> Silent s2 s3 -> Silent s1 s3.
Proof. intros [] []. split; congruence. Qed.
Lemma quiet_chain s1 s2 s3 : Quiet s1 s2 -> Quiet s2 s3 -> Quiet s1 s3.
Proof. intros [] []. split; [by eapply silent_trans|congruence]. Qed.
Lemma silent_answered s1 s2 s3 : Silent s1 s2 -> Answered s2 s3 -> Answered s1 s3.
Proof.
  intros [V] []. unfold irq_view in V. split; try congruence.
Qed.
Lemma answered_silent s1 s2 s3 : Answered s1 s2 -> Silent s2 s3 -> Answered s1 s3.
Proof. intros [] [V]. unfold irq_view in V. split; congruence. Qed.

(** *** The primitives *)

Lemma quiet_on_sector s0 s f : Quiet s0 s -> Quiet s0 (on_sector f s).
Proof. by intros [[]]. Qed.
Lemma quiet_on_last s0 s f : Quiet s0 s -> Quiet s0 (on_last f s).
Proof. by intros [[]]. Qed.
Lemma quiet_on_drive s0 s f : Quiet s0 s -> Quiet s0 (on_drive f s).
Proof. by intros [[]]. Qed.
Lemma quiet_on_xa s0 s f : Quiet s0 s -> Quiet s0 (on_xa f s).
Proof. by intros [[]]. Qed.
Lemma quiet_on_diag s0 s f : Quiet s0 s -> Quiet s0 (on_diag f s).
Proof. by intros [[]]. Qed.
Lemma quiet_set_stat s0 s v : Quiet s0 s -> Quiet s0 (set_stat v s).
Proof. by intros [[]]. Qed.
Lemma quiet_call_spu s0 s c : Quiet s0 s -> Quiet s0 (call_spu c s).
Proof. by intros [[]]. Qed.
Lemma quiet_arm s0 s c d : Quiet s0 s -> Quiet s0 (arm c d s).
Proof. by intros [[]]. Qed.
Lemma quiet_record s0 s k d a : (k =? EV_DEQ) && (d =? SRC_CD_IRQ) = false -> Quiet s0 s -> Quiet s0 (record k d a s).
Proof.
  intros E [[V Q Is R Re] F]. split; [split|]; try done.
  - change (raised (log s ++ [RingRec k d a]) = raised (log s0)). rewrite raised_snoc. simpl. lia.
  - change (responses (log s ++ [RingRec k d a]) = responses (log s0)). rewrite responses_snoc. simpl. rewrite E. lia.
Qed.
Lemma quiet_clear_sector s0 s : Quiet s0 s -> Quiet s0 (clear_sector_buffer s).
Proof. by intros [[]]. Qed.
Lemma silent_fifos s0 s f : Silent s0 s -> Silent s0 (on_fifos f s).
Proof. by intros []. Qed.

(** A transformation that is quiet keeps what was known. *)
Lemma silent_then s0 s f : (forall s, Quiet s (f s)) -> Silent s0 s -> Silent s0 (f s).
Proof. intros F S. exact (silent_trans _ _ _ S (quiet_is_silent _ _ (F s))). Qed.
Lemma answered_then s0 s f : (forall s, Silent s (f s)) -> Answered s0 s -> Answered s0 (f s).
Proof. intros F S. exact (answered_silent _ _ _ S (F s)). Qed.

Lemma answers_set_irq e t s0 s : 1 <= t <= 5 -> Silent s0 s -> Answered s0 (set_irq e t s).
Proof.
  intros Ht [V Q Is R Re]. unfold irq_view in V.
  assert (L : log (set_irq e t s) = log s ++ [RingRec EV_DEQ SRC_CD_IRQ t]) by done.
  split.
  - change (1 <= u8 t <= 5). by rewrite u8_id by lia.
  - change (irq_enable (regs s) = irq_enable (regs s0)). congruence.
  - done.
  - change (u32 (cdrom_irq_generation (regs s) + 1) = u32 (cdrom_irq_generation (regs s0) + 1)). congruence.
  - done.
  - done.
  - rewrite L, raised_snoc. simpl. lia.
  - rewrite L, responses_snoc. simpl. lia.
Qed.

#[local] Hint Resolve quiet_refl silent_refl quiet_on_sector quiet_on_last quiet_on_drive quiet_on_xa quiet_on_diag
  quiet_set_stat quiet_call_spu quiet_arm quiet_clear_sector silent_fifos : cd.
#[local] Hint Extern 5 (Silent _ _) => apply quiet_is_silent : cd.
#[local] Hint Extern 1 (Quiet _ (record _ _ _ _)) => apply quiet_record; [reflexivity|] : cd.

Lemma quiet_trace e k a v w s0 s : Quiet s0 s -> Quiet s0 (trace_cdrom e k a v w s).
Proof. apply quiet_on_diag. Qed.
Lemma quiet_history e k c ps n s0 s : Quiet s0 s -> Quiet s0 (record_command_history e k c ps n s).
Proof. apply quiet_on_diag. Qed.
Lemma quiet_sector_history e lba size mode raw bytes d s0 s :
  Quiet s0 s -> Quiet s0 (record_sector_history e lba size mode raw bytes d s).
Proof. apply quiet_on_diag. Qed.
Lemma quiet_burst e s0 s : Quiet s0 s -> Quiet s0 (burst_note_sector e s).
Proof. apply quiet_on_diag. Qed.
Lemma quiet_reset_decode s0 s : Quiet s0 s -> Quiet s0 (xa_reset_decode s).
Proof. apply quiet_on_xa. Qed.
Lemma quiet_quiet_audio s0 s : Quiet s0 s -> Quiet s0 (quiet_audio s).
Proof. intros. by apply quiet_call_spu, quiet_reset_decode. Qed.
Lemma quiet_stop s0 s : Quiet s0 s -> Quiet s0 (stop_read_stream s).
Proof. apply quiet_on_drive. Qed.
#[local] Hint Resolve quiet_trace quiet_history quiet_sector_history quiet_burst quiet_reset_decode quiet_quiet_audio quiet_stop : cd.

Lemma quiet_if (b : bool) s0 s t : Quiet s0 s -> Quiet s0 t -> Quiet s0 (if b then s else t).
Proof. by destruct b. Qed.
Lemma silent_if (b : bool) s0 s t : Silent s0 s -> Silent s0 t -> Silent s0 (if b then s else t).
Proof. by destruct b. Qed.
#[local] Hint Resolve quiet_if silent_if : cd.

Lemma quiet_xa_audio e raw d s : Quiet s (maybe_deliver_xa_audio e raw d s).2.
Proof.
  unfold maybe_deliver_xa_audio. destruct raw as [raw|]; [|by auto with cd].
  repeat (case_match; [by eauto 40 with cd|]). simpl.
  match goal with |- context [(if ?b then ?f else ?g) ?x ?hl ?hr] => destruct ((if b then f else g) x hl hr) as [[l r] native] end.
  simpl. eauto 40 with cd.
Qed.

Lemma quiet_read_sector_at e p s : Quiet s (read_sector_at e p s).2.
Proof.
  destruct p as [[min sec] sect]. unfold read_sector_at.
  match goal with |- context [maybe_deliver_xa_audio ?e ?r ?d s] =>
    pose proof (quiet_xa_audio e r d s) as Q; destruct (maybe_deliver_xa_audio e r d s) as [a t] end.
  cbv zeta. cbn [snd] in Q |- *. eauto 40 with cd.
Qed.

Lemma quiet_start_read e_cmd s0 s : Quiet s0 s -> Quiet s0 (start_read_stream e_cmd s).
Proof. intros. unfold start_read_stream. cbv zeta. eauto 40 with cd. Qed.

Lemma quiet_read_next e s : Quiet s (read_next_sector e s).2.
Proof.
  unfold read_next_sector. pose proof (quiet_read_sector_at e (read_min (drive s), read_sec (drive s), read_sect (drive s)) s) as Q.
  destruct (read_sector_at _ _ _) as [a t]. simpl in *. auto with cd.
Qed.

(** *** The interrupt helpers *)

Lemma present_not_due e s : due (regs s) = false -> present_cdrom_irq e s = s.
Proof.
  unfold due, armed, present_cdrom_irq. destruct (Z.ltb_spec 0 (cdrom_irq_present_delay (regs s))); [done|].
  replace (cdrom_irq_present_delay (regs s) <=? 0) with true by (symmetry; by apply Z.leb_le).
  rewrite andb_true_r. by intros ->.
Qed.

(** What raising the interrupt does. *)
Lemma present_due e s :
  let s' := present_cdrom_irq e s in
  due (regs s) = true ->
  i_stat s' = psx_irq_raise (i_stat s) 2 /\ raised (log s') = raised (log s) + 1 /\
  responses (log s') = responses (log s) /\ due (regs s') = false /\
  irq_flag (regs s') = irq_flag (regs s) /\ irq_enable (regs s') = irq_enable (regs s) /\
  cdrom_irq_generation (regs s') = cdrom_irq_generation (regs s) /\
  cdrom_irq_present_delay (regs s') = cdrom_irq_present_delay (regs s) /\
  cdrom_intc_request_latched (regs s') = true /\
  fifos s' = fifos s /\ queued_cmd s' = queued_cmd s.
Proof.
  intros s' D. subst s'. unfold due, armed in D |- *. apply andb_prop in D as [A D]. unfold present_cdrom_irq.
  destruct (Z.ltb_spec 0 (cdrom_irq_present_delay (regs s))); [apply Z.leb_le in D; lia|].
  rewrite A. cbv zeta.
  set (f := irq_flag (regs s)).
  set (t := trace_cdrom _ _ _ _ _ _).
  assert (L : log t = (log s ++ [IrqRaise 2 f]) ++ [RingRec EV_ISTAT_RAISE 2 0]) by done.
  rewrite L, !raised_snoc, !responses_snoc. repeat split; try done; try (simpl; lia).
Qed.

Lemma answered_not_due s s' : Answered s s' -> due (regs s') = false.
Proof. intros A. unfold due. rewrite (an_delay _ _ A). apply andb_false_r. Qed.

Lemma idle_not_due s : irq_flag (regs s) = 0 -> due (regs s) = false.
Proof. intros F. unfold due, armed, irq_enabled. by rewrite F. Qed.

Lemma quiet_fire e s : due (regs s) = false -> Quiet s (fire_cdrom_irq e s).
Proof.
  intros D. unfold fire_cdrom_irq. cbv zeta. case_if.
  - rewrite present_not_due by exact D. eauto with cd.
  - by rewrite present_not_due.
Qed.

Lemma answered_fire e s0 s : Answered s0 s -> Answered s0 (fire_cdrom_irq e s).
Proof. intros A. eapply answered_silent; [exact A|]. apply quiet_fire. by eapply answered_not_due. Qed.

(** *** Pushes *)

Lemma silent_push v s0 s : Silent s0 s -> Silent s0 (response_push v s).
Proof. apply silent_fifos. Qed.
Lemma silent_clear s0 s : Silent s0 s -> Silent s0 (response_clear s).
Proof. apply silent_fifos. Qed.
Lemma silent_push_all l s0 s : Silent s0 s -> Silent s0 (push_all l s).
Proof. unfold push_all. revert s. induction l as [|v l IH]; intros s Q; [done|]. apply IH. by apply silent_push. Qed.
#[local] Hint Resolve silent_push silent_clear silent_push_all : cd.

(** A quiet helper does not disturb silence. *)
Lemma silent_quiet_step (f : St -> St) s0 s : (forall s, Quiet s (f s)) -> Silent s0 s -> Silent s0 (f s).
Proof. intros F S. eapply silent_trans; [exact S|]. apply F. Qed.

(** *** Commands *)

Lemma answers_ack e s0 s : Silent s0 s -> Answered s0 (ack e s).
Proof. intros. apply answers_set_irq; [done|]. by apply silent_push. Qed.
Lemma answers_complete e s0 s : Silent s0 s -> Answered s0 (complete e s).
Proof. intros. apply answers_set_irq; [done|]. by apply silent_push. Qed.
Lemma answers_error e s0 s : Silent s0 s -> Answered s0 (error e s).
Proof. intros. apply answers_set_irq; [done|]. by apply silent_push. Qed.
Lemma answered_arm c d s0 s : Answered s0 s -> Answered s0 (arm c d s).
Proof. by intros []. Qed.
Lemma answered_if (b : bool) s0 s t : Answered s0 s -> Answered s0 t -> Answered s0 (if b then s else t).
Proof. by destruct b. Qed.
Lemma quiet_speed s0 s f : Quiet s0 s -> Quiet s0 (s <| speed := f |>).
Proof. by intros [[]]. Qed.
#[local] Hint Resolve answers_ack answers_complete answers_error answered_arm answered_if quiet_start_read : cd.
#[local] Hint Extern 1 (Answered _ (set_irq _ _ _)) => apply answers_set_irq; [unfold CDIRQ_DATA_READY, CDIRQ_COMPLETE, CDIRQ_ACK, CDIRQ_ERROR; lia|] : cd.

(** Every command produces exactly one response. *)
Lemma answered_dispatch e cmd s : Answered s (dispatch_command e cmd s).
Proof.
  unfold dispatch_command, cmd_GetStat, cmd_SetLoc, cmd_Play, cmd_Read, cmd_MotorOn, cmd_Stop, cmd_Pause, cmd_Init,
    cmd_Mute, cmd_SetFilter, cmd_SetMode, cmd_Getparam, cmd_GetlocL, cmd_GetlocP, cmd_GetTN, cmd_GetTD, cmd_Seek,
    cmd_Test, cmd_GetID, cmd_ReadTOC.
  cbv zeta. repeat (apply answered_if; [repeat case_match; eauto 40 with cd|]). eauto 40 with cd.
Qed.

Lemma answered_exec e cmd s : Answered s (exec_command e cmd s).
Proof.
  unfold exec_command. cbv zeta.
  eapply answered_silent; [|apply quiet_is_silent, quiet_history, quiet_refl].
  apply answered_fire. eapply answered_silent; [|apply silent_fifos, silent_refl].
  eapply silent_answered; [|apply answered_dispatch]. eauto 40 with cd.
Qed.

(** ** One step of the controller *)

(** A response is not replaced before it is acknowledged, and at most one is
    produced. *)
Definition Stage (s s' : St) : Prop :=
  if irq_flag (regs s) =? 0 then Silent s s' \/ Answered s s' else Quiet s s'.

Lemma answered_busy s s' : Answered s s' -> (irq_flag (regs s') =? 0) = false.
Proof. intros A. apply Z.eqb_neq. pose proof (an_flag _ _ A). lia. Qed.

Lemma silent_flag s s' : Silent s s' -> irq_flag (regs s') = irq_flag (regs s).
Proof. intros []. unfold irq_view in *. congruence. Qed.

Lemma stage_trans s1 s2 s3 : Stage s1 s2 -> Stage s2 s3 -> Stage s1 s3.
Proof.
  unfold Stage. destruct (Z.eqb_spec (irq_flag (regs s1)) 0) as [F|F].
  - intros [S|A].
    + rewrite (silent_flag _ _ S), F. intros [S'|A']; [left; by eapply silent_trans|right; by eapply silent_answered].
    + rewrite (answered_busy _ _ A). intros Q. right. by eapply answered_silent, quiet_is_silent.
  - intros Q. rewrite (silent_flag _ _ (qu_silent _ _ Q)). replace (irq_flag (regs s1) =? 0) with false by (symmetry; by apply Z.eqb_neq).
    intros Q'. by eapply quiet_chain.
Qed.

Lemma quiet_stage s s' : Quiet s s' -> Stage s s'.
Proof. intros Q. unfold Stage. case_if; [left; apply Q|done]. Qed.

Lemma stage_not_due s s' : due (regs s) = false -> Stage s s' -> due (regs s') = false.
Proof.
  unfold Stage. destruct (Z.eqb_spec (irq_flag (regs s)) 0) as [F|F]; intros D.
  - intros [S|A]; [|by eapply answered_not_due]. apply idle_not_due. by rewrite (silent_flag _ _ S).
  - intros [[V]]. unfold irq_view in V. unfold due, armed, irq_enabled in *. congruence.
Qed.

Lemma stage_step s s' s'' : Silent s s' \/ Answered s s' -> Quiet s' s'' -> Silent s s'' \/ Answered s s''.
Proof.
  intros [D|D] [Q _]; [left; by eapply silent_trans|right; by eapply answered_silent].
Qed.

(** Executing the queued command replaces the queue; the rest is a stage. *)
Lemma stage_pending e cycles s : Stage s (process_pending e cycles s).
Proof.
  unfold process_pending. cbv zeta. case_if; [by apply quiet_stage|]. case_if; [by apply quiet_stage|].
  unfold Stage. destruct (Z.eqb_spec (irq_flag (regs s)) 0) as [F|F]; [simpl|by simpl].
  case_if; [by left|].
  set (t := response_clear _). assert (St : Silent s t) by done. clearbody t.
  unfold complete_pending. cbv zeta.
  case_if.
  - case_if; [|by left].
    pose proof (quiet_read_next e t) as Q. destruct (read_next_sector e t) as [b u]. simpl in Q.
    assert (Su : Silent s u) by (eapply silent_trans; [exact St|apply Q]).
    case_if; [|by left]. right. apply answered_fire. eauto 40 with cd.
  - repeat (case_if; [right; apply answered_fire; eapply silent_answered; [exact St|]; eauto 40 with cd|]). by left.
Qed.

Lemma stage_read_stream e cycles s : Stage s (process_read_stream e cycles s).
Proof.
  unfold process_read_stream. cbv zeta. case_if; [by apply quiet_stage|].
  destruct (Z.eqb_spec (irq_flag (regs s)) 0) as [F|F]; cbn [negb].
  - rewrite andb_false_r. cbn [andb negb]. unfold Stage. rewrite F. simpl.
    set (t := if 0 <? cycles then _ else _). assert (St : Quiet s t) by (unfold t; eauto with cd). clearbody t.
    case_if; [|left; apply St].
    set (u := if sector_available (sector t) then _ else _). assert (Su : Quiet s u) by (unfold u; eauto with cd). clearbody u.
    assert (D : Silent s (deliver_read_sector e u).2 \/ Answered s (deliver_read_sector e u).2).
    { unfold deliver_read_sector. pose proof (quiet_read_next e u) as Q. destruct (read_next_sector e u) as [b v].
      cbn [snd] in Q. assert (Sv : Quiet s v) by (by eapply quiet_chain). case_if; cbn [snd]; [left; apply Sv|right].
      eapply answered_silent; [|apply quiet_is_silent, quiet_on_diag, quiet_refl]. apply answered_fire. eauto 40 with cd. }
    generalize dependent ((deliver_read_sector e u).2). intros w D.
    eapply stage_step; [exact D|]. eauto 40 with cd.
  - case_if; [by apply quiet_stage|]. case_if; [by apply quiet_stage|]. apply quiet_stage.
    set (t := if 0 <? cycles then _ else _). assert (St : Quiet s t) by (unfold t; eauto with cd). clearbody t.
    case_if; [|exact St]. unfold deliver_read_sector_without_irq.
    assert (Q : Quiet s (read_next_sector e t).2) by (eapply quiet_chain; [exact St|apply quiet_read_next]).
    generalize dependent ((read_next_sector e t).2). intros w Q. eauto 40 with cd.
Qed.

Lemma stage_queued e s : Stage s (try_execute_queued_command e s).
Proof.
  unfold try_execute_queued_command. cbv zeta.
  destruct (q_pending (queued_cmd s)); cbn [negb orb]; [|by apply quiet_stage].
  unfold Stage. destruct (Z.eqb_spec (irq_flag (regs s)) 0) as [F|F]; cbn [negb]; [|done].
  right. match goal with |- Answered _ (exec_command ?e ?c ?t) => destruct (answered_exec e c t) end. by split.
Qed.

(** ** Advancing time *)

(** The response's age after [cycles] more. *)
Definition aged (cycles : Z) (r : Regs) : Regs :=
  if 0 <? cdrom_irq_present_delay r
  then r <| cdrom_irq_present_delay :=
           (let d := s32 (cdrom_irq_present_delay r - cycles) in if d <? 0 then 0 else d) |>
  else r.

Lemma cdrom_advance_eq e cycles s :
  cdrom_advance e cycles s =
  present_cdrom_irq e (process_read_stream e cycles (process_pending e cycles (try_execute_queued_command e
    (present_cdrom_irq e (on_regs (aged cycles) s))))).
Proof.
  unfold cdrom_advance, refresh_cdrom_irq_line. cbv zeta. unfold on_regs at 2. unfold aged. cbv beta.
  by destruct (0 <? cdrom_irq_present_delay (regs s)).
Qed.

Lemma presented_not_due e s : due (regs (present_cdrom_irq e s)) = false.
Proof.
  destruct (due (regs s)) eqn:D; [by apply present_due|by rewrite present_not_due].
Qed.

(** The helpers between the two refreshes are a stage, and the last refresh
    has nothing to present. *)
Lemma advance_stage e cycles s :
  Stage (present_cdrom_irq e (on_regs (aged cycles) s)) (cdrom_advance e cycles s).
Proof.
  rewrite cdrom_advance_eq. set (p := present_cdrom_irq e (on_regs (aged cycles) s)).
  assert (D : due (regs p) = false) by apply presented_not_due. clearbody p.
  match goal with |- Stage _ (present_cdrom_irq _ ?t) => assert (S : Stage p t) end.
  { eapply stage_trans; [apply stage_queued|]. eapply stage_trans; [apply stage_pending|apply stage_read_stream]. }
  by rewrite present_not_due; [|eapply stage_not_due].
Qed.

(** ** Operations *)

Inductive Op :=
| OpWrite (addr value : Z) | OpRead (addr : Z) | OpAdvance (cycles : Z) | OpDma (trace : bool)
| OpSpeed (divisor : Z) | OpGameSpeed (divisor : Z) | OpGameStarted | OpRate (per_frame : Z) | OpScex (scex : list Z)
| OpInit (cue_path : option string).

Definition step (e : Env) (op : Op) (s : St) : St :=
  match op with
  | OpWrite addr value => cdrom_write e addr value s
  | OpRead addr => (cdrom_read e addr s).2
  | OpAdvance cycles => cdrom_advance e cycles s
  | OpDma trace => (cdrom_dma_read trace e s).2
  | OpSpeed d => cdrom_set_speed d s
  | OpGameSpeed d => cdrom_set_game_speed d s
  | OpGameStarted => cdrom_notify_game_started s
  | OpRate n => cdrom_set_instant_rate n s
  | OpScex l => cdrom_set_disc_scex l s
  | OpInit path => cdrom_init e path s
  end.

(** Arguments within their C types; the cycle count as the int it is cast to. *)
Definition op_ok (op : Op) : Prop :=
  match op with
  | OpAdvance cycles => 0 <= cycles < 0x80000000
  | OpScex l => length l = 4%nat /\ Forall (fun b => 0 <= b < 0x100) l
  | _ => True
  end.

(** The write that acknowledges a response. *)
Definition acknowledges (op : Op) (s : St) : bool :=
  match op with OpWrite addr _ => (addr =? 0x1F801803) && (index_reg (regs s) =? 1) | OpInit _ => true | _ => false end.

(** What a response is: its type, its number and its bytes. *)
Definition response (s : St) : Z * Z * list Z * Z :=
  (irq_flag (regs s), cdrom_irq_generation (regs s), response_fifo (fifos s), response_count (fifos s)).

Lemma quiet_response s s' : Quiet s s' -> response s' = response s.
Proof. intros [[V] R]. unfold irq_view, response_view, response in *. congruence. Qed.

Lemma stage_response s s' : irq_flag (regs s) <> 0 -> Stage s s' -> response s' = response s.
Proof.
  intros F. unfold Stage. replace (irq_flag (regs s) =? 0) with false by (symmetry; by apply Z.eqb_neq).
  apply quiet_response.
Qed.

(** The registers a guest reads do not touch the interrupt logic. *)
Lemma quiet_then s s' f : (forall s, Quiet s (f s)) -> Quiet s s' -> Quiet s (f s').
Proof. intros F Q. by eapply quiet_chain. Qed.

Lemma silent_read e addr s : Silent s (cdrom_read e addr s).2.
Proof.
  unfold cdrom_read. cbv zeta.
  match goal with |- context [let '(_, _) := ?x in _] => assert (Q : Silent s x.2); [|destruct x; cbn [snd] in *] end.
  - repeat case_match; cbn [snd]; eauto 40 with cd.
  - eapply silent_trans; [exact Q|apply quiet_trace, quiet_refl].
Qed.

Lemma quiet_dma trace e s : Quiet s (cdrom_dma_read trace e s).2.
Proof. unfold cdrom_dma_read. repeat case_match; cbn [snd]; eauto 40 with cd. Qed.

Lemma response_read_port e addr s : response (cdrom_read e addr s).2 = response s.
Proof.
  unfold cdrom_read. cbv zeta.
  match goal with |- context [let '(_, _) := ?x in _] => assert (Q : response x.2 = response s); [|destruct x; exact Q] end.
  by repeat case_match.
Qed.

Lemma advance_response e cycles s : irq_flag (regs s) <> 0 -> response (cdrom_advance e cycles s) = response s.
Proof.
  intros F. pose proof (advance_stage e cycles s) as S.
  assert (P : response (present_cdrom_irq e (on_regs (aged cycles) s)) = response s).
  { destruct (due (regs (on_regs (aged cycles) s))) eqn:D.
    - destruct (present_due e _ D) as (_ & _ & _ & _ & Hf & _ & Hg & _ & _ & Hfi & _). unfold response. rewrite Hf, Hg, Hfi.
      unfold aged, on_regs. simpl. by case_match.
    - rewrite present_not_due by done. unfold aged, on_regs, response. simpl. by case_match. }
  rewrite <- P. apply stage_response, S. unfold response in P. congruence.
Qed.

(** ** The ledger of interrupts

    From any state on, the interrupts raised, and one more to come when the
    current response is not yet presented, exceed the responses produced by at
    most what that state owes: [Ledger d] bounds their difference by [d]. *)

Definition to_come (r : Regs) : Z := if negb (irq_flag r =? 0) && negb (cdrom_intc_request_latched r) then 1 else 0.

Record Ledger (d : Z) (s : St) : Prop := mkLedger {
  le_flag : 0 <= irq_flag (regs s) < 8;
  le_count : raised (log s) + to_come (regs s) <= responses (log s) + d
}.

(** A step that leaves the response as it is, or, when there is none, produces
    one. *)
Record Neutral (s s' : St) : Prop := mkNeutral {
  ne_response : response s' = response s;
  ne_latch : cdrom_intc_request_latched (regs s') = cdrom_intc_request_latched (regs s);
  ne_istat : i_stat s' = i_stat s;
  ne_raised : raised (log s') = raised (log s);
  ne_responses : responses (log s') = responses (log s)
}.
Definition Effect (s s' : St) : Prop := Neutral s s' \/ (irq_flag (regs s) = 0 /\ Answered s s').

Lemma quiet_neutral s s' : Quiet s s' -> Neutral s s'.
Proof. intros Q. pose proof (quiet_response _ _ Q). destruct Q as [[V] _]. unfold irq_view in V. split; congruence. Qed.
Lemma neutral_trans s1 s2 s3 : Neutral s1 s2 -> Neutral s2 s3 -> Neutral s1 s3.
Proof. intros [] []. split; congruence. Qed.

Lemma effect_command e c s : Effect s (queue_or_exec_command e c s).
Proof.
  unfold queue_or_exec_command. cbv zeta. destruct (Z.eqb_spec (irq_flag (regs s)) 0) as [F|F].
  - right. split; [done|apply answered_exec].
  - by left.
Qed.

(** A write other than an acknowledgement. *)
Lemma effect_write e addr v s :
  acknowledges (OpWrite addr v) s = false -> Effect s (cdrom_write e addr v s).
Proof.
  unfold acknowledges, cdrom_write. cbv zeta. set (t := trace_cdrom _ _ _ _ _ _).
  replace (index_reg (regs s)) with (index_reg (regs t)) by done.
  assert (N : Neutral s t) by done. assert (F : irq_flag (regs t) = irq_flag (regs s)) by done.
  assert (D : forall u, Neutral t u -> Effect s u) by (intros u Nu; left; by eapply neutral_trans).
  assert (P : Effect t (queue_or_exec_command e (u8 v) t) -> Effect s (queue_or_exec_command e (u8 v) t)).
  { intros [Nu|[Fu []]]; [by apply D|right; split; [congruence|by split]]. }
  clearbody t. intros Ack.
  case_if; [by apply D|]. case_if; [case_if; [apply P, effect_command|by apply D]|].
  case_if; [case_if; [|case_if; by apply D]|].
  - apply D. unfold on_fifos. split; simpl; try done. unfold response. simpl. by case_match.
  - destruct (addr =? 0x1F801803); [|by apply D].
    case_if; [case_if; by apply D|]. by destruct (index_reg (regs t) =? 1); [|apply D].
Qed.

Lemma neutral_read e addr s : Neutral s (cdrom_read e addr s).2.
Proof.
  pose proof (response_read_port e addr s) as R. destruct (silent_read e addr s) as [V]. unfold irq_view in V.
  split; congruence.
Qed.

Lemma ledger_neutral d s s' : Neutral s s' -> Ledger d s -> Ledger d s'.
Proof.
  intros [R L _ Ra Re] [F C]. unfold response in R.
  assert (irq_flag (regs s') = irq_flag (regs s)) as Hf by congruence.
  split; [by rewrite Hf|]. unfold to_come. by rewrite Hf, L, Ra, Re.
Qed.

Lemma ledger_silent d s s' : Silent s s' -> Ledger d s -> Ledger d s'.
Proof.
  intros [V _ _ Ra Re] [F C]. unfold irq_view, to_come in *.
  assert (irq_flag (regs s') = irq_flag (regs s)) as Hf by congruence.
  assert (cdrom_intc_request_latched (regs s') = cdrom_intc_request_latched (regs s)) as Hl by congruence.
  split; [by rewrite Hf|]. unfold to_come. by rewrite Hf, Hl, Ra, Re.
Qed.

Lemma to_come_range r : 0 <= to_come r <= 1.
Proof. unfold to_come. case_if; lia. Qed.

Lemma ledger_answered d s s' : Answered s s' -> Ledger d s -> Ledger d s'.
Proof.
  intros [] [F C]. split; [lia|]. rewrite an_raised0, an_responses0.
  pose proof (to_come_range (regs s)). pose proof (to_come_range (regs s')). lia.
Qed.

Lemma ledger_stage d s s' : Stage s s' -> Ledger d s -> Ledger d s'.
Proof.
  unfold Stage. case_if; [intros [S|A]|intros [S _]];
    first [by apply ledger_silent | by apply ledger_answered].
Qed.

(** Only a response that is due is presented, and it is no longer to come. *)
Lemma ledger_present d e s : Ledger d s -> Ledger d (present_cdrom_irq e s).
Proof.
  intros L. destruct (due (regs s)) eqn:D; [|by rewrite present_not_due].
  destruct (present_due e _ D) as (_ & Ra & Re & _ & Hf & _ & _ & _ & Hl & _). destruct L as [F C].
  split; [by rewrite Hf|]. rewrite Ra, Re. unfold to_come. rewrite Hl, andb_false_r.
  unfold due, armed, irq_enabled in D. unfold to_come in C.
  apply andb_prop in D as [D _]. apply andb_prop in D as [D HL]. apply andb_prop in D as [HF _].
  rewrite HF, HL in C. simpl in C. lia.
Qed.

(** A change of the registers that leaves the flag and the latch alone. *)
Lemma ledger_on_regs d s f :
  irq_flag (f (regs s)) = irq_flag (regs s) ->
  cdrom_intc_request_latched (f (regs s)) = cdrom_intc_request_latched (regs s) ->
  Ledger d s -> Ledger d (on_regs f s).
Proof. intros Hf Hl [F C]. split; simpl; unfold to_come in *; simpl; by rewrite ?Hf, ?Hl. Qed.

Lemma ledger_ack d v s : Ledger d s -> Ledger d (irq_acknowledge v s).
Proof.
  intros [F C]. unfold irq_acknowledge.
  assert (F1 : Z.land (irq_flag (regs s)) 0x1F = irq_flag (regs s)) by (rewrite land_1f, Z.mod_small; lia).
  assert (F2 : 0 <= Z.ldiff (irq_flag (regs s)) (Z.land v 0x1F) < 8) by (apply (ldiff_range 3); lia).
  assert (F3 : Z.land (Z.ldiff (irq_flag (regs s)) (Z.land v 0x1F)) 0x1F = Z.ldiff (irq_flag (regs s)) (Z.land v 0x1F))
    by (rewrite land_1f, Z.mod_small; lia).
  set (w := Z.ldiff (irq_flag (regs s)) (Z.land v 0x1F)) in *.
  assert (Z0 : irq_flag (regs s) = 0 -> w = 0) by (intros E; unfold w; rewrite E; apply Z.ldiff_0_l).
  split; unfold on_regs; simpl; case_if; simpl; fold w; try done.
  - unfold to_come. simpl. fold w. change (negb (Z.land (irq_flag (regs s)) 0x1F =? 0) && (Z.land w 0x1F =? 0) = true) in E.
    rewrite F3 in E. apply andb_prop in E as [_ E]. rewrite E. simpl.
    pose proof (to_come_range (regs s)). lia.
  - unfold to_come in *. simpl. fold w. btest; simpl in *; try lia. destruct (cdrom_intc_request_latched (regs s)); simpl in *; lia.
Qed.

(** An acknowledgement, which may start the queued command. *)
Lemma acknowledge_eq e addr v s :
  (addr =? 0x1F801803) && (index_reg (regs s) =? 1) = true ->
  exists t, Silent (irq_acknowledge (u8 v) (trace_cdrom e (ch "W") addr (u8 v) 1 s)) t /\
    cdrom_write e addr v s = try_execute_queued_command e t.
Proof.
  intros A. apply andb_prop in A as [A I1]. apply Z.eqb_eq in A, I1. subst addr.
  unfold cdrom_write. cbv zeta. simpl. rewrite I1. simpl.
  eexists; split; [|reflexivity]. case_if; [by apply silent_fifos|done].
Qed.

Lemma ledger_write d e addr v s : Ledger d s -> Ledger d (cdrom_write e addr v s).
Proof.
  intros L. destruct ((addr =? 0x1F801803) && (index_reg (regs s) =? 1)) eqn:A.
  - destruct (acknowledge_eq e addr v s A) as (t & St & ->).
    eapply ledger_stage; [apply stage_queued|]. eapply ledger_silent; [exact St|].
    apply ledger_ack. eapply ledger_silent; [|exact L]. apply quiet_trace, quiet_refl.
  - destruct (effect_write e addr v s A) as [N|[_ An]]; [by eapply ledger_neutral|by eapply ledger_answered].
Qed.

Lemma ledger_advance d e cycles s : Ledger d s -> Ledger d (cdrom_advance e cycles s).
Proof.
  intros L. eapply ledger_stage; [apply advance_stage|]. apply ledger_present, ledger_on_regs; [| |exact L].
  all: unfold aged; by case_if.
Qed.

Lemma ledger_init d e path s : raised (log s) <= responses (log s) + d -> Ledger d (cdrom_init e path s).
Proof.
  intros C. assert (E : irq_flag (regs (cdrom_init e path s)) = 0 /\ log (cdrom_init e path s) = log s) by (destruct path; done).
  destruct E as [E1 E2]. split; [by rewrite E1|]. rewrite E2. unfold to_come. rewrite E1. simpl. lia.
Qed.

(** An acknowledgement that clears the flag leaves nothing to come but a response
    the queued command produces at once, presented or not. *)
Lemma ledger_cleared e addr v s : 0 <= irq_flag (regs s) < 8 ->
  acknowledges (OpWrite addr v) s = true -> Z.ldiff (irq_flag (regs s)) (Z.land (u8 v) 0x1F) = 0 ->
  Ledger (raised (log s) - responses (log s)) (cdrom_write e addr v s).
Proof.
  intros F A C. destruct (acknowledge_eq e addr v s A) as (t & St & ->).
  eapply ledger_stage; [apply stage_queued|]. eapply ledger_silent; [exact St|].
  set (u := trace_cdrom _ _ _ _ _ _). assert (Q : Quiet s u) by apply quiet_trace, quiet_refl.
  apply quiet_neutral in Q as [R _ _ Ra Re]. unfold response in R. assert (Hf : irq_flag (regs u) = irq_flag (regs s)) by congruence.
  assert (G : irq_flag (regs (irq_acknowledge (u8 v) u)) = 0).
  { rewrite <- C, <- Hf. clear. unfold irq_acknowledge, on_regs. simpl. by case_if. }
  split; [by rewrite G|]. unfold to_come. rewrite G. simpl.
  change (log (irq_acknowledge (u8 v) u)) with (log u). lia.
Qed.

Lemma ledger_step d e op s : Ledger d s -> Ledger d (step e op s).
Proof.
  intros L. destruct op; simpl; try (by eapply ledger_neutral; [|exact L]).
  - by apply ledger_write.
  - eapply ledger_neutral; [apply neutral_read|exact L].
  - by apply ledger_advance.
  - eapply ledger_silent; [apply quiet_dma|exact L].
  - apply ledger_init. destruct L as [_ C]. pose proof (to_come_range (regs s)). lia.
Qed.

(** ** What the guest sees *)

Lemma due_aged cycles r :
  0 <= cycles < 0x80000000 -> cdrom_irq_present_delay r <= CDROM_IRQ_PRESENT_DELAY ->
  due (aged cycles r) = armed r && (cdrom_irq_present_delay r <=? cycles).
Proof.
  intros Hc Hd. unfold CDROM_IRQ_PRESENT_DELAY in Hd. unfold aged. case_if; [|unfold due; f_equal; btest; lia].
  apply Z.ltb_lt in E. unfold due. f_equal.
  change (((if s32 (cdrom_irq_present_delay r - cycles) <? 0 then 0 else s32 (cdrom_irq_present_delay r - cycles)) <=? 0) =
    (cdrom_irq_present_delay r <=? cycles)).
  rewrite s32_id by lia. btest; lia.
Qed.

Lemma stage_raised s s' : Stage s s' -> i_stat s' = i_stat s /\ raised (log s') = raised (log s).
Proof. unfold Stage. case_if; [intros [[]|[]]|intros [[] _]]; done. Qed.

Lemma advance_raises e cycles s :
  0 <= cycles < 0x80000000 -> cdrom_irq_present_delay (regs s) <= CDROM_IRQ_PRESENT_DELAY ->
  let fires := armed (regs s) && (cdrom_irq_present_delay (regs s) <=? cycles) in
  let s' := cdrom_advance e cycles s in
  i_stat s' = (if fires then psx_irq_raise (i_stat s) 2 else i_stat s) /\
  raised (log s') = raised (log s) + (if fires then 1 else 0).
Proof.
  intros Hc Hd fires s'. destruct (stage_raised _ _ (advance_stage e cycles s)) as [Hi Hr].
  unfold s'. rewrite Hi, Hr. clear Hi Hr. set (a := on_regs (aged cycles) s).
  assert (D : due (regs a) = fires) by (apply due_aged; done).
  assert (Ea : i_stat a = i_stat s /\ log a = log s) by done. destruct Ea as [Ei El]. clearbody a.
  destruct fires.
  - destruct (present_due e a D) as (-> & -> & _). by rewrite Ei, El.
  - rewrite present_not_due by done. rewrite Ei, El. lia.
Qed.

(** The interrupt of a response is raised exactly when it is armed (not
    acknowledged, enabled in irq_enable, not yet presented) and its presentation
    delay of CDROM_IRQ_PRESENT_DELAY cycles runs out: an advance of [cycles]
    sets I_STAT bit 2, with one call to psx_irq_raise, if and only if the delay
    left is at most [cycles]; responses produced during the same advance wait
    for a later one, and no write, read or DMA access ever raises it. *)
Theorem cdrom_interrupt_exact e cycles s addr v trace :
  0 <= cycles < 0x80000000 -> cdrom_irq_present_delay (regs s) <= CDROM_IRQ_PRESENT_DELAY ->
  let fires := armed (regs s) && (cdrom_irq_present_delay (regs s) <=? cycles) in
  let s' := cdrom_advance e cycles s in
  i_stat s' = (if fires then psx_irq_raise (i_stat s) 2 else i_stat s) /\
  raised (log s') = raised (log s) + (if fires then 1 else 0) /\
  i_stat (cdrom_write e addr v s) = i_stat s /\
  i_stat (cdrom_read e addr s).2 = i_stat s /\ i_stat (cdrom_dma_read trace e s).2 = i_stat s.
Proof.
  intros Hc Hd fires s'. destruct (advance_raises e cycles s Hc Hd) as [Hi Hr].
  split; [exact Hi|]. split; [exact Hr|]. split; [|split].
  - destruct ((addr =? 0x1F801803) && (index_reg (regs s) =? 1)) eqn:A.
    + destruct (acknowledge_eq e addr v s A) as (t & St & ->).
      destruct (stage_raised _ _ (stage_queued e t)) as [-> _]. by rewrite (si_istat _ _ St).
    + by destruct (effect_write e addr v s A) as [[]|[_ []]].
  - apply neutral_read.
  - apply quiet_dma.
Qed.

(** The announced distance is safe: with IRQ 2 unmasked, advancing by fewer
    cycles than cdrom_cycles_to_irq leaves I_STAT as it is, whatever commands
    are queued or pending and whatever sector is about to arrive. *)
Theorem cdrom_cycles_to_irq_safe e i_mask cycles s :
  has i_mask 4 = true -> 0 <= cycles < 0x80000000 ->
  cdrom_irq_present_delay (regs s) <= CDROM_IRQ_PRESENT_DELAY ->
  cycles < cdrom_cycles_to_irq i_mask s ->
  i_stat (cdrom_advance e cycles s) = i_stat s.
Proof.
  intros M Hc Hd Hlt. destruct (advance_raises e cycles s Hc Hd) as [-> _]. case_if; [|done]. exfalso.
  apply andb_prop in E as [A D]. apply Z.leb_le in D. unfold armed in A. apply andb_prop in A as [A _].
  unfold cdrom_cycles_to_irq in Hlt. change (Z.shiftl 1 2) with 4 in Hlt. rewrite M, A in Hlt. simpl in Hlt.
  unfold CDROM_IRQ_PRESENT_DELAY in Hd. btest; simpl in *; repeat case_match; lia.
Qed.

(** C14: one response at a time: while a response is not acknowledged no
    operation but the acknowledging write and a restart changes it: its type,
    its generation number and its bytes stay, whatever command is written (it is
    queued) and however much time passes (delayed completions and the sector
    stream wait).  Without one, an operation produces at most one response. *)
Theorem cdrom_one_response e op s :
  (irq_flag (regs s) <> 0 -> acknowledges op s = false -> response (step e op s) = response s) /\
  responses (log (step e op s)) <= responses (log s) + 1.
Proof.
  assert (D : forall (b : bool) s', Effect s s' ->
    (irq_flag (regs s) <> 0 -> b = false -> response s' = response s) /\ responses (log s') <= responses (log s) + 1).
  { intros b s' [[R _ _ _ Re]|[F []]]; (split; [done|lia]). }
  assert (N : forall s', Neutral s s' -> Effect s s') by (by left).
  destruct op; try (by apply D, N).
  - unfold step, acknowledges. destruct ((addr =? 0x1F801803) && (index_reg (regs s) =? 1)) eqn:A.
    + split; [done|]. destruct (acknowledge_eq e addr value s A) as (t & St & ->).
      pose proof (stage_queued e t) as Q. pose proof (si_responses _ _ St) as R. unfold irq_acknowledge in R.
      change (responses (log t) = responses (log s)) in R. rewrite <- R. revert Q. unfold Stage.
      case_if; [intros [[]|[]]|intros [[] _]]; lia.
    + by apply D, effect_write.
  - apply D, N, neutral_read.
  - split; [intros; by apply advance_response|].
    pose proof (advance_stage e cycles s) as Q. set (a := on_regs (aged cycles) s) in Q.
    assert (R : responses (log (present_cdrom_irq e a)) = responses (log s)).
    { destruct (due (regs a)) eqn:Du; [|by rewrite present_not_due]. by destruct (present_due e a Du) as (_ & _ & -> & _). }
    simpl. revert Q. unfold Stage. case_if; [intros [[]|[]]|intros [[] _]]; lia.
  - apply D, N, quiet_neutral, quiet_dma.
  - split; [done|]. assert (L : log (step e (OpInit cue_path) s) = log s) by (by destruct cue_path). rewrite L. lia.
Qed.

(** The announced distance of a response already presented is 0 until it is
    acknowledged, though nothing is left to present. *)
Lemma presented_distance e i_mask cycles s :
  has i_mask 4 = true -> 0 <= cycles < 0x80000000 -> irq_enabled (regs s) = true ->
  cdrom_intc_request_latched (regs s) = true -> cdrom_irq_present_delay (regs s) <= 0 ->
  cdrom_cycles_to_irq i_mask s = 0 /\ i_stat (cdrom_advance e cycles s) = i_stat s.
Proof.
  intros M Hc En La D. split.
  - unfold cdrom_cycles_to_irq. change (Z.shiftl 1 2) with 4. rewrite M, En. cbn [negb].
    replace (0 <? cdrom_irq_present_delay (regs s)) with false by (symmetry; by apply Z.ltb_ge).
    assert (A : forall b d, b && (0 <? d) && (d <? 0) = false).
    { intros b d. destruct (Z.ltb_spec 0 d), (Z.ltb_spec d 0); try lia; by rewrite ?andb_false_r. }
    change (0 <? 0xFFFFFFFF) with true. cbv zeta iota. by rewrite !A.
  - destruct (advance_raises e cycles s Hc ltac:(unfold CDROM_IRQ_PRESENT_DELAY; lia)) as [-> _].
    unfold armed. by rewrite En, La.
Qed.

End Protocol.

End CdProtocol.
