(* ===== verification/CdromSafety.v ===== *)
(** * CD-ROM controller: memory safety

    The invariant of every state the controller reaches from power-on through
    any sequence of register accesses, DMA reads, advances and settings: the
    FIFO counters and the sector cursor stay inside their arrays, delays that
    count down are positive, a queued command always has a response to wait for.

    Each component of the state has its own predicate; [Inv] is their
    conjunction, and the hint database [inv] carries it through the helpers. *)

From Stdlib Require Import Ascii String.
From S2P Require Import Prelude Bus Rings Cdrom CdromProtocol.
Import Datatypes Cdrom CdProtocol.
Import (hints) Cdrom.

Module CdSafety.

Definition byte (b : Z) : Prop := 0 <= b < 0x100.

(** The sizes iso_reader.h documents for the sectors it fills. *)
Class IsoLaws (H : Type) `{I : Iso H} : Prop := {
  iso_sector_size h lba l : iso_read_sector h lba = Some l -> length l = 2048%nat /\ Forall byte l;
  iso_raw_size h lba l : iso_read_raw_sector h lba = Some l -> length l = 2352%nat /\ Forall byte l;
}.

Create HintDb inv discriminated.
#[local] Hint Constants Opaque : inv.
#[local] Hint Variables Opaque : inv.

Record RegsOk (r : Regs) : Prop := mkRegsOk {
  ro_flag : 0 <= irq_flag r < 8;
  ro_delay : 0 <= cdrom_irq_present_delay r <= CDROM_IRQ_PRESENT_DELAY
}.
Record FifosOk (f : Fifos) : Prop := mkFifosOk {
  fo_params : length (param_fifo f) = 16%nat; fo_param_bytes : Forall byte (param_fifo f);
  fo_count : 0 <= param_count f <= PARAM_FIFO_SIZE;
  fo_resp : length (response_fifo f) = 16%nat; fo_resp_bytes : Forall byte (response_fifo f);
  fo_read : 0 <= response_read f <= response_count f; fo_pushed : response_count f <= RESPONSE_FIFO_SIZE
}.
Record SectorOk (b : Sector) : Prop := mkSectorOk {
  so_buffer : length (sector_buffer b) = 2340%nat; so_bytes : Forall byte (sector_buffer b);
  so_pos : 0 <= sector_read_pos b <= sector_size b; so_size : sector_size b <= SECTOR_BUFFER_SIZE;
  so_words : sector_size b mod 4 = 0;
  so_available : sector_available b = true -> sector_read_pos b < sector_size b
}.
Definition LastOk (l : Last) : Prop := length (last_sector_buffer l) = 2340%nat.
Definition DriveOk (d : Drive) : Prop := reading d = true -> 0 < read_delay d.

(** A property of the drive's timing: [DriveOk], or nothing while the read delay
    has run out and is not renewed yet. *)
Class Timing (T : Drive -> Prop) : Prop := {
  timing_frame d d' : reading d' = reading d -> read_delay d' = read_delay d -> T d -> T d';
  timing_running d : 0 < read_delay d -> T d;
  timing_stopped d : reading d = false -> T d;
}.
#[export] Instance timing_ok : Timing DriveOk.
Proof. split; unfold DriveOk; intros; simplify_eq/=; try congruence; try lia. rewrite H0. apply H1. congruence. Qed.
#[export] Instance timing_any : Timing (fun _ => True).
Proof. by split. Qed.

Definition SpeedOk (v : Speed) : Prop := 1 <= g_instant_max_per_frame v <= 4096.
Definition PendingOk (p : PendingCmd) : Prop := p_pending p = true -> 0 < p_delay p.
Record QueuedOk (q : QueuedCmd) : Prop := mkQueuedOk {
  qo_params : length (q_params q) = 16%nat; qo_bytes : Forall byte (q_params q);
  qo_count : 0 <= q_param_count q <= PARAM_FIFO_SIZE
}.
Definition ScexOk (l : list Z) : Prop := length l = 4%nat /\ Forall byte l.

Section Safety.
Context {H : Type} `{I : Iso H} `{Laws : !IsoLaws H}.
Context (T : Drive -> Prop) `{Tm : !Timing T}.
Abbreviation St := (State H).
Implicit Types s : St.

Record Inv (s : St) : Prop := mkInv {
  inv_regs : RegsOk (regs s); inv_fifos : FifosOk (fifos s); inv_sector : SectorOk (sector s);
  inv_last : LastOk (last s); inv_drive : T (drive s); inv_speed : SpeedOk (speed s);
  inv_pending : PendingOk (pending s); inv_queued : QueuedOk (queued_cmd s); inv_scex : ScexOk (disc_scex s)
}.

Lemma on_regs_inv f s : Inv s -> RegsOk (f (regs s)) -> Inv (on_regs f s).
Proof. by intros [] ?. Qed.
Lemma on_fifos_inv f s : Inv s -> FifosOk (f (fifos s)) -> Inv (on_fifos f s).
Proof. by intros [] ?. Qed.
Lemma on_sector_inv f s : Inv s -> SectorOk (f (sector s)) -> Inv (on_sector f s).
Proof. by intros [] ?. Qed.
Lemma on_last_inv f s : Inv s -> LastOk (f (last s)) -> Inv (on_last f s).
Proof. by intros [] ?. Qed.
Lemma on_drive_inv f s : Inv s -> T (f (drive s)) -> Inv (on_drive f s).
Proof. by intros [] ?. Qed.
Lemma on_xa_inv f s : Inv s -> Inv (on_xa f s).
Proof. by intros []. Qed.
Lemma on_diag_inv f s : Inv s -> Inv (on_diag f s).
Proof. by intros []. Qed.
Lemma set_stat_inv v s : Inv s -> Inv (set_stat v s).
Proof. intros J. apply on_regs_inv; [done|]. by destruct (inv_regs _ J). Qed.
Lemma record_inv k d a s : Inv s -> Inv (record k d a s).
Proof. by intros []. Qed.
Lemma call_spu_inv c s : Inv s -> Inv (call_spu c s).
Proof. by intros []. Qed.
Lemma irq_raise_inv b d s : Inv s -> Inv (irq_raise b d s).
Proof. by intros []. Qed.
Lemma arm_inv c d s : 0 < d -> Inv s -> Inv (arm c d s).
Proof. intros ? []. split; try done. by intros _. Qed.
Lemma if_inv (b : bool) s t : Inv s -> Inv t -> Inv (if b then s else t).
Proof. by destruct b. Qed.
#[local] Hint Resolve on_xa_inv on_diag_inv set_stat_inv record_inv call_spu_inv irq_raise_inv if_inv : inv.

(** *** Delays are positive *)

Lemma instant_period_pos s : 0 < instant_period s.
Proof. unfold instant_period, CDROM_MIN_DELAY. cbv zeta. case_if; [lia|]. apply Z.ltb_ge in E. lia. Qed.
Lemma apply_speed_pos d s : 0 < d -> 0 < apply_speed d s.
Proof.
  intros Hd. unfold apply_speed, CDROM_MIN_DELAY. cbv zeta. case_if; [done|]. case_if; [apply instant_period_pos|].
  case_if; [lia|]. apply Z.ltb_ge in E1. lia.
Qed.
Lemma sector_delay_pos s : 0 < sector_delay_cycles s.
Proof. apply apply_speed_pos. by case_if. Qed.
Lemma initial_delay_pos s : 0 < initial_read_delay_cycles s.
Proof. apply apply_speed_pos. by case_if. Qed.
Lemma seek_delay_pos s : 0 < seek_complete_delay_cycles s.
Proof. apply apply_speed_pos. by case_if. Qed.
#[local] Hint Extern 1 (Inv (arm _ _ _)) =>
  apply arm_inv; [first [apply apply_speed_pos; reflexivity | apply seek_delay_pos]|] : inv.

(** *** Helpers *)

Lemma trace_inv e k a v w s : Inv s -> Inv (trace_cdrom e k a v w s).
Proof. apply on_diag_inv. Qed.
Lemma history_inv e k c ps n s : Inv s -> Inv (record_command_history e k c ps n s).
Proof. apply on_diag_inv. Qed.
Lemma sector_history_inv e lba size mode raw bytes d s : Inv s -> Inv (record_sector_history e lba size mode raw bytes d s).
Proof. apply on_diag_inv. Qed.
Lemma burst_inv e s : Inv s -> Inv (burst_note_sector e s).
Proof. apply on_diag_inv. Qed.
Lemma reset_decode_inv s : Inv s -> Inv (xa_reset_decode s).
Proof. apply on_xa_inv. Qed.
Lemma quiet_audio_inv s : Inv s -> Inv (quiet_audio s).
Proof. by intros []. Qed.
Lemma stop_inv s : Inv s -> Inv (stop_read_stream s).
Proof. intros. apply on_drive_inv; [done|]. by apply timing_stopped. Qed.
#[local] Hint Resolve trace_inv history_inv sector_history_inv burst_inv reset_decode_inv quiet_audio_inv stop_inv : inv.

Lemma u8_byte v : byte (u8 v).
Proof. apply u8_range. Qed.

Lemma push_inv v s : Inv s -> Inv (response_push v s).
Proof.
  intros J. apply on_fifos_inv; [done|]. destruct (inv_fifos _ J). case_if; [|by split].
  apply Z.ltb_lt in E. unfold RESPONSE_FIFO_SIZE in E. split; simpl; unfold RESPONSE_FIFO_SIZE; try done; try lia.
  - by rewrite length_aset.
  - apply aset_Forall; [apply u8_byte|done].
Qed.
Lemma clear_inv s : Inv s -> Inv (response_clear s).
Proof. intros J. apply on_fifos_inv; [done|]. by destruct (inv_fifos _ J). Qed.
Lemma push_all_inv l s : Inv s -> Inv (push_all l s).
Proof. unfold push_all. revert s. induction l as [|v l IH]; intros s J; [done|]. by apply IH, push_inv. Qed.
Lemma no_params_inv s : Inv s -> Inv (on_fifos (fun f => f <| param_count := 0 |>) s).
Proof. intros J. apply on_fifos_inv; [done|]. by destruct (inv_fifos _ J). Qed.
Lemma set_irq_inv e t s : 0 <= t < 8 -> Inv s -> Inv (set_irq e t s).
Proof.
  intros Ht J. apply record_inv, trace_inv, on_regs_inv; [done|]. split; simpl; [by rewrite u8_id by lia|].
  by unfold CDROM_IRQ_PRESENT_DELAY.
Qed.
Lemma present_inv e s : Inv s -> Inv (present_cdrom_irq e s).
Proof.
  intros J. unfold present_cdrom_irq. cbv zeta. apply if_inv; [done|]. apply if_inv; [|done].
  apply trace_inv, record_inv, on_regs_inv; [by apply irq_raise_inv|]. by destruct (inv_regs _ J).
Qed.
Lemma fire_inv e s : Inv s -> Inv (fire_cdrom_irq e s).
Proof. intros. unfold fire_cdrom_irq. cbv zeta. apply present_inv. eauto with inv. Qed.
Lemma ack_inv e s : Inv s -> Inv (ack e s).
Proof. intros. by apply set_irq_inv, push_inv. Qed.
Lemma complete_inv e s : Inv s -> Inv (complete e s).
Proof. intros. by apply set_irq_inv, push_inv. Qed.
Lemma error_inv e s : Inv s -> Inv (error e s).
Proof. intros. by apply set_irq_inv, push_inv. Qed.
#[local] Hint Resolve push_inv clear_inv push_all_inv no_params_inv present_inv fire_inv ack_inv complete_inv error_inv : inv.
#[local] Hint Extern 1 (Inv (set_irq _ _ _)) => apply set_irq_inv; [by compute|] : inv.

(** *** Sectors *)

Lemma xa_audio_inv e raw d s : Inv s -> Inv (maybe_deliver_xa_audio e raw d s).2.
Proof.
  intros J. unfold maybe_deliver_xa_audio. destruct raw as [raw|]; [|done].
  repeat (case_match; [cbn [snd]; by eauto 40 with inv|]). simpl.
  match goal with |- context [(if ?b then ?f else ?g) ?x ?hl ?hr] => destruct ((if b then f else g) x hl hr) as [[l r] native] end.
  simpl. eauto 40 with inv.
Qed.

Lemma zeros_bytes n : Forall byte (replicate n 0).
Proof. by apply Forall_replicate. Qed.

Lemma buffer_of_ok l : (length l <= 2340)%nat -> Forall byte l -> length (buffer_of l) = 2340%nat /\ Forall byte (buffer_of l).
Proof.
  intros Hl B. unfold buffer_of. rewrite length_app, length_replicate. change (Z.to_nat SECTOR_BUFFER_SIZE) with 2340%nat.
  split; [lia|]. apply Forall_app. split; [done|apply zeros_bytes].
Qed.

(** The 2048 bytes a sector delivers as data. *)
Lemma user_data_ok (h : option H) lba :
  let raw := match h with Some h => iso_read_raw_sector h lba | None => None end in
  let user_data :=
    match h with
    | None => replicate (Z.to_nat SECTOR_SIZE) 0
    | Some h =>
        match raw with
        | Some r => take (Z.to_nat SECTOR_SIZE) (drop (Z.to_nat RAW_USER_DATA_OFFSET) r)
        | None => default (replicate (Z.to_nat SECTOR_SIZE) 0) (iso_read_sector h lba)
        end
    end in
  length user_data = 2048%nat /\ Forall byte user_data.
Proof.
  destruct h as [h|]; cbv zeta; [|split; [by rewrite length_replicate|apply zeros_bytes]].
  destruct (iso_read_raw_sector h lba) as [r|] eqn:R.
  - apply iso_raw_size in R as [L B]. rewrite length_take, length_drop, L. split; [done|].
    by apply Forall_take, Forall_drop.
  - destruct (iso_read_sector h lba) as [l|] eqn:S; simpl; [by apply iso_sector_size in S|].
    split; [done|]. apply (zeros_bytes 2048).
Qed.

Lemma whole_ok (raw : option (list Z)) user_data a b c :
  (forall r, raw = Some r -> length r = 2352%nat /\ Forall byte r) ->
  length user_data = 2048%nat -> Forall byte user_data ->
  let whole :=
    match raw with
    | Some r => take (Z.to_nat WHOLE_SECTOR_SIZE) (drop (Z.to_nat WHOLE_SECTOR_OFFSET) r)
    | None => [bin_to_bcd a; bin_to_bcd b; bin_to_bcd c; 0x02] ++ replicate 8 0 ++ user_data
    end in
  length whole = (match raw with Some _ => 2340 | None => 2060 end)%nat /\ Forall byte whole.
Proof.
  intros R L B. destruct raw as [r|]; cbv zeta.
  - destruct (R r eq_refl) as [Lr Br]. rewrite length_take, length_drop, Lr. split; [done|].
    by apply Forall_take, Forall_drop.
  - rewrite !length_app, L. split; [done|]. repeat (constructor; [first [apply u8_byte|done]|]). done.
Qed.

Lemma read_sector_at_inv e p s : Inv s -> Inv (read_sector_at e p s).2.
Proof.
  destruct p as [[min sec] sect]. intros J. unfold read_sector_at. cbv zeta.
  pose proof (user_data_ok (iso_handle s) (msf_to_lba min sec sect)) as U. cbv zeta in U.
  assert (R : forall r, match iso_handle s with Some h => iso_read_raw_sector h (msf_to_lba min sec sect) | None => None end = Some r ->
    length r = 2352%nat /\ Forall byte r).
  { intros r. destruct (iso_handle s); [apply iso_raw_size|done]. }
  revert U R.
  match goal with |- context [maybe_deliver_xa_audio ?e ?raw ?d s] =>
    pose proof (xa_audio_inv e raw d s J) as Ja; destruct (maybe_deliver_xa_audio e raw d s) as [a t];
    generalize raw; intros rw end.
  cbn [snd] in Ja |- *.
  match goal with |- length ?u = _ /\ _ -> _ => generalize u end. intros user [Lu Bu] R.
  pose proof (whole_ok rw user min sec sect R Lu Bu) as [Lw Bw]. revert Lw Bw.
  match goal with |- length ?w = _ -> _ => generalize w end. intros whole Lw Bw.
  match goal with |- context [on_last _ (if ?b then burst_note_sector _ _ else _)] => generalize b; intros dl end.
  match goal with |- Inv (if _ then trace_cdrom _ _ _ _ _ ?u else _) =>
    enough (G : Inv u) by (apply if_inv; [by apply trace_inv|exact G]) end.
  apply trace_inv, sector_history_inv.
  match goal with |- context [on_sector ?f t] => set (sec1 := on_sector f t) end.
  match goal with |- context [sec1] => match eval unfold sec1 in sec1 with context [buffer_of ?p] =>
    assert (B : length (buffer_of p) = 2340%nat /\ Forall byte (buffer_of p)) end end.
  { apply buffer_of_ok; destruct dl; simpl; try done; try lia; case_if; try done; destruct rw; lia. }
  assert (J1 : Inv sec1).
  { apply on_sector_inv; [exact Ja|]. destruct B as [B1 B2].
    split; simpl; [exact B1|exact B2| | | |]; destruct dl; try done; simpl; case_if; try done; by destruct rw. }
  clearbody sec1. match goal with |- Inv (on_last _ ?u) => enough (J2 : Inv u) by (apply on_last_inv; [exact J2|]; unfold LastOk; exact (inv_last _ J2)) end.
  apply if_inv; [apply burst_inv|]; (apply on_last_inv; [exact J1|]).
  - pose proof (inv_last _ J1) as L. unfold LastOk in *. simpl. rewrite length_app, length_take, length_drop, L, (proj1 B). lia.
  - apply (proj1 (buffer_of_ok user ltac:(lia) Bu)).
Qed.

(** *** Commands *)

(** Changes of the drive that keep its timing. *)
Lemma drive_inv f s :
  reading (f (drive s)) = reading (drive s) -> read_delay (f (drive s)) = read_delay (drive s) -> Inv s -> Inv (on_drive f s).
Proof. intros R D J. apply on_drive_inv; [done|]. exact (timing_frame _ _ R D (inv_drive _ J)). Qed.
#[local] Hint Extern 3 (Inv (on_drive _ _)) => apply drive_inv; [reflexivity|reflexivity|] : inv.

Lemma clear_sector_inv s : Inv s -> Inv (clear_sector_buffer s).
Proof.
  intros J. unfold clear_sector_buffer. cbv zeta. apply on_regs_inv; [|by destruct (inv_regs _ J)].
  apply on_sector_inv; [done|]. by destruct (inv_sector _ J).
Qed.

Lemma start_read_inv cmd s : Inv s -> Inv (start_read_stream cmd s).
Proof.
  intros J. unfold start_read_stream. cbv zeta. apply record_inv, set_stat_inv, on_drive_inv; [|apply timing_running, initial_delay_pos].
  apply drive_inv; [done..|]. pose proof (clear_sector_inv s J). eauto with inv.
Qed.
#[local] Hint Resolve clear_sector_inv start_read_inv : inv.

Lemma dispatch_inv e cmd s : Inv s -> Inv (dispatch_command e cmd s).
Proof.
  intros J.
  unfold dispatch_command, cmd_GetStat, cmd_SetLoc, cmd_Play, cmd_Read, cmd_MotorOn, cmd_Stop, cmd_Pause, cmd_Init,
    cmd_Mute, cmd_SetFilter, cmd_SetMode, cmd_Getparam, cmd_GetlocL, cmd_GetlocP, cmd_GetTN, cmd_GetTD, cmd_Seek,
    cmd_Test, cmd_GetID, cmd_ReadTOC.
  cbv zeta. repeat (apply if_inv; [repeat case_match; eauto 40 with inv|]). eauto 40 with inv.
Qed.

Lemma exec_inv e cmd s : Inv s -> Inv (exec_command e cmd s).
Proof. intros J. unfold exec_command. cbv zeta. apply history_inv, fire_inv, no_params_inv, dispatch_inv. eauto 40 with inv. Qed.

Lemma clamp_count_range n : 0 <= clamp_count n <= 16.
Proof. unfold clamp_count, PARAM_FIFO_SIZE. repeat case_if; btest; lia. Qed.

(** A prefix of one 16-byte FIFO over the rest of another. *)
Lemma overlay_ok n (l k : list Z) :
  0 <= n <= 16 -> length l = 16%nat -> length k = 16%nat -> Forall byte l -> Forall byte k ->
  length (take (Z.to_nat n) l ++ drop (Z.to_nat n) k) = 16%nat /\ Forall byte (take (Z.to_nat n) l ++ drop (Z.to_nat n) k).
Proof.
  intros Hn Ll Lk Bl Bk. rewrite length_app, length_take, length_drop, Ll, Lk. split; [lia|].
  apply Forall_app. split; [by apply Forall_take|by apply Forall_drop].
Qed.

Lemma queued_inv e s : Inv s -> Inv (try_execute_queued_command e s).
Proof.
  intros J. unfold try_execute_queued_command. cbv zeta. apply if_inv; [done|]. apply exec_inv.
  pose proof (clamp_count_range (q_param_count (queued_cmd s))) as C.
  destruct (inv_queued _ J) as [Lq Bq _]. destruct (inv_fifos _ J) as [Lp Bp _ Lr Br Rd Pu].
  destruct (overlay_ok (clamp_count (q_param_count (queued_cmd s))) _ _ C Lq Lp Bq Bp) as [L B].
  destruct J. split; try done.
  split; try done. simpl. apply (zeros_bytes 16).
Qed.

Lemma command_inv e cmd s : Inv s -> Inv (queue_or_exec_command e cmd s).
Proof.
  intros J. unfold queue_or_exec_command. cbv zeta. apply if_inv; [by apply exec_inv|].
  pose proof (clamp_count_range (n_params s)) as C.
  destruct (inv_queued _ J) as [Lq Bq _]. destruct (inv_fifos _ J) as [Lp Bp _ Lr Br Rd Pu].
  destruct (overlay_ok (clamp_count (n_params s)) _ _ C Lp Lq Bp Bq) as [L B].
  apply history_inv, trace_inv, no_params_inv. destruct J. by split.
Qed.

(** *** Time *)

Lemma read_next_inv e s : Inv s -> Inv (read_next_sector e s).2.
Proof.
  intros J. unfold read_next_sector.
  pose proof (read_sector_at_inv e (read_min (drive s), read_sec (drive s), read_sect (drive s)) s J) as Q.
  destruct (read_sector_at _ _ _) as [a t]. cbn [snd] in *. apply drive_inv; [..|done].
  all: by destruct (advance_msf _) as [[m sc] f].
Qed.

Lemma deliver_inv e s : Inv s -> Inv (deliver_read_sector e s).2.
Proof.
  intros J. unfold deliver_read_sector. pose proof (read_next_inv e s J) as Q.
  destruct (read_next_sector e s) as [b t]. cbn [snd] in Q. case_if; cbn [snd]; eauto 40 with inv.
Qed.

Lemma pending_inv e cycles s : Inv s -> Inv (process_pending e cycles s).
Proof.
  intros J. unfold process_pending. cbv zeta. do 3 (apply if_inv; [done|]).
  set (t := s <| pending := _ |>).
  destruct (0 <? s32 (p_delay (pending s) - cycles)) eqn:D.
  - destruct J. split; try done. intros _. apply Z.ltb_lt in D. exact D.
  - set (u := response_clear _). assert (Ju : Inv u).
    { apply clear_inv. unfold t. destruct J. split; try done. }
    clearbody u. unfold complete_pending. cbv zeta.
    apply if_inv; [|repeat (apply if_inv; [eauto 40 with inv|]); done].
    apply if_inv; [|done]. pose proof (read_next_inv e u Ju) as Q. destruct (read_next_sector e u) as [b v]. cbn [snd] in Q.
    case_if; eauto 40 with inv.
Qed.

End Safety.

(** ** Every operation *)

Section Operations.
Context {H : Type} `{I : Iso H} `{Laws : !IsoLaws H}.
Abbreviation St := (State H).
Abbreviation Safe := (Inv DriveOk).
Abbreviation Untimed := (Inv (fun _ => True)).
Implicit Types s : St.

Lemma safe_untimed s : Safe s -> Untimed s.
Proof. by intros []. Qed.
Lemma untimed_safe s : Untimed s -> DriveOk (drive s) -> Safe s.
Proof. by intros [] ?. Qed.

(** The read delay is renewed before the guest sees it. *)
Lemma read_stream_inv e cycles s : Safe s -> Safe (process_read_stream e cycles s).
Proof.
  intros J. unfold process_read_stream. cbv zeta. destruct (reading (drive s)) eqn:Rd; cbn [negb]; [|done].
  do 2 (apply if_inv; [done|]).
  set (d := if 0 <? cycles then s32 (read_delay (drive s) - cycles) else read_delay (drive s)).
  match goal with |- context [read_delay (drive ?t) <=? 0] => assert (E : t = on_drive (fun x => x <| read_delay := d |>) s)
    by (unfold d; by case_if) end.
  rewrite E. clear E. change (read_delay (drive (on_drive _ s))) with d.
  destruct (Z.leb_spec d 0) as [D|D]; [|apply on_drive_inv; [done|]; by intros _].
  set (t := on_drive _ s). assert (Jt : Untimed t) by (apply on_drive_inv; [by apply safe_untimed|done]). clearbody t.
  match goal with |- context [sector_delay_cycles ?w] => assert (Jw : Untimed w); [|set (x := w) in *; clearbody x] end.
  { apply if_inv; [|by apply (read_next_inv (fun _ => True))]. apply (deliver_inv (fun _ => True)). apply if_inv; [|done]. by apply (trace_inv (fun _ => True)). }
  match goal with |- context [on_drive ?f x] => set (y := on_drive f x) end.
  assert (Jy : Untimed y) by (apply on_drive_inv; done).
  destruct (Z.leb_spec (read_delay (drive y)) 0) as [P|P].
  - apply untimed_safe; [by apply on_drive_inv|]. intros _. apply sector_delay_pos.
  - apply untimed_safe; [done|]. by intros _.
Qed.

Lemma advance_inv e cycles s : 0 <= cycles < 0x80000000 -> Safe s -> Safe (cdrom_advance e cycles s).
Proof.
  intros Hc J. rewrite cdrom_advance_eq. apply (present_inv DriveOk), read_stream_inv, (pending_inv DriveOk), (queued_inv DriveOk),
    (present_inv DriveOk), on_regs_inv; [done|].
  destruct (inv_regs _ _ J) as [F D]. unfold aged. case_if; [|done]. unfold CDROM_IRQ_PRESENT_DELAY in D.
  split; simpl; [done|]. unfold CDROM_IRQ_PRESENT_DELAY. rewrite s32_id by lia. case_if; [lia|].
  apply Z.ltb_ge in E0. lia.
Qed.

(** Taking [n] bytes of the sector. *)
Lemma take_bytes_inv n s :
  0 < n -> sector_available (sector s) = true -> sector_read_pos (sector s) + n <= sector_size (sector s) -> Safe s ->
  let t := on_sector (fun b => b <| sector_read_pos := sector_read_pos b + n |>) s in
  Safe (if sector_size (sector t) <=? sector_read_pos (sector t)
        then on_sector (fun b => b <| sector_available := false |>) t else t).
Proof.
  intros Hn A P J t. destruct (inv_sector _ _ J).
  change (sector_size (sector t)) with (sector_size (sector s)).
  change (sector_read_pos (sector t)) with (sector_read_pos (sector s) + n).
  case_if; [apply Z.leb_le in E|apply Z.leb_gt in E]; unfold t.
  - destruct J. split; try done. split; simpl; first [done|lia].
  - apply on_sector_inv; [done|]. split; simpl; first [done|lia].
Qed.

Lemma read_inv e addr s : Safe s -> Safe (cdrom_read e addr s).2.
Proof.
  intros J. unfold cdrom_read. cbv zeta.
  match goal with |- context [let '(_, _) := ?x in _] => assert (Q : Safe x.2); [|destruct x; cbn [snd] in *; by apply (trace_inv DriveOk)] end.
  case_if; [done|]. case_if.
  { case_if; [|done]. apply on_fifos_inv; [done|]. apply Z.ltb_lt in E1. destruct (inv_fifos _ _ J). split; simpl; try done; lia. }
  case_if; [|case_if; [by case_if|done]]. destruct (data_fifo_ready s) eqn:R; [|done]. cbn [snd].
  unfold data_fifo_ready in R. apply andb_prop in R as [R P]. apply andb_prop in R as [_ A]. apply Z.ltb_lt in P.
  apply take_bytes_inv; try done; lia.
Qed.

Lemma dma_inv trace e s : Safe s -> Safe (cdrom_dma_read trace e s).2.
Proof.
  intros J. unfold cdrom_dma_read. destruct (cdrom_dma_ready s) eqn:R; [|done]. cbv zeta. cbn [snd].
  unfold cdrom_dma_ready in R. apply andb_prop in R as [R P]. apply andb_prop in R as [_ A]. apply Z.leb_le in P.
  pose proof (take_bytes_inv 4 s ltac:(lia) A P J) as T. cbv zeta in T. apply if_inv; [by apply (trace_inv DriveOk)|done].
Qed.

Lemma ack_write_inv v s : Safe s -> Safe (irq_acknowledge v s).
Proof.
  intros J. destruct (inv_regs _ _ J) as [F D]. apply on_regs_inv; [done|].
  assert (0 <= Z.ldiff (irq_flag (regs s)) (Z.land v 0x1F) < 8) by (apply (ldiff_range 3); lia).
  cbv zeta. case_if; by split.
Qed.

Lemma write_inv e addr v s : Safe s -> Safe (cdrom_write e addr v s).
Proof.
  intros J. unfold cdrom_write. cbv zeta. set (t := trace_cdrom _ _ _ _ _ _).
  assert (Jt : Safe t) by by apply (trace_inv DriveOk). clearbody t. clear J.
  assert (Rg : forall f, irq_flag (f (regs t)) = irq_flag (regs t) ->
    cdrom_irq_present_delay (f (regs t)) = cdrom_irq_present_delay (regs t) -> Safe (on_regs f t)).
  { intros f Hf Hd. apply on_regs_inv; [done|]. destruct (inv_regs _ _ Jt). split; congruence. }
  case_if; [by apply Rg|]. case_if; [case_if; [by apply (command_inv DriveOk)|done]|].
  case_if; [case_if; [|case_if; [by apply Rg|done]]|].
  - apply on_fifos_inv; [done|]. destruct (inv_fifos _ _ Jt). case_if; [|by split]. apply Z.ltb_lt in E3. unfold PARAM_FIFO_SIZE in E3.
    split; simpl; try done; unfold PARAM_FIFO_SIZE; try lia; [by rewrite length_aset|apply aset_Forall; [apply u8_byte|done]].
  - case_if; [|done]. case_if; [|case_if; [|done]].
    + apply if_inv; [|by apply Rg]. apply on_sector_inv; [by apply Rg|]. destruct (inv_sector _ _ Jt).
      split; simpl; try done; [lia|]. intros A. specialize (so_available0 A). lia.
    + apply (queued_inv DriveOk). apply if_inv; [|by apply ack_write_inv]. by apply (no_params_inv DriveOk), ack_write_inv.
Qed.

(** ** The queue *)

(** A queued command waits for a response to be acknowledged. *)
Definition Held (s : St) : Prop := q_pending (queued_cmd s) = true -> irq_flag (regs s) <> 0.

Lemma held_stage s s' : Stage s s' -> Held s -> Held s'.
Proof.
  unfold Stage, Held. case_if; [intros [S|A]|intros [S _]].
  - by rewrite (si_queue _ _ S), (silent_flag _ _ S).
  - pose proof (an_flag _ _ A). lia.
  - by rewrite (si_queue _ _ S), (silent_flag _ _ S).
Qed.
Lemma held_silent s s' : Silent s s' -> Held s -> Held s'.
Proof. intros S. unfold Held. by rewrite (si_queue _ _ S), (silent_flag _ _ S). Qed.

Lemma held_present e s : Held s -> Held (present_cdrom_irq e s).
Proof.
  destruct (due (regs s)) eqn:D; [|by rewrite present_not_due].
  destruct (present_due e s D) as (_ & _ & _ & _ & Hf & _ & _ & _ & _ & _ & Hq). unfold Held. by rewrite Hf, Hq.
Qed.

(** Whatever the acknowledgement did, the queue is served. *)
Lemma held_queued e s : Held (try_execute_queued_command e s).
Proof.
  pose proof (stage_queued e s) as S. revert S. unfold Stage, Held, try_execute_queued_command. cbv zeta.
  destruct (q_pending (queued_cmd s)) eqn:Q; cbn [negb orb]; [|by rewrite Q].
  destruct (Z.eqb_spec (irq_flag (regs s)) 0) as [F|F]; cbn [negb]; [intros _ _|done].
  match goal with |- context [exec_command ?e ?c ?t] => pose proof (an_flag _ _ (answered_exec e c t)) end. lia.
Qed.

Lemma held_command e c s : Held s -> Held (queue_or_exec_command e c s).
Proof.
  intros Hd. unfold queue_or_exec_command. cbv zeta. destruct (Z.eqb_spec (irq_flag (regs s)) 0) as [F|F].
  - intros _. pose proof (an_flag _ _ (answered_exec e c s)). lia.
  - by intros _.
Qed.

Lemma held_write e addr v s : Held s -> Held (cdrom_write e addr v s).
Proof.
  intros Hd. unfold cdrom_write. cbv zeta. set (t := trace_cdrom _ _ _ _ _ _).
  assert (Ht : Held t) by done. clearbody t.
  repeat case_if; first [done | by apply held_command | apply held_queued].
Qed.

Lemma held_step e op s : Held s -> Held (step e op s).
Proof.
  intros Hd. destruct op; simpl; try done.
  - by apply held_write.
  - by apply (held_silent s); [apply silent_read|].
  - eapply held_stage; [apply advance_stage|]. apply held_present. unfold aged. exact Hd || (revert Hd; unfold Held, on_regs; simpl; by case_if).
  - apply (held_silent s); [apply quiet_dma|done].
  - by destruct cue_path.
Qed.

(** ** Runs *)

(** The statics as the C initialisers leave them. *)
Definition power_on : St :=
  mkState (mkRegs 0 0 0 0 0 false 0 0 0) (mkFifos (replicate 16 0) 0 (replicate 16 0) 0 0)
    (mkSector (replicate 2340 0) 0 false 0) (mkLast (replicate 2340 0) 0 0 0 0 false 0 0 0 0 0)
    (mkDrive 0 0 0 (-1) false false 0 0 0 0 0 0 0 0 false) (mkXa (0, 0) (0, 0) 0 0 0 false)
    (mkSpeed 1 1 32) (mkPending 0 false 0 0) (mkQueued 0 (replicate 16 0) 0 false)
    (mkDiag Rings.ring_empty Rings.ring_empty Rings.ring_empty ∅ 0 0) None
    [ch "S"; ch "C"; ch "E"; ch "A"] 0 [] [].

(** The states of a run: cdrom_init, then any operations, each with the
    globals it finds. *)
Inductive reachable : St -> Prop :=
| reach_init e path : reachable (cdrom_init e path power_on)
| reach_step e op s : op_ok op -> reachable s -> reachable (step e op s).

Lemma init_inv e path s : SpeedOk (speed s) -> ScexOk (disc_scex s) -> Safe (cdrom_init e path s).
Proof.
  intros Sp Sc. assert (K : forall t, SpeedOk (speed t) -> ScexOk (disc_scex t) -> Safe (cdrom_init e None t)).
  { intros t Spt Sct. split; try done.
    - split; simpl; unfold PARAM_FIFO_SIZE, RESPONSE_FIFO_SIZE; try done; try lia; apply (zeros_bytes 16).
    - split; simpl; unfold SECTOR_BUFFER_SIZE, WHOLE_SECTOR_SIZE, RAW_SECTOR_SIZE, WHOLE_SECTOR_OFFSET; try done; try lia.
      apply (zeros_bytes 2340).
    - split; simpl; unfold PARAM_FIFO_SIZE; try done; try lia. apply (zeros_bytes 16). }
  destruct path as [p|]; [|by apply K].
  destruct (K s Sp Sc). by split.
Qed.

Lemma power_on_ok : SpeedOk (speed power_on) /\ ScexOk (disc_scex power_on).
Proof. split; [done|]. split; [done|]. by repeat constructor. Qed.

Lemma step_inv e op s : op_ok op -> Safe s -> Safe (step e op s).
Proof.
  intros Hop J. destruct op; simpl in *.
  - by apply write_inv.
  - by apply read_inv.
  - by apply advance_inv.
  - by apply dma_inv.
  - destruct J. by split.
  - destruct J. by split.
  - destruct J. by split.
  - destruct J. split; try done. unfold SpeedOk, cdrom_set_instant_rate. simpl. btest; lia.
  - destruct J. by split.
  - apply init_inv; apply J.
Qed.

Lemma reachable_safe s : reachable s -> Safe s /\ Held s.
Proof.
  induction 1 as [e path|e op s Hop _ [J Hd]].
  - split; [apply init_inv; apply power_on_ok|]. by destruct path.
  - split; [by apply step_inv|by apply held_step].
Qed.

Lemma reachable_ledger s : reachable s -> Ledger 0 s.
Proof. induction 1; [by apply ledger_init|by apply ledger_step]. Qed.

(** A run from any state: operations with the globals each finds. *)
Definition run_from (ops : list (Env * Op)) (s : St) : St := fold_left (fun s o => step o.1 o.2 s) ops s.

Lemma run_ledger d ops : forall s, Ledger d s -> Ledger d (run_from ops s).
Proof. induction ops as [|[e op] ops IH]; intros s L; [done|]. by apply IH, ledger_step. Qed.

(** C16: the invariant of every run: from cdrom_init through any sequence of
    register reads and writes, DMA reads, advances and settings, the parameter
    and response counters stay within their 16-byte FIFOs, the sector cursor
    within the sector and the sector within its 2340-byte buffer, a sector that
    is available has bytes left, the delays of a pending command and of the
    sector stream are positive while they count, and a queued command always
    has an unacknowledged response to wait for. *)
Theorem cdrom_reachable_safe s :
  reachable s ->
  0 <= param_count (fifos s) <= Z.of_nat (length (param_fifo (fifos s))) /\
  0 <= response_read (fifos s) <= response_count (fifos s) /\
  response_count (fifos s) <= Z.of_nat (length (response_fifo (fifos s))) /\
  0 <= sector_read_pos (sector s) <= sector_size (sector s) /\
  sector_size (sector s) <= Z.of_nat (length (sector_buffer (sector s))) /\
  (sector_available (sector s) = true -> sector_read_pos (sector s) < sector_size (sector s)) /\
  (p_pending (pending s) = true -> 0 < p_delay (pending s)) /\
  (reading (drive s) = true -> 0 < read_delay (drive s)) /\
  (q_pending (queued_cmd s) = true -> irq_flag (regs s) <> 0) /\
  0 <= cdrom_irq_present_delay (regs s) <= CDROM_IRQ_PRESENT_DELAY.
Proof.
  intros R. destruct (reachable_safe s R) as [J Hd].
  destruct (inv_fifos _ _ J) as [Lp _ Cp Lr _ Rd Pu]. destruct (inv_sector _ _ J) as [Lb _ Ps Sz _ Av].
  unfold PARAM_FIFO_SIZE, RESPONSE_FIFO_SIZE, SECTOR_BUFFER_SIZE, WHOLE_SECTOR_SIZE, RAW_SECTOR_SIZE, WHOLE_SECTOR_OFFSET in *.
  rewrite Lp, Lr, Lb. repeat split; try done; try lia; try apply J. all: apply (inv_regs _ _ J).
Qed.

(** C15: at most one interrupt per response, however a run goes on: the interrupts
    raised, and the one still to come when the current response is not presented
    yet, are no more than the responses produced; from any reachable state on, the
    new interrupts are no more than the new responses and the one that state still
    has to present, so a response already presented, or no response at all, raises
    nothing; and after a write that acknowledges the response they are no more
    than the responses produced from that write on, so an acknowledged response is
    never presented (again), its presentation delay run out or not. *)
Theorem cdrom_raises_once s ops :
  reachable s ->
  raised (log s) + to_come (regs s) <= responses (log s) /\
  (let s' := run_from ops s in
   raised (log s') - raised (log s) + to_come (regs s') <= responses (log s') - responses (log s) + to_come (regs s)) /\
  (forall e addr v, acknowledges (OpWrite addr v) s = true -> Z.ldiff (irq_flag (regs s)) (Z.land (u8 v) 0x1F) = 0 ->
   let s' := run_from ops (step e (OpWrite addr v) s) in
   raised (log s') - raised (log s) + to_come (regs s') <= responses (log s') - responses (log s)).
Proof.
  intros R%reachable_ledger. pose proof (le_flag _ _ R) as F. split; [pose proof (le_count _ _ R); lia|]. split.
  - assert (L : Ledger (raised (log s) + to_come (regs s) - responses (log s)) s) by (split; [done|lia]).
    cbv zeta. pose proof (le_count _ _ (run_ledger _ ops _ L)). lia.
  - intros e addr v A C. cbv zeta. pose proof (le_count _ _ (run_ledger _ ops _ (ledger_cleared e addr v s F A C))).
    change (cdrom_write e addr v s) with (step e (OpWrite addr v) s) in *. lia.
Qed.

End Operations.

End CdSafety.
