(* ===== verification/CdromStream.v ===== *)
(** * CD-ROM controller: reading the disc, and XA audio

    Part 1: positions on the disc in minutes, seconds and frames.  Part 2: a
    guest that reads through the command interface (SetLoc, ReadN, then for each
    sector: wait, drain by DMA, acknowledge) gets the disc's sectors in order.
    Part 3: the resampler of XA audio against its closed form. *)

From Stdlib Require Import Ascii String.
From S2P Require Import Prelude Bus Rings Cdrom CdromProtocol CdromSafety.
Import Datatypes Cdrom CdProtocol CdSafety.
Import (hints) Cdrom.

Module CdStream.

(** ** Positions *)

(** Minutes, seconds and frames of a disc position. *)
Definition msf_ok (p : Z * Z * Z) : Prop :=
  let '(m, s, f) := p in 0 <= m <= 99 /\ 0 <= s < 60 /\ 0 <= f < 75.
Definition lba_of (p : Z * Z * Z) : Z := let '(m, s, f) := p in msf_to_lba m s f.

Lemma bcd_bin x : 0 <= x <= 99 -> bcd_to_bin (bin_to_bcd x) = x.
Proof.
  intros Hx. assert (A : forallb (fun x => bcd_to_bin (bin_to_bcd x) =? x) (seqZ 0 100) = true) by (vm_compute; reflexivity).
  apply Z.eqb_eq. by apply (forallb_seqZ _ 0 100 A); lia.
Qed.

(** The next position, without a bound on the minutes. *)
Definition sf_ok (p : Z * Z * Z) : Prop := let '(m, s, f) := p in 0 <= m /\ 0 <= s < 60 /\ 0 <= f < 75.

Lemma advance_msf_lba p : sf_ok p -> sf_ok (advance_msf p) /\ lba_of (advance_msf p) = lba_of p + 1.
Proof.
  destruct p as [[m s] f]. intros (Hm & Hs & Hf). unfold advance_msf, lba_of, sf_ok, msf_to_lba. cbv zeta.
  destruct (Z.leb_spec 75 (f + 1)); [destruct (Z.leb_spec 60 (s + 1))|destruct (Z.leb_spec 60 s)]; split; repeat split; lia.
Qed.

(** lba_to_msf inverts msf_to_lba. *)
Lemma lba_to_msf_inverse m s f : sf_ok (m, s, f) -> lba_to_msf (msf_to_lba m s f) 150 = (m, s, f).
Proof.
  intros (Hm & Hs & Hf). unfold lba_to_msf, msf_to_lba. cbv zeta.
  replace ((m * 60 + s) * 75 + f - 150 + 150) with (m * 4500 + (s * 75 + f)) by lia.
  replace (m * 4500 + (s * 75 + f) <? 0) with false by (symmetry; apply Z.ltb_ge; lia).
  change (60 * 75) with 4500. set (x := m * 4500 + (s * 75 + f)).
  assert (Hq : Z.quot x 4500 = m) by (unfold x; dlia). assert (Hr : Z.rem x 4500 = s * 75 + f) by (unfold x; dlia).
  rewrite Hq, Hr. f_equal; [f_equal|]; dlia.
Qed.

(** ** A guest reading the disc *)

Section Reading.
Context {H : Type} `{I : Iso H}.
Abbreviation St := (State H).
Implicit Types s : St.

(** The 2048 data bytes of a sector of the disc [h]. *)
Definition disc_sector (h : H) (lba : Z) : list Z :=
  match iso_read_raw_sector h lba with
  | Some r => take 2048 (drop 24 r)
  | None => default (replicate 2048 0) (iso_read_sector h lba)
  end.

(** A sector as DMA words. *)
Definition word_of (l : list Z) (i : Z) : Z :=
  aget l (4 * i) + aget l (4 * i + 1) * 0x100 + aget l (4 * i + 2) * 0x10000 + aget l (4 * i + 3) * 0x1000000.
Definition sector_words (l : list Z) : list Z := map (word_of l) (seqZ 0 512).

(** *** The guest's side *)

Definition dma_words (trace : bool) (e : Env) (n : nat) (s : St) : list Z * St :=
  Nat.iter n (fun x => let '(l, s) := x in let '(w, s) := cdrom_dma_read trace e s in (l ++ [w], s)) ([], s).

Definition acknowledge (e : Env) (s : St) : St :=
  cdrom_write e 0x1F801803 0x1F (cdrom_write e 0x1F801800 1 s).

(** Wait [cycles], request the data, drain it, acknowledge the interrupt. *)
Definition guest_sector (trace : bool) (e : Env) (cycles : Z) (s : St) : list Z * St :=
  let s := cdrom_advance e cycles s in
  let s := cdrom_write e 0x1F801803 0x80 (cdrom_write e 0x1F801800 0 s) in
  let '(l, s) := dma_words trace e 512 s in
  (l, acknowledge e s).

(** A command with its parameters, and the acknowledgement of its response. *)
Definition guest_command (e : Env) (cmd : Z) (params : list Z) (s : St) : St :=
  let s := cdrom_write e 0x1F801800 0 s in
  let s := fold_left (fun s p => cdrom_write e 0x1F801802 p s) params s in
  acknowledge e (cdrom_write e 0x1F801801 cmd s).

Definition guest_seek (e : Env) (p : Z * Z * Z) (s : St) : St :=
  let '(m, sc, f) := p in
  guest_command e 0x06 [] (guest_command e 0x02 [bin_to_bcd m; bin_to_bcd sc; bin_to_bcd f] s).

Fixpoint guest_sectors (trace : bool) (e : Env) (waits : list Z) (s : St) : list (list Z) * St :=
  match waits with
  | [] => ([], s)
  | c :: waits => let '(l, s) := guest_sector trace e c s in
                  let '(ls, s) := guest_sectors trace e waits s in (l :: ls, s)
  end.

(** *** States *)

(** Nothing to answer, nothing under way but perhaps the sector stream. *)
Record Ready (h : H) (s : St) : Prop := mkReady {
  rd_flag : irq_flag (regs s) = 0;
  rd_disc : iso_handle s = Some h;
  rd_pending : p_pending (pending s) = false;
  rd_queue : q_pending (queued_cmd s) = false;
  rd_params : param_count (fifos s) = 0;
  rd_param_size : length (param_fifo (fifos s)) = 16%nat;
  rd_mode : has (mode_reg (drive s)) 0x40 = false /\ has (mode_reg (drive s)) 0x20 = false /\ has (mode_reg (drive s)) 0x08 = false
}.

Record Streaming (h : H) (p : Z * Z * Z) (s : St) : Prop := mkStreaming {
  st_ready : Ready h s;
  st_reading : reading (drive s) = true;
  st_pos : (read_min (drive s), read_sec (drive s), read_sect (drive s)) = p;
  st_delay : 0 < read_delay (drive s) <= 903168
}.

Lemma quot_bound a b : 0 <= a -> Z.quot a b <= a.
Proof.
  intros Ha. destruct (Z.eq_dec b 0) as [->|Hb]; [by destruct a|].
  assert (Z.abs (Z.quot a b) <= a); [|lia].
  rewrite <- Z.quot_abs, Z.quot_div_nonneg by lia. apply Z.div_le_upper_bound; [lia|]. nia.
Qed.

Lemma apply_speed_bound d s : 0 < d <= 903168 -> 0 < apply_speed d s <= 903168.
Proof.
  intros Hd. unfold apply_speed, instant_period, CDROM_MIN_DELAY, VBLANK_CYCLES_NTSC. cbv zeta.
  pose proof (quot_bound 564480 (g_instant_max_per_frame (speed s)) ltac:(lia)).
  pose proof (quot_bound d (g_disc_speed_divisor (speed s)) ltac:(lia)).
  case_if; [lia|]. case_if; btest; lia.
Qed.

(** *** A sector arrives *)

(** What a read changes of the state but its diagnostics: the sector buffer. *)
Record Loaded (b : Sector) (s s' : St) : Prop := mkLoaded {
  ld_sector : sector s' = b; ld_regs : regs s' = regs s; ld_fifos : fifos s' = fifos s; ld_drive : drive s' = drive s;
  ld_pending : pending s' = pending s; ld_queue : queued_cmd s' = queued_cmd s; ld_iso : iso_handle s' = iso_handle s
}.

(** The buffer holding a data sector. *)
Definition data_buffer (l : list Z) : Sector := mkSector (buffer_of l) 0 true 2048.

Lemma read_sector_data e h p s :
  Ready h s ->
  (read_sector_at e p s).1 = true /\ Loaded (data_buffer (disc_sector h (lba_of p))) s (read_sector_at e p s).2.
Proof.
  intros [_ D _ _ _ _ (M1 & M2 & M3)]. destruct p as [[min sec] sect]. unfold read_sector_at, maybe_deliver_xa_audio. cbv zeta.
  rewrite D, M1. cbn [negb orb].
  match goal with |- context [match ?x with Some _ => (false, s) | None => _ end] =>
    replace (match x with Some _ => (false, s) | None => (false, s) end) with (false, s) by (by destruct x) end.
  rewrite M2, M3. cbn [orb andb negb data_delivered]. cbn [upd data_delivered negb fst snd].
  split; [done|]. split; try done.
Qed.

(** The position and the delay move on; the rest of the drive stays. *)
Definition moved (delay : Z) (d : Drive) : Drive :=
  let '(m, sc, f) := advance_msf (read_min d, read_sec d, read_sect d) in
  d <| read_min := m |> <| read_sec := sc |> <| read_sect := f |> <| read_delay := delay |>.

Lemma moved_renewed (x y z : Z) (d : Drive) : (moved x (d <| read_delay := y |>)) <| read_delay := z |> = moved z d.
Proof.
  unfold moved. change (read_min (d <| read_delay := y |>)) with (read_min d).
  change (read_sec (d <| read_delay := y |>)) with (read_sec d). change (read_sect (d <| read_delay := y |>)) with (read_sect d).
  destruct (advance_msf _) as [[m sc] f]. reflexivity.
Qed.

(** A sector has arrived and its interrupt waits. *)
Record Arrived (b : Sector) (delay : Z) (s s' : St) : Prop := mkArrived {
  ar_sector : sector s' = b; ar_drive : drive s' = moved delay (drive s);
  ar_flag : irq_flag (regs s') = CDIRQ_DATA_READY; ar_index : index_reg (regs s') = index_reg (regs s);
  ar_params : param_count (fifos s') = param_count (fifos s);
  ar_size : length (param_fifo (fifos s')) = length (param_fifo (fifos s));
  ar_pending : pending s' = pending s; ar_queue : queued_cmd s' = queued_cmd s; ar_iso : iso_handle s' = iso_handle s
}.

Lemma deliver_arrived e h s :
  Ready h s ->
  Arrived (data_buffer (disc_sector h (lba_of (read_min (drive s), read_sec (drive s), read_sect (drive s)))))
    (read_delay (drive s)) s (deliver_read_sector e s).2.
Proof.
  intros R. unfold deliver_read_sector, read_next_sector.
  destruct (read_sector_data e h (read_min (drive s), read_sec (drive s), read_sect (drive s)) s R) as [D L].
  destruct (read_sector_at e _ s) as [ok t]. cbn [fst snd] in D, L. subst ok. cbn [negb snd].
  set (u := on_drive _ t). set (v := set_irq _ _ _).
  assert (A : Answered u v) by (apply answers_set_irq; [by unfold CDIRQ_DATA_READY|by apply silent_push, silent_clear]).
  unfold fire_cdrom_irq. cbv zeta. pose proof (answered_not_due _ _ A) as Nd.
  rewrite present_not_due by (case_if; exact Nd).
  destruct L as [Ls Lr Lf Ld Lp Lq Li].
  match goal with |- Arrived ?b ?d s ?w => assert (Arrived b d s v); [|by case_if; destruct H0; split] end.
  split; try done.
  - change (drive u = moved (read_delay (drive s)) (drive s)). unfold u, on_drive, moved. cbn [upd drive]. rewrite Ld.
    by destruct (advance_msf _) as [[m sc] f].
  - change (index_reg (regs t) = index_reg (regs s)). by rewrite Lr.
  - change (param_count (fifos v)) with (param_count (if 0 <? RESPONSE_FIFO_SIZE then fifos t else fifos t)). simpl. by rewrite Lf.
  - change (param_fifo (fifos v)) with (param_fifo (fifos t)). by rewrite Lf.
Qed.

Lemma ready_same h s s' :
  irq_flag (regs s') = irq_flag (regs s) -> fifos s' = fifos s -> mode_reg (drive s') = mode_reg (drive s) ->
  pending s' = pending s -> queued_cmd s' = queued_cmd s -> iso_handle s' = iso_handle s -> Ready h s -> Ready h s'.
Proof. intros Ef Efi Ed Ep Eq Ei [F D Pe Qu Pa Sz M]. split; rewrite ?Ef, ?Efi, ?Ed, ?Ep, ?Eq, ?Ei; done. Qed.

Lemma sector_delay_bound s : 0 < sector_delay_cycles s <= 903168.
Proof. apply apply_speed_bound. case_if; unfold CDROM_SINGLE_SPEED_SECTOR_CYCLES; [dlia|lia]. Qed.

(** The stream without an unacknowledged interrupt, its delay run out. *)
Lemma stream_delivers e h c s :
  Ready h s -> reading (drive s) = true -> 0 < read_delay (drive s) <= 903168 -> 1000000 <= c < 0x7fffffff ->
  exists delay, 0 < delay <= 903168 /\
    Arrived (data_buffer (disc_sector h (lba_of (read_min (drive s), read_sec (drive s), read_sect (drive s))))) delay s
      (process_read_stream e c s).
Proof.
  intros R Rd Dl Hc. unfold process_read_stream. cbv zeta. rewrite Rd, (rd_flag _ _ R).
  change (0 =? 0) with true. cbn [negb andb]. rewrite andb_false_r. replace (0 <? c) with true by (symmetry; apply Z.ltb_lt; lia).
  set (t := on_drive _ s).
  assert (Et : drive t = (drive s) <| read_delay := s32 (read_delay (drive s) - c) |>) by done.
  change (read_delay (drive t)) with (s32 (read_delay (drive s) - c)). rewrite s32_id by lia.
  replace (read_delay (drive s) - c <=? 0) with true by (symmetry; apply Z.leb_le; lia).
  set (u := if sector_available (sector t) then _ else t).
  assert (Lu : Loaded (sector s) t u) by (unfold u; by case_if). clearbody u.
  assert (Ru : Ready h u) by (destruct Lu; apply (ready_same h t); [congruence..|]; by apply (ready_same h s)).
  pose proof (deliver_arrived e h u Ru) as A. set (w := (deliver_read_sector e u).2) in *. clearbody w.
  set (x := on_drive _ w). set (y := if read_delay (drive x) <=? 0 then _ else x).
  assert (Y : exists delay, 0 < delay <= 903168 /\ y = on_drive (fun d => d <| read_delay := delay |>) w).
  { unfold y. destruct (Z.leb_spec (read_delay (drive x)) 0) as [N|N].
    - exists (sector_delay_cycles x). split; [apply sector_delay_bound|done].
    - exists (read_delay (drive x)). split; [split; [done|]|done].
      change (read_delay (drive x)) with (s32 (read_delay (drive w) + sector_delay_cycles w)) in *.
      pose proof (sector_delay_bound w).
      assert (read_delay (drive w) <= 0 /\ -0x7fffffff < read_delay (drive w)) as [B1 B2].
      { rewrite (ar_drive _ _ _ _ A). replace (read_delay (moved (read_delay (drive u)) (drive u))) with (read_delay (drive u))
          by (unfold moved; by destruct (advance_msf _) as [[]]).
        rewrite (ld_drive _ _ _ Lu), Et. cbn [upd read_delay]. rewrite s32_id by lia. lia. }
      rewrite s32_id by lia. lia. }
  destruct Y as (delay & Hd & ->). exists delay. split; [exact Hd|].
  assert (Pu : read_min (drive u) = read_min (drive s) /\ read_sec (drive u) = read_sec (drive s) /\ read_sect (drive u) = read_sect (drive s))
    by (rewrite (ld_drive _ _ _ Lu), Et; done).
  destruct Pu as (Pm & Psc & Psf). rewrite Pm, Psc, Psf in A. destruct A, Lu. split.
  - exact ar_sector0.
  - change (drive (on_drive _ w)) with ((drive w) <| read_delay := delay |>). rewrite ar_drive0, ld_drive0, Et. apply moved_renewed.
  - exact ar_flag0.
  - etransitivity; [exact ar_index0|by rewrite ld_regs0].
  - etransitivity; [exact ar_params0|by rewrite ld_fifos0].
  - etransitivity; [exact ar_size0|by rewrite ld_fifos0].
  - etransitivity; [exact ar_pending0|by rewrite ld_pending0].
  - etransitivity; [exact ar_queue0|by rewrite ld_queue0].
  - etransitivity; [exact ar_iso0|by rewrite ld_iso0].
Qed.

(** Waiting long enough delivers the next sector of the stream. *)
Lemma advance_delivers e h p c s :
  Streaming h p s -> 1000000 <= c < 0x7fffffff ->
  exists delay, 0 < delay <= 903168 /\ Arrived (data_buffer (disc_sector h (lba_of p))) delay s (cdrom_advance e c s).
Proof.
  intros [R Rd Ps Dl] Hc. rewrite cdrom_advance_eq. destruct (R) as [F D Pe Qu _ _ M].
  assert (Nd : due (regs (on_regs (aged c) s)) = false) by (apply idle_not_due; unfold aged, on_regs; simpl; by case_if).
  rewrite (present_not_due e _ Nd).
  set (s1 := on_regs (aged c) s). assert (F1 : irq_flag (regs s1) = 0) by (unfold s1, aged, on_regs; simpl; by case_if).
  assert (X1 : index_reg (regs s1) = index_reg (regs s)) by (unfold s1, aged, on_regs; simpl; by case_if).
  assert (Q1 : try_execute_queued_command e s1 = s1).
  { unfold try_execute_queued_command. change (queued_cmd s1) with (queued_cmd s). by rewrite Qu. }
  assert (P1 : process_pending e c s1 = s1) by (unfold process_pending; change (pending s1) with (pending s); by rewrite Pe).
  rewrite Q1, P1. clear Q1 P1 Nd.
  assert (R1 : Ready h s1) by (by apply (ready_same h s); rewrite ?F1).
  destruct (stream_delivers e h c s1 R1 Rd Dl Hc) as (delay & Hd & A). exists delay. split; [exact Hd|].
  change (drive s1) with (drive s) in A. rewrite Ps in A.
  rewrite present_not_due; [|eapply stage_not_due; [|apply stage_read_stream]; by apply idle_not_due].
  destruct A. split; try done. by rewrite ar_index0.
Qed.

(** *** Draining a sector *)

Lemma aget_buffer l i : aget (buffer_of l) i = aget l i.
Proof.
  unfold buffer_of, aget. destruct (decide (Z.to_nat i < length l)%nat) as [L|L].
  - by rewrite app_nth1.
  - rewrite app_nth2 by lia. rewrite (nth_overflow l) by lia. apply nth_replicate_zero || idtac.
    destruct (decide (Z.to_nat i - length l < Z.to_nat SECTOR_BUFFER_SIZE - length l)%nat) as [K|K].
    + by rewrite nth_lookup_default, lookup_replicate_2 by done.
    + apply nth_overflow. rewrite length_replicate. lia.
Qed.

Lemma dma_word trace e l i s :
  has (request_reg (regs s)) CDROM_REQUEST_BFRD = true -> 0 <= i < 512 ->
  sector s = mkSector (buffer_of l) (4 * i) true 2048 ->
  (cdrom_dma_read trace e s).1 = word_of l i /\
  Loaded (mkSector (buffer_of l) (4 * (i + 1)) (i + 1 <? 512) 2048) s (cdrom_dma_read trace e s).2.
Proof.
  intros B Hi S. unfold cdrom_dma_read, cdrom_dma_ready. rewrite B, S. cbn [sector_available sector_read_pos sector_size andb].
  replace (4 * i + 4 <=? 2048) with true by (symmetry; apply Z.leb_le; lia). cbv zeta. cbn [fst snd].
  split; [unfold word_of; by rewrite <- !(aget_buffer l), Z.add_0_r|].
  set (t := on_sector _ s). assert (Lt : Loaded (mkSector (buffer_of l) (4 * i + 4) true 2048) s t).
  { split; try done. unfold t. change (sector (on_sector _ s)) with ((sector s) <| sector_read_pos := sector_read_pos (sector s) + 4 |>). by rewrite S. }
  set (u := if sector_size (sector t) <=? sector_read_pos (sector t) then _ else t).
  assert (Lu : Loaded (mkSector (buffer_of l) (4 * (i + 1)) (i + 1 <? 512) 2048) s u).
  { unfold u. rewrite (ld_sector _ _ _ Lt). cbn [sector_size sector_read_pos].
    replace (4 * (i + 1)) with (4 * i + 4) by lia.
    destruct (Z.leb_spec 2048 (4 * i + 4)), (Z.ltb_spec (i + 1) 512); try lia; [|exact Lt].
    destruct Lt. split; try done. change (sector (on_sector _ t)) with ((sector t) <| sector_available := false |>). by rewrite ld_sector0. }
  clearbody u. case_if; [|exact Lu]. by destruct Lu.
Qed.

Lemma loaded_trans b c s s' s'' : Loaded b s s' -> Loaded c s' s'' -> Loaded c s s''.
Proof. intros [] []. split; congruence. Qed.

Lemma dma_words_spec trace e l n s :
  has (request_reg (regs s)) CDROM_REQUEST_BFRD = true -> sector s = data_buffer l -> (n <= 512)%nat ->
  (dma_words trace e n s).1 = map (word_of l) (seqZ 0 (Z.of_nat n)) /\
  Loaded (mkSector (buffer_of l) (4 * Z.of_nat n) (Z.of_nat n <? 512) 2048) s (dma_words trace e n s).2.
Proof.
  intros B Hs. induction n as [|n IH]; intros Hn; [by split|].
  destruct (IH ltac:(lia)) as [W L]. unfold dma_words in *. rewrite Nat.iter_succ.
  destruct (Nat.iter n _ _) as [ws t]. cbn [fst snd] in W, L.
  assert (B' : has (request_reg (regs t)) CDROM_REQUEST_BFRD = true) by (by rewrite (ld_regs _ _ _ L)).
  assert (S' : sector t = mkSector (buffer_of l) (4 * Z.of_nat n) true 2048).
  { rewrite (ld_sector _ _ _ L). f_equal. apply Z.ltb_lt. lia. }
  destruct (dma_word trace e l (Z.of_nat n) t B' ltac:(lia) S') as [W' L'].
  destruct (cdrom_dma_read trace e t) as [w u]. cbn [fst snd] in *. subst.
  replace (Z.of_nat (S n)) with (Z.of_nat n + 1) by lia. split; [|by eapply loaded_trans].
  rewrite seqZ_snoc, map_app by lia. done.
Qed.

(** *** Acknowledging *)

Lemma acknowledge_spec e s :
  0 <= irq_flag (regs s) < 8 -> q_pending (queued_cmd s) = false ->
  let a := acknowledge e s in
  irq_flag (regs a) = 0 /\ fifos a = fifos s /\ drive a = drive s /\ pending a = pending s /\
  queued_cmd a = queued_cmd s /\ iso_handle a = iso_handle s.
Proof.
  intros F Q a. unfold a, acknowledge. set (t := cdrom_write e 0x1F801800 1 s). set (u := trace_cdrom e (ch "W") 0x1F801803 (u8 0x1F) 1 t).
  set (w := irq_acknowledge (u8 0x1F) u).
  assert (E : cdrom_write e 0x1F801803 0x1F t = w).
  { change (cdrom_write e 0x1F801803 0x1F t) with (try_execute_queued_command e w).
    unfold try_execute_queued_command. change (queued_cmd w) with (queued_cmd s). by rewrite Q. }
  rewrite E. split; [|done]. clear E.
  assert (Z0 : Z.ldiff (irq_flag (regs s)) (Z.land (u8 0x1F) 0x1F) = 0).
  { change (Z.land (u8 0x1F) 0x1F) with (Z.ones 5). rewrite Z.ldiff_ones_r, Z.shiftr_div_pow2, Z.div_small by lia. done. }
  rewrite <- Z0. unfold w, irq_acknowledge. set (r := regs u). assert (Er : irq_flag r = irq_flag (regs s)) by done.
  unfold on_regs. cbn [upd regs]. fold r. clearbody r. rewrite <- Er. by case_if.
Qed.

(** *** One sector of the stream *)

Lemma moved_pos delay d m sc f :
  advance_msf (read_min d, read_sec d, read_sect d) = (m, sc, f) ->
  (read_min (moved delay d), read_sec (moved delay d), read_sect (moved delay d)) = (m, sc, f) /\
  read_delay (moved delay d) = delay /\ reading (moved delay d) = reading d /\ mode_reg (moved delay d) = mode_reg d.
Proof. unfold moved. by intros ->. Qed.

Lemma guest_sector_spec trace e h p c s :
  Streaming h p s -> 1000000 <= c < 0x7fffffff ->
  (guest_sector trace e c s).1 = sector_words (disc_sector h (lba_of p)) /\
  Streaming h (advance_msf p) (guest_sector trace e c s).2.
Proof.
  intros S Hc. destruct (advance_delivers e h p c s S Hc) as (delay & Hd & A). destruct S as [R Rd Ps _].
  unfold guest_sector. set (t := cdrom_advance e c s) in *. clearbody t.
  set (u := cdrom_write e 0x1F801803 0x80 (cdrom_write e 0x1F801800 0 t)).
  assert (U : has (request_reg (regs u)) CDROM_REQUEST_BFRD = true /\ sector u = sector t /\ irq_flag (regs u) = irq_flag (regs t) /\
    fifos u = fifos t /\ drive u = drive t /\ pending u = pending t /\ queued_cmd u = queued_cmd t /\ iso_handle u = iso_handle t)
    by done.
  clearbody u. destruct U as (B & Us & Uf & Ufi & Ud & Up & Uq & Ui). rewrite (ar_sector _ _ _ _ A) in Us.
  destruct (dma_words_spec trace e _ 512 u B Us ltac:(lia)) as [W L]. destruct (dma_words trace e 512 u) as [ws v].
  cbn [fst snd] in *. subst ws. split; [done|].
  destruct R as [F D Pe Qu Pa Sz M]. destruct L as [_ Lr Lf Ld Lp Lq Li]. destruct A.
  assert (Ev : irq_flag (regs v) = 1) by (by rewrite Lr, Uf, ar_flag0).
  assert (Qv : q_pending (queued_cmd v) = false) by (by rewrite Lq, Uq, ar_queue0).
  destruct (acknowledge_spec e v ltac:(rewrite Ev; lia) Qv) as (Af & Afi & Ad & Ap & Aq & Ai).
  set (z := acknowledge e v) in *. clearbody z.
  assert (Dz : drive z = moved delay (drive s)) by congruence.
  assert (Fz : fifos z = fifos t) by congruence.
  destruct (advance_msf (read_min (drive s), read_sec (drive s), read_sect (drive s))) as [[m sc] f] eqn:Em.
  destruct (moved_pos delay (drive s) m sc f Em) as (Mp & Md & Mr & Mm).
  split; [split|..]; rewrite ?Dz; try congruence.
Qed.

(** *** Starting to read *)

(** The state a command's handler starts from. *)
Definition entered (e : Env) (cmd : Z) (s : St) : St :=
  response_clear (record EV_ENQ SRC_CD_CMD cmd (trace_cdrom e (ch "C") 0 cmd 0 s)).

Lemma entered_spec e cmd s :
  param_fifo (fifos (entered e cmd s)) = param_fifo (fifos s) /\ param_count (fifos (entered e cmd s)) = param_count (fifos s) /\
  drive (entered e cmd s) = drive s /\ pending (entered e cmd s) = pending s /\
  queued_cmd (entered e cmd s) = queued_cmd s /\ iso_handle (entered e cmd s) = iso_handle s.
Proof. done. Qed.

(** What a guest command, acknowledged, leaves of its handler's state. *)
Record Done (d a : St) : Prop := mkDone {
  dn_flag : irq_flag (regs a) = 0; dn_count : param_count (fifos a) = 0;
  dn_fifo : param_fifo (fifos a) = param_fifo (fifos d); dn_drive : drive a = drive d;
  dn_pending : pending a = pending d; dn_queue : queued_cmd a = queued_cmd d; dn_iso : iso_handle a = iso_handle d
}.

Lemma exec_core e cmd s d :
  dispatch_command e cmd (entered e cmd s) = d ->
  let x := exec_command e cmd s in
  drive x = drive d /\ pending x = pending d /\ queued_cmd x = queued_cmd d /\ iso_handle x = iso_handle d /\
  param_count (fifos x) = 0 /\ param_fifo (fifos x) = param_fifo (fifos d).
Proof.
  intros Ed x. unfold x, exec_command. cbv zeta. fold (entered e cmd s).
  assert (A : Answered (entered e cmd s) d) by (rewrite <- Ed; apply answered_dispatch).
  rewrite Ed. clear Ed. set (f := on_fifos _ d). assert (Nd : due (regs f) = false) by (exact (answered_not_due _ _ A)).
  unfold fire_cdrom_irq. cbv zeta. rewrite present_not_due by (case_if; exact Nd). by case_if.
Qed.

Lemma exec_ack_spec e cmd s d :
  dispatch_command e cmd (entered e cmd s) = d -> q_pending (queued_cmd d) = false ->
  Done d (acknowledge e (exec_command e cmd s)).
Proof.
  intros Ed Q. destruct (exec_core e cmd s d Ed) as (Xd & Xp & Xq & Xi & Xc & Xpf).
  assert (F : 0 <= irq_flag (regs (exec_command e cmd s)) < 8) by (pose proof (an_flag _ _ (answered_exec e cmd s)); lia).
  generalize dependent (exec_command e cmd s). intros x Xd Xp Xq Xi Xc Xpf F.
  destruct (acknowledge_spec e x F) as (Af & Afi & Ad & Ap & Aq & Ai); [by rewrite Xq|].
  split; congruence.
Qed.

(** What a parameter write changes: the FIFO. *)
Record Pushed (v : Z) (s s' : St) : Prop := mkPushed {
  pu_count : param_count (fifos s') = param_count (fifos s) + 1;
  pu_fifo : param_fifo (fifos s') = aset (param_fifo (fifos s)) (param_count (fifos s)) v;
  pu_regs : regs s' = regs s; pu_drive : drive s' = drive s; pu_pending : pending s' = pending s;
  pu_queue : queued_cmd s' = queued_cmd s; pu_iso : iso_handle s' = iso_handle s
}.

Lemma param_write e v s :
  index_reg (regs s) = 0 -> param_count (fifos s) < 16 -> 0 <= v < 0x100 -> Pushed v s (cdrom_write e 0x1F801802 v s).
Proof.
  intros X C Hv. unfold cdrom_write. cbv zeta. set (t := trace_cdrom _ _ _ _ _ s).
  change (index_reg (regs t)) with (index_reg (regs s)). rewrite X. change (0x1F801802 =? 0x1F801800) with false. change (0x1F801802 =? 0x1F801801) with false.
  change (0x1F801802 =? 0x1F801802) with true. change (0 =? 0) with true. cbv iota. rewrite (u8_id v) by done.
  set (g := fun f : Fifos => _).
  assert (G : g (fifos s) = (fifos s) <| param_fifo := aset (param_fifo (fifos s)) (param_count (fifos s)) v |>
                                    <| param_count := param_count (fifos s) + 1 |>).
  { unfold g. replace (param_count (fifos s) <? PARAM_FIFO_SIZE) with true; [done|].
    symmetry. by apply Z.ltb_lt. }
  assert (Gf : fifos (on_fifos g t) = g (fifos s)) by done.
  split; try done; by rewrite Gf, G.
Qed.

(** A command written to a controller with no response outstanding is executed
    and acknowledged. *)
Lemma command_done e cmd s d :
  irq_flag (regs s) = 0 -> index_reg (regs s) = 0 -> 0 <= cmd < 0x100 ->
  dispatch_command e cmd (entered e cmd (trace_cdrom e (ch "W") 0x1F801801 cmd 1 s)) = d -> q_pending (queued_cmd d) = false ->
  Done d (acknowledge e (cdrom_write e 0x1F801801 cmd s)).
Proof.
  intros F X Hc Ed Q. pose proof (exec_ack_spec _ _ _ _ Ed Q) as Dn.
  assert (Eq : cdrom_write e 0x1F801801 cmd s = exec_command e cmd (trace_cdrom e (ch "W") 0x1F801801 cmd 1 s)).
  { unfold cdrom_write. cbv zeta. rewrite (u8_id cmd) by done. set (t := trace_cdrom _ _ _ _ _ s).
    change (index_reg (regs t)) with (index_reg (regs s)). rewrite X.
    change (0x1F801801 =? 0x1F801800) with false. change (0x1F801801 =? 0x1F801801) with true. change (0 =? 0) with true. cbv iota.
    unfold queue_or_exec_command. change (irq_flag (regs t)) with (irq_flag (regs s)). by rewrite F. }
  by rewrite Eq.
Qed.

(** SetLoc stores the position its BCD parameters name. *)
Lemma setloc_spec e s m sc f :
  3 <= param_count (fifos s) -> msf_ok (m, sc, f) ->
  aget (param_fifo (fifos s)) 0 = bin_to_bcd m -> aget (param_fifo (fifos s)) 1 = bin_to_bcd sc ->
  aget (param_fifo (fifos s)) 2 = bin_to_bcd f ->
  let d := cmd_SetLoc e s in
  (seek_min (drive d), seek_sec (drive d), seek_sect (drive d)) = (m, sc, f) /\ mode_reg (drive d) = mode_reg (drive s) /\
  pending d = pending s /\ queued_cmd d = queued_cmd s /\ iso_handle d = iso_handle s /\
  param_fifo (fifos d) = param_fifo (fifos s).
Proof.
  intros C (Hm & Hs & Hf) P0 P1 P2. unfold cmd_SetLoc, param. cbv zeta. rewrite P0, P1, P2, !bcd_bin by lia.
  rewrite !u8_id by lia. unfold n_params. replace (3 <=? param_count (fifos s)) with true by (symmetry; by apply Z.leb_le).
  set (t := on_drive _ s). assert (Ef : fifos t = fifos s) by done.
  repeat split. change (fifos (ack e t)) with (fifos (response_push (stat t) t)).
  change (param_fifo (fifos (response_push (stat t) t)) = param_fifo (fifos t)).
  unfold response_push, on_fifos. cbn [upd fifos]. by case_if.
Qed.

Lemma read_spec e cmd h s :
  iso_handle s = Some h ->
  let d := cmd_Read e cmd s in
  reading (drive d) = true /\ 0 < read_delay (drive d) <= 903168 /\
  (read_min (drive d), read_sec (drive d), read_sect (drive d)) = (seek_min (drive s), seek_sec (drive s), seek_sect (drive s)) /\
  mode_reg (drive d) = mode_reg (drive s) /\ pending d = pending s /\ queued_cmd d = queued_cmd s /\
  iso_handle d = iso_handle s /\ param_fifo (fifos d) = param_fifo (fifos s).
Proof.
  intros D d. assert (Ea : d = ack e (start_read_stream cmd s)) by (unfold d, cmd_Read, has_disc; by rewrite D).
  rewrite Ea. clear Ea d. unfold start_read_stream. cbv zeta.
  set (s1 := if has _ 0x40 then _ else _). assert (E1 : drive s1 = drive s /\ pending s1 = pending s /\ queued_cmd s1 = queued_cmd s /\
    iso_handle s1 = iso_handle s /\ fifos s1 = fifos s) by (unfold s1; by case_if).
  clearbody s1. destruct E1 as (Ed & Ep & Eq & Ei & Ef).
  set (s2 := on_drive _ s1). assert (B : 0 < initial_read_delay_cycles s2 <= 903168)
    by (apply apply_speed_bound; case_if; unfold CDROM_SINGLE_SPEED_SECTOR_CYCLES; lia).
  rewrite <- Ed, <- Ep, <- Eq, <- Ei, <- Ef.
  repeat split; try apply B.
  set (u := record _ _ _ _). change (param_fifo (fifos (response_push (stat u) u)) = param_fifo (fifos u)).
  unfold response_push, on_fifos. cbn [upd fifos]. by case_if.
Qed.

Lemma select_index e s :
  let t := cdrom_write e 0x1F801800 0 s in
  index_reg (regs t) = 0 /\ irq_flag (regs t) = irq_flag (regs s) /\ fifos t = fifos s /\ drive t = drive s /\
  pending t = pending s /\ queued_cmd t = queued_cmd s /\ iso_handle t = iso_handle s.
Proof. done. Qed.

(** Three parameters in the FIFO. *)
Record Params3 (a b c : Z) (s s' : St) : Prop := mkParams3 {
  p3_count : param_count (fifos s') = 3; p3_size : length (param_fifo (fifos s')) = 16%nat;
  p3_0 : aget (param_fifo (fifos s')) 0 = a; p3_1 : aget (param_fifo (fifos s')) 1 = b; p3_2 : aget (param_fifo (fifos s')) 2 = c;
  p3_regs : regs s' = regs s; p3_drive : drive s' = drive s; p3_pending : pending s' = pending s;
  p3_queue : queued_cmd s' = queued_cmd s; p3_iso : iso_handle s' = iso_handle s
}.

Lemma params3_write e a b c s :
  index_reg (regs s) = 0 -> param_count (fifos s) = 0 -> length (param_fifo (fifos s)) = 16%nat ->
  0 <= a < 0x100 -> 0 <= b < 0x100 -> 0 <= c < 0x100 ->
  Params3 a b c s (fold_left (fun s p => cdrom_write e 0x1F801802 p s) [a; b; c] s).
Proof.
  intros X C L Ha Hb Hc. cbn [fold_left].
  pose proof (param_write e a s X ltac:(lia) Ha) as W1. generalize dependent (cdrom_write e 0x1F801802 a s). intros s1 [].
  pose proof (param_write e b s1 ltac:(congruence) ltac:(lia) Hb) as W2. generalize dependent (cdrom_write e 0x1F801802 b s1). intros s2 [].
  pose proof (param_write e c s2 ltac:(congruence) ltac:(lia) Hc) as W3. generalize dependent (cdrom_write e 0x1F801802 c s2). intros s3 [].
  assert (E1 : param_count (fifos s1) = 1) by lia. assert (E2 : param_count (fifos s2) = 2) by lia.
  assert (F3 : param_fifo (fifos s3) = aset (aset (aset (param_fifo (fifos s)) 0 a) 1 b) 2 c) by congruence.
  split; try congruence; try lia; rewrite F3.
  - by rewrite !length_aset.
  - rewrite !aget_aset_ne, aget_aset_eq by lia. done.
  - rewrite aget_aset_ne, aget_aset_eq by (rewrite ?length_aset; lia). done.
  - rewrite aget_aset_eq by (rewrite ?length_aset; lia). done.
Qed.

(** SetLoc with its acknowledgement leaves the position sought. *)
Lemma guest_setloc e h m sc f s :
  Ready h s -> msf_ok (m, sc, f) ->
  let a := guest_command e 0x02 [bin_to_bcd m; bin_to_bcd sc; bin_to_bcd f] s in
  Ready h a /\ (seek_min (drive a), seek_sec (drive a), seek_sect (drive a)) = (m, sc, f).
Proof.
  intros [F D Pe Qu Pa Sz M] Ok a. unfold a, guest_command. clear a.
  destruct (select_index e s) as (X0 & F0 & Fi0 & D0 & P0 & Q0 & I0).
  generalize dependent (cdrom_write e 0x1F801800 0 s). intros s0 X0 F0 Fi0 D0 P0 Q0 I0.
  pose proof (params3_write e (bin_to_bcd m) (bin_to_bcd sc) (bin_to_bcd f) s0 X0 ltac:(congruence) ltac:(congruence)
    (u8_range _) (u8_range _) (u8_range _)) as W.
  generalize dependent (fold_left (fun s p => cdrom_write e 0x1F801802 p s) [bin_to_bcd m; bin_to_bcd sc; bin_to_bcd f] s0).
  intros s3 [].
  destruct (entered_spec e 2 (trace_cdrom e (ch "W") 0x1F801801 2 1 s3)) as (Ef & Ec & Ed & Ep & Eq & Ei).
  assert (Tr : fifos (trace_cdrom e (ch "W") 0x1F801801 2 1 s3) = fifos s3 /\ drive (trace_cdrom e (ch "W") 0x1F801801 2 1 s3) = drive s3 /\
    pending (trace_cdrom e (ch "W") 0x1F801801 2 1 s3) = pending s3 /\ queued_cmd (trace_cdrom e (ch "W") 0x1F801801 2 1 s3) = queued_cmd s3 /\
    iso_handle (trace_cdrom e (ch "W") 0x1F801801 2 1 s3) = iso_handle s3) by done.
  destruct Tr as (Tf & Td & Tp & Tq & Ti). rewrite Tf, Td, Tp, Tq, Ti in *.
  pose proof (command_done e 2 s3 (cmd_SetLoc e (entered e 2 (trace_cdrom e (ch "W") 0x1F801801 2 1 s3)))
    ltac:(congruence) ltac:(congruence) ltac:(lia) eq_refl) as Dn.
  generalize dependent (entered e 2 (trace_cdrom e (ch "W") 0x1F801801 2 1 s3)). intros d0 Ef Ec Ed Ep Eq Ei Dn.
  destruct (setloc_spec e d0 m sc f ltac:(lia) Ok ltac:(congruence) ltac:(congruence) ltac:(congruence)) as (Sk & Sm & Sp & Sq & Si & Sf).
  generalize dependent (cmd_SetLoc e d0). intros d Dn Sk Sm Sp Sq Si Sf. specialize (Dn ltac:(congruence)).
  generalize dependent (acknowledge e (cdrom_write e 0x1F801801 2 s3)). intros z [].
  assert (Mz : mode_reg (drive z) = mode_reg (drive s)) by congruence.
  split; [|by rewrite dn_drive0]. split; rewrite ?Mz; try congruence.
Qed.

(** ReadN with its acknowledgement starts the stream there. *)
Lemma guest_read e h s :
  Ready h s -> Streaming h (seek_min (drive s), seek_sec (drive s), seek_sect (drive s)) (guest_command e 0x06 [] s).
Proof.
  intros [F D Pe Qu Pa Sz M]. unfold guest_command. cbn [fold_left].
  destruct (select_index e s) as (X0 & F0 & Fi0 & D0 & P0 & Q0 & I0).
  generalize dependent (cdrom_write e 0x1F801800 0 s). intros s0 X0 F0 Fi0 D0 P0 Q0 I0.
  destruct (entered_spec e 6 (trace_cdrom e (ch "W") 0x1F801801 6 1 s0)) as (Ef & Ec & Ed & Ep & Eq & Ei).
  assert (Tr : fifos (trace_cdrom e (ch "W") 0x1F801801 6 1 s0) = fifos s0 /\ drive (trace_cdrom e (ch "W") 0x1F801801 6 1 s0) = drive s0 /\
    pending (trace_cdrom e (ch "W") 0x1F801801 6 1 s0) = pending s0 /\ queued_cmd (trace_cdrom e (ch "W") 0x1F801801 6 1 s0) = queued_cmd s0 /\
    iso_handle (trace_cdrom e (ch "W") 0x1F801801 6 1 s0) = iso_handle s0) by done.
  destruct Tr as (Tf & Td & Tp & Tq & Ti). rewrite Tf, Td, Tp, Tq, Ti in *.
  pose proof (command_done e 6 s0 (cmd_Read e 6 (entered e 6 (trace_cdrom e (ch "W") 0x1F801801 6 1 s0)))
    ltac:(congruence) ltac:(congruence) ltac:(lia) eq_refl) as Dn.
  generalize dependent (entered e 6 (trace_cdrom e (ch "W") 0x1F801801 6 1 s0)). intros d0 Ef Ec Ed Ep Eq Ei Dn.
  destruct (read_spec e 6 h d0 ltac:(congruence)) as (Rr & Rd & Rp & Rm & Rpe & Rq & Ri & Rf).
  generalize dependent (cmd_Read e 6 d0). intros d Dn Rr Rd Rp Rm Rpe Rq Ri Rf. specialize (Dn ltac:(congruence)).
  generalize dependent (acknowledge e (cdrom_write e 0x1F801801 6 s0)). intros z [].
  assert (Mz : mode_reg (drive z) = mode_reg (drive s)) by congruence.
  split; [split|..]; rewrite ?Mz, ?dn_drive0; try congruence; done.
Qed.

Lemma msf_sf p : msf_ok p -> sf_ok p.
Proof. destruct p as [[m s] f]. unfold msf_ok, sf_ok. lia. Qed.

Lemma sectors_spec trace e h waits p s :
  Forall (fun c => 1000000 <= c < 0x7fffffff) waits -> sf_ok p -> Streaming h p s ->
  (guest_sectors trace e waits s).1 =
    map (fun i => sector_words (disc_sector h (lba_of p + i))) (seqZ 0 (Z.of_nat (length waits))).
Proof.
  intros W. revert p s. induction W as [|c waits Hc W IH]; intros p s Ok S; [done|]. cbn [guest_sectors].
  destruct (guest_sector_spec trace e h p c s S Hc) as [E S']. destruct (guest_sector trace e c s) as [l t].
  cbn [fst snd] in E, S'. destruct (advance_msf_lba p Ok) as [Ok' El].
  specialize (IH _ _ Ok' S'). destruct (guest_sectors trace e waits t) as [ls u]. cbn [fst] in *. subst l ls.
  rewrite (seqZ_cons 0 (Z.of_nat (length (c :: waits)))) by (simpl; lia). cbn [map]. rewrite Z.add_0_r. f_equal.
  replace (Z.pred (Z.of_nat (length (c :: waits)))) with (Z.of_nat (length waits)) by (simpl; lia).
  rewrite El. change (Z.succ 0) with (1 + 0). rewrite <- fmap_add_seqZ.
  change (Z.add 1 <$> ?l) with (map (Z.add 1) l). rewrite map_map. apply map_ext. intros i.
  by replace (lba_of p + (1 + i)) with (lba_of p + 1 + i) by lia.
Qed.

(** C13: reading the disc through the command interface: from any state with a
    disc and no response, command or parameter outstanding, in data mode, a
    guest that writes SetLoc with the BCD of a position and ReadN, and then for
    each sector waits at least 1000000 cycles (and fewer than 2^31 - 1), drains 512
    words by DMA and acknowledges the interrupt, gets exactly the 2048 data bytes of the sectors
    at that position and after it, in order, each once, for any number of
    sectors. *)
Theorem cdrom_reads_disc trace e h p waits s :
  Ready h s -> msf_ok p -> Forall (fun c => 1000000 <= c < 0x7fffffff) waits ->
  (guest_sectors trace e waits (guest_seek e p s)).1 =
    map (fun i => sector_words (disc_sector h (lba_of p + i))) (seqZ 0 (Z.of_nat (length waits))).
Proof.
  intros R Ok W. assert (S : Streaming h p (guest_seek e p s)).
  { destruct p as [[m sc] f]. destruct (guest_setloc e h m sc f s R Ok) as [R1 P1]. unfold guest_seek.
    pose proof (guest_read e h _ R1) as S. by rewrite P1 in S. }
  by apply (sectors_spec trace e h waits p); [|apply msf_sf|].
Qed.

End Reading.

(** ** Resampling XA audio *)

(** Output frame [k]: the input at time k * rate / 44100, between the frames on
    either side of it; the last frame has no successor and stands for it. *)
Definition resample_at (inp : list (Z * Z)) (rate k : Z) : Z * Z :=
  let pos := k * rate / 44100 in
  let phase := (k * rate) mod 44100 in
  let frame i := nth (Z.to_nat i) inp (0, 0) in
  let cur := frame pos in
  let next := frame (Z.min (pos + 1) (Z.of_nat (length inp) - 1)) in
  (xa_mix cur.1 next.1 phase, xa_mix cur.2 next.2 phase).

(** The frames that start within the input. *)
Definition resample_count (n rate : Z) : Z := (n * 44100 + rate - 1) / rate.

Definition resample_spec (inp : list (Z * Z)) (rate max : Z) : list (Z * Z) :=
  map (resample_at inp rate) (seqZ 0 (Z.min max (resample_count (Z.of_nat (length inp)) rate))).

Lemma phase_loop a b :
  0 <= a < 44100 * 0x80000000 ->
  pwhile 0x80000000 (fun y : Z * Z => 44100 <=? y.1) (fun y => (y.1 - 44100, y.2 + 1)) (a, b) = (a mod 44100, b + a / 44100).
Proof.
  intros Ha.
  set (J := fun y : Z * Z => 0 <= y.1 /\ y.1 mod 44100 = a mod 44100 /\ y.2 + y.1 / 44100 = b + a / 44100).
  destruct (pwhile_spec (fun y : Z * Z => 44100 <=? y.1) (fun y => (y.1 - 44100, y.2 + 1)) J
    (fun y => y.1 / 44100) 0x80000000 (a, b)) as [[J0 [J1 J2]] C].
  - split; simpl; [lia|done].
  - intros [x y] (X0 & X1 & X2) Hx. apply Z.leb_le in Hx. simpl in *. unfold J. simpl. dlia.
  - intros [x y] _ Hx. apply Z.leb_le in Hx. simpl in *. dlia.
  - simpl. dlia.
  - destruct (pwhile _ _ _ _) as [x y]. simpl in *. apply Z.leb_gt in C.
    rewrite Z.mod_small in J1 by lia. rewrite Z.div_small in J2 by lia. subst x. f_equal. lia.
Qed.

(** The C product is an int: between two samples far enough apart it exceeds
    INT_MAX at a phase the 37800 Hz format reaches. *)
Example xa_mix_overflows :
  let product := (32767 - -32768) * 37800 in
  0x80000000 <= product /\
  xa_mix (-32768) 32767 37800 <> -32768 + Z.quot product 44100.
Proof. by vm_compute. Qed.

(** The loop's state after [k] frames. *)
Definition resampled (inp : list (Z * Z)) (rate k : Z) (x : Z * Z * list (Z * Z)) : Prop :=
  0 <= k /\ x = (k * rate / 44100, (k * rate) mod 44100, rev (map (resample_at inp rate) (seqZ 0 k))).

Lemma resample_step_spec inp rate k x :
  0 < rate <= 44100 -> resampled inp rate k x -> x.1.1 < Z.of_nat (length inp) ->
  resampled inp rate (k + 1) (resample_step inp rate x).
Proof.
  intros Hr [Hk ->] Hin. simpl in Hin. split; [lia|]. unfold resample_step.
  set (pos := k * rate / 44100) in *. set (ph := (k * rate) mod 44100).
  assert (Hph : 0 <= ph < 44100) by (apply Z.mod_pos_bound; lia).
  rewrite phase_loop by lia.
  assert (Es : (k + 1) * rate = pos * 44100 + (ph + rate)) by (unfold pos, ph; pose proof (Z.div_mod (k * rate) 44100 ltac:(lia)); lia).
  rewrite Es, Z.div_add_l, (Z.add_comm (pos * 44100)), Z.mod_add by lia.
  rewrite seqZ_snoc, map_app, rev_app_distr, Z.add_0_l by lia. simpl. f_equal. f_equal.
  unfold resample_at. fold pos ph. replace (Z.min (pos + 1) (Z.of_nat (length inp) - 1)) with
    (if pos + 1 <? Z.of_nat (length inp) then pos + 1 else pos) by (btest; lia). done.
Qed.

Lemma resample_count_spec n rate k : 0 < rate -> 0 <= k -> (k * rate / 44100 < n <-> k < resample_count n rate).
Proof.
  intros Hr Hk. unfold resample_count. split; intros Hlt.
  - assert (k * rate < n * 44100) by dlia.
    apply Z.lt_le_trans with (k + 1); [lia|]. apply Z.div_le_lower_bound; [lia|]. nia.
  - assert (k * rate < n * 44100); [|dlia].
    assert (k + 1 <= (n * 44100 + rate - 1) / rate) by lia.
    pose proof (Z.mul_div_le (n * 44100 + rate - 1) rate ltac:(lia)). nia.
Qed.

Lemma resample_eq inp rate max :
  0 < rate <= 44100 -> 0 < max -> xa_resample_to_44100 inp rate max = resample_spec inp rate max.
Proof.
  intros Hr Hm. unfold xa_resample_to_44100, resample_spec. set (n := Z.of_nat (length inp)).
  replace (rate <=? 0) with false by (symmetry; apply Z.leb_gt; lia). replace (max <=? 0) with false by (symmetry; apply Z.leb_gt; lia).
  destruct (Z.leb_spec n 0) as [N|N]; cbn [orb].
  { replace n with 0 by lia. unfold resample_count. rewrite Z.div_small by lia. by rewrite Z.min_r by lia. }
  set (c := fun x : Z * Z * list (Z * Z) => _).
  set (J := fun x => exists k, k <= max /\ resampled inp rate k x /\ k <= resample_count n rate).
  destruct (pwhile_spec c (resample_step inp rate) J (fun x => max - Z.of_nat (length x.2)) (Z.to_pos max) (0, 0, []))
    as [(k & Km & [K0 K1] & Kc) C].
  - exists 0. split; [lia|]. split; [split; [lia|done]|]. unfold resample_count. apply Z.div_pos; lia.
  - intros x (k & Km & K & Kc) Hc. apply andb_prop in Hc as [Hc1 Hc2]. apply Z.ltb_lt in Hc1, Hc2.
    assert (L : Z.of_nat (length x.2) = k).
    { destruct K as [K0 ->]. simpl. rewrite length_rev, length_map, length_seqZ. lia. }
    assert (Kn : k < resample_count n rate).
    { apply resample_count_spec; [lia|apply K|]. destruct K as [_ ->]. exact Hc1. }
    pose proof (resample_step_spec inp rate k x Hr K Hc1) as K'. split; [exists (k + 1); split; [lia|split; [done|lia]]|].
    destruct K' as [_ ->]. simpl. rewrite length_rev, length_map, length_seqZ. lia.
  - intros x _ Hc. apply andb_prop in Hc as [_ Hc2]. apply Z.ltb_lt in Hc2. lia.
  - simpl. lia.
  - destruct (pwhile _ _ _ _) as [[ip ph] out]. inversion K1; subst ip ph out. rewrite rev_involutive.
    replace (Z.min max (resample_count n rate)) with k; [done|].
    unfold c in C. simpl in C. rewrite length_rev, length_map, length_seqZ, Z2Nat.id in C by lia.
    apply andb_false_iff in C as [C|C]; apply Z.ltb_ge in C; [|lia].
    destruct (Z.lt_ge_cases k (resample_count n rate)) as [Q|Q]; [|lia].
    apply resample_count_spec in Q; lia.
Qed.

(** The resampler is linear interpolation at 44100 Hz: for every input and
    every rate up to 44100, output frame k is the interpolation of the input at
    position k * rate / 44100 (with the remainder as the phase), and the output
    is cut only by the caller's limit; a sector of XA audio, 2016 stereo or 4032
    mono frames at 37800 or 18900 Hz, always fits in XA_MAX_44100_FRAMES, so none
    of it is lost. *)
Theorem xa_resample_exact inp rate max :
  0 < rate <= 44100 -> 0 < max ->
  xa_resample_to_44100 inp rate max = resample_spec inp rate max /\
  (Z.of_nat (length inp) <= 4032 -> 18900 <= rate -> resample_count (Z.of_nat (length inp)) rate <= XA_MAX_44100_FRAMES).
Proof.
  intros Hr Hm. split; [by apply resample_eq|].
  intros Hl Hlow. unfold resample_count, XA_MAX_44100_FRAMES. apply Z.lt_succ_r, Z.div_lt_upper_bound; nia.
Qed.

End CdStream.
