(* ===== verification/CdromDemo.v ===== *)
(** * CD-ROM controller: a concrete disc

    A disc image as an [Iso] that obeys [IsoLaws], and the theorems on the
    controller applied to it. *)

From Stdlib Require Import Ascii String.
From S2P Require Import Prelude Bus Rings Cdrom CdromProtocol CdromSafety CdromStream.
Import Datatypes Cdrom CdProtocol CdSafety CdStream.
Import (hints) Cdrom.

Module CdDemo.

(** A disc whose sectors repeat a byte of their address; odd sectors can also be
    read raw. *)
#[export] Instance demo_iso : Iso unit := {
  iso_open _ := Some tt;
  iso_read_sector _ lba := Some (replicate 2048 (u8 lba));
  iso_read_raw_sector _ lba := if Z.odd lba then Some (replicate 2352 (u8 lba)) else None;
  iso_sector_count _ := 333000;
  iso_track_count _ := 1;
  iso_track_start_lba _ _ := 0;
}.

#[export] Instance demo_laws : IsoLaws unit.
Proof.
  assert (B : forall n lba l, Some (replicate n (u8 lba)) = Some l -> length l = n /\ Forall byte l).
  { intros n lba l [= <-]. split; [apply length_replicate|apply Forall_replicate, u8_byte]. }
  split; intros h lba l E; [exact (B _ _ _ E)|].
  unfold iso_read_raw_sector, demo_iso in E. destruct (Z.odd lba); [exact (B _ _ _ E)|done].
Defined.

Definition env : Env := mkEnv 0x80010000 0x80010004 7 1000 false.
Definition booted : State unit := cdrom_init env (Some "disc.cue"%string) power_on.

(** GetStat has been written: its acknowledgement is armed. *)
Definition answered : State unit := cdrom_write env 0x1F801801 1 booted.

Definition interrupt_exact_witness_statement : Prop :=
  cdrom_irq_present_delay (regs answered) = 5000 /\
  i_stat (cdrom_advance env 5000 answered) = 4 /\ i_stat (cdrom_advance env 4999 answered) = 0.

Lemma cdrom_interrupt_exact_witness : interrupt_exact_witness_statement.
Proof.
  split; [reflexivity|]. split.
  - exact (proj1 (cdrom_interrupt_exact env 5000 answered 0x1F801801 1 false ltac:(lia) ltac:(vm_compute; discriminate))).
  - exact (proj1 (cdrom_interrupt_exact env 4999 answered 0x1F801801 1 false ltac:(lia) ltac:(vm_compute; discriminate))).
Defined.

Lemma cdrom_cycles_to_irq_safe_witness :
  cdrom_cycles_to_irq 4 answered = 5000 /\ i_stat (cdrom_advance env 4999 answered) = 0.
Proof.
  split; [reflexivity|].
  exact (cdrom_cycles_to_irq_safe env 4 4999 answered eq_refl ltac:(lia) ltac:(vm_compute; discriminate) ltac:(vm_compute; reflexivity)).
Defined.

(** A second command while the response is not acknowledged. *)
Lemma cdrom_one_response_witness :
  response answered = (3, 1, [2; 0; 0; 0; 0; 0; 0; 0; 0; 0; 0; 0; 0; 0; 0; 0], 1) /\
  response (step env (OpWrite 0x1F801801 0x1A) answered) = response answered.
Proof.
  split; [reflexivity|].
  exact (proj1 (cdrom_one_response env (OpWrite 0x1F801801 0x1A) answered) ltac:(vm_compute; discriminate) eq_refl).
Defined.

(** A run: GetID, its two responses and their acknowledgements. *)
Definition run : list Op :=
  [OpWrite 0x1F801801 0x1A; OpAdvance 5000; OpWrite 0x1F801800 1; OpWrite 0x1F801803 0x1F; OpAdvance 30000; OpAdvance 5000].
Definition ran : State unit := fold_left (fun s op => step env op s) run booted.

Lemma ran_reachable : reachable ran.
Proof.
  unfold ran, run. cbn [fold_left].
  repeat (apply reach_step; [simpl; first [done|lia]|]). apply reach_init.
Qed.

Lemma cdrom_reachable_safe_witness : response_count (fifos ran) = 8 /\ 0 <= response_read (fifos ran) <= response_count (fifos ran).
Proof. split; [vm_compute; reflexivity|]. apply (cdrom_reachable_safe ran ran_reachable). Defined.

(** A response acknowledged inside its presentation delay: no interrupt, however
    long the machine runs on. *)
Definition hasty : State unit := step env (OpWrite 0x1F801800 1) answered.

Lemma hasty_reachable : reachable hasty.
Proof.
  assert (Hw : forall addr v, 0 <= v < 256 -> forall s, reachable s -> reachable (step env (OpWrite addr v) s)).
  { intros addr v Hv s. apply reach_step. simpl. first [done|lia]. }
  apply Hw; [lia|]. refine (Hw 0x1F801801 1 _ booted _); [lia|]. apply reach_init.
Qed.

Lemma cdrom_raises_once_witness :
  to_come (regs hasty) = 1 /\ raised (log ran) = 2 /\ raised (log ran) + to_come (regs ran) <= responses (log ran) /\
  raised (log (run_from [(env, OpAdvance 20000)] (step env (OpWrite 0x1F801803 0x1F) hasty))) <= raised (log hasty).
Proof.
  split; [reflexivity|]. split; [vm_compute; reflexivity|].
  split; [exact (proj1 (cdrom_raises_once ran [] ran_reachable))|].
  pose proof (proj2 (proj2 (cdrom_raises_once hasty [(env, OpAdvance 20000)] hasty_reachable)) env 0x1F801803 0x1F eq_refl eq_refl) as C.
  cbv zeta in C. revert C. set (s' := run_from _ _).
  assert (responses (log s') = responses (log hasty)) as -> by (vm_compute; reflexivity).
  pose proof (to_come_range (regs s')). lia.
Defined.

(** A read stream with GetID's second response ten cycles away. *)
Definition streaming_ops : list Op :=
  [OpWrite 0x1F801801 6; OpAdvance 5000; OpWrite 0x1F801800 1; OpWrite 0x1F801803 0x1F; OpWrite 0x1F801800 0;
   OpWrite 0x1F801801 0x1A; OpAdvance 5000; OpWrite 0x1F801800 1; OpWrite 0x1F801803 0x1F; OpAdvance 29990].
Definition streaming : State unit := fold_left (fun s op => step env op s) streaming_ops booted.

(** A chunk that lands on the announced distance is not the cycles one by one: the
    stream is held for the whole chunk in which a response completes, so the next
    sector comes nine cycles later. *)
Lemma cdrom_landing_delays_read :
  cdrom_cycles_to_irq 4 streaming = 10 /\
  read_delay (drive (cdrom_advance env 10 streaming)) = 873178 /\
  read_delay (drive (fold_left (fun s n => cdrom_advance env n s) (replicate 10 1) streaming)) = 873169.
Proof. by vm_compute. Qed.

Lemma cdrom_reads_disc_witness :
  Ready tt booted /\
  (guest_sectors false env [1000000; 2000000] (guest_seek env (0, 2, 16) booted)).1 =
    map (fun i => sector_words (disc_sector tt (16 + i))) (seqZ 0 2).
Proof.
  assert (R : Ready tt booted) by (split; try reflexivity; repeat split; reflexivity).
  split; [exact R|]. apply (cdrom_reads_disc false env tt (0, 2, 16) [1000000; 2000000] booted R).
  - unfold msf_ok. lia.
  - repeat constructor; lia.
Defined.

Lemma xa_resample_exact_witness :
  xa_resample_to_44100 [(100, 0); (200, 0); (-300, 40)] 18900 9408 = resample_spec [(100, 0); (200, 0); (-300, 40)] 18900 9408 /\
  resample_spec [(100, 0); (200, 0); (-300, 40)] 18900 9408 =
    [(100, 0); (142, 0); (185, 0); (58, 11); (-157, 28); (-300, 40); (-300, 40)].
Proof.
  split; [|vm_compute; reflexivity].
  exact (proj1 (xa_resample_exact [(100, 0); (200, 0); (-300, 40)] 18900 9408 ltac:(lia) ltac:(lia))).
Defined.

End CdDemo.
