(* ===== verification/Memory.v ===== *)
(** * Memory map

    src/runtime/src/memory.c: region decoding of guest addresses with the RAM
    mirrors, the three access widths, the registers of the I/O window that
    memory.c owns (memory control, RAM size, I_STAT, I_MASK, cache control), the
    pages tracked for code written at run time, the guard of the compiled text
    image and the generation counters of watched overlay pages.

    [State] is the statics of the file.  RAM and scratchpad are maps from offset
    to byte, absent bytes being the zeros memory_init writes.  The other devices
    of the I/O window, and the overlay loader, are the class [Devices]; since a
    DMA register write can run a transfer through RAM, its members act on the
    whole state.  Lockstep recording is off (g_ls_mode is 0), and hooks that only
    observe (debug server, parity and card traces) are left out.  The load
    costs of the same file are in CpuTiming.v. *)

From S2P Require Import Prelude Bus Rings.

Module Mem.

(** ** Constants *)

Definition RAM_SIZE := 2 * 1024 * 1024.
Definition SCRATCHPAD_SIZE := 1024.
Definition BIOS_ROM_SIZE := 512 * 1024.
Definition DIRTY_RAM_KERNEL_TRACK_BYTES := 0x10000.
Definition DIRTY_RAM_PAGE_SHIFT := 12.
Definition DIRTY_RAM_PAGE_COUNT := Z.shiftr RAM_SIZE DIRTY_RAM_PAGE_SHIFT.
Definition DIRTY_RAM_BITMAP_WORDS := (DIRTY_RAM_PAGE_COUNT + 31) / 32.
Definition IMASK_TRACE_CAP := 4096.
Definition D44_PHYS := 0x00079D44.
Definition D44_RING_CAP := 32.

Definition psx_phys_addr (addr : Z) : Z :=
  let phys := Z.land addr 0x1FFFFFFF in
  if phys <? 0x00800000 then Z.land phys (RAM_SIZE - 1) else phys.

(** ** State *)

(** The globals an access reads: SR behind sr_ptr, the last store's PC, the
    CPU's $a0 when the debugger knows it, the executing function, the exception
    flag, the DMA in flight, the frame count, and the two test switches of the
    environment. *)
Record Env := mkEnv {
  sr_ptr : option Z; g_debug_last_store_pc : Z; debug_cpu_a0 : option Z; g_debug_current_func_addr : Z;
  in_exception : Z; g_dma_exec_depth : Z; g_dma_cur_ch : Z; g_dma_cur_madr : Z; g_dma_cur_bcr : Z; s_frame_count : Z;
  dirty_ram_force_interp : bool; dirty_ram_shellwin_interp : bool
}.

Record ImaskTraceEntry := mkImask {
  old_mask : Z; new_mask : Z; caller : Z; store_pc : Z; width : Z; bit7_set : bool; bit7_clear : bool; in_exc : Z
}.
Record D44Entry := mkD44 {
  d44_seq : Z; d44_val : Z; d44_old : Z; d44_store_pc : Z; dma_depth : Z; dma_ch : Z; dma_madr : Z; dma_bcr : Z; d44_frame : Z
}.

#[projections(primitive)] Record Code := mkCode {
  dirty_ram_bitmap : list Z; g_dirty_ram_code_gen : Z;
  text_ref_image : option (list Z); text_ref_lo : Z; text_ref_hi : Z;
  text_modified_bitmap : list Z; text_diverged_bitmap : list Z; g_text_native_blocked : Z; g_text_diverged_pages : Z;
  overlay_watch_bitmap : list Z; overlay_page_gen : list Z
}.
#[export] Instance eta_Code : Eta Code := fun c =>
  mkCode (dirty_ram_bitmap c) (g_dirty_ram_code_gen c) (text_ref_image c) (text_ref_lo c) (text_ref_hi c)
    (text_modified_bitmap c) (text_diverged_bitmap c) (g_text_native_blocked c) (g_text_diverged_pages c)
    (overlay_watch_bitmap c) (overlay_page_gen c).

#[projections(primitive)] Record Io := mkIo {
  mem_ctrl : list Z; ram_size_reg : Z; cache_ctrl : Z; i_stat : Z; i_mask : Z;
  imask_trace : gmap Z ImaskTraceEntry; imask_trace_idx : Z; imask_trace_count : Z;
  imask_bit7_set_count : Z; imask_bit7_clear_count : Z; g_vblank_ack_count : Z;
  g_shadow_mmio_watch : Z; g_shadow_mmio_hits : Z; g_kseg2_ignored_reads : Z; g_kseg2_ignored_writes : Z;
  g_io_openbus_reads : Z; g_io_openbus_writes : Z; g_d44_ring : Rings.Ring D44Entry
}.
#[export] Instance eta_Io : Eta Io := fun i =>
  mkIo (mem_ctrl i) (ram_size_reg i) (cache_ctrl i) (i_stat i) (i_mask i) (imask_trace i) (imask_trace_idx i)
    (imask_trace_count i) (imask_bit7_set_count i) (imask_bit7_clear_count i) (g_vblank_ack_count i)
    (g_shadow_mmio_watch i) (g_shadow_mmio_hits i) (g_kseg2_ignored_reads i) (g_kseg2_ignored_writes i)
    (g_io_openbus_reads i) (g_io_openbus_writes i) (g_d44_ring i).

#[projections(primitive)] Record State (W : Type) := mkState {
  ram : gmap Z Z; scratchpad : gmap Z Z; bios_rom : list Z; s_bios_checksum : Z; code : Code; io : Io; world : W
}.
Arguments mkState {W}. Arguments ram {W} s. Arguments scratchpad {W} s. Arguments bios_rom {W} s.
Arguments s_bios_checksum {W} s. Arguments code {W} s. Arguments io {W} s. Arguments world {W} s.
#[export] Instance eta_State W : Eta (State W) := fun s =>
  mkState (ram s) (scratchpad s) (bios_rom s) (s_bios_checksum s) (code s) (io s) (world s).

(** The other end of the I/O window: sio.c, dma.c, timers.c, cdrom.c, gpu.c,
    mdec.c, spu.c, the deadline catch-up of psx_cycles.c and overlay_loader.c. *)
Class Devices (W : Type) := {
  psx_devices_mmio_sync : State W -> State W;
  sio_tick : Z -> State W -> State W;
  sio_read : Z -> State W -> Z * State W;
  sio_write : Z -> Z -> State W -> State W;
  dma_read : Z -> State W -> Z * State W;
  dma_write : Z -> Z -> State W -> State W;
  dma_write_masked : Z -> Z -> Z -> State W -> State W;
  timers_read : Z -> State W -> Z * State W;
  timers_write : Z -> Z -> State W -> State W;
  cdrom_read : Z -> State W -> Z * State W;
  cdrom_write : Z -> Z -> State W -> State W;
  gpu_read_gpuread : State W -> Z * State W;
  gpu_read_gpustat : State W -> Z * State W;
  gpu_set_gp0_source : Z -> State W -> State W;
  gpu_write_gp0 : Z -> State W -> State W;
  gpu_write_gp1 : Z -> State W -> State W;
  mdec_read : Z -> State W -> Z * State W;
  mdec_write : Z -> Z -> State W -> State W;
  spu_read : Z -> State W -> Z * State W;
  spu_write : Z -> Z -> State W -> State W;
  overlay_loader_active_write_check : Z -> Z -> W -> W;
}.

(** ** Bytes *)

Definition byte_at (m : gmap Z Z) (i : Z) : Z := default 0 (m !! i).
Definition read16 (m : gmap Z Z) (i : Z) : Z := Z.lor (byte_at m i) (Z.shiftl (byte_at m (i + 1)) 8).
Definition read32 (m : gmap Z Z) (i : Z) : Z :=
  Z.lor (Z.lor (Z.lor (byte_at m i) (Z.shiftl (byte_at m (i + 1)) 8)) (Z.shiftl (byte_at m (i + 2)) 16))
    (Z.shiftl (byte_at m (i + 3)) 24).
Definition write8 (i v : Z) (m : gmap Z Z) : gmap Z Z := <[i := u8 v]> m.
Definition write16 (i v : Z) (m : gmap Z Z) : gmap Z Z := write8 (i + 1) (Z.shiftr v 8) (write8 i v m).
Definition write32 (i v : Z) (m : gmap Z Z) : gmap Z Z :=
  write8 (i + 3) (Z.shiftr v 24) (write8 (i + 2) (Z.shiftr v 16) (write16 i v m)).

(** ROM words. *)
Definition rom16 (l : list Z) (i : Z) : Z := Z.lor (aget l i) (Z.shiftl (aget l (i + 1)) 8).
Definition rom32 (l : list Z) (i : Z) : Z :=
  Z.lor (Z.lor (Z.lor (aget l i) (Z.shiftl (aget l (i + 1)) 8)) (Z.shiftl (aget l (i + 2)) 16)) (Z.shiftl (aget l (i + 3)) 24).

(** ** Page bitmaps *)

Definition page_of (phys : Z) : Z := Z.shiftr phys DIRTY_RAM_PAGE_SHIFT.
Definition page_test (bm : list Z) (page : Z) : bool := Z.testbit (aget bm (Z.shiftr page 5)) (Z.land page 31).
Definition page_set (page : Z) (bm : list Z) : list Z :=
  aset bm (Z.shiftr page 5) (Z.lor (aget bm (Z.shiftr page 5)) (Z.shiftl 1 (Z.land page 31))).
Definition page_clear (page : Z) (bm : list Z) : list Z :=
  aset bm (Z.shiftr page 5) (Z.ldiff (aget bm (Z.shiftr page 5)) (Z.shiftl 1 (Z.land page 31))).
Definition no_pages : list Z := replicate (Z.to_nat DIRTY_RAM_BITMAP_WORDS) 0.

(** The last byte of a range, kept inside RAM. *)
Definition range_end (phys len : Z) : Z :=
  let e := u32 (phys + len - 1) in
  if (RAM_SIZE <=? e) || (e <? phys) then RAM_SIZE - 1 else e.

Section Memory.
Context {W : Type} `{D : Devices W}.
Abbreviation St := (State W).
Implicit Types s : St.

Definition on_ram (f : gmap Z Z -> gmap Z Z) (s : St) : St := s <| ram := f (ram s) |>.
Definition on_scratchpad (f : gmap Z Z -> gmap Z Z) (s : St) : St := s <| scratchpad := f (scratchpad s) |>.
Definition on_code (f : Code -> Code) (s : St) : St := s <| code := f (code s) |>.
Definition on_io (f : Io -> Io) (s : St) : St := s <| io := f (io s) |>.

(** ** Pages of code written at run time *)

Definition dirty_ram_mark_page (phys : Z) (c : Code) : Code :=
  if RAM_SIZE <=? phys then c else
  let page := page_of phys in
  let c := if page_test (dirty_ram_bitmap c) page then c else c <| g_dirty_ram_code_gen := u32 (g_dirty_ram_code_gen c + 1) |> in
  c <| dirty_ram_bitmap := page_set page (dirty_ram_bitmap c) |>.

Definition dirty_ram_mark_kernel_write (phys : Z) (c : Code) : Code :=
  if DIRTY_RAM_KERNEL_TRACK_BYTES <=? phys then c else dirty_ram_mark_page phys c.

Definition dirty_ram_clear_image_baseline (g_overlay_region_floor : Z) (c : Code) : Code :=
  let floor := g_overlay_region_floor in
  if floor <=? DIRTY_RAM_KERNEL_TRACK_BYTES then c else
  let floor := if RAM_SIZE <? floor then RAM_SIZE else floor in
  c <| dirty_ram_bitmap :=
    forZ (page_of DIRTY_RAM_KERNEL_TRACK_BYTES) (page_of (floor - 1) + 1) page_clear (dirty_ram_bitmap c) |>.

Definition dirty_ram_mark_executable_range (phys len : Z) (c : Code) : Code :=
  if (len =? 0) || (RAM_SIZE <=? phys) then c else
  c <| dirty_ram_bitmap := forZ (page_of phys) (page_of (range_end phys len) + 1) page_set (dirty_ram_bitmap c) |>
    <| g_dirty_ram_code_gen := u32 (g_dirty_ram_code_gen c + 1) |>.

Definition dirty_ram_is_dirty (e : Env) (phys : Z) (c : Code) : bool :=
  if RAM_SIZE <=? phys then false
  else if dirty_ram_force_interp e && (DIRTY_RAM_KERNEL_TRACK_BYTES <=? phys) then true
  else if dirty_ram_shellwin_interp e && (0x00030000 <=? phys) && (phys <=? 0x0005AFFF) then true
  else page_test (dirty_ram_bitmap c) (page_of phys).

Definition dirty_ram_get_bitmap_word (word_index : Z) (c : Code) : Z :=
  if DIRTY_RAM_BITMAP_WORDS <=? word_index then 0 else aget (dirty_ram_bitmap c) word_index.
Definition dirty_ram_set_bitmap_words (words : list Z) (count : Z) (c : Code) : Code :=
  let count := if DIRTY_RAM_BITMAP_WORDS <? count then DIRTY_RAM_BITMAP_WORDS else count in
  c <| dirty_ram_bitmap := forZ 0 count (fun i bm => aset bm i (aget words i)) (dirty_ram_bitmap c) |>.

(** ** The compiled text image *)

Definition dirty_ram_register_text_image (phys_lo : Z) (bytes : option (list Z)) (len : Z) (c : Code) : Code :=
  match bytes with
  | None => c
  | Some l =>
      if (len =? 0) || (RAM_SIZE <=? phys_lo) then c else
      let len := if RAM_SIZE - phys_lo <? len then RAM_SIZE - phys_lo else len in
      c <| text_ref_image := Some l |> <| text_ref_lo := phys_lo |> <| text_ref_hi := phys_lo + len |>
        <| text_modified_bitmap := no_pages |> <| text_diverged_bitmap := no_pages |>
        <| g_text_native_blocked := 0 |> <| g_text_diverged_pages := 0 |>
  end.

(** The [size] bytes of a store, least significant first. *)
Definition store_bytes (val size : Z) : list Z :=
  take (Z.to_nat size) [u8 val; u8 (Z.shiftr val 8); u8 (Z.shiftr val 16); u8 (Z.shiftr val 24)].

Definition text_guard_note_write (phys val size : Z) (c : Code) : Code :=
  match text_ref_image c with
  | None => c
  | Some image =>
      if (phys <? text_ref_lo c) || (text_ref_hi c <? phys + size) then c else
      if bool_decide (take (Z.to_nat size) (drop (Z.to_nat (phys - text_ref_lo c)) image) = store_bytes val size) then c
      else c <| text_modified_bitmap := page_set (page_of phys) (text_modified_bitmap c) |>
  end.

(** memcmp of [n] bytes of RAM with the image. *)
Definition ram_matches (m : gmap Z Z) (phys : Z) (image : list Z) (off n : Z) : bool :=
  forallb (fun i => byte_at m (phys + i) =? aget image (off + i)) (seqZ 0 n).

Definition dirty_ram_text_native_ok (e : Env) (phys : Z) (m : gmap Z Z) (c : Code) : bool * Code :=
  match text_ref_image c with
  | None => (negb (dirty_ram_is_dirty e phys c), c)
  | Some image =>
      if (phys <? text_ref_lo c) || (text_ref_hi c <=? phys) then (negb (dirty_ram_is_dirty e phys c), c) else
      let page := page_of phys in
      if page_test (text_diverged_bitmap c) page
      then (false, c <| g_text_native_blocked := u64 (g_text_native_blocked c + 1) |>)
      else if negb (page_test (text_modified_bitmap c) page) && negb (dirty_ram_is_dirty e phys c) then (true, c)
      else
        let n := if text_ref_hi c - phys <? 256 then text_ref_hi c - phys else 256 in
        if ram_matches m phys image (phys - text_ref_lo c) n then (true, c)
        else (false, c <| text_diverged_bitmap := page_set page (text_diverged_bitmap c) |>
                       <| g_text_diverged_pages := u32 (g_text_diverged_pages c + 1) |>
                       <| g_text_native_blocked := u64 (g_text_native_blocked c + 1) |>)
  end.

Definition dirty_ram_text_bless (phys : Z) (bytes : option (list Z)) (len : Z) (c : Code) : Code :=
  match text_ref_image c, bytes with
  | Some image, Some l =>
      if len =? 0 then c else
      let e := u32 (phys + len) in
      if (text_ref_hi c <=? phys) || (e <=? text_ref_lo c) then c else
      let lo := if phys <? text_ref_lo c then text_ref_lo c else phys in
      let hi := if text_ref_hi c <? e then text_ref_hi c else e in
      if hi <=? lo then c else
      let off := Z.to_nat (lo - text_ref_lo c) in
      let n := Z.to_nat (hi - lo) in
      let src := take n (drop (Z.to_nat (lo - phys)) l) in
      if bool_decide (take n (drop off image) = src) then c else
      c <| text_ref_image := Some (take off image ++ src ++ drop (off + n) image) |>
        <| text_diverged_bitmap := forZ (page_of lo) (page_of (hi - 1) + 1) page_clear (text_diverged_bitmap c) |>
  | _, _ => c
  end.

(** ** Watched overlay pages *)

Definition overlay_watch_set_range (phys len : Z) (c : Code) : Code :=
  if (len =? 0) || (RAM_SIZE <=? phys) then c else
  c <| overlay_watch_bitmap := forZ (page_of phys) (page_of (range_end phys len) + 1) page_set (overlay_watch_bitmap c) |>.

Definition overlay_watch_clear_range (phys len : Z) (c : Code) : Code :=
  if (len =? 0) || (RAM_SIZE <=? phys) then c else
  c <| overlay_watch_bitmap := forZ (page_of phys) (page_of (range_end phys len) + 1) page_clear (overlay_watch_bitmap c) |>.

Definition overlay_watch_pagegen_sum (phys len : Z) (c : Code) : Z :=
  if (len =? 0) || (RAM_SIZE <=? phys) then 0 else
  forZ (page_of phys) (page_of (range_end phys len) + 1) (fun pg sum => u32 (sum + aget (overlay_page_gen c) pg)) 0.

Definition bump_gen (pg : Z) (l : list Z) : list Z := aset l pg (u32 (aget l pg + 1)).
Definition overlay_watch_bump_all (c : Code) : Code :=
  c <| overlay_page_gen := forZ 0 DIRTY_RAM_PAGE_COUNT bump_gen (overlay_page_gen c) |>.

Definition overlay_watch_note_write (phys size : Z) (s : St) : St :=
  let pg := page_of phys in
  if DIRTY_RAM_PAGE_COUNT <=? pg then s else
  if page_test (overlay_watch_bitmap (code s)) pg then
    let s := on_code (fun c => c <| overlay_page_gen := bump_gen pg (overlay_page_gen c) |>) s in
    s <| world := overlay_loader_active_write_check phys size (world s) |>
  else s.

(** ** Interrupt registers *)

Definition imask_trace_record (e : Env) (old_val new_val width : Z) (i : Io) : Io :=
  let set := negb (has old_val 0x80) && has new_val 0x80 in
  let clear := has old_val 0x80 && negb (has new_val 0x80) in
  let entry := mkImask old_val new_val (g_debug_current_func_addr e) (g_debug_last_store_pc e) width set clear (u8 (in_exception e)) in
  let i := i <| imask_trace := <[imask_trace_idx i := entry]> (imask_trace i) |> in
  let i := if set then i <| imask_bit7_set_count := s32 (imask_bit7_set_count i + 1) |> else i in
  let i := if clear then i <| imask_bit7_clear_count := s32 (imask_bit7_clear_count i + 1) |> else i in
  i <| imask_trace_idx := Z.rem (imask_trace_idx i + 1) IMASK_TRACE_CAP |> <| imask_trace_count := s32 (imask_trace_count i + 1) |>.

Definition interrupt_write_stat_masked (val mask : Z) : St -> St := on_io (fun i =>
  let ack_mask := Z.land mask 0x7FF in
  let before := i_stat i in
  let i := i <| i_stat := Z.lor (Z.ldiff before ack_mask) (Z.land (Z.land before val) ack_mask) |> in
  if has before 1 && negb (has (i_stat i) 1) then i <| g_vblank_ack_count := u64 (g_vblank_ack_count i + 1) |> else i).

Definition interrupt_write_mask_masked (e : Env) (val mask width : Z) : St -> St := on_io (fun i =>
  let old := i_mask i in
  let i := i <| i_mask := Z.land (Z.lor (Z.ldiff old mask) (Z.land val mask)) 0x7FF |> in
  imask_trace_record e old (i_mask i) width i).

(** ** The I/O window *)

Definition SHADOW_NOTE_MMIO : St -> St := on_io (fun i => i <| g_shadow_mmio_hits := u64 (g_shadow_mmio_hits i + g_shadow_mmio_watch i) |>).
Definition openbus_read (s : St) : Z * St := (0, on_io (fun i => i <| g_io_openbus_reads := u64 (g_io_openbus_reads i + 1) |>) s).
Definition openbus_write : St -> St := on_io (fun i => i <| g_io_openbus_writes := u64 (g_io_openbus_writes i + 1) |>).
Definition between (lo hi x : Z) : bool := (lo <=? x) && (x <=? hi).
Definition reg_index (addr : Z) : Z := Z.shiftr (addr - 0x1F801000) 2.

(** A lane of a 32-bit register, and the register with the lane replaced. *)
Definition lane (shift v : Z) : Z := Z.shiftr v shift.
Definition set_lane (shift ones val v : Z) : Z := Z.lor (Z.ldiff v (u32 (Z.shiftl ones shift))) (Z.shiftl val shift).
Definition set_mem_ctrl (shift ones val addr : Z) : St -> St := on_io (fun i =>
  i <| mem_ctrl := aset (mem_ctrl i) (reg_index addr) (set_lane shift ones val (aget (mem_ctrl i) (reg_index addr))) |>).
Definition set_ram_size (shift ones val : Z) : St -> St := on_io (fun i => i <| ram_size_reg := set_lane shift ones val (ram_size_reg i) |>).

Definition map_fst (f : Z -> Z) (x : Z * St) : Z * St := (f x.1, x.2).

Definition mmio_read32_impl (addr : Z) (s : St) : Z * St :=
  let s := SHADOW_NOTE_MMIO s in
  if between 0x1F801000 0x1F80103C addr then (aget (mem_ctrl (io s)) (reg_index addr), s)
  else if between 0x1F801040 0x1F80105F addr then sio_read addr s
  else if addr =? 0x1F801060 then (ram_size_reg (io s), s)
  else if addr =? 0x1F801070 then let s := sio_tick 0 s in (i_stat (io s), s)
  else if addr =? 0x1F801074 then (i_mask (io s), s)
  else if between 0x1F801080 0x1F8010FF addr then dma_read addr s
  else if between 0x1F801100 0x1F80112F addr then timers_read addr s
  else if between 0x1F801800 0x1F801803 addr then cdrom_read addr s
  else if addr =? 0x1F801810 then gpu_read_gpuread s
  else if addr =? 0x1F801814 then gpu_read_gpustat s
  else if (addr =? 0x1F801820) || (addr =? 0x1F801824) then mdec_read addr s
  else if between 0x1F801C00 0x1F801FFF addr then spu_read addr s
  else if between 0x1F802000 0x1F802FFF addr then (0, s)
  else openbus_read s.
Definition mmio_read32 (addr : Z) (s : St) : Z * St := mmio_read32_impl addr (psx_devices_mmio_sync s).

Definition mmio_write32 (e : Env) (addr val : Z) (s : St) : St :=
  let s := SHADOW_NOTE_MMIO (psx_devices_mmio_sync s) in
  if between 0x1F801000 0x1F80103C addr
  then on_io (fun i => i <| mem_ctrl := aset (mem_ctrl i) (reg_index addr) val |>) s
  else if between 0x1F801040 0x1F80105F addr then sio_write addr val s
  else if addr =? 0x1F801060 then on_io (fun i => i <| ram_size_reg := val |>) s
  else if addr =? 0x1F801070 then interrupt_write_stat_masked val 0xFFFFFFFF s
  else if addr =? 0x1F801074 then interrupt_write_mask_masked e val 0xFFFFFFFF 32 s
  else if between 0x1F801080 0x1F8010FF addr then dma_write addr val s
  else if between 0x1F801100 0x1F80112F addr then timers_write addr val s
  else if between 0x1F801800 0x1F801803 addr then cdrom_write addr val s
  else if addr =? 0x1F801810 then
    let src := match debug_cpu_a0 e with
               | Some a0 => if g_debug_last_store_pc e =? 0xBFC38B1C then Z.land (u32 (a0 - 4)) 0x1FFFFC else addr
               | None => addr
               end in
    gpu_write_gp0 val (gpu_set_gp0_source src s)
  else if addr =? 0x1F801814 then gpu_write_gp1 val s
  else if (addr =? 0x1F801820) || (addr =? 0x1F801824) then mdec_write addr val s
  else if between 0x1F801C00 0x1F801FFF addr then spu_write addr val s
  else if between 0x1F802000 0x1F802FFF addr then s
  else openbus_write s.

Definition mmio_read16_impl (addr : Z) (s : St) : Z * St :=
  let s := SHADOW_NOTE_MMIO s in
  let shift16 := if has addr 2 then 16 else 0 in
  if between 0x1F801000 0x1F80103F addr then (u16 (lane (8 * Z.land addr 2) (aget (mem_ctrl (io s)) (reg_index addr))), s)
  else if between 0x1F801060 0x1F801063 addr then (u16 (lane (8 * Z.land addr 2) (ram_size_reg (io s))), s)
  else if between 0x1F801040 0x1F80105F addr then map_fst u16 (sio_read addr s)
  else if between 0x1F801070 0x1F801072 addr then let s := sio_tick 0 s in (u16 (lane shift16 (i_stat (io s))), s)
  else if between 0x1F801074 0x1F801076 addr then (u16 (lane shift16 (i_mask (io s))), s)
  else if between 0x1F801100 0x1F80112F addr then map_fst u16 (timers_read addr s)
  else if between 0x1F801080 0x1F8010FF addr then map_fst (fun v => u16 (lane shift16 v)) (dma_read (Z.ldiff addr 3) s)
  else if between 0x1F801820 0x1F801827 addr then map_fst (fun v => u16 (lane shift16 v)) (mdec_read (Z.ldiff addr 3) s)
  else if between 0x1F801C00 0x1F801FFF addr then map_fst u16 (spu_read addr s)
  else openbus_read s.
Definition mmio_read16 (addr : Z) (s : St) : Z * St := mmio_read16_impl addr (psx_devices_mmio_sync s).

Definition mmio_write16 (e : Env) (addr val : Z) (s : St) : St :=
  let s := SHADOW_NOTE_MMIO (psx_devices_mmio_sync s) in
  let shift16 := if has addr 2 then 16 else 0 in
  let mask16 := u32 (Z.shiftl 0xFFFF shift16) in
  if between 0x1F801000 0x1F80103F addr then set_mem_ctrl (8 * Z.land addr 2) 0xFFFF val addr s
  else if between 0x1F801060 0x1F801063 addr then set_ram_size (8 * Z.land addr 2) 0xFFFF val s
  else if between 0x1F801040 0x1F80105F addr then sio_write addr val s
  else if between 0x1F801070 0x1F801072 addr then interrupt_write_stat_masked (Z.shiftl val shift16) mask16 s
  else if between 0x1F801074 0x1F801076 addr then interrupt_write_mask_masked e (Z.shiftl val shift16) mask16 16 s
  else if between 0x1F801100 0x1F80112F addr then timers_write addr val s
  else if between 0x1F801080 0x1F8010FF addr then dma_write_masked (Z.ldiff addr 3) (Z.shiftl val shift16) mask16 s
  else if between 0x1F801820 0x1F801827 addr then
    let aligned := Z.ldiff addr 3 in
    let '(cur, s) := mdec_read aligned s in
    let cur := if has addr 2 then Z.lor (Z.land cur 0x0000FFFF) (Z.shiftl val 16) else Z.lor (Z.land cur 0xFFFF0000) val in
    mdec_write aligned cur s
  else if between 0x1F801C00 0x1F801FFF addr then spu_write addr val s
  else openbus_write s.

Definition mmio_read8_impl (addr : Z) (s : St) : Z * St :=
  let s := SHADOW_NOTE_MMIO s in
  let shift := 8 * Z.land addr 3 in
  if between 0x1F801000 0x1F80103F addr then (u8 (lane shift (aget (mem_ctrl (io s)) (reg_index addr))), s)
  else if between 0x1F801060 0x1F801063 addr then (u8 (lane shift (ram_size_reg (io s))), s)
  else if between 0x1F801070 0x1F801077 addr then
    let s := if addr <? 0x1F801074 then sio_tick 0 s else s in
    (u8 (lane shift (if addr <? 0x1F801074 then i_stat (io s) else i_mask (io s))), s)
  else if between 0x1F801040 0x1F80104F addr then map_fst u8 (sio_read (Z.ldiff addr 3) s)
  else if between 0x1F801080 0x1F8010FF addr then map_fst (fun v => u8 (lane shift v)) (dma_read (Z.ldiff addr 3) s)
  else if between 0x1F801820 0x1F801827 addr then map_fst (fun v => u8 (lane shift v)) (mdec_read (Z.ldiff addr 3) s)
  else if between 0x1F801800 0x1F801803 addr then map_fst u8 (cdrom_read addr s)
  else if between 0x1F802000 0x1F802FFF addr then (0, s)
  else openbus_read s.
Definition mmio_read8 (addr : Z) (s : St) : Z * St := mmio_read8_impl addr (psx_devices_mmio_sync s).

Definition mmio_write8 (e : Env) (addr val : Z) (s : St) : St :=
  let s := SHADOW_NOTE_MMIO (psx_devices_mmio_sync s) in
  let shift := 8 * Z.land addr 3 in
  let mask := u32 (Z.shiftl 0xFF shift) in
  if between 0x1F801000 0x1F80103F addr then set_mem_ctrl shift 0xFF val addr s
  else if between 0x1F801060 0x1F801063 addr then set_ram_size shift 0xFF val s
  else if between 0x1F801070 0x1F801073 addr then interrupt_write_stat_masked (Z.shiftl val shift) mask s
  else if between 0x1F801074 0x1F801077 addr then interrupt_write_mask_masked e (Z.shiftl val shift) mask 8 s
  else if between 0x1F801040 0x1F80105F addr then sio_write (Z.ldiff addr 3) val s
  else if between 0x1F801080 0x1F8010FF addr then dma_write_masked (Z.ldiff addr 3) (Z.shiftl val shift) mask s
  else if between 0x1F801100 0x1F80112F addr then
    let aligned := Z.ldiff addr 3 in
    let '(cur, s) := timers_read aligned s in
    timers_write aligned (set_lane shift 0xFF val cur) s
  else if between 0x1F801820 0x1F801827 addr then
    let aligned := Z.ldiff addr 3 in
    let '(cur, s) := mdec_read aligned s in
    mdec_write aligned (set_lane shift 0xFF val cur) s
  else if between 0x1F801800 0x1F801803 addr then cdrom_write addr val s
  else if between 0x1F802000 0x1F802FFF addr then s
  else openbus_write s.

(** ** Guest accesses *)

Definition kseg2_read (s : St) : Z * St := (0, on_io (fun i => i <| g_kseg2_ignored_reads := u64 (g_kseg2_ignored_reads i + 1) |>) s).
Definition kseg2_write : St -> St := on_io (fun i => i <| g_kseg2_ignored_writes := u64 (g_kseg2_ignored_writes i + 1) |>).
Definition isolated (e : Env) : bool := match sr_ptr e with Some sr => has sr 0x10000 | None => false end.

Definition d44_note (e : Env) (phys old val : Z) : St -> St := on_io (fun i =>
  if negb (phys =? D44_PHYS) then i else
  i <| g_d44_ring := Rings.ring_push D44_RING_CAP
         (mkD44 (Rings.seq (g_d44_ring i)) val old (g_debug_last_store_pc e) (g_dma_exec_depth e) (g_dma_cur_ch e)
            (g_dma_cur_madr e) (g_dma_cur_bcr e) (u32 (s_frame_count e))) (g_d44_ring i) |>).

(** What a store into RAM does besides writing the bytes. *)
Definition note_ram_write (phys val size : Z) (s : St) : St :=
  let s := on_code (dirty_ram_mark_kernel_write phys) s in
  let s := on_code (text_guard_note_write phys val size) s in
  overlay_watch_note_write phys size s.

Definition psx_read_word (addr : Z) (s : St) : Z * St :=
  if addr =? 0xFFFE0130 then (cache_ctrl (io s), s) else
  if 0xC0000000 <=? addr then kseg2_read s else
  let phys := psx_phys_addr addr in
  if phys <? RAM_SIZE then (read32 (ram s) phys, s)
  else if between 0x1F000000 0x1F7FFFFF phys then (0xFFFFFFFF, s)
  else if between 0x1F800000 0x1F8003FF phys then (read32 (scratchpad s) (phys - 0x1F800000), s)
  else if between 0x1F801000 0x1F803FFF phys then mmio_read32 phys s
  else if between 0x1FC00000 0x1FC7FFFF phys then (rom32 (bios_rom s) (phys - 0x1FC00000), s)
  else (0, s).

Definition psx_write_word (e : Env) (addr val : Z) (s : St) : St :=
  if addr =? 0xFFFE0130 then on_io (fun i => i <| cache_ctrl := val |>) s else
  if 0xC0000000 <=? addr then kseg2_write s else
  if isolated e then s else
  let phys := psx_phys_addr addr in
  if phys <? RAM_SIZE then
    let s := if phys =? D44_PHYS then d44_note e phys (read32 (ram s) phys) val s else s in
    on_ram (write32 phys val) (note_ram_write phys val 4 s)
  else if between 0x1F000000 0x1F7FFFFF phys then s
  else if between 0x1F800000 0x1F8003FF phys then on_scratchpad (write32 (phys - 0x1F800000) val) s
  else if between 0x1F801000 0x1F803FFF phys then mmio_write32 e phys val s
  else s.

Definition psx_read_half (addr : Z) (s : St) : Z * St :=
  if 0xC0000000 <=? addr then kseg2_read s else
  let phys := psx_phys_addr addr in
  if phys <? RAM_SIZE then (read16 (ram s) phys, s)
  else if between 0x1F000000 0x1F7FFFFF phys then (0xFFFF, s)
  else if between 0x1F800000 0x1F8003FF phys then (read16 (scratchpad s) (phys - 0x1F800000), s)
  else if between 0x1F801000 0x1F803FFF phys then mmio_read16 phys s
  else if between 0x1FC00000 0x1FC7FFFF phys then (rom16 (bios_rom s) (phys - 0x1FC00000), s)
  else (0, s).

Definition psx_write_half (e : Env) (addr val : Z) (s : St) : St :=
  if isolated e then s else
  if 0xC0000000 <=? addr then kseg2_write s else
  let phys := psx_phys_addr addr in
  if phys <? RAM_SIZE then on_ram (write16 phys val) (note_ram_write phys val 2 s)
  else if between 0x1F000000 0x1F7FFFFF phys then s
  else if between 0x1F800000 0x1F8003FF phys then on_scratchpad (write16 (phys - 0x1F800000) val) s
  else if between 0x1F801000 0x1F803FFF phys then mmio_write16 e phys val s
  else s.

Definition psx_read_byte (addr : Z) (s : St) : Z * St :=
  if 0xC0000000 <=? addr then kseg2_read s else
  let phys := psx_phys_addr addr in
  if phys <? RAM_SIZE then (byte_at (ram s) phys, s)
  else if between 0x1F000000 0x1F7FFFFF phys then (0xFF, s)
  else if between 0x1F800000 0x1F8003FF phys then (byte_at (scratchpad s) (phys - 0x1F800000), s)
  else if between 0x1F801000 0x1F803FFF phys then mmio_read8 phys s
  else if between 0x1FC00000 0x1FC7FFFF phys then (aget (bios_rom s) (phys - 0x1FC00000), s)
  else (0, s).

Definition psx_write_byte (e : Env) (addr val : Z) (s : St) : St :=
  if isolated e then s else
  if 0xC0000000 <=? addr then kseg2_write s else
  let phys := psx_phys_addr addr in
  if phys <? RAM_SIZE then on_ram (write8 phys val) (note_ram_write phys val 1 s)
  else if between 0x1F000000 0x1F7FFFFF phys then s
  else if between 0x1F800000 0x1F8003FF phys then on_scratchpad (write8 (phys - 0x1F800000) val) s
  else if between 0x1F801000 0x1F803FFF phys then mmio_write8 e phys val s
  else s.

(** ** Start *)

(** [file]: the bytes of the BIOS file, [None] when it cannot be opened.  The
    result is [None] where the runtime exits. *)
Definition memory_init (file : option (list Z)) (s : St) : option St :=
  let s := on_scratchpad (fun _ => ∅) (on_ram (fun _ => ∅) s) in
  match file with
  | None => None
  | Some bytes =>
      let rom := take (Z.to_nat BIOS_ROM_SIZE) bytes in
      if negb (Z.of_nat (length rom) =? BIOS_ROM_SIZE) then None else
      let s := s <| bios_rom := rom |> in
      Some (s <| s_bios_checksum := forZ 0 (BIOS_ROM_SIZE / 4) (fun i sum => u32 (sum + rom32 rom (4 * i))) 0 |>)
  end.

End Memory.

End Mem.
