(* ===== verification/MemoryLaws.v ===== *)
(** * Memory map: what the accesses promise

    The three access widths against a byte memory addressed physically
    ([memory_refines_flat]), the lanes of the interrupt registers
    ([interrupt_lanes_exact]), the guard that keeps compiled text from running
    over changed code ([text_guard_sound]) and the page generations that tell
    the overlay loader its pages were written ([pagegen_counts_stores]). *)

From S2P Require Import Prelude Bus Rings Memory.
Import Mem.

Module MemLaws.

(** ** Accesses by width *)

Inductive Width := Byte | Half | Word.
#[export] Instance eq_dec_Width : EqDecision Width.
Proof. solve_decision. Defined.
Definition bytes_of (w : Width) : Z := match w with Byte => 1 | Half => 2 | Word => 4 end.

Lemma bytes_of_range w : 1 <= bytes_of w <= 4.
Proof. destruct w; simpl; lia. Qed.

(** A guest access, with the environment it happens in. *)
Inductive Access := Load (w : Width) (addr : Z) | Store (e : Env) (w : Width) (addr val : Z).

Section Run.
Context {W : Type} `{D : Devices W}.

Definition load (w : Width) : Z -> State W -> Z * State W :=
  match w with Byte => psx_read_byte | Half => psx_read_half | Word => psx_read_word end.
Definition store (w : Width) : Env -> Z -> Z -> State W -> State W :=
  match w with Byte => psx_write_byte | Half => psx_write_half | Word => psx_write_word end.

(** A program of accesses: the values loaded, in order, and the final state. *)
Fixpoint run (l : list Access) (s : State W) : list Z * State W :=
  match l with
  | [] => ([], s)
  | Load w a :: l => let '(v, s) := load w a s in let '(vs, s) := run l s in (v :: vs, s)
  | Store e w a v :: l => run l (store w e a v s)
  end.
End Run.

(** ** The specification: bytes at physical addresses *)

(** Where an address leads: storage at a physical address, fixed read values,
    nothing, or the devices. *)
Inductive Region := Storage (p : Z) | Rom (off : Z) | Ones | Nothing | Registers.

Definition region (addr : Z) : Region :=
  let p := addr mod 0x20000000 in
  if 0xC0000000 <=? addr then (if addr =? 0xFFFE0130 then Registers else Nothing)
  else if p <? 0x800000 then Storage (p mod 0x200000)
  else if between 0x1F000000 0x1F7FFFFF p then Ones
  else if between 0x1F800000 0x1F8003FF p then Storage p
  else if between 0x1F801000 0x1F803FFF p then Registers
  else if between 0x1FC00000 0x1FC7FFFF p then Rom (p - 0x1FC00000)
  else Nothing.

(** Little-endian numbers. *)
Fixpoint le_combine (l : list Z) : Z := match l with [] => 0 | b :: l => b + 256 * le_combine l end.
Definition byte_of (v i : Z) : Z := (v / 256 ^ i) mod 256.

Definition flat_load (rom : list Z) (w : Width) (addr : Z) (m : gmap Z Z) : Z :=
  let n := bytes_of w in
  match region addr with
  | Storage p => le_combine (map (fun i => byte_at m (p + i)) (seqZ 0 n))
  | Rom off => le_combine (map (fun i => aget rom (off + i)) (seqZ 0 n))
  | Ones => 256 ^ n - 1
  | Nothing | Registers => 0
  end.
Definition flat_store (e : Env) (w : Width) (addr v : Z) (m : gmap Z Z) : gmap Z Z :=
  match region addr with
  | Storage p => if isolated e then m else fold_left (fun m i => <[p + i := byte_of v i]> m) (seqZ 0 (bytes_of w)) m
  | _ => m
  end.
Fixpoint flat_run (rom : list Z) (l : list Access) (m : gmap Z Z) : list Z * gmap Z Z :=
  match l with
  | [] => ([], m)
  | Load w a :: l => let '(vs, m') := flat_run rom l m in (flat_load rom w a m :: vs, m')
  | Store e w a v :: l => flat_run rom l (flat_store e w a v m)
  end.

(** An access the CPU makes outside the device registers. *)
Definition plain (w : Width) (addr : Z) : Prop :=
  0 <= addr < 0x100000000 /\ addr mod bytes_of w = 0 /\ region addr <> Registers.
Definition access_ok (x : Access) : Prop :=
  match x with Load w a => plain w a | Store _ w a _ => plain w a end.

(** ** Bytes *)

Definition bytes_ok (m : gmap Z Z) : Prop := forall i, 0 <= byte_at m i < 256.

Lemma byte_at_insert m i j v : byte_at (<[i := v]> m) j = if j =? i then v else byte_at m j.
Proof.
  unfold byte_at. destruct (Z.eqb_spec j i) as [->|].
  - by rewrite lookup_insert_eq.
  - by rewrite lookup_insert_ne by done.
Qed.

Lemma lor_shift k a b : 0 <= k -> 0 <= a < 2 ^ k -> Z.lor a (Z.shiftl b k) = a + b * 2 ^ k.
Proof. intros. rewrite Z.lor_comm, Z.shiftl_mul_pow2, lor_add by done. lia. Qed.

Lemma read16_le m i : bytes_ok m -> read16 m i = le_combine (map (fun k => byte_at m (i + k)) (seqZ 0 2)).
Proof.
  intros H. unfold read16. rewrite lor_shift by (try lia; apply H).
  change (seqZ 0 2) with [0; 1]. simpl. rewrite Z.add_0_r. lia.
Qed.

Lemma lor_bytes a b c d :
  0 <= a < 256 -> 0 <= b < 256 -> 0 <= c < 256 ->
  Z.lor (Z.lor (Z.lor a (Z.shiftl b 8)) (Z.shiftl c 16)) (Z.shiftl d 24) = a + 256 * (b + 256 * (c + 256 * d)).
Proof.
  intros. rewrite (lor_shift 8 a) by lia. rewrite (lor_shift 16 (a + b * 2 ^ 8)) by lia.
  rewrite (lor_shift 24 (a + b * 2 ^ 8 + c * 2 ^ 16)) by lia. lia.
Qed.

Lemma read32_le m i : bytes_ok m -> read32 m i = le_combine (map (fun k => byte_at m (i + k)) (seqZ 0 4)).
Proof. intros H. unfold read32. rewrite lor_bytes by apply H.
  change (seqZ 0 4) with [0; 1; 2; 3]. simpl. rewrite !Z.add_0_r. lia. Qed.

Lemma rom16_le l i : Forall (fun b => 0 <= b < 256) l -> rom16 l i = le_combine (map (fun k => aget l (i + k)) (seqZ 0 2)).
Proof.
  intros H. unfold rom16. rewrite lor_shift by first [lia|by apply (aget_Forall (fun b => 0 <= b < 256))].
  change (seqZ 0 2) with [0; 1]. simpl. rewrite Z.add_0_r. lia.
Qed.

Lemma rom32_le l i : Forall (fun b => 0 <= b < 256) l -> rom32 l i = le_combine (map (fun k => aget l (i + k)) (seqZ 0 4)).
Proof.
  intros H. unfold rom32. rewrite lor_bytes by (by apply (aget_Forall (fun b => 0 <= b < 256))).
  change (seqZ 0 4) with [0; 1; 2; 3]. simpl. rewrite !Z.add_0_r. lia.
Qed.

(** A store seen by a byte read. *)
Definition write_bytes (w : Width) : Z -> Z -> gmap Z Z -> gmap Z Z :=
  match w with Byte => write8 | Half => write16 | Word => write32 end.

Lemma byte_of_shift v i : 0 <= i -> u8 (Z.shiftr v (8 * i)) = byte_of v i.
Proof. intros. unfold u8, byte_of. rewrite Z.shiftr_div_pow2 by lia. f_equal. by rewrite Z.pow_mul_r by lia. Qed.

Lemma write_bytes_at w p v m j :
  byte_at (write_bytes w p v m) j = if (p <=? j) && (j <? p + bytes_of w) then byte_of v (j - p) else byte_at m j.
Proof.
  assert (u8 v = byte_of v 0) as H0 by (unfold byte_of; by rewrite Z.div_1_r).
  pose proof (byte_of_shift v 1 ltac:(lia)) as H1. pose proof (byte_of_shift v 2 ltac:(lia)) as H2.
  pose proof (byte_of_shift v 3 ltac:(lia)) as H3. change (8 * 1) with 8 in H1. change (8 * 2) with 16 in H2. change (8 * 3) with 24 in H3.
  destruct w; simpl; unfold write32, write16, write8; rewrite ?H0, ?H1, ?H2, ?H3, !byte_at_insert;
    btest; simpl; try lia; try done; f_equal; lia.
Qed.

Lemma flat_bytes_at v p n m j :
  0 <= n -> byte_at (fold_left (fun m i => <[p + i := byte_of v i]> m) (seqZ 0 n) m) j =
            if (p <=? j) && (j <? p + n) then byte_of v (j - p) else byte_at m j.
Proof.
  intros Hn. pose proof (forZ_ind (fun k x => byte_at x j = if (p <=? j) && (j <? p + k) then byte_of v (j - p) else byte_at m j)
    0 n (fun i m => <[p + i := byte_of v i]> m) m Hn) as H.
  unfold forZ in H. rewrite Z.sub_0_r in H. apply H.
  - btest; simpl; try done; lia.
  - intros i x Hi Hx. rewrite byte_at_insert, Hx. btest; simpl; try lia; try done. f_equal. lia.
Qed.

Lemma byte_of_range v i : 0 <= byte_of v i < 256.
Proof. unfold byte_of. dlia. Qed.

Lemma write_bytes_ok w p v m : bytes_ok m -> bytes_ok (write_bytes w p v m).
Proof. intros H j. rewrite write_bytes_at. case_if; [apply byte_of_range|apply H]. Qed.

(** ** Translation *)

Lemma psx_phys_addr_spec a :
  psx_phys_addr a = (let p := a mod 0x20000000 in if p <? 0x800000 then p mod 0x200000 else p).
Proof.
  unfold psx_phys_addr. change 0x1FFFFFFF with (Z.ones 29). rewrite Z.land_ones by lia.
  change (RAM_SIZE - 1) with (Z.ones 21). rewrite Z.land_ones by lia. done.
Qed.

(** What the accesses test, region by region. *)
Definition unmapped (p : Z) : Prop :=
  RAM_SIZE <= p < 0x1F000000 \/ 0x1F800400 <= p < 0x1F801000 \/ 0x1F804000 <= p < 0x1FC00000 \/ 0x1FC80000 <= p.

Lemma region_cases a :
  0 <= a ->
  match region a with
  | Storage p => a < 0xC0000000 /\ psx_phys_addr a = p /\ (0 <= p < RAM_SIZE \/ 0x1F800000 <= p <= 0x1F8003FF)
  | Rom off => a < 0xC0000000 /\ psx_phys_addr a = 0x1FC00000 + off /\ 0 <= off <= 0x7FFFF
  | Ones => a < 0xC0000000 /\ 0x1F000000 <= psx_phys_addr a <= 0x1F7FFFFF
  | Nothing => 0xC0000000 <= a /\ a <> 0xFFFE0130 \/ a < 0xC0000000 /\ unmapped (psx_phys_addr a)
  | Registers => True
  end.
Proof.
  intros Ha. rewrite psx_phys_addr_spec. unfold region, between, unmapped, RAM_SIZE. cbn zeta.
  pose proof (Z.mod_pos_bound a 0x20000000 ltac:(lia)). set (p := a mod 0x20000000) in *. clearbody p.
  pose proof (Z.mod_pos_bound p 0x200000 ltac:(lia)). set (q := p mod 0x200000) in *. clearbody q.
  btest; simpl; try lia; try done.
Qed.

Lemma storage_aligned w a p :
  plain w a -> region a = Storage p -> p mod bytes_of w = 0.
Proof.
  intros (Ha & Hm & _) Hr. pose proof (region_cases a ltac:(lia)) as H. rewrite Hr in H.
  destruct H as (_ & <- & _). rewrite psx_phys_addr_spec. cbn zeta.
  destruct w; simpl bytes_of in *; case_if; dlia.
Qed.

(** ** The memory against the specification *)

Definition fits (m : gmap Z Z) (n : Z) : Prop := forall i, is_Some (m !! i) -> 0 <= i < n.

Section Simulation.
Context {W : Type} `{D : Devices W}.
Implicit Types s : State W.

Record Sim (rom : list Z) (s : State W) (m : gmap Z Z) : Prop := {
  sim_rom : bios_rom s = rom;
  sim_rom_bytes : Forall (fun b => 0 <= b < 256) rom;
  sim_ram : forall p, 0 <= p < RAM_SIZE -> byte_at (ram s) p = byte_at m p;
  sim_scratchpad : forall o, 0 <= o < SCRATCHPAD_SIZE -> byte_at (scratchpad s) o = byte_at m (0x1F800000 + o);
  sim_ram_bytes : bytes_ok (ram s);
  sim_scratchpad_bytes : bytes_ok (scratchpad s);
  sim_ram_fits : fits (ram s) RAM_SIZE;
  sim_scratchpad_fits : fits (scratchpad s) SCRATCHPAD_SIZE
}.

(** Bookkeeping leaves the bytes alone. *)
Definition same_bytes (s s' : State W) : Prop := ram s' = ram s /\ scratchpad s' = scratchpad s /\ bios_rom s' = bios_rom s.

Lemma Sim_same_bytes rom s s' m : same_bytes s s' -> Sim rom s m -> Sim rom s' m.
Proof. intros (H1 & H2 & H3) []. split; rewrite ?H1, ?H2, ?H3; done. Qed.

Lemma same_on_io f s : same_bytes s (on_io f s).
Proof. done. Qed.

Lemma note_bytes phys val n s : same_bytes s (note_ram_write phys val n s).
Proof. unfold note_ram_write, overlay_watch_note_write. by repeat case_if. Qed.

(** The accesses of the three widths share their shape. *)
Definition raw_read (w : Width) : gmap Z Z -> Z -> Z := match w with Byte => byte_at | Half => read16 | Word => read32 end.
Definition raw_rom (w : Width) : list Z -> Z -> Z := match w with Byte => aget | Half => rom16 | Word => rom32 end.
Definition mmio_read (w : Width) : Z -> State W -> Z * State W :=
  match w with Byte => mmio_read8 | Half => mmio_read16 | Word => mmio_read32 end.
Definition mmio_write (w : Width) : Env -> Z -> Z -> State W -> State W :=
  match w with Byte => mmio_write8 | Half => mmio_write16 | Word => mmio_write32 end.
Definition note_d44 (w : Width) (e : Env) (p val : Z) (s : State W) : State W :=
  match w with Word => if p =? D44_PHYS then d44_note e p (read32 (ram s) p) val s else s | _ => s end.

Lemma load_unfold w a s :
  a < 0xC0000000 ->
  load w a s =
    let p := psx_phys_addr a in
    if p <? RAM_SIZE then (raw_read w (ram s) p, s)
    else if between 0x1F000000 0x1F7FFFFF p then (256 ^ bytes_of w - 1, s)
    else if between 0x1F800000 0x1F8003FF p then (raw_read w (scratchpad s) (p - 0x1F800000), s)
    else if between 0x1F801000 0x1F803FFF p then mmio_read w p s
    else if between 0x1FC00000 0x1FC7FFFF p then (raw_rom w (bios_rom s) (p - 0x1FC00000), s)
    else (0, s).
Proof.
  intros H. destruct w; simpl; unfold psx_read_byte, psx_read_half, psx_read_word;
    rewrite ?(proj2 (Z.eqb_neq a 0xFFFE0130)), (proj2 (Z.leb_gt _ _) H) by lia; done.
Qed.

(** KSEG2 but for the cache-control register reads as zero words, NOPs to a fetch:
    what bounds the interpreter's recursion ([Interpreter.Interp.Kseg2Zero]). *)
Lemma kseg2_fetches_nop a s : 0xC0000000 <= a -> a <> 0xFFFE0130 -> fst (psx_read_word a s) = 0.
Proof.
  intros Ha Hc. unfold psx_read_word. rewrite (proj2 (Z.eqb_neq _ _) Hc), (proj2 (Z.leb_le _ _) Ha). done.
Qed.

Lemma store_unfold w e a v s :
  a < 0xC0000000 -> isolated e = false ->
  store w e a v s =
    let p := psx_phys_addr a in
    if p <? RAM_SIZE then on_ram (write_bytes w p v) (note_ram_write p v (bytes_of w) (note_d44 w e p v s))
    else if between 0x1F000000 0x1F7FFFFF p then s
    else if between 0x1F800000 0x1F8003FF p then on_scratchpad (write_bytes w (p - 0x1F800000) v) s
    else if between 0x1F801000 0x1F803FFF p then mmio_write w e p v s
    else s.
Proof.
  intros H E. destruct w; simpl; unfold psx_write_byte, psx_write_half, psx_write_word;
    rewrite ?(proj2 (Z.eqb_neq a 0xFFFE0130)), E, (proj2 (Z.leb_gt _ _) H) by lia; done.
Qed.

(** With the cache isolated a store below KSEG2 does nothing, to devices too. *)
Lemma store_isolated w e a v s : a < 0xC0000000 -> isolated e = true -> store w e a v s = s.
Proof.
  intros H E. destruct w; simpl; unfold psx_write_byte, psx_write_half, psx_write_word;
    rewrite ?(proj2 (Z.eqb_neq a 0xFFFE0130)), E by lia; [done|done|].
  by rewrite (proj2 (Z.leb_gt _ _) H).
Qed.

Lemma store_kseg2 w e a v s :
  0xC0000000 <= a -> a <> 0xFFFE0130 -> store w e a v s = s \/ store w e a v s = kseg2_write s.
Proof.
  intros H Hne. destruct w; simpl; unfold psx_write_byte, psx_write_half, psx_write_word;
    rewrite ?(proj2 (Z.eqb_neq a 0xFFFE0130)), (proj2 (Z.leb_le _ _) H) by lia; repeat case_if; auto.
Qed.

Lemma raw_read_le w m i : bytes_ok m -> raw_read w m i = le_combine (map (fun k => byte_at m (i + k)) (seqZ 0 (bytes_of w))).
Proof.
  intros H. destruct w; [|by apply read16_le|by apply read32_le].
  change (seqZ 0 (bytes_of Byte)) with [0]. cbn [map le_combine]. by rewrite !Z.add_0_r.
Qed.

Lemma raw_rom_le w l i :
  Forall (fun b => 0 <= b < 256) l -> raw_rom w l i = le_combine (map (fun k => aget l (i + k)) (seqZ 0 (bytes_of w))).
Proof.
  intros H. destruct w; [|by apply rom16_le|by apply rom32_le].
  change (seqZ 0 (bytes_of Byte)) with [0]. cbn [map le_combine]. by rewrite !Z.add_0_r.
Qed.

Lemma le_ext (f g : Z -> Z) n :
  (forall k, 0 <= k < n -> f k = g k) -> le_combine (map f (seqZ 0 n)) = le_combine (map g (seqZ 0 n)).
Proof. intros H. f_equal. apply map_ext_in. intros k Hin. apply list_elem_of_In, elem_of_seqZ in Hin. apply H. lia. Qed.

Lemma load_flat rom w a s m :
  plain w a -> Sim rom s m -> exists s', load w a s = (flat_load rom w a m, s') /\ Sim rom s' m.
Proof.
  intros P HS. pose proof P as (Ha & _ & Hreg). pose proof (region_cases a ltac:(lia)) as C.
  pose proof (storage_aligned w a) as Al. pose proof (bytes_of_range w). unfold flat_load.
  destruct (region a) as [p|off| | |] eqn:R; [..|done].
  all: try destruct C as [[C Hne]|[C U]].
  4: { exists (kseg2_read s).2. split; [|by apply (Sim_same_bytes _ s)].
       destruct w; simpl; unfold psx_read_byte, psx_read_half, psx_read_word;
         rewrite ?(proj2 (Z.eqb_neq a 0xFFFE0130)), (proj2 (Z.leb_le _ _) C) by lia; done. }
  all: exists s; (split; [|done]); rewrite load_unfold by tauto; cbn zeta; unfold between.
  - destruct C as (_ & -> & C). specialize (Al _ P eq_refl). destruct HS.
    destruct C as [C|C]; [rewrite (proj2 (Z.ltb_lt p RAM_SIZE)) by lia|]; unfold RAM_SIZE, SCRATCHPAD_SIZE in *.
    + f_equal. rewrite raw_read_le by done. apply le_ext. intros k Hk. apply sim_ram0. destruct w; simpl bytes_of in *; dlia.
    + replace (p <? _) with false by lia. replace ((_ <=? p) && _) with false by lia. replace ((_ <=? p) && _) with true by lia.
      f_equal. rewrite raw_read_le by done. apply le_ext. intros k Hk.
      replace (p + k) with (0x1F800000 + (p - 0x1F800000 + k)) by lia. apply sim_scratchpad0. destruct w; simpl bytes_of in *; dlia.
  - destruct C as (_ & -> & C). unfold RAM_SIZE. destruct HS. repeat (case_if; try lia).
    f_equal. rewrite sim_rom0, raw_rom_le by done. apply le_ext. intros k _. f_equal. lia.
  - destruct C as (_ & C). unfold RAM_SIZE in *. by repeat (case_if; try lia).
  - unfold unmapped, RAM_SIZE in *. by repeat (case_if; try lia).
Qed.

Lemma write8_fits i v m n : 0 <= i < n -> fits m n -> fits (write8 i v m) n.
Proof. intros Hi H j. unfold write8. rewrite lookup_insert_is_Some. intros [->|[_ Hj]]; [done|by apply H]. Qed.

Lemma write_bytes_fits w p v m n : 0 <= p -> p + bytes_of w <= n -> fits m n -> fits (write_bytes w p v m) n.
Proof. intros Hp Hn H. destruct w; simpl in *; unfold write32, write16; repeat (apply write8_fits; [lia|]); done. Qed.

Lemma note_d44_bytes w e p v s : same_bytes s (note_d44 w e p v s).
Proof. destruct w; simpl; try done. by case_if. Qed.

Lemma store_flat rom w e a v s m :
  plain w a -> Sim rom s m -> Sim rom (store w e a v s) (flat_store e w a v m).
Proof.
  intros P HS. pose proof P as (Ha & _ & Hreg). pose proof (region_cases a ltac:(lia)) as C.
  pose proof (storage_aligned w a) as Al. pose proof (bytes_of_range w) as Hw. unfold flat_store.
  destruct (region a) as [p|off| | |] eqn:R; [..|done].
  all: try destruct C as [[C Hne]|[C U]].
  4: { destruct (store_kseg2 w e a v s C Hne) as [->| ->]; [done|by apply (Sim_same_bytes _ s)]. }
  all: destruct (isolated e) eqn:I; [by rewrite store_isolated by tauto|].
  all: rewrite store_unfold by tauto; cbn zeta; unfold between.
  - destruct C as (_ & -> & C). specialize (Al _ P eq_refl).
    destruct C as [C|C]; [rewrite (proj2 (Z.ltb_lt p RAM_SIZE)) by lia|]; unfold RAM_SIZE, SCRATCHPAD_SIZE in *.
    + pose proof (Sim_same_bytes _ _ _ _ (note_d44_bytes w e p v s) HS) as HS1.
      apply (Sim_same_bytes _ _ _ _ (note_bytes p v (bytes_of w) _)) in HS1.
      generalize dependent (note_ram_write p v (bytes_of w) (note_d44 w e p v s)). intros s1 [].
      split; try done; unfold on_ram; cbn -[write_bytes].
      * intros q Hq. rewrite write_bytes_at, flat_bytes_at by lia. case_if; [done|auto].
      * intros q Hq. rewrite flat_bytes_at, sim_scratchpad0 by (unfold SCRATCHPAD_SIZE in *; lia).
        case_if; [|done]. unfold SCRATCHPAD_SIZE in *. destruct w; simpl bytes_of in *; dlia.
      * by apply write_bytes_ok.
      * apply write_bytes_fits; [lia| |done]. unfold RAM_SIZE. destruct w; simpl bytes_of in *; dlia.
    + replace (p <? _) with false by lia. replace ((_ <=? p) && _) with false by lia. replace ((_ <=? p) && _) with true by lia.
      destruct HS. split; try done; unfold on_scratchpad; cbn -[write_bytes].
      * intros q Hq. rewrite flat_bytes_at, sim_ram0 by lia. unfold RAM_SIZE in *. case_if; [lia|done].
      * intros q Hq. rewrite write_bytes_at, flat_bytes_at by lia.
        rewrite sim_scratchpad0 by done. btest; simpl; try lia; try done. f_equal. lia.
      * by apply write_bytes_ok.
      * apply write_bytes_fits; [lia| |done]. unfold SCRATCHPAD_SIZE. destruct w; simpl bytes_of in *; dlia.
  - destruct C as (_ & -> & C). unfold RAM_SIZE. by repeat (case_if; try lia).
  - destruct C as (_ & C). unfold RAM_SIZE in *. by repeat (case_if; try lia).
  - unfold unmapped, RAM_SIZE in *. by repeat (case_if; try lia).
Qed.

(** C19: The memory map refines a plain byte memory: any program of aligned byte,
    half and word accesses outside the device registers, through any mirror or
    segment, with the cache isolated or not at each store, loads the values
    that a map from physical address to byte gives (little-endian, ROM and
    expansion area read-only, unmapped addresses 0), and never leaves the
    arrays. *)
Theorem memory_refines_flat rom (l : list Access) s m :
  Forall access_ok l -> Sim rom s m ->
  (run l s).1 = (flat_run rom l m).1 /\ Sim rom (run l s).2 (flat_run rom l m).2.
Proof.
  intros H. revert s m. induction H as [|x l Hx _ IH]; intros s m HS; [done|].
  destruct x as [w a|e w a v]; simpl in *.
  - destruct (load_flat rom w a s m Hx HS) as (s' & -> & HS'). specialize (IH s' m HS').
    destruct (run l s') as [vs s2]. destruct (flat_run rom l m) as [vs' m2]. simpl in *. by destruct IH as [-> ?].
  - apply IH. by apply store_flat.
Qed.

End Simulation.

(** ** Interrupt registers *)

(** Evaluate the address tests of a handler at a known address. *)
Ltac decode :=
  cbv zeta;
  repeat match goal with
  | |- context [between ?a ?b ?c] => let r := eval vm_compute in (between a b c) in change (between a b c) with r
  | |- context [?a <? ?b] => let r := eval vm_compute in (a <? b) in change (a <? b) with r
  | |- context [has ?a 2] => let r := eval vm_compute in (has a 2) in change (has a 2) with r
  end; cbv iota.

(** The bits of a register an access covers. *)
Definition covers (w : Width) (k b : Z) : bool :=
  let sh := 8 * (k mod 4) in (sh <=? b) && (b <? sh + 8 * bytes_of w).
Definition lane_mask (w : Width) (k : Z) : Z := u32 (Z.shiftl (Z.ones (8 * bytes_of w)) (8 * (k mod 4))).

Lemma lane_mask_bit w k b :
  0 <= b -> (k mod 4) + bytes_of w <= 4 -> Z.testbit (lane_mask w k) b = covers w k b.
Proof.
  intros Hb Hk. pose proof (bytes_of_range w). pose proof (Z.mod_pos_bound k 4 ltac:(lia)).
  unfold lane_mask, covers. cbn zeta. set (j := k mod 4) in *. clearbody j.
  unfold u32. change 0x100000000 with (2 ^ 32). rewrite Z.testbit_mod_pow2, Z.shiftl_spec by lia.
  rewrite Z.testbit_ones by lia. btest; simpl; lia.
Qed.

Section Interrupts.
Context {W : Type} `{D : Devices W}.
Implicit Types s : State W.

(** The registers when the store takes effect: after the device catch-up. *)
Definition synced (s : State W) : State W := SHADOW_NOTE_MMIO (psx_devices_mmio_sync s).

Lemma mmio_write_interrupt w e k v s :
  0 <= k < 8 -> k mod bytes_of w = 0 ->
  mmio_write w e (0x1F801070 + k) v s =
    (if k <? 4 then interrupt_write_stat_masked (Z.shiftl v (8 * (k mod 4))) (lane_mask w k)
     else interrupt_write_mask_masked e (Z.shiftl v (8 * (k mod 4))) (lane_mask w k) (8 * bytes_of w)) (synced s).
Proof.
  intros Hk Hal. assert (In k [0; 1; 2; 3; 4; 5; 6; 7]) as Hin by (cbn; lia).
  destruct w; repeat (destruct Hin as [<-|Hin]; [first [discriminate Hal|
    simpl mmio_write; unfold mmio_write8, mmio_write16, mmio_write32; decode; rewrite ?Z.shiftl_0_r; reflexivity]|]); done.
Qed.

Lemma below_11 b : 0 <= b -> Z.testbit 0x7FF b = (b <? 11).
Proof. intros H. change 0x7FF with (Z.ones 11). rewrite Z.testbit_ones by lia. btest; simpl; lia. Qed.

Lemma stat_write_bit val mask s b :
  0 <= b ->
  Z.testbit (i_stat (io (interrupt_write_stat_masked val mask s))) b =
    Z.testbit (i_stat (io s)) b && (negb (Z.testbit mask b && (b <? 11)) || Z.testbit val b).
Proof.
  intros Hb. unfold interrupt_write_stat_masked, on_io. cbn.
  case_if; cbn; autorewrite with zbits; rewrite below_11 by done; btauto.
Qed.

Lemma mask_write_bit e val mask n s b :
  0 <= b ->
  Z.testbit (i_mask (io (interrupt_write_mask_masked e val mask n s))) b =
    (b <? 11) && (if Z.testbit mask b then Z.testbit val b else Z.testbit (i_mask (io s)) b).
Proof.
  intros Hb. unfold interrupt_write_mask_masked, imask_trace_record, on_io. destruct (Z.testbit mask b) eqn:T; cbn;
    repeat case_if; cbn; autorewrite with zbits; rewrite below_11, T by done; btauto.
Qed.

(** A store of any width to the interrupt registers acts, once the devices
    are caught up, on exactly the lanes it covers: I_STAT keeps a pending bit
    unless the store covers it with a 0 (it can acknowledge, never raise), and
    I_MASK takes the stored bits below 11 in the covered lanes and keeps the
    others.  RAM, code tracking and the devices see nothing else. *)
Theorem interrupt_lanes_exact w e a k v s :
  a < 0xC0000000 -> isolated e = false -> psx_phys_addr a = 0x1F801070 + k -> 0 <= k < 8 -> k mod bytes_of w = 0 ->
  let s1 := synced s in let s2 := store w e a v s in let sh := 8 * (k mod 4) in
  (forall b, 0 <= b ->
     Z.testbit (i_stat (io s2)) b =
       Z.testbit (i_stat (io s1)) b && ((4 <=? k) || negb (covers w k b) || (11 <=? b) || Z.testbit v (b - sh)) /\
     (if k <? 4 then i_mask (io s2) = i_mask (io s1) else
        Z.testbit (i_mask (io s2)) b =
          (b <? 11) && (if covers w k b then Z.testbit v (b - sh) else Z.testbit (i_mask (io s1)) b))) /\
  same_bytes s1 s2 /\ code s2 = code s1 /\ world s2 = world s1.
Proof.
  intros Ha He Hp Hk Hal. cbn zeta.
  assert (k mod 4 + bytes_of w <= 4) as Hl by (destruct w; simpl bytes_of in *; dlia).
  rewrite store_unfold, Hp by done. cbn zeta. unfold between, RAM_SIZE.
  replace (0x1F801070 + k <? 2 * 1024 * 1024) with false by lia.
  do 2 (replace ((_ <=? _) && _) with false by lia). replace ((_ <=? _) && _) with true by lia.
  rewrite mmio_write_interrupt by done. destruct (Z.ltb_spec k 4) as [K|K].
  - split; [intros b Hb|done]. rewrite stat_write_bit, lane_mask_bit, Z.shiftl_spec by done.
    rewrite (proj2 (Z.leb_gt 4 k) K), Z.leb_antisym. split; [btauto|]. unfold interrupt_write_stat_masked, on_io. cbn. by case_if.
  - split; [intros b Hb|done]. rewrite mask_write_bit, lane_mask_bit, Z.shiftl_spec by done.
    rewrite (proj2 (Z.leb_le 4 k) K). split; [|done].
    unfold interrupt_write_mask_masked, imask_trace_record, on_io. cbn. rewrite andb_true_r. by repeat case_if.
Qed.

End Interrupts.

(** ** Pages *)

Definition PAGES : nat := 16.

Lemma page_of_div p : page_of p = p / 4096.
Proof. unfold page_of, DIRTY_RAM_PAGE_SHIFT. by rewrite Z.shiftr_div_pow2 by lia. Qed.

Lemma page_of_ram p : 0 <= p < RAM_SIZE -> 0 <= page_of p < 512.
Proof. rewrite page_of_div. unfold RAM_SIZE. dlia. Qed.

(** The word of the bitmap and the bit in it. *)
Lemma page_split pg : Z.shiftr pg 5 = pg / 32 /\ Z.land pg 31 = pg mod 32.
Proof. split; [by rewrite Z.shiftr_div_pow2 by lia|apply land_1f]. Qed.

(** Changing one bit of one word of the bitmap. *)
Lemma page_update (f : Z -> Z -> Z) (g : bool -> bool) pg q bm :
  (forall x k i, 0 <= k -> 0 <= i -> Z.testbit (f x (Z.shiftl 1 k)) i = if i =? k then g (Z.testbit x i) else Z.testbit x i) ->
  length bm = PAGES -> 0 <= pg < 512 -> 0 <= q ->
  page_test (aset bm (Z.shiftr pg 5) (f (aget bm (Z.shiftr pg 5)) (Z.shiftl 1 (Z.land pg 31)))) q =
    if q =? pg then g (page_test bm q) else page_test bm q.
Proof.
  intros Hf Hl Hpg Hq. unfold page_test. destruct (page_split pg) as [-> ->]. destruct (page_split q) as [-> ->].
  unfold PAGES in Hl. destruct (Z.eq_dec (q / 32) (pg / 32)) as [E|E].
  - rewrite E, aget_aset_eq, Hf by dlia. btest; subst; try done; dlia.
  - rewrite aget_aset_ne by dlia. destruct (Z.eqb_spec q pg); [by subst|done].
Qed.

Lemma page_test_set pg q bm :
  length bm = PAGES -> 0 <= pg < 512 -> 0 <= q -> page_test (page_set pg bm) q = (q =? pg) || page_test bm q.
Proof.
  intros. unfold page_set. rewrite (page_update Z.lor (fun _ => true)) by
    (try done; intros x k i Hk Hi; rewrite Z.lor_spec, Z.shiftl_1_l, Z.pow2_bits_eqb, Z.eqb_sym by done; case_if; btauto).
  by case_if.
Qed.

Lemma page_test_clear pg q bm :
  length bm = PAGES -> 0 <= pg < 512 -> 0 <= q -> page_test (page_clear pg bm) q = negb (q =? pg) && page_test bm q.
Proof.
  intros. unfold page_clear. rewrite (page_update Z.ldiff (fun _ => false)) by
    (try done; intros x k i Hk Hi; rewrite Z.ldiff_spec, Z.shiftl_1_l, Z.pow2_bits_eqb, Z.eqb_sym by done; case_if; btauto).
  by case_if.
Qed.

Lemma length_page_set pg bm : length (page_set pg bm) = length bm.
Proof. apply length_aset. Qed.
Lemma length_page_clear pg bm : length (page_clear pg bm) = length bm.
Proof. apply length_aset. Qed.

(** The page loops over a range. *)
Lemma pages_set lo hi q bm :
  length bm = PAGES -> 0 <= lo -> hi <= 512 -> 0 <= q ->
  length (forZ lo hi page_set bm) = PAGES /\
  page_test (forZ lo hi page_set bm) q = ((lo <=? q) && (q <? hi)) || page_test bm q.
Proof.
  intros Hl Hlo Hhi Hq. destruct (Z.le_gt_cases lo hi) as [Hle|Hgt].
  - apply (forZ_ind (fun k x => length x = PAGES /\ page_test x q = ((lo <=? q) && (q <? k)) || page_test bm q)); [done| |].
    + split; [done|]. btest; simpl; try done; lia.
    + intros i x Hi [Hx E]. rewrite length_page_set, page_test_set, E by (done || lia). split; [done|].
      btest; simpl; try done; lia.
  - unfold forZ. rewrite seqZ_nil by lia. simpl. split; [done|]. btest; simpl; try done; lia.
Qed.

(** The pages of an overlay or a load are those between its first and last byte. *)
Lemma range_pages phys len q :
  0 <= phys -> 0 < len -> phys + len <= RAM_SIZE -> phys <= q < phys + len ->
  page_of phys <= page_of q < page_of (range_end phys len) + 1.
Proof.
  intros. assert (range_end phys len = phys + len - 1) as ->.
  { unfold range_end. unfold RAM_SIZE in *. rewrite u32_id by lia. cbn zeta. by replace (_ || _) with false by lia. }
  rewrite !page_of_div. dlia.
Qed.

Lemma range_end_ram phys len : 0 <= phys < RAM_SIZE -> 0 <= range_end phys len < RAM_SIZE.
Proof.
  intros. unfold range_end. cbn zeta. pose proof (u32_range (phys + len - 1)).
  destruct (_ || _) eqn:E; unfold RAM_SIZE in *; lia.
Qed.

(** ** The text guard *)

Section Guard.
Context {W : Type} `{D : Devices W}.
Implicit Types s : State W.

(** What can happen to RAM and the guard after the image is registered: plain
    stores, code loaded over RAM and marked executable, a patch of the
    runtime blessed into the image once RAM holds it, and dispatch queries. *)
Inductive GuardStep : State W -> State W -> Prop :=
  | guard_store e w a v s : plain w a -> GuardStep s (store w e a v s)
  | guard_code_load f phys len s :
      0 <= phys -> 0 < len -> phys + len <= RAM_SIZE ->
      (forall p, ~ phys <= p < phys + len -> byte_at (f (ram s)) p = byte_at (ram s) p) ->
      GuardStep s (on_code (dirty_ram_mark_executable_range phys len) (on_ram f s))
  | guard_bless phys l s :
      0 <= phys -> phys + Z.of_nat (length l) <= RAM_SIZE ->
      (forall i, 0 <= i < Z.of_nat (length l) -> byte_at (ram s) (phys + i) = aget l i) ->
      GuardStep s (on_code (dirty_ram_text_bless phys (Some l) (Z.of_nat (length l))) s)
  | guard_query e phys s : GuardStep s (on_code (fun c => (dirty_ram_text_native_ok e phys (ram s) c).2) s).

(** Pages neither modified nor dirty hold the image. *)
Record Guarded (lo hi : Z) (s : State W) : Prop := {
  gd_bounds : 0 <= lo <= hi /\ hi <= RAM_SIZE /\ lo mod 4 = 0 /\ hi mod 4 = 0;
  gd_range : text_ref_lo (code s) = lo /\ text_ref_hi (code s) = hi;
  gd_bitmaps : length (text_modified_bitmap (code s)) = PAGES /\ length (dirty_ram_bitmap (code s)) = PAGES;
  gd_image : exists image, text_ref_image (code s) = Some image /\ hi - lo <= Z.of_nat (length image) /\
    forall p, lo <= p < hi ->
      page_test (text_modified_bitmap (code s)) (page_of p) = false ->
      page_test (dirty_ram_bitmap (code s)) (page_of p) = false ->
      byte_at (ram s) p = aget image (p - lo)
}.

(** Code tracking that only adds flags. *)
Definition adds (bm bm' : list Z) : Prop :=
  length bm = PAGES -> length bm' = PAGES /\ forall q, 0 <= q -> page_test bm' q = false -> page_test bm q = false.
Record Grows (c c' : Code) : Prop := {
  gr_lo : text_ref_lo c' = text_ref_lo c; gr_hi : text_ref_hi c' = text_ref_hi c;
  gr_image : text_ref_image c' = text_ref_image c;
  gr_modified : adds (text_modified_bitmap c) (text_modified_bitmap c');
  gr_dirty : adds (dirty_ram_bitmap c) (dirty_ram_bitmap c')
}.

Lemma adds_refl bm : adds bm bm.
Proof. by split. Qed.
Lemma adds_set pg bm : 0 <= pg < 512 -> adds bm (page_set pg bm).
Proof.
  intros Hpg Hl. split; [by rewrite length_page_set|]. intros q Hq.
  rewrite page_test_set by done. by intros [_ H]%orb_false_iff.
Qed.
Lemma adds_pages lo hi bm : 0 <= lo -> hi <= 512 -> adds bm (forZ lo hi page_set bm).
Proof.
  intros Hlo Hhi Hl. split; [by apply (pages_set lo hi 0)|]. intros q Hq.
  rewrite (proj2 (pages_set lo hi q bm Hl Hlo Hhi Hq)). by intros [_ H]%orb_false_iff.
Qed.

Lemma Grows_refl c : Grows c c.
Proof. split; try done; apply adds_refl. Qed.
Lemma Grows_trans c1 c2 c3 : Grows c1 c2 -> Grows c2 c3 -> Grows c1 c3.
Proof.
  intros [L1 H1 I1 M1 D1] [L2 H2 I2 M2 D2]. split; [congruence..| |].
  - intros Hl. destruct (M1 Hl) as [Hl' M]. destruct (M2 Hl') as [? M']. split; [done|]. intros q Hq Hf. by apply M, M'.
  - intros Hl. destruct (D1 Hl) as [Hl' M]. destruct (D2 Hl') as [? M']. split; [done|]. intros q Hq Hf. by apply M, M'.
Qed.

Lemma Grows_mark phys c : 0 <= phys -> Grows c (dirty_ram_mark_kernel_write phys c).
Proof.
  intros Hp. unfold dirty_ram_mark_kernel_write, dirty_ram_mark_page. case_if; [apply Grows_refl|].
  destruct (Z.leb_spec RAM_SIZE phys); [apply Grows_refl|].
  case_if; (split; [done..|apply adds_refl|apply adds_set, page_of_ram; lia]).
Qed.

Lemma Grows_guard phys v n c : 0 <= phys < RAM_SIZE -> Grows c (text_guard_note_write phys v n c).
Proof.
  intros Hp. unfold text_guard_note_write. destruct (text_ref_image c); [|apply Grows_refl].
  repeat case_if; [apply Grows_refl..|]. split; [done..|apply adds_set, page_of_ram, Hp|apply adds_refl].
Qed.

Lemma Grows_watch phys n s : Grows (code s) (code (overlay_watch_note_write phys n s)).
Proof. unfold overlay_watch_note_write. repeat case_if; (split; [done..|apply adds_refl|apply adds_refl]). Qed.

Lemma Grows_note phys v n s : 0 <= phys < RAM_SIZE -> Grows (code s) (code (note_ram_write phys v n s)).
Proof.
  intros Hp. eapply Grows_trans; [apply (Grows_mark phys); lia|].
  eapply Grows_trans; [apply (Grows_guard phys v n _ Hp)|].
  apply (Grows_watch phys n (on_code (text_guard_note_write phys v n) (on_code (dirty_ram_mark_kernel_write phys) s))).
Qed.

(** A step that only adds flags keeps the guard when the bytes of the pages it
    leaves unflagged are kept, or are those of the image. *)
Lemma Guarded_grow lo hi s s' :
  Guarded lo hi s -> Grows (code s) (code s') ->
  (forall image p, text_ref_image (code s) = Some image -> hi - lo <= Z.of_nat (length image) -> lo <= p < hi ->
     page_test (text_modified_bitmap (code s')) (page_of p) = false ->
     page_test (dirty_ram_bitmap (code s')) (page_of p) = false ->
     byte_at (ram s') p = byte_at (ram s) p \/ byte_at (ram s') p = aget image (p - lo)) ->
  Guarded lo hi s'.
Proof.
  intros [B R [Lm Ld] (image & Hi & Hlen & Hp)] [El Eh Ei M Dd] H. destruct (M Lm) as [Lm' M']. destruct (Dd Ld) as [Ld' D'].
  split; [done|by rewrite El, Eh|done|].
  exists image. rewrite Ei. split; [done|]. split; [done|]. intros p Hr Fm Fd.
  pose proof (page_of_ram p ltac:(lia)).
  destruct (H image p Hi Hlen Hr Fm Fd) as [-> | ->]; [|done]. apply Hp; [done|apply M'|apply D']; try done; lia.
Qed.

(** ** Stores under the guard *)

Lemma take_bytes v n : 0 <= n <= 4 -> store_bytes v n = map (byte_of v) (seqZ 0 n).
Proof.
  intros Hn. unfold store_bytes.
  assert (u8 v = byte_of v 0) as -> by (unfold byte_of; by rewrite Z.div_1_r).
  rewrite (byte_of_shift v 1 ltac:(lia) : u8 (Z.shiftr v 8) = _), (byte_of_shift v 2 ltac:(lia) : u8 (Z.shiftr v 16) = _),
    (byte_of_shift v 3 ltac:(lia) : u8 (Z.shiftr v 24) = _).
  assert (n = 0 \/ n = 1 \/ n = 2 \/ n = 3 \/ n = 4) as [->|[->|[->|[->| ->]]]] by lia; done.
Qed.

(** The bytes compared are the bytes of the image. *)
Lemma image_bytes image off v n i :
  0 <= off -> 0 <= n <= 4 -> off + n <= Z.of_nat (length image) -> 0 <= i < n ->
  take (Z.to_nat n) (drop (Z.to_nat off) image) = store_bytes v n -> byte_of v i = aget image (off + i).
Proof.
  intros Ho Hn Hl Hi H. rewrite take_bytes in H by done.
  assert ((take (Z.to_nat n) (drop (Z.to_nat off) image)) !! Z.to_nat i = Some (byte_of v i)) as L.
  { rewrite H, list_lookup_fmap. rewrite lookup_seqZ_lt by lia. simpl. by rewrite Z.add_0_l, Z2Nat.id by lia. }
  rewrite lookup_take_lt, lookup_drop in L by lia. unfold aget. rewrite nth_lookup_default.
  replace (Z.to_nat (off + i)) with (Z.to_nat off + Z.to_nat i)%nat by lia. by rewrite L.
Qed.

(** A store the guard leaves unflagged wrote the bytes of the image. *)
Lemma note_write_image phys v n s image q :
  text_ref_image (code s) = Some image ->
  text_ref_lo (code s) <= phys -> phys + n <= text_ref_hi (code s) -> text_ref_hi (code s) <= RAM_SIZE -> 0 <= text_ref_lo (code s) ->
  text_ref_hi (code s) - text_ref_lo (code s) <= Z.of_nat (length image) -> 0 < n <= 4 ->
  length (text_modified_bitmap (code s)) = PAGES -> phys <= q < phys + n -> page_of q = page_of phys ->
  page_test (text_modified_bitmap (code (note_ram_write phys v n s))) (page_of q) = false ->
  byte_of v (q - phys) = aget image (q - text_ref_lo (code s)).
Proof.
  intros Hi Hlo Hhi Hram H0 Hlen Hn Lm Hq Hpg. rewrite Hpg.
  pose proof (page_of_ram phys ltac:(lia)) as Hp. pose proof (Grows_mark phys (code s) ltac:(lia)) as [El Eh Ei M _].
  assert (forall s1 : State W, text_modified_bitmap (code (overlay_watch_note_write phys n s1)) = text_modified_bitmap (code s1)) as Ew
    by (intros s1; unfold overlay_watch_note_write; by repeat case_if).
  unfold note_ram_write. cbv zeta. rewrite Ew. unfold on_code. cbn -[dirty_ram_mark_kernel_write text_guard_note_write].
  destruct (M Lm) as [Lm' _]. generalize dependent (dirty_ram_mark_kernel_write phys (code s)). intros c El Eh Ei _ Lm'.
  unfold text_guard_note_write. rewrite Ei, Hi, El, Eh.
  rewrite (proj2 (Z.ltb_ge _ _) Hlo), (proj2 (Z.ltb_ge _ _) Hhi). cbn -[bool_decide]. case_bool_decide as Hb.
  - intros _. rewrite (image_bytes image (phys - text_ref_lo (code s)) v n) by (done || lia). f_equal. lia.
  - cbn. rewrite page_test_set, Z.eqb_refl by lia. done.
Qed.

(** A plain store either writes bytes of RAM inside one page, or touches
    neither RAM nor the code tracking. *)
Definition ram_store (e : Env) (a : Z) : bool := negb (isolated e) && (a <? 0xC0000000) && (psx_phys_addr a <? RAM_SIZE).

Lemma store_cases w e a v s :
  plain w a ->
  if ram_store e a
  then let p := psx_phys_addr a in
       store w e a v s = on_ram (write_bytes w p v) (note_ram_write p v (bytes_of w) (note_d44 w e p v s)) /\
       0 <= p /\ p + bytes_of w <= RAM_SIZE /\ p mod bytes_of w = 0
  else ram (store w e a v s) = ram s /\ code (store w e a v s) = code s.
Proof.
  intros P. pose proof P as (Ha & _ & Hreg). pose proof (region_cases a ltac:(lia)) as C.
  pose proof (storage_aligned w a) as Al. unfold ram_store.
  destruct (isolated e) eqn:I; simpl.
  { destruct (Z.lt_ge_cases a 0xC0000000) as [L|L]; [by rewrite store_isolated|].
    destruct (store_kseg2 w e a v s L) as [-> | ->]; try done. intros ->. by apply Hreg. }
  destruct (Z.ltb_spec a 0xC0000000) as [L|L]; simpl.
  2: { destruct (store_kseg2 w e a v s L) as [-> | ->]; try done. intros ->. by apply Hreg. }
  rewrite store_unfold by done. cbn zeta. unfold between. destruct (Z.ltb_spec (psx_phys_addr a) RAM_SIZE) as [R|R].
  - split; [done|]. destruct (region a) as [p|off| | |] eqn:Er; [|unfold unmapped, RAM_SIZE in *; lia..|done].
    specialize (Al p P eq_refl). destruct C as (_ & Ep & [C|C]); rewrite Ep in *; [|unfold RAM_SIZE in *; lia].
    unfold RAM_SIZE in *. destruct w; simpl bytes_of in *; dlia.
  - destruct (region a) as [p|off| | |] eqn:Er; [..|done]; unfold unmapped, RAM_SIZE in *; repeat (case_if; try lia; try done).
Qed.

(** An aligned access stays in one page, and on one side of a word boundary. *)
Lemma aligned_page w p q :
  0 <= p -> p mod bytes_of w = 0 -> p <= q < p + bytes_of w -> page_of q = page_of p.
Proof. intros. rewrite !page_of_div. destruct w; simpl bytes_of in *; dlia. Qed.
Lemma aligned_boundary w p q b :
  0 <= p -> p mod bytes_of w = 0 -> p <= q < p + bytes_of w -> b mod 4 = 0 -> (b <= q -> b <= p) /\ (q < b -> p + bytes_of w <= b).
Proof. intros. destruct w; simpl bytes_of in *; dlia. Qed.

Lemma guarded_store lo hi w e a v s : plain w a -> Guarded lo hi s -> Guarded lo hi (store w e a v s).
Proof.
  intros P G. pose proof (store_cases w e a v s P) as C. pose proof (bytes_of_range w) as Hw.
  destruct (ram_store e a).
  - destruct C as (-> & H0 & H1 & Hal). set (p := psx_phys_addr a) in *. clearbody p.
    assert (code (note_d44 w e p v s) = code s) as Ec by (destruct w; [done..|simpl; by case_if]).
    assert (ram (note_d44 w e p v s) = ram s) as Er by (apply note_d44_bytes).
    pose proof (Grows_note p v (bytes_of w) (note_d44 w e p v s) ltac:(lia)) as Hg. rewrite Ec in Hg.
    apply (Guarded_grow lo hi s); [done|exact Hg|]. intros image q Hi Hlen Hq Fm _. cbn -[write_bytes note_ram_write] in *.
    destruct G as [(B & B2 & B3 & B4) [L Hh] [Lm _] _].
    assert (ram (note_ram_write p v (bytes_of w) (note_d44 w e p v s)) = ram s) as -> by (etransitivity; [apply note_bytes|exact Er]).
    rewrite write_bytes_at. case_if; [|by left]. right.
    assert (p <= q < p + bytes_of w) as Hr by lia.
    pose proof (note_write_image p v (bytes_of w) (note_d44 w e p v s) image q) as N. rewrite Ec, L, Hh in N.
    destruct (aligned_boundary w p q lo H0 Hal Hr B3) as [A1 _]. destruct (aligned_boundary w p q hi H0 Hal Hr B4) as [_ A2].
    apply N; try done; try lia. by apply (aligned_page w).
  - destruct C as [Er Ec]. destruct G as [B R Lb Him]. split; rewrite ?Ec, ?Er; done.
Qed.

Lemma guarded_code_load lo hi f phys len s :
  0 <= phys -> 0 < len -> phys + len <= RAM_SIZE ->
  (forall p, ~ phys <= p < phys + len -> byte_at (f (ram s)) p = byte_at (ram s) p) ->
  Guarded lo hi s -> Guarded lo hi (on_code (dirty_ram_mark_executable_range phys len) (on_ram f s)).
Proof.
  intros H0 Hl Hr Hf G. pose proof G as [(B & B2 & _) _ [Lm Ld] _].
  pose proof (range_end_ram phys len ltac:(lia)) as He.
  pose proof (page_of_ram _ He) as Hpe. pose proof (page_of_ram phys ltac:(lia)) as Hpp.
  unfold on_code, on_ram, dirty_ram_mark_executable_range. cbn -[dirty_ram_bitmap].
  rewrite (proj2 (Z.eqb_neq len 0)), (proj2 (Z.leb_gt RAM_SIZE phys)) by lia.
  apply (Guarded_grow lo hi s); [done|split; [done..|apply adds_refl|apply adds_pages; lia]|]. cbn.
  intros image q _ _ Hq _ Fd. left. apply Hf. intros Hin.
  pose proof (page_of_ram q ltac:(lia)). pose proof (range_pages phys len q H0 Hl Hr Hin).
  rewrite (proj2 (pages_set (page_of phys) (page_of (range_end phys len) + 1) (page_of q) (dirty_ram_bitmap (code s)) Ld ltac:(lia) ltac:(lia) ltac:(lia))) in Fd.
  apply orb_false_iff in Fd as [Fd _]. lia.
Qed.

Lemma aget_patch l off src k :
  0 <= off -> off + Z.of_nat (length src) <= Z.of_nat (length l) -> 0 <= k ->
  aget (take (Z.to_nat off) l ++ src ++ drop (Z.to_nat off + length src) l) k =
    if (off <=? k) && (k <? off + Z.of_nat (length src)) then aget src (k - off) else aget l k.
Proof.
  intros Ho Hl Hk. unfold aget. rewrite !nth_lookup_default.
  assert (length (take (Z.to_nat off) l) = Z.to_nat off) as Et by (rewrite length_take; lia).
  destruct (Z.ltb_spec k off) as [L|L].
  - replace ((off <=? k) && _) with false by lia. rewrite lookup_app_l, lookup_take_lt by lia. done.
  - rewrite lookup_app_r by lia. rewrite Et. destruct (Z.ltb_spec k (off + Z.of_nat (length src))) as [L2|L2].
    + replace ((off <=? k) && _) with true by lia. rewrite lookup_app_l by lia. do 2 f_equal. lia.
    + rewrite andb_false_r, lookup_app_r, lookup_drop by lia. do 2 f_equal. lia.
Qed.

Lemma guarded_bless lo hi phys l s :
  0 <= phys -> phys + Z.of_nat (length l) <= RAM_SIZE ->
  (forall i, 0 <= i < Z.of_nat (length l) -> byte_at (ram s) (phys + i) = aget l i) ->
  Guarded lo hi s -> Guarded lo hi (on_code (dirty_ram_text_bless phys (Some l) (Z.of_nat (length l))) s).
Proof.
  intros H0 Hr Hl G. pose proof G as [(B & B2 & _) [Elo Ehi] Lb (image & Hi & Hlen & Hp)].
  unfold on_code, dirty_ram_text_bless. rewrite Hi. set (n := Z.of_nat (length l)) in *.
  destruct (n =? 0); [done|]. rewrite Elo, Ehi, u32_id by (unfold RAM_SIZE in *; lia). cbn zeta.
  case_if; [done|]. set (a := if phys <? lo then lo else phys). set (b := if hi <? phys + n then hi else phys + n).
  assert (lo <= a /\ phys <= a) as Ha by (unfold a; case_if; lia).
  assert (b <= hi /\ b <= phys + n) as Hb by (unfold b; case_if; lia). clearbody a b.
  destruct (Z.leb_spec b a); [done|]. case_if; [done|].
  set (src := take (Z.to_nat (b - a)) (drop (Z.to_nat (a - phys)) l)).
  assert (length src = Z.to_nat (b - a)) as Hs by (unfold src; rewrite length_take, length_drop; lia).
  split; [apply G|exact (conj Elo Ehi)|exact Lb|]. cbn. eexists. split; [done|]. split.
  { rewrite !length_app, length_take, length_drop, Hs. lia. }
  intros q Hq Fm Fd. rewrite <- Hs, aget_patch by lia. case_if; [|by apply Hp].
  unfold src, aget. rewrite nth_lookup_default, lookup_take_lt, lookup_drop, <- nth_lookup_default by lia.
  specialize (Hl (q - phys) ltac:(lia)). replace (phys + (q - phys)) with q in Hl by lia. rewrite Hl. unfold aget. f_equal. lia.
Qed.

Lemma guarded_query lo hi e phys s :
  Guarded lo hi s -> Guarded lo hi (on_code (fun c => (dirty_ram_text_native_ok e phys (ram s) c).2) s).
Proof.
  intros [B R Lb Him]. unfold on_code, dirty_ram_text_native_ok.
  destruct (text_ref_image (code s)) eqn:I; simpl; repeat case_if; simpl; (split; [done|exact R|exact Lb|]); cbn; rewrite ?I; done.
Qed.

Lemma guarded_step lo hi s s' : GuardStep s s' -> Guarded lo hi s -> Guarded lo hi s'.
Proof.
  intros [e w a v s0 P|f phys len s0|phys l s0|e phys s0].
  - by apply guarded_store.
  - by apply guarded_code_load.
  - by apply guarded_bless.
  - apply guarded_query.
Qed.

Lemma guarded_start lo l s :
  lo mod 4 = 0 -> Z.of_nat (length l) mod 4 = 0 -> 0 <= lo -> 0 < Z.of_nat (length l) -> lo + Z.of_nat (length l) <= RAM_SIZE ->
  length (dirty_ram_bitmap (code s)) = PAGES ->
  (forall i, 0 <= i < Z.of_nat (length l) -> byte_at (ram s) (lo + i) = aget l i) ->
  Guarded lo (lo + Z.of_nat (length l)) (on_code (dirty_ram_register_text_image lo (Some l) (Z.of_nat (length l))) s).
Proof.
  intros A1 A2 H0 Hl Hr Ld Hb. unfold on_code, dirty_ram_register_text_image.
  rewrite (proj2 (Z.eqb_neq (Z.of_nat (length l)) 0)), (proj2 (Z.leb_gt RAM_SIZE lo)), (proj2 (Z.ltb_ge (RAM_SIZE - lo) _)) by lia.
  split; cbn.
  - split; [lia|]. split; [done|]. split; [done|]. dlia.
  - done.
  - by split.
  - exists l. split; [done|]. split; [lia|]. intros p Hp _ _. replace p with (lo + (p - lo)) at 1 by lia. apply Hb. lia.
Qed.

Lemma ram_matches_spec m phys image off n :
  ram_matches m phys image off n = true <-> forall i, 0 <= i < n -> byte_at m (phys + i) = aget image (off + i).
Proof.
  unfold ram_matches. rewrite forallb_forall. split.
  - intros H i Hi. apply Z.eqb_eq, H, list_elem_of_In, elem_of_seqZ. lia.
  - intros H i Hi%list_elem_of_In%elem_of_seqZ. apply Z.eqb_eq, H. lia.
Qed.

(** C20: The text guard is sound: from the registration of a word-aligned image
    RAM holds,
    through any plain stores, code loads, blessed patches and queries, whenever
    the guard lets compiled code run at an address of the text the next bytes
    of RAM (256 of them, up to the end of the page and of the text) are those of
    the image; and it does let it run when they all match and the page has not
    been found diverged before. *)
Theorem text_guard_sound lo l s0 s e phys :
  lo mod 4 = 0 -> Z.of_nat (length l) mod 4 = 0 -> 0 <= lo -> 0 < Z.of_nat (length l) -> lo + Z.of_nat (length l) <= RAM_SIZE ->
  length (dirty_ram_bitmap (code s0)) = PAGES ->
  (forall i, 0 <= i < Z.of_nat (length l) -> byte_at (ram s0) (lo + i) = aget l i) ->
  rtc GuardStep (on_code (dirty_ram_register_text_image lo (Some l) (Z.of_nat (length l))) s0) s ->
  lo <= phys < lo + Z.of_nat (length l) ->
  exists image, text_ref_image (code s) = Some image /\
    let native := (dirty_ram_text_native_ok e phys (ram s) (code s)).1 in
    let matches n := forall i, 0 <= i < n -> phys + i < lo + Z.of_nat (length l) -> byte_at (ram s) (phys + i) = aget image (phys + i - lo) in
    (native = true -> matches (Z.min 256 (4096 - phys mod 4096))) /\
    (matches 256 -> page_test (text_diverged_bitmap (code s)) (page_of phys) = false -> native = true).
Proof.
  intros A1 A2 H0 Hl Hr Ld Hb Hst Hp.
  assert (Guarded lo (lo + Z.of_nat (length l)) s) as G.
  { refine (rtc_ind_l (fun x => Guarded lo (lo + Z.of_nat (length l)) x -> Guarded lo (lo + Z.of_nat (length l)) s) s _ _ _ Hst _).
    - done.
    - intros x y Hxy _ IH Hx. by apply IH, (guarded_step _ _ x).
    - by apply guarded_start. }
  set (hi := lo + Z.of_nat (length l)) in *. destruct G as [_ [Elo Ehi] _ (image & Hi & Hlen & Hpage)].
  exists image. split; [done|]. cbn zeta. unfold dirty_ram_text_native_ok. rewrite Hi, Elo, Ehi.
  rewrite (proj2 (Z.ltb_ge phys lo)), (proj2 (Z.leb_gt hi phys)) by lia. cbn [orb].
  set (n := if hi - phys <? 256 then _ else _). assert (n = Z.min 256 (hi - phys)) as Hn by (unfold n; case_if; lia).
  clearbody n. case_if; [done|]. case_if.
  - split; [|done]. intros _ i Hin Hhi. apply andb_true_iff in E0 as [Fm Fd]. apply negb_true_iff in Fm, Fd.
    assert (page_of (phys + i) = page_of phys) as Epg by (rewrite !page_of_div; dlia).
    apply Hpage; [lia|by rewrite Epg|rewrite Epg].
    unfold dirty_ram_is_dirty in Fd. rewrite (proj2 (Z.leb_gt RAM_SIZE phys)) in Fd by lia. by repeat (case_match; try done).
  - case_if; (split; [intros Hm|intros Hm _]); try done.
    + intros i Hin Hhi. rewrite (proj1 (ram_matches_spec _ _ _ _ _) E1) by lia. f_equal. lia.
    + exfalso. rewrite <- not_true_iff_false in E1. apply E1, ram_matches_spec. intros i Hin. rewrite Hm by lia. f_equal. lia.
Qed.

End Guard.

(** ** Overlay generations *)

Section Generations.
Context {W : Type} `{D : Devices W}.
Implicit Types s : State W.

Definition gen_sum (l : list Z) (a b : Z) : Z := forZ a b (fun pg sum => u32 (sum + aget l pg)) 0.

Lemma gen_sum_bump l pg a b :
  length l = 512%nat -> 0 <= a <= b -> b <= 512 -> 0 <= pg < 512 ->
  gen_sum (bump_gen pg l) a b = u32 (gen_sum l a b + b2z ((a <=? pg) && (pg <? b))).
Proof.
  intros Hl Hab Hb Hpg. unfold gen_sum.
  apply (forZ_ind (fun k x => x = u32 (forZ a k (fun pg sum => u32 (sum + aget l pg)) 0 + b2z ((a <=? pg) && (pg <? k)))) a b); [lia| |].
  - replace ((a <=? pg) && _) with false by lia. unfold forZ. by rewrite seqZ_nil by lia.
  - intros i x Hi ->. rewrite forZ_snoc by lia. unfold bump_gen.
    generalize (forZ a i (fun pg0 sum => u32 (sum + aget l pg0)) 0). intros y.
    destruct (Z.eq_dec i pg) as [->|Hne].
    + rewrite aget_aset_eq by lia. replace ((a <=? pg) && (pg <? pg)) with false by lia.
      replace ((a <=? pg) && (pg <? pg + 1)) with true by lia. simpl. unfold u32. dlia.
    + rewrite aget_aset_ne by lia. replace ((a <=? pg) && (pg <? i + 1)) with ((a <=? pg) && (pg <? i)) by lia.
      unfold u32. dlia.
Qed.

(** The stores that hit a watched page of a range. *)
Definition hits (bm : list Z) (phys len : Z) (x : Access) : bool :=
  match x with
  | Load _ _ => false
  | Store e _ a _ =>
      let pg := page_of (psx_phys_addr a) in
      ram_store e a && page_test bm pg && ((page_of phys <=? pg) && (pg <? page_of (range_end phys len) + 1))
  end.
Fixpoint hit_count (bm : list Z) (phys len : Z) (l : list Access) : Z :=
  match l with [] => 0 | x :: l => b2z (hits bm phys len x) + hit_count bm phys len l end.

(** The part of the code tracking the watch uses. *)
Definition same_watch (s s' : State W) : Prop :=
  overlay_watch_bitmap (code s') = overlay_watch_bitmap (code s) /\ overlay_page_gen (code s') = overlay_page_gen (code s).

Lemma note_watch w e p v n s :
  0 <= p < RAM_SIZE ->
  let c := code (note_ram_write p v n (note_d44 w e p v s)) in
  overlay_watch_bitmap c = overlay_watch_bitmap (code s) /\
  overlay_page_gen c = (if page_test (overlay_watch_bitmap (code s)) (page_of p)
                        then bump_gen (page_of p) (overlay_page_gen (code s)) else overlay_page_gen (code s)).
Proof.
  intros Hp. pose proof (page_of_ram p Hp) as Hpg.
  assert (code (note_d44 w e p v s) = code s) as Ec by (destruct w; [done..|simpl; by case_if]).
  generalize dependent (note_d44 w e p v s). intros s1 Ec. unfold note_ram_write. cbn zeta.
  set (s2 := on_code (text_guard_note_write p v n) _).
  assert (same_watch s s2) as [E1 E2].
  { unfold same_watch, s2, on_code, text_guard_note_write, dirty_ram_mark_kernel_write, dirty_ram_mark_page.
    cbn. rewrite Ec. repeat case_if; cbn; destruct (text_ref_image _); cbn; repeat case_if; done. }
  rewrite <- E1, <- E2. clearbody s2. unfold overlay_watch_note_write.
  change DIRTY_RAM_PAGE_COUNT with 512. rewrite (proj2 (Z.leb_gt 512 (page_of p))) by lia. by case_if.
Qed.

Lemma load_quiet w a s : plain w a -> (load w a s).2 = s \/ (load w a s).2 = (kseg2_read s).2.
Proof.
  intros (Ha & _ & Hreg). pose proof (region_cases a ltac:(lia)) as C.
  destruct (Z.lt_ge_cases a 0xC0000000) as [L|L].
  - left. rewrite load_unfold by done. cbn zeta. unfold between.
    destruct (region a) as [p|off| | |]; [..|done]; unfold unmapped, RAM_SIZE in *; repeat (case_if; try done); lia.
  - right. destruct (Z.eq_dec a 0xFFFE0130) as [->|Hne]; [by destruct Hreg|].
    destruct w; simpl; unfold psx_read_byte, psx_read_half, psx_read_word;
      rewrite ?(proj2 (Z.eqb_neq a 0xFFFE0130)), (proj2 (Z.leb_le _ _) L) by lia; done.
Qed.

Lemma range_end_after phys len : 0 <= phys < RAM_SIZE -> page_of phys <= page_of (range_end phys len) + 1.
Proof.
  intros H. rewrite !page_of_div. unfold range_end. cbn zeta. pose proof (u32_range (phys + len - 1)).
  destruct (_ || _) eqn:E; unfold RAM_SIZE in *; dlia.
Qed.

Lemma gen_sum_range l a b : 0 <= gen_sum l a b < 0x100000000.
Proof. unfold gen_sum. apply forZ_inv; [lia|]. intros. apply u32_range. Qed.

Lemma pagegen_sum_eq phys len c :
  0 <= phys < RAM_SIZE -> 0 < len ->
  overlay_watch_pagegen_sum phys len c = gen_sum (overlay_page_gen c) (page_of phys) (page_of (range_end phys len) + 1).
Proof.
  intros Hp Hl. unfold overlay_watch_pagegen_sum.
  by rewrite (proj2 (Z.eqb_neq len 0)), (proj2 (Z.leb_gt RAM_SIZE phys)) by lia.
Qed.

Lemma step_watch x s phys len :
  access_ok x -> 0 <= phys < RAM_SIZE -> 0 < len -> length (overlay_page_gen (code s)) = 512%nat ->
  let s' := (run [x] s).2 in
  overlay_watch_bitmap (code s') = overlay_watch_bitmap (code s) /\ length (overlay_page_gen (code s')) = 512%nat /\
  overlay_watch_pagegen_sum phys len (code s') =
    u32 (overlay_watch_pagegen_sum phys len (code s) + b2z (hits (overlay_watch_bitmap (code s)) phys len x)).
Proof.
  intros Hx Hp Hlen Hl. cbn zeta. rewrite !pagegen_sum_eq by done.
  pose proof (gen_sum_range (overlay_page_gen (code s)) (page_of phys) (page_of (range_end phys len) + 1)) as Hr.
  destruct x as [w a|e w a v]; simpl.
  - assert (code (load w a s).2 = code s) as E by (destruct (load_quiet w a s Hx) as [-> | ->]; done).
    destruct (load w a s) as [y s1]. simpl in *. rewrite E, Z.add_0_r, u32_id by done. done.
  - pose proof (store_cases w e a v s Hx) as C. destruct (ram_store e a); simpl.
    + destruct C as (-> & H0 & H1 & _). pose proof (bytes_of_range w).
      destruct (note_watch w e (psx_phys_addr a) v (bytes_of w) s ltac:(lia)) as [Eb Eg].
      pose proof (page_of_ram (psx_phys_addr a) ltac:(lia)). pose proof (page_of_ram _ (range_end_ram phys len Hp)).
      pose proof (page_of_ram phys Hp). pose proof (range_end_after phys len Hp).
      cbn -[note_ram_write note_d44 write_bytes]. rewrite Eb, Eg. split; [done|].
      destruct (page_test _ _); simpl.
      * split; [by unfold bump_gen; rewrite length_aset|]. apply gen_sum_bump; [done|lia..].
      * by rewrite Z.add_0_r, u32_id.
    + destruct C as [_ ->]. by rewrite Z.add_0_r, u32_id.
Qed.

Lemma run_cons x l s : (run (x :: l) s).2 = (run l (run [x] s).2).2.
Proof. destruct x; simpl; [|done]. destruct (load w addr s) as [y s1]. simpl. by destruct (run l s1). Qed.

(** The generation sum of an overlay's pages counts, modulo 2^32, the stores
    into its watched pages, through any mirror; so it is unchanged exactly when no
    such store happened, as long as fewer than 2^32 did. *)
Theorem pagegen_counts_stores (l : list Access) s phys len :
  Forall access_ok l -> 0 <= phys < RAM_SIZE -> 0 < len -> length (overlay_page_gen (code s)) = 512%nat ->
  let sum s := overlay_watch_pagegen_sum phys len (code s) in
  let n := hit_count (overlay_watch_bitmap (code s)) phys len l in
  sum (run l s).2 = u32 (sum s + n) /\ (n < 0x100000000 -> sum (run l s).2 = sum s <-> n = 0).
Proof.
  intros Hl Hp Hlen Hg. cbn zeta.
  assert (forall bm, 0 <= hit_count bm phys len l) as Hn.
  { intros bm. clear. induction l as [|x l IH]; simpl; [done|]. destruct (hits _ _ _ x); simpl; lia. }
  assert (overlay_watch_pagegen_sum phys len (code (run l s).2) =
    u32 (overlay_watch_pagegen_sum phys len (code s) + hit_count (overlay_watch_bitmap (code s)) phys len l)) as E.
  { clear Hn. revert s Hg. induction Hl as [|x l Hx _ IH]; intros s Hg.
    - simpl. rewrite Z.add_0_r, u32_id; [done|]. rewrite pagegen_sum_eq by done. apply gen_sum_range.
    - rewrite run_cons. destruct (step_watch x s phys len Hx Hp Hlen Hg) as (Eb & Hg' & Es).
      rewrite IH, Eb, Es by done. cbn [hit_count]. unfold u32. dlia. }
  split; [done|]. intros Hlt. rewrite E. specialize (Hn (overlay_watch_bitmap (code s))).
  assert (0 <= overlay_watch_pagegen_sum phys len (code s) < 0x100000000) as Hr by (rewrite pagegen_sum_eq by done; apply gen_sum_range).
  unfold u32. split; [|intros ->; dlia]. dlia.
Qed.

End Generations.

End MemLaws.
