(* ===== verification/MemoryDemo.v ===== *)
(** * Memory map: concrete runs

    A machine with quiet devices and the theorems of MemoryLaws.v applied to
    programs of accesses on it. *)

From S2P Require Import Prelude Bus Rings Memory MemoryLaws.
Import Mem MemLaws.

Module MemDemo.

(** Devices that read 0 and ignore writes. *)
Definition silent {A} (s : A) : Z * A := (0, s).
#[export] Instance quiet_devices : Devices unit := {|
  psx_devices_mmio_sync := id;
  sio_tick := fun _ => id; sio_read := fun _ => silent; sio_write := fun _ _ => id;
  dma_read := fun _ => silent; dma_write := fun _ _ => id; dma_write_masked := fun _ _ _ => id;
  timers_read := fun _ => silent; timers_write := fun _ _ => id;
  cdrom_read := fun _ => silent; cdrom_write := fun _ _ => id;
  gpu_read_gpuread := silent; gpu_read_gpustat := silent; gpu_set_gp0_source := fun _ => id;
  gpu_write_gp0 := fun _ => id; gpu_write_gp1 := fun _ => id;
  mdec_read := fun _ => silent; mdec_write := fun _ _ => id;
  spu_read := fun _ => silent; spu_write := fun _ _ => id;
  overlay_loader_active_write_check := fun _ _ => id
|}.

Definition env (sr : Z) : Env := mkEnv (Some sr) 0 None 0 0 0 (-1) 0 0 0 false false.
Definition code0 : Code := mkCode no_pages 1 None 0 0 no_pages no_pages 0 0 (page_set 1 no_pages) (replicate 512 0).
Definition io0 : Io := mkIo (replicate 16 0) 0 0 0x7F 0x0D ∅ 0 0 0 0 0 0 0 0 0 0 0 (Rings.mkRing ∅ 0).
Definition rom0 : list Z := [0x13; 0x00; 0x08; 0x3C].
Definition start : State unit := mkState ∅ ∅ rom0 0 code0 io0 tt.

(** A word through KSEG0, one of its bytes through an uncached mirror, a store
    with the cache isolated, the scratchpad, the ROM, the expansion area and
    KSEG2. *)
Definition program : list Access :=
  [Store (env 0) Word 0x80001000 0x11223344; Load Byte 0xA0201002; Store (env 0x10000) Word 0x1000 0; Load Half 0x1002;
   Store (env 0) Half 0x1F800004 0xBEEF; Load Word 0x9F800004; Load Word 0xBFC00000; Load Byte 0x1F000000; Load Word 0xC0000000].

Lemma plain_dec w a :
  (0 <=? a) && (a <? 0x100000000) && (a mod bytes_of w =? 0) && match region a with Registers => false | _ => true end = true -> plain w a.
Proof. intros H. split; [lia|]. split; [lia|]. intros R. rewrite R in H. lia. Qed.

Lemma start_sim : Sim rom0 start ∅.
Proof.
  split; try done; [repeat constructor; lia|..]; try (intros i; unfold byte_at; cbn; rewrite lookup_empty; simpl; lia);
    intros i [x Hx]; cbn in Hx; by rewrite lookup_empty in Hx.
Qed.

Lemma memory_refines_flat_witness :
  (run program start).1 = [0x22; 0x1122; 0xBEEF; 0x3C080013; 0xFF; 0] /\
  (run program start).1 = (flat_run rom0 program ∅).1 /\ Sim rom0 (run program start).2 (flat_run rom0 program ∅).2.
Proof.
  split; [vm_compute; reflexivity|].
  apply (memory_refines_flat rom0 program start ∅); [|apply start_sim].
  repeat (apply Forall_cons; split; [apply plain_dec; reflexivity|]). apply Forall_nil. exact I.
Defined.

(** A half-word acknowledge of VBlank alone, in the low lane of I_STAT. *)
Lemma interrupt_lanes_exact_witness :
  i_stat (io (store Half (env 0) 0x9F801070 0xFFFE start)) = 0x7E /\
  Z.testbit (i_stat (io (store Half (env 0) 0x9F801070 0xFFFE start))) 0 =
    Z.testbit (i_stat (io (synced start))) 0 &&
      ((4 <=? 0) || negb (covers Half 0 0) || (11 <=? 0) || Z.testbit 0xFFFE (0 - 8 * (0 mod 4))).
Proof.
  split; [vm_compute; reflexivity|].
  apply (interrupt_lanes_exact Half (env 0) 0x9F801070 0 0xFFFE start);
    [lia|reflexivity|vm_compute; reflexivity|lia|reflexivity|lia].
Defined.

(** Eight zero bytes of text, one of which a store then changes. *)
Definition text : list Z := replicate 8 0.
Definition patched : State unit := store Byte (env 0) 0x80020005 7 (on_code (dirty_ram_register_text_image 0x20000 (Some text) 8) start).

Lemma text_guard_sound_witness :
  (dirty_ram_text_native_ok (env 0) 0x20000 (ram patched) (code patched)).1 = false /\
  exists image, text_ref_image (code patched) = Some image /\
    let native := (dirty_ram_text_native_ok (env 0) 0x20006 (ram patched) (code patched)).1 in
    let matches n := forall i, 0 <= i < n -> 0x20006 + i < 0x20000 + Z.of_nat (length text) ->
      byte_at (ram patched) (0x20006 + i) = aget image (0x20006 + i - 0x20000) in
    (native = true -> matches (Z.min 256 (4096 - 0x20006 mod 4096))) /\
    (matches 256 -> page_test (text_diverged_bitmap (code patched)) (page_of 0x20006) = false -> native = true).
Proof.
  split; [vm_compute; reflexivity|].
  apply (text_guard_sound 0x20000 text start patched (env 0) 0x20006); try reflexivity; try (simpl; lia).
  - vm_compute; discriminate.
  - intros i Hi. assert (In i [0; 1; 2; 3; 4; 5; 6; 7]) as Hin by (simpl in *; lia).
    repeat (destruct Hin as [<-|Hin]; [vm_compute; reflexivity|]). destruct Hin.
  - apply rtc_once. apply guard_store. apply plain_dec. reflexivity.
Defined.

(** Page 1 is watched: of three stores one hits it, through a mirror. *)
Definition stores : list Access :=
  [Store (env 0) Word 0x80201000 1; Load Word 0x1000; Store (env 0) Byte 0x2000 1; Store (env 0x10000) Byte 0x1000 1].

Lemma pagegen_counts_stores_witness :
  hit_count (overlay_watch_bitmap (code start)) 0x1000 0x2000 stores = 1 /\
  overlay_watch_pagegen_sum 0x1000 0x2000 (code (run stores start).2) =
    u32 (overlay_watch_pagegen_sum 0x1000 0x2000 (code start) + hit_count (overlay_watch_bitmap (code start)) 0x1000 0x2000 stores).
Proof.
  split; [vm_compute; reflexivity|].
  apply (pagegen_counts_stores stores start 0x1000 0x2000); [|split; [lia|vm_compute; reflexivity]|lia|reflexivity].
  repeat (apply Forall_cons; split; [apply plain_dec; reflexivity|]). apply Forall_nil. exact I.
Defined.

End MemDemo.
