(* ===== verification/Spu.v ===== *)
(** * Sound processing unit

    src/runtime/src/spu.c: 24 ADPCM voices with their envelopes, key on and key
    off, the mixer, the CD audio ring fed by the drive, the register file, the
    transfer port and DMA channel 4.

    [State] is the statics of the file; sample RAM, the CD ring and the event
    ring are maps, absent entries being the zeros of memset.  Products the C code
    computes in [int] are wrapped to 32 bits where they can overflow (the main
    volume).  The float re-rendering of spu_shadow.c is off, as by default, so
    its tap records nothing. *)

From S2P Require Import Prelude.

Module Spu.

(** ** Constants *)

Definition SPU_RAM_SIZE := 512 * 1024.
Definition SPU_REG_COUNT := 256.
Definition SPU_VOICE_COUNT := 24.
Definition SPU_BLOCK_SAMPLES := 28.
Definition SPU_EVENT_CAP := Z.shiftl 1 20.
Definition SPU_CD_RING_FRAMES := 44100 * 8.

Definition ADSR_ATTACK := 0.
Definition ADSR_DECAY := 1.
Definition ADSR_SUSTAIN := 2.
Definition ADSR_RELEASE := 3.

Definition SPU_EV_KEYON := 1.
Definition SPU_EV_KEYOFF := 2.
Definition SPU_EV_END_STOP := 3.
Definition SPU_EV_END_LOOP := 4.

(** ** State *)

#[projections(primitive)] Record SpuVoice := mkVoice {
  active : bool; cur_addr : Z; repeat_addr : Z; samples : list Z; sample_idx : Z; phase : Z;
  hist1 : Z; hist2 : Z; flags : Z; env_level : Z; adsr_divider : Z; adsr_phase : Z
}.
#[export] Instance eta_Voice : Eta SpuVoice := fun v =>
  mkVoice (active v) (cur_addr v) (repeat_addr v) (samples v) (sample_idx v) (phase v) (hist1 v) (hist2 v) (flags v)
    (env_level v) (adsr_divider v) (adsr_phase v).

(** memset to zero. *)
Definition voice_zero : SpuVoice := mkVoice false 0 0 (replicate 28 0) 0 0 0 0 0 0 0 0.

Record SpuEvent := mkSpuEvent {
  se_seq : Z; se_frame : Z; se_kind : Z; se_voice : Z; se_pitch : Z; se_addr : Z;
  se_adsr_lo : Z; se_adsr_hi : Z; se_vol_l : Z; se_vol_r : Z
}.

(** The CD input ring: interleaved stereo frames and its cursors. *)
#[projections(primitive)] Record CdRing := mkCdRing {
  cd_ring : gmap Z Z; cd_read_pos : Z; cd_write_pos : Z; cd_frame_count : Z;
  cd_push_frames : Z; cd_overflow_frames : Z; cd_underflow_frames : Z
}.
#[export] Instance eta_CdRing : Eta CdRing := fun r =>
  mkCdRing (cd_ring r) (cd_read_pos r) (cd_write_pos r) (cd_frame_count r) (cd_push_frames r) (cd_overflow_frames r)
    (cd_underflow_frames r).

#[projections(primitive)] Record State := mkState {
  spu_ram : gmap Z Z; spu_regs : list Z; transfer_addr : Z; voices : list SpuVoice; cd : CdRing;
  endx_latch : Z; kon_latch : Z; koff_latch : Z; key_on_count : Z;
  render_frames : Z; nonzero_frames : Z; last_peak : Z; peak : Z;
  s_events : gmap Z SpuEvent; s_event_idx : Z; s_event_seq : Z
}.
#[export] Instance eta_State : Eta State := fun s =>
  mkState (spu_ram s) (spu_regs s) (transfer_addr s) (voices s) (cd s) (endx_latch s) (kon_latch s) (koff_latch s)
    (key_on_count s) (render_frames s) (nonzero_frames s) (last_peak s) (peak s) (s_events s) (s_event_idx s) (s_event_seq s).

(** [frame] is s_frame_count, the time stamp of events. *)
Section Spu.
Context (frame : Z).
Implicit Types (s : State) (v : SpuVoice).

Definition ram_byte (s : State) (a : Z) : Z := default 0 (spu_ram s !! a).
Definition voice_reg (s : State) (voice reg : Z) : Z := aget (spu_regs s) (voice * 8 + reg).
Definition voice_at (i : Z) (s : State) : SpuVoice := nth (Z.to_nat i) (voices s) voice_zero.
Definition set_voice (i : Z) (v : SpuVoice) (s : State) : State := s <| voices := <[Z.to_nat i := v]> (voices s) |>.
Definition on_voice (i : Z) (f : SpuVoice -> SpuVoice) (s : State) : State := set_voice i (f (voice_at i s)) s.
Definition on_cd (f : CdRing -> CdRing) (s : State) : State := s <| cd := f (cd s) |>.

Definition spu_event_record (kind voice addr : Z) (s : State) : State :=
  let e := mkSpuEvent (s_event_seq s) (u32 frame) kind (u8 voice) (voice_reg s voice 2) addr
             (voice_reg s voice 4) (voice_reg s voice 5) (voice_reg s voice 0) (voice_reg s voice 1) in
  s <| s_events := <[Z.land (s_event_idx s) (SPU_EVENT_CAP - 1) := e]> (s_events s) |>
    <| s_event_seq := u64 (s_event_seq s + 1) |> <| s_event_idx := u32 (s_event_idx s + 1) |>.

(** ** Envelopes *)

(** The increment of the level and the step of the divider. *)
Definition calc_vc_delta (zs speed : Z) (log_mode dec_mode inv_increment : bool) (current : Z) : Z * Z :=
  let increment := 7 - Z.land speed 3 in
  let increment := if inv_increment then Z.lnot increment else increment in
  let divinco := 32768 in
  let increment := if speed <? 0x2C then s32 (Z.shiftl increment (Z.shiftr (0x2F - speed) 2)) else increment in
  let divinco := if 0x30 <=? speed then Z.shiftr divinco (Z.shiftr (speed - 0x2C) 2) else divinco in
  let '(increment, divinco) :=
    if log_mode then
      if dec_mode then (Z.shiftr (current * increment) 15, divinco)
      else if 0x6000 <=? Z.land current 0x7FFF then
        if speed <? 0x28 then (Z.shiftr increment 2, divinco)
        else if 0x2C <=? speed then (increment, Z.shiftr divinco 2)
        else (Z.shiftr increment 1, Z.shiftr divinco 1)
      else (increment, divinco)
    else (increment, divinco) in
  (increment, if (divinco =? 0) && (speed <? zs) then 1 else divinco).

(** The envelope registers of a voice: ADSR_LO and ADSR_HI. *)
Definition adsr_raw (idx : Z) (s : State) : Z := Z.lor (voice_reg s idx 4) (Z.shiftl (voice_reg s idx 5) 16).
Definition sustain_lvl (raw : Z) : Z := Z.shiftl (Z.land raw 0x0F + 1) 11.

(** What a phase applies: the increment, the divider step and the level it ends
    at; nothing for a phase that does not exist. *)
Definition adsr_rate (raw p level : Z) : option (Z * Z * Z) :=
  let Dr := Z.land (Z.shiftr raw 4) 0x0F in
  let Ar := Z.land (Z.shiftr raw 8) 0x7F in
  let attack_exp := Z.testbit raw 15 in
  let Rr := Z.land (Z.shiftr raw 16) 0x1F in
  let release_exp := Z.testbit raw 21 in
  let Sr := Z.land (Z.shiftr raw 22) 0x7F in
  let sustain_dec := Z.testbit raw 30 in
  let sustain_exp := Z.testbit raw 31 in
  if p =? ADSR_ATTACK then Some (calc_vc_delta 0x7F Ar attack_exp false false level, 0x7FFF)
  else if p =? ADSR_DECAY then Some (calc_vc_delta (Z.shiftl 0x1F 2) (Z.shiftl Dr 2) true true true level, 0)
  else if p =? ADSR_SUSTAIN then
    Some (calc_vc_delta 0x7F Sr sustain_exp sustain_dec sustain_dec level, if sustain_dec then 0 else 0x7FFF)
  else if p =? ADSR_RELEASE then Some (calc_vc_delta (Z.shiftl 0x1F 2) (Z.shiftl Rr 2) release_exp true true level, 0)
  else None.

Definition adsr_run (raw : Z) (v : SpuVoice) : SpuVoice :=
  let v := if (adsr_phase v =? ADSR_ATTACK) && (env_level v =? 0x7FFF) then v <| adsr_phase := ADSR_DECAY |> else v in
  match adsr_rate raw (adsr_phase v) (s16 (env_level v)) with
  | None => v
  | Some (increment, divinco, uoflow_reset) =>
      let v := v <| adsr_divider := u32 (adsr_divider v + divinco) |> in
      if has (adsr_divider v) 0x8000 then
        let prev := env_level v in
        let v := v <| adsr_divider := 0 |> <| env_level := u16 (prev + increment) |> in
        let v :=
          if adsr_phase v =? ADSR_ATTACK then
            if has (Z.land (Z.lxor prev (env_level v)) (env_level v)) 0x8000 then v <| env_level := u16 uoflow_reset |> else v
          else if has (env_level v) 0x8000 then v <| env_level := u16 uoflow_reset |> else v in
        if (adsr_phase v =? ADSR_DECAY) && (env_level v <? u16 (sustain_lvl raw)) then v <| adsr_phase := ADSR_SUSTAIN |> else v
      else v
  end.

(** ** Samples and volumes *)

Definition clamp16 (v : Z) : Z := if 32767 <? v then 32767 else if v <? -32768 then -32768 else s16 v.
Definition abs32 (v : Z) : Z := if v <? 0 then - v else v.
Definition reg_index (addr : Z) : Z := Z.shiftr (u32 (addr - 0x1F801C00)) 1.

Definition direct_volume (raw : Z) : Z :=
  let v := if has raw 0x8000 then Z.land raw 0x7FFF
           else let v := Z.land raw 0x7FFF in if has v 0x4000 then v - 0x8000 else v in
  let v := if 0x3FFF <? v then 0x3FFF else v in
  let v := if v <? -0x4000 then -0x4000 else v in
  s16 v.

Definition cd_input_volume (raw : Z) : Z := s16 raw.

(** ** The CD ring *)

Definition cd_ring_at (r : CdRing) (i : Z) : Z := default 0 (cd_ring r !! i).

Definition spu_cd_audio_reset : State -> State := on_cd (fun _ => mkCdRing ∅ 0 0 0 0 0 0).

(** One frame into the ring. *)
Definition cd_store (stereo : list Z) (skip i : Z) (r : CdRing) : CdRing :=
  r <| cd_ring := <[cd_write_pos r * 2 + 1 := aget stereo (skip * 2 + i * 2 + 1)]>
                    (<[cd_write_pos r * 2 := aget stereo (skip * 2 + i * 2)]> (cd_ring r)) |>
    <| cd_write_pos := (cd_write_pos r + 1) mod SPU_CD_RING_FRAMES |>.

(** [stereo]: [frames] interleaved frames. *)
Definition cd_push (stereo : list Z) (frames : Z) (r : CdRing) : CdRing :=
  if frames <=? 0 then r else
  let in_frames := frames in
  let '(skip, in_frames, r) :=
    if SPU_CD_RING_FRAMES <? in_frames
    then let skip := in_frames - SPU_CD_RING_FRAMES in
         (skip, SPU_CD_RING_FRAMES, r <| cd_overflow_frames := u64 (cd_overflow_frames r + skip) |>)
    else (0, in_frames, r) in
  let r :=
    if SPU_CD_RING_FRAMES <? cd_frame_count r + in_frames
    then let drop := cd_frame_count r + in_frames - SPU_CD_RING_FRAMES in
         r <| cd_read_pos := (cd_read_pos r + drop) mod SPU_CD_RING_FRAMES |>
           <| cd_frame_count := u32 (cd_frame_count r - drop) |>
           <| cd_overflow_frames := u64 (cd_overflow_frames r + drop) |>
    else r in
  let r := forZ 0 in_frames (cd_store stereo skip) r in
  r <| cd_frame_count := u32 (cd_frame_count r + in_frames) |> <| cd_push_frames := u64 (cd_push_frames r + in_frames) |>.
Definition spu_cd_audio_push (stereo : list Z) (frames : Z) : State -> State := on_cd (cd_push stereo frames).

Definition cd_audio_pop (r : CdRing) : option (Z * Z) * CdRing :=
  if cd_frame_count r =? 0 then (None, r) else
  (Some (cd_ring_at r (cd_read_pos r * 2), cd_ring_at r (cd_read_pos r * 2 + 1)),
   r <| cd_read_pos := (cd_read_pos r + 1) mod SPU_CD_RING_FRAMES |> <| cd_frame_count := cd_frame_count r - 1 |>).

(** ** Voices *)

Definition f0 : list Z := [0; 60; 115; 98; 122].
Definition f1 : list Z := [0; 0; -52; -55; -60].

(** One 4-bit sample: predicted from the two before it, clamped. *)
Definition decode_nibble (filter shift sample4 : Z) (v : SpuVoice) (out : Z) : SpuVoice :=
  let sample4 := if has sample4 0x08 then sample4 - 0x10 else sample4 in
  let x := Z.shiftr (Z.shiftl sample4 12) shift in
  let x := x + Z.shiftr (hist1 v * aget f0 filter + hist2 v * aget f1 filter + 32) 6 in
  let x := clamp16 x in
  v <| hist2 := hist1 v |> <| hist1 := x |> <| samples := aset (samples v) out x |>.

Definition decode_byte (s : State) (addr filter shift b : Z) (a : SpuVoice * Z) : SpuVoice * Z :=
  let packed := ram_byte s (addr + 2 + b) in
  forZ 0 2 (fun n '(v, out) =>
    (decode_nibble filter shift (if n =? 0 then Z.land packed 0x0F else Z.shiftr packed 4) v out, out + 1)) a.

(** Where the next block is read. *)
Definition block_addr (v : SpuVoice) : Z :=
  let addr := Z.land (cur_addr v) (SPU_RAM_SIZE - 1) in
  if SPU_RAM_SIZE <? addr + 16 then 0 else addr.

Definition decode_block (idx : Z) (s : State) : State :=
  let v := voice_at idx s in
  let addr := block_addr v in
  let header := ram_byte s addr in
  let flg := ram_byte s (addr + 1) in
  let shift := Z.land header 0x0F in
  let filter := Z.land (Z.shiftr header 4) 0x0F in
  let filter := if 4 <? filter then 0 else filter in
  let shift := if 12 <? shift then 12 else shift in
  let v := (forZ 0 14 (decode_byte s addr filter shift) (v, 0)).1 in
  let v := if has flg 0x04 then v <| repeat_addr := addr |> else v in
  let v := v <| flags := flg |> <| sample_idx := 0 |> <| cur_addr := Z.land (addr + 16) (SPU_RAM_SIZE - 1) |> in
  let s := set_voice idx v s in
  if has flg 0x01 then s <| endx_latch := Z.lor (endx_latch s) (Z.shiftl 1 idx) |> else s.

(** The end of a block, before the next one is decoded. *)
Definition voice_block_end (idx : Z) (s : State) : State :=
  let v := voice_at idx s in
  if has (flags v) 0x01 then
    if has (flags v) 0x02 then
      let s := on_voice idx (fun v => v <| cur_addr := Z.land (repeat_addr v) (SPU_RAM_SIZE - 1) |>) s in
      spu_event_record SPU_EV_END_LOOP idx (repeat_addr v) s
    else
      let s := spu_event_record SPU_EV_END_STOP idx (cur_addr v) s in
      on_voice idx (fun v => v <| adsr_phase := ADSR_RELEASE |> <| adsr_divider := 0 |> <| flags := 0 |>) s
  else s.

(** [while (phase >= 0x1000)], left when the block is used up. *)
Definition phase_loop (v : SpuVoice) : SpuVoice :=
  (pwhile 8 (fun '(v, go) => (go : bool) && (0x1000 <=? phase v))
     (fun '(v, _) =>
        let v := v <| phase := phase v - 0x1000 |> <| sample_idx := sample_idx v + 1 |> in
        (v, sample_idx v <? SPU_BLOCK_SAMPLES)) (v, true)).1.

(** The envelope and the position, after the sample is taken. *)
Definition voice_step (raw pitch : Z) (v : SpuVoice) : SpuVoice :=
  let v := adsr_run raw v in
  let v := if (adsr_phase v =? ADSR_RELEASE) && (env_level v =? 0) then v <| active := false |> else v in
  let pitch := Z.land pitch 0x3FFF in
  let pitch := if pitch =? 0 then 0x1000 else pitch in
  phase_loop (v <| phase := u32 (phase v + pitch) |>).

Definition voice_next_sample (idx : Z) (s : State) : Z * State :=
  if negb (active (voice_at idx s)) then (0, s) else
  let s := if SPU_BLOCK_SAMPLES <=? sample_idx (voice_at idx s) then decode_block idx (voice_block_end idx s) else s in
  let v := voice_at idx s in
  let raw_s := aget (samples v) (sample_idx v) in
  let shaped := Z.shiftr (raw_s * env_level v) 15 in
  let shaped := if 32767 <? shaped then 32767 else shaped in
  let shaped := if shaped <? -32768 then -32768 else shaped in
  (s16 shaped, on_voice idx (voice_step (adsr_raw idx s) (voice_reg s idx 2)) s).

Definition key_on_voice (i : Z) (s : State) : State :=
  let v := voice_zero <| active := true |>
             <| cur_addr := Z.land (Z.shiftl (voice_reg s i 3) 3) (SPU_RAM_SIZE - 1) |>
             <| repeat_addr := Z.land (Z.shiftl (voice_reg s i 7) 3) (SPU_RAM_SIZE - 1) |>
             <| sample_idx := SPU_BLOCK_SAMPLES |>
             <| env_level := 0 |> <| adsr_divider := 0 |> <| adsr_phase := ADSR_ATTACK |> in
  let s := set_voice i v s in
  let s := s <| key_on_count := u32 (key_on_count s + 1) |> <| endx_latch := Z.ldiff (endx_latch s) (Z.shiftl 1 i) |> in
  spu_event_record SPU_EV_KEYON i (cur_addr v) s.
Definition key_on (mask : Z) (s : State) : State :=
  forZ 0 SPU_VOICE_COUNT (fun i s => if negb (has mask (Z.shiftl 1 i)) then s else key_on_voice i s) s.

Definition key_off (mask : Z) (s : State) : State :=
  forZ 0 SPU_VOICE_COUNT (fun i s =>
    if negb (has mask (Z.shiftl 1 i)) then s
    else if negb (active (voice_at i s)) then s
    else on_voice i (fun v => v <| adsr_phase := ADSR_RELEASE |> <| adsr_divider := 0 |>)
           (spu_event_record SPU_EV_KEYOFF i (cur_addr (voice_at i s)) s)) s.

(** ** Start and mixing *)

Definition spu_init : State :=
  mkState ∅ (replicate 256 0) 0 (replicate 24 voice_zero) (mkCdRing ∅ 0 0 0 0 0 0) 0 0 0 0 0 0 0 0 ∅ 0 0.

(** The 24 voices of one frame, scaled by their volumes. *)
Definition mix_voice (i : Z) (a : Z * Z * State) : Z * Z * State :=
  let '(mix_l, mix_r, s) := a in
  let '(x, s) := voice_next_sample i s in
  let vl := direct_volume (voice_reg s i 0) in
  let vr := direct_volume (voice_reg s i 1) in
  if x =? 0 then (mix_l, mix_r, s)
  else (mix_l + Z.shiftr (x * vl) 14, mix_r + Z.shiftr (x * vr) 14, s).

(** The CD input, when the control register routes it. *)
Definition mix_cd (ctrl cd_vol_l cd_vol_r : Z) (a : Z * Z * State) : Z * Z * State :=
  let '(mix_l, mix_r, s) := a in
  if has ctrl 0x0001 then
    match cd_audio_pop (cd s) with
    | (Some (cd_l, cd_r), r) =>
        (mix_l + Z.shiftr (cd_l * cd_vol_l) 15, mix_r + Z.shiftr (cd_r * cd_vol_r) 15, s <| cd := r |>)
    | (None, _) =>
        (mix_l, mix_r,
         if negb (cd_push_frames (cd s) =? 0)
         then on_cd (fun r => r <| cd_underflow_frames := u64 (cd_underflow_frames r + 1) |>) s else s)
    end
  else a.

(** [mix * main >> 14] in 32-bit arithmetic. *)
Definition main_scale (mix main : Z) : Z := Z.shiftr (s32 (mix * main)) 14.

Definition mix_frame (s : State) : Z * Z * State :=
  let ctrl := aget (spu_regs s) (reg_index 0x1F801DAA) in
  let main_l := direct_volume (aget (spu_regs s) (reg_index 0x1F801D80)) in
  let main_r := direct_volume (aget (spu_regs s) (reg_index 0x1F801D82)) in
  let cd_vol_l := cd_input_volume (aget (spu_regs s) (reg_index 0x1F801DB0)) in
  let cd_vol_r := cd_input_volume (aget (spu_regs s) (reg_index 0x1F801DB2)) in
  if has ctrl 0x8000 then
    let '(mix_l, mix_r, s) := mix_cd ctrl cd_vol_l cd_vol_r (forZ 0 SPU_VOICE_COUNT mix_voice (0, 0, s)) in
    (main_scale mix_l main_l, main_scale mix_r main_r, s)
  else (0, 0, s).

(** One output frame: samples so far, peak of the block, state. *)
Definition render_frame (a : list Z * Z * State) : list Z * Z * State :=
  let '(out, block_peak, s) := a in
  let '(mix_l, mix_r, s) := mix_frame s in
  let l := clamp16 mix_l in
  let r := clamp16 mix_r in
  let frame_peak := abs32 l in
  let right_peak := abs32 r in
  let frame_peak := if frame_peak <? right_peak then right_peak else frame_peak in
  let s := if negb (frame_peak =? 0) then s <| nonzero_frames := u64 (nonzero_frames s + 1) |> else s in
  (out ++ [l; r], if block_peak <? frame_peak then frame_peak else block_peak, s).

Definition spu_render (frames : Z) (s : State) : list Z * State :=
  if frames <=? 0 then ([], s) else
  let '(out, block_peak, s) := ziter render_frame frames ([], 0, s) in
  (out, s <| render_frames := u64 (render_frames s + frames) |> <| last_peak := block_peak |>
          <| peak := if peak s <? block_peak then block_peak else peak s |>).

(** ** Registers and transfers *)

Definition spu_read (addr : Z) (s : State) : Z :=
  if (0x1F801C00 <=? addr) && (addr <=? 0x1F801DFF) then
    let idx := reg_index addr in
    if idx <? SPU_REG_COUNT then
      if addr =? 0x1F801DAE then 0x0400
      else if addr =? 0x1F801D9C then Z.land (endx_latch s) 0xFFFF
      else if addr =? 0x1F801D9E then Z.land (Z.shiftr (endx_latch s) 16) 0xFF
      else if (addr <? 0x1F801D80) && (Z.land idx 7 =? 6) && (Z.shiftr idx 3 <? SPU_VOICE_COUNT)
      then env_level (voice_at (Z.shiftr idx 3) s)
      else aget (spu_regs s) idx
    else 0
  else 0.

(** A half-word into sample RAM at the transfer address. *)
Definition fifo_write (value : Z) (s : State) : State :=
  let a := transfer_addr s in
  let s := if a + 1 <? SPU_RAM_SIZE
           then s <| spu_ram := <[a + 1 := u8 (Z.shiftr value 8)]> (<[a := u8 value]> (spu_ram s)) |> else s in
  s <| transfer_addr := (a + 2) mod SPU_RAM_SIZE |>.

Definition spu_write (addr value : Z) (s : State) : State :=
  if (0x1F801C00 <=? addr) && (addr <=? 0x1F801DFF) then
    let idx := reg_index addr in
    if idx <? SPU_REG_COUNT then
      let s := s <| spu_regs := aset (spu_regs s) idx (u16 value) |> in
      let s := if addr =? 0x1F801D88
               then key_on (u16 value) (s <| kon_latch := Z.lor (Z.land (kon_latch s) 0xFFFF0000) (u16 value) |>) else s in
      let s := if addr =? 0x1F801D8A
               then key_on (Z.shiftl (u16 value) 16)
                      (s <| kon_latch := Z.lor (Z.land (kon_latch s) 0x0000FFFF) (Z.shiftl (u16 value) 16) |>) else s in
      let s := if addr =? 0x1F801D8C
               then key_off (u16 value) (s <| koff_latch := Z.lor (Z.land (koff_latch s) 0xFFFF0000) (u16 value) |>) else s in
      let s := if addr =? 0x1F801D8E
               then key_off (Z.shiftl (u16 value) 16)
                      (s <| koff_latch := Z.lor (Z.land (koff_latch s) 0x0000FFFF) (Z.shiftl (u16 value) 16) |>) else s in
      let s := if addr =? 0x1F801DA6
               then let a := Z.shiftl (u16 value) 3 in s <| transfer_addr := if SPU_RAM_SIZE <=? a then 0 else a |> else s in
      if addr =? 0x1F801DA8 then fifo_write value s else s
    else s
  else s.

Definition spu_dma_write (word : Z) (s : State) : State :=
  let a := transfer_addr s in
  let s := if a + 3 <? SPU_RAM_SIZE
           then s <| spu_ram := <[a + 3 := u8 (Z.shiftr word 24)]> (<[a + 2 := u8 (Z.shiftr word 16)]>
                                  (<[a + 1 := u8 (Z.shiftr word 8)]> (<[a := u8 word]> (spu_ram s)))) |> else s in
  s <| transfer_addr := (a + 4) mod SPU_RAM_SIZE |>.
Definition spu_dma_ready : bool := true.

(** ** Events and snapshot *)

Definition spu_event_total (s : State) : Z := s_event_seq s.

(** The newest [max_count] events, oldest first. *)
Definition spu_event_get (max_count : Z) (s : State) : list (option SpuEvent) :=
  if max_count =? 0 then [] else
  let avail := if s_event_seq s <? SPU_EVENT_CAP then s_event_seq s else SPU_EVENT_CAP in
  let max_count := if avail <? max_count then avail else max_count in
  let start := Z.land (u32 (s_event_idx s + SPU_EVENT_CAP - max_count)) (SPU_EVENT_CAP - 1) in
  map (fun i => s_events s !! Z.land (start + i) (SPU_EVENT_CAP - 1)) (seqZ 0 max_count).

Definition spu_event_reset (s : State) : State := s <| s_event_idx := 0 |> <| s_event_seq := 0 |> <| s_events := ∅ |>.

Record Snapshot := mkSnapshot {
  n_spu_regs : list Z; n_voices : list SpuVoice; n_transfer_addr : Z; n_key_on_count : Z;
  n_endx_latch : Z; n_kon_latch : Z; n_koff_latch : Z
}.
Definition spu_snapshot_write (s : State) : Snapshot :=
  mkSnapshot (spu_regs s) (voices s) (transfer_addr s) (key_on_count s) (endx_latch s) (kon_latch s) (koff_latch s).
Definition spu_snapshot_read (n : Snapshot) (s : State) : State :=
  s <| spu_regs := n_spu_regs n |> <| voices := n_voices n |> <| transfer_addr := n_transfer_addr n |>
    <| key_on_count := n_key_on_count n |> <| endx_latch := n_endx_latch n |> <| kon_latch := n_kon_latch n |>
    <| koff_latch := n_koff_latch n |>.

End Spu.

End Spu.
