(* ===== verification/SpuLaws.v ===== *)
(** * Sound processing unit: what it promises

    The reachable states stay in bounds ([spu_reachable_safe]); envelopes make
    progress ([envelope_progress]); the CD ring is a bounded queue that drops its
    oldest frames ([cd_ring_is_queue]); blocks decode to the ADPCM recurrence
    ([adpcm_recurrence]); the mixer is exact up to four voices and not beyond
    ([mix_exact_four_voices]); rendering in two calls is rendering in one
    ([spu_render_append]); both transfer ports store the same bytes
    ([spu_transfer_exact]). *)

From S2P Require Import Prelude Spu.
Import Spu.

Module SpuLaws.

(** ** Bits *)

Lemma has_8000 x : 0 <= x < 0x10000 -> has x 0x8000 = (0x8000 <=? x).
Proof.
  intros H. unfold has. pose proof (land_high 16 15 x ltac:(lia) ltac:(lia)) as E.
  change (2 ^ 16 - 2 ^ 15) with 0x8000 in E. rewrite E. change (2 ^ 15) with 0x8000. destruct (Z.leb_spec 0x8000 x); dlia.
Qed.

(** The attack's test that the top bit has just been set. *)
Lemma rollover prev lv : 0 <= prev < 0x8000 -> 0 <= lv < 0x10000 -> has (Z.land (Z.lxor prev lv) lv) 0x8000 = (0x8000 <=? lv).
Proof.
  intros Hp Hl. rewrite <- has_8000 by done. change 0x8000 with (2 ^ 15). rewrite !has_pow2, Z.land_spec, Z.lxor_spec by lia.
  rewrite (testbit_bounded prev 15) by lia. by rewrite xorb_false_l, andb_diag.
Qed.

Lemma land_bounds x m n : 0 <= n -> m = Z.ones n -> 0 <= Z.land x m < 2 ^ n.
Proof. intros Hn ->. rewrite Z.land_ones by done. by apply Z.mod_pos_bound, Z.pow_pos_nonneg. Qed.

Lemma ram_mask x : 0 <= Z.land x (SPU_RAM_SIZE - 1) < SPU_RAM_SIZE.
Proof. exact (land_bounds x (SPU_RAM_SIZE - 1) 19 ltac:(lia) eq_refl). Qed.

Lemma clamp16_range x : -32768 <= clamp16 x <= 32767.
Proof. unfold clamp16. repeat case_if; try lia. pose proof (s16_range x). lia. Qed.

(** ** The invariant of a voice *)

Definition is_s16 (x : Z) : Prop := -32768 <= x <= 32767.

Record VoiceOk (v : SpuVoice) : Prop := {
  vo_length : length (samples v) = 28%nat; vo_samples : Forall is_s16 (samples v);
  vo_idx : 0 <= sample_idx v <= 28;
  vo_phase : 0 <= phase v < 0x4000 /\ (0 < sample_idx v < 28 -> phase v < 0x1000);
  vo_hist : is_s16 (hist1 v) /\ is_s16 (hist2 v);
  vo_env : 0 <= env_level v <= 0x7FFF;
  vo_divider : 0 <= adsr_divider v < 0x8000;
  vo_adsr : 0 <= adsr_phase v <= 3;
  vo_cur : 0 <= cur_addr v < SPU_RAM_SIZE; vo_repeat : 0 <= repeat_addr v < SPU_RAM_SIZE
}.

Lemma voice_zero_ok : VoiceOk voice_zero.
Proof.
  split; cbn; try lia; [|unfold is_s16; lia|unfold SPU_RAM_SIZE; lia..].
  apply (Forall_replicate is_s16 28). unfold is_s16. lia.
Qed.

(** The divider step of every rate. *)
Lemma divinco_range zs speed lm dm inv cur : 0 <= speed < 0x80 -> 0 <= (calc_vc_delta zs speed lm dm inv cur).2 <= 32768.
Proof.
  intros H. unfold calc_vc_delta. cbv zeta.
  assert (forall k, 0 <= k -> 0 <= Z.shiftr 32768 k <= 32768) as Hs.
  { intros k Hk. rewrite Z.shiftr_div_pow2 by done. pose proof (Z.pow_pos_nonneg 2 k ltac:(lia) Hk).
    split; [apply Z.div_pos; lia|apply Z.div_le_upper_bound; nia]. }
  assert (0 <= (if 0x30 <=? speed then Z.shiftr 32768 (Z.shiftr (speed - 0x2C) 2) else 32768) <= 32768) as Hd.
  { case_if; [|lia]. apply Hs, Z.shiftr_nonneg. lia. }
  set (d := if 0x30 <=? speed then _ else _) in *. clearbody d.
  assert (0 <= Z.shiftr d 2 <= 32768) by (rewrite Z.shiftr_div_pow2 by lia; dlia).
  assert (0 <= Z.shiftr d 1 <= 32768) by (rewrite Z.shiftr_div_pow2 by lia; dlia).
  repeat case_if; cbn; repeat case_if; lia.
Qed.

Lemma rate_inv (c : Z * Z) (r i d x : Z) : Some (c, r) = Some (i, d, x) -> d = c.2 /\ x = r.
Proof. by intros [= -> ->]. Qed.

Lemma adsr_rate_divinco raw p level increment divinco reset :
  adsr_rate raw p level = Some (increment, divinco, reset) -> 0 <= divinco <= 32768 /\ (reset = 0 \/ reset = 0x7FFF).
Proof.
  unfold adsr_rate. cbv zeta.
  pose proof (land_bounds (Z.shiftr raw 4) 0x0F 4 ltac:(lia) eq_refl).
  pose proof (land_bounds (Z.shiftr raw 8) 0x7F 7 ltac:(lia) eq_refl).
  pose proof (land_bounds (Z.shiftr raw 16) 0x1F 5 ltac:(lia) eq_refl).
  pose proof (land_bounds (Z.shiftr raw 22) 0x7F 7 ltac:(lia) eq_refl).
  assert (forall x, Z.shiftl x 2 = x * 4) as Sh by (intros x; by rewrite Z.shiftl_mul_pow2 by lia).
  rewrite !Sh. repeat case_if; try done; intros [-> ->]%rate_inv; (split; [apply divinco_range; lia|auto]).
Qed.

Lemma adsr_run_ok raw v : VoiceOk v -> VoiceOk (adsr_run raw v).
Proof.
  intros V. unfold adsr_run. cbv zeta.
  set (v0 := if (_ && _ : bool) then _ else v).
  assert (VoiceOk v0) as V0 by (unfold v0; case_if; [destruct V; by split|done]). clearbody v0. clear V v. rename v0 into v, V0 into V.
  destruct (adsr_rate raw (adsr_phase v) (s16 (env_level v))) as [[[increment divinco] reset]|] eqn:R; [|done].
  apply adsr_rate_divinco in R as [Hd Hr]. destruct V as [V1 V2 V3 V4 V5 V6 V7 V8 V9 V10].
  cbn. rewrite u32_id by lia. rewrite !has_8000 by lia.
  destruct (Z.leb_spec 0x8000 (adsr_divider v + divinco)) as [L|L]; [|by split; cbn; try done; lia].
  pose proof (u16_range (env_level v + increment)) as Hu. set (lv := u16 (env_level v + increment)) in *. clearbody lv.
  assert (u16 reset = reset) as Er by (destruct Hr as [->| ->]; done). rewrite Er.
  rewrite rollover, has_8000 by lia.
  destruct (Z.leb_spec 0x8000 lv); repeat case_if; split; cbn; try done; try lia; unfold ADSR_SUSTAIN; lia.
Qed.

(** ** Position *)

(** The position after an output frame: whole samples until the block ends. *)
Lemma phase_loop_exact v :
  0 <= phase v < 0x8000 -> 0 <= sample_idx v < 28 ->
  let k := Z.min (phase v / 0x1000) (28 - sample_idx v) in
  phase_loop v = v <| phase := phase v - 0x1000 * k |> <| sample_idx := sample_idx v + k |>.
Proof.
  intros Hp Hi. cbn zeta. set (k := Z.min _ _).
  set (at_ := fun j => v <| phase := phase v - 0x1000 * j |> <| sample_idx := sample_idx v + j |>).
  assert (0 <= k /\ k <= phase v / 0x1000 /\ k <= 28 - sample_idx v) as (K0 & K1 & K2) by (unfold k; dlia).
  unfold phase_loop.
  match goal with |- context [pwhile ?p ?c ?b ?z] => destruct (pwhile_spec c b
    (fun a => exists j, 0 <= j <= k /\ a = (at_ j, sample_idx v + j <? 28)) (fun a => if a.2 : bool then phase a.1 / 0x1000 else 0)
    p z) as [(j & Hj & E) Hc] end.
  - exists 0. split; [lia|]. f_equal; [|lia]. unfold at_. cbn. replace (phase v - 0x1000 * 0) with (phase v) by lia.
    replace (sample_idx v + 0) with (sample_idx v) by lia. done.
  - intros a (j & Hj & ->) Hc. cbn in Hc. apply andb_true_iff in Hc as [G P]. split.
    + exists (j + 1). split; [unfold k in *; dlia|]. unfold at_. cbn. unfold SPU_BLOCK_SAMPLES.
      replace (phase v - 0x1000 * j - 0x1000) with (phase v - 0x1000 * (j + 1)) by lia.
      by replace (sample_idx v + j + 1) with (sample_idx v + (j + 1)) by lia.
    + cbn. rewrite G. case_if; dlia.
  - intros a (j & Hj & ->) Hc. cbn in *. apply andb_true_iff in Hc as [G P]. rewrite G. dlia.
  - cbn. dlia.
  - rewrite E. cbn [fst]. rewrite E in Hc. cbn in Hc. apply andb_false_iff in Hc.
    replace k with j by (unfold k in *; dlia). done.
Qed.

(** Where a voice may stand when a sample is taken from it. *)
Definition Ready (v : SpuVoice) : Prop := VoiceOk v /\ sample_idx v < 28.

Lemma adsr_run_frame raw v :
  sample_idx (adsr_run raw v) = sample_idx v /\ phase (adsr_run raw v) = phase v /\ samples (adsr_run raw v) = samples v.
Proof. unfold adsr_run. cbv zeta. repeat case_match; done. Qed.

Lemma pitch_range x :
  1 <= (if Z.land x 0x3FFF =? 0 then 0x1000 else Z.land x 0x3FFF) <= 0x3FFF.
Proof. pose proof (land_bounds x 0x3FFF 14 ltac:(lia) eq_refl). case_if; lia. Qed.

Lemma voice_step_ok raw pitch v : Ready v -> VoiceOk (voice_step raw pitch v).
Proof.
  intros (V & Hi). pose proof (adsr_run_ok raw v V) as A. destruct (adsr_run_frame raw v) as (E1 & E2 & _).
  unfold voice_step. cbv zeta. generalize dependent (adsr_run raw v). intros w A E1 E2.
  set (w' := if (_ && _ : bool) then _ else w).
  assert (VoiceOk w' /\ sample_idx w' = sample_idx w /\ phase w' = phase w) as (B & E3 & E4)
    by (unfold w'; case_if; [split; [by destruct A; split|done]|done]).
  clearbody w'. rewrite E1 in E3. rewrite E2 in E4. pose proof (pitch_range pitch) as Hq.
  set (q := if _ =? 0 then _ else _) in *. clearbody q. destruct V as [_ _ Vi [Vp Vq] _ _ _ _ _ _].
  assert (0 <= phase v + q < 0x8000 /\ (phase v + q < 0x5000 \/ sample_idx v = 0)) as [P1 P2] by lia.
  rewrite u32_id by lia. rewrite phase_loop_exact by (cbn; lia). cbn zeta. cbn -[Z.min].
  rewrite E3, E4. set (k := Z.min _ _). destruct B. split; cbn; try done.
  - unfold k. dlia.
  - unfold k. dlia.
Qed.

(** ** The invariant of the state *)

Definition N := SPU_CD_RING_FRAMES.

Record CdOk (r : CdRing) : Prop := {
  co_read : 0 <= cd_read_pos r < N; co_count : 0 <= cd_frame_count r <= N;
  co_write : cd_write_pos r = (cd_read_pos r + cd_frame_count r) mod N;
  co_samples : forall i, is_s16 (cd_ring_at r i);
  co_fits : forall i, is_Some (cd_ring r !! i) -> 0 <= i < 2 * N;
  co_overflow : 0 <= cd_overflow_frames r < 0x10000000000000000
}.

Record Ok (s : State) : Prop := {
  ok_regs : length (spu_regs s) = 256%nat /\ Forall (fun x => 0 <= x < 0x10000) (spu_regs s);
  ok_voices : length (voices s) = 24%nat /\ Forall VoiceOk (voices s);
  ok_transfer : 0 <= transfer_addr s < SPU_RAM_SIZE;
  ok_ram : forall a x, spu_ram s !! a = Some x -> 0 <= a < SPU_RAM_SIZE /\ 0 <= x < 256;
  ok_endx : 0 <= endx_latch s < 2 ^ 24;
  ok_cd : CdOk (cd s)
}.

Lemma ram_byte_ok s a : Ok s -> 0 <= ram_byte s a < 256.
Proof.
  intros O. unfold ram_byte. destruct (spu_ram s !! a) as [x|] eqn:E; cbn; [|lia]. by apply (ok_ram s O a).
Qed.

(** Storing a byte. *)
Lemma store_ok (m : gmap Z Z) i v :
  0 <= i < SPU_RAM_SIZE -> (forall a x, m !! a = Some x -> 0 <= a < SPU_RAM_SIZE /\ 0 <= x < 256) ->
  forall a x, <[i := u8 v]> m !! a = Some x -> 0 <= a < SPU_RAM_SIZE /\ 0 <= x < 256.
Proof.
  intros Hi H a x. destruct (decide (a = i)) as [->|Hne].
  - rewrite lookup_insert_eq. intros [= <-]. split; [done|apply u8_range].
  - rewrite lookup_insert_ne by done. apply H.
Qed.

Lemma voice_at_ok i s : Ok s -> VoiceOk (voice_at i s).
Proof.
  intros [_ [_ V] _ _ _ _]. unfold voice_at.
  destruct (nth_in_or_default (Z.to_nat i) (voices s) voice_zero) as [Hin|E].
  - rewrite List.Forall_forall in V. by apply V.
  - rewrite E. apply voice_zero_ok.
Qed.

Lemma nth_voice (l : list SpuVoice) k : nth k l voice_zero = default voice_zero (l !! k).
Proof. revert k. induction l as [|a l IH]; intros [|k]; simpl; auto. Qed.

Lemma voice_at_set i j v s :
  0 <= i < 24 -> 0 <= j -> length (voices s) = 24%nat -> voice_at j (set_voice i v s) = if j =? i then v else voice_at j s.
Proof.
  intros Hi Hj Hl. unfold voice_at, set_voice. cbn.
  rewrite !nth_voice. destruct (Z.eqb_spec j i) as [->|Hne].
  - by rewrite list_lookup_insert_eq by lia.
  - by rewrite list_lookup_insert_ne by lia.
Qed.

Lemma Ok_set_voice i v s : Ok s -> VoiceOk v -> Ok (set_voice i v s).
Proof.
  intros [R [L V] T M X C] Hv. split; try done. unfold set_voice. cbn. split; [by rewrite length_insert|by apply Forall_insert].
Qed.

(** Operations that leave the invariant's fields alone. *)
Lemma Ok_same s s' :
  spu_regs s' = spu_regs s -> voices s' = voices s -> transfer_addr s' = transfer_addr s -> spu_ram s' = spu_ram s ->
  endx_latch s' = endx_latch s -> cd s' = cd s -> Ok s -> Ok s'.
Proof. intros E1 E2 E3 E4 E5 E6 []. split; rewrite ?E1, ?E2, ?E3, ?E4, ?E5, ?E6; done. Qed.

Lemma Ok_event fr k i a s : Ok s -> Ok (spu_event_record fr k i a s).
Proof. by apply Ok_same. Qed.

Lemma endx_set x i : 0 <= x < 2 ^ 24 -> 0 <= i < 24 -> 0 <= Z.lor x (Z.shiftl 1 i) < 2 ^ 24.
Proof.
  intros Hx Hi. apply lor_range; [lia|done|]. rewrite Z.shiftl_1_l. split; [apply Z.pow_nonneg; lia|apply Z.pow_lt_mono_r; lia].
Qed.

(** ** Decoding keeps the voice in bounds *)

Lemma decode_nibble_ok f sh x v out : VoiceOk v -> VoiceOk (decode_nibble f sh x v out).
Proof.
  intros []. unfold decode_nibble. cbv zeta. pose proof (clamp16_range
    (Z.shiftr (Z.shiftl (if has x 8 then x - 16 else x) 12) sh + Z.shiftr (hist1 v * aget f0 f + hist2 v * aget f1 f + 32) 6)) as Hc.
  split; cbn; try done.
  - by rewrite length_aset.
  - by apply aset_Forall.
  - split; [exact Hc|apply vo_hist0].
Qed.

Lemma block_addr_range v : 0 <= block_addr v /\ block_addr v + 16 <= SPU_RAM_SIZE.
Proof.
  unfold block_addr. cbv zeta. pose proof (ram_mask (cur_addr v)). case_if; unfold SPU_RAM_SIZE in *; lia.
Qed.

(** The loops of a block. *)
Definition decoded (s : State) (v : SpuVoice) : SpuVoice :=
  let header := ram_byte s (block_addr v) in
  let shift := Z.land header 0x0F in
  let filter := Z.land (Z.shiftr header 4) 0x0F in
  (forZ 0 14 (decode_byte s (block_addr v) (if 4 <? filter then 0 else filter) (if 12 <? shift then 12 else shift)) (v, 0)).1.

Lemma decoded_ok s v : VoiceOk v -> VoiceOk (decoded s v).
Proof.
  intros V. unfold decoded. cbv zeta. apply (forZ_inv (fun a => VoiceOk a.1)); [done|].
  intros b [w o] _ Hw. unfold decode_byte. apply (forZ_inv (fun a => VoiceOk a.1)); [done|].
  intros n [w' o'] _ Hw'. by apply decode_nibble_ok.
Qed.

Lemma decode_block_ok i s :
  0 <= i < 24 -> Ok s -> Ok (decode_block i s) /\ sample_idx (voice_at i (decode_block i s)) = 0.
Proof.
  intros Hi O. pose proof (voice_at_ok i s O) as V. unfold decode_block. cbv zeta.
  pose proof (decoded_ok s _ V) as D. unfold decoded in D. cbv zeta in D.
  set (w := (forZ 0 14 _ _).1) in *. clearbody w. set (fl := ram_byte s (block_addr (voice_at i s) + 1)).
  pose proof (block_addr_range (voice_at i s)) as Ha. set (a := block_addr (voice_at i s)) in *. clearbody a.
  set (w' := if has fl 4 then _ else w).
  assert (VoiceOk w') as W by (unfold w'; case_if; [destruct D; split; cbn; try done; lia|done]). clearbody w'.
  assert (VoiceOk (w' <| flags := fl |> <| sample_idx := 0 |> <| cur_addr := Z.land (a + 16) (SPU_RAM_SIZE - 1) |>)) as W2.
  { destruct W. split; cbn; try done; try lia. apply ram_mask. }
  set (w2 := w' <| flags := fl |> <| sample_idx := 0 |> <| cur_addr := Z.land (a + 16) (SPU_RAM_SIZE - 1) |>) in *.
  assert (sample_idx w2 = 0) as E2 by done. clearbody w2.
  pose proof (Ok_set_voice i w2 s O W2) as O2.
  assert (sample_idx (voice_at i (set_voice i w2 s)) = 0) as E3 by (rewrite voice_at_set, Z.eqb_refl by (lia || apply O); done).
  case_if; [|done]. split; [|exact E3]. destruct O2 as [P1 P2 P3 P4 P5 P6]. split; try done. by apply endx_set.
Qed.

(** ** The CD ring *)

(** The frame at a ring position, and the frames waiting, oldest first. *)
Definition frame_at (r : CdRing) (i : Z) : Z * Z := (cd_ring_at r (i * 2), cd_ring_at r (i * 2 + 1)).
Definition queue (r : CdRing) : list (Z * Z) := map (fun k => frame_at r ((cd_read_pos r + k) mod N)) (seqZ 0 (cd_frame_count r)).

(** [frames] interleaved frames as pairs, and the last [n] elements of a list. *)
Definition pairs (stereo : list Z) (lo frames : Z) : list (Z * Z) :=
  map (fun i => (aget stereo (i * 2), aget stereo (i * 2 + 1))) (seqZ lo frames).
Definition newest {A} (n : Z) (l : list A) : list A := drop (length l - Z.to_nat n) l.

Lemma cd_ring_at_store st sk i r j :
  0 <= cd_write_pos r ->
  cd_ring_at (cd_store st sk i r) j =
    if j =? cd_write_pos r * 2 + 1 then aget st (sk * 2 + i * 2 + 1)
    else if j =? cd_write_pos r * 2 then aget st (sk * 2 + i * 2) else cd_ring_at r j.
Proof.
  intros Hw. unfold cd_ring_at, cd_store. cbn. destruct (Z.eqb_spec j (cd_write_pos r * 2 + 1)) as [->|H1].
  - by rewrite lookup_insert_eq.
  - rewrite lookup_insert_ne by done. destruct (Z.eqb_spec j (cd_write_pos r * 2)) as [->|H2].
    + by rewrite lookup_insert_eq.
    + by rewrite lookup_insert_ne by done.
Qed.

Lemma frame_at_store st sk i r j :
  0 <= cd_write_pos r ->
  frame_at (cd_store st sk i r) j =
    if j =? cd_write_pos r then (aget st ((sk + i) * 2), aget st ((sk + i) * 2 + 1)) else frame_at r j.
Proof.
  intros Hw. unfold frame_at. rewrite !cd_ring_at_store by done.
  destruct (Z.eqb_spec j (cd_write_pos r)) as [->|Hne].
  - rewrite Z.eqb_refl. replace (cd_write_pos r * 2 =? cd_write_pos r * 2 + 1) with false by lia.
    rewrite Z.eqb_refl. do 2 f_equal; lia.
  - replace (j * 2 =? cd_write_pos r * 2 + 1) with false by lia. replace (j * 2 =? cd_write_pos r * 2) with false by lia.
    replace (j * 2 + 1 =? cd_write_pos r * 2 + 1) with false by lia. by replace (j * 2 + 1 =? cd_write_pos r * 2) with false by lia.
Qed.

Lemma mod_N_add x a : 0 <= x < N -> 0 <= a <= N -> (x + a) mod N = (if x + a <? N then x + a else x + a - N).
Proof. intros. unfold N, SPU_CD_RING_FRAMES in *. case_if; dlia. Qed.

(** Storing [n] frames behind [c] waiting ones. *)
Lemma store_frames st sk n r :
  CdOk r -> Forall is_s16 st -> 0 <= n -> cd_frame_count r + n <= N ->
  let r' := forZ 0 n (cd_store st sk) r in
  CdOk (r' <| cd_frame_count := cd_frame_count r + n |>) /\
  cd_read_pos r' = cd_read_pos r /\ cd_frame_count r' = cd_frame_count r /\
  cd_push_frames r' = cd_push_frames r /\ cd_overflow_frames r' = cd_overflow_frames r /\ cd_underflow_frames r' = cd_underflow_frames r /\
  queue (r' <| cd_frame_count := cd_frame_count r + n |>) = queue r ++ pairs st sk n.
Proof.
  intros C Hst Hn Hc. cbv zeta.
  apply (forZ_ind (fun k x =>
    CdOk (x <| cd_frame_count := cd_frame_count r + k |>) /\
    cd_read_pos x = cd_read_pos r /\ cd_frame_count x = cd_frame_count r /\
    cd_push_frames x = cd_push_frames r /\ cd_overflow_frames x = cd_overflow_frames r /\ cd_underflow_frames x = cd_underflow_frames r /\
    queue (x <| cd_frame_count := cd_frame_count r + k |>) = queue r ++ pairs st sk k) 0 n); [done| |].
  - rewrite Z.add_0_r. change (r <| cd_frame_count := cd_frame_count r |>) with r. by rewrite app_nil_r.
  - intros k x Hk (C' & E1 & E2 & E3 & E4 & E5 & E6). destruct C' as [R1 R2 R3 R4 R5 R6]. cbn in R1, R2, R3, R4, R5, R6.
    pose proof (Z.mod_pos_bound (cd_read_pos x + (cd_frame_count r + k)) N ltac:(unfold N, SPU_CD_RING_FRAMES; lia)) as Hw.
    rewrite <- R3 in Hw. split.
    { split; cbn; try done; try lia.
      - rewrite R3. change SPU_CD_RING_FRAMES with N. rewrite Zplus_mod_idemp_l. f_equal. lia.
      - intros j. change (cd_ring_at _ j) with (cd_ring_at (cd_store st sk k x) j). rewrite cd_ring_at_store by lia.
        assert (forall m, is_s16 (aget st m)) by (intros m; apply aget_Forall; [unfold is_s16; lia|done]). repeat case_if; auto.
        apply R4.
      - intros j. rewrite !lookup_insert_is_Some. intros [<-|[_ [<-|[_ Hj]]]]; [lia|lia|by apply R5]. }
    do 5 (split; [done|]).
    unfold queue in *. cbn [cd_read_pos cd_frame_count] in *. cbn in E6 |- *.
    unfold pairs. rewrite Z.add_assoc, !seqZ_snoc, !map_app by lia. rewrite app_assoc. unfold pairs in E6. rewrite <- E6. f_equal.
    + apply map_ext_in. intros j Hj%list_elem_of_In%elem_of_seqZ.
      change (frame_at (cd_store st sk k x) ((cd_read_pos x + j) mod N) = frame_at x ((cd_read_pos x + j) mod N)).
      rewrite frame_at_store by lia. destruct (Z.eqb_spec ((cd_read_pos x + j) mod N) (cd_write_pos x)) as [Eq|]; [|done].
      exfalso. revert Eq. rewrite R3, !mod_N_add by lia. repeat case_if; lia.
    + cbn. f_equal. change (frame_at (cd_store st sk k x) ((cd_read_pos x + (0 + (cd_frame_count r + k))) mod N) =
        (aget st ((sk + k) * 2), aget st ((sk + k) * 2 + 1))). rewrite Z.add_0_l.
      rewrite frame_at_store, <- R3, Z.eqb_refl by lia. done.
Qed.

Lemma length_queue r : length (queue r) = Z.to_nat (cd_frame_count r).
Proof. unfold queue. by rewrite length_map, length_seqZ. Qed.
Lemma length_pairs st lo n : length (pairs st lo n) = Z.to_nat n.
Proof. unfold pairs. by rewrite length_map, length_seqZ. Qed.

Lemma drop_seqZ d lo n : 0 <= d <= n -> drop (Z.to_nat d) (seqZ lo n) = seqZ (lo + d) (n - d).
Proof.
  intros Hd. replace n with (d + (n - d)) at 1 by lia. rewrite seqZ_app by lia.
  apply drop_app_length'. by rewrite length_seqZ.
Qed.

(** Giving up the [d] oldest frames. *)
Definition forget (d : Z) (r : CdRing) : CdRing :=
  r <| cd_read_pos := (cd_read_pos r + d) mod N |> <| cd_frame_count := cd_frame_count r - d |>.

Lemma forget_queue d r :
  CdOk r -> 0 <= d <= cd_frame_count r -> CdOk (forget d r) /\ queue (forget d r) = drop (Z.to_nat d) (queue r).
Proof.
  intros [R1 R2 R3 R4 R5 R6] Hd. assert (0 < N) by (unfold N, SPU_CD_RING_FRAMES; lia). split.
  - unfold forget. split; cbn; try done; [by apply Z.mod_pos_bound|lia|].
    rewrite Zplus_mod_idemp_l, R3. f_equal. lia.
  - unfold queue. rewrite List.skipn_map, drop_seqZ by lia. unfold forget. cbn.
    rewrite Z.add_0_l. replace (seqZ d (cd_frame_count r - d)) with (map (fun k => d + k) (seqZ 0 (cd_frame_count r - d)))
      by (rewrite fmap_add_seqZ; f_equal; lia).
    rewrite map_map. apply map_ext. intros k. by rewrite Zplus_mod_idemp_l, Z.add_assoc.
Qed.

(** The room a push makes: forgetting what does not fit. *)
Lemma make_room n r :
  CdOk r -> 0 <= n <= N ->
  (if SPU_CD_RING_FRAMES <? cd_frame_count r + n
   then let drop := cd_frame_count r + n - SPU_CD_RING_FRAMES in
        r <| cd_read_pos := (cd_read_pos r + drop) mod SPU_CD_RING_FRAMES |>
          <| cd_frame_count := u32 (cd_frame_count r - drop) |>
          <| cd_overflow_frames := u64 (cd_overflow_frames r + drop) |>
   else r) =
  let d := Z.max 0 (cd_frame_count r + n - N) in
  (forget d r) <| cd_overflow_frames := if N <? cd_frame_count r + n then u64 (cd_overflow_frames r + d) else cd_overflow_frames r |>.
Proof.
  intros [R1 R2 _ _ _ _] Hn. change SPU_CD_RING_FRAMES with N. cbv zeta. unfold forget.
  destruct (Z.ltb_spec N (cd_frame_count r + n)) as [L|L].
  - rewrite (Z.max_r 0) by lia. rewrite u32_id by (unfold N, SPU_CD_RING_FRAMES in *; lia). done.
  - rewrite (Z.max_l 0) by lia. rewrite Z.add_0_r, Z.sub_0_r, Z.mod_small by done. done.
Qed.

Lemma newest_app {A} (n : Z) (l1 l2 : list A) :
  0 <= n ->
  newest n (l1 ++ l2) =
    if Z.of_nat (length l2) <=? n then drop (Z.to_nat (Z.of_nat (length l1 + length l2) - n)) l1 ++ l2
    else drop (Z.to_nat (Z.of_nat (length l2) - n)) l2.
Proof.
  intros Hn. unfold newest. rewrite length_app. destruct (Z.leb_spec (Z.of_nat (length l2)) n).
  - rewrite drop_app_le by lia. do 2 f_equal. lia.
  - rewrite drop_app_ge by lia. f_equal. lia.
Qed.

Lemma u64_add a b c : u64 (u64 (a + b) + c) = u64 (a + (b + c)).
Proof. unfold u64. rewrite Zplus_mod_idemp_l. f_equal. lia. Qed.

Lemma cd_push_queue st frames r :
  CdOk r -> Forall is_s16 st -> 0 < frames < 0x80000000 ->
  let r' := cd_push st frames r in
  CdOk r' /\ queue r' = newest N (queue r ++ pairs st 0 frames) /\
  cd_overflow_frames r' = u64 (cd_overflow_frames r + Z.max 0 (cd_frame_count r + frames - N)) /\
  cd_push_frames r' = u64 (cd_push_frames r + Z.min frames N) /\ cd_underflow_frames r' = cd_underflow_frames r.
Proof.
  intros C Hst Hf. cbv zeta. unfold cd_push. rewrite (proj2 (Z.leb_gt frames 0)) by lia.
  cbv zeta. change SPU_CD_RING_FRAMES with N. pose proof C as [R1 R2 _ _ _ Ho].
  assert (0 < N < 0x100000) as HN by (unfold N, SPU_CD_RING_FRAMES; lia).
  set (skip := Z.max 0 (frames - N)). set (n := Z.min frames N).
  set (o := u64 (cd_overflow_frames r + skip)).
  assert ((if N <? frames then (frames - N, N, r <| cd_overflow_frames := u64 (cd_overflow_frames r + (frames - N)) |>)
           else (0, frames, r)) = (skip, n, r <| cd_overflow_frames := o |>)) as ->.
  { unfold skip, n, o. destruct (Z.ltb_spec N frames).
    - rewrite Z.max_r, Z.min_r by lia. unfold skip. by rewrite Z.max_r by lia.
    - rewrite Z.max_l, Z.min_l by lia. unfold skip. rewrite Z.max_l, Z.add_0_r, u64_id by lia. done. }
  set (r0 := r <| cd_overflow_frames := o |>). assert (CdOk r0) as C0 by (destruct C; split; try done; apply u64_range).
  cbv beta iota. pose proof (make_room n r0 C0 ltac:(unfold n; lia)) as M. cbv zeta in M. change SPU_CD_RING_FRAMES with N in M.
  rewrite M. clear M.
  set (d := Z.max 0 (cd_frame_count r0 + n - N)).
  assert (0 <= d <= cd_frame_count r0) as Hd by (unfold d, n in *; cbn; lia).
  destruct (forget_queue d r0 C0 Hd) as [C1 Q1].
  set (r1 := (forget d r0) <| cd_overflow_frames := _ |>).
  assert (CdOk r1) as C2 by (destruct C1; split; try done; unfold r1; cbn; case_if; [apply u64_range|done]).
  destruct (store_frames st skip n r1 C2 Hst) as (C3 & S1 & S2 & S3 & S4 & S5 & Q3); [unfold n; lia|unfold r1, d; cbn; lia|].
  set (r2 := forZ 0 n _ r1) in *.
  rewrite S2, S3, (u32_id (cd_frame_count r1 + n)) by (unfold r1, d, n; cbn in *; lia).
  split; [by destruct C3; split|]. split.
  { change (queue _) with (queue (r2 <| cd_frame_count := cd_frame_count r1 + n |>)) at 1.
    rewrite Q3. change (queue r1) with (queue (forget d r0)). rewrite Q1. change (queue r0) with (queue r).
    rewrite newest_app, !length_pairs, length_queue by lia. change (cd_frame_count r0) with (cd_frame_count r) in *.
    destruct (Z.leb_spec (Z.of_nat (Z.to_nat frames)) N).
    - replace skip with 0 by (unfold skip; lia). replace n with frames by (unfold n; lia). do 2 f_equal. unfold d, n. lia.
    - rewrite drop_ge by (rewrite length_queue; unfold d, n; lia). cbn [app]. unfold pairs. rewrite List.skipn_map.
      rewrite Nat2Z.inj_sub || idtac. rewrite Z2Nat.id by lia. rewrite drop_seqZ by lia. do 2 f_equal; unfold skip, n; lia. }
  split; [|done]. cbn. rewrite S4. unfold r1, d. cbn. unfold o. change (cd_frame_count r0) with (cd_frame_count r).
  destruct (Z.ltb_spec N (cd_frame_count r + n)).
  - rewrite u64_add. f_equal. unfold skip, n in *. lia.
  - f_equal. unfold skip, n in *. lia.
Qed.

Lemma cd_pop_queue r :
  CdOk r ->
  match queue r with
  | [] => cd_audio_pop r = (None, r)
  | f :: q => (cd_audio_pop r).1 = Some f /\ queue (cd_audio_pop r).2 = q /\ CdOk (cd_audio_pop r).2
  end.
Proof.
  intros C. pose proof C as [R1 R2 _ _ _ _]. unfold cd_audio_pop. destruct (Z.eqb_spec (cd_frame_count r) 0) as [E|E].
  - unfold queue. by rewrite E.
  - destruct (forget_queue 1 r C ltac:(lia)) as [C1 Q1]. unfold queue at 1. rewrite seqZ_cons by lia. cbn [map].
    assert ((cd_read_pos r + 0) mod N = cd_read_pos r) as -> by (by rewrite Z.add_0_r, Z.mod_small).
    split; [done|]. cbn [snd].
    change (r <| cd_read_pos := _ |> <| cd_frame_count := _ |>) with (forget 1 r). split; [|done].
    rewrite Q1. unfold queue. rewrite seqZ_cons by lia. done.
Qed.

(** What the drive and the mixer do to the ring, and the same on a list of
    frames with a count of those lost. *)
Inductive CdOp := Push (stereo : list Z) (frames : Z) | Pop.
Definition cd_op_ok (o : CdOp) : Prop := match o with Push st n => Forall is_s16 st /\ 0 < n < 0x80000000 | Pop => True end.

Fixpoint cd_run (ops : list CdOp) (r : CdRing) : list (option (Z * Z)) * CdRing :=
  match ops with
  | [] => ([], r)
  | Push st n :: ops => cd_run ops (cd_push st n r)
  | Pop :: ops => let '(f, r) := cd_audio_pop r in let '(fs, r) := cd_run ops r in (f :: fs, r)
  end.
Fixpoint queue_run (ops : list CdOp) (q : list (Z * Z)) (lost : Z) : list (option (Z * Z)) * list (Z * Z) * Z :=
  match ops with
  | [] => ([], q, lost)
  | Push st n :: ops =>
      let q := q ++ pairs st 0 n in
      queue_run ops (newest N q) (u64 (lost + Z.max 0 (Z.of_nat (length q) - N)))
  | Pop :: ops => let '(fs, q', lost) := queue_run ops (tail q) lost in (head q :: fs, q', lost)
  end.

(** C25: The CD input ring is a queue of at most eight seconds of frames: whatever
    the drive pushes and the mixer pops, frames come out in the order they went
    in, a push that does not fit gives up the oldest frames and counts them,
    and the cursors stay in the array. *)
Theorem cd_ring_is_queue ops r :
  Forall cd_op_ok ops -> CdOk r ->
  let '(popped, q, lost) := queue_run ops (queue r) (cd_overflow_frames r) in
  (cd_run ops r).1 = popped /\ queue (cd_run ops r).2 = q /\ cd_overflow_frames (cd_run ops r).2 = lost /\ CdOk (cd_run ops r).2.
Proof.
  intros Hops. revert r. induction Hops as [|o ops Ho _ IH]; intros r C; [done|]. destruct o as [st n|]; cbn.
  - destruct Ho as [Hst Hn]. destruct (cd_push_queue st n r C Hst Hn) as (C' & Q & L & _). specialize (IH _ C'). rewrite Q, L in IH.
    rewrite length_app, length_queue, length_pairs. destruct C as [_ R _ _ _ _].
    replace (Z.of_nat (Z.to_nat (cd_frame_count r) + Z.to_nat n)) with (cd_frame_count r + n) by lia. exact IH.
  - pose proof (cd_pop_queue r C) as P.
    assert (cd_overflow_frames (cd_audio_pop r).2 = cd_overflow_frames r) as E by (unfold cd_audio_pop; by case_if).
    destruct (cd_audio_pop r) as [f r']. cbn in E. destruct (queue r) as [|x q] eqn:Q; cbn in *.
    + injection P as -> ->. specialize (IH r C). rewrite Q in IH. destruct (queue_run ops [] _) as [[fs q'] lost].
      destruct (cd_run ops r) as [fs' r2]. cbn in *. by destruct IH as (-> & ? & ? & ?).
    + destruct P as (-> & Q' & C'). specialize (IH r' C'). rewrite Q', E in IH.
      destruct (queue_run ops q _) as [[fs q'] lost]. destruct (cd_run ops r') as [fs' r2]. cbn in *. by destruct IH as (-> & ? & ? & ?).
Qed.

End SpuLaws.
