(* ===== verification/SpuRender.v ===== *)
(** * Sound processing unit: rendering

    Voices sample by sample, the mixer and its 32-bit limit
    ([mix_exact_four_voices]), independence of the block size
    ([spu_render_append]) and the invariant of every reachable state
    ([spu_reachable_safe]). *)

From S2P Require Import Prelude Spu SpuLaws.
Import Spu SpuLaws.

Module SpuRender.

Section Render.
Context (frame : Z).
Implicit Types s : State.

(** ** One sample of one voice *)

(** A voice operation touches its own voice, ENDX and the events only. *)
Record Own (i : Z) (s s' : State) : Prop := {
  own_regs : spu_regs s' = spu_regs s; own_ram : spu_ram s' = spu_ram s; own_transfer : transfer_addr s' = transfer_addr s;
  own_cd : cd s' = cd s; own_length : length (voices s') = length (voices s);
  own_others : forall j, 0 <= j -> j <> i -> voice_at j s' = voice_at j s
}.

Lemma Own_refl i s : Own i s s.
Proof. done. Qed.
Lemma Own_trans i s1 s2 s3 : Own i s1 s2 -> Own i s2 s3 -> Own i s1 s3.
Proof. intros [] []. split; try congruence. intros j Hj Hne. rewrite own_others1, own_others0; done. Qed.
Lemma Own_set i v s : 0 <= i -> Own i s (set_voice i v s).
Proof.
  intros Hi. split; try done; [apply length_insert|]. intros j Hj Hne. unfold voice_at, set_voice. cbn.
  by rewrite !nth_voice, list_lookup_insert_ne by lia.
Qed.
Lemma Own_event i k j a s : Own i s (spu_event_record frame k j a s).
Proof. done. Qed.

Lemma Own_block_end i s : 0 <= i -> Own i s (voice_block_end frame i s).
Proof.
  intros Hi. unfold voice_block_end. cbv zeta. repeat case_if; [|eapply Own_trans; [apply Own_event|]|apply Own_refl].
  - eapply Own_trans; [|apply Own_event]. by apply Own_set.
  - by apply Own_set.
Qed.

Lemma Own_decode i s : 0 <= i -> Own i s (decode_block i s).
Proof.
  intros Hi. unfold decode_block. cbv zeta. set (w := _ <| cur_addr := _ |>).
  destruct (Own_set i w s Hi). case_if; by split.
Qed.

Lemma block_end_ok i s : 0 <= i < 24 -> Ok s -> Ok (voice_block_end frame i s).
Proof.
  intros Hi O. pose proof (voice_at_ok i s O) as V. unfold voice_block_end, on_voice. cbv zeta.
  repeat case_if; [|apply Ok_set_voice; [by apply Ok_event|]|done].
  - apply Ok_event, Ok_set_voice; [done|]. destruct V. split; cbn; try done. apply ram_mask.
  - change (voice_at i (spu_event_record frame SPU_EV_END_STOP i (cur_addr (voice_at i s)) s)) with (voice_at i s).
    destruct V. split; cbn; try done; unfold ADSR_RELEASE; lia.
Qed.

(** The state in which a sample is taken. *)
Definition refilled (i : Z) (s : State) : State :=
  if SPU_BLOCK_SAMPLES <=? sample_idx (voice_at i s) then decode_block i (voice_block_end frame i s) else s.

Lemma refilled_ok i s : 0 <= i < 24 -> Ok s -> Ok (refilled i s) /\ Ready (voice_at i (refilled i s)) /\ Own i s (refilled i s).
Proof.
  intros Hi O. unfold refilled, SPU_BLOCK_SAMPLES. destruct (Z.leb_spec 28 (sample_idx (voice_at i s))) as [L|L].
  - destruct (decode_block_ok i _ Hi (block_end_ok i s Hi O)) as [O' E]. split; [done|]. split.
    + split; [by apply voice_at_ok|lia].
    + eapply Own_trans; [apply Own_block_end; lia|apply Own_decode; lia].
  - split; [done|]. split; [|apply Own_refl]. split; [by apply voice_at_ok|lia].
Qed.

Lemma shaped_range x e : is_s16 x -> 0 <= e <= 0x7FFF -> -32767 <= Z.shiftr (x * e) 15 <= 32766.
Proof. unfold is_s16. intros. rewrite Z.shiftr_div_pow2 by lia. change (2 ^ 15) with 32768. split; [apply Z.div_le_lower_bound|apply Z.lt_succ_r, Z.div_lt_upper_bound]; nia. Qed.

(** The value of a sample: the decoded sample scaled by the envelope, with no
    clamping needed. *)
Lemma next_sample_exact i s :
  0 <= i < 24 -> Ok s ->
  (voice_next_sample frame i s).1 =
    (if active (voice_at i s)
     then Z.shiftr (aget (samples (voice_at i (refilled i s))) (sample_idx (voice_at i (refilled i s))) * env_level (voice_at i (refilled i s))) 15
     else 0) /\
  -32767 <= (voice_next_sample frame i s).1 <= 32766 /\
  Ok (voice_next_sample frame i s).2 /\ Own i s (voice_next_sample frame i s).2.
Proof.
  intros Hi O. assert (active (voice_at i s) = true \/ active (voice_at i s) = false) as [A|A]
    by (generalize (active (voice_at i s)) as b; intros []; auto); unfold voice_next_sample; rewrite A; cbn [negb].
  2: { split; [done|]. split; [cbn; lia|]. split; [done|apply Own_refl]. }
  cbv zeta. fold (refilled i s). destruct (refilled_ok i s Hi O) as (O' & Rd & Hown).
  generalize dependent (refilled i s). intros s1 O' Rd Hown. cbn [fst snd]. pose proof Rd as [V _].
  assert (is_s16 (aget (samples (voice_at i s1)) (sample_idx (voice_at i s1)))) as Hx
    by (apply (aget_Forall is_s16); [unfold is_s16; lia|apply V]).
  pose proof (shaped_range _ _ Hx (vo_env _ V)) as Hr. clear A. set (y := Z.shiftr _ 15) in *. clearbody y.
  rewrite (proj2 (Z.ltb_ge 32767 y)), (proj2 (Z.ltb_ge y (-32768))), s16_id by lia.
  split; [done|]. split; [done|]. split.
  - unfold on_voice. apply Ok_set_voice; [done|]. by apply voice_step_ok.
  - eapply Own_trans; [exact Hown|]. apply Own_set. lia.
Qed.

(** ** The mixer *)

Lemma direct_volume_range raw : 0 <= raw < 0x10000 -> -0x4000 <= direct_volume raw <= 0x3FFF.
Proof.
  intros H. unfold direct_volume. cbv zeta.
  set (v := if has raw 0x8000 then _ else _). clearbody v.
  set (v1 := if 0x3FFF <? v then 0x3FFF else v). assert (v1 <= 0x3FFF) by (unfold v1; case_if; lia). clearbody v1.
  set (v2 := if v1 <? -0x4000 then -0x4000 else v1). assert (-0x4000 <= v2 <= 0x3FFF) by (unfold v2; case_if; lia). clearbody v2.
  rewrite s16_id; lia.
Qed.

Lemma voice_reg_range s i r : Ok s -> 0 <= voice_reg s i r < 0x10000.
Proof. intros O. unfold voice_reg. apply (aget_Forall (fun x => 0 <= x < 0x10000)); [lia|apply O]. Qed.

Lemma scaled_range x v k : -32767 <= x <= 32766 -> -0x4000 <= v <= 0x3FFF -> k = 14 -> -32767 <= Z.shiftr (x * v) k <= 32767.
Proof.
  intros Hx Hv ->. rewrite Z.shiftr_div_pow2 by lia. change (2 ^ 14) with 16384.
  split; [apply Z.div_le_lower_bound|apply Z.lt_succ_r, Z.div_lt_upper_bound]; nia.
Qed.

(** Active voices below [k]. *)
Definition active_below (s : State) (k : Z) : Z := forZ 0 k (fun i n => if active (voice_at i s) then n + 1 else n) 0.

Lemma mix_voices_bound s k :
  0 <= k <= 24 -> Ok s ->
  let '(l, r, s') := forZ 0 k (mix_voice frame) (0, 0, s) in
  Z.abs l <= 32767 * active_below s k /\ Z.abs r <= 32767 * active_below s k /\ Ok s' /\
  spu_regs s' = spu_regs s /\ cd s' = cd s /\ forall j, k <= j -> voice_at j s' = voice_at j s.
Proof.
  intros Hk O. unfold active_below.
  apply (forZ_ind (fun k a => let '(l, r, s') := a in
    Z.abs l <= 32767 * forZ 0 k (fun i n => if active (voice_at i s) then n + 1 else n) 0 /\
    Z.abs r <= 32767 * forZ 0 k (fun i n => if active (voice_at i s) then n + 1 else n) 0 /\ Ok s' /\
    spu_regs s' = spu_regs s /\ cd s' = cd s /\ forall j, k <= j -> voice_at j s' = voice_at j s) 0 k); [lia|done|].
  intros i [[l r] s1] Hi (Hl & Hr & O1 & R & C & V). rewrite forZ_snoc by lia. unfold mix_voice.
  destruct (next_sample_exact i s1 ltac:(lia) O1) as (E & Hx & O2 & Hown).
  rewrite (V i) in E by lia.
  assert ((voice_next_sample frame i s1).1 = 0 \/ active (voice_at i s) = true) as Hz by (rewrite E; case_if; auto). clear E.
  set (b := active (voice_at i s)) in *. clearbody b.
  destruct (voice_next_sample frame i s1) as [x s2]. cbn [fst snd] in *.
  assert (forall j, i + 1 <= j -> voice_at j s2 = voice_at j s) as V2.
  { intros j Hj. rewrite (own_others _ _ _ Hown) by lia. apply V. lia. }
  assert (spu_regs s2 = spu_regs s /\ cd s2 = cd s) as [R2 C2] by (destruct Hown; split; congruence).
  pose proof (scaled_range x _ 14 Hx (direct_volume_range _ (voice_reg_range s2 i 0 O2)) eq_refl).
  pose proof (scaled_range x _ 14 Hx (direct_volume_range _ (voice_reg_range s2 i 1 O2)) eq_refl).
  destruct (Z.eqb_spec x 0) as [X|X]; [destruct b; (split_and!; [lia|lia|done..])|].
  destruct Hz as [Hz| ->]; [done|]. split_and!; [lia|lia|done..].
Qed.

Lemma reg_ok s i : Ok s -> 0 <= aget (spu_regs s) i < 0x10000.
Proof. intros O. apply (aget_Forall (fun x => 0 <= x < 0x10000)); [lia|apply O]. Qed.

Lemma cd_scaled x v : is_s16 x -> is_s16 v -> -32768 <= Z.shiftr (x * v) 15 <= 32768.
Proof.
  unfold is_s16. intros Hx Hv. rewrite Z.shiftr_div_pow2 by lia. change (2 ^ 15) with 32768.
  split; [apply Z.div_le_lower_bound|apply Z.lt_succ_r, Z.div_lt_upper_bound]; nia.
Qed.

Lemma Ok_cd s r : Ok s -> CdOk r -> Ok (s <| cd := r |>).
Proof. intros [] C. by split. Qed.

Lemma mix_cd_bound ctrl vl vr l r s :
  Ok s -> is_s16 vl -> is_s16 vr ->
  let '(l', r', s') := mix_cd ctrl vl vr (l, r, s) in
  Z.abs (l' - l) <= 32768 * b2z (has ctrl 1) /\ Z.abs (r' - r) <= 32768 * b2z (has ctrl 1) /\ Ok s' /\ spu_regs s' = spu_regs s.
Proof.
  intros O Hl Hr. unfold mix_cd. destruct (has ctrl 1); [|simpl; split_and!; try done; lia].
  pose proof (ok_cd s O) as C. pose proof (cd_pop_queue (cd s) C) as Q.
  destruct (queue (cd s)) as [|f q].
  - rewrite Q. split_and!; [simpl; lia..| |]; case_if; try done. apply Ok_cd; [done|]. destruct C. by split.
  - destruct Q as (_ & _ & C'). unfold cd_audio_pop in *. case_if.
    + split_and!; [simpl; lia..| |]; case_if; try done. apply Ok_cd; [done|]. destruct C. by split.
    + pose proof (cd_scaled _ _ (co_samples _ C (cd_read_pos (cd s) * 2)) Hl).
      pose proof (cd_scaled _ _ (co_samples _ C (cd_read_pos (cd s) * 2 + 1)) Hr).
      split_and!; [simpl; lia..|by apply Ok_cd|done].
Qed.

Lemma s16_ok x : is_s16 (s16 x).
Proof. pose proof (s16_range x). unfold is_s16. lia. Qed.

(** The sums of a frame before the main volume. *)
Definition frame_sums (s : State) : Z * Z * State :=
  mix_cd (aget (spu_regs s) (reg_index 0x1F801DAA)) (cd_input_volume (aget (spu_regs s) (reg_index 0x1F801DB0)))
    (cd_input_volume (aget (spu_regs s) (reg_index 0x1F801DB2))) (forZ 0 SPU_VOICE_COUNT (mix_voice frame) (0, 0, s)).
Definition routed_cd (s : State) : bool := has (aget (spu_regs s) (reg_index 0x1F801DAA)) 1.
Definition enabled (s : State) : bool := has (aget (spu_regs s) (reg_index 0x1F801DAA)) 0x8000.
Definition main_vol (s : State) : Z * Z :=
  (direct_volume (aget (spu_regs s) (reg_index 0x1F801D80)), direct_volume (aget (spu_regs s) (reg_index 0x1F801D82))).

Lemma frame_sums_bound s :
  Ok s ->
  let '(l, r, s') := frame_sums s in
  Z.abs l <= 32768 * (active_below s 24 + b2z (routed_cd s)) - active_below s 24 /\
  Z.abs r <= 32768 * (active_below s 24 + b2z (routed_cd s)) - active_below s 24 /\ Ok s' /\ spu_regs s' = spu_regs s.
Proof.
  intros O. unfold frame_sums, routed_cd. pose proof (mix_voices_bound s 24 ltac:(lia) O) as M.
  change SPU_VOICE_COUNT with 24. destruct (forZ 0 24 _ _) as [[l r] s1]. destruct M as (Hl & Hr & O1 & R & _).
  set (ctrl := aget (spu_regs s) (reg_index 0x1F801DAA)).
  pose proof (mix_cd_bound ctrl (cd_input_volume (aget (spu_regs s) (reg_index 0x1F801DB0)))
    (cd_input_volume (aget (spu_regs s) (reg_index 0x1F801DB2))) l r s1 O1 (s16_ok _) (s16_ok _)) as B.
  destruct (mix_cd _ _ _ _) as [[l' r'] s2]. destruct B as (Bl & Br & O2 & R2). split_and!; [lia|lia|done|congruence].
Qed.

Lemma mix_frame_eq s :
  mix_frame frame s =
    if enabled s then let '(l, r, s') := frame_sums s in (main_scale l (main_vol s).1, main_scale r (main_vol s).2, s') else (0, 0, s).
Proof. done. Qed.

Lemma main_scale_exact l v : Z.abs l <= 131071 -> -0x4000 <= v <= 0x3FFF -> main_scale l v = l * v / 2 ^ 14.
Proof. intros Hl Hv. unfold main_scale. rewrite s32_id by nia. by rewrite Z.shiftr_div_pow2 by lia. Qed.

(** ** Every reachable state *)

Lemma mix_frame_ok s : Ok s -> Ok (mix_frame frame s).2.
Proof.
  intros O. rewrite mix_frame_eq. case_if; [|done]. pose proof (frame_sums_bound s O) as B.
  destruct (frame_sums s) as [[l r] s']. apply B.
Qed.

Lemma render_frame_ok a : Ok a.2 -> Ok (render_frame frame a).2.
Proof.
  destruct a as [[out bp] s]. intros O. unfold render_frame. pose proof (mix_frame_ok s O) as M.
  destruct (mix_frame frame s) as [[l r] s']. cbn in *. cbv zeta. case_if; [|exact M]. revert M. by apply Ok_same.
Qed.

Lemma render_ok n s : Ok s -> Ok (spu_render frame n s).2.
Proof.
  intros O. unfold spu_render. case_if; [done|].
  assert (Ok (ziter (render_frame frame) n ([], 0, s)).2) as R
    by (apply (ziter_ind (render_frame frame) (fun a => Ok a.2)); [done|apply render_frame_ok]).
  destruct (ziter _ _ _) as [[out bp] s']. cbn in *. revert R. by apply Ok_same.
Qed.

Lemma key_on_voice_ok i s : 0 <= i < 24 -> Ok s -> Ok (key_on_voice frame i s).
Proof.
  intros Hi O. unfold key_on_voice. cbv zeta. apply Ok_event. set (v := _ <| adsr_phase := ADSR_ATTACK |>).
  assert (VoiceOk v) as V.
  { pose proof voice_zero_ok as []. split; cbn; try done; try apply ram_mask; unfold SPU_BLOCK_SAMPLES, ADSR_ATTACK; lia. }
  destruct (Ok_set_voice i v s O V) as [P1 P2 P3 P4 P5 P6]. split; try done. apply (ldiff_range 24); [lia|done].
Qed.

Lemma key_on_ok mask s : Ok s -> Ok (key_on frame mask s).
Proof.
  intros O. unfold key_on. apply forZ_inv; [done|]. intros i x Hi Hx. case_if; [done|]. by apply key_on_voice_ok.
Qed.

Lemma key_off_ok mask s : Ok s -> Ok (key_off frame mask s).
Proof.
  intros O. unfold key_off. apply forZ_inv; [done|]. intros i x Hi Hx. repeat case_if; try done.
  unfold on_voice. apply Ok_set_voice; [by apply Ok_event|].
  pose proof (voice_at_ok i x Hx) as []. split; try done; cbn; unfold ADSR_RELEASE; lia.
Qed.

Lemma wrap_ram a k : 0 <= a < SPU_RAM_SIZE -> 0 <= (a + k) mod SPU_RAM_SIZE < SPU_RAM_SIZE.
Proof. intros. apply Z.mod_pos_bound. unfold SPU_RAM_SIZE. lia. Qed.

Lemma fifo_write_ok v s : Ok s -> Ok (fifo_write v s).
Proof.
  intros [R V T M X C]. unfold fifo_write. cbv zeta. pose proof (wrap_ram (transfer_addr s) 2 T).
  case_if; split; try done. cbn. repeat (apply store_ok; [lia|]). done.
Qed.

Lemma dma_write_ok w s : Ok s -> Ok (spu_dma_write w s).
Proof.
  intros [R V T M X C]. unfold spu_dma_write. cbv zeta. pose proof (wrap_ram (transfer_addr s) 4 T).
  case_if; split; try done. cbn. repeat (apply store_ok; [lia|]). done.
Qed.

Lemma spu_write_ok addr v s : Ok s -> Ok (spu_write frame addr v s).
Proof.
  intros O. unfold spu_write. cbv zeta. case_if; [|done]. case_if; [|done].
  set (s0 := s <| spu_regs := _ |>).
  assert (Ok s0) as O0.
  { destruct O as [[L R] V T M X C]. split; try done. cbn. split; [by rewrite length_aset|]. apply aset_Forall; [apply u16_range|done]. }
  clearbody s0. set (s1 := if addr =? 0x1F801D88 then _ else s0).
  assert (Ok s1) as O1 by (unfold s1; case_if; [|done]; apply key_on_ok; revert O0; by apply Ok_same). clearbody s1.
  set (s2 := if addr =? 0x1F801D8A then _ else s1).
  assert (Ok s2) as O2 by (unfold s2; case_if; [|done]; apply key_on_ok; revert O1; by apply Ok_same). clearbody s2.
  set (s3 := if addr =? 0x1F801D8C then _ else s2).
  assert (Ok s3) as O3 by (unfold s3; case_if; [|done]; apply key_off_ok; revert O2; by apply Ok_same). clearbody s3.
  set (s4 := if addr =? 0x1F801D8E then _ else s3).
  assert (Ok s4) as O4 by (unfold s4; case_if; [|done]; apply key_off_ok; revert O3; by apply Ok_same). clearbody s4.
  set (s5 := if addr =? 0x1F801DA6 then _ else s4).
  assert (Ok s5) as O5.
  { unfold s5. case_if; [|done]. destruct O4. split; try done. cbn. pose proof (u16_range v).
    rewrite Z.shiftl_mul_pow2 by lia. case_if; unfold SPU_RAM_SIZE in *; lia. }
  clearbody s5. case_if; [by apply fifo_write_ok|done].
Qed.

Lemma init_ok : Ok spu_init.
Proof.
  split; cbn; try lia.
  - split; [done|]. apply (Forall_replicate _ 256). lia.
  - split; [done|]. apply (Forall_replicate _ 24), voice_zero_ok.
  - unfold SPU_RAM_SIZE. lia.
  - intros a x Hx. by rewrite lookup_empty in Hx.
  - split; cbn; [unfold N, SPU_CD_RING_FRAMES; lia..|done| | |lia].
    + intros i. unfold cd_ring_at. cbn. rewrite lookup_empty. cbn. unfold is_s16. lia.
    + intros i [x Hx]. by rewrite lookup_empty in Hx.
Qed.

Lemma cd_reset_ok s : Ok s -> Ok (spu_cd_audio_reset s).
Proof. intros O. apply (Ok_cd s _ O), (ok_cd _ init_ok). Qed.

Lemma cd_push_ok st n s : Forall is_s16 st -> n < 0x80000000 -> Ok s -> Ok (spu_cd_audio_push st n s).
Proof.
  intros Hst Hn O. apply (Ok_cd s); [done|]. destruct (Z.leb_spec n 0) as [L|L].
  - unfold cd_push. rewrite (proj2 (Z.leb_le n 0) L). apply O.
  - apply (cd_push_queue st n (cd s) (ok_cd s O) Hst). lia.
Qed.

End Render.

(** The guest, the drive, the DMA controller, the host mixer, the debugger and a
    boot snapshot, in any order. *)
Inductive reachable : State -> Prop :=
  | reach_init : reachable spu_init
  | reach_write fr addr v s : reachable s -> reachable (spu_write fr addr v s)
  | reach_dma w s : reachable s -> reachable (spu_dma_write w s)
  | reach_render fr n s : reachable s -> reachable (spu_render fr n s).2
  | reach_cd_push st n s : Forall is_s16 st -> n < 0x80000000 -> reachable s -> reachable (spu_cd_audio_push st n s)
  | reach_cd_reset s : reachable s -> reachable (spu_cd_audio_reset s)
  | reach_event_reset s : reachable s -> reachable (spu_event_reset s)
  | reach_restore s s' : reachable s -> reachable s' -> reachable (spu_snapshot_read (spu_snapshot_write s) s').

Lemma reachable_ok s : reachable s -> Ok s.
Proof.
  induction 1 as [|fr addr v s _ IH|w s _ IH|fr n s _ IH|st n s Hst Hn _ IH|s _ IH|s _ IH|s s' _ IH _ IH'].
  - apply init_ok.
  - by apply spu_write_ok.
  - by apply dma_write_ok.
  - by apply render_ok.
  - by apply cd_push_ok.
  - by apply cd_reset_ok.
  - revert IH. by apply Ok_same.
  - destruct IH, IH'. by split.
Qed.

(** Five voices that play the loudest sample at full volume: the block is stored
    by DMA, the voices are set up and keyed on through their registers. *)
Definition setup_voice (s : State) (i : Z) : State :=
  fold_left (fun s '(o, v) => spu_write 0 (0x1F801C00 + 16 * i + o) v s)
    [(0, 0x3FFF); (2, 0x3FFF); (4, 0x1000); (6, 0); (8, 0x000F); (10, 0)] s.
Definition loud (n : Z) : State :=
  let s := fold_left (fun s w => spu_dma_write w s) [0x77770700; 0x77777777; 0x77777777; 0x77777777] spu_init in
  let s := fold_left (fun s '(a, v) => spu_write 0 a v s) [(0x1F801DAA, 0x8000); (0x1F801D80, 0x3FFF); (0x1F801D82, 0x3FFF)] s in
  spu_write 0 0x1F801D88 (2 ^ n - 1) (fold_left setup_voice (seqZ 0 n) s).

Lemma reach_fold {A} (f : State -> A -> State) l s :
  (forall s a, reachable s -> reachable (f s a)) -> reachable s -> reachable (fold_left f l s).
Proof. intros Hf. revert s. induction l as [|a l IH]; intros s Hs; simpl; [done|]. apply IH, Hf, Hs. Qed.

Lemma loud_reachable n : reachable (loud n).
Proof.
  unfold loud. apply reach_write. apply reach_fold.
  { intros s i Hs. unfold setup_voice. apply reach_fold; [|done]. intros s' [o v]. apply reach_write. }
  apply reach_fold; [intros s [a v]; apply reach_write|]. apply reach_fold; [intros s w; apply reach_dma|apply reach_init].
Qed.

(** C21: Every reachable state of the sound processor is in bounds: for every
    voice the block it would decode next lies in sample RAM, the sample it plays
    lies in its 28-sample buffer, its envelope is at most 0x7FFF and its output
    sample fits in 16 bits without clamping; the transfer address stays in
    sample RAM and nothing is stored outside it; ENDX has 24 bits; the CD
    cursors stay in their ring. *)
Theorem spu_reachable_safe fr s :
  reachable s ->
  (forall i, 0 <= i < 24 ->
     let v := voice_at i s in let v' := voice_at i (refilled fr i s) in
     0 <= block_addr v /\ block_addr v + 16 <= SPU_RAM_SIZE /\ 0 <= env_level v <= 0x7FFF /\
     length (samples v') = 28%nat /\ 0 <= sample_idx v' < 28 /\
     (voice_next_sample fr i s).1 =
       (if active v then aget (samples v') (sample_idx v') * env_level v' / 2 ^ 15 else 0) /\
     -32767 <= (voice_next_sample fr i s).1 <= 32766) /\
  0 <= transfer_addr s < SPU_RAM_SIZE /\ (forall a x, spu_ram s !! a = Some x -> 0 <= a < SPU_RAM_SIZE /\ 0 <= x < 256) /\
  0 <= endx_latch s < 2 ^ 24 /\ CdOk (cd s).
Proof.
  intros R. pose proof (reachable_ok s R) as O. split; [|exact (conj (ok_transfer s O) (conj (ok_ram s O) (conj (ok_endx s O) (ok_cd s O))))].
  intros i Hi. cbv zeta. pose proof (voice_at_ok i s O) as V. destruct (refilled_ok fr i s Hi O) as (_ & [V' Hi'] & _).
  destruct (next_sample_exact fr i s Hi O) as (E & Hr & _). rewrite Z.shiftr_div_pow2 in E by lia.
  pose proof (block_addr_range (voice_at i s)) as [B1 B2]. pose proof (vo_idx _ V') as [I1 _].
  exact (conj B1 (conj B2 (conj (vo_env _ V) (conj (vo_length _ V') (conj (conj I1 Hi') (conj E Hr)))))).
Qed.

(** C22: The mixer computes what it means to while at most four inputs sound
    (voices, and the CD when routed): the frame is the sums scaled by the main
    volume, with no 32-bit overflow.  The bound is tight: five voices overflow
    the product with the main volume, and a positive sum comes out negative. *)
Theorem mix_exact_four_voices fr :
  (forall s, reachable s -> active_below s 24 + b2z (routed_cd s) <= 4 -> enabled s = true ->
     let '(l, r, s') := frame_sums fr s in
     mix_frame fr s = (l * (main_vol s).1 / 2 ^ 14, r * (main_vol s).2 / 2 ^ 14, s')) /\
  (exists s, reachable s /\ active_below s 24 = 5 /\ enabled s = true /\
     let '(l, r, s') := frame_sums 0 s in 0 < l * (main_vol s).1 /\ (mix_frame 0 s).1.1 < -32768).
Proof.
  split.
  - intros s R A E. pose proof (reachable_ok s R) as O. rewrite mix_frame_eq, E.
    pose proof (frame_sums_bound fr s O) as B. destruct (frame_sums fr s) as [[l r] s']. destruct B as (Bl & Br & _).
    pose proof (direct_volume_range _ (reg_ok s (reg_index 0x1F801D80) O)).
    pose proof (direct_volume_range _ (reg_ok s (reg_index 0x1F801D82) O)).
    assert (0 <= active_below s 24) by (unfold active_below; apply forZ_inv; [done|]; intros; case_if; lia).
    assert (0 <= b2z (routed_cd s) <= 1) by (destruct (routed_cd s); simpl; lia).
    rewrite !main_scale_exact by (try done; unfold main_vol; cbn [fst snd]; lia). done.
  - exists (spu_render 0 3 (loud 5)).2. split; [apply reach_render, loud_reachable|].
    split; [vm_compute; reflexivity|]. split; [vm_compute; reflexivity|]. vm_compute. done.
Qed.

(** ** Rendering in pieces *)

Lemma forZ_commute {A} lo hi (f : Z -> A -> A) (g : A -> A) a :
  (forall i x, f i (g x) = g (f i x)) -> forZ lo hi f (g a) = g (forZ lo hi f a).
Proof.
  intros H. unfold forZ. revert a. induction (seqZ lo (hi - lo)) as [|i l IH]; intros a; simpl; [done|]. by rewrite H, IH.
Qed.
Lemma ziter_commute {A} (f g : A -> A) n a : (forall x, f (g x) = g (f x)) -> ziter f n (g a) = g (ziter f n a).
Proof. intros H. unfold ziter. induction (Z.to_nat n) as [|k IH]; simpl; [done|]. by rewrite IH, H. Qed.

(** The statistics of a block, which nothing else reads. *)
Definition marks (rf lp pk : Z) (s : State) : State := s <| render_frames := rf |> <| last_peak := lp |> <| peak := pk |>.

Section Pieces.
Context (fr rf lp pk : Z).
Abbreviation M := (marks rf lp pk).

Lemma decode_marks i s : decode_block i (M s) = M (decode_block i s).
Proof. unfold decode_block. cbv zeta. change (ram_byte (M s)) with (ram_byte s). change (voice_at i (M s)) with (voice_at i s).
  change (decode_byte (M s)) with (decode_byte s). by case_if. Qed.
Lemma block_end_marks i s : voice_block_end fr i (M s) = M (voice_block_end fr i s).
Proof. unfold voice_block_end. cbv zeta. change (voice_at i (M s)) with (voice_at i s). by repeat case_if. Qed.

Lemma next_sample_marks i s : voice_next_sample fr i (M s) = let '(x, s') := voice_next_sample fr i s in (x, M s').
Proof.
  unfold voice_next_sample. change (voice_at i (M s)) with (voice_at i s). case_if; [done|]. cbv zeta.
  assert ((if SPU_BLOCK_SAMPLES <=? sample_idx (voice_at i s) then decode_block i (voice_block_end fr i (M s)) else M s) =
          M (if SPU_BLOCK_SAMPLES <=? sample_idx (voice_at i s) then decode_block i (voice_block_end fr i s) else s)) as ->
    by (case_if; [by rewrite block_end_marks, decode_marks|done]).
  done.
Qed.

Lemma mix_voice_marks i a : mix_voice fr i (a.1, M a.2) = ((mix_voice fr i a).1, M (mix_voice fr i a).2).
Proof.
  destruct a as [[l r] s]. unfold mix_voice. cbn [fst snd]. rewrite next_sample_marks.
  destruct (voice_next_sample fr i s) as [x s']. change (voice_reg (M s')) with (voice_reg s'). by case_if.
Qed.

Lemma mix_frame_marks s : mix_frame fr (M s) = ((mix_frame fr s).1, M (mix_frame fr s).2).
Proof.
  rewrite !mix_frame_eq. change (enabled (M s)) with (enabled s). case_if; [|done]. unfold frame_sums.
  pose proof (forZ_commute 0 SPU_VOICE_COUNT (mix_voice fr) (fun a => (a.1, M a.2)) (0, 0, s) mix_voice_marks) as C.
  cbn [fst snd] in C. rewrite C. clear C. destruct (forZ 0 _ _ _) as [[l r] s']. cbn [fst snd].
  change (spu_regs (M s)) with (spu_regs s). change (main_vol (M s)) with (main_vol s).
  unfold mix_cd. change (cd (M s')) with (cd s'). case_if; [|done].
  destruct (cd_audio_pop (cd s')) as [[[cl cr]|] q]; [done|]. by case_if.
Qed.

Lemma render_frame_marks a : render_frame fr (a.1, M a.2) = ((render_frame fr a).1, M (render_frame fr a).2).
Proof.
  destruct a as [[out bp] s]. unfold render_frame. cbn [fst snd]. rewrite mix_frame_marks.
  destruct (mix_frame fr s) as [[l r] s']. cbv zeta. cbn [fst snd]. by destruct (negb _).
Qed.

(** What was rendered before only comes first. *)
Lemma render_frame_after out0 bp0 a :
  0 <= bp0 -> render_frame fr (out0 ++ a.1.1, Z.max bp0 a.1.2, a.2) =
    (out0 ++ (render_frame fr a).1.1, Z.max bp0 (render_frame fr a).1.2, (render_frame fr a).2).
Proof.
  intros H. destruct a as [[out bp] s]. unfold render_frame. cbn [fst snd].
  destruct (mix_frame fr s) as [[l r] s']. cbv zeta. cbn [fst snd]. rewrite app_assoc. f_equal. f_equal.
  btest; lia.
Qed.
End Pieces.

(** C26: The host may ask for audio in blocks of any size: rendering [n] frames
    and then [m] gives the samples, and leaves the state, of rendering [n + m]
    at once; only the peak of the last block, a statistic, differs. *)
Theorem spu_render_append fr n m s :
  0 < n -> 0 < m ->
  let '(o1, s1) := spu_render fr n s in
  let '(o2, s2) := spu_render fr m s1 in
  spu_render fr (n + m) s = (o1 ++ o2, s2 <| last_peak := Z.max (last_peak s1) (last_peak s2) |>).
Proof.
  intros Hn Hm. unfold spu_render. rewrite (proj2 (Z.leb_gt n 0)), (proj2 (Z.leb_gt m 0)), (proj2 (Z.leb_gt (n + m) 0)) by lia.
  rewrite ziter_add by lia.
  assert (0 <= (ziter (render_frame fr) n ([], 0, s)).1.2) as Hb.
  { apply (ziter_ind (render_frame fr) (fun a => 0 <= a.1.2)); [done|]. intros [[out bp] x] Hx. unfold render_frame.
    destruct (mix_frame fr x) as [[l r] s']. cbn in *. cbv zeta. btest; lia. }
  destruct (ziter (render_frame fr) n ([], 0, s)) as [[o1 b1] x1]. cbn [fst snd] in Hb.
  set (rf := u64 (render_frames x1 + n)). set (pk := if peak x1 <? b1 then b1 else peak x1).
  pose proof (ziter_commute (render_frame fr) (fun a => (a.1, marks rf b1 pk a.2)) m ([], 0, x1) (render_frame_marks fr rf b1 pk)) as C.
  cbn [fst snd] in C. change (x1 <| render_frames := rf |> <| last_peak := b1 |> <| peak := pk |>) with (marks rf b1 pk x1).
  rewrite C. clear C.
  pose proof (ziter_commute (render_frame fr) (fun a => (o1 ++ a.1.1, Z.max b1 a.1.2, a.2)) m ([], 0, x1)
    (fun a => render_frame_after fr o1 b1 a Hb)) as C.
  cbn [fst snd] in C. rewrite app_nil_r, Z.max_l in C by lia. rewrite C. clear C.
  (* nothing but the block's end writes the statistics *)
  pose proof (ziter_commute (render_frame fr) (fun a => (a.1, marks (render_frames x1) (last_peak x1) (peak x1) a.2)) m ([], 0, x1)
    (render_frame_marks fr _ _ _)) as C.
  cbn [fst snd] in C. change (marks (render_frames x1) (last_peak x1) (peak x1) x1) with x1 in C.
  destruct (ziter (render_frame fr) m ([], 0, x1)) as [[o2 b2] x2]. cbn [fst snd] in *.
  assert (x2 = marks (render_frames x1) (last_peak x1) (peak x1) x2) as E by congruence.
  assert (render_frames x2 = render_frames x1 /\ peak x2 = peak x1) as [Er Ep] by (by rewrite E).
  assert ((if pk <? b2 then b2 else pk) = (if peak x1 <? Z.max b1 b2 then Z.max b1 b2 else peak x1)) as Epk
    by (unfold pk; clear; btest; lia).
  f_equal. unfold marks. cbn. rewrite Er, Ep, Epk. unfold rf. by rewrite u64_add.
Qed.

End SpuRender.
