(* ===== verification/SpuVoices.v ===== *)
(** * Sound processing unit: voices and transfers

    Progress of the envelopes ([envelope_progress]), ADPCM blocks as a recurrence
    ([adpcm_recurrence]), the two ways into sample RAM ([spu_transfer_exact]),
    and the theorems on the sound processor applied to concrete inputs. *)

From S2P Require Import Prelude Spu SpuLaws SpuRender.
Import Spu SpuLaws SpuRender.

Module SpuVoices.

(** ** Envelope rates *)

(** The rates below the one that never moves: the divider advances, and the
    increment is bounded away from zero. *)
Definition release_rate (Rr : Z) : Z * Z := calc_vc_delta 0x7C (Rr * 4) false true true 0.

Lemma release_rates Rr :
  0 <= Rr < 32 ->
  -16384 <= (release_rate Rr).1 <= -1 /\ 0 <= (release_rate Rr).2 <= 32768 /\ ((release_rate Rr).2 = 0 <-> Rr = 31).
Proof.
  intros H. pose proof (forallb_seqZ (fun r => let '(i, d) := release_rate r in
    (-16384 <=? i) && (i <=? -1) && (0 <=? d) && (d <=? 32768) && Bool.eqb (d =? 0) (r =? 31)) 0 32 ltac:(vm_compute; reflexivity) Rr H) as E.
  cbv beta in E. destruct (release_rate Rr) as [i d]. apply andb_true_iff in E as [E B]. apply Bool.eqb_prop in B. cbn. lia.
Qed.

Lemma adsr_rate_release raw level :
  let '(i, d) := release_rate (Z.land (Z.shiftr raw 16) 0x1F) in
  adsr_rate raw ADSR_RELEASE level = Some (if Z.testbit raw 21 then Z.shiftr (level * i) 15 else i, d, 0).
Proof.
  unfold adsr_rate, release_rate. cbv zeta. unfold ADSR_RELEASE, ADSR_ATTACK, ADSR_DECAY, ADSR_SUSTAIN.
  change (3 =? 0) with false. change (3 =? 1) with false. change (3 =? 2) with false. change (3 =? 3) with true. cbv iota.
  change (Z.shiftl 0x1F 2) with 0x7C. rewrite (Z.shiftl_mul_pow2 (Z.land (Z.shiftr raw 16) 0x1F)) by lia. change (2 ^ 2) with 4.
  unfold calc_vc_delta. cbv zeta iota. by destruct (Z.testbit raw 21).
Qed.

(** The attack rates, level by level. *)
Lemma attack_rates Ar lm level :
  0 <= Ar < 0x7F -> 0 <= level <= 0x7FFF ->
  1 <= (calc_vc_delta 0x7F Ar lm false false level).1 <= 14336 /\ 1 <= (calc_vc_delta 0x7F Ar lm false false level).2 <= 32768.
Proof.
  intros Ha Hl.
  assert (calc_vc_delta 0x7F Ar lm false false level = calc_vc_delta 0x7F Ar lm false false (if 0x6000 <=? level then 0x6000 else 0)) as ->.
  { unfold calc_vc_delta. cbv zeta. change 0x7FFF with (Z.ones 15). rewrite !Z.land_ones by lia. change (2 ^ 15) with 0x8000.
    rewrite (Z.mod_small level) by lia. by destruct (0x6000 <=? level). }
  pose proof (forallb_seqZ (fun a => forallb (fun '(m, l) => let '(i, d) := calc_vc_delta 0x7F a m false false l in
    (1 <=? i) && (i <=? 14336) && (1 <=? d) && (d <=? 32768)) [(true, 0x6000); (true, 0); (false, 0x6000); (false, 0)]) 0 0x7F
    ltac:(vm_compute; reflexivity) Ar Ha) as B. cbv beta in B.
  rewrite forallb_forall in B.
  specialize (B (lm, if 0x6000 <=? level then 0x6000 else 0)). cbv beta iota in B.
  destruct (calc_vc_delta _ _ _ _ _ _) as [i d]. cbn.
  assert (In (lm, if 0x6000 <=? level then 0x6000 else 0) [(true, 0x6000); (true, 0); (false, 0x6000); (false, 0)]) as Hin
    by (destruct lm, (0x6000 <=? level); cbn; auto).
  specialize (B Hin). lia.
Qed.

(** ** Envelope steps *)

Ltac phases :=
  repeat match goal with
  | |- context [ADSR_RELEASE =? ADSR_ATTACK] => change (ADSR_RELEASE =? ADSR_ATTACK) with false
  | |- context [ADSR_RELEASE =? ADSR_DECAY] => change (ADSR_RELEASE =? ADSR_DECAY) with false
  | |- context [ADSR_ATTACK =? ADSR_ATTACK] => change (ADSR_ATTACK =? ADSR_ATTACK) with true
  | |- context [ADSR_ATTACK =? ADSR_DECAY] => change (ADSR_ATTACK =? ADSR_DECAY) with false
  end; cbn [andb]; cbv iota.

(** What is left of an envelope that falls, and of one that rises: level times
    the divider's period, less what the divider has counted. *)
Definition fall_left (v : SpuVoice) : Z := env_level v * 0x8000 - adsr_divider v.
Definition rise_left (v : SpuVoice) : Z := (0x7FFF - env_level v) * 0x8000 - adsr_divider v.

Lemma release_step raw v :
  VoiceOk v -> adsr_phase v = ADSR_RELEASE ->
  let Rr := Z.land (Z.shiftr raw 16) 0x1F in
  let v' := adsr_run raw v in
  adsr_phase v' = ADSR_RELEASE /\ env_level v' <= env_level v /\
  (Rr = 31 -> env_level v' = env_level v) /\ (Rr < 31 -> 0 < env_level v -> fall_left v' < fall_left v).
Proof.
  intros [V1 V2 V3 V4 V5 V6 V7 V8 V9 V10] Hp. cbv zeta. unfold adsr_run. cbv zeta. rewrite Hp. phases. rewrite Hp. rewrite s16_id by lia. pose proof (adsr_rate_release raw (env_level v)) as R.
  pose proof (land_bounds (Z.shiftr raw 16) 0x1F 5 ltac:(lia) eq_refl) as Hr. set (Rr := Z.land (Z.shiftr raw 16) 0x1F) in *. clearbody Rr.
  destruct (release_rates Rr ltac:(lia)) as (Hi & Hd & Hz). destruct (release_rate Rr) as [i d]. cbn [fst snd] in *. rewrite R.
  set (inc := if Z.testbit raw 21 then _ else i).
  assert (-16384 <= inc <= 0 /\ (0 < env_level v -> inc <= -1)) as [Hinc Hneg].
  { unfold inc. case_if; [|lia]. rewrite Z.shiftr_div_pow2 by lia. change (2 ^ 15) with 32768.
    split; [split; [apply Z.div_le_lower_bound; nia|apply Z.div_le_upper_bound; nia]|].
    intros Hpos. apply Z.lt_pred_le || idtac. assert (env_level v * i / 32768 < 0) by (apply Z.div_lt_upper_bound; nia). lia. }
  clearbody inc. cbn. rewrite Hp. phases.
  rewrite u32_id, has_8000 by lia. unfold fall_left.
  destruct (Z.leb_spec 0x8000 (adsr_divider v + d)) as [L|L]; [|cbn; split_and!; [done|lia|lia|lia]].
  pose proof (u16_range (env_level v + inc)) as Hu. rewrite has_8000 by done. change (u16 0) with 0.
  destruct (Z.leb_spec 0x8000 (u16 (env_level v + inc))) as [B|B]; cbn; rewrite ?Hp; phases; cbn.
  - split_and!; [done|lia|lia|lia].
  - assert (0 <= env_level v + inc) by (unfold u16 in B; dlia). rewrite u16_id by lia. split_and!; [done|lia|lia|lia].
Qed.

Lemma attack_step raw v :
  VoiceOk v -> adsr_phase v = ADSR_ATTACK -> env_level v < 0x7FFF -> Z.land (Z.shiftr raw 8) 0x7F < 0x7F ->
  let v' := adsr_run raw v in
  adsr_phase v' = ADSR_ATTACK /\ env_level v <= env_level v' /\ rise_left v' < rise_left v.
Proof.
  intros [V1 V2 V3 V4 V5 V6 V7 V8 V9 V10] Hp Hlt Hr. cbv zeta. unfold adsr_run. cbv zeta. rewrite Hp. phases.
  rewrite (proj2 (Z.eqb_neq (env_level v) 0x7FFF)) by lia. cbn [andb]. rewrite Hp, s16_id by lia.
  unfold adsr_rate. cbv zeta. phases.
  pose proof (land_bounds (Z.shiftr raw 8) 0x7F 7 ltac:(lia) eq_refl) as Ha. set (Ar := Z.land (Z.shiftr raw 8) 0x7F) in *. clearbody Ar.
  destruct (attack_rates Ar (Z.testbit raw 15) (env_level v) ltac:(lia) ltac:(lia)) as [Hi Hd].
  destruct (calc_vc_delta _ _ _ _ _ _) as [inc d]. cbn [fst snd] in *. cbn. rewrite Hp. phases.
  rewrite u32_id, has_8000 by lia. unfold rise_left.
  destruct (Z.leb_spec 0x8000 (adsr_divider v + d)) as [L|L]; [|cbn; split_and!; [done|lia|lia]].
  rewrite u16_id by lia. change (u16 0x7FFF) with 0x7FFF.
  rewrite rollover by lia.
  destruct (Z.leb_spec 0x8000 (env_level v + inc)); cbn; rewrite ?Hp; phases; cbn; (split_and!; [done|lia|lia]).
Qed.

(** Iterating a step while a natural measure runs out. *)
Lemma runs_out {A} (f : A -> A) (I : A -> Prop) (m : A -> Z) (stop : A -> Prop) a :
  (forall x, Decision (stop x)) ->
  (forall x, I x -> 0 <= m x) -> (forall x, I x -> ~ stop x -> I (f x) /\ m (f x) < m x) -> I a ->
  exists k, 0 <= k <= m a /\ I (ziter f k a) /\ stop (ziter f k a).
Proof.
  intros Dec Hm Hf. assert (forall n x, I x -> m x <= Z.of_nat n -> exists k, 0 <= k <= m x /\ I (ziter f k x) /\ stop (ziter f k x)) as H.
  { induction n as [|n IH]; intros x Ix Hx.
    - exists 0. rewrite ziter_0. specialize (Hm x Ix) as Hm'. split; [lia|]. split; [done|].
      destruct (Dec x) as [|Hs]; [done|]. destruct (Hf x Ix Hs) as [If Hlt]. specialize (Hm (f x) If). lia.
    - destruct (Dec x) as [Hs|Hs]; [exists 0; split; [specialize (Hm x Ix); lia|by rewrite ziter_0]|].
      destruct (Hf x Ix Hs) as [If Hlt]. destruct (IH (f x) If ltac:(lia)) as (k & Hk & Ik & Sk).
      exists (1 + k). rewrite ziter_add, ziter_1 by lia. split; [lia|done]. }
  intros Ia. apply (H (Z.to_nat (m a)) a Ia). specialize (Hm a Ia). lia.
Qed.

(** C23: Envelopes make progress.  A rising one (any attack rate but the slowest)
    reaches full level within 2^15 steps per level it still has to climb; a released one never rises, and reaches silence within the
    same bound, unless its rate is the slowest, which holds it for ever. *)
Theorem envelope_progress raw v :
  VoiceOk v ->
  (adsr_phase v = ADSR_ATTACK -> Z.land (Z.shiftr raw 8) 0x7F < 0x7F ->
     exists k, 0 <= k <= (0x7FFF - env_level v) * 0x8000 /\
       adsr_phase (ziter (adsr_run raw) k v) = ADSR_ATTACK /\ env_level (ziter (adsr_run raw) k v) = 0x7FFF) /\
  (adsr_phase v = ADSR_RELEASE ->
     (forall n, 0 <= n -> adsr_phase (ziter (adsr_run raw) n v) = ADSR_RELEASE /\ env_level (ziter (adsr_run raw) n v) <= env_level v) /\
     (if Z.land (Z.shiftr raw 16) 0x1F =? 31
      then forall n, 0 <= n -> env_level (ziter (adsr_run raw) n v) = env_level v
      else exists k, 0 <= k <= env_level v * 0x8000 /\ forall n, k <= n -> env_level (ziter (adsr_run raw) n v) = 0)).
Proof.
  intros V. split.
  - intros Hp Ha.
    destruct (runs_out (adsr_run raw) (fun x => VoiceOk x /\ adsr_phase x = ADSR_ATTACK)
      (fun x => Z.max 0 (rise_left x)) (fun x => env_level x = 0x7FFF) v) as (k & Hk & [_ Pk] & Ek).
    + intros x. apply Z.eq_dec.
    + lia.
    + intros x [Vx Px] Hne. pose proof (vo_env x Vx). pose proof (vo_divider x Vx).
      destruct (attack_step raw x Vx Px ltac:(lia) Ha) as (P' & _ & L). split; [by split; [apply adsr_run_ok|]|].
      unfold rise_left in *. lia.
    + done.
    + exists k. pose proof (vo_divider v V). pose proof (vo_env v V). split; [unfold rise_left in Hk; lia|done].
  - intros Hp. set (Rr := Z.land (Z.shiftr raw 16) 0x1F).
    assert (forall x n, VoiceOk x -> adsr_phase x = ADSR_RELEASE ->
      VoiceOk (ziter (adsr_run raw) n x) /\ adsr_phase (ziter (adsr_run raw) n x) = ADSR_RELEASE /\
      env_level (ziter (adsr_run raw) n x) <= env_level x /\ (Rr = 31 -> env_level (ziter (adsr_run raw) n x) = env_level x)) as Hn.
    { intros x n Vx Px. apply (ziter_ind (adsr_run raw) (fun y => VoiceOk y /\ adsr_phase y = ADSR_RELEASE /\
        env_level y <= env_level x /\ (Rr = 31 -> env_level y = env_level x))); [done|].
      intros y (Vy & Py & L & S). destruct (release_step raw y Vy Py) as (P' & L' & S' & _).
      split_and!; [by apply adsr_run_ok|done|lia|intros; rewrite S', S; done]. }
    split; [intros n _; split; apply (Hn v n V Hp)|].
    destruct (Z.eqb_spec Rr 31) as [E|E]; [intros n _; by apply (Hn v n V Hp)|].
    pose proof (land_bounds (Z.shiftr raw 16) 0x1F 5 ltac:(lia) eq_refl) as Hr. fold Rr in Hr.
    destruct (runs_out (adsr_run raw) (fun x => VoiceOk x /\ adsr_phase x = ADSR_RELEASE)
      (fun x => Z.max 0 (fall_left x)) (fun x => env_level x = 0) v) as (k & Hk & [Vk Pk] & Ek).
    + intros x. apply Z.eq_dec.
    + lia.
    + intros x [Vx Px] Hne. pose proof (vo_env x Vx). pose proof (vo_divider x Vx).
      destruct (release_step raw x Vx Px) as (P' & _ & _ & L). split; [by split; [apply adsr_run_ok|]|].
      specialize (L ltac:(fold Rr; lia) ltac:(lia)). unfold fall_left in *. lia.
    + done.
    + exists k. pose proof (vo_divider v V). split; [unfold fall_left in Hk; pose proof (vo_env v V); lia|].
      intros n Hn'. replace n with (k + (n - k)) by lia. rewrite ziter_add by lia.
      destruct (Hn _ (n - k) Vk Pk) as (Vn & _ & L & _). pose proof (vo_env _ Vn). lia.
Qed.

(** ** ADPCM *)

(** Header fields of a block and its [n]-th 4-bit sample, low nibble first. *)
Definition block_shift (s : State) (v : SpuVoice) : Z := Z.min 12 (ram_byte s (block_addr v) mod 16).
Definition block_filter (s : State) (v : SpuVoice) : Z :=
  let f := ram_byte s (block_addr v) / 16 in if 4 <? f then 0 else f.
Definition block_nibble (s : State) (v : SpuVoice) (n : Z) : Z :=
  let b := ram_byte s (block_addr v + 2 + n / 2) in
  let x := if n mod 2 =? 0 then b mod 16 else b / 16 in if 8 <=? x then x - 16 else x.

(** The output of a block, with the two samples before it at -1 and -2. *)
Definition played (v w : SpuVoice) (n : Z) : Z :=
  if n =? -1 then hist1 v else if n =? -2 then hist2 v else aget (samples w) n.

(** The recurrence of the codec. *)
Definition predicts (s : State) (v w : SpuVoice) (n : Z) : Prop :=
  played v w n = clamp16 (block_nibble s v n * 4096 / 2 ^ block_shift s v +
    (played v w (n - 1) * aget f0 (block_filter s v) + played v w (n - 2) * aget f1 (block_filter s v) + 32) / 64).

(** After [k] samples of the block. *)
Definition partly (s : State) (v : SpuVoice) (k : Z) (a : SpuVoice * Z) : Prop :=
  a.2 = k /\ length (samples a.1) = 28%nat /\ hist1 a.1 = played v a.1 (k - 1) /\ hist2 a.1 = played v a.1 (k - 2) /\
  forall n, 0 <= n < k -> predicts s v a.1 n.

Lemma partly_next s v k a x :
  0 <= k < 28 -> 0 <= x < 16 -> block_nibble s v k = (if 8 <=? x then x - 16 else x) -> partly s v k a ->
  partly s v (k + 1) (decode_nibble (block_filter s v) (block_shift s v) x a.1 a.2, a.2 + 1).
Proof.
  intros Hk Hx Hn (Ek & Hl & H1 & H2 & Hp). rewrite Ek. unfold decode_nibble. cbv zeta.
  assert ((if has x 8 then x - 16 else x) = block_nibble s v k) as ->.
  { rewrite Hn. assert (has x 8 = (8 <=? x)) as ->; [|done].
    pose proof (forallb_seqZ (fun x => Bool.eqb (has x 8) (8 <=? x)) 0 16 eq_refl x ltac:(lia)) as B. by apply Bool.eqb_prop in B. }
  assert (0 <= block_shift s v) as Hs by (unfold block_shift; dlia).
  rewrite Z.shiftl_mul_pow2, !Z.shiftr_div_pow2, H1, H2 by lia. change (2 ^ 12) with 4096. change (2 ^ 6) with 64.
  set (y := clamp16 _). set (w := _ <| samples := _ |>).
  assert (forall n, -2 <= n < k -> played v w n = played v a.1 n) as Hold.
  { intros n Hr. unfold played, w. cbn. destruct (Z.eqb_spec n (-1)), (Z.eqb_spec n (-2)); try done. by rewrite aget_aset_ne by lia. }
  assert (played v w k = y) as Hnew.
  { unfold played, w. cbn. rewrite (proj2 (Z.eqb_neq k (-1))), (proj2 (Z.eqb_neq k (-2))) by lia. apply aget_aset_eq. lia. }
  split; [done|]. split; [unfold w; cbn; by rewrite length_aset|]. cbn [fst].
  split; [replace (k + 1 - 1) with k by lia; by rewrite Hnew|].
  split; [replace (k + 1 - 2) with (k - 1) by lia; rewrite Hold by lia; done|].
  intros n Hr. unfold predicts. destruct (Z.eq_dec n k) as [->|Hne].
  - rewrite Hnew, !Hold by lia. done.
  - rewrite !Hold by lia. apply Hp. lia.
Qed.

Lemma decode_byte_eq s addr f sh b a :
  decode_byte s addr f sh b a =
    let packed := ram_byte s (addr + 2 + b) in
    let a1 := (decode_nibble f sh (Z.land packed 0x0F) a.1 a.2, a.2 + 1) in
    (decode_nibble f sh (Z.shiftr packed 4) a1.1 a1.2, a1.2 + 1).
Proof. by destruct a. Qed.

Lemma partly_byte s v b a :
  reachable s -> 0 <= b < 14 -> partly s v (2 * b) a ->
  partly s v (2 * (b + 1)) (decode_byte s (block_addr v) (block_filter s v) (block_shift s v) b a).
Proof.
  intros R Hb P. pose proof (ram_byte_ok s (block_addr v + 2 + b) (reachable_ok s R)) as Hbyte. rewrite decode_byte_eq. cbv zeta.
  assert (Z.land (ram_byte s (block_addr v + 2 + b)) 0x0F = ram_byte s (block_addr v + 2 + b) mod 16) as -> by apply land_0f.
  assert (Z.shiftr (ram_byte s (block_addr v + 2 + b)) 4 = ram_byte s (block_addr v + 2 + b) / 16) as -> by (by rewrite Z.shiftr_div_pow2 by lia).
  replace (2 * (b + 1)) with (2 * b + 1 + 1) by lia.
  apply partly_next; [lia|dlia| |apply partly_next; [lia|dlia| |done]]; unfold block_nibble.
  - replace ((2 * b + 1) / 2) with b by dlia. by replace ((2 * b + 1) mod 2 =? 0) with false by dlia.
  - replace (2 * b / 2) with b by dlia. by replace ((2 * b) mod 2 =? 0) with true by dlia.
Qed.

Lemma decoded_partly s v : reachable s -> VoiceOk v -> exists o, partly s v 28 (decoded s v, o).
Proof.
  intros R V. pose proof (ram_byte_ok s (block_addr v) (reachable_ok s R)) as Hh.
  exists (forZ 0 14 (decode_byte s (block_addr v) (block_filter s v) (block_shift s v)) (v, 0)).2.
  assert (decoded s v = (forZ 0 14 (decode_byte s (block_addr v) (block_filter s v) (block_shift s v)) (v, 0)).1) as ->.
  { unfold decoded, block_filter, block_shift. cbv zeta. rewrite !land_0f, Z.shiftr_div_pow2 by lia.
    change (2 ^ 4) with 16. change 0x10 with 16. rewrite (Z.mod_small (_ / 16)) by dlia.
    assert ((if 12 <? ram_byte s (block_addr v) mod 16 then 12 else ram_byte s (block_addr v) mod 16) =
            Z.min 12 (ram_byte s (block_addr v) mod 16)) as -> by (case_if; lia). done. }
  rewrite <- surjective_pairing.
  apply (forZ_ind (fun b a => partly s v (2 * b) a) 0 14); [lia| |intros b a Hb; by apply partly_byte].
  split; [done|]. split; [apply V|]. split; [done|]. split; [done|]. intros n Hn. lia.
Qed.

Lemma partly_end s v w o :
  partly s v 28 (w, o) ->
  length (samples w) = 28%nat /\ (forall n, 0 <= n < 28 -> predicts s v w n) /\
  hist1 w = aget (samples w) 27 /\ hist2 w = aget (samples w) 26.
Proof. intros (_ & L1 & L2 & L3 & L4). exact (conj L1 (conj L4 (conj L2 L3))). Qed.

(** What decoding leaves in the voice. *)
Lemma decode_block_voice i s :
  0 <= i < 24 -> Ok s ->
  let w := voice_at i (decode_block i s) in let d := decoded s (voice_at i s) in
  samples w = samples d /\ hist1 w = hist1 d /\ hist2 w = hist2 d /\ sample_idx w = 0 /\
  cur_addr w = Z.land (block_addr (voice_at i s) + 16) (SPU_RAM_SIZE - 1).
Proof.
  intros Hi O. cbv zeta. unfold decode_block. cbv zeta. fold (decoded s (voice_at i s)).
  set (d := decoded s (voice_at i s)). set (fl := ram_byte s (block_addr (voice_at i s) + 1)). set (a := block_addr (voice_at i s)).
  assert (forall w, voice_at i (if has fl 1 then (set_voice i w s) <| endx_latch := Z.lor (endx_latch (set_voice i w s)) (Z.shiftl 1 i) |>
    else set_voice i w s) = w) as E.
  { intros w. transitivity (voice_at i (set_voice i w s)); [by case_if|]. rewrite voice_at_set, Z.eqb_refl by (lia || apply O). done. }
  rewrite E. clear E. clearbody d fl a. by case_if.
Qed.

Lemma predicts_samples s v w w' n : samples w' = samples w -> predicts s v w n -> predicts s v w' n.
Proof. unfold predicts, played. by intros ->. Qed.

(** C24: A decoded block is the ADPCM recurrence: each of its 28 samples is the
    clamped sum of its 4-bit code, shifted, and the filter's prediction from the two
    samples before it, those of the previous block at its start; the voice
    remembers the last two for the next block, and moves on by one block. *)
Theorem adpcm_recurrence i s :
  reachable s -> 0 <= i < 24 ->
  let v := voice_at i s in let w := voice_at i (decode_block i s) in
  length (samples w) = 28%nat /\ (forall n, 0 <= n < 28 -> predicts s v w n) /\
  hist1 w = aget (samples w) 27 /\ hist2 w = aget (samples w) 26 /\ cur_addr w = (block_addr v + 16) mod SPU_RAM_SIZE.
Proof.
  intros R Hi. cbv zeta. pose proof (reachable_ok s R) as O. destruct (decode_block_voice i s Hi O) as (Es & E1 & E2 & _ & Ec).
  destruct (decoded_partly s (voice_at i s) R (voice_at_ok i s O)) as (o & P). destruct (partly_end _ _ _ _ P) as (L1 & L2 & L3 & L4).
  rewrite E1, E2, Ec, Es. split; [exact L1|]. split; [|split; [exact L3|split; [exact L4|exact (Z.land_ones _ 19 ltac:(lia))]]].
  intros n Hn. exact (predicts_samples _ _ _ _ n Es (L2 n Hn)).
Qed.

(** ** Transfers *)

(** Words through DMA channel 4, and through the transfer port as half-words. *)
Definition by_dma (ws : list Z) (s : State) : State := fold_left (fun s w => spu_dma_write w s) ws s.
Definition by_port (fr : Z) (ws : list Z) (s : State) : State :=
  fold_left (fun s w => spu_write fr 0x1F801DA8 (Z.shiftr w 16) (spu_write fr 0x1F801DA8 (Z.land w 0xFFFF) s)) ws s.

Definition word_byte (ws : list Z) (i : Z) : Z := (aget ws (i / 4) / 256 ^ (i mod 4)) mod 256.

(** A way to move one word. *)
Definition moves_word (f : State -> Z -> State) : Prop :=
  forall s w, 0 <= transfer_addr s -> transfer_addr s + 4 <= SPU_RAM_SIZE ->
    let a := transfer_addr s in
    transfer_addr (f s w) = (a + 4) mod SPU_RAM_SIZE /\
    forall j, ram_byte (f s w) j = if (a <=? j) && (j <? a + 4) then (w / 256 ^ (j - a)) mod 256 else ram_byte s j.

Lemma ram_byte_at m i v j : default 0 ((<[i := v]> m : gmap Z Z) !! j) = if j =? i then v else default 0 (m !! j).
Proof. destruct (Z.eqb_spec j i) as [->|]; [by rewrite lookup_insert_eq|by rewrite lookup_insert_ne by done]. Qed.

Lemma u8_shift w k : 0 <= k -> u8 (Z.shiftr w (8 * k)) = (w / 256 ^ k) mod 256.
Proof. intros. unfold u8. by rewrite Z.shiftr_div_pow2, Z.pow_mul_r by lia. Qed.
Lemma u8_bytes w :
  u8 w = (w / 256 ^ 0) mod 256 /\ u8 (Z.shiftr w 8) = (w / 256 ^ 1) mod 256 /\
  u8 (Z.shiftr w 16) = (w / 256 ^ 2) mod 256 /\ u8 (Z.shiftr w 24) = (w / 256 ^ 3) mod 256.
Proof.
  pose proof (u8_shift w 0 ltac:(lia)) as H. rewrite Z.mul_0_r, Z.shiftr_0_r in H.
  split; [exact H|]. split; [exact (u8_shift w 1 ltac:(lia))|]. split; [exact (u8_shift w 2 ltac:(lia))|exact (u8_shift w 3 ltac:(lia))].
Qed.

Lemma dma_moves_word : moves_word (fun s w => spu_dma_write w s).
Proof.
  intros s w H0 H1. cbv zeta. unfold spu_dma_write. cbv zeta. rewrite (proj2 (Z.ltb_lt (transfer_addr s + 3) _)) by lia.
  split; [done|]. intros j. unfold ram_byte. cbn. rewrite !ram_byte_at. destruct (u8_bytes w) as (-> & -> & -> & ->).
  set (a := transfer_addr s) in *. clearbody a. btest; simpl; try lia; try done; do 2 f_equal; f_equal; lia.
Qed.

Lemma port_write fr x s :
  spu_write fr 0x1F801DA8 x s = fifo_write x (s <| spu_regs := aset (spu_regs s) (reg_index 0x1F801DA8) (u16 x) |>).
Proof. done. Qed.

Lemma port_moves_word fr : moves_word (fun s w => spu_write fr 0x1F801DA8 (Z.shiftr w 16) (spu_write fr 0x1F801DA8 (Z.land w 0xFFFF) s)).
Proof.
  intros s w H0 H1. cbv zeta. rewrite !port_write. unfold fifo_write. cbv zeta.
  set (a := transfer_addr s) in *.
  assert (forall r, transfer_addr (s <| spu_regs := r |>) = a) as Ea by done. rewrite !Ea.
  rewrite (proj2 (Z.ltb_lt (a + 1) _)) by lia. cbn. fold a. rewrite (Z.mod_small (a + 2)) by lia.
  rewrite (proj2 (Z.ltb_lt (a + 2 + 1) _)) by lia. cbn. split; [f_equal; lia|].
  intros j. unfold ram_byte. cbn. rewrite !ram_byte_at.
  assert (u8 (Z.land w 0xFFFF) = u8 w) as -> by (unfold u8; rewrite land_ffff; dlia).
  assert (u8 (Z.shiftr (Z.land w 0xFFFF) 8) = u8 (Z.shiftr w 8)) as ->
    by (unfold u8; rewrite land_ffff, !Z.shiftr_div_pow2 by lia; change (2 ^ 8) with 256; dlia).
  rewrite Z.shiftr_shiftr by lia. change (16 + 8) with 24. destruct (u8_bytes w) as (-> & -> & -> & ->).
  clearbody a. btest; simpl; try lia; try done; do 2 f_equal; f_equal; lia.
Qed.

Lemma words_moved f ws s :
  moves_word f -> 0 <= transfer_addr s -> transfer_addr s + 4 * Z.of_nat (length ws) <= SPU_RAM_SIZE -> ws <> [] ->
  let a := transfer_addr s in let n := 4 * Z.of_nat (length ws) in
  transfer_addr (fold_left f ws s) = (a + n) mod SPU_RAM_SIZE /\
  forall j, ram_byte (fold_left f ws s) j = if (a <=? j) && (j <? a + n) then word_byte ws (j - a) else ram_byte s j.
Proof.
  intros Hf. revert s. induction ws as [|w ws IH]; intros s H0 H1 Hne; [done|]. clear Hne. cbv zeta. cbn [length] in *. cbn [fold_left].
  destruct (Hf s w H0 ltac:(lia)) as [E B]. destruct ws as [|w2 ws].
  - split; [exact E|]. intros j. cbn [fold_left]. rewrite B. replace (4 * Z.of_nat _) with 4 by (simpl; lia). case_if; [|done].
    unfold word_byte. by rewrite (Z.div_small (j - transfer_addr s) 4), (Z.mod_small (j - transfer_addr s) 4) by lia.
  - cbn [length] in *. rewrite Z.mod_small in E by lia. destruct (IH (f s w)) as [E2 B2]; [lia|lia|done|].
    rewrite E in E2, B2. split; [rewrite E2; f_equal; lia|]. intros j. rewrite B2, B.
    set (a := transfer_addr s) in *. clearbody a. unfold word_byte.
    destruct (Z.leb_spec (a + 4) j), (Z.ltb_spec j (a + 4 + 4 * Z.of_nat (S (length ws)))),
      (Z.leb_spec a j), (Z.ltb_spec j (a + 4)), (Z.ltb_spec j (a + 4 * Z.of_nat (S (S (length ws))))); cbn [andb]; try lia; try done.
    + replace ((j - a) / 4) with ((j - (a + 4)) / 4 + 1) by dlia. replace ((j - a) mod 4) with ((j - (a + 4)) mod 4) by dlia.
      unfold aget. replace (Z.to_nat ((j - (a + 4)) / 4 + 1)) with (S (Z.to_nat ((j - (a + 4)) / 4))) by dlia. done.
    + by rewrite (Z.div_small (j - a) 4), (Z.mod_small (j - a) 4) by lia.
Qed.

(** Both ways into sample RAM store the same bytes: after the transfer address
    is set, a block of words sent through DMA channel 4, or as half-words through
    the transfer port, lands little-endian at eight times the address written,
    changes nothing else, and leaves the address behind it. *)
Theorem spu_transfer_exact fr v ws s :
  0 <= v < 0x10000 -> ws <> [] -> 8 * v + 4 * Z.of_nat (length ws) <= SPU_RAM_SIZE ->
  let s0 := spu_write fr 0x1F801DA6 v s in
  let n := 4 * Z.of_nat (length ws) in
  (forall j, ram_byte (by_dma ws s0) j = if (8 * v <=? j) && (j <? 8 * v + n) then word_byte ws (j - 8 * v) else ram_byte s j) /\
  (forall j, ram_byte (by_port fr ws s0) j = ram_byte (by_dma ws s0) j) /\
  transfer_addr (by_dma ws s0) = (8 * v + n) mod SPU_RAM_SIZE /\ transfer_addr (by_port fr ws s0) = (8 * v + n) mod SPU_RAM_SIZE.
Proof.
  intros Hv Hne Hl. cbv zeta.
  assert (transfer_addr (spu_write fr 0x1F801DA6 v s) = 8 * v /\ ram_byte (spu_write fr 0x1F801DA6 v s) = ram_byte s) as [E0 B0].
  { split; [|done]. change (transfer_addr (spu_write fr 0x1F801DA6 v s)) with
      (if SPU_RAM_SIZE <=? Z.shiftl (u16 v) 3 then 0 else Z.shiftl (u16 v) 3).
    rewrite u16_id, Z.shiftl_mul_pow2 by lia. change (2 ^ 3) with 8. unfold SPU_RAM_SIZE. case_if; lia. }
  generalize dependent (spu_write fr 0x1F801DA6 v s). intros s0 E0 B0.
  destruct (words_moved _ ws s0 dma_moves_word) as [E1 B1]; [lia|lia|done|].
  destruct (words_moved _ ws s0 (port_moves_word fr)) as [E2 B2]; [lia|lia|done|].
  rewrite E0, B0 in *. unfold by_dma, by_port. split; [exact B1|]. split; [intros j; by rewrite B1, B2|by split].
Qed.

End SpuVoices.
