(* ===== verification/SpuDemo.v ===== *)
(** * Sound processing unit: concrete runs

    The theorems on the sound processor applied to a few voices playing. *)

From S2P Require Import Prelude Spu SpuLaws SpuRender SpuVoices.
Import Spu SpuLaws SpuRender SpuVoices.

Module SpuDemo.

(** Four loud voices, three frames in. *)
Definition playing : State := (spu_render 0 3 (loud 4)).2.

Lemma playing_reachable : reachable playing.
Proof. apply reach_render, loud_reachable. Qed.

Lemma spu_reachable_safe_witness :
  (voice_next_sample 0 3 playing).1 = 28671 /\ -32767 <= (voice_next_sample 0 3 playing).1 <= 32766.
Proof.
  split; [vm_compute; reflexivity|].
  pose proof (spu_reachable_safe 0 playing playing_reachable) as [H _]. apply (H 3 ltac:(lia)).
Defined.

Lemma mix_exact_four_voices_witness :
  let '(l, r, s') := frame_sums 0 playing in
  l = 114676 /\ mix_frame 0 playing = (l * (main_vol playing).1 / 2 ^ 14, r * (main_vol playing).2 / 2 ^ 14, s').
Proof.
  pose proof (proj1 (mix_exact_four_voices 0) playing playing_reachable ltac:(vm_compute; discriminate) ltac:(vm_compute; reflexivity)) as H.
  assert ((frame_sums 0 playing).1.1 = 114676) as E by (vm_compute; reflexivity).
  destruct (frame_sums 0 playing) as [[l r] s']. split; [exact E|exact H].
Defined.

Lemma spu_render_append_witness :
  let '(o1, s1) := spu_render 0 2 (loud 1) in
  let '(o2, s2) := spu_render 0 3 s1 in
  o1 = [0; 0; 12542; 12542] /\ spu_render 0 (2 + 3) (loud 1) = (o1 ++ o2, s2 <| last_peak := Z.max (last_peak s1) (last_peak s2) |>).
Proof.
  pose proof (spu_render_append 0 2 3 (loud 1) ltac:(lia) ltac:(lia)) as H.
  assert ((spu_render 0 2 (loud 1)).1 = [0; 0; 12542; 12542]) as E by (vm_compute; reflexivity).
  destruct (spu_render 0 2 (loud 1)) as [o1 s1]. destruct (spu_render 0 3 s1) as [o2 s2]. split; [exact E|exact H].
Defined.

(** A released voice at level 3, at the fastest rate. *)
Definition dying : SpuVoice := voice_zero <| adsr_phase := ADSR_RELEASE |> <| env_level := 3 |>.

Lemma dying_ok : VoiceOk dying.
Proof. pose proof voice_zero_ok as []. split; try done; cbn; unfold ADSR_RELEASE; lia. Qed.

Lemma envelope_progress_witness :
  env_level (adsr_run 0 dying) = 0 /\
  exists k, 0 <= k <= 3 * 0x8000 /\ forall n, k <= n -> env_level (ziter (adsr_run 0) n dying) = 0.
Proof.
  split; [vm_compute; reflexivity|].
  destruct (envelope_progress 0 dying dying_ok) as [_ H]. destruct (H eq_refl) as [_ H2]. exact H2.
Defined.

Lemma adpcm_recurrence_witness :
  aget (samples (voice_at 0 (decode_block 0 (loud 1)))) 0 = 28672 /\ predicts (loud 1) (voice_at 0 (loud 1)) (voice_at 0 (decode_block 0 (loud 1))) 0.
Proof.
  split; [vm_compute; reflexivity|].
  destruct (adpcm_recurrence 0 (loud 1) (loud_reachable 1) ltac:(lia)) as (_ & H & _). apply H. lia.
Defined.

Lemma cd_ring_is_queue_witness :
  (cd_run [Push [1; 2; 3; 4] 2; Pop; Push [5; 6] 1; Pop; Pop; Pop] (cd spu_init)).1 = [Some (1, 2); Some (3, 4); Some (5, 6); None] /\
  let '(popped, q, lost) := queue_run [Push [1; 2; 3; 4] 2; Pop; Push [5; 6] 1; Pop; Pop; Pop] (queue (cd spu_init)) 0 in
  (cd_run [Push [1; 2; 3; 4] 2; Pop; Push [5; 6] 1; Pop; Pop; Pop] (cd spu_init)).1 = popped.
Proof.
  split; [vm_compute; reflexivity|].
  pose proof (cd_ring_is_queue [Push [1; 2; 3; 4] 2; Pop; Push [5; 6] 1; Pop; Pop; Pop] (cd spu_init)) as H.
  change (cd_overflow_frames (cd spu_init)) with 0 in H.
  assert (Forall cd_op_ok [Push [1; 2; 3; 4] 2; Pop; Push [5; 6] 1; Pop; Pop; Pop]) as Hops
    by (repeat constructor; unfold is_s16; lia).
  specialize (H Hops (ok_cd _ init_ok)). destruct (queue_run _ _ _) as [[popped q] lost]. apply H.
Defined.

Lemma spu_transfer_exact_witness :
  ram_byte (by_port 0 [0x11223344; 0x55667788] (spu_write 0 0x1F801DA6 2 spu_init)) 0x15 = 0x77 /\
  (forall j, ram_byte (by_port 0 [0x11223344; 0x55667788] (spu_write 0 0x1F801DA6 2 spu_init)) j =
             ram_byte (by_dma [0x11223344; 0x55667788] (spu_write 0 0x1F801DA6 2 spu_init)) j).
Proof.
  split; [vm_compute; reflexivity|].
  apply (spu_transfer_exact 0 2 [0x11223344; 0x55667788] spu_init); [lia|discriminate|vm_compute; discriminate].
Defined.

End SpuDemo.
