(* ===== verification/SwRenderer.v ===== *)
(** * Software rasteriser

    src/runtime/src/gpu_sw_renderer.c: the pixel writers with blending and mask
    bits, texture lookup (nearest and bilinear), triangles, rectangles and lines,
    fills, copies and transfers of video memory, the supersampled mirror and the
    native-wide surfaces, and the conversion of the display area to 32-bit pixels.

    [State] is the statics of the file: the native video memory, the drawing
    environment set by the command processor, and the shadow buffers.  A buffer is
    its size and a map from indices to cells, absent cells being the zeros of
    calloc; a native cell is at [y * 1024 + x].  C [float] arithmetic is binary32
    with every operation rounded to nearest even, computed by the Standard
    Library's [SpecFloat]; [int] arithmetic is unbounded, the coordinates of the
    command processor being within 13 bits.  Whether an allocation succeeds is a
    parameter ([Heap]). *)

From Stdlib Require Import SpecFloat.
From S2P Require Import Prelude.

Module SwRenderer.

(** ** Single-precision arithmetic *)

Definition f32 := spec_float.

Definition f_of (n : Z) : f32 := binary_normalize 24 128 n 0 false.
Definition f_add : f32 -> f32 -> f32 := SFadd 24 128.
Definition f_sub : f32 -> f32 -> f32 := SFsub 24 128.
Definition f_mul : f32 -> f32 -> f32 := SFmul 24 128.
Definition f_div : f32 -> f32 -> f32 := SFdiv 24 128.

(** The scaled magnitude of a finite value, rounded by [rnd]. *)
Definition f_int (rnd : Z -> Z -> Z) (f : f32) : Z :=
  match f with
  | S754_finite sg m e =>
      let v := if sg then Zneg m else Zpos m in
      if 0 <=? e then v * 2 ^ e else rnd v (2 ^ (- e))
  | _ => 0
  end.

(** [(int)f] truncates, [floorf] rounds down. *)
Definition f_trunc : f32 -> Z := f_int Z.quot.
Definition f_floor : f32 -> Z := f_int Z.div.

(** ** State *)

Definition VRAM_WIDTH := 1024.
Definition VRAM_HEIGHT := 512.
Definition WIDE_MAX_SURF := 4.
Definition SW_MAX_INTERNAL_SCALE := 4.

Class Heap := { alloc_ok : Z -> bool }.

Record Buffer := mkBuffer { b_size : Z; b_cells : gmap Z Z }.

(** What the command processor sets before a primitive. *)
#[projections(primitive)] Record DrawEnv := mkEnv {
  g_clip_x1 : Z; g_clip_y1 : Z; g_clip_x2 : Z; g_clip_y2 : Z; g_offset_x : Z; g_offset_y : Z;
  g_semi_trans_enabled : Z; g_semi_trans_mode : Z; g_mask_set_bit : Z; g_mask_check_bit : Z;
  g_tw_mask_x : Z; g_tw_mask_y : Z; g_tw_off_x : Z; g_tw_off_y : Z;
  g_mod_r : Z; g_mod_g : Z; g_mod_b : Z; g_raw_texture : Z; g_texture_filter : Z; g_uv_lim : list Z
}.
#[export] Instance eta_DrawEnv : Eta DrawEnv := fun e =>
  mkEnv (g_clip_x1 e) (g_clip_y1 e) (g_clip_x2 e) (g_clip_y2 e) (g_offset_x e) (g_offset_y e)
    (g_semi_trans_enabled e) (g_semi_trans_mode e) (g_mask_set_bit e) (g_mask_check_bit e)
    (g_tw_mask_x e) (g_tw_mask_y e) (g_tw_off_x e) (g_tw_off_y e)
    (g_mod_r e) (g_mod_g e) (g_mod_b e) (g_raw_texture e) (g_texture_filter e) (g_uv_lim e).

(** The mirror and the wide surfaces; [g_wide_cur] is the slot the pointer
    designates.  The last three fields are what the wide mirror asks other files: the
    two settings of the backdrop stretch (gpu_gl_renderer.c), and gpu.c's answer, for
    the command being executed, to [psx_ws_prim_in_backdrop]. *)
#[projections(primitive)] Record Shadow := mkShadow {
  g_hr : option Buffer; g_scale : Z; g_hr_w : Z; g_hr_h : Z;
  g_wide_surf : list (option Buffer); g_wide_base : list Z; g_wide_w : Z; g_wide_off : Z;
  g_wide_cur : option Z; g_wide_cur_base : Z;
  g_ws_bd_stretch_on : bool; g_ws_bd_stretch_pct : Z; psx_ws_prim_in_backdrop : bool
}.
#[export] Instance eta_Shadow : Eta Shadow := fun s =>
  mkShadow (g_hr s) (g_scale s) (g_hr_w s) (g_hr_h s) (g_wide_surf s) (g_wide_base s) (g_wide_w s) (g_wide_off s)
    (g_wide_cur s) (g_wide_cur_base s) (g_ws_bd_stretch_on s) (g_ws_bd_stretch_pct s) (psx_ws_prim_in_backdrop s).

#[projections(primitive)] Record State := mkState { g_vram : gmap Z Z; env : DrawEnv; shadow : Shadow }.
#[export] Instance eta_State : Eta State := fun s => mkState (g_vram s) (env s) (shadow s).

Definition clamp_i (v lo hi : Z) : Z := if v <? lo then lo else if hi <? v then hi else v.
Definition min_i (a b : Z) : Z := if a <? b then a else b.
Definition max_i (a b : Z) : Z := if b <? a then a else b.

(** Direct access to the native array, and the wrapped read of the helper. *)
Definition cell (idx : Z) (st : State) : Z := default 0 (g_vram st !! idx).
Definition poke (idx v : Z) (st : State) : State := st <| g_vram := <[idx := v]> (g_vram st) |>.

Definition vram_get (x y : Z) (st : State) : Z :=
  cell (Z.land y (VRAM_HEIGHT - 1) * VRAM_WIDTH + Z.land x (VRAM_WIDTH - 1)) st.

(** ** Render targets *)

Inductive Buf := Native | Hires | Wide (slot : Z).

Record RTarget := mkRT {
  t_buf : Buf; t_w : Z; t_h : Z; t_s : Z; t_cx1 : Z; t_cy1 : Z; t_cx2 : Z; t_cy2 : Z
}.

Definition hr_get (idx : Z) (st : State) : Z :=
  match g_hr (shadow st) with Some b => default 0 (b_cells b !! idx) | None => 0 end.

Definition store (idx v : Z) (b : Buffer) : Buffer := mkBuffer (b_size b) (<[idx := v]> (b_cells b)).

Definition hr_set (idx v : Z) (st : State) : State :=
  st <| shadow := (shadow st) <| g_hr := option_map (store idx v) (g_hr (shadow st)) |> |>.

Definition surf_at (slot : Z) (sh : Shadow) : option Buffer := nth (Z.to_nat slot) (g_wide_surf sh) None.

Definition wide_get (slot idx : Z) (st : State) : Z :=
  match surf_at slot (shadow st) with Some b => default 0 (b_cells b !! idx) | None => 0 end.

Definition wide_set (slot idx v : Z) (st : State) : State :=
  let sh := shadow st in
  st <| shadow := sh <| g_wide_surf := <[Z.to_nat slot := option_map (store idx v) (surf_at slot sh)]> (g_wide_surf sh) |> |>.

Definition buf_get (b : Buf) (idx : Z) (st : State) : Z :=
  match b with Native => cell idx st | Hires => hr_get idx st | Wide i => wide_get i idx st end.

Definition buf_set (b : Buf) (idx v : Z) (st : State) : State :=
  match b with Native => poke idx v st | Hires => hr_set idx v st | Wide i => wide_set i idx v st end.

Definition rt_native (st : State) : RTarget :=
  let e := env st in
  mkRT Native VRAM_WIDTH VRAM_HEIGHT 1 (g_clip_x1 e) (g_clip_y1 e) (g_clip_x2 e) (g_clip_y2 e).

Definition rt_hires (st : State) : RTarget :=
  let e := env st in let sh := shadow st in let s := g_scale sh in
  mkRT Hires (g_hr_w sh) (g_hr_h sh) s (g_clip_x1 e * s) (g_clip_y1 e * s) (g_clip_x2 e * s + (s - 1)) (g_clip_y2 e * s + (s - 1)).

Definition rt_wide (slot : Z) (st : State) : RTarget :=
  let e := env st in let sh := shadow st in let s := g_scale sh in
  mkRT (Wide slot) (g_wide_w sh * s) (VRAM_HEIGHT * s) s 0 (g_clip_y1 e * s) (g_wide_w sh * s - 1) (g_clip_y2 e * s + (s - 1)).

Definition wide_dx (st : State) : Z := g_wide_off (shadow st) - g_wide_cur_base (shadow st).

Record WideBd := mkWideBd { bd_on : bool; bd_scale : f32; bd_center : f32 }.

Definition wide_bd_get (st : State) : WideBd :=
  let sh := shadow st in
  let off := mkWideBd false (f_of 1) (f_of 0) in
  if g_ws_bd_stretch_on sh && (0 <? g_wide_w sh) && bool_decide (g_wide_cur sh <> None) && psx_ws_prim_in_backdrop sh then
    let native_w := g_wide_w sh - 2 * g_wide_off sh in
    if 0 <? native_w then
      mkWideBd true
        (if 0 <? g_ws_bd_stretch_pct sh then f_div (f_of (g_ws_bd_stretch_pct sh)) (f_of 100)
         else f_div (f_of (g_wide_w sh)) (f_of native_w))
        (f_add (f_of (g_wide_cur_base sh)) (f_div (f_of native_w) (f_of 2)))
    else off
  else off.

Definition half : f32 := f_div (f_of 1) (f_of 2).

Definition wide_bd_x (b : WideBd) (x : Z) : Z :=
  if bd_on b then
    let v := f_add (f_mul (f_sub (f_of x) (bd_center b)) (bd_scale b)) (bd_center b) in
    f_trunc (if SFltb v (f_of 0) then f_sub v half else f_add v half)
  else x.

(** ** Blending and pixel writes *)

Definition red (c : Z) : Z := Z.land c 0x1F.
Definition green (c : Z) : Z := Z.land (Z.shiftr c 5) 0x1F.
Definition blue (c : Z) : Z := Z.land (Z.shiftr c 10) 0x1F.
Definition rgb (r g b : Z) : Z := u16 (Z.lor (Z.lor r (Z.shiftl g 5)) (Z.shiftl b 10)).

Definition cap31 (v : Z) : Z := if 31 <? v then 31 else v.
Definition floor0 (v : Z) : Z := if v <? 0 then 0 else v.

Definition blend_channel (mode b f : Z) : Z :=
  if mode =? 0 then Z.shiftr (b + f) 1
  else if mode =? 1 then cap31 (b + f)
  else if mode =? 2 then floor0 (b - f)
  else if mode =? 3 then cap31 (b + Z.shiftr f 2)
  else f.

Definition blend_pixels (back front mode : Z) : Z :=
  let mix (ch : Z -> Z) := blend_channel mode (ch back) (ch front) in
  rgb (mix red) (mix green) (mix blue).

(** Outside the buffer or the clip rectangle. *)
Definition clipped (t : RTarget) (x y : Z) : bool :=
  (x <? 0) || (t_w t <=? x) || (y <? 0) || (t_h t <=? y) ||
  (x <? t_cx1 t) || (t_cx2 t <? x) || (y <? t_cy1 t) || (t_cy2 t <? y).

(** A write that the mask bit of the destination may refuse and that may set it. *)
Definition put_masked (t : RTarget) (x y : Z) (color : Z -> Z) (st : State) : State :=
  let e := env st in
  let idx := y * t_w t + x in
  let back := buf_get (t_buf t) idx st in
  if negb (g_mask_check_bit e =? 0) && has back 0x8000 then st
  else
    let c := color back in
    let c := if negb (g_mask_set_bit e =? 0) then Z.lor c 0x8000 else c in
    buf_set (t_buf t) idx c st.

Definition put_opaque (t : RTarget) (x y color : Z) (st : State) : State :=
  if clipped t x y then st
  else
    let e := env st in
    put_masked t x y (fun back =>
      if negb (g_semi_trans_enabled e =? 0) then blend_pixels back color (g_semi_trans_mode e) else color) st.

Definition modulate (texel mod_r mod_g mod_b : Z) : Z :=
  rgb (cap31 (Z.shiftr (red texel * mod_r) 4)) (cap31 (Z.shiftr (green texel * mod_g) 4))
      (cap31 (Z.shiftr (blue texel * mod_b) 4)).

Definition put_textured (t : RTarget) (x y texel mod_r mod_g mod_b raw_texture : Z) (st : State) : State :=
  if clipped t x y then st
  else if texel =? 0 then st
  else
    let e := env st in
    put_masked t x y (fun back =>
      let color := if raw_texture =? 0 then modulate texel mod_r mod_g mod_b else Z.land texel 0x7FFF in
      if negb (g_semi_trans_enabled e =? 0) && has texel 0x8000 then blend_pixels back color (g_semi_trans_mode e)
      else color) st.

(** ** Texture lookup *)

Definition windowed (c mask off : Z) : Z := Z.lor (Z.land c (Z.lnot (mask * 8))) (Z.land off mask * 8).

Definition has_window (e : DrawEnv) : bool := negb (Z.lor (g_tw_mask_x e) (g_tw_mask_y e) =? 0).

Definition texel_fetch (u v texpage clut_x clut_y : Z) (st : State) : Z :=
  let e := env st in
  let u := if has_window e then windowed u (g_tw_mask_x e) (g_tw_off_x e) else u in
  let v := if has_window e then windowed v (g_tw_mask_y e) (g_tw_off_y e) else v in
  let tpx := Z.land texpage 0xF * 64 in
  let tpy := Z.land (Z.shiftr texpage 4) 1 * 256 in
  let depth := Z.land (Z.shiftr texpage 7) 3 in
  if depth =? 0 then
    let index := Z.land (Z.shiftr (vram_get (tpx + Z.quot u 4) (tpy + v) st) (Z.land u 3 * 4)) 0xF in
    vram_get (clut_x + index) clut_y st
  else if depth =? 1 then
    let index := Z.land (Z.shiftr (vram_get (tpx + Z.quot u 2) (tpy + v) st) (Z.land u 1 * 8)) 0xFF in
    vram_get (clut_x + index) clut_y st
  else vram_get (tpx + u) (tpy + v) st.

Definition uv_lim (i : Z) (e : DrawEnv) : Z := aget (g_uv_lim e) i.

Definition within (v lo hi : Z) : Z := if v <? lo then lo else if hi <? v then hi else v.

Definition bl_fetch (u v texpage clut_x clut_y : Z) (st : State) : Z :=
  let e := env st in
  let u := Z.land u 0xFF in let v := Z.land v 0xFF in
  if has_window e then texel_fetch u v texpage clut_x clut_y st
  else texel_fetch (within u (uv_lim 0 e) (uv_lim 2 e)) (within v (uv_lim 1 e) (uv_lim 3 e)) texpage clut_x clut_y st.

(** The sub-texel offset of a coordinate: its direction and its distance from
    the texel's centre in 256ths. *)
Definition subtexel (f : f32) : Z * Z :=
  let d := f_trunc (f_mul (f_sub f (f_of (f_floor f))) (f_of 256)) - 128 in
  (if d <? 0 then -1 else 1, if 128 <? Z.abs d then 128 else Z.abs d).

Definition texel_fetch_bilinear (fu fv : f32) (texpage clut_x clut_y : Z) (st : State) : Z :=
  let iu := f_floor fu in let iv := f_floor fv in
  let '(su, fx) := subtexel fu in
  let '(sv, fy) := subtexel fv in
  let c00 := bl_fetch iu iv texpage clut_x clut_y st in
  let c10 := bl_fetch (iu + su) iv texpage clut_x clut_y st in
  let c01 := bl_fetch iu (iv + sv) texpage clut_x clut_y st in
  let c11 := bl_fetch (iu + su) (iv + sv) texpage clut_x clut_y st in
  let solid c := if c =? 0 then 0 else 1 in
  let w00 := solid c00 * (256 - fx) * (256 - fy) in
  let w10 := solid c10 * fx * (256 - fy) in
  let w01 := solid c01 * (256 - fx) * fy in
  let w11 := solid c11 * fx * fy in
  let opac := w00 + w10 + w01 + w11 in
  if opac <? 32768 then 0
  else
    let mix (ch : Z -> Z) := ch c00 * w00 + ch c10 * w10 + ch c01 * w01 + ch c11 * w11 in
    let stp := opac <=? mix (fun c => Z.land (Z.shiftr c 15) 1) * 2 in
    u16 (Z.lor (Z.lor (Z.lor (Z.quot (mix red) opac) (Z.shiftl (Z.quot (mix green) opac) 5))
                      (Z.shiftl (Z.quot (mix blue) opac) 10))
               (if stp then 0x8000 else 0)).

(** A range of texture coordinates within a page, widened to the page when it
    crosses one. *)
Definition page_range (lo hi : Z) : Z * Z :=
  if Z.shiftr lo 8 =? Z.shiftr hi 8 then (Z.land lo 255, Z.land hi 255) else (0, 255).

Definition sw_tri_uv_limits (xs ys us vs : Z * Z * Z) (st : State) : State :=
  let '(x0, x1, x2) := xs in let '(y0, y1, y2) := ys in
  let '(u0, u1, u2) := us in let '(v0, v1, v2) := vs in
  let lo_u := min_i u2 (min_i u1 u0) in let hi_u := max_i u2 (max_i u1 u0) in
  let lo_v := min_i v2 (min_i v1 v0) in let hi_v := max_i v2 (max_i v1 v0) in
  let dudx := - (y1 - y0) * u2 - (y2 - y1) * u0 - (y0 - y2) * u1 in
  let dvdx := - (y1 - y0) * v2 - (y2 - y1) * v0 - (y0 - y2) * v1 in
  let dudy := (x1 - x0) * u2 + (x2 - x1) * u0 + (x0 - x2) * u1 in
  let dvdy := (x1 - x0) * v2 + (x2 - x1) * v0 + (x0 - x2) * v1 in
  let flat := (dudx =? 0) || (dudy =? 0) || (dvdx =? 0) || (dvdy =? 0) in
  let hi_u := if flat && (lo_u <? hi_u) then hi_u - 1 else hi_u in
  let hi_v := if flat && (lo_v <? hi_v) then hi_v - 1 else hi_v in
  let '(lo_u, hi_u) := page_range lo_u hi_u in
  let '(lo_v, hi_v) := page_range lo_v hi_v in
  st <| env := (env st) <| g_uv_lim := [lo_u; lo_v; hi_u; hi_v] |> |>.

Definition sw_rect_uv_limits (u0 v0 u1 v1 : Z) (st : State) : State :=
  let lim0 := if u0 <? u1 then u0 else u1 in let lim2 := if u0 <? u1 then u1 - 1 else u0 in
  let lim1 := if v0 <? v1 then v0 else v1 in let lim3 := if v0 <? v1 then v1 - 1 else v0 in
  let lim2 := if lim2 <? lim0 then lim0 else lim2 in
  let lim3 := if lim3 <? lim1 then lim1 else lim3 in
  let '(lim0, lim2) := page_range lim0 lim2 in
  let '(lim1, lim3) := page_range lim1 lim3 in
  st <| env := (env st) <| g_uv_lim := [lim0; lim1; lim2; lim3] |> |>.

(** ** Initialisation and drawing state *)

(** The statics as the program starts: the backdrop stretch is on, at the automatic
    scale. *)
Definition env0 : DrawEnv := mkEnv 0 0 0 0 0 0 0 0 0 0 0 0 0 0 0 0 0 0 0 [0; 0; 255; 255].
Definition shadow0 : Shadow :=
  mkShadow None 1 VRAM_WIDTH VRAM_HEIGHT (replicate 4 None) (replicate 4 0) 0 0 None 0 true 0 false.

Definition sw_renderer_init (vram : gmap Z Z) (st : State) : State :=
  st <| g_vram := vram |> <| env := (env st)
    <| g_clip_x1 := 0 |> <| g_clip_y1 := 0 |> <| g_clip_x2 := VRAM_WIDTH - 1 |> <| g_clip_y2 := VRAM_HEIGHT - 1 |>
    <| g_offset_x := 0 |> <| g_offset_y := 0 |> <| g_semi_trans_enabled := 0 |> <| g_semi_trans_mode := 0 |>
    <| g_mask_set_bit := 0 |> <| g_mask_check_bit := 0 |> <| g_tw_mask_x := 0 |> <| g_tw_mask_y := 0 |>
    <| g_tw_off_x := 0 |> <| g_tw_off_y := 0 |> <| g_mod_r := 16 |> <| g_mod_g := 16 |> <| g_mod_b := 16 |>
    <| g_raw_texture := 0 |> <| g_texture_filter := 0 |> |>.

Definition wide_free_all (sh : Shadow) : Shadow :=
  sh <| g_wide_surf := replicate 4 None |> <| g_wide_base := replicate 4 (-1) |> <| g_wide_cur := None |>.

Definition sw_set_texture_filter (bilinear : Z) (st : State) : State :=
  st <| env := (env st) <| g_texture_filter := if bilinear =? 0 then 0 else 1 |> |>.
Definition sw_texture_filter (st : State) : Z := g_texture_filter (env st).

Definition sw_set_semi_transparency (enabled mode : Z) (st : State) : State :=
  st <| env := (env st) <| g_semi_trans_enabled := enabled |> <| g_semi_trans_mode := Z.land mode 3 |> |>.

Definition sw_set_mask_bits (set_bit check_bit : Z) (st : State) : State :=
  st <| env := (env st) <| g_mask_set_bit := set_bit |> <| g_mask_check_bit := check_bit |> |>.

Definition sw_set_texture_window (raw : Z) (st : State) : State :=
  st <| env := (env st)
    <| g_tw_mask_x := u8 (Z.land raw 0x1F) |> <| g_tw_mask_y := u8 (Z.land (Z.shiftr raw 5) 0x1F) |>
    <| g_tw_off_x := u8 (Z.land (Z.shiftr raw 10) 0x1F) |> <| g_tw_off_y := u8 (Z.land (Z.shiftr raw 15) 0x1F) |> |>.

Definition sw_set_color_modulation (r g b raw_texture : Z) (st : State) : State :=
  st <| env := (env st)
    <| g_mod_r := u8 (Z.shiftr r 3) |> <| g_mod_g := u8 (Z.shiftr g 3) |> <| g_mod_b := u8 (Z.shiftr b 3) |>
    <| g_raw_texture := raw_texture |> |>.

Definition sw_set_draw_area (x1 y1 x2 y2 : Z) (st : State) : State :=
  st <| env := (env st)
    <| g_clip_x1 := clamp_i x1 0 (VRAM_WIDTH - 1) |> <| g_clip_y1 := clamp_i y1 0 (VRAM_HEIGHT - 1) |>
    <| g_clip_x2 := clamp_i x2 0 (VRAM_WIDTH - 1) |> <| g_clip_y2 := clamp_i y2 0 (VRAM_HEIGHT - 1) |> |>.

Definition sw_get_draw_area (st : State) : Z * Z * Z * Z :=
  (g_clip_x1 (env st), g_clip_y1 (env st), g_clip_x2 (env st), g_clip_y2 (env st)).

Definition sw_set_draw_offset (x y : Z) (st : State) : State :=
  st <| env := (env st) <| g_offset_x := x |> <| g_offset_y := y |> |>.

Section Renderer.
Context `{Heap}.

Definition sw_renderer_set_scale (scale : Z) (st : State) : State :=
  let scale := if scale <? 1 then 1 else scale in
  let scale := if SW_MAX_INTERNAL_SCALE <? scale then SW_MAX_INTERNAL_SCALE else scale in
  let sh := wide_free_all ((shadow st) <| g_hr := None |>) in
  let sh := sh <| g_scale := scale |> in
  let native sh := sh <| g_hr_w := VRAM_WIDTH |> <| g_hr_h := VRAM_HEIGHT |> in
  st <| shadow :=
    if 1 <? scale then
      let w := VRAM_WIDTH * scale in let h := VRAM_HEIGHT * scale in
      if alloc_ok (w * h) then
        sh <| g_hr_w := w |> <| g_hr_h := h |> <| g_hr := Some (mkBuffer (w * h) ∅) |>
      else native (sh <| g_scale := 1 |>)
    else native sh |>.

Definition sw_renderer_scale (st : State) : Z := g_scale (shadow st).

(** Run [f] when the mirror exists, when a wide surface is selected. *)
Definition if_hr (f : State -> State) (st : State) : State :=
  match g_hr (shadow st) with Some _ => f st | None => st end.
Definition if_wide (f : Z -> State -> State) (st : State) : State :=
  match g_wide_cur (shadow st) with Some slot => f slot st | None => st end.

(** ** Fills and copies *)

Definition hr_fill_block (x y w h color : Z) (st : State) : State :=
  let sh := shadow st in let s := g_scale sh in
  let x0 := Z.land x (VRAM_WIDTH - 1) * s in
  let y0 := Z.land y (VRAM_HEIGHT - 1) * s in
  forZ 0 (h * s) (fun row st =>
    let py := Z.rem (y0 + row) (g_hr_h sh) in
    forZ 0 (w * s) (fun col st =>
      let px := Z.rem (x0 + col) (g_hr_w sh) in
      hr_set (py * g_hr_w sh + px) color st) st) st.

Definition sw_fill_rect (x y w h color : Z) (st : State) : State :=
  let x0 := Z.land x (VRAM_WIDTH - 1) in
  let y0 := Z.land y (VRAM_HEIGHT - 1) in
  let st := forZ 0 h (fun row st =>
    let py := Z.land (y0 + row) (VRAM_HEIGHT - 1) in
    forZ 0 w (fun col st =>
      let px := Z.land (x0 + col) (VRAM_WIDTH - 1) in
      poke (py * VRAM_WIDTH + px) color st) st) st in
  if_hr (hr_fill_block x y w h color) st.

(** One row of a copy: the source row and its super-rows are read from the state
    at the start of the row. *)
Definition copy_row (src_x src_y dst_x dst_y w row : Z) (hr_rows : bool) (st0 : State) : State :=
  let s := g_scale (shadow st0) in
  let hr_w := g_hr_w (shadow st0) in let hr_h := g_hr_h (shadow st0) in
  let sy := Z.land (src_y + row) (VRAM_HEIGHT - 1) in
  let dy := Z.land (dst_y + row) (VRAM_HEIGHT - 1) in
  let row_buf col := cell (sy * VRAM_WIDTH + Z.land (src_x + col) (VRAM_WIDTH - 1)) st0 in
  let hr_row sr col sc :=
    hr_get (Z.rem (sy * s + sr) hr_h * hr_w + Z.rem (Z.land (src_x + col) (VRAM_WIDTH - 1) * s + sc) hr_w) st0 in
  forZ 0 w (fun col st =>
    let e := env st in
    let dx := Z.land (dst_x + col) (VRAM_WIDTH - 1) in
    let pix := row_buf col in
    if negb (g_mask_check_bit e =? 0) && has (cell (dy * VRAM_WIDTH + dx) st) 0x8000 then st
    else
      let marked p := if negb (g_mask_set_bit e =? 0) then Z.lor p 0x8000 else p in
      let st := poke (dy * VRAM_WIDTH + dx) (marked pix) st in
      if hr_rows then
        forZ 0 s (fun sr st =>
          let hdy := Z.rem (dy * s + sr) hr_h in
          forZ 0 s (fun sc st =>
            let hdx := Z.rem (dx * s + sc) hr_w in
            hr_set (hdy * hr_w + hdx) (marked (hr_row sr col sc)) st) st) st
      else st) st0.

Definition sw_copy_rect (src_x src_y dst_x dst_y w h : Z) (st : State) : State :=
  let s := g_scale (shadow st) in
  let hr_rows := bool_decide (g_hr (shadow st) <> None) && alloc_ok (w * s * s) in
  forZ 0 h (fun row st => copy_row src_x src_y dst_x dst_y w row hr_rows st) st.

(** ** Triangles *)

(** Three conditional swaps ordering the vertices by their y coordinate. *)
Definition sort3 {A} (y : A -> Z) (a b c : A) : A * A * A :=
  let '(a, b) := if y b <? y a then (b, a) else (a, b) in
  let '(a, c) := if y c <? y a then (c, a) else (a, c) in
  let '(b, c) := if y c <? y b then (c, b) else (b, c) in
  (a, b, c).

(** The position of a scan line on the long edge and on the short one:
    whether it is in the second half, [alpha] and [beta]. *)
Definition scan (y y0 y1 y2 : Z) : bool * f32 * f32 :=
  let second_half := y1 <=? y in
  let seg_height := if second_half then y2 - y1 else y1 - y0 in
  let seg_height := if seg_height =? 0 then 1 else seg_height in
  let alpha := f_div (f_of (y - y0)) (f_of (y2 - y0)) in
  let beta := f_div (f_of (y - (if second_half then y1 else y0))) (f_of seg_height) in
  (second_half, alpha, beta).

(** [a + (int)((float)(b - a) * t)] and its float version. *)
Definition lerp_i (a b : Z) (t : f32) : Z := a + f_trunc (f_mul (f_of (b - a)) t).
Definition lerp_f (a b : Z) (t : f32) : f32 := f_add (f_of a) (f_mul (f_of (b - a)) t).
Definition lerp_ff (a b t : f32) : f32 := f_add a (f_mul (f_sub b a) t).

(** An attribute at both ends of a scan line: on the long edge from vertex 0 to
    vertex 2, and on the short one. *)
Definition edges_i (sc : bool * f32 * f32) (a0 a1 a2 : Z) : Z * Z :=
  let '(second, alpha, beta) := sc in
  (lerp_i a0 a2 alpha, if second then lerp_i a1 a2 beta else lerp_i a0 a1 beta).
Definition edges_f (sc : bool * f32 * f32) (a0 a1 a2 : Z) : f32 * f32 :=
  let '(second, alpha, beta) := sc in
  (lerp_f a0 a2 alpha, if second then lerp_f a1 a2 beta else lerp_f a0 a1 beta).

Definition swap_if {A} (b : bool) (p : A * A) : A * A := if b then (p.2, p.1) else p.

(** The scan lines of a triangle inside the clip rectangle. *)
Definition scan_lines (t : RTarget) (y0 y2 : Z) (line : Z -> State -> State) (st : State) : State :=
  if y2 - y0 =? 0 then st
  else forZ y0 (y2 + 1) (fun y st => if (y <? t_cy1 t) || (t_cy2 t <? y) then st else line y st) st.

Definition span (t : RTarget) (xa xb : Z) (pixel : Z -> State -> State) (st : State) : State :=
  forZ (max_i xa (t_cx1 t)) (min_i xb (t_cx2 t) + 1) pixel st.

Definition raster_flat_triangle (t : RTarget) (x0 y0 x1 y1 x2 y2 color : Z) (st : State) : State :=
  let '((x0, y0), (x1, y1), (x2, y2)) := sort3 snd (x0, y0) (x1, y1) (x2, y2) in
  scan_lines t y0 y2 (fun y st =>
    let sc := scan y y0 y1 y2 in
    let xs := edges_i sc x0 x1 x2 in
    let '(xa, xb) := swap_if (snd xs <? fst xs) xs in
    span t xa xb (fun x st => put_opaque t x y color st) st) st.

Definition sw_draw_flat_triangle (x0 y0 x1 y1 x2 y2 color : Z) (st : State) : State :=
  let st := raster_flat_triangle (rt_native st) x0 y0 x1 y1 x2 y2 color st in
  let st := if_hr (fun st =>
    let s := g_scale (shadow st) in
    raster_flat_triangle (rt_hires st) (x0 * s) (y0 * s) (x1 * s) (y1 * s) (x2 * s) (y2 * s) color st) st in
  if_wide (fun slot st =>
    let s := g_scale (shadow st) in let dx := wide_dx st in let bd := wide_bd_get st in
    raster_flat_triangle (rt_wide slot st) ((wide_bd_x bd x0 + dx) * s) (y0 * s) ((wide_bd_x bd x1 + dx) * s) (y1 * s)
      ((wide_bd_x bd x2 + dx) * s) (y2 * s) color st) st.

Definition rgb_of (c : Z) : Z * Z * Z := (red c, green c, blue c).

Definition clamp31 (v : Z) : Z := cap31 (floor0 v).

Definition raster_gouraud_triangle (t : RTarget) (x0 y0 c0 x1 y1 c1 x2 y2 c2 : Z) (st : State) : State :=
  let '((x0, y0, (r0, g0, b0)), (x1, y1, (r1, g1, b1)), (x2, y2, (r2, g2, b2))) :=
    sort3 (fun v => snd (fst v)) (x0, y0, rgb_of c0) (x1, y1, rgb_of c1) (x2, y2, rgb_of c2) in
  scan_lines t y0 y2 (fun y st =>
    let sc := scan y y0 y1 y2 in
    let xs := edges_i sc x0 x1 x2 in
    let flip := snd xs <? fst xs in
    let '(xa, xb) := swap_if flip xs in
    let '(ra, rb) := swap_if flip (edges_i sc r0 r1 r2) in
    let '(ga, gb) := swap_if flip (edges_i sc g0 g1 g2) in
    let '(ba, bb) := swap_if flip (edges_i sc b0 b1 b2) in
    let sp := xb - xa in
    span t xa xb (fun x st =>
      let color :=
        if 0 <? sp then
          let tf := f_div (f_of (x - xa)) (f_of sp) in
          rgb (clamp31 (lerp_i ra rb tf)) (clamp31 (lerp_i ga gb tf)) (clamp31 (lerp_i ba bb tf))
        else rgb ra ga ba in
      put_opaque t x y color st) st) st.

Definition sw_draw_gouraud_triangle (x0 y0 c0 x1 y1 c1 x2 y2 c2 : Z) (st : State) : State :=
  let st := raster_gouraud_triangle (rt_native st) x0 y0 c0 x1 y1 c1 x2 y2 c2 st in
  let st := if_hr (fun st =>
    let s := g_scale (shadow st) in
    raster_gouraud_triangle (rt_hires st) (x0 * s) (y0 * s) c0 (x1 * s) (y1 * s) c1 (x2 * s) (y2 * s) c2 st) st in
  if_wide (fun slot st =>
    let s := g_scale (shadow st) in let dx := wide_dx st in let bd := wide_bd_get st in
    raster_gouraud_triangle (rt_wide slot st) ((wide_bd_x bd x0 + dx) * s) (y0 * s) c0
      ((wide_bd_x bd x1 + dx) * s) (y1 * s) c1 ((wide_bd_x bd x2 + dx) * s) (y2 * s) c2 st) st.

(** The texel a textured primitive draws at real texture coordinates. *)
Definition sample (fu fv : f32) (texpage clut_x clut_y : Z) (st : State) : Z :=
  if g_texture_filter (env st) =? 0
  then texel_fetch (Z.land (f_trunc fu) 0xFF) (Z.land (f_trunc fv) 0xFF) texpage clut_x clut_y st
  else texel_fetch_bilinear fu fv texpage clut_x clut_y st.

Definition put_modulated (t : RTarget) (x y texel : Z) (st : State) : State :=
  let e := env st in put_textured t x y texel (g_mod_r e) (g_mod_g e) (g_mod_b e) (g_raw_texture e) st.

Definition raster_textured_triangle (t : RTarget) (x0 y0 u0 v0 x1 y1 u1 v1 x2 y2 u2 v2 clut_x clut_y texpage : Z)
    (st : State) : State :=
  let '((x0, y0, (u0, v0)), (x1, y1, (u1, v1)), (x2, y2, (u2, v2))) :=
    sort3 (fun v => snd (fst v)) (x0, y0, (u0, v0)) (x1, y1, (u1, v1)) (x2, y2, (u2, v2)) in
  scan_lines t y0 y2 (fun y st =>
    let sc := scan y y0 y1 y2 in
    let xs := edges_i sc x0 x1 x2 in
    let flip := snd xs <? fst xs in
    let '(xa, xb) := swap_if flip xs in
    let '(ua, ub) := swap_if flip (edges_f sc u0 u1 u2) in
    let '(va, vb) := swap_if flip (edges_f sc v0 v1 v2) in
    let sp := if xb - xa =? 0 then 1 else xb - xa in
    span t xa xb (fun x st =>
      let t_val := f_div (f_of (x - xa)) (f_of sp) in
      put_modulated t x y (sample (lerp_ff ua ub t_val) (lerp_ff va vb t_val) texpage clut_x clut_y st) st) st) st.

(** Twice the signed area; the products are 64-bit in the code. *)
Definition area2 (x0 y0 x1 y1 x2 y2 : Z) : Z := (x1 - x0) * (y2 - y0) - (x2 - x0) * (y1 - y0).

Definition sw_draw_textured_triangle (x0 y0 u0 v0 x1 y1 u1 v1 x2 y2 u2 v2 clut_x clut_y texpage : Z) (st : State) : State :=
  if area2 x0 y0 x1 y1 x2 y2 =? 0 then st
  else
    let st := if g_texture_filter (env st) =? 0 then st
              else sw_tri_uv_limits (x0, x1, x2) (y0, y1, y2) (u0, u1, u2) (v0, v1, v2) st in
    let st := raster_textured_triangle (rt_native st) x0 y0 u0 v0 x1 y1 u1 v1 x2 y2 u2 v2 clut_x clut_y texpage st in
    let st := if_hr (fun st =>
      let s := g_scale (shadow st) in
      raster_textured_triangle (rt_hires st) (x0 * s) (y0 * s) u0 v0 (x1 * s) (y1 * s) u1 v1 (x2 * s) (y2 * s) u2 v2
        clut_x clut_y texpage st) st in
    if_wide (fun slot st =>
      let s := g_scale (shadow st) in let dx := wide_dx st in let bd := wide_bd_get st in
      raster_textured_triangle (rt_wide slot st) ((wide_bd_x bd x0 + dx) * s) (y0 * s) u0 v0
        ((wide_bd_x bd x1 + dx) * s) (y1 * s) u1 v1 ((wide_bd_x bd x2 + dx) * s) (y2 * s) u2 v2
        clut_x clut_y texpage st) st.

Definition color24_to_mod (color : Z) : Z * Z * Z :=
  (Z.shiftr (Z.land color 0xFF) 3, Z.shiftr (Z.land (Z.shiftr color 8) 0xFF) 3, Z.shiftr (Z.land (Z.shiftr color 16) 0xFF) 3).

Definition raster_shaded_textured_triangle (t : RTarget)
    (x0 y0 u0 v0 : Z) (m0 : Z * Z * Z) (x1 y1 u1 v1 : Z) (m1 : Z * Z * Z) (x2 y2 u2 v2 : Z) (m2 : Z * Z * Z)
    (clut_x clut_y texpage raw_texture : Z) (st : State) : State :=
  let '((x0, y0, (u0, v0, (r0, g0, b0))), (x1, y1, (u1, v1, (r1, g1, b1))), (x2, y2, (u2, v2, (r2, g2, b2)))) :=
    sort3 (fun v => snd (fst v)) (x0, y0, (u0, v0, m0)) (x1, y1, (u1, v1, m1)) (x2, y2, (u2, v2, m2)) in
  scan_lines t y0 y2 (fun y st =>
    let sc := scan y y0 y1 y2 in
    let xs := edges_i sc x0 x1 x2 in
    let flip := snd xs <? fst xs in
    let '(xa, xb) := swap_if flip xs in
    let '(ua, ub) := swap_if flip (edges_f sc u0 u1 u2) in
    let '(va, vb) := swap_if flip (edges_f sc v0 v1 v2) in
    let '(ra, rb) := swap_if flip (edges_f sc r0 r1 r2) in
    let '(ga, gb) := swap_if flip (edges_f sc g0 g1 g2) in
    let '(ba, bb) := swap_if flip (edges_f sc b0 b1 b2) in
    let sp := if xb - xa =? 0 then 1 else xb - xa in
    span t xa xb (fun x st =>
      let t_val := f_div (f_of (x - xa)) (f_of sp) in
      let texel := sample (lerp_ff ua ub t_val) (lerp_ff va vb t_val) texpage clut_x clut_y st in
      let channel a b := clamp31 (f_trunc (lerp_ff a b t_val)) in
      put_textured t x y texel (channel ra rb) (channel ga gb) (channel ba bb) raw_texture st) st) st.

Definition sw_draw_shaded_textured_triangle (x0 y0 u0 v0 color0 x1 y1 u1 v1 color1 x2 y2 u2 v2 color2
    clut_x clut_y texpage raw_texture : Z) (st : State) : State :=
  if area2 x0 y0 x1 y1 x2 y2 =? 0 then st
  else
    let st := if g_texture_filter (env st) =? 0 then st
              else sw_tri_uv_limits (x0, x1, x2) (y0, y1, y2) (u0, u1, u2) (v0, v1, v2) st in
    let m0 := color24_to_mod color0 in let m1 := color24_to_mod color1 in let m2 := color24_to_mod color2 in
    let st := raster_shaded_textured_triangle (rt_native st) x0 y0 u0 v0 m0 x1 y1 u1 v1 m1 x2 y2 u2 v2 m2
      clut_x clut_y texpage raw_texture st in
    let st := if_hr (fun st =>
      let s := g_scale (shadow st) in
      raster_shaded_textured_triangle (rt_hires st) (x0 * s) (y0 * s) u0 v0 m0 (x1 * s) (y1 * s) u1 v1 m1
        (x2 * s) (y2 * s) u2 v2 m2 clut_x clut_y texpage raw_texture st) st in
    if_wide (fun slot st =>
      let s := g_scale (shadow st) in let dx := wide_dx st in let bd := wide_bd_get st in
      raster_shaded_textured_triangle (rt_wide slot st) ((wide_bd_x bd x0 + dx) * s) (y0 * s) u0 v0 m0
        ((wide_bd_x bd x1 + dx) * s) (y1 * s) u1 v1 m1 ((wide_bd_x bd x2 + dx) * s) (y2 * s) u2 v2 m2
        clut_x clut_y texpage raw_texture st) st.

(** ** Rectangles *)

Definition raster_flat_rect (t : RTarget) (x y w h color : Z) (st : State) : State :=
  forZ 0 h (fun row st =>
    let py := y + row in
    if (py <? t_cy1 t) || (t_cy2 t <? py) then st
    else forZ (max_i x (t_cx1 t)) (min_i (x + w - 1) (t_cx2 t) + 1) (fun px st => put_opaque t px py color st) st) st.

Definition sw_draw_flat_rect (x y w h color : Z) (st : State) : State :=
  let st := raster_flat_rect (rt_native st) x y w h color st in
  let st := if_hr (fun st =>
    let s := g_scale (shadow st) in raster_flat_rect (rt_hires st) (x * s) (y * s) (w * s) (h * s) color st) st in
  if_wide (fun slot st =>
    let sh := shadow st in let s := g_scale sh in let dx := wide_dx st in
    let native_w := g_wide_w sh - 2 * g_wide_off sh in
    let lx := x - g_wide_cur_base sh in let rx := x + w - g_wide_cur_base sh in
    let bd := wide_bd_get st in
    if (0 <? native_w) && (lx <=? 0) && (native_w <=? rx) then
      raster_flat_rect (rt_wide slot st) 0 (y * s) (g_wide_w sh * s) (h * s) color st
    else if bd_on bd then
      let xl := wide_bd_x bd x in let xr := wide_bd_x bd (x + w) in
      raster_flat_rect (rt_wide slot st) ((xl + dx) * s) (y * s) ((xr - xl) * s) (h * s) color st
    else raster_flat_rect (rt_wide slot st) ((x + dx) * s) (y * s) (w * s) (h * s) color st) st.

(** The rows and columns of a textured rectangle inside the clip rectangle. *)
Definition rect_pixels (t : RTarget) (x y w h : Z) (texel : Z -> Z -> State -> Z) (st : State) : State :=
  forZ 0 h (fun row st =>
    let py := y + row in
    if (py <? t_cy1 t) || (t_cy2 t <? py) then st
    else forZ 0 w (fun col st =>
      let px := x + col in
      if (px <? t_cx1 t) || (t_cx2 t <? px) then st else put_modulated t px py (texel row col st) st) st) st.

Definition raster_textured_rect (t : RTarget) (x y w h u v clut_x clut_y texpage : Z) (st : State) : State :=
  let s := t_s t in
  rect_pixels t x y w h (fun row col st =>
    if g_texture_filter (env st) =? 0
    then texel_fetch (Z.land (u + Z.quot col s) 0xFF) (Z.land (v + Z.quot row s) 0xFF) texpage clut_x clut_y st
    else texel_fetch_bilinear (f_add (f_of u) (f_div (f_of col) (f_of s))) (f_add (f_of v) (f_div (f_of row) (f_of s)))
           texpage clut_x clut_y st) st.

Definition raster_textured_rect_scaled (t : RTarget) (x y w h u0 v0 u1 v1 clut_x clut_y texpage : Z) (st : State) : State :=
  if (w <=? 0) || (h <=? 0) then st
  else
    let du := u1 - u0 in let dv := v1 - v0 in
    rect_pixels t x y w h (fun row col st =>
      if g_texture_filter (env st) =? 0
      then texel_fetch (Z.land (u0 + Z.quot (du * col) w) 0xFF) (Z.land (v0 + Z.quot (dv * row) h) 0xFF) texpage clut_x clut_y st
      else texel_fetch_bilinear (f_add (f_of u0) (f_div (f_mul (f_of du) (f_of col)) (f_of w)))
             (f_add (f_of v0) (f_div (f_mul (f_of dv) (f_of row)) (f_of h))) texpage clut_x clut_y st) st.

Definition sw_draw_textured_rect (x y w h u v clut_x clut_y texpage : Z) (st : State) : State :=
  let st := if g_texture_filter (env st) =? 0 then st else sw_rect_uv_limits u v (u + w) (v + h) st in
  let st := raster_textured_rect (rt_native st) x y w h u v clut_x clut_y texpage st in
  let st := if_hr (fun st =>
    let s := g_scale (shadow st) in
    raster_textured_rect (rt_hires st) (x * s) (y * s) (w * s) (h * s) u v clut_x clut_y texpage st) st in
  if_wide (fun slot st =>
    let s := g_scale (shadow st) in let dx := wide_dx st in let bd := wide_bd_get st in
    if bd_on bd then
      let xl := wide_bd_x bd x in let xr := wide_bd_x bd (x + w) in
      raster_textured_rect_scaled (rt_wide slot st) ((xl + dx) * s) (y * s) ((xr - xl) * s) (h * s) u v (u + w) (v + h)
        clut_x clut_y texpage st
    else raster_textured_rect (rt_wide slot st) ((x + dx) * s) (y * s) (w * s) (h * s) u v clut_x clut_y texpage st) st.

Definition sw_wide_emit_tile (band_y x y u v clut_x clut_y texpage color24 semi_trans semi_mode raw_texture : Z)
    (st : State) : State :=
  if_wide (fun slot st =>
    let sh := shadow st in let s := g_scale sh in let dx := wide_dx st in
    let t := mkRT (Wide slot) (g_wide_w sh * s) (VRAM_HEIGHT * s) s 0 (band_y * s) (g_wide_w sh * s - 1) ((band_y + 240) * s - 1) in
    let st := st <| env := (env st)
      <| g_mod_r := u8 (Z.shiftr (Z.land color24 0xff) 3) |>
      <| g_mod_g := u8 (Z.shiftr (Z.land (Z.shiftr color24 8) 0xff) 3) |>
      <| g_mod_b := u8 (Z.shiftr (Z.land (Z.shiftr color24 16) 0xff) 3) |>
      <| g_raw_texture := if raw_texture =? 0 then 0 else 1 |>
      <| g_semi_trans_enabled := if semi_trans =? 0 then 0 else 1 |>
      <| g_semi_trans_mode := Z.land semi_mode 3 |> |> in
    raster_textured_rect t ((x + dx) * s) (y * s) (16 * s) (16 * s) u v clut_x clut_y texpage st) st.

Definition sw_draw_textured_rect_scaled (x y w h u0 v0 u1 v1 clut_x clut_y texpage : Z) (st : State) : State :=
  if (w <=? 0) || (h <=? 0) then st
  else
    let st := if g_texture_filter (env st) =? 0 then st else sw_rect_uv_limits u0 v0 u1 v1 st in
    let st := raster_textured_rect_scaled (rt_native st) x y w h u0 v0 u1 v1 clut_x clut_y texpage st in
    let st := if_hr (fun st =>
      let s := g_scale (shadow st) in
      raster_textured_rect_scaled (rt_hires st) (x * s) (y * s) (w * s) (h * s) u0 v0 u1 v1 clut_x clut_y texpage st) st in
    if_wide (fun slot st =>
      let s := g_scale (shadow st) in let dx := wide_dx st in let bd := wide_bd_get st in
      let xl := wide_bd_x bd x in let xr := wide_bd_x bd (x + w) in
      raster_textured_rect_scaled (rt_wide slot st) ((xl + dx) * s) (y * s) ((xr - xl) * s) (h * s) u0 v0 u1 v1
        clut_x clut_y texpage st) st.

(** ** Lines *)

(** An s by s block of the mirror or of the wide surface. *)
Definition put_block (t : RTarget) (bx by_ s color : Z) (st : State) : State :=
  forZ 0 s (fun dy st => forZ 0 s (fun dx st => put_opaque t (bx + dx) (by_ + dy) color st) st) st.

Definition hr_put_block_opaque (nx ny color : Z) (st : State) : State :=
  let s := g_scale (shadow st) in put_block (rt_hires st) (nx * s) (ny * s) s color st.

Definition wide_put_block_opaque (nx ny color : Z) (st : State) : State :=
  if_wide (fun slot st =>
    let s := g_scale (shadow st) in
    put_block (rt_wide slot st) ((nx + wide_dx st) * s) (ny * s) s color st) st.

Definition line_pixel (n : RTarget) (x y color : Z) (st : State) : State :=
  let st := put_opaque n x y color st in
  let st := if_hr (hr_put_block_opaque x y color) st in
  wide_put_block_opaque x y color st.

(** The variables of the line loops. *)
Record Line := mkLine { ln_x : Z; ln_y : Z; ln_err : Z; ln_step : Z; ln_st : State }.

(** One round of Bresenham's loop: the pixel, then the step towards the end. *)
Definition line_advance (dx dy sx sy : Z) (l : Line) : Line :=
  let e2 := 2 * ln_err l in
  let '(err, x) := if dy <=? e2 then (ln_err l + dy, ln_x l + sx) else (ln_err l, ln_x l) in
  let '(err, y) := if e2 <=? dx then (err + dx, ln_y l + sy) else (err, ln_y l) in
  mkLine x y err (ln_step l + 1) (ln_st l).

Definition line_put (n : RTarget) (color : Z -> Z) (l : Line) : Line :=
  mkLine (ln_x l) (ln_y l) (ln_err l) (ln_step l) (line_pixel n (ln_x l) (ln_y l) (color (ln_step l)) (ln_st l)).

Definition line_going (x1 y1 : Z) (l : Line) : bool := negb ((ln_x l =? x1) && (ln_y l =? y1)).

(** The [for] loop ends with the pixel at the end point; [fuel] bounds its rounds. *)
Definition line_loop (fuel : nat) (n : RTarget) (color : Z -> Z) (x0 y0 x1 y1 : Z) (st : State) : Line :=
  let dx := Z.abs (x1 - x0) in let dy := - Z.abs (y1 - y0) in
  let sx := if x0 <? x1 then 1 else -1 in let sy := if y0 <? y1 then 1 else -1 in
  nwhile fuel (line_going x1 y1) (fun l => line_put n color (line_advance dx dy sx sy l))
    (line_put n color (mkLine x0 y0 (dx + dy) 0 st)).

Definition line_fuel (x0 y0 x1 y1 : Z) : nat := Z.to_nat (max_i (Z.abs (x1 - x0)) (Z.abs (y1 - y0))).

Definition sw_draw_line (x0 y0 x1 y1 color : Z) (st : State) : State :=
  ln_st (line_loop (line_fuel x0 y0 x1 y1) (rt_native st) (fun _ => color) x0 y0 x1 y1 st).

Definition shade (c0 c1 step total : Z) : Z := c0 + Z.quot ((c1 - c0) * step) total.

Definition sw_draw_shaded_line (x0 y0 c0 x1 y1 c1 : Z) (st : State) : State :=
  let total := max_i (Z.abs (x1 - x0)) (Z.abs (y1 - y0)) in
  let total := if total =? 0 then 1 else total in
  let color step :=
    rgb (shade (red c0) (red c1) step total) (shade (green c0) (green c1) step total) (shade (blue c0) (blue c1) step total) in
  ln_st (line_loop (line_fuel x0 y0 x1 y1) (rt_native st) color x0 y0 x1 y1 st).

(** ** Pixel access and transfers *)

Definition sw_vram_write (x y pixel : Z) (st : State) : State :=
  let x := Z.land x (VRAM_WIDTH - 1) in
  let y := Z.land y (VRAM_HEIGHT - 1) in
  let st := poke (y * VRAM_WIDTH + x) pixel st in
  if_hr (fun st =>
    let sh := shadow st in let s := g_scale sh in
    forZ 0 s (fun dy st => forZ 0 s (fun dx st =>
      hr_set ((y * s + dy) * g_hr_w sh + x * s + dx) pixel st) st) st) st.

Definition sw_vram_read (x y : Z) (st : State) : Z := vram_get x y st.

Definition sw_vram_transfer_in (x y w h : Z) (data : list Z) (st : State) : State :=
  forZ 0 h (fun row st =>
    let py := Z.land (y + row) (VRAM_HEIGHT - 1) in
    forZ 0 w (fun col st =>
      let px := Z.land (x + col) (VRAM_WIDTH - 1) in
      let pixel := aget data (row * w + col) in
      let st := poke (py * VRAM_WIDTH + px) pixel st in
      if_hr (fun st =>
        let sh := shadow st in let s := g_scale sh in
        forZ 0 s (fun dy st => forZ 0 s (fun dx st =>
          hr_set (Z.rem (py * s + dy) (g_hr_h sh) * g_hr_w sh + Z.rem (px * s + dx) (g_hr_w sh)) pixel st) st) st) st) st) st.

Definition sw_vram_transfer_out (x y w h : Z) (st : State) : list Z :=
  forZ 0 h (fun row data =>
    let py := Z.land (y + row) (VRAM_HEIGHT - 1) in
    forZ 0 w (fun col data => data ++ [cell (py * VRAM_WIDTH + Z.land (x + col) (VRAM_WIDTH - 1)) st]) data) [].

(** ** Display output *)

Definition expand5 (c : Z) : Z := u8 (Z.lor (Z.shiftl c 3) (Z.shiftr c 2)).

Definition rgb555_to_argb (pix : Z) : Z :=
  Z.lor (Z.lor (Z.lor (Z.shiftl (expand5 (red pix)) 16) (Z.shiftl (expand5 (green pix)) 8)) (expand5 (blue pix))) 0xFF000000.

(** The rows of an output picture, whose pixels are counted. *)
Definition picture (rows cols : Z) (pixel : Z -> Z -> Z) : list (list Z) * Z :=
  let out := map (fun row => map (pixel row) (seqZ 0 cols)) (seqZ 0 rows) in
  (out, Z.of_nat (length (concat out))).

Definition sw_render_display (disp_x disp_y disp_w disp_h : Z) (st : State) : list (list Z) * Z :=
  picture disp_h disp_w (fun row col =>
    let vy := Z.land (disp_y + row) (VRAM_HEIGHT - 1) in
    let vx := Z.land (disp_x + col) (VRAM_WIDTH - 1) in
    rgb555_to_argb (cell (vy * VRAM_WIDTH + vx) st)).

Definition sw_render_display_hires (disp_x disp_y disp_w disp_h : Z) (st : State) : list (list Z) * Z :=
  let sh := shadow st in let s := g_scale sh in
  if bool_decide (g_hr sh = None) || (s <=? 1) then sw_render_display disp_x disp_y disp_w disp_h st
  else picture (disp_h * s) (disp_w * s) (fun row col =>
    let vy := Z.rem (disp_y * s + row) (g_hr_h sh) in
    let vx := Z.rem (disp_x * s + col) (g_hr_w sh) in
    rgb555_to_argb (hr_get (vy * g_hr_w sh + vx) st)).

(** ** Native-wide surfaces *)

Definition first_slot (p : Z -> bool) : option Z := find p (seqZ 0 WIDE_MAX_SURF).

Definition wide_surf_for (base_x : Z) (sh : Shadow) : option Z * Shadow :=
  if g_wide_w sh <=? 0 then (None, sh)
  else
    match first_slot (fun i => bool_decide (surf_at i sh <> None) && (aget (g_wide_base sh) i =? base_x)) with
    | Some i => (Some i, sh)
    | None =>
        match first_slot (fun i => bool_decide (surf_at i sh = None)) with
        | Some i =>
            let n := (g_wide_w sh * g_scale sh) * (VRAM_HEIGHT * g_scale sh) in
            if alloc_ok n then
              (Some i, sh <| g_wide_surf := <[Z.to_nat i := Some (mkBuffer n ∅)]> (g_wide_surf sh) |>
                          <| g_wide_base := aset (g_wide_base sh) i base_x |>)
            else (None, sh)
        | None => (None, sh)
        end
    end.

Definition sw_wide_configure (wide_w offset : Z) (st : State) : State :=
  let sh := shadow st in
  st <| shadow :=
    if wide_w <=? 0 then (wide_free_all sh) <| g_wide_w := 0 |> <| g_wide_off := 0 |>
    else (if negb (wide_w =? g_wide_w sh) then wide_free_all sh else sh) <| g_wide_w := wide_w |> <| g_wide_off := offset |> |>.

Definition sw_wide_set_target (base_x : Z) (st : State) : State :=
  let '(slot, sh) := wide_surf_for base_x (shadow st) in
  st <| shadow := sh <| g_wide_cur := slot |> <| g_wide_cur_base := base_x |> |>.

Definition sw_wide_disable_target (st : State) : State :=
  st <| shadow := (shadow st) <| g_wide_cur := None |> |>.

Definition sw_wide_clear (base_x y h color : Z) (st : State) : State :=
  let '(slot, sh) := wide_surf_for base_x (shadow st) in
  let st := st <| shadow := sh |> in
  match slot with
  | None => st
  | Some i =>
      let s := g_scale sh in let W := g_wide_w sh * s in let H := VRAM_HEIGHT * s in
      let y0 := y * s in let y1 := (y + h) * s in
      let y0 := if y0 <? 0 then 0 else y0 in
      let y1 := if H <? y1 then H else y1 in
      forZ y0 y1 (fun row st => forZ 0 W (fun col st => wide_set i (row * W + col) color st) st) st
  end.

Definition surface_of (base_x : Z) (sh : Shadow) : option Z :=
  first_slot (fun i => bool_decide (surf_at i sh <> None) && (aget (g_wide_base sh) i =? base_x)).

Definition sw_render_wide_display (base_x disp_y disp_h : Z) (st : State) : list (list Z) * Z :=
  let sh := shadow st in
  match surface_of base_x sh with
  | Some i =>
      if g_wide_w sh <=? 0 then ([], 0)
      else
        let s := g_scale sh in let W := g_wide_w sh * s in let H := VRAM_HEIGHT * s in
        picture (disp_h * s) W (fun row col =>
          let vy := disp_y * s + row in
          let vy := if vy <? 0 then 0 else vy in
          let vy := if H <=? vy then H - 1 else vy in
          rgb555_to_argb (wide_get i (vy * W + col) st))
  | None => ([], 0)
  end.

Definition sw_wide_width (st : State) : Z := g_wide_w (shadow st).

End Renderer.

End SwRenderer.
