(* ===== verification/SwLaws.v ===== *)
(** * Laws of the software rasteriser

    Every primitive is a sequence of masked pixel writes through a render target
    ([Put]), which gives the clip and mask contract; and the native half of every
    operation reads only the native memory and the drawing environment ([same]; but
    for the settings a reveal tile has overwritten, [agree]), so that the mirror and
    the wide surfaces never show in it. *)

From S2P Require Import Prelude SwRenderer.
From Stdlib Require Import SpecFloat.

Module SwLaws.
Import SwRenderer.

(** ** Loops related step by step *)

Lemma forZ_rel {A B} (R : A -> B -> Prop) lo hi (f : Z -> A -> A) (g : Z -> B -> B) a b :
  R a b -> (forall i x y, lo <= i < hi -> R x y -> R (f i x) (g i y)) -> R (forZ lo hi f a) (forZ lo hi g b).
Proof.
  intros H0 HS. unfold forZ.
  assert (Hin : forall i, i ∈ seqZ lo (hi - lo) -> lo <= i < hi) by (intros i ?%elem_of_seqZ; lia).
  revert a b H0 Hin. induction (seqZ lo (hi - lo)) as [|i l IH]; intros a b H0 Hin; simpl; [done|].
  apply IH; [apply HS; [apply Hin; left|done]|]. intros j Hj. apply Hin. by right.
Qed.

Lemma forZ_rel_id {A} (R : A -> A -> Prop) lo hi (f : Z -> A -> A) a :
  (forall x, R x x) -> (forall x y z, R x y -> R y z -> R x z) ->
  (forall i x, lo <= i < hi -> R x (f i x)) -> R a (forZ lo hi f a).
Proof.
  intros Hr Ht Hf. apply (forZ_rel (fun x y => x = a -> R a y) lo hi (fun _ x => x) f a a); [auto| |].
  - intros i x y Hi IH ->. eapply Ht; [by apply IH|by apply Hf].
  - unfold forZ. by induction (seqZ _ _).
Qed.

Lemma nwhile_rel {A B} (R : A -> B -> Prop) n (c : A -> bool) (c' : B -> bool) f g a b :
  R a b -> (forall x y, R x y -> c x = c' y) -> (forall x y, R x y -> R (f x) (g y)) ->
  R (nwhile n c f a) (nwhile n c' g b).
Proof.
  intros H0 Hc Hf. revert a b H0. induction n as [|n IH]; intros a b H0; simpl; [done|].
  rewrite (Hc _ _ H0). destruct (c' b); auto.
Qed.

(** ** The native half *)

Definition same (a b : State) : Prop := g_vram a = g_vram b /\ env a = env b.

#[export] Instance same_equiv : Equivalence same.
Proof. split; [by intros a|by intros a b []|intros a b c [] []; split; congruence]. Qed.

Lemma same_shadow a sh : same (a <| shadow := sh |>) a.
Proof. done. Qed.

(** [e] with the blending fields ([s]) and the modulation fields ([m]) of [x]. *)
Definition stale (s m : bool) (x e : DrawEnv) : DrawEnv :=
  e <| g_semi_trans_enabled := if s then g_semi_trans_enabled x else g_semi_trans_enabled e |>
    <| g_semi_trans_mode := if s then g_semi_trans_mode x else g_semi_trans_mode e |>
    <| g_mod_r := if m then g_mod_r x else g_mod_r e |> <| g_mod_g := if m then g_mod_g x else g_mod_g e |>
    <| g_mod_b := if m then g_mod_b x else g_mod_b e |>
    <| g_raw_texture := if m then g_raw_texture x else g_raw_texture e |>.

(** The same native half, but for blending when [s] and modulation when [m]: what a
    reveal tile leaves behind until they are set again. *)
Definition agree (s m : bool) (a b : State) : Prop := g_vram a = g_vram b /\ exists x, env a = stale s m x (env b).

Lemma same_agree s m a b : same a b -> agree s m a b.
Proof. intros [E1 E2]. split; [done|]. exists (env b). rewrite E2. by destruct s, m. Qed.
Lemma agree_same a b : agree false false a b <-> same a b.
Proof. split; [|apply same_agree]. intros [E [x Ex]]. by split. Qed.
Lemma agree_weaken s m a b : agree s m a b -> agree true true a b.
Proof. intros [E1 [x E2]]. split; [done|]. exists (env a). rewrite E2. by destruct s, m. Qed.

#[export] Instance agree_equiv s m : Equivalence (agree s m).
Proof.
  split.
  - intros a. by apply same_agree.
  - intros a b [E1 [x E2]]. split; [done|]. exists (env b). rewrite E2. by destruct s, m.
  - intros a b c [E1 [x E2]] [E3 [y E4]]. split; [congruence|]. exists x. rewrite E2, E4. by destruct s, m.
Qed.
#[export] Instance agree_proper s m : Proper (same ==> same ==> iff) (agree s m).
Proof.
  intros a b E c d E'. apply (same_agree s m) in E, E'. split; intros Ha.
  - etransitivity; [symmetry; exact E|]. by etransitivity.
  - etransitivity; [exact E|]. etransitivity; [exact Ha|]. by symmetry.
Qed.

(** Two states that agree differ in their shadow and the stale fields only. *)
Lemma agree_eq s m a b : agree s m a b -> exists x, a = b <| shadow := shadow a |> <| env := stale s m x (env b) |>.
Proof. destruct a, b. cbv [agree]. cbn. intros [-> [x ->]]. by exists x. Qed.

(** Put the second state for the first. *)
Ltac transport E :=
  let sh := fresh "sh" in let x := fresh "x" in apply agree_eq in E as [x E]; rewrite E;
  match type of E with ?a = _ => generalize (shadow a); clear E a; intros sh end.

Definition native (t : RTarget) : Prop := t_buf t = Native.
Definition foreign (t : RTarget) : Prop := t_buf t <> Native.

Lemma put_masked_native s m t x y color color' a b :
  native t -> agree s m a b -> (forall c, color c = color' c) -> agree s m (put_masked t x y color a) (put_masked t x y color' b).
Proof.
  intros Ht E Hc. transport E.
  unfold put_masked. rewrite Ht, <-Hc. unfold buf_get, buf_set, cell. cbn. repeat case_if; (split; [done|by eexists]).
Qed.

Lemma put_masked_foreign t x y color a : foreign t -> same (put_masked t x y color a) a.
Proof.
  unfold foreign, put_masked. intros Ht. case_if; [done|]. destruct (t_buf t); [done|..]; done.
Qed.

Lemma put_opaque_native m t x y c a b : native t -> agree false m a b -> agree false m (put_opaque t x y c a) (put_opaque t x y c b).
Proof.
  intros Ht E. unfold put_opaque. case_if; [done|]. apply put_masked_native; [done..|]. intros. by destruct E as [_ [? ->]].
Qed.
Lemma put_opaque_foreign t x y c a : foreign t -> same (put_opaque t x y c a) a.
Proof. intros Ht. unfold put_opaque. case_if; [done|]. by apply put_masked_foreign. Qed.

Lemma put_textured_native m t x y tx r g bl raw a b :
  native t -> agree false m a b -> agree false m (put_textured t x y tx r g bl raw a) (put_textured t x y tx r g bl raw b).
Proof.
  intros Ht E. unfold put_textured. do 2 (case_if; [done|]). apply put_masked_native; [done..|]. intros. by destruct E as [_ [? ->]].
Qed.
Lemma put_textured_foreign t x y tx r g bl raw a : foreign t -> same (put_textured t x y tx r g bl raw a) a.
Proof. intros Ht. unfold put_textured. do 2 (case_if; [done|]). by apply put_masked_foreign. Qed.

Lemma put_modulated_native t x y tx a b :
  native t -> agree false false a b -> agree false false (put_modulated t x y tx a) (put_modulated t x y tx b).
Proof. intros Ht E. unfold put_modulated. rewrite (proj2 (proj1 (agree_same _ _) E)). by apply put_textured_native. Qed.
Lemma put_modulated_foreign t x y tx a : foreign t -> same (put_modulated t x y tx a) a.
Proof. by apply put_textured_foreign. Qed.

(** Texture reads. *)
Lemma texel_fetch_agree s m u v tp cx cy a b : agree s m a b -> texel_fetch u v tp cx cy a = texel_fetch u v tp cx cy b.
Proof. intros E. by transport E. Qed.
Lemma bilinear_agree s m fu fv tp cx cy a b : agree s m a b -> texel_fetch_bilinear fu fv tp cx cy a = texel_fetch_bilinear fu fv tp cx cy b.
Proof. intros E. by transport E. Qed.
Lemma sample_agree s m fu fv tp cx cy a b : agree s m a b -> sample fu fv tp cx cy a = sample fu fv tp cx cy b.
Proof. intros E. by transport E. Qed.
Lemma filter_agree s m a b : agree s m a b -> g_texture_filter (env a) = g_texture_filter (env b).
Proof. intros [_ [x ->]]. done. Qed.

Lemma masks_agree s m a b : agree s m a b ->
  g_mask_check_bit (env a) = g_mask_check_bit (env b) /\ g_mask_set_bit (env a) = g_mask_set_bit (env b).
Proof. intros [_ [x ->]]. done. Qed.

(** A pixel function that keeps the native halves together on a native target and
    leaves it alone on another. *)
Definition Steps (s m : bool) (t : RTarget) (f : State -> State) : Prop :=
  (native t -> forall a b, agree s m a b -> agree s m (f a) (f b)) /\ (foreign t -> forall a, same (f a) a).

Lemma steps_put_opaque m t x y c : Steps false m t (put_opaque t x y c).
Proof. split; intros; [by apply put_opaque_native|by apply put_opaque_foreign]. Qed.

Lemma steps_sampled t x y (tx : State -> Z) :
  (forall a b, agree false false a b -> tx a = tx b) -> Steps false false t (fun st => put_modulated t x y (tx st) st).
Proof. intros H. split; intros; [rewrite (H a b) by done; by apply put_modulated_native|by apply put_modulated_foreign]. Qed.

Lemma steps_textured m t x y (tx : State -> Z) r g bl raw :
  (forall a b, agree false m a b -> tx a = tx b) -> Steps false m t (fun st => put_textured t x y (tx st) r g bl raw st).
Proof. intros H. split; intros; [rewrite (H a b) by done; by apply put_textured_native|by apply put_textured_foreign]. Qed.

Lemma steps_id s m t : Steps s m t (fun st => st).
Proof. by split. Qed.

Lemma steps_if s m t (b : bool) f g : Steps s m t f -> Steps s m t g -> Steps s m t (fun st => if b then f st else g st).
Proof. by destruct b. Qed.

Lemma steps_forZ s m t lo hi (f : Z -> State -> State) : (forall i, Steps s m t (f i)) -> Steps s m t (forZ lo hi f).
Proof.
  intros H. split; intros Ht.
  - intros a b E. apply forZ_rel; [done|]. intros i x y _ Exy. by apply H.
  - intros a. symmetry. apply (forZ_rel_id same); [done|by intros ??? -> ->|]. intros i x _. symmetry. by apply (H i).
Qed.

Create HintDb steps discriminated.
#[export] Hint Resolve steps_put_opaque steps_id steps_forZ steps_if : steps.
#[export] Hint Extern 3 (_ = _) => solve [eapply texel_fetch_agree; eassumption|eapply bilinear_agree; eassumption|eapply sample_agree; eassumption] : steps.

Lemma steps_scan_lines s m t y0 y2 line : (forall y, Steps s m t (line y)) -> Steps s m t (scan_lines t y0 y2 line).
Proof. intros H. unfold scan_lines. case_if; eauto with steps. Qed.

Lemma steps_span s m t xa xb pixel : (forall x, Steps s m t (pixel x)) -> Steps s m t (span t xa xb pixel).
Proof. intros H. unfold span. eauto with steps. Qed.

Lemma steps_flat_triangle m t x0 y0 x1 y1 x2 y2 c : Steps false m t (raster_flat_triangle t x0 y0 x1 y1 x2 y2 c).
Proof.
  unfold raster_flat_triangle. destruct (sort3 _ _ _ _) as [[[a0 b0] [a1 b1]] [a2 b2]].
  apply steps_scan_lines. intros y. destruct (swap_if _ _) as [xa xb]. apply steps_span. eauto with steps.
Qed.

Lemma steps_gouraud_triangle m t x0 y0 c0 x1 y1 c1 x2 y2 c2 : Steps false m t (raster_gouraud_triangle t x0 y0 c0 x1 y1 c1 x2 y2 c2).
Proof.
  unfold raster_gouraud_triangle.
  destruct (sort3 _ _ _ _) as [[[[a0 b0] [[? ?] ?]] [[a1 b1] [[? ?] ?]]] [[a2 b2] [[? ?] ?]]].
  apply steps_scan_lines. intros y. do 4 destruct (swap_if _ _). apply steps_span. intros x. apply steps_put_opaque.
Qed.

Lemma steps_textured_triangle t x0 y0 u0 v0 x1 y1 u1 v1 x2 y2 u2 v2 cx cy tp :
  Steps false false t (raster_textured_triangle t x0 y0 u0 v0 x1 y1 u1 v1 x2 y2 u2 v2 cx cy tp).
Proof.
  unfold raster_textured_triangle. destruct (sort3 _ _ _ _) as [[[[a0 b0] [? ?]] [[a1 b1] [? ?]]] [[a2 b2] [? ?]]].
  apply steps_scan_lines. intros y. do 3 destruct (swap_if _ _). apply steps_span. intros x. apply steps_sampled. eauto with steps.
Qed.

Lemma steps_shaded_textured_triangle m t x0 y0 u0 v0 m0 x1 y1 u1 v1 m1 x2 y2 u2 v2 m2 cx cy tp raw :
  Steps false m t (raster_shaded_textured_triangle t x0 y0 u0 v0 m0 x1 y1 u1 v1 m1 x2 y2 u2 v2 m2 cx cy tp raw).
Proof.
  unfold raster_shaded_textured_triangle.
  destruct (sort3 _ _ _ _) as [[[[a0 b0] [[? ?] [[? ?] ?]]] [[a1 b1] [[? ?] [[? ?] ?]]]] [[a2 b2] [[? ?] [[? ?] ?]]]].
  apply steps_scan_lines. intros y. do 6 destruct (swap_if _ _). apply steps_span. intros x. apply steps_textured. eauto with steps.
Qed.

Lemma steps_flat_rect m t x y w h c : Steps false m t (raster_flat_rect t x y w h c).
Proof. unfold raster_flat_rect. eauto with steps. Qed.

Lemma steps_rect_pixels t x y w h tx :
  (forall row col a b, agree false false a b -> tx row col a = tx row col b) -> Steps false false t (rect_pixels t x y w h tx).
Proof. intros H. unfold rect_pixels. auto 8 using steps_forZ, steps_if, steps_id, steps_sampled. Qed.

Lemma steps_textured_rect t x y w h u v cx cy tp : Steps false false t (raster_textured_rect t x y w h u v cx cy tp).
Proof.
  unfold raster_textured_rect. apply steps_rect_pixels. intros row col a b Es. rewrite (filter_agree _ _ _ _ Es).
  case_if; eauto with steps.
Qed.

Lemma steps_textured_rect_scaled t x y w h u0 v0 u1 v1 cx cy tp : Steps false false t (raster_textured_rect_scaled t x y w h u0 v0 u1 v1 cx cy tp).
Proof.
  unfold raster_textured_rect_scaled. case_if; [apply steps_id|]. apply steps_rect_pixels. intros row col a b Es.
  rewrite (filter_agree _ _ _ _ Es). case_if; eauto with steps.
Qed.

Lemma steps_put_block m t bx by_ k c : Steps false m t (put_block t bx by_ k c).
Proof. unfold put_block. eauto with steps. Qed.

#[export] Hint Resolve steps_flat_triangle steps_gouraud_triangle steps_textured_triangle steps_shaded_textured_triangle
  steps_flat_rect steps_textured_rect steps_textured_rect_scaled steps_put_block : steps.

(** What the mirror and the wide surfaces add to an operation. *)
Definition Invisible (f : State -> State) : Prop := forall a, same (f a) a.

Lemma foreign_hires st : foreign (rt_hires st). Proof. done. Qed.
Lemma foreign_wide i st : foreign (rt_wide i st). Proof. done. Qed.
#[export] Hint Resolve foreign_hires foreign_wide : steps.

Lemma steps_foreign s m t f a : Steps s m t f -> foreign t -> same (f a) a.
Proof. intros [_ H] Ht. by apply H. Qed.

Lemma if_hr_invisible f : Invisible f -> Invisible (if_hr f).
Proof. intros H a. unfold if_hr. by destruct (g_hr _). Qed.
Lemma if_wide_invisible f : (forall i, Invisible (f i)) -> Invisible (if_wide f).
Proof. intros H a. unfold if_wide. destruct (g_wide_cur _); [apply H|done]. Qed.

Lemma forZ_invisible lo hi f : (forall i, Invisible (f i)) -> Invisible (forZ lo hi f).
Proof.
  intros H a. symmetry. apply (forZ_rel_id same); [done|by intros ??? -> ->|]. intros i x _. symmetry. apply H.
Qed.

Lemma hr_set_invisible idx v : Invisible (hr_set idx v).
Proof. done. Qed.
Lemma wide_set_invisible i idx v : Invisible (wide_set i idx v).
Proof. done. Qed.

Ltac invisible :=
  repeat first
    [ apply if_hr_invisible | apply if_wide_invisible; intros ?
    | (eapply (steps_foreign false false); [solve [eauto with steps]|done]) | case_if | (intros ?st; cbv zeta) | done ].

(** A primitive: its native pass, then the two others. *)
Lemma three_passes s m t f g h a b :
  native t -> Steps s m t f -> Invisible g -> (forall i, Invisible (h i)) -> agree s m a b ->
  agree s m (if_wide h (if_hr g (f a))) (if_wide h (if_hr g (f b))).
Proof.
  intros Ht Hf Hg Hh E. rewrite !(if_wide_invisible _ Hh _), !(if_hr_invisible _ Hg _). by apply (proj1 Hf).
Qed.

Lemma passes_same g h x : Invisible g -> (forall i, Invisible (h i)) -> same (if_wide h (if_hr g x)) x.
Proof. intros Hg Hh. by rewrite (if_wide_invisible _ Hh _), (if_hr_invisible _ Hg _). Qed.

Lemma rt_native_agree s m a b : agree s m a b -> rt_native a = rt_native b.
Proof. intros [_ [x E]]. unfold rt_native. by rewrite E. Qed.

Section Transparency.
Context `{Heap}.

Lemma poke_agree s m idx v a b : agree s m a b -> agree s m (poke idx v a) (poke idx v b).
Proof. intros [E1 E2]. split; [|done]. cbn. by rewrite E1. Qed.

Lemma sw_fill_rect_agree s m x y w h c a b : agree s m a b -> agree s m (sw_fill_rect x y w h c a) (sw_fill_rect x y w h c b).
Proof.
  intros E. unfold sw_fill_rect.
  assert (Hi : Invisible (if_hr (hr_fill_block x y w h c))).
  { apply if_hr_invisible. intros st. unfold hr_fill_block. apply (forZ_invisible 0 _). intros i. by apply forZ_invisible. }
  rewrite !(Hi _). apply forZ_rel; [done|]. intros i u v _ Euv. apply forZ_rel; [done|]. intros j u' v' _. apply poke_agree.
Qed.

Lemma copy_row_agree s m sx sy dx dy w row hr hr' a b :
  agree s m a b -> agree s m (copy_row sx sy dx dy w row hr a) (copy_row sx sy dx dy w row hr' b).
Proof.
  intros E. unfold copy_row. apply forZ_rel; [done|]. intros col u v _ Euv.
  assert (Ec : forall i, cell i a = cell i b) by (intros i; unfold cell; by rewrite (proj1 E)).
  assert (Ed : forall i, cell i u = cell i v) by (intros i; unfold cell; by rewrite (proj1 Euv)).
  destruct (masks_agree _ _ _ _ Euv) as [-> ->]. rewrite Ed, Ec. destruct (negb _ && _); [done|].
  assert (Hf : forall (hr : bool) f z, Invisible f -> same (if hr then f z else z) z) by (intros [] f z Hi; [apply Hi|done]).
  rewrite !(Hf _ (forZ _ _ _)) by (apply forZ_invisible; intros i; by apply forZ_invisible). by apply poke_agree.
Qed.

Lemma sw_copy_rect_agree s m sx sy dx dy w h a b : agree s m a b -> agree s m (sw_copy_rect sx sy dx dy w h a) (sw_copy_rect sx sy dx dy w h b).
Proof. intros E. unfold sw_copy_rect. apply forZ_rel; [done|]. intros i u v _. apply copy_row_agree. Qed.

Lemma sw_draw_flat_triangle_agree m x0 y0 x1 y1 x2 y2 c a b :
  agree false m a b -> agree false m (sw_draw_flat_triangle x0 y0 x1 y1 x2 y2 c a) (sw_draw_flat_triangle x0 y0 x1 y1 x2 y2 c b).
Proof.
  intros E. unfold sw_draw_flat_triangle. rewrite (rt_native_agree _ _ _ _ E). cbv zeta.
  apply (three_passes _ _ (rt_native b)); [done|eauto with steps|invisible|intros i; invisible|done].
Qed.

Lemma sw_draw_gouraud_triangle_agree m x0 y0 c0 x1 y1 c1 x2 y2 c2 a b :
  agree false m a b -> agree false m (sw_draw_gouraud_triangle x0 y0 c0 x1 y1 c1 x2 y2 c2 a) (sw_draw_gouraud_triangle x0 y0 c0 x1 y1 c1 x2 y2 c2 b).
Proof.
  intros E. unfold sw_draw_gouraud_triangle. rewrite (rt_native_agree _ _ _ _ E). cbv zeta.
  apply (three_passes _ _ (rt_native b)); [done|eauto with steps|invisible|intros i; invisible|done].
Qed.

(** Setting the texture limits, then drawing. *)
Lemma limited_agree s m (lim : State -> State) a b :
  agree s m a b -> (forall u v, agree s m u v -> agree s m (lim u) (lim v)) ->
  agree s m (if g_texture_filter (env a) =? 0 then a else lim a) (if g_texture_filter (env b) =? 0 then b else lim b).
Proof. intros E Hl. rewrite (filter_agree _ _ _ _ E). case_if; auto. Qed.

Lemma sw_tri_uv_limits_agree s m xs ys us vs a b : agree s m a b -> agree s m (sw_tri_uv_limits xs ys us vs a) (sw_tri_uv_limits xs ys us vs b).
Proof.
  intros E. destruct xs as [[? ?] ?], ys as [[? ?] ?], us as [[? ?] ?], vs as [[? ?] ?]. unfold sw_tri_uv_limits.
  destruct (page_range _ _), (page_range _ _). destruct E as [E1 [x E2]]. split; [exact E1|]. exists x. cbn. by rewrite E2.
Qed.
Lemma sw_rect_uv_limits_agree s m u0 v0 u1 v1 a b : agree s m a b -> agree s m (sw_rect_uv_limits u0 v0 u1 v1 a) (sw_rect_uv_limits u0 v0 u1 v1 b).
Proof.
  intros E. unfold sw_rect_uv_limits. destruct (page_range _ _), (page_range _ _). destruct E as [E1 [x E2]]. split; [exact E1|]. exists x. cbn. by rewrite E2.
Qed.

Lemma sw_draw_textured_triangle_agree x0 y0 u0 v0 x1 y1 u1 v1 x2 y2 u2 v2 cx cy tp a b :
  agree false false a b -> agree false false (sw_draw_textured_triangle x0 y0 u0 v0 x1 y1 u1 v1 x2 y2 u2 v2 cx cy tp a)
                   (sw_draw_textured_triangle x0 y0 u0 v0 x1 y1 u1 v1 x2 y2 u2 v2 cx cy tp b).
Proof.
  intros E. unfold sw_draw_textured_triangle. destruct (area2 _ _ _ _ _ _ =? 0); [done|]. cbv zeta.
  pose proof (limited_agree _ _ _ _ _ E (sw_tri_uv_limits_agree _ _ (x0, x1, x2) (y0, y1, y2) (u0, u1, u2) (v0, v1, v2))) as El.
  generalize dependent (if g_texture_filter (env a) =? 0 then a else sw_tri_uv_limits (x0, x1, x2) (y0, y1, y2) (u0, u1, u2) (v0, v1, v2) a).
  generalize dependent (if g_texture_filter (env b) =? 0 then b else sw_tri_uv_limits (x0, x1, x2) (y0, y1, y2) (u0, u1, u2) (v0, v1, v2) b).
  intros b' a' El. rewrite (rt_native_agree _ _ _ _ El).
  apply (three_passes _ _ (rt_native b')); [done|eauto with steps|invisible|intros i; invisible|done].
Qed.

Lemma sw_draw_shaded_textured_triangle_agree m x0 y0 u0 v0 c0 x1 y1 u1 v1 c1 x2 y2 u2 v2 c2 cx cy tp raw a b :
  agree false m a b -> agree false m (sw_draw_shaded_textured_triangle x0 y0 u0 v0 c0 x1 y1 u1 v1 c1 x2 y2 u2 v2 c2 cx cy tp raw a)
                   (sw_draw_shaded_textured_triangle x0 y0 u0 v0 c0 x1 y1 u1 v1 c1 x2 y2 u2 v2 c2 cx cy tp raw b).
Proof.
  intros E. unfold sw_draw_shaded_textured_triangle. destruct (area2 _ _ _ _ _ _ =? 0); [done|]. cbv zeta.
  pose proof (limited_agree _ _ _ _ _ E (sw_tri_uv_limits_agree _ _ (x0, x1, x2) (y0, y1, y2) (u0, u1, u2) (v0, v1, v2))) as El.
  generalize dependent (if g_texture_filter (env a) =? 0 then a else sw_tri_uv_limits (x0, x1, x2) (y0, y1, y2) (u0, u1, u2) (v0, v1, v2) a).
  generalize dependent (if g_texture_filter (env b) =? 0 then b else sw_tri_uv_limits (x0, x1, x2) (y0, y1, y2) (u0, u1, u2) (v0, v1, v2) b).
  intros b' a' El. rewrite (rt_native_agree _ _ _ _ El).
  apply (three_passes _ _ (rt_native b')); [done|eauto with steps|invisible|intros i; invisible|done].
Qed.

Lemma sw_draw_flat_rect_agree m x y w h c a b : agree false m a b -> agree false m (sw_draw_flat_rect x y w h c a) (sw_draw_flat_rect x y w h c b).
Proof.
  intros E. unfold sw_draw_flat_rect. rewrite (rt_native_agree _ _ _ _ E). cbv zeta.
  apply (three_passes _ _ (rt_native b)); [done|eauto with steps|invisible|intros i; invisible|done].
Qed.

Lemma sw_draw_textured_rect_agree x y w h u v cx cy tp a b :
  agree false false a b -> agree false false (sw_draw_textured_rect x y w h u v cx cy tp a) (sw_draw_textured_rect x y w h u v cx cy tp b).
Proof.
  intros E. unfold sw_draw_textured_rect. cbv zeta.
  pose proof (limited_agree _ _ _ _ _ E (sw_rect_uv_limits_agree _ _ u v (u + w) (v + h))) as El.
  generalize dependent (if g_texture_filter (env a) =? 0 then a else sw_rect_uv_limits u v (u + w) (v + h) a).
  generalize dependent (if g_texture_filter (env b) =? 0 then b else sw_rect_uv_limits u v (u + w) (v + h) b).
  intros b' a' El. rewrite (rt_native_agree _ _ _ _ El).
  apply (three_passes _ _ (rt_native b')); [done|eauto with steps|invisible|intros i; invisible|done].
Qed.

Lemma sw_draw_textured_rect_scaled_agree x y w h u0 v0 u1 v1 cx cy tp a b :
  agree false false a b -> agree false false (sw_draw_textured_rect_scaled x y w h u0 v0 u1 v1 cx cy tp a) (sw_draw_textured_rect_scaled x y w h u0 v0 u1 v1 cx cy tp b).
Proof.
  intros E. unfold sw_draw_textured_rect_scaled. destruct (_ || _); [done|]. cbv zeta.
  pose proof (limited_agree _ _ _ _ _ E (sw_rect_uv_limits_agree _ _ u0 v0 u1 v1)) as El.
  generalize dependent (if g_texture_filter (env a) =? 0 then a else sw_rect_uv_limits u0 v0 u1 v1 a).
  generalize dependent (if g_texture_filter (env b) =? 0 then b else sw_rect_uv_limits u0 v0 u1 v1 b).
  intros b' a' El. rewrite (rt_native_agree _ _ _ _ El).
  apply (three_passes _ _ (rt_native b')); [done|eauto with steps|invisible|intros i; invisible|done].
Qed.

(** Lines: the two loops run in step. *)
Lemma line_pixel_put n x y c a : same (line_pixel n x y c a) (put_opaque n x y c a).
Proof.
  unfold line_pixel. cbv zeta.
  assert (Hh : Invisible (if_hr (hr_put_block_opaque x y c))).
  { apply if_hr_invisible. intros st. unfold hr_put_block_opaque. cbv zeta. apply (steps_foreign false false (rt_hires st)); [apply steps_put_block|done]. }
  assert (Hw : Invisible (wide_put_block_opaque x y c)).
  { apply if_wide_invisible. intros i st. cbv zeta. apply (steps_foreign false false (rt_wide i st)); [apply steps_put_block|done]. }
  by rewrite (Hw _), (Hh _).
Qed.

Lemma line_pixel_agree m n x y c a b : native n -> agree false m a b -> agree false m (line_pixel n x y c a) (line_pixel n x y c b).
Proof.
  intros Hn E. rewrite !line_pixel_put. by apply put_opaque_native.
Qed.

Definition line_agree (m : bool) (k l : Line) : Prop :=
  ln_x k = ln_x l /\ ln_y k = ln_y l /\ ln_err k = ln_err l /\ ln_step k = ln_step l /\ agree false m (ln_st k) (ln_st l).

Lemma line_put_agree m n color k l : native n -> line_agree m k l -> line_agree m (line_put n color k) (line_put n color l).
Proof.
  intros Hn (Ex & Ey & Ee & Es & E). unfold line_put, line_agree. cbn. rewrite Ex, Ey, Es.
  split_and!; [done..|]. by apply line_pixel_agree.
Qed.

Lemma line_advance_agree m dx dy sx sy k l : line_agree m k l -> line_agree m (line_advance dx dy sx sy k) (line_advance dx dy sx sy l).
Proof.
  intros (Ex & Ey & Ee & Es & E). unfold line_advance. rewrite Ex, Ey, Ee, Es.
  destruct (dy <=? _), (_ <=? dx); by split_and!.
Qed.

Lemma line_loop_agree m fuel n color x0 y0 x1 y1 a b :
  native n -> agree false m a b -> line_agree m (line_loop fuel n color x0 y0 x1 y1 a) (line_loop fuel n color x0 y0 x1 y1 b).
Proof.
  intros Hn E. unfold line_loop. apply nwhile_rel; [by apply line_put_agree| |].
  - intros k l (Ex & Ey & _). unfold line_going. by rewrite Ex, Ey.
  - intros k l Ekl. apply line_put_agree; [done|]. by apply line_advance_agree.
Qed.

Lemma sw_draw_line_agree m x0 y0 x1 y1 c a b : agree false m a b -> agree false m (sw_draw_line x0 y0 x1 y1 c a) (sw_draw_line x0 y0 x1 y1 c b).
Proof. intros E. unfold sw_draw_line. rewrite (rt_native_agree _ _ _ _ E). by apply line_loop_agree. Qed.

Lemma sw_draw_shaded_line_agree m x0 y0 c0 x1 y1 c1 a b :
  agree false m a b -> agree false m (sw_draw_shaded_line x0 y0 c0 x1 y1 c1 a) (sw_draw_shaded_line x0 y0 c0 x1 y1 c1 b).
Proof. intros E. unfold sw_draw_shaded_line. rewrite (rt_native_agree _ _ _ _ E). by apply line_loop_agree. Qed.

Lemma block_invisible s (idx : Z -> Z -> Z) v : Invisible (forZ 0 s (fun dy st => forZ 0 s (fun dx st => hr_set (idx dy dx) v st) st)).
Proof. apply forZ_invisible. intros i. by apply forZ_invisible. Qed.

Lemma sw_vram_write_agree s m x y p a b : agree s m a b -> agree s m (sw_vram_write x y p a) (sw_vram_write x y p b).
Proof.
  intros E. unfold sw_vram_write. cbv zeta.
  rewrite !(if_hr_invisible _ (fun st => block_invisible _ _ p st) _). by apply poke_agree.
Qed.

Lemma sw_vram_transfer_in_agree s m x y w h data a b :
  agree s m a b -> agree s m (sw_vram_transfer_in x y w h data a) (sw_vram_transfer_in x y w h data b).
Proof.
  intros E. unfold sw_vram_transfer_in. apply forZ_rel; [done|]. intros i u v _ Euv. apply forZ_rel; [done|].
  intros j u' v' _ E'. cbv zeta. rewrite !(if_hr_invisible _ (fun st => block_invisible _ _ _ st) _). by apply poke_agree.
Qed.

(** ** The calls of the command processor and of the host *)

Inductive Op :=
| Init | SetFilter (b : Z) | SetSemi (e m : Z) | SetMask (s c : Z) | SetTexWindow (raw : Z) | SetModulation (r g b raw : Z)
| SetArea (x1 y1 x2 y2 : Z) | SetOffset (x y : Z)
| Fill (x y w h c : Z) | Copy (sx sy dx dy w h : Z)
| FlatTriangle (x0 y0 x1 y1 x2 y2 c : Z)
| GouraudTriangle (x0 y0 c0 x1 y1 c1 x2 y2 c2 : Z)
| TexturedTriangle (x0 y0 u0 v0 x1 y1 u1 v1 x2 y2 u2 v2 cx cy tp : Z)
| ShadedTexturedTriangle (x0 y0 u0 v0 c0 x1 y1 u1 v1 c1 x2 y2 u2 v2 c2 cx cy tp raw : Z)
| FlatRect (x y w h c : Z) | TexturedRect (x y w h u v cx cy tp : Z) | ScaledRect (x y w h u0 v0 u1 v1 cx cy tp : Z)
| DrawLine (x0 y0 x1 y1 c : Z) | ShadedLine (x0 y0 c0 x1 y1 c1 : Z)
| VramWrite (x y p : Z) | TransferIn (x y w h : Z) (data : list Z)
| SetScale (n : Z) | WideConfigure (w off : Z) | WideTarget (bx : Z) | WideDisable | WideClear (bx y h c : Z)
| Backdrop (on : bool) (pct : Z) (inside : bool)
| EmitTile (band_y x y u v cx cy tp color24 semi_trans semi_mode raw : Z).

Definition exec (st : State) (o : Op) : State :=
  match o with
  | Init => sw_renderer_init (g_vram st) st
  | SetFilter b => sw_set_texture_filter b st
  | SetSemi e m => sw_set_semi_transparency e m st
  | SetMask s c => sw_set_mask_bits s c st
  | SetTexWindow raw => sw_set_texture_window raw st
  | SetModulation r g b raw => sw_set_color_modulation r g b raw st
  | SetArea x1 y1 x2 y2 => sw_set_draw_area x1 y1 x2 y2 st
  | SetOffset x y => sw_set_draw_offset x y st
  | Fill x y w h c => sw_fill_rect x y w h c st
  | Copy sx sy dx dy w h => sw_copy_rect sx sy dx dy w h st
  | FlatTriangle x0 y0 x1 y1 x2 y2 c => sw_draw_flat_triangle x0 y0 x1 y1 x2 y2 c st
  | GouraudTriangle x0 y0 c0 x1 y1 c1 x2 y2 c2 => sw_draw_gouraud_triangle x0 y0 c0 x1 y1 c1 x2 y2 c2 st
  | TexturedTriangle x0 y0 u0 v0 x1 y1 u1 v1 x2 y2 u2 v2 cx cy tp =>
      sw_draw_textured_triangle x0 y0 u0 v0 x1 y1 u1 v1 x2 y2 u2 v2 cx cy tp st
  | ShadedTexturedTriangle x0 y0 u0 v0 c0 x1 y1 u1 v1 c1 x2 y2 u2 v2 c2 cx cy tp raw =>
      sw_draw_shaded_textured_triangle x0 y0 u0 v0 c0 x1 y1 u1 v1 c1 x2 y2 u2 v2 c2 cx cy tp raw st
  | FlatRect x y w h c => sw_draw_flat_rect x y w h c st
  | TexturedRect x y w h u v cx cy tp => sw_draw_textured_rect x y w h u v cx cy tp st
  | ScaledRect x y w h u0 v0 u1 v1 cx cy tp => sw_draw_textured_rect_scaled x y w h u0 v0 u1 v1 cx cy tp st
  | DrawLine x0 y0 x1 y1 c => sw_draw_line x0 y0 x1 y1 c st
  | ShadedLine x0 y0 c0 x1 y1 c1 => sw_draw_shaded_line x0 y0 c0 x1 y1 c1 st
  | VramWrite x y p => sw_vram_write x y p st
  | TransferIn x y w h data => sw_vram_transfer_in x y w h data st
  | SetScale n => sw_renderer_set_scale n st
  | WideConfigure w off => sw_wide_configure w off st
  | WideTarget bx => sw_wide_set_target bx st
  | WideDisable => sw_wide_disable_target st
  | WideClear bx y h c => sw_wide_clear bx y h c st
  | Backdrop on pct inside =>
      st <| shadow := (shadow st) <| g_ws_bd_stretch_on := on |> <| g_ws_bd_stretch_pct := pct |>
                                  <| psx_ws_prim_in_backdrop := inside |> |>
  | EmitTile band_y x y u v cx cy tp color24 semi_trans semi_mode raw =>
      sw_wide_emit_tile band_y x y u v cx cy tp color24 semi_trans semi_mode raw st
  end.

Definition exec_all (st : State) (ops : list Op) : State := fold_left exec ops st.

(** The calls that only concern the enhanced picture. *)
Definition enhancement (o : Op) : bool :=
  match o with
  | SetScale _ | WideConfigure _ _ | WideTarget _ | WideDisable | WideClear _ _ _ _ | Backdrop _ _ _
  | EmitTile _ _ _ _ _ _ _ _ _ _ _ _ => true
  | _ => false
  end.

(** The calls that look at the blending mode, and at the modulation. *)
Definition reads_semi (o : Op) : bool :=
  match o with
  | FlatTriangle _ _ _ _ _ _ _ | GouraudTriangle _ _ _ _ _ _ _ _ _ | TexturedTriangle _ _ _ _ _ _ _ _ _ _ _ _ _ _ _
  | ShadedTexturedTriangle _ _ _ _ _ _ _ _ _ _ _ _ _ _ _ _ _ _ _ | FlatRect _ _ _ _ _ | TexturedRect _ _ _ _ _ _ _ _ _
  | ScaledRect _ _ _ _ _ _ _ _ _ _ _ | DrawLine _ _ _ _ _ | ShadedLine _ _ _ _ _ _ => true
  | _ => false
  end.
Definition reads_modulation (o : Op) : bool :=
  match o with
  | TexturedTriangle _ _ _ _ _ _ _ _ _ _ _ _ _ _ _ | TexturedRect _ _ _ _ _ _ _ _ _ | ScaledRect _ _ _ _ _ _ _ _ _ _ _ => true
  | _ => false
  end.

(** Whether the blending mode and the modulation are a tile's after a call. *)
Definition semi_after (s : bool) (o : Op) : bool :=
  match o with EmitTile _ _ _ _ _ _ _ _ _ _ _ _ => true | SetSemi _ _ | Init => false | _ => s end.
Definition modulation_after (m : bool) (o : Op) : bool :=
  match o with EmitTile _ _ _ _ _ _ _ _ _ _ _ _ => true | SetModulation _ _ _ _ | Init => false | _ => m end.

(** No draw looks at what a tile has left. *)
Fixpoint set_up (s m : bool) (ops : list Op) : bool :=
  match ops with
  | [] => true
  | o :: ops => negb (s && reads_semi o || m && reads_modulation o) && set_up (semi_after s o) (modulation_after m o) ops
  end.

Lemma exec_agree s m o a b :
  enhancement o = false -> s && reads_semi o || m && reads_modulation o = false -> agree s m a b ->
  agree (semi_after s o) (modulation_after m o) (exec a o) (exec b o).
Proof.
  intros Ho Hr E. assert (Hs : reads_semi o = true -> s = false) by (intros Hs; rewrite Hs, andb_true_r in Hr; by destruct s).
  assert (Hm : reads_modulation o = true -> m = false) by (intros Hm; rewrite Hm, andb_true_r, orb_false_iff in Hr; by destruct Hr).
  clear Hr. destruct o; try done; cbn [exec semi_after modulation_after];
    try rewrite (Hs eq_refl) in E |- *; try rewrite (Hm eq_refl) in E |- *; clear Hs Hm.
  1-8: destruct E as [E1 [x' E2]]; split; [exact E1|]; exists x'; cbn; by rewrite E2.
  - by apply sw_fill_rect_agree.
  - by apply sw_copy_rect_agree.
  - by apply sw_draw_flat_triangle_agree.
  - by apply sw_draw_gouraud_triangle_agree.
  - by apply sw_draw_textured_triangle_agree.
  - by apply sw_draw_shaded_textured_triangle_agree.
  - by apply sw_draw_flat_rect_agree.
  - by apply sw_draw_textured_rect_agree.
  - by apply sw_draw_textured_rect_scaled_agree.
  - by apply sw_draw_line_agree.
  - by apply sw_draw_shaded_line_agree.
  - by apply sw_vram_write_agree.
  - by apply sw_vram_transfer_in_agree.
Qed.

Lemma emit_tile_agree band_y x y u v cx cy tp color24 semi_trans semi_mode raw a :
  agree true true (sw_wide_emit_tile band_y x y u v cx cy tp color24 semi_trans semi_mode raw a) a.
Proof.
  unfold sw_wide_emit_tile, if_wide. destruct (g_wide_cur _) as [i|]; [|done]. cbv zeta.
  match goal with |- agree _ _ (raster_textured_rect ?t _ _ _ _ _ _ _ _ _ ?st) _ =>
    rewrite (steps_foreign false false t _ st (steps_textured_rect t _ _ _ _ _ _ _ _ _)) by done end.
  generalize (u8 (Z.shiftr (Z.land color24 0xff) 3)), (u8 (Z.shiftr (Z.land (Z.shiftr color24 8) 0xff) 3)),
    (u8 (Z.shiftr (Z.land (Z.shiftr color24 16) 0xff) 3)), (if raw =? 0 then 0 else 1), (if semi_trans =? 0 then 0 else 1),
    (Z.land semi_mode 3). intros mr mg mb rw se sm.
  split; [done|]. match goal with |- exists _, env (a <| env := ?e |>) = _ => by exists e end.
Qed.

Lemma exec_enhancement o a : enhancement o = true -> agree (semi_after false o) (modulation_after false o) (exec a o) a.
Proof.
  intros Ho. destruct o; try done; cbn [exec semi_after modulation_after]; try (by apply same_agree).
  - apply same_agree. unfold sw_wide_set_target. by destruct (wide_surf_for _ _).
  - apply same_agree. unfold sw_wide_clear. destruct (wide_surf_for _ _) as [[i|] sh]; [|done]. cbv zeta.
    transitivity (a <| shadow := sh |>); [|done]. apply (forZ_invisible _ _). intros row. by apply forZ_invisible.
  - apply emit_tile_agree.
Qed.

Lemma enhancement_agree s m o a b :
  enhancement o = true -> agree s m a b -> agree (semi_after s o) (modulation_after m o) (exec a o) b.
Proof.
  intros Ho E. pose proof (exec_enhancement o a Ho) as He.
  destruct o; try done; cbn [semi_after modulation_after] in *; try (apply agree_same in He; by rewrite He).
  etransitivity; [exact He|]. by apply (agree_weaken s m).
Qed.

(** C31: the supersampled mirror and the native-wide surfaces are invisible to the
    program: after any sequence of calls, whatever scale, wide configuration, target
    and allocation failures it contains, video memory and the drawing environment are
    those of the same sequence with every enhancement call left out, run from any
    state with the same native half (in particular one without mirror or surfaces).
    A reveal tile (sw_wide_emit_tile) is the one enhancement call that writes the
    drawing environment: it overwrites the blending mode and the modulation, and its
    comment relies on the set-up of the next draw to overwrite them in turn.  So the
    sequence must set the blending mode again before the next primitive after a tile,
    and the modulation before the next modulated texture ([set_up]; true of any
    sequence without tiles); video memory and the rest of the environment are then
    the same throughout, and those two fields once they have been set. *)
Theorem enhancements_invisible ops a b :
  same a b -> set_up false false ops = true ->
  let s := fold_left semi_after ops false in let m := fold_left modulation_after ops false in
  let b' := exec_all b (filter (fun o => enhancement o = false) ops) in
  agree s m (exec_all a ops) b' /\ (s = false -> m = false -> same (exec_all a ops) b').
Proof.
  intros E Hu. cbv zeta.
  assert (Ha : agree (fold_left semi_after ops false) (fold_left modulation_after ops false) (exec_all a ops)
      (exec_all b (filter (fun o => enhancement o = false) ops))).
  { apply (same_agree false false) in E. revert a b E Hu. generalize false at 1 3 5 as s. generalize false at 1 2 3 as m.
    induction ops as [|o ops IH]; intros m s a b E Hu; [done|]. cbn [exec_all fold_left set_up] in *.
    apply andb_true_iff in Hu as [Hr%negb_true_iff Hu]. destruct (enhancement o) eqn:Eo.
    - rewrite filter_cons_False by congruence. apply IH; [by apply enhancement_agree|done].
    - rewrite filter_cons_True by done. apply IH; [by apply exec_agree|done]. }
  split; [exact Ha|]. intros Hs Hm. rewrite Hs, Hm in Ha. by apply agree_same.
Qed.

End Transparency.
End SwLaws.
