(* ===== verification/SwSafety.v ===== *)
(** * Safety of the software rasteriser

    Every rasteriser is a sequence of pixel writes inside its clip rectangle
    ([Put]); hence the draw area and the mask bit confine what a primitive does to
    video memory, every write lands inside its buffer, and every cell stays a
    16-bit word. *)

From S2P Require Import Prelude SwRenderer SwLaws.
From Stdlib Require Import SpecFloat.

Module SwSafety.
Import SwRenderer SwLaws.

(** ** Sixteen-bit pixels *)

Definition Words (m : gmap Z Z) : Prop := forall k v, m !! k = Some v -> is_u16 v.

Lemma words_get m k : Words m -> is_u16 (default 0 (m !! k)).
Proof. intros H. destruct (m !! k) eqn:E; cbn; [by apply (H k)|unfold is_u16; lia]. Qed.

Lemma words_insert m k v : Words m -> is_u16 v -> Words (<[k := v]> m).
Proof. intros H Hv k' v'. rewrite lookup_insert_Some. intros [[_ <-]|[_ ?]]; [done|by apply (H k')]. Qed.

Lemma rgb_u16 r g b : is_u16 (rgb r g b).
Proof. apply u16_range. Qed.
Lemma blend_u16 b f m : is_u16 (blend_pixels b f m).
Proof. apply rgb_u16. Qed.
Lemma marked_u16 c : is_u16 c -> is_u16 (Z.lor c 0x8000).
Proof. intros H. apply (lor_range 16); unfold is_u16 in *; lia. Qed.
Lemma masked_u16 c : is_u16 (Z.land c 0x7FFF).
Proof. pose proof (land_range_r 15 c 0x7FFF ltac:(lia) ltac:(lia)). unfold is_u16. lia. Qed.

Lemma cell_u16 i st : Words (g_vram st) -> is_u16 (cell i st).
Proof. intros H. by apply words_get. Qed.
Lemma texel_fetch_u16 u v tp cx cy st : Words (g_vram st) -> is_u16 (texel_fetch u v tp cx cy st).
Proof. intros H. unfold texel_fetch. cbv zeta. do 2 (case_if; [by apply cell_u16|]). by apply cell_u16. Qed.
Lemma bilinear_u16 fu fv tp cx cy st : is_u16 (texel_fetch_bilinear fu fv tp cx cy st).
Proof.
  unfold texel_fetch_bilinear. destruct (subtexel fu), (subtexel fv). cbv zeta. case_if; [unfold is_u16; lia|apply u16_range].
Qed.
Lemma sample_u16 fu fv tp cx cy st : Words (g_vram st) -> is_u16 (sample fu fv tp cx cy st).
Proof. intros H. unfold sample. case_if; [by apply texel_fetch_u16|apply bilinear_u16]. Qed.

(** ** Pixel writes *)

Definition Put (t : RTarget) (a b : State) : Prop :=
  exists x y color, clipped t x y = false /\ b = put_masked t x y color a /\
    (Words (g_vram a) -> forall c, is_u16 (color c)).

Abbreviation Puts t := (rtc (Put t)).

Lemma put_opaque_puts t x y c st : is_u16 c -> Puts t st (put_opaque t x y c st).
Proof.
  intros Hc. unfold put_opaque. case_if; [done|]. apply rtc_once. eexists x, y, _. split_and!; [done..|].
  intros _ back. cbv zeta. case_if; [apply blend_u16|done].
Qed.

Lemma put_textured_puts t x y tx r g b raw st :
  Puts t st (put_textured t x y tx r g b raw st).
Proof.
  unfold put_textured. do 2 (case_if; [done|]). apply rtc_once. eexists x, y, _. split_and!; [done..|].
  intros _ back. cbv zeta. case_if; [apply blend_u16|]. case_if; [apply rgb_u16|apply masked_u16].
Qed.

Lemma put_modulated_puts t x y tx st : Puts t st (put_modulated t x y tx st).
Proof. apply put_textured_puts. Qed.

Lemma puts_forZ t lo hi f st : (forall i x, Puts t x (f i x)) -> Puts t st (forZ lo hi f st).
Proof. intros H. apply (forZ_rel_id (Puts t)); [done|intros ??? ??; by etrans|auto]. Qed.

Lemma puts_if t (b : bool) x y st : Puts t st x -> Puts t st y -> Puts t st (if b then x else y).
Proof. by destruct b. Qed.

Lemma puts_refl t st : Puts t st st.
Proof. done. Qed.

Create HintDb puts discriminated.
#[export] Hint Resolve puts_refl puts_if puts_forZ put_opaque_puts put_textured_puts put_modulated_puts rgb_u16 : puts.

Lemma puts_scan_lines t y0 y2 line st : (forall y x, Puts t x (line y x)) -> Puts t st (scan_lines t y0 y2 line st).
Proof. intros H. unfold scan_lines. auto 6 with puts. Qed.
Lemma puts_span t xa xb pixel st : (forall i x, Puts t x (pixel i x)) -> Puts t st (span t xa xb pixel st).
Proof. intros H. unfold span. auto with puts. Qed.

Lemma puts_flat_triangle t x0 y0 x1 y1 x2 y2 c st : is_u16 c -> Puts t st (raster_flat_triangle t x0 y0 x1 y1 x2 y2 c st).
Proof.
  intros Hc. unfold raster_flat_triangle. destruct (sort3 _ _ _ _) as [[[a0 b0] [a1 b1]] [a2 b2]].
  apply puts_scan_lines. intros ? ?. cbv zeta. destruct (swap_if _ _) as [xa xb]. apply puts_span. auto with puts.
Qed.

Lemma puts_gouraud_triangle t x0 y0 c0 x1 y1 c1 x2 y2 c2 st : Puts t st (raster_gouraud_triangle t x0 y0 c0 x1 y1 c1 x2 y2 c2 st).
Proof.
  unfold raster_gouraud_triangle.
  destruct (sort3 _ _ _ _) as [[[[a0 b0] [[? ?] ?]] [[a1 b1] [[? ?] ?]]] [[a2 b2] [[? ?] ?]]].
  apply puts_scan_lines. intros ? ?. cbv zeta. do 4 destruct (swap_if _ _). apply puts_span. intros ? ?. apply put_opaque_puts.
  case_if; apply rgb_u16.
Qed.

Lemma puts_textured_triangle t x0 y0 u0 v0 x1 y1 u1 v1 x2 y2 u2 v2 cx cy tp st :
  Puts t st (raster_textured_triangle t x0 y0 u0 v0 x1 y1 u1 v1 x2 y2 u2 v2 cx cy tp st).
Proof.
  unfold raster_textured_triangle. destruct (sort3 _ _ _ _) as [[[[a0 b0] [? ?]] [[a1 b1] [? ?]]] [[a2 b2] [? ?]]].
  apply puts_scan_lines. intros ? ?. cbv zeta. do 3 destruct (swap_if _ _). apply puts_span. auto with puts.
Qed.

Lemma puts_shaded_textured_triangle t x0 y0 u0 v0 m0 x1 y1 u1 v1 m1 x2 y2 u2 v2 m2 cx cy tp raw st :
  Puts t st (raster_shaded_textured_triangle t x0 y0 u0 v0 m0 x1 y1 u1 v1 m1 x2 y2 u2 v2 m2 cx cy tp raw st).
Proof.
  unfold raster_shaded_textured_triangle.
  destruct (sort3 _ _ _ _) as [[[[a0 b0] [[? ?] [[? ?] ?]]] [[a1 b1] [[? ?] [[? ?] ?]]]] [[a2 b2] [[? ?] [[? ?] ?]]]].
  apply puts_scan_lines. intros ? ?. cbv zeta. do 6 destruct (swap_if _ _). apply puts_span. auto with puts.
Qed.

Lemma puts_flat_rect t x y w h c st : is_u16 c -> Puts t st (raster_flat_rect t x y w h c st).
Proof. intros Hc. unfold raster_flat_rect. auto 7 with puts. Qed.

Lemma puts_rect_pixels t x y w h tx st : Puts t st (rect_pixels t x y w h tx st).
Proof. unfold rect_pixels. auto 9 with puts. Qed.

Lemma puts_textured_rect t x y w h u v cx cy tp st : Puts t st (raster_textured_rect t x y w h u v cx cy tp st).
Proof. apply puts_rect_pixels. Qed.

Lemma puts_textured_rect_scaled t x y w h u0 v0 u1 v1 cx cy tp st : Puts t st (raster_textured_rect_scaled t x y w h u0 v0 u1 v1 cx cy tp st).
Proof. unfold raster_textured_rect_scaled. case_if; [done|apply puts_rect_pixels]. Qed.

Lemma puts_block t bx by_ s c st : is_u16 c -> Puts t st (put_block t bx by_ s c st).
Proof. intros Hc. unfold put_block. auto 7 with puts. Qed.

#[export] Hint Resolve puts_flat_triangle puts_gouraud_triangle puts_textured_triangle puts_shaded_textured_triangle puts_flat_rect
  puts_textured_rect puts_textured_rect_scaled puts_block : puts.

(** ** What a primitive may change in video memory *)

(** The draw area and the mask settings. *)
Definition fence (e : DrawEnv) : Z * Z * Z * Z * Z * Z :=
  (g_clip_x1 e, g_clip_y1 e, g_clip_x2 e, g_clip_y2 e, g_mask_set_bit e, g_mask_check_bit e).

(** A cell of video memory inside the draw area. *)
Definition inside (e : DrawEnv) (idx : Z) : Prop :=
  exists x y, idx = y * VRAM_WIDTH + x /\ 0 <= x < VRAM_WIDTH /\ 0 <= y < VRAM_HEIGHT /\
    g_clip_x1 e <= x <= g_clip_x2 e /\ g_clip_y1 e <= y <= g_clip_y2 e.

(** Every cell is unchanged, or it is inside the draw area, was not protected by
    its mask bit, and carries the mask bit when that is forced. *)
Definition Confined (e : DrawEnv) (a b : State) : Prop := forall idx,
  cell idx b = cell idx a \/
  inside e idx /\ (g_mask_check_bit e = 0 \/ has (cell idx a) 0x8000 = false) /\
  (g_mask_set_bit e <> 0 -> has (cell idx b) 0x8000 = true).

Lemma confined_refl e a : Confined e a a.
Proof. by left. Qed.

Lemma confined_trans e a b c : Confined e a b -> Confined e b c -> Confined e a c.
Proof.
  intros H1 H2 idx. destruct (H1 idx) as [E1|(Hi & Hc & Hs)], (H2 idx) as [E2|(Hi' & Hc' & Hs')].
  - left. congruence.
  - right. by rewrite <-E1.
  - right. by rewrite E2.
  - by right.
Qed.

Lemma confined_same e a b c : Confined e a b -> same c b -> Confined e a c.
Proof. intros H [E _] idx. unfold cell. rewrite E. apply H. Qed.

Lemma marked_has c : has (Z.lor c 0x8000) 0x8000 = true.
Proof. change 0x8000 with (2 ^ 15). rewrite has_pow2 by lia. by rewrite Z.lor_spec, Z.pow2_bits_true, orb_true_r by lia. Qed.

Lemma cell_poke i j v st : cell i (poke j v st) = if decide (j = i) then v else cell i st.
Proof. unfold cell. cbn. case_decide; [subst; by rewrite lookup_insert_eq|by rewrite lookup_insert_ne by done]. Qed.

Lemma clipped_false t x y : clipped t x y = false ->
  0 <= x < t_w t /\ 0 <= y < t_h t /\ t_cx1 t <= x <= t_cx2 t /\ t_cy1 t <= y <= t_cy2 t.
Proof. unfold clipped. rewrite !orb_false_iff, !Z.ltb_ge, !Z.leb_gt. lia. Qed.

Lemma put_confined e a b : fence (env a) = fence e -> Put (rt_native (mkState ∅ e shadow0)) a b -> env b = env a /\ Confined e a b.
Proof.
  intros He (x & y & color & Hcl & -> & _). apply clipped_false in Hcl. cbn in Hcl. injection He as _ _ _ _ Es Ec.
  unfold put_masked. cbn [t_buf t_w rt_native buf_get buf_set]. rewrite Es, Ec.
  destruct (negb (g_mask_check_bit e =? 0) && has (cell (y * VRAM_WIDTH + x) a) 0x8000) eqn:Em; [by split; [|left]|].
  split; [done|]. intros idx. rewrite cell_poke. case_decide as Ei; [right|by left]. subst idx.
  split; [by exists x, y|]. split.
  - apply andb_false_iff in Em as [Em|]; [left|by right]. apply negb_false_iff, Z.eqb_eq in Em. done.
  - intros Hs. destruct (Z.eqb_spec (g_mask_set_bit e) 0); [done|]. apply marked_has.
Qed.

Lemma puts_confined e a b :
  fence (env a) = fence e -> Puts (rt_native (mkState ∅ e shadow0)) a b -> env b = env a /\ Confined e a b.
Proof.
  intros He H. induction H as [a|a b c H _ IH]; [by split; [|left]|].
  apply put_confined in H as [Eb Hb]; [|done]. rewrite Eb in IH. destruct (IH He) as [Ec Hc].
  split; [congruence|by eapply confined_trans].
Qed.

Lemma rt_native_fence a e : fence (env a) = fence e -> rt_native a = rt_native (mkState ∅ e shadow0).
Proof. intros [= E1 E2 E3 E4 _ _]. unfold rt_native. cbn. by rewrite E1, E2, E3, E4. Qed.

(** A native pass from a state [a'] that differs from [a] in its texture limits. *)
Lemma native_pass_confined a a' b :
  g_vram a' = g_vram a -> fence (env a') = fence (env a) -> Puts (rt_native a') a' b -> Confined (env a) a b.
Proof.
  intros Ev Ef H. rewrite (rt_native_fence a' _ Ef) in H. apply puts_confined in H as [_ H]; [|done].
  intros idx. specialize (H idx). unfold cell in *. by rewrite Ev in H.
Qed.

Section Confinement.
Context `{Heap}.

(** The nine drawing primitives, with 16-bit colours. *)
Definition draw (o : Op) : Prop :=
  match o with
  | FlatTriangle _ _ _ _ _ _ c | FlatRect _ _ _ _ c | DrawLine _ _ _ _ c => is_u16 c
  | GouraudTriangle _ _ _ _ _ _ _ _ _ | TexturedTriangle _ _ _ _ _ _ _ _ _ _ _ _ _ _ _
  | ShadedTexturedTriangle _ _ _ _ _ _ _ _ _ _ _ _ _ _ _ _ _ _ _ | TexturedRect _ _ _ _ _ _ _ _ _
  | ScaledRect _ _ _ _ _ _ _ _ _ _ _ | ShadedLine _ _ _ _ _ _ => True
  | _ => False
  end.

(** Native pass, then passes that leave the native half alone. *)
Lemma passes_confined a a' f g h :
  g_vram a' = g_vram a -> fence (env a') = fence (env a) -> Puts (rt_native a') a' f ->
  Invisible g -> (forall i, Invisible (h i)) -> Confined (env a) a (if_wide h (if_hr g f)).
Proof.
  intros Ev Ef Hf Hg Hh. eapply confined_same; [by eapply native_pass_confined|by apply passes_same].
Qed.

Lemma tri_limits_frame xs ys us vs a :
  let a' := if g_texture_filter (env a) =? 0 then a else sw_tri_uv_limits xs ys us vs a in
  g_vram a' = g_vram a /\ fence (env a') = fence (env a).
Proof.
  cbv zeta. case_if; [done|]. destruct xs as [[? ?] ?], ys as [[? ?] ?], us as [[? ?] ?], vs as [[? ?] ?].
  unfold sw_tri_uv_limits. by destruct (page_range _ _), (page_range _ _).
Qed.
Lemma rect_limits_frame u0 v0 u1 v1 a :
  let a' := if g_texture_filter (env a) =? 0 then a else sw_rect_uv_limits u0 v0 u1 v1 a in
  g_vram a' = g_vram a /\ fence (env a') = fence (env a).
Proof. cbv zeta. case_if; [done|]. unfold sw_rect_uv_limits. by destruct (page_range _ _), (page_range _ _). Qed.

Lemma line_advance_st dx dy sx sy l : ln_st (line_advance dx dy sx sy l) = ln_st l.
Proof. unfold line_advance. by destruct (_ <=? _), (_ <=? _). Qed.

Lemma line_confined fuel color x0 y0 x1 y1 a :
  (forall i, is_u16 (color i)) -> Confined (env a) a (ln_st (line_loop fuel (rt_native a) color x0 y0 x1 y1 a)).
Proof.
  intros Hc.
  assert (Hp : forall l, env (ln_st l) = env a -> Confined (env a) a (ln_st l) ->
    env (ln_st (line_put (rt_native a) color l)) = env a /\ Confined (env a) a (ln_st (line_put (rt_native a) color l))).
  { intros l El Hl. unfold line_put. cbn [ln_st].
    pose proof (line_pixel_put (rt_native a) (ln_x l) (ln_y l) (color (ln_step l)) (ln_st l)) as Es.
    pose proof (put_opaque_puts (rt_native a) (ln_x l) (ln_y l) (color (ln_step l)) (ln_st l) (Hc _)) as P.
    rewrite (rt_native_fence a (env a)) in P at 1 by done. apply puts_confined in P as [P1 P2]; [|by rewrite El].
    split; [by rewrite (proj2 Es), P1|]. eapply confined_same; [|apply Es]. by eapply confined_trans. }
  assert (Hn : forall adv going l, (forall k, ln_st (adv k) = ln_st k) -> env (ln_st l) = env a -> Confined (env a) a (ln_st l) ->
    Confined (env a) a (ln_st (nwhile fuel going (fun k => line_put (rt_native a) color (adv k)) l))).
  { induction fuel as [|n IH]; intros adv going l Ha El Hl; simpl; [done|]. destruct (going l); [|done].
    destruct (Hp (adv l)) as [H1 H2]; [by rewrite Ha..|]. by apply IH. }
  unfold line_loop. cbv zeta. destruct (Hp (mkLine x0 y0 (Z.abs (x1 - x0) + - Z.abs (y1 - y0)) 0 a)) as [H1 H2]; [done|apply confined_refl|].
  apply Hn; [|done..]. apply line_advance_st.
Qed.

Ltac confine := eapply passes_confined; [done|done|auto with puts|invisible|intros ?i; invisible].

(** C32: the draw area and the mask settings confine every drawing primitive, the
    floating-point triangles included: a cell of video memory it changes lies
    inside the draw area and inside the 1024 by 512 memory, was not protected by
    its mask bit while mask checking is on, and has its mask bit set when mask
    setting is on. *)
Theorem draws_are_confined a o : draw o -> Confined (env a) a (exec a o).
Proof.
  intros Ho. destruct o; try done; cbn [exec].
  - unfold sw_draw_flat_triangle. cbv zeta. confine.
  - unfold sw_draw_gouraud_triangle. cbv zeta. confine.
  - unfold sw_draw_textured_triangle. case_if; [apply confined_refl|]. cbv zeta.
    destruct (tri_limits_frame (x0, x1, x2) (y0, y1, y2) (u0, u1, u2) (v0, v1, v2) a) as [Ev Ef].
    generalize dependent (if g_texture_filter (env a) =? 0 then a else sw_tri_uv_limits (x0, x1, x2) (y0, y1, y2) (u0, u1, u2) (v0, v1, v2) a).
    intros a' Ev Ef. confine.
  - unfold sw_draw_shaded_textured_triangle. case_if; [apply confined_refl|]. cbv zeta.
    destruct (tri_limits_frame (x0, x1, x2) (y0, y1, y2) (u0, u1, u2) (v0, v1, v2) a) as [Ev Ef].
    generalize dependent (if g_texture_filter (env a) =? 0 then a else sw_tri_uv_limits (x0, x1, x2) (y0, y1, y2) (u0, u1, u2) (v0, v1, v2) a).
    intros a' Ev Ef. confine.
  - unfold sw_draw_flat_rect. cbv zeta. confine.
  - unfold sw_draw_textured_rect. cbv zeta.
    destruct (rect_limits_frame u v (u + w) (v + h) a) as [Ev Ef].
    generalize dependent (if g_texture_filter (env a) =? 0 then a else sw_rect_uv_limits u v (u + w) (v + h) a).
    intros a' Ev Ef. confine.
  - unfold sw_draw_textured_rect_scaled. case_if; [apply confined_refl|]. cbv zeta.
    destruct (rect_limits_frame u0 v0 u1 v1 a) as [Ev Ef].
    generalize dependent (if g_texture_filter (env a) =? 0 then a else sw_rect_uv_limits u0 v0 u1 v1 a).
    intros a' Ev Ef. confine.
  - by apply line_confined.
  - apply line_confined. intros i. apply rgb_u16.
Qed.

End Confinement.

(** ** Buffers *)

Definition BufOk (n : Z) (b : Buffer) : Prop :=
  b_size b = n /\ forall k v, b_cells b !! k = Some v -> 0 <= k < n /\ is_u16 v.

Lemma store_buf_ok n b idx v : BufOk n b -> 0 <= idx < n -> is_u16 v -> BufOk n (store idx v b).
Proof.
  intros [Hs Hb] Hi Hv. split; [done|]. intros k w. cbn. rewrite lookup_insert_Some. intros [[<- <-]|[_ ?]]; [done|by apply Hb].
Qed.

Definition surf_size (sh : Shadow) : Z := (g_wide_w sh * g_scale sh) * (VRAM_HEIGHT * g_scale sh).

(** Every buffer has the size its users compute, every cell lies in its buffer and
    is a 16-bit word, and the selected surface exists. *)
Record Mem (st : State) : Prop := mkMem {
  m_vram : BufOk (VRAM_WIDTH * VRAM_HEIGHT) (mkBuffer (VRAM_WIDTH * VRAM_HEIGHT) (g_vram st));
  m_scale : 1 <= g_scale (shadow st) <= SW_MAX_INTERNAL_SCALE;
  m_hr : forall b, g_hr (shadow st) = Some b ->
    g_hr_w (shadow st) = VRAM_WIDTH * g_scale (shadow st) /\ g_hr_h (shadow st) = VRAM_HEIGHT * g_scale (shadow st) /\
    BufOk (g_hr_w (shadow st) * g_hr_h (shadow st)) b;
  m_len : length (g_wide_surf (shadow st)) = 4%nat;
  m_surf : forall i b, surf_at i (shadow st) = Some b -> BufOk (surf_size (shadow st)) b;
  m_cur : forall i, g_wide_cur (shadow st) = Some i -> 0 <= i < 4 /\ surf_at i (shadow st) <> None
}.

Lemma mem_words st : Mem st -> Words (g_vram st).
Proof. intros [[_ H] _ _ _ _ _] k v Hk. by apply (H k). Qed.

(** The sizes, which no pixel write changes. *)
Definition has_hr (sh : Shadow) : bool := match g_hr sh with Some _ => true | None => false end.

Definition dims (sh : Shadow) : Z * Z * Z * Z * Z * option Z * bool :=
  (g_scale sh, g_hr_w sh, g_hr_h sh, g_wide_w sh, g_wide_off sh, g_wide_cur sh, has_hr sh).

(** The target fits its buffer. *)
Definition Fits (t : RTarget) (sh : Shadow) : Prop :=
  match t_buf t with
  | Native => t_w t = VRAM_WIDTH /\ t_h t = VRAM_HEIGHT
  | Hires => t_w t = g_hr_w sh /\ t_h t = g_hr_h sh
  | Wide i => 0 <= i < 4 /\ t_w t * t_h t = surf_size sh
  end.

Lemma poke_mem idx v st : Mem st -> 0 <= idx < VRAM_WIDTH * VRAM_HEIGHT -> is_u16 v -> Mem (poke idx v st).
Proof. intros [] Hi Hv. split; [by apply (store_buf_ok _ _ idx v) in m_vram0|done..]. Qed.

Lemma hr_set_mem idx v st :
  Mem st -> (forall b, g_hr (shadow st) = Some b -> 0 <= idx < g_hr_w (shadow st) * g_hr_h (shadow st)) -> is_u16 v -> Mem (hr_set idx v st).
Proof.
  intros [] Hi Hv. split; [done..| |done|done|done]. intros b. cbn. destruct (g_hr (shadow st)) as [b0|]; [|done].
  cbn. intros [= <-]. destruct (m_hr0 b0 eq_refl) as (Ew & Eh & Hb). split_and!; [done..|]. by apply store_buf_ok; [..|apply (Hi b0)|].
Qed.

Lemma surf_at_insert i j b sh : length (g_wide_surf sh) = 4%nat -> 0 <= i < 4 -> 
  nth (Z.to_nat j) (<[Z.to_nat i := b]> (g_wide_surf sh)) None = if decide (Z.to_nat j = Z.to_nat i) then b else surf_at j sh.
Proof.
  intros Hl Hi. unfold surf_at. rewrite !nth_lookup. case_decide as E.
  - rewrite E, list_lookup_insert_eq by lia. done.
  - by rewrite list_lookup_insert_ne by done.
Qed.

Lemma wide_set_mem i idx v st :
  Mem st -> 0 <= i < 4 -> 0 <= idx < surf_size (shadow st) -> is_u16 v -> Mem (wide_set i idx v st).
Proof.
  intros [] Hi Hx Hv. unfold wide_set.
  assert (Hs : forall j b, surf_at j (shadow (wide_set i idx v st)) = Some b ->
    BufOk (surf_size (shadow st)) b /\ surf_at j (shadow st) <> None).
  { intros j b. unfold surf_at at 1. cbn [wide_set shadow upd g_wide_surf]. rewrite surf_at_insert by done. case_decide as Ej.
    - destruct (surf_at i (shadow st)) as [b0|] eqn:E0; [|done]. cbn. intros [= <-]. split; [apply store_buf_ok; [by eapply m_surf0|done..]|].
      unfold surf_at in *. by rewrite Ej, E0.
    - intros Eb. split; [by eapply m_surf0|congruence]. }
  split; [done..| | |].
  - cbn. by rewrite length_insert.
  - intros j b Hb. by apply Hs in Hb as [].
  - intros j Hj. destruct (m_cur0 j Hj) as [? Hn]. split; [done|]. cbn. unfold surf_at. cbn.
    rewrite surf_at_insert by done. case_decide as Ej; [|done]. unfold surf_at in Hn. rewrite Ej in Hn. unfold surf_at. by destruct (nth _ _ _).
Qed.

Lemma buf_set_dims b idx v st : dims (shadow (buf_set b idx v st)) = dims (shadow st).
Proof. destruct b; [done| |done]. unfold dims, has_hr. cbn. by destruct (g_hr _). Qed.

Lemma put_mem t a b : Mem a -> Fits t (shadow a) -> Put t a b -> Mem b /\ dims (shadow b) = dims (shadow a).
Proof.
  intros Hm Hf (x & y & color & Hcl & -> & Hc). apply clipped_false in Hcl. specialize (Hc (mem_words _ Hm)).
  unfold put_masked. cbv zeta. case_if; [done|]. split; [|by rewrite buf_set_dims].
  assert (Hv : is_u16 (if negb (g_mask_set_bit (env a) =? 0) then Z.lor (color (buf_get (t_buf t) (y * t_w t + x) a)) 0x8000
    else color (buf_get (t_buf t) (y * t_w t + x) a))) by (case_if; [by apply marked_u16|done]).
  assert (Hi : 0 <= y * t_w t + x < t_w t * t_h t) by nia.
  generalize dependent (if negb (g_mask_set_bit (env a) =? 0) then Z.lor (color (buf_get (t_buf t) (y * t_w t + x) a)) 0x8000
    else color (buf_get (t_buf t) (y * t_w t + x) a)). intros v Hv. unfold Fits in Hf. destruct (t_buf t) as [| |i].
  - destruct Hf as [Ew Eh]. rewrite Ew, Eh in *. by apply poke_mem.
  - destruct Hf as [Ew Eh]. apply hr_set_mem; [done| |done]. intros b _. by rewrite <-Ew, <-Eh.
  - destruct Hf as [Hs Ea]. apply wide_set_mem; [done..|by rewrite <-Ea|done].
Qed.

Lemma dims_fits t sh sh' : dims sh' = dims sh -> Fits t sh -> Fits t sh'.
Proof. intros [= E1 E2 E3 E4 E5 E6 E7]. unfold Fits, surf_size. rewrite E1, E2, E3, E4. done. Qed.

(** What every operation keeps on the way: the invariant and the sizes. *)
Definition Safe (a b : State) : Prop := Mem a -> Mem b /\ dims (shadow b) = dims (shadow a).

Lemma safe_refl a : Safe a a.
Proof. done. Qed.
Lemma safe_trans a b c : Safe a b -> Safe b c -> Safe a c.
Proof. intros H1 H2 Ha. destruct (H1 Ha) as [Hb E]. destruct (H2 Hb) as [Hc E']. split; [done|congruence]. Qed.

Lemma puts_safe t a b : Fits t (shadow a) -> Puts t a b -> Safe a b.
Proof.
  intros Hf H. revert Hf. induction H as [a|a b c H _ IH]; intros Hf; [apply safe_refl|]. intros Hm.
  destruct (put_mem _ _ _ Hm Hf H) as [Hb E]. destruct (IH (dims_fits _ _ _ E Hf) Hb) as [Hc E']. split; [done|congruence].
Qed.

Lemma fits_native st sh : Fits (rt_native st) sh.
Proof. done. Qed.
Lemma fits_hires st : Fits (rt_hires st) (shadow st).
Proof. done. Qed.
Lemma fits_wide i st : 0 <= i < 4 -> Fits (rt_wide i st) (shadow st).
Proof. intros Hi. split; [done|]. unfold surf_size. cbn. ring. Qed.

Lemma if_hr_safe f a : (forall b, g_hr (shadow a) = Some b -> Safe a (f a)) -> Safe a (if_hr f a).
Proof. intros H. unfold if_hr. destruct (g_hr _) as [b|]; [by apply (H b)|apply safe_refl]. Qed.
Lemma if_wide_safe f a : (forall i, 0 <= i < 4 -> Safe a (f i a)) -> Safe a (if_wide f a).
Proof.
  intros H. unfold if_wide. destruct (g_wide_cur _) as [i|] eqn:Ei; [|apply safe_refl].
  intros Hm. apply H; [|done]. by apply (m_cur _ Hm).
Qed.
Lemma safe_forZ lo hi f a : (forall i x, lo <= i < hi -> Safe x (f i x)) -> Safe a (forZ lo hi f a).
Proof. intros H. apply (forZ_rel_id Safe); [apply safe_refl|intros ???; apply safe_trans|done]. Qed.

(** A primitive: the native pass, the mirror and the wide surface. *)
Lemma passes_safe a f g h :
  Puts (rt_native a) a f -> (forall x, Puts (rt_hires x) x (g x)) -> (forall i x, 0 <= i < 4 -> exists t, Fits t (shadow x) /\ Puts t x (h i x)) ->
  Safe a (if_wide h (if_hr g f)).
Proof.
  intros Hf Hg Hh. eapply safe_trans; [by eapply puts_safe; [|exact Hf]|].
  eapply safe_trans; [apply if_hr_safe; intros b _; by eapply puts_safe; [|apply Hg]|].
  apply if_wide_safe. intros i Hi. destruct (Hh i (if_hr g f) Hi) as (t & Ht & Hp). by eapply puts_safe.
Qed.

(** The same among states of the sizes [d]. *)
Definition Kept (d : Z * Z * Z * Z * Z * option Z * bool) (x y : State) : Prop :=
  Mem x -> dims (shadow x) = d -> Mem y /\ dims (shadow y) = d.

Lemma kept_forZ d lo hi f x : (forall i z, lo <= i < hi -> Kept d z (f i z)) -> Kept d x (forZ lo hi f x).
Proof.
  intros H. apply (forZ_rel_id (Kept d)); [done| |done]. intros a b c H1 H2 Ha Ea. destruct (H1 Ha Ea). by apply H2.
Qed.

Lemma kept_safe x y : Kept (dims (shadow x)) x y -> Safe x y.
Proof. intros H Hx. by apply H. Qed.
Lemma safe_kept d x y : (dims (shadow x) = d -> Safe x y) -> Kept d x y.
Proof. intros H Hx Ex. destruct (H Ex Hx). split; [done|congruence]. Qed.

Lemma kept_hr_set a idx v z :
  is_u16 v -> 0 <= idx < g_hr_w (shadow a) * g_hr_h (shadow a) -> Kept (dims (shadow a)) z (hr_set idx v z).
Proof.
  intros Hv Hi Hm Ez. split; [|by rewrite (buf_set_dims Hires)].
  apply hr_set_mem; [done| |done]. intros b _. injection Ez as _ Ew Eh _ _ _ _. by rewrite Ew, Eh.
Qed.

Lemma kept_wide_set a i idx v z :
  0 <= i < 4 -> is_u16 v -> 0 <= idx < surf_size (shadow a) -> Kept (dims (shadow a)) z (wide_set i idx v z).
Proof.
  intros Hi Hv Hx Hm Ez. split; [|done]. apply wide_set_mem; [done..| |done]. injection Ez as Es _ _ Ew _ _ _.
  unfold surf_size in *. by rewrite Es, Ew.
Qed.

Lemma block_safe (idx : Z -> Z -> Z) n m v a :
  is_u16 v -> (forall i j, 0 <= i < n -> 0 <= j < m -> 0 <= idx i j < g_hr_w (shadow a) * g_hr_h (shadow a)) ->
  Safe a (forZ 0 n (fun dy st => forZ 0 m (fun dx st => hr_set (idx dy dx) v st) st) a).
Proof.
  intros Hv Hi. apply kept_safe, kept_forZ. intros i x Hi'. apply kept_forZ. intros j y Hj. apply kept_hr_set; auto.
Qed.

Section Memory.
Context `{Heap}.

Lemma mem_env a e : Mem a -> Mem (a <| env := e |>).
Proof. by intros []. Qed.

Lemma env_safe a e : Safe a (a <| env := e |>).
Proof. intros Hm. split; [by apply mem_env|done]. Qed.

Lemma tri_limits_safe xs ys us vs a : Safe a (if g_texture_filter (env a) =? 0 then a else sw_tri_uv_limits xs ys us vs a).
Proof.
  case_if; [apply safe_refl|]. destruct xs as [[? ?] ?], ys as [[? ?] ?], us as [[? ?] ?], vs as [[? ?] ?].
  unfold sw_tri_uv_limits. destruct (page_range _ _), (page_range _ _). apply env_safe.
Qed.
Lemma rect_limits_safe u0 v0 u1 v1 a : Safe a (if g_texture_filter (env a) =? 0 then a else sw_rect_uv_limits u0 v0 u1 v1 a).
Proof. case_if; [apply safe_refl|]. unfold sw_rect_uv_limits. destruct (page_range _ _), (page_range _ _). apply env_safe. Qed.

Lemma wrapped_x x : 0 <= Z.land x (VRAM_WIDTH - 1) < VRAM_WIDTH.
Proof. apply (land_range_r 10); unfold VRAM_WIDTH; lia. Qed.
Lemma wrapped_y y : 0 <= Z.land y (VRAM_HEIGHT - 1) < VRAM_HEIGHT.
Proof. apply (land_range_r 9); unfold VRAM_HEIGHT; lia. Qed.

Lemma wrap_index x y : 0 <= Z.land y (VRAM_HEIGHT - 1) * VRAM_WIDTH + Z.land x (VRAM_WIDTH - 1) < VRAM_WIDTH * VRAM_HEIGHT.
Proof.
  pose proof (wrapped_y y). pose proof (wrapped_x x). unfold VRAM_WIDTH, VRAM_HEIGHT in *. lia.
Qed.

Lemma poke_safe x y v a : is_u16 v -> Safe a (poke (Z.land y (VRAM_HEIGHT - 1) * VRAM_WIDTH + Z.land x (VRAM_WIDTH - 1)) v a).
Proof. intros Hv Hm. split; [|done]. apply poke_mem; [done|apply wrap_index|done]. Qed.

Lemma rem_index i j w h : 0 <= i -> 0 <= j -> 0 < w -> 0 < h -> 0 <= Z.rem i h * w + Z.rem j w < w * h.
Proof. intros. pose proof (Z.rem_bound_pos i h ltac:(lia) ltac:(lia)). pose proof (Z.rem_bound_pos j w ltac:(lia) ltac:(lia)). nia. Qed.

(** The dimensions of an existing mirror. *)
Lemma mem_hr_dims a b : Mem a -> g_hr (shadow a) = Some b ->
  g_hr_w (shadow a) = VRAM_WIDTH * g_scale (shadow a) /\ g_hr_h (shadow a) = VRAM_HEIGHT * g_scale (shadow a) /\ 1 <= g_scale (shadow a).
Proof. intros Hm Hb. destruct (m_hr _ Hm b Hb) as (Ew & Eh & _). pose proof (m_scale _ Hm). split_and!; [done..|lia]. Qed.

Lemma hr_block_safe (idx : State -> Z -> Z -> Z) n m v a :
  is_u16 v ->
  (1 <= g_scale (shadow a) -> g_hr_w (shadow a) = VRAM_WIDTH * g_scale (shadow a) -> g_hr_h (shadow a) = VRAM_HEIGHT * g_scale (shadow a) ->
   forall i j, 0 <= i < n a -> 0 <= j < m a -> 0 <= idx a i j < g_hr_w (shadow a) * g_hr_h (shadow a)) ->
  Safe a (if_hr (fun st => forZ 0 (n st) (fun dy x => forZ 0 (m st) (fun dx x => hr_set (idx st dy dx) v x) x) st) a).
Proof.
  intros Hv Hi. apply if_hr_safe. intros b Hb Hm. destruct (mem_hr_dims a b Hm Hb) as (Ew & Eh & Es).
  apply (block_safe (idx a)); [done|auto|done].
Qed.

Lemma fill_safe x y w h c a : is_u16 c -> Safe a (sw_fill_rect x y w h c a).
Proof.
  intros Hc. unfold sw_fill_rect. cbv zeta.
  eapply safe_trans; [apply (safe_forZ 0 h); intros i u _; apply (safe_forZ 0 w); intros j v _; by apply poke_safe|].
  unfold hr_fill_block. cbv zeta.
  apply (hr_block_safe (fun st row col => Z.rem (Z.land y (VRAM_HEIGHT - 1) * g_scale (shadow st) + row) (g_hr_h (shadow st)) * g_hr_w (shadow st) +
    Z.rem (Z.land x (VRAM_WIDTH - 1) * g_scale (shadow st) + col) (g_hr_w (shadow st))) (fun st => h * g_scale (shadow st)) (fun st => w * g_scale (shadow st))); [done|].
  intros Hs Ew Eh i j Hi Hj. pose proof (wrapped_y y). pose proof (wrapped_x x).
  rewrite Ew, Eh. unfold VRAM_WIDTH, VRAM_HEIGHT in *. apply rem_index; nia.
Qed.

Lemma write_safe x y p a : is_u16 p -> Safe a (sw_vram_write x y p a).
Proof.
  intros Hp. unfold sw_vram_write. cbv zeta. eapply safe_trans; [by apply poke_safe|].
  apply (hr_block_safe (fun st dy dx => (Z.land y (VRAM_HEIGHT - 1) * g_scale (shadow st) + dy) * g_hr_w (shadow st) + Z.land x (VRAM_WIDTH - 1) * g_scale (shadow st) + dx)
    (fun st => g_scale (shadow st)) (fun st => g_scale (shadow st))); [done|].
  intros Hs Ew Eh i j Hi Hj. rewrite Ew, Eh.
  pose proof (wrapped_y y). pose proof (wrapped_x x). unfold VRAM_WIDTH, VRAM_HEIGHT in *. nia.
Qed.

Lemma transfer_safe x y w h data a : Forall is_u16 data -> Safe a (sw_vram_transfer_in x y w h data a).
Proof.
  intros Hd. unfold sw_vram_transfer_in. apply safe_forZ. intros row u _. apply safe_forZ. intros col v _. cbv zeta.
  assert (Hp : is_u16 (aget data (row * w + col))) by (apply aget_Forall; [unfold is_u16; lia|done]).
  eapply safe_trans; [by apply poke_safe|].
  apply (hr_block_safe (fun st dy dx => Z.rem (Z.land (y + row) (VRAM_HEIGHT - 1) * g_scale (shadow st) + dy) (g_hr_h (shadow st)) * g_hr_w (shadow st) +
    Z.rem (Z.land (x + col) (VRAM_WIDTH - 1) * g_scale (shadow st) + dx) (g_hr_w (shadow st))) (fun st => g_scale (shadow st)) (fun st => g_scale (shadow st))); [done|].
  intros Hs Ew Eh i j Hi Hj. rewrite Ew, Eh.
  pose proof (wrapped_y (y + row)). pose proof (wrapped_x (x + col)).
  unfold VRAM_WIDTH, VRAM_HEIGHT in *. apply rem_index; nia.
Qed.

Lemma hr_get_u16 i a : Mem a -> is_u16 (hr_get i a).
Proof.
  intros Hm. unfold hr_get. destruct (g_hr (shadow a)) as [b|] eqn:Eb; [|unfold is_u16; lia].
  destruct (m_hr _ Hm b Eb) as (_ & _ & _ & Hb). apply words_get. intros k v Hk. by apply (Hb k).
Qed.

Lemma copy_row_safe sx sy dx dy w row hr a : (hr = true -> has_hr (shadow a) = true) -> Safe a (copy_row sx sy dx dy w row hr a).
Proof.
  intros Hhr Hm. revert Hm. unfold copy_row. cbv zeta. intros Hm.
  assert (Hp : forall p st, is_u16 p -> is_u16 (if negb (g_mask_set_bit (env st) =? 0) then Z.lor p 0x8000 else p))
    by (intros; case_if; [by apply marked_u16|done]).
  assert (Hd : forall b, hr = b -> b = true -> g_hr_w (shadow a) = VRAM_WIDTH * g_scale (shadow a) /\
    g_hr_h (shadow a) = VRAM_HEIGHT * g_scale (shadow a) /\ 1 <= g_scale (shadow a)).
  { intros b Eb ->. apply Hhr in Eb. unfold has_hr in Eb. destruct (g_hr (shadow a)) as [b|] eqn:E0; [by eapply mem_hr_dims|done]. }
  apply kept_safe; [|done]. apply kept_forZ. intros col x _. destruct (negb (g_mask_check_bit _ =? 0) && _); [done|].
  assert (Hpix : is_u16 (cell (Z.land (sy + row) (VRAM_HEIGHT - 1) * VRAM_WIDTH + Z.land (sx + col) (VRAM_WIDTH - 1)) a))
    by (by apply cell_u16, mem_words).
  destruct hr; [|apply safe_kept; intros _; by apply poke_safe, Hp]. destruct (Hd true eq_refl eq_refl) as (Ew & Eh & Es).
  apply safe_kept. intros Ex. eapply safe_trans; [by apply poke_safe, Hp|]. apply kept_safe.
  match goal with |- Kept ?d ?p _ => replace d with (dims (shadow a)) end. apply kept_forZ. intros sr z Hsr. apply kept_forZ. intros sc z' Hsc.
  apply kept_hr_set; [by apply Hp, hr_get_u16|]. rewrite Ew, Eh.
  pose proof (wrapped_y (dy + row)). pose proof (wrapped_x (dx + col)). unfold VRAM_WIDTH, VRAM_HEIGHT in *. apply rem_index; nia.
Qed.

Lemma copy_safe sx sy dx dy w h a : Safe a (sw_copy_rect sx sy dx dy w h a).
Proof.
  unfold sw_copy_rect. cbv zeta.
  assert (Hhr : bool_decide (g_hr (shadow a) <> None) && alloc_ok (w * g_scale (shadow a) * g_scale (shadow a)) = true -> has_hr (shadow a) = true).
  { intros [?%bool_decide_eq_true _]%andb_true_iff. unfold has_hr. by destruct (g_hr _). }
  generalize dependent (bool_decide (g_hr (shadow a) <> None) && alloc_ok (w * g_scale (shadow a) * g_scale (shadow a))). intros hr Hhr Hm. revert Hm.
  apply kept_safe, kept_forZ. intros row x _. apply safe_kept. intros Ex. apply copy_row_safe. intros Eh.
  rewrite <-(Hhr Eh). by injection Ex.
Qed.

Lemma line_pixel_safe n x y c a : (forall sh, Fits n sh) -> is_u16 c -> Safe a (line_pixel n x y c a).
Proof.
  intros Hn Hc. unfold line_pixel. cbv zeta. set (p := put_opaque n x y c a).
  assert (S1 : Safe a p) by (by eapply puts_safe, put_opaque_puts). clearbody p.
  assert (S2 : Safe p (if_hr (hr_put_block_opaque x y c) p)).
  { apply if_hr_safe. intros b _. by apply (puts_safe (rt_hires p)), puts_block. }
  generalize dependent (if_hr (hr_put_block_opaque x y c) p). intros q S2.
  eapply safe_trans; [exact S1|]. eapply safe_trans; [exact S2|]. unfold wide_put_block_opaque.
  apply if_wide_safe. intros i Hi. cbv zeta. by apply (puts_safe (rt_wide i q)), puts_block; [apply fits_wide|].
Qed.

Lemma line_loop_safe fuel color x0 y0 x1 y1 a :
  (forall i, is_u16 (color i)) -> Safe a (ln_st (line_loop fuel (rt_native a) color x0 y0 x1 y1 a)).
Proof.
  intros Hc.
  assert (Hp : forall l, Safe (ln_st l) (ln_st (line_put (rt_native a) color l))) by (intros l; by apply line_pixel_safe).
  assert (Hn : forall adv going l, (forall k, ln_st (adv k) = ln_st k) ->
    Safe (ln_st l) (ln_st (nwhile fuel going (fun k => line_put (rt_native a) color (adv k)) l))).
  { induction fuel as [|n IH]; intros adv going l Ha; simpl; [apply safe_refl|]. destruct (going l); [|apply safe_refl].
    eapply safe_trans; [|by apply IH]. rewrite <-(Ha l). apply Hp. }
  unfold line_loop. cbv zeta. eapply safe_trans; [|apply Hn, line_advance_st]. apply (Hp (mkLine x0 y0 (Z.abs (x1 - x0) + - Z.abs (y1 - y0)) 0 a)).
Qed.

Lemma emit_tile_safe band_y x y u v cx cy tp color24 semi_trans semi_mode raw a :
  Safe a (sw_wide_emit_tile band_y x y u v cx cy tp color24 semi_trans semi_mode raw a).
Proof.
  unfold sw_wide_emit_tile. apply if_wide_safe. intros i Hi. cbv zeta.
  match goal with |- Safe a (raster_textured_rect ?t ?px ?py ?w ?h u v cx cy tp (a <| env := ?e |>)) =>
    apply (safe_trans _ (a <| env := e |>)); [apply env_safe|];
    apply (puts_safe t); [exact (fits_wide i a Hi)|apply puts_textured_rect] end.
Qed.

(** Colours and data are 16-bit, as the parameters' C types make them. *)
Definition typed (o : Op) : Prop :=
  match o with
  | Fill _ _ _ _ c | FlatTriangle _ _ _ _ _ _ c | FlatRect _ _ _ _ c | DrawLine _ _ _ _ c | VramWrite _ _ c
  | WideClear _ _ _ c => is_u16 c
  | TransferIn _ _ _ _ data => Forall is_u16 data
  | _ => True
  end.

Ltac passes := apply passes_safe; [auto with puts|intros ?x; cbv zeta; auto with puts|];
  intros ?i ?x ?Hi; cbv zeta; eexists; split; [by apply fits_wide|]; repeat case_if; auto with puts.

Lemma draws_safe a o : draw o -> Safe a (exec a o).
Proof.
  intros Ho. destruct o; try done; cbn [exec].
  - unfold sw_draw_flat_triangle. cbv zeta. passes.
  - unfold sw_draw_gouraud_triangle. cbv zeta. passes.
  - unfold sw_draw_textured_triangle. case_if; [apply safe_refl|]. cbv zeta.
    eapply safe_trans; [apply (tri_limits_safe (x0, x1, x2) (y0, y1, y2) (u0, u1, u2) (v0, v1, v2))|].
    generalize (if g_texture_filter (env a) =? 0 then a else sw_tri_uv_limits (x0, x1, x2) (y0, y1, y2) (u0, u1, u2) (v0, v1, v2) a).
    intros a'. passes.
  - unfold sw_draw_shaded_textured_triangle. case_if; [apply safe_refl|]. cbv zeta.
    eapply safe_trans; [apply (tri_limits_safe (x0, x1, x2) (y0, y1, y2) (u0, u1, u2) (v0, v1, v2))|].
    generalize (if g_texture_filter (env a) =? 0 then a else sw_tri_uv_limits (x0, x1, x2) (y0, y1, y2) (u0, u1, u2) (v0, v1, v2) a).
    intros a'. passes.
  - unfold sw_draw_flat_rect. cbv zeta. passes.
  - unfold sw_draw_textured_rect. cbv zeta. eapply safe_trans; [apply (rect_limits_safe u v (u + w) (v + h))|].
    generalize (if g_texture_filter (env a) =? 0 then a else sw_rect_uv_limits u v (u + w) (v + h) a). intros a'. passes.
  - unfold sw_draw_textured_rect_scaled. case_if; [apply safe_refl|]. cbv zeta. eapply safe_trans; [apply (rect_limits_safe u0 v0 u1 v1)|].
    generalize (if g_texture_filter (env a) =? 0 then a else sw_rect_uv_limits u0 v0 u1 v1 a). intros a'. passes.
  - by apply line_loop_safe.
  - apply line_loop_safe. intros i. apply rgb_u16.
Qed.

(** ** Allocation and release of the shadow buffers *)

Lemma surf_at_none i : nth (Z.to_nat i) (replicate 4 None : list (option Buffer)) None = None.
Proof. by destruct (Z.to_nat i) as [|[|[|[|[|?]]]]]. Qed.

(** A state whose surfaces are all free, with the mirror of the given sizes. *)
Lemma mem_freed st sh :
  Mem st -> 1 <= g_scale sh <= SW_MAX_INTERNAL_SCALE -> g_wide_surf sh = replicate 4 None -> g_wide_cur sh = None ->
  (forall b, g_hr sh = Some b -> g_hr_w sh = VRAM_WIDTH * g_scale sh /\ g_hr_h sh = VRAM_HEIGHT * g_scale sh /\ BufOk (g_hr_w sh * g_hr_h sh) b) ->
  Mem (st <| shadow := sh |>).
Proof.
  intros [] Hs Hf Hc Hh. split; [done|done|done| | |].
  - cbn. by rewrite Hf.
  - intros i b. unfold surf_at. cbn. by rewrite Hf, surf_at_none.
  - intros i. cbn. by rewrite Hc.
Qed.

Lemma set_scale_mem n st : Mem st -> Mem (sw_renderer_set_scale n st).
Proof.
  intros Hm. unfold sw_renderer_set_scale. cbv zeta. unfold SW_MAX_INTERNAL_SCALE.
  set (k := if 4 <? (if n <? 1 then 1 else n) then 4 else (if n <? 1 then 1 else n)).
  assert (Hk : 1 <= k <= 4) by (subst k; btest; lia). clearbody k.
  case_if; [case_if|]; (apply mem_freed; [done|cbn; unfold SW_MAX_INTERNAL_SCALE; lia|done|done|]); [|done..].
  intros b. cbn. intros [= <-]. split_and!; [done..|]. split; [done|]. intros ? ?. cbn. by rewrite lookup_empty.
Qed.

Lemma wide_configure_mem w off st : Mem st -> Mem (sw_wide_configure w off st).
Proof.
  intros Hm. pose proof (m_scale _ Hm) as Hs. pose proof (m_hr _ Hm) as Hh.
  unfold sw_wide_configure. cbv zeta. case_if; [by apply mem_freed|]. case_if; [by apply mem_freed|].
  apply negb_false_iff, Z.eqb_eq in E0. destruct Hm. split; [done..| |done]. intros i b Hb. unfold surf_size. cbn. rewrite E0. by eapply m_surf0.
Qed.

Lemma first_slot_range p i : first_slot p = Some i -> 0 <= i < 4 /\ p i = true.
Proof. unfold first_slot, WIDE_MAX_SURF. intros Hf%find_some. destruct Hf as [Hi Hp]. split; [|done]. apply list_elem_of_In, elem_of_seqZ in Hi. lia. Qed.

Lemma surf_for_mem bx st : Mem st ->
  let '(slot, sh) := wide_surf_for bx (shadow st) in
  Mem (st <| shadow := sh |>) /\ forall i, slot = Some i -> 0 <= i < 4 /\ surf_at i sh <> None.
Proof.
  intros Hm. unfold wide_surf_for. case_if; [done|].
  destruct (first_slot _) as [i|] eqn:E1.
  { apply first_slot_range in E1 as [Hi Hp]. apply andb_true_iff in Hp as [Hp%bool_decide_eq_true _].
    split; [done|]. by intros ? [= <-]. }
  destruct (first_slot (fun i => bool_decide (surf_at i (shadow st) = None))) as [i|] eqn:E2; [|done].
  apply first_slot_range in E2 as [Hi Hp%bool_decide_eq_true]. cbv zeta. case_if; [|done].
  destruct Hm. 
  assert (Hat : forall j, nth (Z.to_nat j) (<[Z.to_nat i:=Some (mkBuffer (surf_size (shadow st)) ∅)]> (g_wide_surf (shadow st))) None =
    if decide (Z.to_nat j = Z.to_nat i) then Some (mkBuffer (surf_size (shadow st)) ∅) else surf_at j (shadow st)) by (intros; by apply surf_at_insert).
  split.
  - split; [done|done|done| | |].
    + cbn. by rewrite length_insert.
    + intros j b. unfold surf_at at 1. cbn [shadow upd g_wide_surf]. rewrite Hat. case_decide as Ej; [|apply m_surf0].
      intros [= <-]. split; [done|]. intros ? ?. cbn. by rewrite lookup_empty.
    + intros j Hj. destruct (m_cur0 j Hj) as [? Hn]. split; [done|]. unfold surf_at. cbn [shadow upd g_wide_surf]. rewrite Hat. by case_decide.
  - intros j [= <-]. split; [done|]. unfold surf_at. cbn [shadow upd g_wide_surf]. rewrite Hat. by rewrite decide_True.
Qed.

Lemma clear_rows_mem i y h c x :
  0 <= i < 4 -> is_u16 c -> Mem x ->
  let s := g_scale (shadow x) in let W := g_wide_w (shadow x) * s in let H := VRAM_HEIGHT * s in
  let y0 := if y * s <? 0 then 0 else y * s in let y1 := if H <? (y + h) * s then H else (y + h) * s in
  Mem (forZ y0 y1 (fun row st => forZ 0 W (fun col st => wide_set i (row * W + col) c st) st) x).
Proof.
  intros Hi Hc Hm. cbv zeta. pose proof (m_scale _ Hm) as Hsc.
  refine (proj1 (kept_safe _ _ _ Hm)). apply kept_forZ. intros row z Hrow. apply kept_forZ. intros col z' Hcol.
  apply kept_wide_set; [done..|]. unfold surf_size, VRAM_HEIGHT in *.
  assert (Hr : 0 <= row < 512 * g_scale (shadow x)) by (revert Hrow; repeat case_if; btest; lia). nia.
Qed.

Lemma wide_clear_mem bx y h c st : is_u16 c -> Mem st -> Mem (sw_wide_clear bx y h c st).
Proof.
  intros Hc Hm. unfold sw_wide_clear. pose proof (surf_for_mem bx st Hm) as Hs.
  destruct (wide_surf_for bx (shadow st)) as [[i|] sh]; [|apply Hs]. destruct Hs as [Hm' Hi]. destruct (Hi i eq_refl) as [Hi' _].
  pose proof (clear_rows_mem i y h c (st <| shadow := sh |>) Hi' Hc Hm') as P. cbv zeta in P |- *.
  change (shadow (st <| shadow := sh |>)) with sh in P. exact P.
Qed.

(** ** Every sequence of calls *)

Lemma exec_mem a o : typed o -> Mem a -> Mem (exec a o).
Proof.
  intros Ht Hm.
  assert (Hd : draw o -> Mem (exec a o)) by (intros Ho; exact (proj1 (draws_safe a o Ho Hm))).
  destruct o; try (exact (Hd Ht)); clear Hd; cbn [exec].
  1: by destruct Hm.
  1-7: exact (mem_env _ _ Hm).
  - by apply fill_safe.
  - by apply copy_safe.
  - by apply write_safe.
  - by apply transfer_safe.
  - by apply set_scale_mem.
  - by apply wide_configure_mem.
  - unfold sw_wide_set_target. pose proof (surf_for_mem bx a Hm) as Hs. destruct (wide_surf_for _ _) as [slot sh].
    destruct Hs as [[] Hi]. split; done.
  - destruct Hm. split; done.
  - by apply wide_clear_mem.
  - by destruct Hm.
  - by apply emit_tile_safe.
Qed.

(** The state at program start, once gpu.c has handed its array over. *)
Definition boot (vram : gmap Z Z) : State := sw_renderer_init vram (mkState ∅ env0 shadow0).

Lemma boot_mem : Mem (boot ∅).
Proof.
  split; cbn; [split; [done|]|unfold SW_MAX_INTERNAL_SCALE; lia|done|done| |done].
  - intros ? ?. cbn. by rewrite lookup_empty.
  - intros i b. unfold surf_at. by destruct (Z.to_nat i) as [|[|[|[|[|?]]]]].
Qed.

(** Memory safety of the rasteriser: whatever calls are made, in whatever
    order and whichever allocations fail, every cell written lies inside the
    buffer it belongs to (video memory, the mirror at its scale, a wide surface at
    its width), every buffer has the size its users compute, the selected surface
    exists, and every pixel stays a 16-bit word. *)
Theorem rasteriser_memory_safe ops : Forall typed ops -> Mem (exec_all (boot ∅) ops).
Proof.
  intros Ht. unfold exec_all. generalize boot_mem. generalize (boot ∅). induction Ht as [|o ops Ho _ IH]; intros a Ha; [done|].
  cbn. by apply IH, exec_mem.
Qed.

End Memory.
End SwSafety.
