(* ===== verification/SwLines.v ===== *)
(** * Lines, blocks and transfers of the software rasteriser

    Bresenham's loop ends at its end point after as many rounds as the longer
    side, never more than half a pixel off the ideal line; fills and transfers
    write exactly their wrapped rectangle. *)

From S2P Require Import Prelude SwRenderer SwLaws SwSafety.
From Stdlib Require Import SpecFloat.

Module SwLines.
Import SwRenderer SwLaws SwSafety.

(** ** Bresenham's loop *)

Section Lines.
Context (x0 y0 x1 y1 : Z).

(** The sides of the line, its directions and its length in rounds. *)
Definition side_x : Z := Z.abs (x1 - x0).
Definition side_y : Z := Z.abs (y1 - y0).
Definition dir_x : Z := if x0 <? x1 then 1 else -1.
Definition dir_y : Z := if y0 <? y1 then 1 else -1.
Definition rounds : Z := Z.max side_x side_y.

(** After [k] rounds, [a] steps along x and [b] along y: the error term is the
    deviation from the ideal line, at most half of the longer side. *)
Definition On (k : Z) (l : Line) : Prop :=
  ln_step l = k /\ 0 <= k <= rounds /\ exists a b,
    ln_x l = x0 + dir_x * a /\ ln_y l = y0 + dir_y * b /\
    ln_err l = side_x * (1 + b) - side_y * (1 + a) /\
    2 * Z.abs (side_x * b - side_y * a) <= rounds /\
    0 <= a <= side_x /\ 0 <= b <= side_y /\ Z.max a b = k /\ (if side_y <=? side_x then a = k else b = k).

Lemma on_start st : On 0 (mkLine x0 y0 (side_x + - side_y) 0 st).
Proof.
  unfold On, rounds, side_x, side_y. cbn. split; [done|]. split; [lia|]. exists 0, 0. split_and!; try lia. by case_if.
Qed.

(** The end point is reached in the last round and not before. *)
Lemma on_going k l : On k l -> line_going x1 y1 l = negb (k =? rounds).
Proof.
  intros (_ & Hk & a & b & Ex & Ey & _ & Hd & Ha & Hb & _ & Hm). unfold line_going. f_equal. rewrite Ex, Ey.
  assert (E1 : (x0 + dir_x * a =? x1) = (a =? side_x)) by (unfold dir_x, side_x in *; btest; lia).
  assert (E2 : (y0 + dir_y * b =? y1) = (b =? side_y)) by (unfold dir_y, side_y in *; btest; lia).
  rewrite E1, E2. clear E1 E2 Ex Ey. unfold rounds in *. destruct (Z.leb_spec side_y side_x).
  - subst a. destruct (Z.eqb_spec k side_x) as [->|]; cbn; [|btest; lia].
    assert (b = side_y) by nia. subst. btest; lia.
  - subst b. destruct (Z.eqb_spec k side_y) as [->|]; [|rewrite andb_false_r; btest; lia].
    assert (a = side_x) by nia. subst. btest; cbn; lia.
Qed.

Lemma on_advance k l : On k l -> k < rounds -> On (k + 1) (line_advance side_x (- side_y) dir_x dir_y l).
Proof.
  intros (Es & Hk & a & b & Ex & Ey & Ee & Hd & Ha & Hb & Hmax & Hm) Hlt. unfold line_advance, On. cbv zeta. rewrite Ee.
  assert (Hx : 0 <= side_x) by (unfold side_x; lia). assert (Hy : 0 <= side_y) by (unfold side_y; lia).
  unfold rounds in *. destruct (Z.leb_spec side_y side_x) as [Hle|Hle].
  - subst a. destruct (Z.leb_spec (- side_y) (2 * (side_x * (1 + b) - side_y * (1 + k)))); [|exfalso; nia].
    destruct (Z.leb_spec (2 * (side_x * (1 + b) - side_y * (1 + k))) side_x); cbn [ln_step ln_x ln_y ln_err].
    + split; [lia|]. split; [lia|]. exists (k + 1), (b + 1). split_and!; try lia; nia.
    + split; [lia|]. split; [lia|]. exists (k + 1), b. split_and!; try lia; nia.
  - subst b. destruct (Z.leb_spec (2 * (side_x * (1 + k) - side_y * (1 + a))) side_x); [|exfalso; nia].
    destruct (Z.leb_spec (- side_y) (2 * (side_x * (1 + k) - side_y * (1 + a)))); cbn [ln_step ln_x ln_y ln_err].
    + split; [lia|]. split; [lia|]. exists (a + 1), (k + 1). split_and!; try lia; nia.
    + split; [lia|]. split; [lia|]. exists a, (k + 1). split_and!; try lia; nia.
Qed.

Lemma on_loop f n color k l :
  On k l -> On (Z.min (k + Z.of_nat f) rounds) (nwhile f (line_going x1 y1)
    (fun l => line_put n color (line_advance side_x (- side_y) dir_x dir_y l)) l).
Proof.
  revert k l. induction f as [|f IH]; intros k l Hl.
  - destruct Hl as (? & ? & ?). cbn. by replace (Z.min (k + Z.of_nat 0) rounds) with k by lia.
  - cbn [nwhile]. rewrite (on_going _ _ Hl). destruct (Z.eqb_spec k rounds) as [->|Hne]; cbn [negb].
    + destruct Hl as (? & ? & ?). by replace (Z.min (rounds + Z.of_nat (S f)) rounds) with rounds by lia.
    + replace (k + Z.of_nat (S f)) with (k + 1 + Z.of_nat f) by lia. apply IH.
      apply on_advance; [done|]. destruct Hl as (_ & ? & _). lia.
Qed.

End Lines.

(** C38: Bresenham's loop, run for [fuel] rounds from (x0, y0): it has taken
    [min fuel n] steps where [n] is the longer side of the line; every step moves
    one pixel along that side; the pixel it stands on is never more than half a
    pixel from the ideal line; and after [n] rounds it has stopped, at (x1, y1).
    So the code's unbounded [for] loop ends, after exactly [n] steps. *)
Theorem line_loop_ends fuel n color x0 y0 x1 y1 st :
  let l := line_loop fuel n color x0 y0 x1 y1 st in
  let len := Z.max (Z.abs (x1 - x0)) (Z.abs (y1 - y0)) in
  ln_step l = Z.min (Z.of_nat fuel) len /\
  Z.max (Z.abs (ln_x l - x0)) (Z.abs (ln_y l - y0)) = ln_step l /\
  2 * Z.abs ((y1 - y0) * (ln_x l - x0) - (x1 - x0) * (ln_y l - y0)) <= len /\
  (line_going x1 y1 l = negb (len <=? Z.of_nat fuel)) /\
  (len <= Z.of_nat fuel -> ln_x l = x1 /\ ln_y l = y1).
Proof.
  cbv zeta. pose proof (on_loop x0 y0 x1 y1 fuel n color 0 _ (on_start x0 y0 x1 y1 (line_pixel n x0 y0 (color 0) st))) as Ho.
  change (nwhile _ _ _ _) with (line_loop fuel n color x0 y0 x1 y1 st) in Ho. rewrite Z.add_0_l in Ho.
  pose proof (on_going _ _ _ _ _ _ Ho) as Hg. destruct Ho as (Es & Hk & a & b & Ex & Ey & _ & Hd & Ha & Hb & Hmax & Hm).
  change (Z.max (Z.abs (x1 - x0)) (Z.abs (y1 - y0))) with (rounds x0 y0 x1 y1). split; [done|].
  assert (Hax : Z.abs (ln_x (line_loop fuel n color x0 y0 x1 y1 st) - x0) = a) by (rewrite Ex; unfold dir_x; case_if; lia).
  assert (Hby : Z.abs (ln_y (line_loop fuel n color x0 y0 x1 y1 st) - y0) = b) by (rewrite Ey; unfold dir_y; case_if; lia).
  assert (Hg' : line_going x1 y1 (line_loop fuel n color x0 y0 x1 y1 st) = negb (rounds x0 y0 x1 y1 <=? Z.of_nat fuel)).
  { rewrite Hg. f_equal. btest; lia. }
  split; [lia|]. split; [|split; [done|]].
  - rewrite Ex, Ey. unfold dir_x, dir_y, side_x, side_y in *. destruct (Z.ltb_spec x0 x1), (Z.ltb_spec y0 y1); nia.
  - intros Hf. rewrite Hg' in *. unfold line_going in Hg'. destruct (Z.leb_spec (rounds x0 y0 x1 y1) (Z.of_nat fuel)); [|lia].
    cbn in Hg'. apply negb_false_iff, andb_true_iff in Hg' as [?%Z.eqb_eq ?%Z.eqb_eq]. done.
Qed.

(** The shaded line starts and ends in its two colours and never leaves the range
    between them. *)
Lemma shade_between c0 c1 step total :
  0 <= step <= total -> 0 < total -> Z.min c0 c1 <= shade c0 c1 step total <= Z.max c0 c1.
Proof.
  intros Hs Ht. unfold shade. destruct (Z.le_gt_cases c0 c1).
  - assert (0 <= Z.quot ((c1 - c0) * step) total <= c1 - c0); [|lia]. split; [apply Z.quot_pos; nia|].
    apply Z.quot_le_upper_bound; nia.
  - replace ((c1 - c0) * step) with (- ((c0 - c1) * step)) by ring. rewrite Z.quot_opp_l by lia.
    assert (0 <= Z.quot ((c0 - c1) * step) total <= c0 - c1); [|lia]. split; [apply Z.quot_pos; nia|].
    apply Z.quot_le_upper_bound; nia.
Qed.

Lemma shade_ends c0 c1 total : 0 < total -> shade c0 c1 0 total = c0 /\ shade c0 c1 total total = c1.
Proof. intros Ht. unfold shade. rewrite Z.mul_0_r, Z.quot_0_l, Z.quot_mul by lia. lia. Qed.


(** ** Rectangles of cells *)

(** The coordinates of pixel (X, Y) in a rectangle at (x, y), which wraps around
    the edges of video memory. *)
Definition col_of (x X : Z) : Z := (X - x) mod VRAM_WIDTH.
Definition row_of (y Y : Z) : Z := (Y - y) mod VRAM_HEIGHT.

Definition pixel (X Y : Z) (st : State) : Z := cell (Y * VRAM_WIDTH + X) st.

Lemma land_x x : Z.land x (VRAM_WIDTH - 1) = x mod VRAM_WIDTH.
Proof. apply (Z.land_ones x 10). lia. Qed.
Lemma land_y y : Z.land y (VRAM_HEIGHT - 1) = y mod VRAM_HEIGHT.
Proof. apply (Z.land_ones y 9). lia. Qed.

Lemma wrapped_cell x y row col X Y :
  0 <= X < VRAM_WIDTH -> 0 <= Y < VRAM_HEIGHT -> 0 <= row < VRAM_HEIGHT -> 0 <= col < VRAM_WIDTH ->
  (Z.land (y + row) (VRAM_HEIGHT - 1) * VRAM_WIDTH + Z.land (x + col) (VRAM_WIDTH - 1) = Y * VRAM_WIDTH + X <->
   row = row_of y Y /\ col = col_of x X).
Proof.
  intros HX HY Hr Hc. rewrite land_x, land_y. unfold row_of, col_of, VRAM_WIDTH, VRAM_HEIGHT in *. split; [intros E|intros [-> ->]]; dlia.
Qed.

(** Writing a rectangle pixel by pixel, where the old value of a cell may refuse
    the write; a row's body may read the state at the start of its row, in which
    everything outside the rectangle is still as at the beginning.  What else the
    body does to the shadow is invisible. *)
Section Written.
Context (x y w h : Z) (val : Z -> Z -> Z) (guard : Z -> bool) (body : Z -> State -> Z -> State -> State) (st : State).
Context (Hw : 0 <= w <= VRAM_WIDTH) (Hh : 0 <= h <= VRAM_HEIGHT).

Definition in_rect (X Y : Z) : bool := (row_of y Y <? h) && (col_of x X <? w).

Context (Hb : forall row s0 col s, 0 <= row < h -> 0 <= col < w -> env s0 = env st -> env s = env st ->
  (forall X Y, 0 <= X < VRAM_WIDTH -> 0 <= Y < VRAM_HEIGHT -> in_rect X Y = false -> pixel X Y s0 = pixel X Y st) ->
  let idx := Z.land (y + row) (VRAM_HEIGHT - 1) * VRAM_WIDTH + Z.land (x + col) (VRAM_WIDTH - 1) in
  same (body row s0 col s) (if guard (cell idx s) then s else poke idx (val row col) s)).

Definition written (b : bool) (X Y : Z) : Z :=
  if b && negb (guard (pixel X Y st)) then val (row_of y Y) (col_of x X) else pixel X Y st.

(** Part of row [row] done: columns before [k]. *)
Lemma row_written row s0 k :
  0 <= row < h -> 0 <= k <= w -> env s0 = env st ->
  (forall X Y, 0 <= X < VRAM_WIDTH -> 0 <= Y < VRAM_HEIGHT -> pixel X Y s0 = written ((row_of y Y <? row) && (col_of x X <? w)) X Y) ->
  env (forZ 0 k (fun col s => body row s0 col s) s0) = env st /\
  forall X Y, 0 <= X < VRAM_WIDTH -> 0 <= Y < VRAM_HEIGHT ->
  pixel X Y (forZ 0 k (fun col s => body row s0 col s) s0) =
    written (((row_of y Y <? row) && (col_of x X <? w)) || ((row_of y Y =? row) && (col_of x X <? k))) X Y.
Proof.
  intros Hrow Hk He H0.
  assert (Hout : forall X Y, 0 <= X < VRAM_WIDTH -> 0 <= Y < VRAM_HEIGHT -> in_rect X Y = false -> pixel X Y s0 = pixel X Y st).
  { intros X' Y' HX' HY' Hi. rewrite H0 by done. unfold written, in_rect in *.
    destruct (Z.ltb_spec (row_of y Y') row), (Z.ltb_spec (row_of y Y') h), (_ <? w); try done; lia. }
  cut (0 <= k -> k <= w -> env (forZ 0 k (fun col s => body row s0 col s) s0) = env st /\
    forall X Y, 0 <= X < VRAM_WIDTH -> 0 <= Y < VRAM_HEIGHT -> pixel X Y (forZ 0 k (fun col s => body row s0 col s) s0) =
    written (((row_of y Y <? row) && (col_of x X <? w)) || ((row_of y Y =? row) && (col_of x X <? k))) X Y); [intros G; apply G; lia|].
  intros Hk0. apply (forZ_ind (fun k z => k <= w -> env z = env st /\ forall X Y, 0 <= X < VRAM_WIDTH -> 0 <= Y < VRAM_HEIGHT -> pixel X Y z =
    written (((row_of y Y <? row) && (col_of x X <? w)) || ((row_of y Y =? row) && (col_of x X <? k))) X Y)); [lia| |].
  { intros _. split; [done|]. intros X Y HX HY. rewrite H0 by done.
    assert (Hc0 : 0 <= col_of x X < VRAM_WIDTH) by (apply Z.mod_pos_bound; done).
    destruct (Z.ltb_spec (col_of x X) 0); [lia|]. by rewrite andb_false_r, orb_false_r. }
  intros col z Hcol IH Hle. destruct (IH ltac:(lia)) as [Ez IHz]. clear IH.
  pose proof (Hb row s0 col z Hrow ltac:(lia) He Ez Hout) as [Hv Hev]. cbv zeta in Hv, Hev. split.
  { rewrite Hev. by case_if. }
  intros X Y HX HY. specialize (IHz X Y HX HY). rename IHz into IH.
  assert (Hc0 : 0 <= col_of x X < VRAM_WIDTH) by (apply Z.mod_pos_bound; done).
  assert (Hr0 : 0 <= row_of y Y < VRAM_HEIGHT) by (apply Z.mod_pos_bound; done).
  unfold pixel at 1, cell. rewrite Hv. clear Hv Hev.
  pose proof (wrapped_cell x y row col X Y HX HY ltac:(lia) ltac:(lia)) as Hi. cbv zeta.
  generalize dependent (Z.land (y + row) (VRAM_HEIGHT - 1) * VRAM_WIDTH + Z.land (x + col) (VRAM_WIDTH - 1)). intros idx Hi.
  match goal with |- default 0 (g_vram ?u !! ?i) = _ => change (default 0 (g_vram u !! i)) with (pixel X Y u) end.
  destruct (decide (idx = Y * VRAM_WIDTH + X)) as [Ei|Ei].
  - apply Hi in Ei as Ei'. destruct Ei' as [Er Ec]. subst row col.
    change (cell idx z) with (cell idx z). rewrite Ei. change (cell (Y * VRAM_WIDTH + X) z) with (pixel X Y z).
    rewrite Z.ltb_irrefl, Z.eqb_refl, Z.ltb_irrefl in IH. cbn in IH. rewrite IH.
    rewrite Z.ltb_irrefl, Z.eqb_refl. destruct (Z.ltb_spec (col_of x X) (col_of x X + 1)); [|lia]. unfold written. cbn.
    destruct (guard (pixel X Y st)); cbn; [by rewrite IH|]. unfold pixel. by rewrite cell_poke, decide_True.
  - transitivity (pixel X Y z).
    { unfold pixel. destruct (guard _); [done|]. by rewrite cell_poke, decide_False. }
    rewrite IH. f_equal. destruct (Z.eqb_spec (row_of y Y) row) as [Er|]; [|done]. f_equal.
    destruct (Z.ltb_spec (col_of x X) col), (Z.ltb_spec (col_of x X) (col + 1)); try done; lia.
Qed.

Lemma rect_written X Y :
  0 <= X < VRAM_WIDTH -> 0 <= Y < VRAM_HEIGHT ->
  pixel X Y (forZ 0 h (fun row st => forZ 0 w (fun col s => body row st col s) st) st) = written (in_rect X Y) X Y.
Proof.
  intros HX HY.
  revert X Y HX HY.
  apply (forZ_ind (fun k s => env s = env st /\ forall X Y, 0 <= X < VRAM_WIDTH -> 0 <= Y < VRAM_HEIGHT ->
    pixel X Y s = written ((row_of y Y <? k) && (col_of x X <? w)) X Y)); [lia| |].
  { split; [done|]. intros X' Y' _ _. assert (0 <= row_of y Y') by (apply Z.mod_pos_bound; done).
    destruct (Z.ltb_spec (row_of y Y') 0); [lia|done]. }
  intros row s Hrow [Es IH]. destruct (row_written row s w Hrow ltac:(lia) Es IH) as [Es' IH']. split; [done|].
  intros X' Y' HX' HY'. rewrite (IH' X' Y' HX' HY'). f_equal.
  destruct (Z.ltb_spec (row_of y Y') row), (Z.eqb_spec (row_of y Y') row), (Z.ltb_spec (row_of y Y') (row + 1)), (_ <? w); try done; lia.
Qed.
End Written.

Section Blocks.
Context `{Heap}.

Lemma fill_pixels x y w h c st X Y :
  0 <= w <= VRAM_WIDTH -> 0 <= h <= VRAM_HEIGHT -> 0 <= X < VRAM_WIDTH -> 0 <= Y < VRAM_HEIGHT ->
  pixel X Y (sw_fill_rect x y w h c st) =
  if in_rect (x mod VRAM_WIDTH) (y mod VRAM_HEIGHT) w h X Y then c else pixel X Y st.
Proof.
  intros Hw Hh HX HY. unfold sw_fill_rect. cbv zeta.
  assert (Hi : Invisible (if_hr (hr_fill_block x y w h c))).
  { apply if_hr_invisible. intros z. unfold hr_fill_block. apply (forZ_invisible 0 _). intros i. by apply forZ_invisible. }
  unfold pixel at 1, cell. rewrite (proj1 (Hi _)), land_x, land_y.
  pose proof (rect_written (x mod VRAM_WIDTH) (y mod VRAM_HEIGHT) w h (fun _ _ => c) (fun _ => false)
    (fun row _ col s => poke (Z.land (y mod VRAM_HEIGHT + row) (VRAM_HEIGHT - 1) * VRAM_WIDTH + Z.land (x mod VRAM_WIDTH + col) (VRAM_WIDTH - 1)) c s)
    st Hw Hh (fun _ _ _ _ _ _ _ _ _ => reflexivity _) X Y HX HY) as E0.
  unfold pixel at 1, cell in E0. rewrite E0. unfold written. by rewrite andb_true_r.
Qed.

Lemma transfer_in_pixels x y w h data st X Y :
  0 <= w <= VRAM_WIDTH -> 0 <= h <= VRAM_HEIGHT -> 0 <= X < VRAM_WIDTH -> 0 <= Y < VRAM_HEIGHT ->
  pixel X Y (sw_vram_transfer_in x y w h data st) =
  if in_rect x y w h X Y then aget data (row_of y Y * w + col_of x X) else pixel X Y st.
Proof.
  intros Hw Hh HX HY. unfold sw_vram_transfer_in.
  pose proof (rect_written x y w h (fun row col => aget data (row * w + col)) (fun _ => false)
    (fun row _ col st => 
      let py := Z.land (y + row) (VRAM_HEIGHT - 1) in
      let px := Z.land (x + col) (VRAM_WIDTH - 1) in
      let pixel := aget data (row * w + col) in
      let st := poke (py * VRAM_WIDTH + px) pixel st in
      if_hr (fun st =>
        let sh := shadow st in let s := g_scale sh in
        forZ 0 s (fun dy st => forZ 0 s (fun dx st =>
          hr_set (Z.rem (py * s + dy) (g_hr_h sh) * g_hr_w sh + Z.rem (px * s + dx) (g_hr_w sh)) pixel st) st) st) st)
    st Hw Hh) as E0. cbv zeta in E0 |- *. rewrite E0; [unfold written; by rewrite andb_true_r| |done|done].
  intros row s0 col s _ _ _ _ _. apply (if_hr_invisible _ (fun st => block_invisible _ _ _ st) _).
Qed.

(** The pixel a copy brings to row [row] and column [col]. *)
Definition source_pixel (x y row col : Z) (st : State) : Z :=
  cell (Z.land (y + row) (VRAM_HEIGHT - 1) * VRAM_WIDTH + Z.land (x + col) (VRAM_WIDTH - 1)) st.

Definition mark (e : DrawEnv) (p : Z) : Z := if negb (g_mask_set_bit e =? 0) then Z.lor p 0x8000 else p.

(** The source rectangle does not meet the destination. *)
Definition apart (src_x src_y dst_x dst_y w h : Z) : Prop :=
  forall row col, 0 <= row < h -> 0 <= col < w ->
    in_rect dst_x dst_y w h ((src_x + col) mod VRAM_WIDTH) ((src_y + row) mod VRAM_HEIGHT) = false.

(** C37: a copy inside video memory between rectangles that do not meet: every pixel
    of the destination becomes the source pixel as it was before the copy, with
    the mask bit forced when mask setting is on, except the pixels protected by
    their mask bit while mask checking is on; every pixel outside the destination
    is unchanged.  Both rectangles wrap around the edges of the memory. *)
Theorem copy_rect_exact src_x src_y dst_x dst_y w h st X Y :
  0 <= w <= VRAM_WIDTH -> 0 <= h <= VRAM_HEIGHT -> apart src_x src_y dst_x dst_y w h ->
  0 <= X < VRAM_WIDTH -> 0 <= Y < VRAM_HEIGHT ->
  pixel X Y (sw_copy_rect src_x src_y dst_x dst_y w h st) =
  if in_rect dst_x dst_y w h X Y && negb (negb (g_mask_check_bit (env st) =? 0) && has (pixel X Y st) 0x8000)
  then mark (env st) (source_pixel src_x src_y (row_of dst_y Y) (col_of dst_x X) st)
  else pixel X Y st.
Proof.
  intros Hw Hh Ha HX HY. unfold sw_copy_rect, copy_row. cbv zeta.
  generalize (bool_decide (g_hr (shadow st) <> None) && alloc_ok (w * g_scale (shadow st) * g_scale (shadow st))). intros hr.
  refine (rect_written dst_x dst_y w h (fun row col => mark (env st) (source_pixel src_x src_y row col st))
    (fun c => negb (g_mask_check_bit (env st) =? 0) && has c 0x8000) _ st Hw Hh _ X Y HX HY).
  intros row s0 col s Hrow Hcol E0 Es Hout. cbv zeta. rewrite Es. case_if; [done|].
  assert (Hf : forall f z, Invisible f -> same (if hr then f z else z) z) by (intros f z Hi; destruct hr; [apply Hi|done]).
  rewrite (Hf (forZ _ _ _)) by (apply forZ_invisible; intros i; by apply forZ_invisible).
  unfold mark, source_pixel. replace (cell _ s0) with (cell (Z.land (src_y + row) (VRAM_HEIGHT - 1) * VRAM_WIDTH + Z.land (src_x + col) (VRAM_WIDTH - 1)) st); [done|].
  symmetry. rewrite land_x, land_y. apply Hout; [apply Z.mod_pos_bound; done..|]. by apply Ha.
Qed.

End Blocks.

(** ** Reading back *)

(** The pixels of a rectangle in row order. *)
Definition grid (w h : Z) (g : Z -> Z -> Z) : list Z := flat_map (fun row => map (g row) (seqZ 0 w)) (seqZ 0 h).

Lemma grid_loop w h (g : Z -> Z -> Z) :
  0 <= w -> 0 <= h -> forZ 0 h (fun row d => forZ 0 w (fun col d => d ++ [g row col]) d) [] = grid w h g.
Proof.
  intros Hw Hh. unfold grid.
  apply (forZ_ind (fun k d => d = flat_map (fun row => map (g row) (seqZ 0 w)) (seqZ 0 k))); [done..|].
  intros row d Hrow ->. rewrite seqZ_snoc, flat_map_app by lia. cbn. rewrite app_nil_r.
  apply (forZ_ind (fun k d => d = flat_map (fun row => map (g row) (seqZ 0 w)) (seqZ 0 row) ++ map (g row) (seqZ 0 k))); [done| |].
  - by rewrite app_nil_r.
  - intros col d Hcol ->. rewrite seqZ_snoc, map_app by lia. cbn. by rewrite app_assoc.
Qed.

Lemma grid_ext w h g g' : (forall row col, 0 <= row < h -> 0 <= col < w -> g row col = g' row col) -> grid w h g = grid w h g'.
Proof.
  intros Hg. unfold grid. rewrite !flat_map_concat_map. f_equal. apply map_ext_in. intros row Hr%list_elem_of_In%elem_of_seqZ.
  apply map_ext_in. intros col Hc%list_elem_of_In%elem_of_seqZ. apply Hg; lia.
Qed.

Lemma list_grid data w h :
  0 <= w -> 0 <= h -> Z.of_nat (length data) = w * h -> grid w h (fun row col => aget data (row * w + col)) = data.
Proof.
  intros Hw Hh Hl. unfold grid.
  assert (G : forall k, 0 <= k -> flat_map (fun row => map (fun col => aget data (row * w + col)) (seqZ 0 w)) (seqZ 0 k) =
    map (aget data) (seqZ 0 (k * w))).
  { apply natlike_ind; [done|]. intros k Hk IH. unfold Z.succ. rewrite seqZ_snoc, flat_map_app, IH by lia. cbn. rewrite app_nil_r.
    replace ((k + 1) * w) with (k * w + w) by ring. rewrite seqZ_app, map_app by nia. f_equal.
    replace (seqZ (0 + k * w) w) with (Z.add (k * w) <$> seqZ 0 w) by (rewrite fmap_add_seqZ; f_equal; lia). by rewrite map_map. }
  rewrite G by done. replace (h * w) with (Z.of_nat (length data)) by lia. clear. 
  induction data as [|b data IH] using rev_ind; [done|]. rewrite length_app, Nat2Z.inj_add. cbn. rewrite seqZ_snoc, map_app by lia. cbn.
  f_equal; [|f_equal].
  - transitivity (map (aget data) (seqZ 0 (Z.of_nat (length data)))); [|done]. apply map_ext_in. intros i Hi%list_elem_of_In%elem_of_seqZ. unfold aget. apply app_nth1. lia.
  - unfold aget. rewrite app_nth2 by lia. by replace (Z.to_nat _ - length data)%nat with 0%nat by lia.
Qed.

(** A bulk transfer to video memory followed by a transfer of the same
    rectangle back gives the same pixels, wherever the rectangle wraps around the
    edges of the memory and whatever the scale of the mirror. *)
Theorem transfer_roundtrip `{Heap} x y w h data st :
  0 <= w <= VRAM_WIDTH -> 0 <= h <= VRAM_HEIGHT -> Z.of_nat (length data) = w * h ->
  sw_vram_transfer_out x y w h (sw_vram_transfer_in x y w h data st) = data.
Proof.
  intros Hw Hh Hl. unfold sw_vram_transfer_out. rewrite grid_loop by lia. transitivity (grid w h (fun row col => aget data (row * w + col))); [|apply list_grid; lia].
  apply grid_ext. intros row col Hr Hc. rewrite land_x, land_y.
  change (cell _ ?u) with (pixel ((x + col) mod VRAM_WIDTH) ((y + row) mod VRAM_HEIGHT) u).
  assert (Er : row_of y ((y + row) mod VRAM_HEIGHT) = row) by (unfold row_of, VRAM_HEIGHT in *; dlia).
  assert (Ec : col_of x ((x + col) mod VRAM_WIDTH) = col) by (unfold col_of, VRAM_WIDTH in *; dlia).
  rewrite transfer_in_pixels by (done || (apply Z.mod_pos_bound; done)). unfold in_rect. rewrite Er, Ec.
  destruct (Z.ltb_spec row h), (Z.ltb_spec col w); try lia. done.
Qed.

End SwLines.
