(* ===== verification/Gpu.v ===== *)
(** * Graphics processor

    src/runtime/src/gpu.c: the GP0 command processor with its state machine, the
    two pixel transfers, the drawing commands, the display registers behind GP1,
    GPUSTAT and GPUREAD, the widescreen correction of drawing commands, and the
    snapshot of the registers.

    Drawing goes through the facade of gpu_render.c, the class [Renderer], whose
    software instance is in GpuSoftware.v.  [psx_fatal_halt] does not return: an
    operation that can reach it is [option]-valued, [None] being the halt.  Left
    out are the captures that nothing but the debug server reads (upload and
    read-back histories, shaded-quad capture, command ring, draw census, the debug
    override g_dbg_mode of the backdrop gate), and the one-game background reveal,
    whose two hooks are members of [Host].  A register
    has the width its writers give it; int arithmetic on coordinates is unbounded,
    every operand being within 13 bits. *)

From S2P Require Import Prelude.

Module Gpu.

(** ** Constants *)

Definition GPUSTAT_POLL_VBLANK_THRESHOLD := 1000.
Definition WS_TAG_BUCKETS := 4096.
Definition WS_TAG_PROBES := 8.
Definition WS_FMV_HYSTERESIS := 30.
Definition WS_FB_BASES := 4.
Definition NO_SOURCE := 0xFFFFFFFF.

(** ** The renderer behind the facade and the rest of the machine *)

Class Renderer (W : Type) := {
  vram_array : W -> Z -> Z;               (* the static array, read by the display path *)
  vram_clear : W -> W;
  gr_init : W -> W;
  gr_set_semi_transparency : Z -> Z -> W -> W;
  gr_set_mask_bits : Z -> Z -> W -> W;
  gr_set_texture_window : Z -> W -> W;
  gr_set_color_modulation : Z -> Z -> Z -> Z -> W -> W;
  gr_set_draw_area : Z -> Z -> Z -> Z -> W -> W;
  gr_set_draw_offset : Z -> Z -> W -> W;
  gr_fill_rect : Z -> Z -> Z -> Z -> Z -> W -> W;
  gr_copy_rect : Z -> Z -> Z -> Z -> Z -> Z -> W -> W;
  gr_draw_flat_triangle : Z * Z -> Z * Z -> Z * Z -> Z -> W -> W;
  gr_draw_gouraud_triangle : Z * Z -> Z -> Z * Z -> Z -> Z * Z -> Z -> W -> W;
  gr_draw_textured_triangle : Z * Z -> Z * Z -> Z * Z -> Z * Z -> Z * Z -> Z * Z -> Z -> Z -> Z -> W -> W;
  gr_draw_shaded_textured_triangle :
    Z * Z -> Z * Z -> Z -> Z * Z -> Z * Z -> Z -> Z * Z -> Z * Z -> Z -> Z -> Z -> Z -> Z -> W -> W;
  gr_draw_flat_rect : Z -> Z -> Z -> Z -> Z -> W -> W;
  gr_draw_textured_rect : Z -> Z -> Z -> Z -> Z -> Z -> Z -> Z -> Z -> W -> W;
  gr_draw_textured_rect_scaled : Z -> Z -> Z -> Z -> Z -> Z -> Z -> Z -> Z -> Z -> Z -> W -> W;
  gr_draw_line : Z -> Z -> Z -> Z -> Z -> W -> W;
  gr_draw_shaded_line : Z -> Z -> Z -> Z -> Z -> Z -> W -> W;
  gr_vram_write : Z -> Z -> Z -> W -> W;
  gr_vram_read : Z -> Z -> W -> Z;
  gr_wide_configure : Z -> Z -> W -> W;
  gr_wide_set_target : Z -> W -> W;
  gr_wide_disable_target : W -> W;
  gr_wide_clear : Z -> Z -> Z -> Z -> W -> W;
  gr_prim_in_backdrop : bool -> W -> W     (* psx_ws_prim_in_backdrop's answer for the command begun *)
}.

(** What gpu.c calls in other files: the interrupt controller, the event ring, the
    presentation callback, the text patches, the clocks of the widescreen
    detector, and the one-game reveal. *)
Class Host (W : Type) := {
  s_frame_count : W -> Z;
  mdec_recently_active : Z -> W -> bool;
  gte_projection_recent : Z -> W -> bool;
  ws_force_2d : bool;                      (* PSX_WS_FORCE_2D=1 *)
  psx_irq_raise : Z -> Z -> W -> W;
  event_ring_record_vblank : W -> W;
  vblank_callback : option (W -> W);
  text_xlate_vram_upload : Z -> Z -> Z -> Z -> W -> W;
  gpu_ws_mmx6_reveal_is_active : W -> bool;
  gpu_ws_mmx6_bg_record : Z -> Z -> Z -> Z -> Z -> Z -> W -> W;
  gpu_ws_mmx6_emit_reveal : Z -> Z -> W -> W
}.

(** ** State *)

Inductive Gp0State := GP0_IDLE | GP0_COLLECTING | GP0_VRAM_WRITE | GP0_POLYLINE_MONO | GP0_POLYLINE_SHADED.

#[export] Instance Gp0State_eq : EqDecision Gp0State.
Proof. solve_decision. Defined.

(** Draw mode, draw area and offset. *)
#[projections(primitive)] Record Mode := mkMode {
  texpage_x : Z; texpage_y : Z; semi_transparency : Z; texpage_colors : Z; dither_enabled : Z; draw_to_display : Z;
  set_mask_bit : Z; check_mask_bit : Z; texture_disable : Z;
  draw_area_left : Z; draw_area_top : Z; draw_area_right : Z; draw_area_bottom : Z;
  draw_offset_x : Z; draw_offset_y : Z; texture_window_value : Z
}.
#[export] Instance eta_Mode : Eta Mode := fun m =>
  mkMode (texpage_x m) (texpage_y m) (semi_transparency m) (texpage_colors m) (dither_enabled m) (draw_to_display m)
    (set_mask_bit m) (check_mask_bit m) (texture_disable m) (draw_area_left m) (draw_area_top m) (draw_area_right m)
    (draw_area_bottom m) (draw_offset_x m) (draw_offset_y m) (texture_window_value m).

(** Display mode and area, interrupt and DMA flags. *)
#[projections(primitive)] Record Display := mkDisplay {
  interlace_field : Z; reverse_flag : Z; hres2 : Z; hres1 : Z; vres : Z; video_mode : Z; display_depth : Z;
  vertical_interlace : Z; display_disabled : Z; irq1_flag : Z; dma_direction : Z; lcf : Z;
  display_area_x : Z; display_area_y : Z; h_display_x1 : Z; h_display_x2 : Z; v_display_y1 : Z; v_display_y2 : Z
}.
#[export] Instance eta_Display : Eta Display := fun d =>
  mkDisplay (interlace_field d) (reverse_flag d) (hres2 d) (hres1 d) (vres d) (video_mode d) (display_depth d)
    (vertical_interlace d) (display_disabled d) (irq1_flag d) (dma_direction d) (lcf d) (display_area_x d)
    (display_area_y d) (h_display_x1 d) (h_display_x2 d) (v_display_y1 d) (v_display_y2 d).

(** The command being collected. *)
#[projections(primitive)] Record Fifo := mkFifo {
  gp0_state : Gp0State; gp0_cmd_buf : list Z; gp0_words_collected : Z; gp0_words_needed : Z;
  gp0_next_source_addr : Z; gp0_cmd_source_addr : Z
}.
#[export] Instance eta_Fifo : Eta Fifo := fun f =>
  mkFifo (gp0_state f) (gp0_cmd_buf f) (gp0_words_collected f) (gp0_words_needed f) (gp0_next_source_addr f)
    (gp0_cmd_source_addr f).

#[projections(primitive)] Record Polyline := mkPolyline {
  polyline_color : Z; polyline_prev_x : Z; polyline_prev_y : Z; polyline_prev_c : Z; polyline_semi_trans : Z;
  polyline_has_prev : Z
}.
#[export] Instance eta_Polyline : Eta Polyline := fun p =>
  mkPolyline (polyline_color p) (polyline_prev_x p) (polyline_prev_y p) (polyline_prev_c p) (polyline_semi_trans p)
    (polyline_has_prev p).

(** The rectangle of a pixel transfer and the position in it. *)
#[projections(primitive)] Record Transfer := mkTransfer { x_ : Z; y_ : Z; w_ : Z; h_ : Z; col_ : Z; row_ : Z }.
#[export] Instance eta_Transfer : Eta Transfer := fun t => mkTransfer (x_ t) (y_ t) (w_ t) (h_ t) (col_ t) (row_ t).

(** Statistics. *)
#[projections(primitive)] Record Counts := mkCounts {
  gp0_write_count : Z; gp0_nop_count : Z; gp0_fill_count : Z; gp0_draw_count : Z; gp0_env_count : Z; gp0_copy_count : Z;
  gp0_opcode_count : list Z
}.
#[export] Instance eta_Counts : Eta Counts := fun c =>
  mkCounts (gp0_write_count c) (gp0_nop_count c) (gp0_fill_count c) (gp0_draw_count c) (gp0_env_count c)
    (gp0_copy_count c) (gp0_opcode_count c).

Record WsTag := mkTag { key : Z; stamp : Z; anchor_x : Z }.

(** Widescreen correction. *)
#[projections(primitive)] Record Wide := mkWide {
  ws_xnum : Z; ws_xden : Z; ws_anchor_addr : Z; ws_hud_sprt : bool; ws_mode : Z; ws_cfg_num : Z; ws_cfg_den : Z;
  ws_tags : list WsTag; ws_last_tag_stamp : Z; ws_full_2d : bool; ws_margin_override : Z;
  fmv_frame_cache : Z; fmv_cached : bool; ws_fb_base : list Z; s_bg_phase_frame : Z; s_bg_phase_over : bool
}.
#[export] Instance eta_Wide : Eta Wide := fun w =>
  mkWide (ws_xnum w) (ws_xden w) (ws_anchor_addr w) (ws_hud_sprt w) (ws_mode w) (ws_cfg_num w) (ws_cfg_den w) (ws_tags w)
    (ws_last_tag_stamp w) (ws_full_2d w) (ws_margin_override w) (fmv_frame_cache w) (fmv_cached w) (ws_fb_base w)
    (s_bg_phase_frame w) (s_bg_phase_over w).

#[projections(primitive)] Record State (W : Type) := mkState {
  mode : Mode; display : Display; fifo : Fifo; polyline : Polyline;
  vram_write : Transfer; vram_write_remaining : Z; vram_read : Transfer; vram_read_active : bool;
  gpuread_latch : Z; gpustat_poll_count : Z; counts : Counts; wide : Wide; world : W
}.
#[global] Arguments mkState {W}.
#[global] Arguments mode {W}. #[global] Arguments display {W}. #[global] Arguments fifo {W}.
#[global] Arguments polyline {W}. #[global] Arguments vram_write {W}. #[global] Arguments vram_write_remaining {W}.
#[global] Arguments vram_read {W}. #[global] Arguments vram_read_active {W}. #[global] Arguments gpuread_latch {W}.
#[global] Arguments gpustat_poll_count {W}. #[global] Arguments counts {W}. #[global] Arguments wide {W}.
#[global] Arguments world {W}.
#[export] Instance eta_State {W} : Eta (State W) := fun s =>
  mkState (mode s) (display s) (fifo s) (polyline s) (vram_write s) (vram_write_remaining s) (vram_read s)
    (vram_read_active s) (gpuread_latch s) (gpustat_poll_count s) (counts s) (wide s) (world s).

(** The statics as the program starts, in a world [w]. *)
Definition start {W} (w : W) : State W :=
  mkState (mkMode 0 0 0 0 0 0 0 0 0 0 0 0 0 0 0 0) (mkDisplay 0 0 0 0 0 0 0 0 0 0 0 0 0 0 0 0 0 0)
    (mkFifo GP0_IDLE (replicate 16 0) 0 0 NO_SOURCE NO_SOURCE) (mkPolyline 0 0 0 0 0 0)
    (mkTransfer 0 0 0 0 0 0) 0 (mkTransfer 0 0 0 0 0 0) false 0 0 (mkCounts 0 0 0 0 0 0 (replicate 256 0))
    (mkWide 1 1 0 false 0 4 3 (replicate (Z.to_nat WS_TAG_BUCKETS) (mkTag 0 0 0)) (u32 (-1000)) false (-1) 0xFFFFFFFF false []
      0xFFFFFFFF false) w.

Section Processor.
Context {W : Type} `{R : Renderer W} `{H : Host W}.
Abbreviation St := (State W).

Definition on_world (f : W -> W) (s : St) : St := s <| world := f (world s) |>.
Definition frame (s : St) : Z := u32 (s_frame_count (world s)).

(** ** Display *)

Record GpuDisplayInfo := mkInfo {
  display_x : Z; display_y : Z; width : Z; height : Z; depth24 : bool; disabled : bool
}.

Definition hres_lut : list Z := [256; 320; 512; 640].

Definition gpu_get_display_info (s : St) : GpuDisplayInfo :=
  let d := display s in
  let w := if negb (hres2 d =? 0) then 368 else aget hres_lut (Z.land (hres1 d) 3) in
  let h := if v_display_y1 d <? v_display_y2 d then v_display_y2 d - v_display_y1 d else 240 in
  let h := if negb (vres d =? 0) then h * 2 else h in
  let w := if 640 <? w then 640 else w in
  let h := if 512 <? h then 512 else h in
  mkInfo (display_area_x d) (display_area_y d) w h (negb (Z.land (display_depth d) 1 =? 0)) (negb (display_disabled d =? 0)).

(** ** Widescreen *)

Definition ws_configured (s : St) : bool := negb (ws_xnum (wide s) =? ws_xden (wide s)).
Definition ws_engaged (s : St) : bool := negb (ws_mode (wide s) =? 0).

Definition gpu_ws_set_full_2d (on : bool) (s : St) : St := s <| wide := (wide s) <| ws_full_2d := on |> |>.
Definition ws_full_2d_mode (s : St) : bool := ws_full_2d (wide s) || ws_force_2d.

Definition ws_game_mode (s : St) : bool :=
  if ws_full_2d_mode s then true
  else if u32 (frame s - ws_last_tag_stamp (wide s)) <=? 2 then true
  else gte_projection_recent 2 (world s).

(** The video test is cached for a frame. *)
Definition gpu_ws_present_native_43 (s : St) : bool * St :=
  if negb (ws_engaged s) then (false, s)
  else if negb (ws_game_mode s) then (true, s)
  else
    let f := frame s in
    let s :=
      if negb (f =? fmv_frame_cache (wide s)) then
        let di := gpu_get_display_info s in
        s <| wide := (wide s) <| fmv_frame_cache := f |>
               <| fmv_cached := depth24 di || mdec_recently_active WS_FMV_HYSTERESIS (world s) |> |>
      else s in
    (fmv_cached (wide s), s).

Definition ws_active (s : St) : bool * St :=
  if ws_configured s then let '(native, s) := gpu_ws_present_native_43 s in (negb native, s) else (false, s).

Definition ws_native_wide_active (s : St) : bool * St :=
  if ws_mode (wide s) =? 2 then let '(native, s) := gpu_ws_present_native_43 s in (negb native, s) else (false, s).

Definition ws_disp_w (s : St) : Z :=
  let w := width (gpu_get_display_info s) in if negb (w =? 0) then w else 320.

Definition ws_nw_offset (s : St) : Z * St :=
  let '(on, s) := ws_native_wide_active s in
  if negb on then (0, s)
  else
    let numr := 3 * ws_cfg_num (wide s) - 4 * ws_cfg_den (wide s) in
    if numr <=? 0 then (0, s)
    else (Z.quot (ws_disp_w s * numr + 4 * ws_cfg_den (wide s)) (8 * ws_cfg_den (wide s)), s).

Definition ws_nw_extra (s : St) : Z * St := let '(v, s) := ws_nw_offset s in (2 * v, s).

Definition gpu_ws_set_margin_override (v : Z) (s : St) : St := s <| wide := (wide s) <| ws_margin_override := v |> |>.

Definition psx_ws_x_margin (s : St) : Z * St :=
  if 0 <=? ws_margin_override (wide s) then (ws_margin_override (wide s), s)
  else
    let '(nw, s) := ws_native_wide_active s in
    if nw then ws_nw_offset s
    else
      let '(on, s) := ws_active s in
      if negb on then (0, s)
      else
        let num := ws_xnum (wide s) in
        (Z.quot (160 * (ws_xden (wide s) - num) + Z.quot num 2) num, s).

(** Euclid's loop. *)
Definition gcd_loop (n d : Z) : Z := (nwhile 64 (fun p => negb (snd p =? 0)) (fun p => (snd p, Z.rem (fst p) (snd p))) (n, d)).1.

Definition gpu_ws_configure (aspect_num aspect_den sprite_anchor_addr : Z) (hud_sprt_squash : bool) (md : Z) (s : St) : St :=
  let num := if 0 <? aspect_num then aspect_num else 4 in
  let den := if 0 <? aspect_den then aspect_den else 3 in
  let '(xnum, xden) :=
    if md =? 1 then
      let n := 4 * den in let d := 3 * num in let a := gcd_loop n d in (Z.quot n a, Z.quot d a)
    else (1, 1) in
  s <| wide := (wide s) <| ws_cfg_num := num |> <| ws_cfg_den := den |> <| ws_mode := md |> <| ws_xnum := xnum |>
         <| ws_xden := xden |> <| ws_anchor_addr := sprite_anchor_addr |> <| ws_hud_sprt := hud_sprt_squash |> |>.

Definition tag_at (i : Z) (s : St) : WsTag := nth (Z.to_nat i) (ws_tags (wide s)) (mkTag 0 0 0).

(** The bucket a tag goes to: the first of eight that is free or holds the same
    primitive, else the last stale one, else the home bucket. *)
Fixpoint tag_victim (probes : list Z) (k now idx victim : Z) (s : St) : Z :=
  match probes with
  | [] => victim
  | i :: rest =>
      let j := Z.land (idx + i) (WS_TAG_BUCKETS - 1) in
      let t := tag_at j s in
      if (key t =? k) || (key t =? 0) then j
      else tag_victim rest k now idx (if 2 <? u32 (now - stamp t) then j else victim) s
  end.

(** [gpr4] is the CPU's $a0, [sxy] the word the tag's anchor address holds. *)
Definition psx_ws_sprite_tag (gpr4 : Z) (read_word : Z -> Z) (s : St) : St :=
  if negb (ws_engaged s) || (ws_anchor_addr (wide s) =? 0) then s
  else
    let k := Z.land gpr4 0x1FFFFC in
    if k =? 0 then s
    else
      let sxy := read_word (ws_anchor_addr (wide s)) in
      let ax := s16 (Z.land sxy 0xFFFF) in
      let now := frame s in
      let idx := Z.land (Z.shiftr k 2) (WS_TAG_BUCKETS - 1) in
      let victim := tag_victim (seqZ 0 WS_TAG_PROBES) k now idx idx s in
      s <| wide := (wide s) <| ws_tags := <[Z.to_nat victim := mkTag k now ax]> (ws_tags (wide s)) |>
                            <| ws_last_tag_stamp := now |> |>.

(** The fresh tag of the primitive being executed: its address less the header
    word, then its address itself. *)
Definition tag_lookup (s : St) : option Z :=
  let now := frame s in
  let probe (variant : Z) :=
    let k := Z.land (u32 (gp0_cmd_source_addr (fifo s) - variant)) 0x1FFFFC in
    let idx := Z.land (Z.shiftr k 2) (WS_TAG_BUCKETS - 1) in
    list_find (fun t => (key t = k) /\ u32 (now - stamp t) <= 2)
      (map (fun i => tag_at (Z.land (idx + i) (WS_TAG_BUCKETS - 1)) s) (seqZ 0 WS_TAG_PROBES)) in
  match probe 4 with
  | Some (_, t) => Some (anchor_x t)
  | None => match probe 0 with Some (_, t) => Some (anchor_x t) | None => None end
  end.

Definition ws_tagged_anchor (s : St) : option Z * St :=
  let '(on, s) := ws_active s in
  if negb on || (gp0_cmd_source_addr (fifo s) =? NO_SOURCE) then (None, s) else (tag_lookup s, s).

Definition psx_ws_prim_is_tagged (s : St) : bool :=
  if negb (ws_engaged s) || (gp0_cmd_source_addr (fifo s) =? NO_SOURCE) then false
  else match tag_lookup s with Some _ => true | None => false end.

(** The background phase: from the start of a frame to its first shaded primitive,
    which marks the 3D world. *)
Definition bg_phase_sync (s : St) : St :=
  if negb (frame s =? s_bg_phase_frame (wide s))
  then s <| wide := (wide s) <| s_bg_phase_frame := frame s |> <| s_bg_phase_over := false |> |> else s.

Definition ws_bg_phase_note (op : Z) (s : St) : St :=
  let s := bg_phase_sync s in
  if (0x30 <=? op) && (op <=? 0x3F) then s <| wide := (wide s) <| s_bg_phase_over := true |> |> else s.

Definition ws_bg_phase_over (s : St) : bool * St := let s := bg_phase_sync s in (s_bg_phase_over (wide s), s).

(** Whether the wide surfaces stretch the primitive: a tagged one in the background
    phase. *)
Definition psx_ws_prim_in_backdrop (s : St) : bool * St :=
  let '(over, s) := ws_bg_phase_over s in if over : bool then (false, s) else (psx_ws_prim_is_tagged s, s).

Definition ws_scale_about (x ax : Z) (s : St) : Z :=
  let d := x - ax in
  let num := ws_xnum (wide s) in let den := ws_xden (wide s) in
  ax + Z.quot (d * num + (if 0 <=? d then Z.quot den 2 else Z.quot (- den) 2)) den.

Definition ws_scale_len (w : Z) (s : St) : Z :=
  let v := Z.quot (w * ws_xnum (wide s) + Z.quot (ws_xden (wide s)) 2) (ws_xden (wide s)) in
  if v <? 1 then 1 else v.

Definition ws_hud_pivot (x w : Z) (s : St) : Z :=
  let W' := ws_disp_w s in
  let cx := 2 * x + w in
  if 3 * cx <? 2 * W' then 0 else if 4 * W' <? 3 * cx then W' else Z.quot W' 2.

(** The new x coordinate, and the squashed width or 0. *)
Definition ws_sprt_fixed_transform (x0 w : Z) (s : St) : Z * Z * St :=
  let '(on, s) := ws_active s in
  if negb on then (x0, 0, s)
  else
    let '(tag, s) := ws_tagged_anchor s in
    match tag with
    | Some ax => (ws_scale_about x0 ax s, ws_scale_len w s, s)
    | None => if ws_hud_sprt (wide s) then (ws_scale_about x0 (ws_hud_pivot x0 w s) s, ws_scale_len w s, s) else (x0, 0, s)
    end.

Definition psx_ws_backdrop_x (x : Z) (s : St) : Z * St :=
  let '(on, s) := ws_active s in
  if negb on then (s16 x, s) else (ws_scale_about (s16 x) (Z.quot (ws_disp_w s) 2) s, s).

(** The last four display buffers. *)
Definition ws_note_display_base (bx : Z) (s : St) : St :=
  let l := ws_fb_base (wide s) in
  if bool_decide (bx ∈ l) then s
  else
    let l := if Z.of_nat (length l) <? WS_FB_BASES then l ++ [bx] else tail l ++ [bx] in
    s <| wide := (wide s) <| ws_fb_base := l |> |>.
Definition ws_is_fb_base (bx : Z) (s : St) : bool := bool_decide (bx ∈ ws_fb_base (wide s)).

Definition ws_nw_sync_target (s : St) : St :=
  let '(on, s) := ws_native_wide_active s in
  if negb on then on_world gr_wide_disable_target s
  else
    let '(extra, s) := ws_nw_extra s in
    let '(off, s) := ws_nw_offset s in
    let s := on_world (gr_wide_configure (ws_disp_w s + extra) off) s in
    let base := draw_area_left (mode s) in
    if ws_is_fb_base base s then on_world (gr_wide_set_target base) s else on_world gr_wide_disable_target s.

Definition psx_ws_cull_sltiu (sx imm : Z) (s : St) : Z * St :=
  let '(m, s) := psx_ws_x_margin s in
  (if u32 (s16 (u16 sx) + m) <? u32 (s32 imm + 2 * m) then 1 else 0, s).

(** The screen-extent tests a run of instruction words contains: a comparison with
    the width and one with the height. *)
Fixpoint screen_cull (words : list Z) (has_x has_y : bool) : bool :=
  match words with
  | [] => false
  | w :: rest =>
      if negb (Z.land w 0xFC000000 =? 0x2C000000) then screen_cull rest has_x has_y
      else
        let imm := Z.land w 0xFFFF in
        let x := has_x || (imm =? 0x140) || (imm =? 0x141) in
        let y := has_y || (negb ((imm =? 0x140) || (imm =? 0x141)) && ((imm =? 0xE0) || (imm =? 0xF1))) in
        if x && y then true else screen_cull rest x y
  end.
Definition psx_ws_func_has_screen_cull (words : list Z) : bool := screen_cull words false false.

(** ** Initialisation *)

Definition gpu_reset_state (clear_vram : bool) (s : St) : St :=
  let s := if clear_vram then on_world vram_clear s else s in
  let s := on_world gr_init s in
  s <| fifo := (fifo s) <| gp0_state := GP0_IDLE |> <| gp0_words_collected := 0 |> <| gp0_words_needed := 0 |> |>
    <| vram_write_remaining := 0 |> <| vram_read_active := false |>
    <| mode := mkMode 0 0 0 0 0 0 0 0 0 0 0 0 0 0 0 0 |>
    <| display := mkDisplay 0 0 0 0 0 0 0 0 1 0 0 0 0 0 0x200 0xC00 0x010 0x100 |>
    <| gpuread_latch := 0 |> <| gpustat_poll_count := 0 |>.

Definition gpu_init (s : St) : St := gpu_reset_state true s.

(** ** GPUSTAT *)

Definition gpu_read_gpustat (s : St) : Z * St :=
  let s := s <| gpustat_poll_count := u32 (gpustat_poll_count s + 1) |> in
  let s :=
    if GPUSTAT_POLL_VBLANK_THRESHOLD <=? gpustat_poll_count s then
      let s := s <| gpustat_poll_count := 0 |> <| display := (display s) <| lcf := Z.lxor (lcf (display s)) 1 |> |> in
      on_world event_ring_record_vblank (on_world (psx_irq_raise 0 0) s)
    else s in
  let m := mode s in let d := display s in
  let field v mask sh stat := Z.lor stat (Z.shiftl (Z.land v mask) sh) in
  let stat := 0 in
  let stat := field (texpage_x m) 0xF 0 stat in
  let stat := field (texpage_y m) 1 4 stat in
  let stat := field (semi_transparency m) 3 5 stat in
  let stat := field (texpage_colors m) 3 7 stat in
  let stat := field (dither_enabled m) 1 9 stat in
  let stat := field (draw_to_display m) 1 10 stat in
  let stat := field (set_mask_bit m) 1 11 stat in
  let stat := field (check_mask_bit m) 1 12 stat in
  let stat := field (interlace_field d) 1 13 stat in
  let stat := field (reverse_flag d) 1 14 stat in
  let stat := field (texture_disable m) 1 15 stat in
  let stat := field (hres2 d) 1 16 stat in
  let stat := field (hres1 d) 3 17 stat in
  let stat := field (vres d) 1 19 stat in
  let stat := field (video_mode d) 1 20 stat in
  let stat := field (display_depth d) 1 21 stat in
  let stat := field (vertical_interlace d) 1 22 stat in
  let stat := field (display_disabled d) 1 23 stat in
  let stat := field (irq1_flag d) 1 24 stat in
  let stat := if (dma_direction d =? 1) || (dma_direction d =? 2) || (dma_direction d =? 3)
              then Z.lor stat (Z.shiftl 1 25) else stat in
  let stat := Z.lor stat (Z.shiftl 1 26) in
  let stat := if vram_read_active s then Z.lor stat (Z.shiftl 1 27) else stat in
  let stat := Z.lor stat (Z.shiftl 1 28) in
  let stat := field (dma_direction d) 3 29 stat in
  let stat := field (lcf d) 1 31 stat in
  (stat, s).

(** ** GPUREAD *)

(** One pixel of the transfer into bits [i * 16] of the word; [true] when it was
    the last. *)
Definition gpuread_pixel (i value : Z) (s : St) : Z * bool * St :=
  let t := vram_read s in
  let rx := Z.rem (x_ t + col_ t) 1024 in
  let ry := Z.rem (y_ t + row_ t) 512 in
  let value := Z.lor value (Z.shiftl (gr_vram_read rx ry (world s)) (i * 16)) in
  let s := s <| vram_read := (vram_read s) <| col_ := u16 (col_ t + 1) |> |> in
  if col_ (vram_read s) =? w_ (vram_read s) then
    let s := s <| vram_read := (vram_read s) <| col_ := 0 |> <| row_ := u16 (row_ t + 1) |> |> in
    if row_ (vram_read s) =? h_ (vram_read s) then (value, true, s <| vram_read_active := false |>) else (value, false, s)
  else (value, false, s).

Definition gpu_read_gpuread (s : St) : Z * St :=
  if negb (vram_read_active s) then (gpuread_latch s, s)
  else
    let '(value, last, s) := gpuread_pixel 0 0 s in
    let '(value, _, s) := if last : bool then (value, last, s) else gpuread_pixel 1 value s in
    (value, s <| gpuread_latch := value |>).

(** ** Vertical blank and the displayed picture *)

Definition rgb888_to_rgb555 (color24 : Z) : Z :=
  let r := Z.land (Z.shiftr color24 0) 0xFF in
  let g := Z.land (Z.shiftr color24 8) 0xFF in
  let b := Z.land (Z.shiftr color24 16) 0xFF in
  u16 (Z.lor (Z.lor (Z.shiftr r 3) (Z.shiftl (Z.shiftr g 3) 5)) (Z.shiftl (Z.shiftr b 3) 10)).

Definition gpu_vblank_tick (s : St) : St :=
  let s := s <| display := (display s) <| lcf := Z.lxor (lcf (display s)) 1 |> |> <| gpustat_poll_count := 0 |> in
  let s := on_world (psx_irq_raise 0 0) s in
  match vblank_callback with Some cb => on_world cb s | None => s end.

Definition gpu_vram_byte (byte_x y : Z) (s : St) : Z :=
  let hw := vram_array (world s) (Z.land y 511 * 1024 + Z.land (Z.shiftr byte_x 1) 1023) in
  if has byte_x 1 then u8 (Z.shiftr hw 8) else u8 hw.

(** The raw conversion, which the default screen model uses; [lut] is the colour
    table of another model. *)
Definition gpu_rgb555_to_rgb888 (lut : option (Z -> Z * Z * Z)) (c : Z) : Z * Z * Z :=
  match lut with
  | Some f => f c
  | None => (u8 (Z.shiftl (Z.land c 0x1F) 3), u8 (Z.shiftl (Z.land (Z.shiftr c 5) 0x1F) 3), u8 (Z.shiftl (Z.land (Z.shiftr c 10) 0x1F) 3))
  end.

Definition gpu_display_pixel_rgb (lut : option (Z -> Z * Z * Z)) (di : GpuDisplayInfo) (x y : Z) (s : St) : Z * Z * Z :=
  if depth24 di then
    let byte_x := Z.land (display_x di) 1023 * 2 + x * 3 in
    let vy := Z.land (display_y di + y) 511 in
    (gpu_vram_byte (u32 byte_x) vy s, gpu_vram_byte (u32 (byte_x + 1)) vy s, gpu_vram_byte (u32 (byte_x + 2)) vy s)
  else
    let vx := Z.land (display_x di + x) 1023 in
    let vy := Z.land (display_y di + y) 511 in
    gpu_rgb555_to_rgb888 lut (vram_array (world s) (vy * 1024 + vx)).

Definition gpu_display_pixel_argb (lut : option (Z -> Z * Z * Z)) (di : GpuDisplayInfo) (x y : Z) (s : St) : Z :=
  let '(r, g, b) := gpu_display_pixel_rgb lut di x y s in
  Z.lor (Z.lor (Z.lor 0xFF000000 (Z.shiftl r 16)) (Z.shiftl g 8)) b.

Definition gpu_vram_peek (x y : Z) (s : St) : Z :=
  if (x <? 0) || (1024 <=? x) || (y <? 0) || (512 <=? y) then 0 else gr_vram_read x y (world s).

(** ** Drawing commands *)

Definition cmd (i : Z) (s : St) : Z := aget (gp0_cmd_buf (fifo s)) i.

Definition sign_extend (val bits : Z) : Z :=
  let sign_bit := Z.shiftl 1 (bits - 1) in s32 (Z.lxor val sign_bit - sign_bit).

Definition parse_vertex (word : Z) : Z * Z :=
  (sign_extend (Z.land word 0x7FF) 11, sign_extend (Z.land (Z.shiftr word 16) 0x7FF) 11).

(** Add the draw offset. *)
Definition placed (v : Z * Z) (s : St) : Z * Z := (fst v + draw_offset_x (mode s), snd v + draw_offset_y (mode s)).
Definition vertex (i : Z) (s : St) : Z * Z := placed (parse_vertex (cmd i s)) s.

Definition semi_trans (s : St) : Z := Z.land (Z.shiftr (cmd 0 s) 25) 1.
Definition raw_texture (s : St) : Z := Z.land (Z.shiftr (cmd 0 s) 24) 1.
Definition color24 (i : Z) (s : St) : Z := Z.land (cmd i s) 0xFFFFFF.
Definition color (i : Z) (s : St) : Z := rgb888_to_rgb555 (color24 i s).

Definition set_semi (s : St) : St := on_world (gr_set_semi_transparency (semi_trans s) (semi_transparency (mode s))) s.

Definition gp0_exec_mono_tri (s : St) : St :=
  on_world (gr_draw_flat_triangle (vertex 1 s) (vertex 2 s) (vertex 3 s) (color 0 s)) (set_semi s).

Definition gp0_exec_mono_quad (s : St) : St :=
  let c := color 0 s in let v i := vertex (1 + i) s in
  let s := set_semi s in
  let s := on_world (gr_draw_flat_triangle (v 0) (v 1) (v 2) c) s in
  on_world (gr_draw_flat_triangle (v 2) (v 1) (v 3) c) s.

Definition gp0_exec_shaded_tri (s : St) : St :=
  let c i := color (i * 2) s in let v i := vertex (1 + i * 2) s in
  let s := set_semi s in
  on_world (gr_draw_gouraud_triangle (v 0) (c 0) (v 1) (c 1) (v 2) (c 2)) s.

Definition gp0_exec_shaded_quad (s : St) : St :=
  let c i := color (i * 2) s in let v i := vertex (1 + i * 2) s in
  let s := set_semi s in
  let s := on_world (gr_draw_gouraud_triangle (v 0) (c 0) (v 1) (c 1) (v 2) (c 2)) s in
  on_world (gr_draw_gouraud_triangle (v 2) (c 2) (v 1) (c 1) (v 3) (c 3)) s.

Definition current_texpage (s : St) : Z :=
  let m := mode s in
  u16 (Z.lor (Z.lor (Z.lor (texpage_x m) (Z.shiftl (texpage_y m) 4)) (Z.shiftl (semi_transparency m) 5)) (Z.shiftl (texpage_colors m) 7)).

Definition set_tpage_from_poly (tpage_word : Z) (s : St) : St :=
  s <| mode := (mode s) <| texpage_x := Z.land tpage_word 0xF |> <| texpage_y := Z.land (Z.shiftr tpage_word 4) 1 |>
    <| semi_transparency := Z.land (Z.shiftr tpage_word 5) 3 |> <| texpage_colors := Z.land (Z.shiftr tpage_word 7) 3 |> |>.

Definition setup_textured_draw (color24 semi_trans raw_texture : Z) (s : St) : St :=
  let r := Z.land (Z.shiftr color24 0) 0xFF in
  let g := Z.land (Z.shiftr color24 8) 0xFF in
  let b := Z.land (Z.shiftr color24 16) 0xFF in
  let s := on_world (gr_set_color_modulation r g b raw_texture) s in
  on_world (gr_set_semi_transparency semi_trans (semi_transparency (mode s))) s.

(** Texture coordinates, palette and texture page words. *)
Definition texcoord (i : Z) (s : St) : Z * Z := (Z.land (cmd i s) 0xFF, Z.land (Z.shiftr (cmd i s) 8) 0xFF).
Definition clut_of (s : St) : Z := u16 (Z.shiftr (cmd 2 s) 16).
Definition clut_x (clut : Z) : Z := Z.land clut 0x3F * 16.
Definition clut_y (clut : Z) : Z := Z.land (Z.shiftr clut 6) 0x1FF.

Definition gp0_exec_textured_tri (s : St) : St :=
  let c := color24 0 s in let semi := semi_trans s in let raw := raw_texture s in
  let v i := vertex (1 + i * 2) s in let uv i := texcoord (2 + i * 2) s in
  let clut := clut_of s in
  let tpage_word := u16 (Z.shiftr (cmd 4 s) 16) in
  let tpage := Z.land tpage_word 0x1FF in
  let s := set_tpage_from_poly tpage_word s in
  let s := setup_textured_draw c semi raw s in
  on_world (gr_draw_textured_triangle (v 0) (uv 0) (v 1) (uv 1) (v 2) (uv 2) (clut_x clut) (clut_y clut) tpage) s.

(** An axis-aligned quad is drawn as a rectangle, scaled when the texture is. *)
Definition textured_quad_rect (vx vy u v : Z -> Z) : option (Z * Z * Z * Z * Z * Z * Z * Z) :=
  if (vy 0 =? vy 1) && (vy 2 =? vy 3) && (vx 0 =? vx 2) && (vx 1 =? vx 3) &&
     (u 0 =? u 2) && (u 1 =? u 3) && (v 0 =? v 1) && (v 2 =? v 3) then
    let x := if vx 0 <? vx 1 then vx 0 else vx 1 in
    let y := if vy 0 <? vy 2 then vy 0 else vy 2 in
    let w := if vx 0 <? vx 1 then vx 1 - vx 0 else vx 0 - vx 1 in
    let h := if vy 0 <? vy 2 then vy 2 - vy 0 else vy 0 - vy 2 in
    let left_u := if vx 0 <? vx 1 then u 0 else u 1 in
    let right_u := if vx 0 <? vx 1 then u 1 else u 0 in
    let top_v := if vy 0 <? vy 2 then v 0 else v 2 in
    let bot_v := if vy 0 <? vy 2 then v 2 else v 0 in
    if (0 <? w) && (0 <? h) then Some (x, y, w, h, left_u, top_v, right_u, bot_v) else None
  else None.

Definition gp0_exec_textured_quad (s : St) : St :=
  let c := color24 0 s in let semi := semi_trans s in let raw := raw_texture s in
  let p i := parse_vertex (cmd (1 + i * 2) s) in let uv i := texcoord (2 + i * 2) s in
  let clut := clut_of s in
  let tpage_word := u16 (Z.shiftr (cmd 4 s) 16) in
  let tpage := Z.land tpage_word 0x1FF in
  let s := set_tpage_from_poly tpage_word s in
  let '(tag, s) := ws_tagged_anchor s in
  let p i := match tag with Some ax => (ws_scale_about (fst (p i)) ax s, snd (p i)) | None => p i end in
  let v i := placed (p i) s in
  let s := setup_textured_draw c semi raw s in
  match textured_quad_rect (fun i => fst (v i)) (fun i => snd (v i)) (fun i => fst (uv i)) (fun i => snd (uv i)) with
  | Some (x, y, w, h, left_u, top_v, right_u, bot_v) =>
      if (right_u - left_u =? w) && (bot_v - top_v =? h)
      then on_world (gr_draw_textured_rect x y w h left_u top_v (clut_x clut) (clut_y clut) tpage) s
      else on_world (gr_draw_textured_rect_scaled x y w h left_u top_v right_u bot_v (clut_x clut) (clut_y clut) tpage) s
  | None =>
      let s := on_world (gr_draw_textured_triangle (v 0) (uv 0) (v 1) (uv 1) (v 2) (uv 2) (clut_x clut) (clut_y clut) tpage) s in
      on_world (gr_draw_textured_triangle (v 2) (uv 2) (v 1) (uv 1) (v 3) (uv 3) (clut_x clut) (clut_y clut) tpage) s
  end.

Definition gp0_exec_shaded_textured_tri (s : St) : St :=
  let raw := raw_texture s in
  let c i := color24 (i * 3) s in let v i := vertex (1 + i * 3) s in let uv i := texcoord (2 + i * 3) s in
  let clut := clut_of s in
  let tpage_word := u16 (Z.shiftr (cmd 5 s) 16) in
  let tpage := Z.land tpage_word 0x1FF in
  let s := set_tpage_from_poly tpage_word s in
  let s := set_semi s in
  on_world (gr_draw_shaded_textured_triangle (v 0) (uv 0) (c 0) (v 1) (uv 1) (c 1) (v 2) (uv 2) (c 2)
    (clut_x clut) (clut_y clut) tpage raw) s.

Definition gp0_exec_shaded_textured_quad (s : St) : St :=
  let raw := raw_texture s in
  let c i := color24 (i * 3) s in let v i := vertex (1 + i * 3) s in let uv i := texcoord (2 + i * 3) s in
  let clut := clut_of s in
  let tpage_word := u16 (Z.shiftr (cmd 5 s) 16) in
  let tpage := Z.land tpage_word 0x1FF in
  let s := set_tpage_from_poly tpage_word s in
  let s := set_semi s in
  let s := on_world (gr_draw_shaded_textured_triangle (v 0) (uv 0) (c 0) (v 1) (uv 1) (c 1) (v 2) (uv 2) (c 2)
    (clut_x clut) (clut_y clut) tpage raw) s in
  on_world (gr_draw_shaded_textured_triangle (v 2) (uv 2) (c 2) (v 1) (uv 1) (c 1) (v 3) (uv 3) (c 3)
    (clut_x clut) (clut_y clut) tpage raw) s.

Definition gp0_exec_mono_line (s : St) : St :=
  let c := color 0 s in let a := vertex 1 s in let b := vertex 2 s in
  on_world (gr_draw_line (fst a) (snd a) (fst b) (snd b) c) (set_semi s).

Definition gp0_exec_shaded_line (s : St) : St :=
  let c0 := color 0 s in let c1 := color 2 s in let a := vertex 1 s in let b := vertex 3 s in
  on_world (gr_draw_shaded_line (fst a) (snd a) c0 (fst b) (snd b) c1) (set_semi s).

Definition gp0_exec_mono_rect (s : St) : St :=
  let c := color 0 s in let p := vertex 1 s in
  let w := Z.land (cmd 2 s) 0xFFFF in
  let h := Z.land (Z.shiftr (cmd 2 s) 16) 0xFFFF in
  let w := if 1023 <? w then 1023 else w in
  let h := if 511 <? h then 511 else h in
  on_world (gr_draw_flat_rect (fst p) (snd p) w h c) (set_semi s).

(** A rectangle of the fixed size [n] without texture. *)
Definition mono_square (n : Z) (s : St) : St :=
  let c := color 0 s in let p := vertex 1 s in
  on_world (gr_draw_flat_rect (fst p) (snd p) n n c) (set_semi s).
Definition gp0_exec_mono_dot (s : St) : St := mono_square 1 s.
Definition gp0_exec_mono_8x8 (s : St) : St := mono_square 8 s.
Definition gp0_exec_mono_16x16 (s : St) : St := mono_square 16 s.

(** A textured rectangle, drawn scaled when the widescreen correction changed its
    width [w] to [ws_w]. *)
Definition draw_sprite (x0 y0 w h ws_w u0 v0 clut : Z) (s : St) : St :=
  let tp := current_texpage s in
  if negb (ws_w =? 0) && negb (ws_w =? w)
  then on_world (gr_draw_textured_rect_scaled x0 y0 ws_w h u0 v0 (u0 + w) (v0 + h) (clut_x clut) (clut_y clut) tp) s
  else on_world (gr_draw_textured_rect x0 y0 w h u0 v0 (clut_x clut) (clut_y clut) tp) s.

Definition gp0_exec_textured_rect (s : St) : St :=
  let c := color24 0 s in let semi := semi_trans s in let raw := raw_texture s in
  let '(x0, y0) := parse_vertex (cmd 1 s) in
  let '(u0, v0) := texcoord 2 s in
  let clut := clut_of s in
  let w := Z.land (cmd 3 s) 0x3FF in
  let h := Z.land (Z.shiftr (cmd 3 s) 16) 0x1FF in
  let w := if 1023 <? w then 1023 else w in
  let h := if 511 <? h then 511 else h in
  let '(on, s) := ws_active s in
  let '(x0, ws_w, s) :=
    if on && (0 <? w) then
      let '(tag, s) := ws_tagged_anchor s in
      match tag with
      | Some ax => (ws_scale_about x0 ax s, ws_scale_len w s, s)
      | None => if ws_hud_sprt (wide s) then (ws_scale_about x0 (ws_hud_pivot x0 w s) s, ws_scale_len w s, s) else (x0, 0, s)
      end
    else (x0, 0, s) in
  let p := placed (x0, y0) s in
  let s := setup_textured_draw c semi raw s in
  draw_sprite (fst p) (snd p) w h ws_w u0 v0 clut s.

(** The fixed-size sprites; [learn] is the reveal's hook of the 16 by 16 one. *)
Definition textured_square (n : Z) (learn : St -> St) (s : St) : St :=
  let c := color24 0 s in let semi := semi_trans s in let raw := raw_texture s in
  let '(x0, y0) := parse_vertex (cmd 1 s) in
  let '(u0, v0) := texcoord 2 s in
  let clut := clut_of s in
  let '(x0, ws_w, s) := ws_sprt_fixed_transform x0 n s in
  let p := placed (x0, y0) s in
  let s := learn s in
  let s := setup_textured_draw c semi raw s in
  draw_sprite (fst p) (snd p) n n ws_w u0 v0 clut s.

Definition gp0_exec_textured_8x8 (s : St) : St := textured_square 8 (fun s => s) s.

Definition gp0_exec_textured_16x16 (s : St) : St :=
  textured_square 16 (fun s =>
    if gpu_ws_mmx6_reveal_is_active (world s) then
      on_world (gpu_ws_mmx6_bg_record (gp0_cmd_source_addr (fifo s)) (clut_of s) (current_texpage s) (color24 0 s)
        (semi_transparency (mode s)) (raw_texture s)) s
    else s) s.

(** The one-pixel sprite keeps its width. *)
Definition gp0_exec_textured_dot (s : St) : St :=
  let c := color24 0 s in let semi := semi_trans s in let raw := raw_texture s in
  let '(x0, y0) := parse_vertex (cmd 1 s) in
  let '(x0, _, s) := ws_sprt_fixed_transform x0 1 s in
  let p := placed (x0, y0) s in
  let '(u0, v0) := texcoord 2 s in
  let clut := clut_of s in
  let s := setup_textured_draw c semi raw s in
  on_world (gr_draw_textured_rect (fst p) (snd p) 1 1 u0 v0 (clut_x clut) (clut_y clut) (current_texpage s)) s.

(** ** Fills, environment and transfers *)

Definition gp0_exec_nop (s : St) : St := s.

Definition gp0_exec_fill_rect (s : St) : St :=
  let color16 := rgb888_to_rgb555 (Z.land (cmd 0 s) 0x00FFFFFF) in
  let dst_x := Z.land (cmd 1 s) 0x3F0 in
  let dst_y := Z.land (Z.shiftr (cmd 1 s) 16) 0x1FF in
  let width := Z.land (Z.land (cmd 2 s) 0x3FF + 0xF) (Z.lnot 0xF) in
  let height := Z.land (Z.shiftr (cmd 2 s) 16) 0x1FF in
  let s := on_world (gr_fill_rect dst_x dst_y width height color16) s in
  let '(nw, s) := ws_native_wide_active s in
  if nw && ws_is_fb_base dst_x s then
    on_world (gpu_ws_mmx6_emit_reveal dst_x dst_y) (on_world (gr_wide_clear dst_x dst_y height color16) s)
  else s.

Definition param (s : St) : Z := Z.land (cmd 0 s) 0x00FFFFFF.

Definition gp0_exec_draw_mode (s : St) : St :=
  let p := param s in
  s <| mode := (mode s) <| texpage_x := Z.land p 0xF |> <| texpage_y := Z.land (Z.shiftr p 4) 1 |>
    <| semi_transparency := Z.land (Z.shiftr p 5) 3 |> <| texpage_colors := Z.land (Z.shiftr p 7) 3 |>
    <| dither_enabled := Z.land (Z.shiftr p 9) 1 |> <| draw_to_display := Z.land (Z.shiftr p 10) 1 |>
    <| texture_disable := Z.land (Z.shiftr p 11) 1 |> |>.

Definition gp0_exec_texture_window (s : St) : St :=
  let v := Z.land (cmd 0 s) 0x000FFFFF in
  on_world (gr_set_texture_window v) (s <| mode := (mode s) <| texture_window_value := v |> |>).

Definition send_draw_area (s : St) : St :=
  let m := mode s in
  on_world (gr_set_draw_area (draw_area_left m) (draw_area_top m) (draw_area_right m) (draw_area_bottom m)) s.

Definition gp0_exec_draw_area_tl (s : St) : St :=
  let p := param s in
  let s := s <| mode := (mode s) <| draw_area_left := Z.land p 0x3FF |> <| draw_area_top := Z.land (Z.shiftr p 10) 0x3FF |> |> in
  ws_nw_sync_target (send_draw_area s).

Definition gp0_exec_draw_area_br (s : St) : St :=
  let p := param s in
  let s := s <| mode := (mode s) <| draw_area_right := Z.land p 0x3FF |> <| draw_area_bottom := Z.land (Z.shiftr p 10) 0x3FF |> |> in
  ws_nw_sync_target (send_draw_area s).

Definition gp0_exec_draw_offset (s : St) : St :=
  let p := param s in
  let x := sign_extend (Z.land p 0x7FF) 11 in
  let y := sign_extend (Z.land (Z.shiftr p 11) 0x7FF) 11 in
  on_world (gr_set_draw_offset x y) (s <| mode := (mode s) <| draw_offset_x := x |> <| draw_offset_y := y |> |>).

Definition gp0_exec_mask_bit (s : St) : St :=
  let p := param s in
  let set := Z.land p 1 in let check := Z.land (Z.shiftr p 1) 1 in
  on_world (gr_set_mask_bits set check) (s <| mode := (mode s) <| set_mask_bit := set |> <| check_mask_bit := check |> |>).

Definition gp0_exec_copy_rect (s : St) : St :=
  let src_x := Z.land (cmd 1 s) 0x3FF in let src_y := Z.land (Z.shiftr (cmd 1 s) 16) 0x1FF in
  let dst_x := Z.land (cmd 2 s) 0x3FF in let dst_y := Z.land (Z.shiftr (cmd 2 s) 16) 0x1FF in
  let w := Z.land (cmd 3 s) 0x3FF in let h := Z.land (Z.shiftr (cmd 3 s) 16) 0x1FF in
  let w := if w =? 0 then 0x400 else w in
  let h := if h =? 0 then 0x200 else h in
  on_world (gr_copy_rect src_x src_y dst_x dst_y w h) s.

(** The rectangle a transfer command names, its position at the start. *)
Definition transfer_rect (s : St) : Transfer :=
  let w := Z.land (cmd 2 s) 0x3FF in let h := Z.land (Z.shiftr (cmd 2 s) 16) 0x1FF in
  mkTransfer (Z.land (cmd 1 s) 0x3FF) (Z.land (Z.shiftr (cmd 1 s) 16) 0x1FF)
    (if w =? 0 then 0x400 else w) (if h =? 0 then 0x200 else h) 0 0.

Definition gp0_exec_cpu_to_vram (s : St) : St :=
  let t := transfer_rect s in
  let num_pixels := u32 (w_ t * h_ t) in
  let s := s <| vram_write := t |> <| vram_write_remaining := Z.quot (num_pixels + 1) 2 |> in
  if 0 <? vram_write_remaining s then s <| fifo := (fifo s) <| gp0_state := GP0_VRAM_WRITE |> |> else s.

Definition gp0_exec_vram_to_cpu (s : St) : St :=
  s <| vram_read := transfer_rect s |> <| vram_read_active := true |>.

(** ** Commands *)

Definition between (lo hi x : Z) : bool := (lo <=? x) && (x <=? hi).

(** Words of a command; -1 for a polyline, 0 for an unknown opcode. *)
Definition gp0_command_word_count (opcode : Z) : Z :=
  if opcode =? 0x00 then 1 else if opcode =? 0x01 then 1 else if opcode =? 0x02 then 3 else if opcode =? 0x1F then 1
  else if between 0x20 0x23 opcode then 4 else if between 0x24 0x27 opcode then 7
  else if between 0x28 0x2B opcode then 5 else if between 0x2C 0x2F opcode then 9
  else if between 0x30 0x33 opcode then 6 else if between 0x34 0x37 opcode then 9
  else if between 0x38 0x3B opcode then 8 else if between 0x3C 0x3F opcode then 12
  else if between 0x40 0x47 opcode then 3 else if between 0x48 0x4F opcode then -1
  else if between 0x50 0x57 opcode then 4 else if between 0x58 0x5F opcode then -1
  else if between 0x60 0x63 opcode then 3 else if between 0x64 0x67 opcode then 4
  else if between 0x68 0x6B opcode then 2 else if between 0x6C 0x6F opcode then 3
  else if between 0x70 0x73 opcode then 2 else if between 0x74 0x77 opcode then 3
  else if between 0x78 0x7B opcode then 2 else if between 0x7C 0x7F opcode then 3
  else if between 0x80 0x9F opcode then 4 else if between 0xA0 0xBF opcode then 3 else if between 0xC0 0xDF opcode then 3
  else if between 0xE0 0xE6 opcode then 1
  else if between 0x03 0x1E opcode || between 0xE7 0xEF opcode || (opcode =? 0xFF) then 1
  else 0.

(** The statistics of an executed opcode. *)
Definition categorize (opcode : Z) (c : Counts) : Counts :=
  if opcode <=? 0x01 then c <| gp0_nop_count := u64 (gp0_nop_count c + 1) |>
  else if opcode =? 0x02 then c <| gp0_fill_count := u64 (gp0_fill_count c + 1) |>
  else if between 0x20 0x7F opcode then c <| gp0_draw_count := u64 (gp0_draw_count c + 1) |>
  else if between 0x80 0xDF opcode then c <| gp0_copy_count := u64 (gp0_copy_count c + 1) |>
  else if between 0xE1 0xE6 opcode then c <| gp0_env_count := u64 (gp0_env_count c + 1) |>
  else c.

Definition count_opcode (opcode : Z) (c : Counts) : Counts :=
  c <| gp0_opcode_count := aset (gp0_opcode_count c) opcode (u32 (aget (gp0_opcode_count c) opcode + 1)) |>.

(** The handler of an opcode; [None] is the fatal halt of the default case. *)
Definition gp0_handler (opcode : Z) : option (St -> St) :=
  if (opcode =? 0x00) || (opcode =? 0x01) then Some gp0_exec_nop
  else if opcode =? 0x02 then Some gp0_exec_fill_rect
  else if opcode =? 0xE1 then Some gp0_exec_draw_mode
  else if opcode =? 0xE2 then Some gp0_exec_texture_window
  else if opcode =? 0xE3 then Some gp0_exec_draw_area_tl
  else if opcode =? 0xE4 then Some gp0_exec_draw_area_br
  else if opcode =? 0xE5 then Some gp0_exec_draw_offset
  else if opcode =? 0xE6 then Some gp0_exec_mask_bit
  else if between 0x20 0x23 opcode then Some gp0_exec_mono_tri
  else if between 0x24 0x27 opcode then Some gp0_exec_textured_tri
  else if between 0x28 0x2B opcode then Some gp0_exec_mono_quad
  else if between 0x2C 0x2F opcode then Some gp0_exec_textured_quad
  else if between 0x30 0x33 opcode then Some gp0_exec_shaded_tri
  else if between 0x34 0x37 opcode then Some gp0_exec_shaded_textured_tri
  else if between 0x38 0x3B opcode then Some gp0_exec_shaded_quad
  else if between 0x3C 0x3F opcode then Some gp0_exec_shaded_textured_quad
  else if between 0x40 0x47 opcode then Some gp0_exec_mono_line
  else if between 0x50 0x57 opcode then Some gp0_exec_shaded_line
  else if between 0x60 0x63 opcode then Some gp0_exec_mono_rect
  else if between 0x64 0x67 opcode then Some gp0_exec_textured_rect
  else if between 0x68 0x6B opcode then Some gp0_exec_mono_dot
  else if between 0x6C 0x6F opcode then Some gp0_exec_textured_dot
  else if between 0x70 0x73 opcode then Some gp0_exec_mono_8x8
  else if between 0x74 0x77 opcode then Some gp0_exec_textured_8x8
  else if between 0x78 0x7B opcode then Some gp0_exec_mono_16x16
  else if between 0x7C 0x7F opcode then Some gp0_exec_textured_16x16
  else if between 0x80 0x9F opcode then Some gp0_exec_copy_rect
  else if between 0xA0 0xBF opcode then Some gp0_exec_cpu_to_vram
  else if between 0xC0 0xDF opcode then Some gp0_exec_vram_to_cpu
  else if between 0x03 0x1E opcode || (opcode =? 0xE0) || between 0xE7 0xEF opcode || (opcode =? 0xFF) then Some gp0_exec_nop
  else None.

(** The rasteriser asks [psx_ws_prim_in_backdrop] from inside its triangles and
    rectangles; the answer, which no handler changes, is handed over as the command
    begins. *)
Definition announce_backdrop (s : St) : St :=
  let '(inside, s) := psx_ws_prim_in_backdrop s in on_world (gr_prim_in_backdrop inside) s.

Definition gp0_execute_command (s : St) : option St :=
  let opcode := u8 (Z.land (Z.shiftr (cmd 0 s) 24) 0xFF) in
  let s := s <| counts := count_opcode opcode (counts s) |> in
  let s := announce_backdrop (ws_bg_phase_note opcode s) in
  let s := s <| counts := categorize opcode (counts s) |> in
  match gp0_handler opcode with Some f => Some (f s) | None => None end.

(** ** GP0 writes *)

(** One pixel of an upload; [true] when it was the last. *)
Definition vram_write_pixel (pixel : Z) (s : St) : bool * St :=
  let t := vram_write s in
  let wx := Z.rem (x_ t + col_ t) 1024 in
  let wy := Z.rem (y_ t + row_ t) 512 in
  let s :=
    if negb (check_mask_bit (mode s) =? 0) && has (gr_vram_read wx wy (world s)) 0x8000 then s
    else
      let pixel := if negb (set_mask_bit (mode s) =? 0) then Z.lor pixel 0x8000 else pixel in
      on_world (gr_vram_write wx wy pixel) s in
  let s := s <| vram_write := (vram_write s) <| col_ := u16 (col_ t + 1) |> |> in
  if col_ (vram_write s) =? w_ (vram_write s) then
    let s := s <| vram_write := (vram_write s) <| col_ := 0 |> <| row_ := u16 (row_ t + 1) |> |> in
    (row_ (vram_write s) =? h_ (vram_write s), s)
  else (false, s).

Definition idle (s : St) : St := s <| fifo := (fifo s) <| gp0_state := GP0_IDLE |> |>.

Definition announce_upload (s : St) : St :=
  let t := vram_write s in on_world (text_xlate_vram_upload (x_ t) (y_ t) (w_ t) (h_ t)) s.

Definition upload_done (s : St) : St := announce_upload ((idle s) <| vram_write_remaining := 0 |>).

Definition write_vram_word (val : Z) (s : St) : St :=
  let '(last, s) := vram_write_pixel (u16 (Z.shiftr val 0)) s in
  if last : bool then upload_done s
  else
    let '(last, s) := vram_write_pixel (u16 (Z.shiftr val 16)) s in
    if last : bool then upload_done s
    else
      let s := s <| vram_write_remaining := u32 (vram_write_remaining s - 1) |> in
      if vram_write_remaining s =? 0 then announce_upload (idle s) else s.

Definition terminator (val : Z) : bool := Z.land val 0xF000F000 =? 0x50005000.

(** The vertex becomes the previous one. *)
Definition polyline_at (v : Z * Z) (has_prev : Z) (s : St) : St :=
  s <| polyline := (polyline s) <| polyline_prev_x := fst v |> <| polyline_prev_y := snd v |>
                                <| polyline_has_prev := has_prev |> |>.

Definition polyline_mono_word (val : Z) (s : St) : St :=
  if terminator val then idle s
  else
    let v := placed (parse_vertex val) s in
    let p := polyline s in
    let s := if negb (polyline_has_prev p =? 0)
             then on_world (gr_draw_line (polyline_prev_x p) (polyline_prev_y p) (fst v) (snd v) (polyline_color p)) s
             else s in
    polyline_at v 1 s.

Definition polyline_shaded_word (val : Z) (s : St) : St :=
  let p := polyline s in
  let keep_color s := s <| polyline := (polyline s) <| polyline_prev_c := polyline_color (polyline s) |> |> in
  if polyline_has_prev p =? 0 then
    keep_color (polyline_at (placed (parse_vertex val) s) 1 s)
  else if polyline_has_prev p =? 1 then
    if terminator val then idle s
    else s <| polyline := p <| polyline_color := rgb888_to_rgb555 (Z.land val 0xFFFFFF) |> <| polyline_has_prev := 2 |> |>
  else
    let v := placed (parse_vertex val) s in
    let s := on_world (gr_draw_shaded_line (polyline_prev_x p) (polyline_prev_y p) (polyline_prev_c p)
                         (fst v) (snd v) (polyline_color p)) s in
    keep_color (polyline_at v 1 s).

Definition collect_word (val : Z) (s : St) : option St :=
  let f := fifo s in
  let s := s <| fifo := f <| gp0_cmd_buf := aset (gp0_cmd_buf f) (gp0_words_collected f) val |>
                          <| gp0_words_collected := gp0_words_collected f + 1 |> |> in
  if gp0_words_needed (fifo s) <=? gp0_words_collected (fifo s) then gp0_execute_command (idle s) else Some s.

Definition start_polyline (opcode val : Z) (s : St) : St :=
  let shaded := has opcode 0x10 in
  let semi := Z.land (Z.shiftr val 25) 1 in
  let c := rgb888_to_rgb555 (Z.land val 0xFFFFFF) in
  let s := s <| polyline := (polyline s) <| polyline_semi_trans := semi |> <| polyline_color := c |>
                   <| polyline_prev_c := c |> <| polyline_has_prev := 0 |> |> in
  let s := on_world (gr_set_semi_transparency semi (semi_transparency (mode s))) s in
  s <| fifo := (fifo s) <| gp0_state := if shaded then GP0_POLYLINE_SHADED else GP0_POLYLINE_MONO |> |>
    <| counts := count_opcode opcode ((counts s) <| gp0_draw_count := u64 (gp0_draw_count (counts s) + 1) |>) |>.

Definition first_word (val : Z) (s : St) : option St :=
  let opcode := u8 (Z.land (Z.shiftr val 24) 0xFF) in
  let word_count := gp0_command_word_count opcode in
  if word_count =? 0 then None
  else if word_count <? 0 then Some (start_polyline opcode val s)
  else
    let f := fifo s in
    let s := s <| fifo := f <| gp0_cmd_buf := aset (gp0_cmd_buf f) 0 val |>
                            <| gp0_cmd_source_addr := gp0_next_source_addr f |> <| gp0_words_collected := 1 |> |> in
    if word_count =? 1 then gp0_execute_command (s <| fifo := (fifo s) <| gp0_words_needed := 1 |> |>)
    else Some (s <| fifo := (fifo s) <| gp0_state := GP0_COLLECTING |> <| gp0_words_needed := word_count |> |>).

Definition gpu_write_gp0 (val : Z) (s : St) : option St :=
  let s := s <| counts := (counts s) <| gp0_write_count := u64 (gp0_write_count (counts s) + 1) |> |> in
  match gp0_state (fifo s) with
  | GP0_VRAM_WRITE => Some (write_vram_word val s)
  | GP0_POLYLINE_MONO => Some (polyline_mono_word val s)
  | GP0_POLYLINE_SHADED => Some (polyline_shaded_word val s)
  | GP0_COLLECTING => collect_word val s
  | GP0_IDLE => first_word val s
  end.

Definition gpu_set_gp0_source (addr : Z) (s : St) : St := s <| fifo := (fifo s) <| gp0_next_source_addr := addr |> |>.

(** ** GP1 writes *)

Definition gp1_reset (s : St) : St := gpu_reset_state false s.

Definition gp1_reset_command_buffer (s : St) : St :=
  s <| fifo := (fifo s) <| gp0_state := GP0_IDLE |> <| gp0_words_collected := 0 |> <| gp0_words_needed := 0 |> |>
    <| vram_write_remaining := 0 |>.

Definition gp1_ack_irq1 (s : St) : St := s <| display := (display s) <| irq1_flag := 0 |> |>.
Definition gp1_display_enable (val : Z) (s : St) : St := s <| display := (display s) <| display_disabled := Z.land val 1 |> |>.
Definition gp1_dma_direction (val : Z) (s : St) : St := s <| display := (display s) <| dma_direction := Z.land val 3 |> |>.

Definition gp1_display_area_start (val : Z) (s : St) : St :=
  let s := s <| display := (display s) <| display_area_x := Z.land val 0x3FF |>
                 <| display_area_y := Z.land (Z.shiftr val 10) 0x1FF |> |> in
  ws_note_display_base (display_area_x (display s)) s.

Definition gp1_h_display_range (val : Z) (s : St) : St :=
  s <| display := (display s) <| h_display_x1 := Z.land val 0xFFF |> <| h_display_x2 := Z.land (Z.shiftr val 12) 0xFFF |> |>.
Definition gp1_v_display_range (val : Z) (s : St) : St :=
  s <| display := (display s) <| v_display_y1 := Z.land val 0x3FF |> <| v_display_y2 := Z.land (Z.shiftr val 10) 0x3FF |> |>.

Definition gp1_display_mode (val : Z) (s : St) : St :=
  s <| display := (display s) <| hres1 := Z.land val 3 |> <| vres := Z.land (Z.shiftr val 2) 1 |>
    <| video_mode := Z.land (Z.shiftr val 3) 1 |> <| display_depth := Z.land (Z.shiftr val 4) 1 |>
    <| vertical_interlace := Z.land (Z.shiftr val 5) 1 |> <| hres2 := Z.land (Z.shiftr val 6) 1 |>
    <| reverse_flag := Z.land (Z.shiftr val 7) 1 |> |>.

Definition gp1_get_info (val : Z) (s : St) : St :=
  let m := mode s in
  let which := Z.land val 0x0F in
  let latch v := s <| gpuread_latch := v |> in
  if which =? 2 then latch (texture_window_value m)
  else if which =? 3 then latch (Z.lor (draw_area_left m) (Z.shiftl (draw_area_top m) 10))
  else if which =? 4 then latch (Z.lor (draw_area_right m) (Z.shiftl (draw_area_bottom m) 10))
  else if which =? 5 then latch (Z.lor (Z.land (u32 (draw_offset_x m)) 0x7FF) (Z.shiftl (Z.land (u32 (draw_offset_y m)) 0x7FF) 11))
  else if which =? 7 then latch 2
  else if which =? 8 then latch 0
  else s.

Definition gpu_write_gp1 (val : Z) (s : St) : option St :=
  let command := Z.land (Z.shiftr val 24) 0x3F in
  if command =? 0x00 then Some (gp1_reset s)
  else if command =? 0x01 then Some (gp1_reset_command_buffer s)
  else if command =? 0x02 then Some (gp1_ack_irq1 s)
  else if command =? 0x03 then Some (gp1_display_enable val s)
  else if command =? 0x04 then Some (gp1_dma_direction val s)
  else if command =? 0x05 then Some (gp1_display_area_start val s)
  else if command =? 0x06 then Some (gp1_h_display_range val s)
  else if command =? 0x07 then Some (gp1_v_display_range val s)
  else if command =? 0x08 then Some (gp1_display_mode val s)
  else if between 0x10 0x1F command then Some (gp1_get_info val s)
  else None.

(** ** Accessors *)

Definition gpu_get_gp0_count (s : St) : Z := gp0_write_count (counts s).
Definition gpu_get_gp0_stats (s : St) : Z * Z * Z * Z * Z :=
  let c := counts s in (gp0_nop_count c, gp0_fill_count c, gp0_draw_count c, gp0_env_count c, gp0_copy_count c).
Definition gpu_get_draw_area (s : St) : Z * Z * Z * Z * (Z * Z) :=
  let m := mode s in
  (draw_area_left m, draw_area_top m, draw_area_right m, draw_area_bottom m, (draw_offset_x m, draw_offset_y m)).
Definition gpu_get_opcode_count (op : Z) (s : St) : Z := aget (gp0_opcode_count (counts s)) op.

(** ** Snapshot *)

(** A field of the snapshot: its size in bytes, its value as an unsigned number of
    that size, and its restoration. *)
Record Field := mkField { f_size : nat; f_get : St -> Z; f_put : Z -> St -> St }.

Definition state_code (g : Gp0State) : Z :=
  match g with GP0_IDLE => 0 | GP0_COLLECTING => 1 | GP0_VRAM_WRITE => 2 | GP0_POLYLINE_MONO => 3 | GP0_POLYLINE_SHADED => 4 end.
Definition state_of (c : Z) : Gp0State :=
  if c =? 0 then GP0_IDLE else if c =? 1 then GP0_COLLECTING else if c =? 2 then GP0_VRAM_WRITE
  else if c =? 3 then GP0_POLYLINE_MONO else GP0_POLYLINE_SHADED.

Definition mode_fields : list Field :=
  let f (g : Mode -> Z) (p : Z -> Mode -> Mode) :=
    mkField 4 (fun s => u32 (g (mode s))) (fun v s => s <| mode := p v (mode s) |>) in
  [ f texpage_x (fun v m => m <| texpage_x := v |>); f texpage_y (fun v m => m <| texpage_y := v |>);
    f semi_transparency (fun v m => m <| semi_transparency := v |>); f texpage_colors (fun v m => m <| texpage_colors := v |>);
    f dither_enabled (fun v m => m <| dither_enabled := v |>); f draw_to_display (fun v m => m <| draw_to_display := v |>);
    f texture_disable (fun v m => m <| texture_disable := v |>);
    f texture_window_value (fun v m => m <| texture_window_value := v |>);
    f set_mask_bit (fun v m => m <| set_mask_bit := v |>); f check_mask_bit (fun v m => m <| check_mask_bit := v |>) ].

Definition display_field (g : Display -> Z) (p : Z -> Display -> Display) : Field :=
  mkField 4 (fun s => u32 (g (display s))) (fun v s => s <| display := p v (display s) |>).

Definition area_fields : list Field :=
  let f (g : Mode -> Z) (p : Z -> Mode -> Mode) :=
    mkField 4 (fun s => u32 (g (mode s))) (fun v s => s <| mode := p v (mode s) |>) in
  [ f draw_area_left (fun v m => m <| draw_area_left := v |>); f draw_area_top (fun v m => m <| draw_area_top := v |>);
    f draw_area_right (fun v m => m <| draw_area_right := v |>); f draw_area_bottom (fun v m => m <| draw_area_bottom := v |>);
    f draw_offset_x (fun v m => m <| draw_offset_x := s32 v |>); f draw_offset_y (fun v m => m <| draw_offset_y := s32 v |>) ].

Definition display_fields : list Field :=
  let f := display_field in
  [ f hres1 (fun v d => d <| hres1 := v |>); f hres2 (fun v d => d <| hres2 := v |>); f vres (fun v d => d <| vres := v |>);
    f video_mode (fun v d => d <| video_mode := v |>); f display_depth (fun v d => d <| display_depth := v |>);
    f vertical_interlace (fun v d => d <| vertical_interlace := v |>);
    f display_disabled (fun v d => d <| display_disabled := v |>); f irq1_flag (fun v d => d <| irq1_flag := v |>);
    f dma_direction (fun v d => d <| dma_direction := v |>); f lcf (fun v d => d <| lcf := v |>);
    f display_area_x (fun v d => d <| display_area_x := v |>); f display_area_y (fun v d => d <| display_area_y := v |>);
    f h_display_x1 (fun v d => d <| h_display_x1 := v |>); f h_display_x2 (fun v d => d <| h_display_x2 := v |>);
    f v_display_y1 (fun v d => d <| v_display_y1 := v |>); f v_display_y2 (fun v d => d <| v_display_y2 := v |>) ].

Definition fifo_field (g : Fifo -> Z) (p : Z -> Fifo -> Fifo) : Field :=
  mkField 4 (fun s => u32 (g (fifo s))) (fun v s => s <| fifo := p v (fifo s) |>).

Definition buffer_fields : list Field :=
  map (fun i => fifo_field (fun f => aget (gp0_cmd_buf f) i) (fun v f => f <| gp0_cmd_buf := aset (gp0_cmd_buf f) i v |>)) (seqZ 0 16).

(** [gp0_next_source_addr] and [gp0_cmd_source_addr], which the co-simulation
    snapshot leaves out. *)
Definition source_fields : list Field :=
  [ fifo_field gp0_next_source_addr (fun v f => f <| gp0_next_source_addr := v |>);
    fifo_field gp0_cmd_source_addr (fun v f => f <| gp0_cmd_source_addr := v |>) ].

Definition polyline_fields : list Field :=
  let f (n : nat) (g : Polyline -> Z) (p : Z -> Polyline -> Polyline) :=
    mkField n (fun s => g (polyline s) mod 2 ^ (8 * Z.of_nat n)) (fun v s => s <| polyline := p v (polyline s) |>) in
  [ f 2%nat polyline_color (fun v q => q <| polyline_color := v |>);
    f 4%nat polyline_prev_x (fun v q => q <| polyline_prev_x := s32 v |>);
    f 4%nat polyline_prev_y (fun v q => q <| polyline_prev_y := s32 v |>);
    f 2%nat polyline_prev_c (fun v q => q <| polyline_prev_c := v |>);
    f 4%nat polyline_semi_trans (fun v q => q <| polyline_semi_trans := s32 v |>);
    f 4%nat polyline_has_prev (fun v q => q <| polyline_has_prev := s32 v |>) ].

Definition transfer_fields (t : St -> Transfer) (set : Transfer -> St -> St) : list Field :=
  let f (g : Transfer -> Z) (p : Z -> Transfer -> Transfer) :=
    mkField 2 (fun s => u16 (g (t s))) (fun v s => set (p v (t s)) s) in
  [ f x_ (fun v t => t <| x_ := v |>); f y_ (fun v t => t <| y_ := v |>); f w_ (fun v t => t <| w_ := v |>);
    f h_ (fun v t => t <| h_ := v |>); f col_ (fun v t => t <| col_ := v |>); f row_ (fun v t => t <| row_ := v |>) ].

(** GPU_SNAP_FIELDS, in its order; [source] is the part that is left out of
    GPU_COSIM_SNAP_FIELDS. *)
Definition snap_fields (source : list Field) : list Field :=
  mode_fields ++
  [ display_field interlace_field (fun v d => d <| interlace_field := v |>);
    display_field reverse_flag (fun v d => d <| reverse_flag := v |>) ] ++
  area_fields ++ display_fields ++
  [ mkField 4 (fun s => u32 (gpuread_latch s)) (fun v s => s <| gpuread_latch := v |>);
    fifo_field (fun f => state_code (gp0_state f)) (fun v f => f <| gp0_state := state_of v |>) ] ++
  buffer_fields ++
  [ fifo_field gp0_words_collected (fun v f => f <| gp0_words_collected := s32 v |>);
    fifo_field gp0_words_needed (fun v f => f <| gp0_words_needed := s32 v |>) ] ++
  source ++ polyline_fields ++
  transfer_fields vram_write (fun t s => s <| vram_write := t |>) ++
  [ mkField 4 (fun s => u32 (vram_write_remaining s)) (fun v s => s <| vram_write_remaining := v |>);
    mkField 4 (fun s => b2z (vram_read_active s)) (fun v s => s <| vram_read_active := negb (v =? 0) |>) ] ++
  transfer_fields vram_read (fun t s => s <| vram_read := t |>).

Definition GPU_SNAP_FIELDS : list Field := snap_fields source_fields.
Definition GPU_COSIM_SNAP_FIELDS : list Field := snap_fields [].

(** memcpy of a little-endian value of [n] bytes, and back. *)
Fixpoint le_bytes (n : nat) (v : Z) : list Z :=
  match n with O => [] | S n => u8 v :: le_bytes n (Z.shiftr v 8) end.
Fixpoint le_value (l : list Z) : Z := match l with [] => 0 | b :: l => b + Z.shiftl (le_value l) 8 end.

Definition snapshot_bytes (fs : list Field) : Z := fold_right (fun f n => Z.of_nat (f_size f) + n) 0 fs.
Definition snapshot_write (fs : list Field) (s : St) : list Z := flat_map (fun f => le_bytes (f_size f) (f_get f s)) fs.

Definition gpu_snapshot_bytes : Z := snapshot_bytes GPU_SNAP_FIELDS.
Definition gpu_snapshot_write (s : St) : list Z := snapshot_write GPU_SNAP_FIELDS s.
Definition gpu_cosim_snapshot_bytes : Z := snapshot_bytes GPU_COSIM_SNAP_FIELDS.
Definition gpu_cosim_snapshot_write (s : St) : list Z := snapshot_write GPU_COSIM_SNAP_FIELDS s.

Fixpoint snapshot_read (fs : list Field) (p : list Z) (s : St) : St :=
  match fs with
  | [] => s
  | f :: fs => snapshot_read fs (drop (f_size f) p) (f_put f (le_value (take (f_size f) p)) s)
  end.

Definition gpu_snapshot_read (p : list Z) (s : St) : bool * St :=
  if negb (Z.of_nat (length p) =? gpu_snapshot_bytes) then (false, s) else (true, snapshot_read GPU_SNAP_FIELDS p s).

End Processor.
End Gpu.
