(* ===== verification/GpuSoftware.v ===== *)
(** * The renderer facade and its software back end

    src/runtime/src/gpu_render.c: the choice of a back end, and the table and the
    forwarding wrappers of the software one, as the instance through which gpu.c
    draws.  The OpenGL and Vulkan back ends are not modelled. *)

From S2P Require Import Prelude SwRenderer Gpu.

Module GpuSoftware.
Import SwRenderer.

(** ** Back ends *)

Inductive GrBackend := GR_BACKEND_SOFTWARE | GR_BACKEND_OPENGL | GR_BACKEND_VULKAN.

(** The effective back end: a requested one that is unavailable falls back. *)
Definition gr_set_backend (gl_backend_get vk_backend_get : bool) (backend : GrBackend) : GrBackend :=
  match backend with
  | GR_BACKEND_OPENGL => if gl_backend_get then GR_BACKEND_OPENGL else GR_BACKEND_SOFTWARE
  | GR_BACKEND_VULKAN => if vk_backend_get then GR_BACKEND_VULKAN else GR_BACKEND_SOFTWARE
  | GR_BACKEND_SOFTWARE => GR_BACKEND_SOFTWARE
  end.

(** ** The software table *)

(** The rasteriser, and what else gpu.c calls: the uploads it announced, the
    interrupts it raised, the frames it presented, and the frame counter. *)
#[projections(primitive)] Record Video := mkVideo {
  screen : State; uploads : list (Z * Z * Z * Z); raised : Z; presented : Z; frames : Z
}.
#[export] Instance eta_Video : Eta Video := fun v => mkVideo (screen v) (uploads v) (raised v) (presented v) (frames v).

Definition on_screen (f : State -> State) (v : Video) : Video := v <| screen := f (screen v) |>.

#[export] Instance SW_BACKEND `{Heap} : Gpu.Renderer Video := {
  vram_array v i := cell i (screen v);
  vram_clear := on_screen (fun st => st <| g_vram := ∅ |>);
  gr_init := on_screen (fun st => sw_renderer_init (g_vram st) st);
  gr_set_semi_transparency e m := on_screen (sw_set_semi_transparency e m);
  gr_set_mask_bits s c := on_screen (sw_set_mask_bits s c);
  gr_set_texture_window raw := on_screen (sw_set_texture_window raw);
  gr_set_color_modulation r g b raw := on_screen (sw_set_color_modulation r g b raw);
  gr_set_draw_area x1 y1 x2 y2 := on_screen (sw_set_draw_area x1 y1 x2 y2);
  gr_set_draw_offset x y := on_screen (sw_set_draw_offset x y);
  gr_fill_rect x y w h c := on_screen (sw_fill_rect x y w h c);
  gr_copy_rect sx sy dx dy w h := on_screen (sw_copy_rect sx sy dx dy w h);
  gr_draw_flat_triangle v0 v1 v2 c :=
    on_screen (sw_draw_flat_triangle (fst v0) (snd v0) (fst v1) (snd v1) (fst v2) (snd v2) c);
  gr_draw_gouraud_triangle v0 c0 v1 c1 v2 c2 :=
    on_screen (sw_draw_gouraud_triangle (fst v0) (snd v0) c0 (fst v1) (snd v1) c1 (fst v2) (snd v2) c2);
  gr_draw_textured_triangle v0 t0 v1 t1 v2 t2 cx cy tp :=
    on_screen (sw_draw_textured_triangle (fst v0) (snd v0) (fst t0) (snd t0) (fst v1) (snd v1) (fst t1) (snd t1)
      (fst v2) (snd v2) (fst t2) (snd t2) cx cy tp);
  gr_draw_shaded_textured_triangle v0 t0 c0 v1 t1 c1 v2 t2 c2 cx cy tp raw :=
    on_screen (sw_draw_shaded_textured_triangle (fst v0) (snd v0) (fst t0) (snd t0) c0 (fst v1) (snd v1) (fst t1) (snd t1) c1
      (fst v2) (snd v2) (fst t2) (snd t2) c2 cx cy tp raw);
  gr_draw_flat_rect x y w h c := on_screen (sw_draw_flat_rect x y w h c);
  gr_draw_textured_rect x y w h u v cx cy tp := on_screen (sw_draw_textured_rect x y w h u v cx cy tp);
  gr_draw_textured_rect_scaled x y w h u0 v0 u1 v1 cx cy tp :=
    on_screen (sw_draw_textured_rect_scaled x y w h u0 v0 u1 v1 cx cy tp);
  gr_draw_line x0 y0 x1 y1 c := on_screen (sw_draw_line x0 y0 x1 y1 c);
  gr_draw_shaded_line x0 y0 c0 x1 y1 c1 := on_screen (sw_draw_shaded_line x0 y0 c0 x1 y1 c1);
  gr_vram_write x y p := on_screen (sw_vram_write x y p);
  gr_vram_read x y v := sw_vram_read x y (screen v);
  gr_wide_configure w off := on_screen (sw_wide_configure w off);
  gr_wide_set_target bx := on_screen (sw_wide_set_target bx);
  gr_wide_disable_target := on_screen sw_wide_disable_target;
  gr_wide_clear bx y h c := on_screen (sw_wide_clear bx y h c);
  gr_prim_in_backdrop inside := on_screen (fun st => st <| shadow := (shadow st) <| psx_ws_prim_in_backdrop := inside |> |>)
}.

(** A host that counts, with video playback and the reveal off. *)
#[export] Instance counting_host : Gpu.Host Video := {
  s_frame_count v := frames v;
  mdec_recently_active _ _ := false;
  gte_projection_recent _ _ := true;
  ws_force_2d := false;
  psx_irq_raise _ _ v := v <| raised := raised v + 1 |>;
  event_ring_record_vblank v := v;
  vblank_callback := Some (fun v => v <| presented := presented v + 1 |>);
  text_xlate_vram_upload x y w h v := v <| uploads := uploads v ++ [(x, y, w, h)] |>;
  gpu_ws_mmx6_reveal_is_active _ := false;
  gpu_ws_mmx6_bg_record _ _ _ _ _ _ v := v;
  gpu_ws_mmx6_emit_reveal _ _ v := v
}.

(** The machine at power-on. *)
Definition power_on `{Heap} : Gpu.State Video :=
  Gpu.gpu_init (Gpu.start (mkVideo (mkState ∅ env0 shadow0) [] 0 0 0)).

End GpuSoftware.
