(* ===== verification/GpuLaws.v ===== *)
(** * Laws of the command processor

    What each handler may change ([Drawn]), the invariant of the processor, the
    framing of commands, and which words halt the machine. *)

From S2P Require Import Prelude Gpu.

Module GpuLaws.
Import Gpu.

Section Laws.
Context {W : Type} `{R : Renderer W} `{H : Host W}.
Abbreviation St := (State W).

(** ** Frames *)

(** A state in which only the widescreen caches and the world may differ. *)
Definition outside (s s' : St) : Prop := exists wd w, s' = s <| wide := wd |> <| world := w |>.

Lemma outside_refl s : outside s s.
Proof. by exists (wide s), (world s). Qed.
Lemma outside_trans a b c : outside a b -> outside b c -> outside a c.
Proof. intros (wd & w & ->) (wd' & w' & ->). by exists wd', w'. Qed.
Lemma outside_world f s : outside s (on_world f s).
Proof. by exists (wide s), (f (world s)). Qed.
Lemma outside_wide wd s : outside s (s <| wide := wd |>).
Proof. by exists wd, (world s). Qed.

Lemma outside_mode (s s' : St) : outside s s' -> mode s' = mode s /\ vram_read_active s' = vram_read_active s.
Proof. by intros (? & ? & ->). Qed.

(** A state in which only the widescreen caches may differ: what asking for the
    widescreen mode does. *)
Definition cached (s s' : St) : Prop := exists wd, s' = s <| wide := wd |>.

Lemma cached_refl s : cached s s.
Proof. by exists (wide s). Qed.
Lemma cached_trans a b c : cached a b -> cached b c -> cached a c.
Proof. intros (wd & ->) (wd' & ->). by exists wd'. Qed.
Lemma cached_outside s s' : cached s s' -> outside s s'.
Proof. intros (wd & ->). apply outside_wide. Qed.
Lemma cached_world (s s' : St) : cached s s' -> world s' = world s.
Proof. by intros (wd & ->). Qed.

Lemma present_cached s : cached s (gpu_ws_present_native_43 s).2.
Proof.
  unfold gpu_ws_present_native_43. do 2 (case_if; [apply cached_refl|]). cbv zeta. cbn. case_if; [by eexists|apply cached_refl].
Qed.
Lemma active_cached s : cached s (ws_active s).2.
Proof.
  unfold ws_active. case_if; [|apply cached_refl]. pose proof (present_cached s) as P. by destruct (gpu_ws_present_native_43 s).
Qed.
Lemma nw_active_cached s : cached s (ws_native_wide_active s).2.
Proof.
  unfold ws_native_wide_active. case_if; [|apply cached_refl]. pose proof (present_cached s) as P. by destruct (gpu_ws_present_native_43 s).
Qed.
Lemma nw_offset_cached s : cached s (ws_nw_offset s).2.
Proof.
  unfold ws_nw_offset. pose proof (nw_active_cached s) as P. destruct (ws_native_wide_active s) as [on s']. cbn in P.
  case_if; [done|]. cbv zeta. by case_if.
Qed.
Lemma tagged_cached s : cached s (ws_tagged_anchor s).2.
Proof.
  unfold ws_tagged_anchor. pose proof (active_cached s) as P. destruct (ws_active s) as [on s']. cbn in P. by case_if.
Qed.
Lemma sprt_cached x w s : cached s (ws_sprt_fixed_transform x w s).2.
Proof.
  unfold ws_sprt_fixed_transform. pose proof (active_cached s) as P. destruct (ws_active s) as [on s']. cbn in P.
  case_if; [done|]. pose proof (tagged_cached s') as P'. destruct (ws_tagged_anchor s') as [[ax|] s'']; cbn in P'.
  - by eapply cached_trans.
  - case_if; by eapply cached_trans.
Qed.
Lemma sync_outside s : outside s (ws_nw_sync_target s).
Proof.
  unfold ws_nw_sync_target. pose proof (cached_outside _ _ (nw_active_cached s)) as P. destruct (ws_native_wide_active s) as [on s1]. cbn in P.
  case_if; [eapply outside_trans; [done|apply outside_world]|].
  unfold ws_nw_extra. pose proof (cached_outside _ _ (nw_offset_cached s1)) as P1. destruct (ws_nw_offset s1) as [v s2]. cbn in P1.
  pose proof (cached_outside _ _ (nw_offset_cached s2)) as P2. destruct (ws_nw_offset s2) as [v' s3]. cbn in P2. cbv zeta.
  eapply outside_trans; [exact P|]. eapply outside_trans; [exact P1|]. eapply outside_trans; [exact P2|].
  eapply outside_trans; [apply outside_world|]. case_if; apply outside_world.
Qed.

(** The texture page a polygon carries. *)
Definition tpage (w : Z) (m : Mode) : Mode :=
  m <| texpage_x := Z.land w 0xF |> <| texpage_y := Z.land (Z.shiftr w 4) 1 |>
    <| semi_transparency := Z.land (Z.shiftr w 5) 3 |> <| texpage_colors := Z.land (Z.shiftr w 7) 3 |>.

(** A drawing command: at most the texture page of the mode changes. *)
Definition Drawn (s s' : St) : Prop :=
  outside s s' \/ exists w, outside (s <| mode := tpage w (mode s) |>) s'.

Lemma drawn_refl s : Drawn s s.
Proof. left. apply outside_refl. Qed.
Lemma drawn_trans a b c : Drawn a b -> Drawn b c -> Drawn a c.
Proof.
  intros [(wd & w & ->)|(t & wd & w & ->)] [(wd' & w' & ->)|(t' & wd' & w' & ->)].
  - left. by exists wd', w'.
  - right. exists t'. by exists wd', w'.
  - right. exists t. by exists wd', w'.
  - right. exists t'. by exists wd', w'.
Qed.
Lemma drawn_outside s s' : outside s s' -> Drawn s s'.
Proof. by left. Qed.
Lemma drawn_world f s : Drawn s (on_world f s).
Proof. left. apply outside_world. Qed.
Lemma drawn_tpage w s : Drawn s (set_tpage_from_poly w s).
Proof. right. exists w. apply outside_refl. Qed.

(** After [s'], more changes of the world. *)
Lemma drawn_then f s s' : Drawn s s' -> Drawn s (on_world f s').
Proof. intros P. eapply drawn_trans; [exact P|apply drawn_world]. Qed.

Lemma drawn_setup c se raw s s' : Drawn s s' -> Drawn s (setup_textured_draw c se raw s').
Proof. intros P. by apply drawn_then, drawn_then. Qed.
Lemma drawn_sprite x y w h ws u v cl s s' : Drawn s s' -> Drawn s (draw_sprite x y w h ws u v cl s').
Proof. intros P. unfold draw_sprite. cbv zeta. case_if; by apply drawn_then. Qed.
Lemma drawn_semi s : Drawn s (set_semi s).
Proof. apply drawn_world. Qed.
Lemma drawn_tagged s s' : Drawn s s' -> Drawn s (ws_tagged_anchor s').2.
Proof. intros P. eapply drawn_trans; [exact P|apply drawn_outside, cached_outside, tagged_cached]. Qed.

Create HintDb drawn discriminated.
#[local] Hint Resolve drawn_refl drawn_then drawn_setup drawn_sprite drawn_semi drawn_tpage : drawn.

Lemma drawn_textured_quad s : Drawn s (gp0_exec_textured_quad s).
Proof.
  unfold gp0_exec_textured_quad. cbv zeta.
  pose proof (drawn_tagged _ _ (drawn_tpage (u16 (Z.shiftr (cmd 4 s) 16)) s)) as P. destruct (ws_tagged_anchor _) as [tag s']. cbn in P.
  destruct (textured_quad_rect _ _ _ _) as [[[[[[[[? ?] ?] ?] ?] ?] ?] ?]|]; [case_if|]; auto with drawn.
Qed.

Lemma drawn_textured_rect s : Drawn s (gp0_exec_textured_rect s).
Proof.
  unfold gp0_exec_textured_rect. cbv zeta. destruct (parse_vertex _) as [x0 y0], (texcoord _ _) as [u0 v0].
  pose proof (drawn_outside _ _ (cached_outside _ _ (active_cached s))) as P. destruct (ws_active s) as [on s1]. cbn in P.
  case_if; [|auto with drawn]. pose proof (drawn_tagged _ _ P) as P'. destruct (ws_tagged_anchor s1) as [[ax|] s2]; cbn in P'.
  - auto with drawn.
  - case_if; auto with drawn.
Qed.

Lemma drawn_textured_square n learn s : (forall s, Drawn s (learn s)) -> Drawn s (textured_square n learn s).
Proof.
  intros Hl. unfold textured_square. cbv zeta. destruct (parse_vertex _) as [x0 y0], (texcoord _ _) as [u0 v0].
  pose proof (drawn_outside _ _ (cached_outside _ _ (sprt_cached x0 n s))) as P. destruct (ws_sprt_fixed_transform x0 n s) as [[x1 ww] s1]. cbn in P.
  apply drawn_sprite, drawn_setup. eapply drawn_trans; [exact P|apply Hl].
Qed.

Lemma drawn_textured_dot s : Drawn s (gp0_exec_textured_dot s).
Proof.
  unfold gp0_exec_textured_dot. cbv zeta. destruct (parse_vertex _) as [x0 y0].
  pose proof (drawn_outside _ _ (cached_outside _ _ (sprt_cached x0 1 s))) as P. destruct (ws_sprt_fixed_transform x0 1 s) as [[x1 ww] s1]. cbn in P.
  destruct (texcoord _ _) as [u0 v0]. auto with drawn.
Qed.

Lemma drawn_fill s : Drawn s (gp0_exec_fill_rect s).
Proof.
  unfold gp0_exec_fill_rect. cbv zeta. match goal with |- context [ws_native_wide_active ?x] =>
    pose proof (drawn_trans _ _ _ (drawn_world _ _ : Drawn s x) (drawn_outside _ _ (cached_outside _ _ (nw_active_cached x)))) as P;
    destruct (ws_native_wide_active x) as [nw s'] end.
  cbn in P. case_if; auto with drawn.
Qed.

(** The opcodes of drawing commands, fills and copies included. *)
Definition drawing (op : Z) : bool := (op =? 0x02) || between 0x20 0x9F op.

Lemma handler_drawn op f s : drawing op = true -> gp0_handler op = Some f -> Drawn s (f s).
Proof.
  intros Hd. unfold gp0_handler, drawing, between in *.
  repeat lazymatch goal with |- (if ?b then Some ?g else _) = _ -> _ => destruct b eqn:?Eb; [intros [= <-]|] end; [..|done];
    try (exfalso; lia); clear Hd.
  - apply drawn_fill.
  - apply drawn_then, drawn_semi.
  - unfold gp0_exec_textured_tri. cbv zeta. auto with drawn.
  - unfold gp0_exec_mono_quad. cbv zeta. auto with drawn.
  - apply drawn_textured_quad.
  - apply drawn_then, drawn_semi.
  - unfold gp0_exec_shaded_textured_tri. cbv zeta. apply drawn_then. eapply drawn_trans; [apply drawn_tpage|apply drawn_semi].
  - unfold gp0_exec_shaded_quad. cbv zeta. auto with drawn.
  - unfold gp0_exec_shaded_textured_quad. cbv zeta. do 2 apply drawn_then. eapply drawn_trans; [apply drawn_tpage|apply drawn_semi].
  - apply drawn_then, drawn_semi.
  - apply drawn_then, drawn_semi.
  - apply drawn_then, drawn_semi.
  - apply drawn_textured_rect.
  - apply drawn_then, drawn_semi.
  - apply drawn_textured_dot.
  - apply drawn_then, drawn_semi.
  - apply drawn_textured_square. intros. apply drawn_refl.
  - apply drawn_then, drawn_semi.
  - apply drawn_textured_square. intros. case_if; [apply drawn_world|apply drawn_refl].
  - apply drawn_world.
Qed.

(** ** Ranges *)

Lemma sign_extend_11 x : -1024 <= sign_extend (Z.land x 0x7FF) 11 < 1024.
Proof.
  pose proof (land_range_r 11 x 0x7FF ltac:(lia) ltac:(lia)) as Hx. unfold sign_extend. cbv zeta.
  change (Z.shiftl 1 (11 - 1)) with 1024. pose proof (lxor_range 11 (Z.land x 0x7FF) 1024 ltac:(lia) ltac:(lia) ltac:(lia)) as Hr.
  rewrite s32_id; lia.
Qed.

Lemma rgb555_range c : 0 <= rgb888_to_rgb555 c < 0x8000.
Proof.
  unfold rgb888_to_rgb555. cbv zeta.
  assert (Hb : forall x, 0 <= Z.shiftr (Z.land x 0xFF) 3 < 32).
  { intros x. rewrite land_ff, Z.shiftr_div_pow2 by lia. dlia. }
  pose proof (Hb (Z.shiftr c 0)). pose proof (Hb (Z.shiftr c 8)). pose proof (Hb (Z.shiftr c 16)).
  assert (Hl : 0 <= Z.lor (Z.lor (Z.shiftr (Z.land (Z.shiftr c 0) 0xFF) 3) (Z.shiftl (Z.shiftr (Z.land (Z.shiftr c 8) 0xFF) 3) 5))
    (Z.shiftl (Z.shiftr (Z.land (Z.shiftr c 16) 0xFF) 3) 10) < 2 ^ 15).
  { apply (lor_range 15); [lia| |rewrite Z.shiftl_mul_pow2 by lia; lia].
    apply (lor_range 15); [lia|lia|rewrite Z.shiftl_mul_pow2 by lia; lia]. }
  rewrite u16_id; lia.
Qed.

Lemma word_count_range op : -1 <= gp0_command_word_count op <= 12.
Proof. unfold gp0_command_word_count. repeat case_if; lia. Qed.

Lemma land_upto x m n : 0 <= n -> m = 2 ^ n - 1 -> 0 <= Z.land x m < 2 ^ n.
Proof. intros Hn ->. apply land_range_r; lia. Qed.

(** ** The invariant *)

Record ModeOk (m : Mode) : Prop := mkModeOk {
  mo_tx : 0 <= texpage_x m < 16; mo_ty : 0 <= texpage_y m < 2; mo_semi : 0 <= semi_transparency m < 4;
  mo_tc : 0 <= texpage_colors m < 4; mo_dither : 0 <= dither_enabled m < 2; mo_dtd : 0 <= draw_to_display m < 2;
  mo_set : 0 <= set_mask_bit m < 2; mo_check : 0 <= check_mask_bit m < 2; mo_td : 0 <= texture_disable m < 2;
  mo_left : 0 <= draw_area_left m < 1024; mo_top : 0 <= draw_area_top m < 1024;
  mo_right : 0 <= draw_area_right m < 1024; mo_bottom : 0 <= draw_area_bottom m < 1024;
  mo_ox : -1024 <= draw_offset_x m < 1024; mo_oy : -1024 <= draw_offset_y m < 1024;
  mo_tw : 0 <= texture_window_value m < 2 ^ 20
}.

Record DisplayOk (d : Display) : Prop := mkDisplayOk {
  do_if : interlace_field d = 0; do_rf : 0 <= reverse_flag d < 2; do_h2 : 0 <= hres2 d < 2; do_h1 : 0 <= hres1 d < 4;
  do_vres : 0 <= vres d < 2; do_vm : 0 <= video_mode d < 2; do_dd : 0 <= display_depth d < 2;
  do_vi : 0 <= vertical_interlace d < 2; do_off : 0 <= display_disabled d < 2; do_irq : irq1_flag d = 0;
  do_dma : 0 <= dma_direction d < 4; do_lcf : 0 <= lcf d < 2;
  do_x : 0 <= display_area_x d < 1024; do_y : 0 <= display_area_y d < 512;
  do_hx1 : 0 <= h_display_x1 d < 4096; do_hx2 : 0 <= h_display_x2 d < 4096;
  do_vy1 : 0 <= v_display_y1 d < 1024; do_vy2 : 0 <= v_display_y2 d < 1024
}.

(** The command buffer: a command being collected has its opcode's length, and room. *)
Record FifoOk (f : Fifo) : Prop := mkFifoOk {
  fo_len : length (gp0_cmd_buf f) = 16%nat; fo_words : Forall is_u32 (gp0_cmd_buf f);
  fo_collected : 0 <= gp0_words_collected f <= gp0_words_needed f; fo_needed : gp0_words_needed f <= 12;
  fo_next : is_u32 (gp0_next_source_addr f); fo_cmd : is_u32 (gp0_cmd_source_addr f);
  fo_collecting : gp0_state f = GP0_COLLECTING ->
    1 <= gp0_words_collected f < gp0_words_needed f /\
    gp0_words_needed f = gp0_command_word_count (u8 (Z.land (Z.shiftr (aget (gp0_cmd_buf f) 0) 24) 0xFF))
}.

Record PolylineOk (p : Polyline) : Prop := mkPolylineOk {
  po_color : 0 <= polyline_color p < 0x8000; po_prev_c : 0 <= polyline_prev_c p < 0x8000;
  po_x : -2048 <= polyline_prev_x p < 2048; po_y : -2048 <= polyline_prev_y p < 2048;
  po_semi : 0 <= polyline_semi_trans p < 2; po_has : 0 <= polyline_has_prev p <= 2
}.

(** A transfer's rectangle; a transfer in progress is at a position inside it, on
    an even pixel. *)
Definition pos (t : Transfer) : Z := row_ t * w_ t + col_ t.

Record RectOk (t : Transfer) : Prop := mkRectOk {
  ro_x : 0 <= x_ t < 1024; ro_y : 0 <= y_ t < 512; ro_w : 0 <= w_ t <= 1024; ro_h : 0 <= h_ t <= 512;
  ro_col : 0 <= col_ t <= 1024; ro_row : 0 <= row_ t <= 512
}.

Definition Inside (t : Transfer) : Prop := 1 <= w_ t /\ 1 <= h_ t /\ 0 <= col_ t < w_ t /\ 0 <= row_ t < h_ t.
Definition Going (t : Transfer) : Prop := Inside t /\ Z.even (pos t) = true.

(** Words left: two pixels each, the last one possibly half used. *)
Definition words_left (t : Transfer) : Z := (w_ t * h_ t - pos t + 1) / 2.

Record Inv (s : St) : Prop := mkInv {
  i_mode : ModeOk (mode s); i_display : DisplayOk (display s); i_fifo : FifoOk (fifo s); i_poly : PolylineOk (polyline s);
  i_write : RectOk (vram_write s); i_read : RectOk (vram_read s); i_left : 0 <= vram_write_remaining s <= 0x40000;
  i_writing : gp0_state (fifo s) = GP0_VRAM_WRITE -> Going (vram_write s) /\ vram_write_remaining s = words_left (vram_write s);
  i_reading : vram_read_active s = true -> Going (vram_read s);
  i_poll : 0 <= gpustat_poll_count s < GPUSTAT_POLL_VBLANK_THRESHOLD
}.

Lemma tpage_ok w m : ModeOk m -> ModeOk (tpage w m).
Proof.
  intros []. split; cbn; try done.
  - by apply (land_upto w 15 4).
  - by apply (land_upto _ 1 1).
  - by apply (land_upto _ 3 2).
  - by apply (land_upto _ 3 2).
Qed.

Lemma inv_outside s s' : outside s s' -> Inv s -> Inv s'.
Proof. intros (wd & w & ->) []. by split. Qed.

Lemma inv_drawn s s' : Drawn s s' -> Inv s -> Inv s'.
Proof.
  intros [P|(t & P)] Hi; [by eapply inv_outside|]. apply (inv_outside _ _ P). destruct Hi. split; try done. by apply tpage_ok.
Qed.

(** ** Transfers *)

(** The step of both transfers to the next pixel; [true] past the last one. *)
Definition advance (t : Transfer) : bool * Transfer :=
  let t := t <| col_ := u16 (col_ t + 1) |> in
  if col_ t =? w_ t then let t := t <| col_ := 0 |> <| row_ := u16 (row_ t + 1) |> in (row_ t =? h_ t, t) else (false, t).

(** The same rectangle, [n] pixels on. *)
Definition moved (n : Z) (t t' : Transfer) : Prop :=
  RectOk t' /\ x_ t' = x_ t /\ y_ t' = y_ t /\ w_ t' = w_ t /\ h_ t' = h_ t /\ pos t' = pos t + n.

(** The position past the last pixel. *)
Definition ended (t : Transfer) : Transfer := t <| col_ := 0 |> <| row_ := h_ t |>.

Lemma pos_advance t :
  RectOk t -> Inside t ->
  let '(last, t') := advance t in
  moved 1 t t' /\ (if last then pos t + 1 = w_ t * h_ t /\ t' = ended t else Inside t' /\ pos t + 1 < w_ t * h_ t).
Proof.
  intros [] (Hw & Hh & Hc & Hr). unfold advance, moved, Inside. cbn [col_ w_ upd]. rewrite (u16_id (col_ t + 1)) by lia.
  unfold pos. destruct (Z.eqb_spec (col_ t + 1) (w_ t)) as [Ec|Ec].
  - cbn [row_ h_ upd]. rewrite u16_id by lia. cbn. split; [split_and!; try done; [split; cbn; lia|nia]|].
    destruct (Z.eqb_spec (row_ t + 1) (h_ t)) as [Er|Er]; [split; [nia|unfold ended; cbn; by rewrite Er]|]. split_and!; try lia. nia.
  - cbn. split; [split_and!; try done; [split; cbn; lia|lia]|]. split_and!; try lia. nia.
Qed.

Lemma pos_range t : RectOk t -> Inside t -> 0 <= pos t < w_ t * h_ t.
Proof. intros [] (? & ? & ? & ?). unfold pos. nia. Qed.

(** Two pixels of a transfer in progress: it goes on, or it has ended with one of
    them. *)
Lemma going_pair t :
  RectOk t -> Going t ->
  let '(last, t1) := advance t in
  let '(last2, t2) := advance t1 in
  if last then words_left t = 1 /\ moved 1 t t1 /\ t1 = ended t /\ pos t + 1 = w_ t * h_ t
  else if last2 then words_left t = 1 /\ moved 1 t t1 /\ Inside t1 /\ moved 2 t t2 /\ t2 = ended t /\ pos t + 2 = w_ t * h_ t
  else moved 1 t t1 /\ Inside t1 /\ moved 2 t t2 /\ Going t2 /\ words_left t2 = words_left t - 1 /\ 1 <= words_left t2.
Proof.
  intros Hok [Hin He]. pose proof (pos_advance t Hok Hin) as A. pose proof (pos_range t Hok Hin) as Hp.
  destruct (advance t) as [last t1]. destruct A as ((Hok1 & Hx1 & Hy1 & Hw1 & Hh1 & Hp1) & A).
  destruct last; [destruct (advance t1) as [last2 t2]|].
  { destruct A as [A Ht]. split_and!; [|by split_and!|done|done]. unfold words_left. rewrite <- A. dlia. }
  destruct A as [Hin1 Hlt]. pose proof (pos_advance t1 Hok1 Hin1) as B. destruct (advance t1) as [last2 t2].
  destruct B as ((Hok2 & Hx2 & Hy2 & Hw2 & Hh2 & Hp2) & B).
  assert (Hm : moved 2 t t2) by (split_and!; [done|congruence..|lia]).
  assert (Hm1 : moved 1 t t1) by done.
  rewrite Hw1, Hh1 in B. destruct last2.
  - destruct B as [B Ht]. assert (t2 = ended t).
    { rewrite Ht. unfold ended. destruct t1 as [? ? ? ? ? ?], t as [? ? ? ? ? ?]. cbn in *. congruence. }
    split_and!; try done; [|lia]. unfold words_left. replace (w_ t * h_ t - pos t) with 2 by lia. done.
  - destruct B as [Hin2 Hlt2]. split_and!; try done.
    + split; [done|]. replace (pos t2) with (pos t + 2) by lia. by rewrite Z.even_add, He.
    + unfold words_left. rewrite Hw2, Hh2, Hw1, Hh1, Hp2, Hp1. dlia.
    + unfold words_left. rewrite Hw2, Hh2, Hw1, Hh1, Hp2, Hp1. dlia.
Qed.

(** What an upload does with its pixel. *)
Definition store_pixel (pixel : Z) (s : St) : St :=
  let t := vram_write s in
  let wx := Z.rem (x_ t + col_ t) 1024 in
  let wy := Z.rem (y_ t + row_ t) 512 in
  if negb (check_mask_bit (mode s) =? 0) && has (gr_vram_read wx wy (world s)) 0x8000 then s
  else on_world (gr_vram_write wx wy (if negb (set_mask_bit (mode s) =? 0) then Z.lor pixel 0x8000 else pixel)) s.

Lemma store_outside p s : outside s (store_pixel p s).
Proof. unfold store_pixel. case_if; [apply outside_refl|apply outside_world]. Qed.

Lemma store_write p s : vram_write (store_pixel p s) = vram_write s.
Proof. by destruct (store_outside p s) as (? & ? & ->). Qed.

Lemma write_pixel_advance p s :
  vram_write_pixel p s = (fst (advance (vram_write s)), (store_pixel p s) <| vram_write := snd (advance (vram_write s)) |>).
Proof.
  unfold vram_write_pixel, advance. cbv zeta. fold (store_pixel p s). rewrite !store_write. cbn.
  case_if; [|done]. done.
Qed.

Lemma read_pixel_advance i v s :
  gpuread_pixel i v s =
  let t := vram_read s in
  let value := Z.lor v (Z.shiftl (gr_vram_read (Z.rem (x_ t + col_ t) 1024) (Z.rem (y_ t + row_ t) 512) (world s)) (i * 16)) in
  let last := fst (advance t) in
  (value, last, let s := s <| vram_read := snd (advance t) |> in if last then s <| vram_read_active := false |> else s).
Proof. unfold gpuread_pixel, advance. cbv zeta. cbn. case_if; [|done]. cbn. by case_if. Qed.

(** An upload word: its two pixels are stored at the next two positions; the
    transfer ends with the pixel that is the last one of the rectangle, never by
    the count of remaining words. *)
Definition word_stored (val : Z) (s : St) : bool * bool * St * St :=
  let '(last, t1) := advance (vram_write s) in
  let s1 := (store_pixel (u16 (Z.shiftr val 0)) s) <| vram_write := t1 |> in
  let '(last2, t2) := advance t1 in
  (last, last2, s1, (store_pixel (u16 (Z.shiftr val 16)) s1) <| vram_write := t2 |>).

Lemma stored_remaining p s : vram_write_remaining (store_pixel p s) = vram_write_remaining s.
Proof. by destruct (store_outside p s) as (? & ? & ->). Qed.

Lemma write_word_spec val s :
  Inv s -> gp0_state (fifo s) = GP0_VRAM_WRITE ->
  write_vram_word val s =
  let '(last, last2, s1, s2) := word_stored val s in
  if last then upload_done s1 else if last2 then upload_done s2
  else s2 <| vram_write_remaining := vram_write_remaining s - 1 |>.
Proof.
  intros [] Hst. destruct (i_writing0 Hst) as [Hg Hrem]. pose proof (going_pair _ i_write0 Hg) as P.
  unfold write_vram_word, word_stored. rewrite write_pixel_advance. destruct (advance (vram_write s)) as [last t1] eqn:E1.
  cbn [fst snd]. set (s1 := (store_pixel (u16 (Z.shiftr val 0)) s) <| vram_write := t1 |>).
  destruct last; [destruct (advance t1); done|]. rewrite write_pixel_advance. change (vram_write s1) with t1.
  destruct (advance t1) as [last2 t2] eqn:E2. cbn [fst snd].
  set (s2 := (store_pixel (u16 (Z.shiftr val 16)) s1) <| vram_write := t2 |>).
  destruct last2; [done|]. destruct P as (_ & _ & _ & _ & Hl & H1).
  assert (Hr : vram_write_remaining s2 = vram_write_remaining s).
  { transitivity (vram_write_remaining s1); apply stored_remaining. }
  clearbody s2. cbv zeta. cbn [vram_write_remaining upd]. rewrite Hr, u32_id by lia. case_if; [lia|done].
Qed.

(** ** The invariant is kept *)

Lemma inv_mode m s : ModeOk m -> Inv s -> Inv (s <| mode := m |>).
Proof. by intros ? []. Qed.
Lemma inv_display d s : DisplayOk d -> Inv s -> Inv (s <| display := d |>).
Proof. by intros ? []. Qed.
Lemma inv_polyline p s : PolylineOk p -> Inv s -> Inv (s <| polyline := p |>).
Proof. by intros ? []. Qed.
Lemma inv_counts c s : Inv s -> Inv (s <| counts := c |>).
Proof. by intros []. Qed.
Lemma inv_world f s : Inv s -> Inv (on_world f s).
Proof. apply inv_outside, outside_world. Qed.
Lemma inv_wide wd s : Inv s -> Inv (s <| wide := wd |>).
Proof. apply inv_outside, outside_wide. Qed.
Lemma inv_latch v s : Inv s -> Inv (s <| gpuread_latch := v |>).
Proof. by intros []. Qed.

(** A new command buffer, no upload being in progress. *)
Lemma inv_fifo f s : FifoOk f -> gp0_state f <> GP0_VRAM_WRITE -> Inv s -> Inv (s <| fifo := f |>).
Proof. intros ? ? []. by split. Qed.

Lemma inv_idle s : Inv s -> Inv (idle s).
Proof. intros Hi. apply inv_fifo; [|done|done]. by destruct Hi as [? ? [] ? ? ?]. Qed.

(** The end of an upload. *)
Lemma inv_ended t s : RectOk t -> Inv s -> Inv (upload_done (s <| vram_write := t |>)).
Proof.
  intros Ht Hi. unfold upload_done, announce_upload. cbv zeta. apply inv_world. apply inv_idle in Hi. destruct Hi. by split.
Qed.

Lemma store_inv p s : Inv s -> Inv (store_pixel p s).
Proof. apply inv_outside, store_outside. Qed.

Lemma write_word_inv val s : Inv s -> gp0_state (fifo s) = GP0_VRAM_WRITE -> Inv (write_vram_word val s).
Proof.
  intros Hi Hst. rewrite (write_word_spec val s Hi Hst). destruct (i_writing s Hi Hst) as [Hg Hrem].
  pose proof (going_pair _ (i_write s Hi) Hg) as P. unfold word_stored.
  destruct (advance (vram_write s)) as [last t1], (advance t1) as [last2 t2].
  set (s1 := store_pixel (u16 (Z.shiftr val 0)) s). assert (Hi1 : Inv s1) by by apply store_inv.
  assert (Ho1 : outside s s1) by apply store_outside. clearbody s1.
  destruct last; [apply inv_ended; [apply P|done]|].
  pose proof (store_outside (u16 (Z.shiftr val 16)) (s1 <| vram_write := t1 |>)) as Ho2.
  set (s2 := store_pixel (u16 (Z.shiftr val 16)) (s1 <| vram_write := t1 |>)) in *.
  assert (Ho : exists wd w, s2 = s <| vram_write := t1 |> <| wide := wd |> <| world := w |>).
  { destruct Ho1 as (? & ? & ->), Ho2 as (wd & w & ->). by exists wd, w. }
  clearbody s2. destruct Ho as (wd & w & ->). destruct last2.
  - assert (Hi2 : Inv (s <| wide := wd |> <| world := w |>)) by (apply (inv_outside s); [by exists wd, w|done]).
    destruct P as (_ & _ & _ & (Hok & _) & _). pose proof (inv_ended t2 _ Hok Hi2) as Q. exact Q.
  - destruct P as (_ & _ & (Hok & _) & Hg2 & Hl & H1). destruct Hi. split; cbn; try done; [lia|]. intros _. split; [done|lia].
Qed.

Lemma fifo_idle f : FifoOk f -> FifoOk (f <| gp0_state := GP0_IDLE |>).
Proof. by intros []. Qed.

Lemma placed_range v (s : St) :
  ModeOk (mode s) -> -2048 <= fst (placed (parse_vertex v) s) < 2048 /\ -2048 <= snd (placed (parse_vertex v) s) < 2048.
Proof.
  intros []. pose proof (sign_extend_11 v). pose proof (sign_extend_11 (Z.shiftr v 16)). unfold placed, parse_vertex. cbn. lia.
Qed.

Lemma polyline_at_inv val f (s : St) : Inv s -> Inv (polyline_at (placed (parse_vertex val) s) 1 (on_world f s)).
Proof.
  intros Hi. pose proof (placed_range val s (i_mode s Hi)) as [? ?]. apply inv_polyline; [|by apply inv_world].
  destruct (i_poly s Hi). by split.
Qed.

Lemma polyline_mono_inv val s : Inv s -> Inv (polyline_mono_word val s).
Proof.
  intros Hi. unfold polyline_mono_word. case_if; [by apply inv_idle|]. cbv zeta.
  case_if; [by apply polyline_at_inv|]. exact (polyline_at_inv val (fun w => w) s Hi).
Qed.

Lemma polyline_shaded_inv val s : Inv s -> Inv (polyline_shaded_word val s).
Proof.
  intros Hi. unfold polyline_shaded_word. cbv zeta. pose proof (i_poly s Hi) as Hp.
  assert (Hk : forall s', polyline_color (polyline s') = polyline_color (polyline s) -> Inv s' ->
    Inv (s' <| polyline := (polyline s') <| polyline_prev_c := polyline_color (polyline s') |> |>)).
  { intros s' Hc Hs. apply inv_polyline; [|done]. rewrite Hc. destruct (i_poly s' Hs), Hp. by split. }
  case_if; [apply Hk; [done|exact (polyline_at_inv val (fun w => w) s Hi)]|]. case_if; [case_if; [by apply inv_idle|]|].
  - apply inv_polyline; [|done]. pose proof (rgb555_range (Z.land val 0xFFFFFF)). destruct Hp. by split.
  - apply Hk; [done|]. by apply polyline_at_inv.
Qed.

Lemma transfer_rect_ok (s : St) : RectOk (transfer_rect s) /\ Going (transfer_rect s).
Proof.
  unfold transfer_rect. cbv zeta.
  pose proof (land_upto (cmd 1 s) 0x3FF 10 ltac:(lia) eq_refl). pose proof (land_upto (Z.shiftr (cmd 1 s) 16) 0x1FF 9 ltac:(lia) eq_refl).
  pose proof (land_upto (cmd 2 s) 0x3FF 10 ltac:(lia) eq_refl). pose proof (land_upto (Z.shiftr (cmd 2 s) 16) 0x1FF 9 ltac:(lia) eq_refl).
  split; [split|split; [split_and!|]]; cbn; try (repeat case_if; lia). done.
Qed.

Lemma start_words (t : Transfer) : RectOk t -> Going t -> pos t = 0 ->
  Z.quot (u32 (w_ t * h_ t) + 1) 2 = words_left t /\ 1 <= words_left t <= 0x40000.
Proof.
  intros [] [(? & ? & ? & ?) _] Hp. unfold words_left. rewrite Hp. assert (1 <= w_ t * h_ t <= 1024 * 512) by nia.
  rewrite u32_id by lia. split; dlia.
Qed.

Lemma upload_inv s : Inv s -> Inv (gp0_exec_cpu_to_vram s).
Proof.
  intros Hi. unfold gp0_exec_cpu_to_vram. cbv zeta. destruct (transfer_rect_ok s) as [Hok Hg].
  destruct (start_words _ Hok Hg eq_refl) as [Hq Hr]. cbn [vram_write_remaining upd]. rewrite Hq. case_if; [|lia].
  destruct Hi. split; cbn; try done; [|lia]. by destruct i_fifo0.
Qed.

Lemma readback_inv s : Inv s -> Inv (gp0_exec_vram_to_cpu s).
Proof. intros []. destruct (transfer_rect_ok s). by split. Qed.

#[local] Ltac fields := split; cbn; try done; first [by apply (land_upto _ 1 1)|by apply (land_upto _ 3 2)
  |by apply (land_upto _ 15 4)|by apply (land_upto _ 0x3FF 10)|by apply (land_upto _ 0x1FF 9)|by apply (land_upto _ 0xFFF 12)
  |by apply (land_upto _ 0xFFFFF 20)|apply sign_extend_11|idtac].

Lemma environment_inv op f s :
  drawing op = false -> gp0_handler op = Some f -> Inv s -> Inv (f s).
Proof.
  intros Hd Hf Hi. pose proof (i_mode s Hi) as []. revert Hd Hf. unfold gp0_handler, drawing, between.
  repeat lazymatch goal with |- _ -> (if ?b then Some ?g else _) = _ -> _ => destruct b eqn:?Eb; [intros Hd [= <-]|] end; [..|done];
    try (exfalso; lia); clear Hd; try done.
  - by apply inv_mode; [fields|].
  - by apply inv_world, inv_mode; [fields|].
  - apply (inv_outside _ _ (sync_outside _)). by apply inv_world, inv_mode; [fields|].
  - apply (inv_outside _ _ (sync_outside _)). by apply inv_world, inv_mode; [fields|].
  - by apply inv_world, inv_mode; [fields|].
  - by apply inv_world, inv_mode; [fields|].
  - by apply upload_inv.
  - by apply readback_inv.
Qed.

Lemma handler_inv op f s : gp0_handler op = Some f -> Inv s -> Inv (f s).
Proof.
  destruct (drawing op) eqn:Hd; [|by apply environment_inv]. intros Hf Hi. by apply (inv_drawn s), Hi; [apply (handler_drawn op)].
Qed.

(** The state a handler runs in: counted, with the background phase noted and the
    renderer told whether the primitive is backdrop. *)
Definition begun (s s1 : St) : Prop :=
  exists c wd b, s1 = s <| counts := c |> <| wide := wd |> <| world := gr_prim_in_backdrop b (world s) |>.

Lemma begun_inv s s1 : begun s s1 -> Inv s -> Inv s1.
Proof. intros (c & wd & b & ->) []. by split. Qed.

Lemma phase_cached s : cached s (bg_phase_sync s).
Proof. unfold bg_phase_sync. case_if; [by eexists|apply cached_refl]. Qed.
Lemma note_cached op s : cached s (ws_bg_phase_note op s).
Proof. unfold ws_bg_phase_note. cbv zeta. destruct (phase_cached s) as [wd ->]. case_if; by eexists. Qed.
Lemma in_backdrop_cached s : cached s (psx_ws_prim_in_backdrop s).2.
Proof. unfold psx_ws_prim_in_backdrop, ws_bg_phase_over. cbv zeta. destruct (phase_cached s) as [wd ->]. case_if; by eexists. Qed.

Lemma execute_begun s : exists s1, begun s s1 /\
  gp0_execute_command s = match gp0_handler (u8 (Z.land (Z.shiftr (cmd 0 s) 24) 0xFF)) with Some f => Some (f s1) | None => None end.
Proof.
  unfold gp0_execute_command. cbv zeta. set (op := u8 _). eexists. split; [|reflexivity].
  destruct (note_cached op (s <| counts := count_opcode op (counts s) |>)) as [wd ->]. unfold announce_backdrop.
  match goal with |- context [psx_ws_prim_in_backdrop ?x] => pose proof (in_backdrop_cached x) as P; destruct (psx_ws_prim_in_backdrop x) as [b s2] end.
  cbn [snd] in P. destruct P as [wd' ->]. by eexists _, wd', b.
Qed.

Lemma execute_inv s s' : Inv s -> gp0_execute_command s = Some s' -> Inv s'.
Proof.
  intros Hi. destruct (execute_begun s) as (s1 & Hb & ->). destruct (gp0_handler _) as [f|] eqn:E; [|done]. intros [= <-].
  by apply (handler_inv _ _ _ E), (begun_inv s).
Qed.

Definition opcode_of (val : Z) : Z := u8 (Z.land (Z.shiftr val 24) 0xFF).

Lemma first_word_inv val s s' : is_u32 val -> gp0_state (fifo s) = GP0_IDLE -> Inv s -> first_word val s = Some s' -> Inv s'.
Proof.
  intros Hv Hst Hi. unfold first_word. cbv zeta. fold (opcode_of val). pose proof (word_count_range (opcode_of val)) as Hn.
  pose proof (i_fifo s Hi) as [].
  case_if; [done|]. case_if; [intros [= <-]|].
  - apply inv_counts, inv_fifo; [by split; cbn; try done; case_if|by cbn; case_if|].
    apply (inv_outside (s <| polyline := (polyline s) <| polyline_semi_trans := Z.land (Z.shiftr val 25) 1 |>
      <| polyline_color := rgb888_to_rgb555 (Z.land val 0xFFFFFF) |> <| polyline_prev_c := rgb888_to_rgb555 (Z.land val 0xFFFFFF) |>
      <| polyline_has_prev := 0 |> |>)); [apply outside_world|].
    apply inv_polyline; [|done]. pose proof (rgb555_range (Z.land val 0xFFFFFF)). pose proof (i_poly s Hi) as []. fields.
  - assert (Hb : Forall is_u32 (aset (gp0_cmd_buf (fifo s)) 0 val)) by by apply aset_Forall.
    case_if.
    + apply execute_inv. set (F := (fifo s) <| gp0_cmd_buf := aset (gp0_cmd_buf (fifo s)) 0 val |>
        <| gp0_cmd_source_addr := gp0_next_source_addr (fifo s) |> <| gp0_words_collected := 1 |> <| gp0_words_needed := 1 |>).
      assert (Hf : FifoOk F) by (split; cbn; try done; [by rewrite length_aset|by rewrite Hst]).
      assert (Hf' : gp0_state F <> GP0_VRAM_WRITE) by (cbn; by rewrite Hst). exact (inv_fifo F s Hf Hf' Hi).
    + intros [= <-]. apply inv_fifo; [|done|done]. split; cbn; try done; [by rewrite length_aset|lia|lia|].
      intros _. rewrite aget_aset_eq by lia. fold (opcode_of val). lia.
Qed.

Lemma collect_word_inv val s s' : is_u32 val -> gp0_state (fifo s) = GP0_COLLECTING -> Inv s -> collect_word val s = Some s' -> Inv s'.
Proof.
  intros Hv Hst Hi. unfold collect_word. cbv zeta. cbn [fifo gp0_words_needed gp0_words_collected upd].
  pose proof (i_fifo s Hi) as []. destruct (fo_collecting0 Hst) as [Hc Hn].
  assert (Hb : Forall is_u32 (aset (gp0_cmd_buf (fifo s)) (gp0_words_collected (fifo s)) val)) by by apply aset_Forall.
  set (F := (fifo s) <| gp0_cmd_buf := aset (gp0_cmd_buf (fifo s)) (gp0_words_collected (fifo s)) val |>
    <| gp0_words_collected := gp0_words_collected (fifo s) + 1 |>).
  assert (Hl : length (gp0_cmd_buf F) = 16%nat) by by cbn; rewrite length_aset.
  case_if.
  - apply execute_inv. assert (Hf : FifoOk (F <| gp0_state := GP0_IDLE |>)) by (split; cbn; try done; lia).
    assert (Hf' : gp0_state (F <| gp0_state := GP0_IDLE |>) <> GP0_VRAM_WRITE) by done. exact (inv_fifo _ s Hf Hf' Hi).
  - intros [= <-]. apply inv_fifo; [|by cbn; rewrite Hst|done]. split; cbn; try done; [lia|].
    intros _. rewrite aget_aset_ne by lia. lia.
Qed.

Lemma gp0_inv val s s' : is_u32 val -> Inv s -> gpu_write_gp0 val s = Some s' -> Inv s'.
Proof.
  intros Hv Hi. unfold gpu_write_gp0. cbv zeta. apply (inv_counts ((counts s) <| gp0_write_count := u64 (gp0_write_count (counts s) + 1) |>)) in Hi.
  set (s1 := s <| counts := _ |>) in *. change (gp0_state (fifo s)) with (gp0_state (fifo s1)).
  destruct (gp0_state (fifo s1)) eqn:E.
  - by apply first_word_inv.
  - by apply collect_word_inv.
  - intros [= <-]. by apply write_word_inv.
  - intros [= <-]. by apply polyline_mono_inv.
  - intros [= <-]. by apply polyline_shaded_inv.
Qed.

Lemma reset_inv b s : Inv s -> Inv (gpu_reset_state b s).
Proof.
  intros Hi. unfold gpu_reset_state. cbv zeta. apply (inv_world (if b then fun w => gr_init (vram_clear w) else gr_init)) in Hi.
  destruct Hi as [? ? [] ? ? ? ? ? ? ?], b; split; cbn; try done; by split.
Qed.

Lemma start_inv w : Inv (start w).
Proof. split; try done; split; cbn; try done. by repeat constructor. Qed.

Lemma gp1_inv val s s' : Inv s -> gpu_write_gp1 val s = Some s' -> Inv s'.
Proof.
  intros Hi. unfold gpu_write_gp1, between. cbv zeta. pose proof (i_display s Hi) as [].
  repeat lazymatch goal with |- (if ?b then Some ?g else _) = _ -> _ => destruct b eqn:?Eb; [intros [= <-]|] end; [..|done].
  - by apply reset_inv.
  - destruct Hi as [? ? [] ? ? ? ? ? ? ?]. by split.
  - by apply inv_display; [split|].
  - by apply inv_display; [fields|].
  - by apply inv_display; [fields|].
  - unfold gp1_display_area_start. cbv zeta. assert (Hd : Inv (s <| display := (display s) <| display_area_x := Z.land val 0x3FF |>
      <| display_area_y := Z.land (Z.shiftr val 10) 0x1FF |> |>)) by (apply inv_display; [fields|done]).
    revert Hd. generalize (s <| display := (display s) <| display_area_x := Z.land val 0x3FF |>
      <| display_area_y := Z.land (Z.shiftr val 10) 0x1FF |> |>). intros s1 Hd. unfold ws_note_display_base. cbv zeta.
    destruct (bool_decide _); [done|by apply inv_wide].
  - by apply inv_display; [fields|].
  - by apply inv_display; [fields|].
  - by apply inv_display; [fields|].
  - unfold gp1_get_info. cbv zeta. repeat case_if; try done; by apply inv_latch.
Qed.

Lemma lcf_flip d : DisplayOk d -> DisplayOk (d <| lcf := Z.lxor (lcf d) 1 |>).
Proof. intros []. split; cbn; try done. apply (lxor_range 1); lia. Qed.

Lemma poll_inv s : Inv s -> Inv (gpu_read_gpustat s).2.
Proof.
  intros Hi. unfold gpu_read_gpustat, GPUSTAT_POLL_VBLANK_THRESHOLD. cbv zeta. cbn [snd].
  pose proof (i_poll s Hi) as Hp. unfold GPUSTAT_POLL_VBLANK_THRESHOLD in Hp.
  cbn [gpustat_poll_count upd]. rewrite u32_id by lia. case_if.
  - apply inv_world, inv_world. pose proof (lcf_flip _ (i_display s Hi)). by destruct Hi.
  - destruct Hi. split; cbn; try done. unfold GPUSTAT_POLL_VBLANK_THRESHOLD. lia.
Qed.

(** The position of the read-back moves. *)
Lemma inv_reading t b s : RectOk t -> (b = true -> Going t) -> Inv s -> Inv (s <| vram_read := t |> <| vram_read_active := b |>).
Proof. by intros ? ? []. Qed.

Lemma gpuread_inv s : Inv s -> Inv (gpu_read_gpuread s).2.
Proof.
  intros Hi. unfold gpu_read_gpuread. destruct (vram_read_active s) eqn:Ea; cbn [negb]; [|done].
  pose proof (i_reading s Hi Ea) as Hg. pose proof (going_pair _ (i_read s Hi) Hg) as P.
  rewrite read_pixel_advance. cbv zeta. destruct (advance (vram_read s)) as [last t1] eqn:E1. cbn [fst snd].
  destruct last; [|rewrite read_pixel_advance; cbv zeta; change (vram_read (s <| vram_read := t1 |>)) with t1].
  - destruct (advance t1), P as (_ & (Hok & _) & _). apply inv_latch. by apply inv_reading.
  - destruct (advance t1) as [last2 t2] eqn:E2. cbn [fst snd]. apply inv_latch. destruct last2.
    + destruct P as (_ & _ & _ & (Hok & _) & _). by apply (inv_reading t2 false s).
    + destruct P as (_ & _ & (Hok & _) & Hg2 & _). pose proof (inv_reading t2 true s Hok (fun _ => Hg2) Hi) as Q.
      rewrite <- Ea in Q. exact Q.
Qed.

Lemma vblank_inv s : Inv s -> Inv (gpu_vblank_tick s).
Proof.
  intros Hi. pose proof (lcf_flip _ (i_display s Hi)) as Hd. unfold gpu_vblank_tick. cbv zeta.
  set (s1 := s <| display := (display s) <| lcf := Z.lxor (lcf (display s)) 1 |> |> <| gpustat_poll_count := 0 |>).
  assert (Hi1 : Inv s1) by by destruct Hi. clearbody s1. destruct vblank_callback; by repeat apply inv_world.
Qed.

Lemma source_inv a s : is_u32 a -> Inv s -> Inv (gpu_set_gp0_source a s).
Proof.
  intros Ha Hi. pose proof (i_fifo s Hi) as Hf. unfold gpu_set_gp0_source. destruct Hi. split; try done. by destruct Hf.
Qed.

(** ** Reachable states *)

(** What the rest of the machine does to the processor; [Elsewhere] is anything
    that happens to the rest of the world, [Reconfigure] a widescreen setting. *)
Inductive Op :=
| Gp0 (val : Z) | Gp1 (val : Z) | ReadStat | ReadData | Vblank | Source (addr : Z) | Elsewhere (f : W -> W) | Reconfigure (wd : Wide).

Definition exec (o : Op) (s : St) : option St :=
  match o with
  | Gp0 v => gpu_write_gp0 v s
  | Gp1 v => gpu_write_gp1 v s
  | ReadStat => Some (gpu_read_gpustat s).2
  | ReadData => Some (gpu_read_gpuread s).2
  | Vblank => Some (gpu_vblank_tick s)
  | Source a => Some (gpu_set_gp0_source a s)
  | Elsewhere f => Some (on_world f s)
  | Reconfigure wd => Some (s <| wide := wd |>)
  end.

Fixpoint run (ops : list Op) (s : St) : option St :=
  match ops with [] => Some s | o :: ops => s' ← exec o s; run ops s' end.

Definition typed (o : Op) : Prop := match o with Gp0 v | Source v => is_u32 v | _ => True end.

Lemma guest_op_inv o s s' : typed o -> Inv s -> exec o s = Some s' -> Inv s'.
Proof.
  intros Ht Hi. destruct o as [v|v| | | |a|f|wd]; cbn; [by apply gp0_inv|by apply gp1_inv|..]; intros [= <-].
  - by apply poll_inv.
  - by apply gpuread_inv.
  - by apply vblank_inv.
  - by apply source_inv.
  - by apply inv_world.
  - by apply inv_wide.
Qed.

Lemma run_inv ops s s' : Forall typed ops -> Inv s -> run ops s = Some s' -> Inv s'.
Proof.
  intros Ho. revert s. induction Ho as [|o ops Ht Ho IH]; cbn; intros s Hi; [by intros [= <-]|].
  destruct (exec o s) as [s1|] eqn:E; cbn; [|done]. apply IH. by apply (guest_op_inv o s).
Qed.

(** C30: whatever words, reads, blanks and settings the machine sends from power-on,
    as long as no fatal halt stops it: every register is in its field's range; a
    command being collected has its opcode's length, at most 12 words, and fewer
    words than that in the 16-word buffer, so no store leaves it; a transfer in
    progress stands on an even pixel inside its rectangle and the words an upload
    still waits for are exactly the remaining pixels, two to a word; and neither
    the GPU interrupt flag nor the interlace field is ever set. *)
Theorem gpu_reachable_safe w ops s : Forall typed ops -> run ops (gpu_init (start w)) = Some s -> Inv s.
Proof. intros Ho Hr. exact (run_inv ops _ s Ho (reset_inv true _ (start_inv w)) Hr). Qed.

End Laws.
End GpuLaws.
