(* ===== verification/GpuStream.v ===== *)
(** * GP0 as a stream of items

    What the words on the GP0 port mean, read as a sequence of whole items: a
    command with its parameters, an image upload with its pixels, a polyline with
    its vertices.  The word-by-word processor of Gpu.v implements it. *)

From S2P Require Import Prelude Gpu GpuLaws.

Module GpuStream.
Import Gpu GpuLaws.

Section Stream.
Context {W : Type} `{R : Renderer W} `{H : Host W}.
Abbreviation St := (State W).

(** The words of a list, one after the other. *)
Fixpoint stream (ws : list Z) (s : St) : option St :=
  match ws with [] => Some s | v :: ws => s' ← gpu_write_gp0 v s; stream ws s' end.

Lemma stream_app a b s : stream (a ++ b) s = (s' ← stream a s; stream b s').
Proof. revert s. induction a as [|v a IH]; intros s; cbn; [done|]. destruct (gpu_write_gp0 v s); cbn; [apply IH|done]. Qed.

Definition count_words (n : Z) (c : Counts) : Counts := c <| gp0_write_count := u64 (gp0_write_count c + n) |>.

Lemma count_words_add a b c : count_words b (count_words a c) = count_words (a + b) c.
Proof.
  assert (Hu : forall x, u64 (u64 (x + a) + b) = u64 (x + (a + b))) by (intros x; unfold u64; rewrite Zplus_mod_idemp_l; f_equal; lia).
  unfold count_words. cbn. by rewrite Hu.
Qed.

Lemma write_in_state v s :
  gpu_write_gp0 v s =
  let s1 := s <| counts := count_words 1 (counts s) |> in
  match gp0_state (fifo s) with
  | GP0_VRAM_WRITE => Some (write_vram_word v s1)
  | GP0_POLYLINE_MONO => Some (polyline_mono_word v s1)
  | GP0_POLYLINE_SHADED => Some (polyline_shaded_word v s1)
  | GP0_COLLECTING => collect_word v s1
  | GP0_IDLE => first_word v s1
  end.
Proof. done. Qed.

(** ** A command of fixed length *)

(** The words of one command. *)
Definition Packet (p : list Z) : Prop :=
  exists v rest, p = v :: rest /\ Z.of_nat (length p) = gp0_command_word_count (opcode_of v).

(** The processor with the command [p] complete, about to execute it. *)
Definition latched (p : list Z) (s : St) : St :=
  let n := Z.of_nat (length p) in
  s <| counts := count_words n (counts s) |>
    <| fifo := mkFifo GP0_IDLE (p ++ drop (length p) (gp0_cmd_buf (fifo s))) n n
                 (gp0_next_source_addr (fifo s)) (gp0_next_source_addr (fifo s)) |>.

(** With [p] collected so far out of [n] words. *)
Definition collecting (n : Z) (p : list Z) (s : St) : St :=
  let k := Z.of_nat (length p) in
  s <| counts := count_words k (counts s) |>
    <| fifo := mkFifo GP0_COLLECTING (p ++ drop (length p) (gp0_cmd_buf (fifo s))) k n
                 (gp0_next_source_addr (fifo s)) (gp0_next_source_addr (fifo s)) |>.

Lemma buffer_next (p buf : list Z) v :
  (length p < length buf)%nat -> aset (p ++ drop (length p) buf) (Z.of_nat (length p)) v = (p ++ [v]) ++ drop (length (p ++ [v])) buf.
Proof.
  intros Hl. unfold aset. rewrite Nat2Z.id, length_app. cbn. rewrite Nat.add_1_r.
  destruct (lookup_lt_is_Some_2 buf (length p) Hl) as [x Hx]. rewrite (drop_S _ _ _ Hx).
  rewrite insert_app_r_alt by lia. by rewrite Nat.sub_diag, <- app_assoc.
Qed.

Lemma collect_next n p v (s : St) :
  (length p < length (gp0_cmd_buf (fifo s)))%nat ->
  gpu_write_gp0 v (collecting n p s) =
  if n <=? Z.of_nat (length p) + 1
  then gp0_execute_command ((collecting n (p ++ [v]) s) <| fifo := (fifo (collecting n (p ++ [v]) s)) <| gp0_state := GP0_IDLE |> |>)
  else Some (collecting n (p ++ [v]) s).
Proof.
  intros Hl. rewrite write_in_state. cbv zeta. change (gp0_state (fifo (collecting n p s))) with GP0_COLLECTING. cbn match.
  unfold collect_word. cbv zeta.
  pose proof (buffer_next p _ v Hl) as Hb. unfold collecting, idle. cbn [fifo gp0_cmd_buf gp0_words_collected gp0_words_needed upd counts].
  rewrite Hb, length_app, count_words_add. cbn [length]. rewrite Nat2Z.inj_add. done.
Qed.

Lemma collect_rest n rest : forall p (s : St),
  length (gp0_cmd_buf (fifo s)) = 16%nat -> n <= 16 -> rest <> [] -> Z.of_nat (length (p ++ rest)) = n ->
  stream rest (collecting n p s) = gp0_execute_command (latched (p ++ rest) s).
Proof.
  induction rest as [|v rest IH]; intros p s Hb Hn Hne Hl; [done|]. cbn [stream].
  pose proof Hl as Hl'. rewrite length_app in Hl'. cbn in Hl'. rewrite collect_next by lia. destruct rest as [|v' rest].
  - case_if; [|cbn in Hl'; lia]. subst n. change (_ <| fifo := _ |>) with (latched (p ++ [v]) s). by destruct (gp0_execute_command _).
  - case_if; [cbn in Hl'; lia|]. cbn [mbind option_bind].
    rewrite IH; [by rewrite <- app_assoc|done|done|done|]. by rewrite <- app_assoc.
Qed.

(** The words of a command, and only they, reach its handler, which runs once. *)
Lemma packet_executes p s :
  Packet p -> gp0_state (fifo s) = GP0_IDLE -> length (gp0_cmd_buf (fifo s)) = 16%nat ->
  stream p s = gp0_execute_command (latched p s).
Proof.
  intros (v & rest & -> & Hn) Hst Hb. pose proof (word_count_range (opcode_of v)) as Hr. cbn [length] in Hn.
  cbn [stream]. rewrite write_in_state, Hst. cbv zeta. unfold first_word. cbv zeta. fold (opcode_of v).
  case_if; [lia|]. case_if; [lia|].
  assert (H0 : aset (gp0_cmd_buf (fifo s)) 0 v = [v] ++ drop 1 (gp0_cmd_buf (fifo s))).
  { by destruct (gp0_cmd_buf (fifo s)) as [|x b]. }
  destruct rest as [|v' rest].
  - cbn in Hn. case_if; [|lia]. cbn [fifo upd gp0_cmd_buf]. rewrite H0.
    match goal with |- (_ ← gp0_execute_command ?a; stream [] _) = gp0_execute_command ?b =>
      replace a with b by (unfold latched; cbn; by rewrite Hst); by destruct (gp0_execute_command b) end.
  - case_if; [cbn in Hn; lia|]. cbn [mbind option_bind]. 
    transitivity (stream (v' :: rest) (collecting (gp0_command_word_count (opcode_of v)) [v] s)).
    + unfold collecting. cbn [fifo upd gp0_cmd_buf]. rewrite H0. done.
    + apply (collect_rest _ (v' :: rest) [v]); [done|lia|done|exact Hn].
Qed.

(** ** An image upload *)

(** Pixel [k] of a rectangle, row by row, the mask bits respected. *)
Definition store_at (m : Mode) (t : Transfer) (k p : Z) (w : W) : W :=
  let wx := (x_ t + k mod w_ t) mod 1024 in
  let wy := (y_ t + k / w_ t) mod 512 in
  if negb (check_mask_bit m =? 0) && has (gr_vram_read wx wy w) 0x8000 then w
  else gr_vram_write wx wy (if negb (set_mask_bit m =? 0) then Z.lor p 0x8000 else p) w.

(** The pixels of the data words: the low half first. *)
Definition pixel (data : list Z) (k : Z) : Z := u16 (Z.shiftr (aget data (k / 2)) (16 * (k mod 2))).

Lemma store_pixel_at p s :
  RectOk (vram_write s) -> Inside (vram_write s) ->
  store_pixel p s = on_world (store_at (mode s) (vram_write s) (pos (vram_write s)) p) s.
Proof.
  intros [] (? & ? & ? & ?). unfold store_pixel, store_at, pos. cbv zeta.
  replace (Z.rem (x_ (vram_write s) + col_ (vram_write s)) 1024)
    with ((x_ (vram_write s) + (row_ (vram_write s) * w_ (vram_write s) + col_ (vram_write s)) mod w_ (vram_write s)) mod 1024).
  2: { rewrite Z.add_comm with (n := row_ _ * _), Z.mod_add, Z.rem_mod_nonneg by lia. by rewrite (Z.mod_small (col_ _)) by lia. }
  replace (Z.rem (y_ (vram_write s) + row_ (vram_write s)) 512)
    with ((y_ (vram_write s) + (row_ (vram_write s) * w_ (vram_write s) + col_ (vram_write s)) / w_ (vram_write s)) mod 512).
  2: { rewrite Z.div_add_l, Z.rem_mod_nonneg by lia. by rewrite (Z.div_small (col_ _)), Z.add_0_r by lia. }
  unfold on_world. by case_if.
Qed.

Lemma store_at_rect m t t' n k p w : moved n t t' -> store_at m t' k p w = store_at m t k p w.
Proof. intros (_ & Hx & Hy & Hw & _). unfold store_at. by rewrite Hx, Hy, Hw. Qed.

(** The state once an upload has stored everything: [n] words since [s]. *)
Definition uploaded (n : Z) (w : W) (s : St) : St :=
  let t := ended (vram_write s) in
  s <| counts := count_words n (counts s) |> <| fifo := (fifo s) <| gp0_state := GP0_IDLE |> |>
    <| vram_write := t |> <| vram_write_remaining := 0 |>
    <| world := text_xlate_vram_upload (x_ t) (y_ t) (w_ t) (h_ t) w |>.

Definition store_from (data : list Z) (s : St) : W :=
  let t := vram_write s in
  forZ (pos t) (w_ t * h_ t) (fun k => store_at (mode s) t k (pixel data (k - pos t))) (world s).


Lemma forZ_cons {A} lo hi (f : Z -> A -> A) a : lo < hi -> forZ lo hi f a = forZ (lo + 1) hi f (f lo a).
Proof.
  intros Hl. unfold forZ. replace (hi - lo) with (Z.succ (hi - (lo + 1))) by lia. rewrite seqZ_cons by lia. cbn.
  by replace (Z.pred (Z.succ (hi - (lo + 1)))) with (hi - (lo + 1)) by lia; rewrite Z.add_1_r.
Qed.
Lemma forZ_done {A} lo (f : Z -> A -> A) a : forZ lo lo f a = a.
Proof. unfold forZ. by rewrite seqZ_nil by lia. Qed.

Lemma pixel_low v data : pixel (v :: data) 0 = u16 (Z.shiftr v 0).
Proof. done. Qed.
Lemma pixel_high v data : pixel (v :: data) 1 = u16 (Z.shiftr v 16).
Proof. done. Qed.
Lemma pixel_next v data k : 0 <= k -> pixel (v :: data) (k + 2) = pixel data k.
Proof.
  intros Hk. unfold pixel. replace ((k + 2) / 2) with (k / 2 + 1) by dlia. replace ((k + 2) mod 2) with (k mod 2) by dlia.
  unfold aget. by replace (Z.to_nat (k / 2 + 1)) with (S (Z.to_nat (k / 2))) by dlia.
Qed.

(** The state after one upload word that is not the last. *)
Lemma upload_word v s :
  Inv s -> gp0_state (fifo s) = GP0_VRAM_WRITE ->
  let t := vram_write s in
  let w1 := store_at (mode s) t (pos t) (u16 (Z.shiftr v 0)) (world s) in
  let w2 := store_at (mode s) t (pos t + 1) (u16 (Z.shiftr v 16)) w1 in
  if vram_write_remaining s =? 1 then
    gpu_write_gp0 v s = Some (uploaded 1 (if pos t + 1 =? w_ t * h_ t then w1 else w2) s) /\
    (pos t + 1 = w_ t * h_ t \/ pos t + 2 = w_ t * h_ t)
  else
    pos t + 2 < w_ t * h_ t /\
    exists t2, moved 2 t t2 /\
      gpu_write_gp0 v s = Some (s <| counts := count_words 1 (counts s) |> <| vram_write := t2 |>
        <| vram_write_remaining := vram_write_remaining s - 1 |> <| world := w2 |>).
Proof.
  intros Hi Hst. cbv zeta. rewrite write_in_state, Hst. cbv zeta.
  pose proof (inv_counts (count_words 1 (counts s)) s Hi) as Hi1. rewrite write_word_spec by done.
  destruct (i_writing s Hi Hst) as [Hg Hrem]. pose proof (going_pair _ (i_write s Hi) Hg) as P. unfold word_stored.
  change (vram_write (s <| counts := count_words 1 (counts s) |>)) with (vram_write s).
  destruct (advance (vram_write s)) as [last t1] eqn:E1. rewrite store_pixel_at by (apply (i_write s Hi) || apply Hg).
  destruct (advance t1) as [last2 t2] eqn:E2. rewrite Hrem. destruct last; [|destruct last2].
  - destruct P as (-> & Hm & -> & Hp). rewrite (Z.eqb_refl 1), Hp, Z.eqb_refl. split; [done|by left].
  - destruct P as (-> & Hm1 & Hin1 & Hm & -> & Hp). rewrite (Z.eqb_refl 1). case_if; [lia|]. split; [|by right].
    rewrite store_pixel_at by (apply Hm1 || apply Hin1). 
    change (Some (uploaded 1 (store_at (mode s) t1 (pos t1) (u16 (Z.shiftr v 16)) (store_at (mode s) (vram_write s) (pos (vram_write s)) (u16 (Z.shiftr v 0)) (world s))) s) =
      Some (uploaded 1 (store_at (mode s) (vram_write s) (pos (vram_write s) + 1) (u16 (Z.shiftr v 16)) (store_at (mode s) (vram_write s) (pos (vram_write s)) (u16 (Z.shiftr v 0)) (world s))) s)).
    rewrite (store_at_rect _ _ _ _ _ _ _ Hm1). by destruct Hm1 as (_ & _ & _ & _ & _ & ->).
  - destruct P as (Hm1 & Hin1 & Hm & Hg2 & Hl & H1). case_if; [lia|].
    pose proof (pos_range t2 ltac:(apply Hm) ltac:(apply Hg2)) as Hp. split.
    { destruct Hm as (_ & _ & _ & Hw & Hh & Hp2). rewrite Hw, Hh, Hp2 in Hp. lia. }
    exists t2. split; [done|]. rewrite store_pixel_at by (apply Hm1 || apply Hin1).
    rewrite <- (store_at_rect (mode s) _ _ _ (pos (vram_write s) + 1) _ _ Hm1).
    assert (Hp1 : pos t1 = pos (vram_write s) + 1) by apply Hm1. rewrite <- Hp1, <- Hrem. done.
Qed.

Lemma uploaded_next n w t2 r w' s :
  ended t2 = ended (vram_write s) ->
  uploaded n w (s <| counts := count_words 1 (counts s) |> <| vram_write := t2 |> <| vram_write_remaining := r |> <| world := w' |>) =
  uploaded (1 + n) w s.
Proof.
  intros He.
  transitivity (s <| counts := count_words n (count_words 1 (counts s)) |> <| fifo := (fifo s) <| gp0_state := GP0_IDLE |> |>
    <| vram_write := ended t2 |> <| vram_write_remaining := 0 |>
    <| world := text_xlate_vram_upload (x_ (ended t2)) (y_ (ended t2)) (w_ (ended t2)) (h_ (ended t2)) w |>); [done|].
  by rewrite He, count_words_add.
Qed.

Lemma upload_stores data : forall s,
  Inv s -> Forall is_u32 data -> gp0_state (fifo s) = GP0_VRAM_WRITE -> Z.of_nat (length data) = vram_write_remaining s ->
  stream data s = Some (uploaded (Z.of_nat (length data)) (store_from data s) s).
Proof.
  induction data as [|v data IH]; intros s Hi Hd Hst Hl; destruct (i_writing s Hi Hst) as [Hg Hrem];
    pose proof (pos_range _ (i_write s Hi) ltac:(apply Hg)) as Hp.
  { exfalso. cbn in Hl. unfold words_left in Hrem. assert (1 <= (w_ (vram_write s) * h_ (vram_write s) - pos (vram_write s) + 1) / 2) by dlia. lia. }
  apply Forall_cons in Hd as [Hv Hd].
  pose proof (upload_word v s Hi Hst) as P. cbv zeta in P. cbn [stream]. cbn [length] in Hl. destruct (Z.eqb_spec (vram_write_remaining s) 1) as [Er|Er].
  - destruct P as [-> Hn]. assert (data = []) as -> by (destruct data; [done|cbn in Hl; lia]). cbn [stream mbind option_bind length].
    do 2 f_equal. unfold store_from. rewrite forZ_cons, Z.sub_diag, pixel_low by lia.
    destruct (Z.eqb_spec (pos (vram_write s) + 1) (w_ (vram_write s) * h_ (vram_write s))) as [Eq|Eq].
    + by rewrite <- Eq, forZ_done.
    + destruct Hn as [?|Hn]; [done|]. rewrite forZ_cons by lia. replace (pos _ + 1 + 1) with (w_ (vram_write s) * h_ (vram_write s)) by lia.
      rewrite forZ_done. by replace (pos (vram_write s) + 1 - pos (vram_write s)) with 1 by lia.
  - destruct P as (Hlt & t2 & Hm & Hw). rewrite Hw. cbn [mbind option_bind].
    pose proof (gp0_inv v s _ Hv Hi Hw) as Hi2. 
    match type of Hi2 with Inv ?x =>
      assert (Hl2 : Z.of_nat (length data) = vram_write_remaining x) by (cbn [vram_write_remaining upd]; lia);
      pose proof (IH x Hi2 Hd Hst Hl2) as -> end.
    destruct Hm as (? & Hx & Hy & Hw2 & Hh2 & Hp2). rewrite uploaded_next.
    2: { unfold ended. destruct t2 as [? ? ? ? ? ?], (vram_write s) as [? ? ? ? ? ?]. cbn in *. congruence. }
    replace (1 + Z.of_nat (length data)) with (Z.of_nat (length (v :: data))) by (cbn [length]; lia).
    do 2 f_equal. unfold store_from. change (vram_write (_ <| world := _ |>)) with t2.
    change (mode (_ <| world := _ |>)) with (mode s). rewrite Hw2, Hh2, Hp2. symmetry.
    rewrite (forZ_cons (pos (vram_write s))), (forZ_cons (pos (vram_write s) + 1)), Z.sub_diag, pixel_low by lia.
    replace (pos (vram_write s) + 1 - pos (vram_write s)) with 1 by lia. rewrite pixel_high.
    replace (pos (vram_write s) + 1 + 1) with (pos (vram_write s) + 2) by lia. apply forZ_ext. intros k w Hk.
    replace (k - pos (vram_write s)) with (k - (pos (vram_write s) + 2) + 2) by lia. rewrite pixel_next by lia.
    symmetry. apply (store_at_rect _ _ _ 2). by split_and!.
Qed.

(** ** A polyline *)

(** Lines through the points, each from the previous one. *)
Fixpoint segments (c : Z) (a : Z * Z) (pts : list (Z * Z)) (w : W) : W :=
  match pts with [] => w | b :: pts => segments c b pts (gr_draw_line (fst a) (snd a) (fst b) (snd b) c w) end.
Fixpoint shaded_segments (a : Z * Z) (ca : Z) (pts : list (Z * (Z * Z))) (w : W) : W :=
  match pts with
  | [] => w
  | (cb, b) :: pts => shaded_segments b cb pts (gr_draw_shaded_line (fst a) (snd a) ca (fst b) (snd b) cb w)
  end.

Definition colour_of (v : Z) : Z := rgb888_to_rgb555 (Z.land v 0xFFFFFF).
Definition point (s : St) (v : Z) : Z * Z := placed (parse_vertex v) s.

(** The processor after a polyline of [n] words with header [v], at the end point
    [a] of colour [c], in the world [w]. *)
Definition polyline_ended (n v : Z) (a : Z * Z) (c : Z) (w : W) (s : St) : St :=
  s <| counts := count_words (n - 1) (count_opcode (opcode_of v)
         ((count_words 1 (counts s)) <| gp0_draw_count := u64 (gp0_draw_count (counts s) + 1) |>)) |>
    <| polyline := mkPolyline c (fst a) (snd a) c (Z.land (Z.shiftr v 25) 1) 1 |> <| world := w |>.

Definition semi_set (v : Z) (s : St) : W := gr_set_semi_transparency (Z.land (Z.shiftr v 25) 1) (semi_transparency (mode s)) (world s).

(** In the middle of a polyline: [n] words, standing at [a]. *)
Definition at_point (g : Gp0State) (n v : Z) (a : Z * Z) (c : Z) (w : W) (s : St) : St :=
  (polyline_ended n v a c w s) <| fifo := (fifo s) <| gp0_state := g |> |>.

Lemma stopped g n v a c w s : gp0_state (fifo s) = GP0_IDLE ->
  (at_point g n v a c w s) <| counts := count_words 1 (counts (at_point g n v a c w s)) |> <| fifo := (fifo s) <| gp0_state := GP0_IDLE |> |>
  = polyline_ended (n + 1) v a c w s.
Proof.
  intros Hst. unfold at_point, polyline_ended.
  transitivity (s <| counts := count_words 1 (count_words (n - 1) (count_opcode (opcode_of v)
         ((count_words 1 (counts s)) <| gp0_draw_count := u64 (gp0_draw_count (counts s) + 1) |>))) |>
    <| polyline := mkPolyline c (fst a) (snd a) c (Z.land (Z.shiftr v 25) 1) 1 |> <| world := w |>
    <| fifo := (fifo s) <| gp0_state := GP0_IDLE |> |>); [done|].
  rewrite count_words_add. replace (n - 1 + 1) with (n + 1 - 1) by lia. rewrite <- Hst. done.
Qed.

Lemma moved_on g n v a c b c' w w' s :
  (at_point g n v a c w s) <| counts := count_words 1 (counts (at_point g n v a c w s)) |>
     <| polyline := mkPolyline c' (fst b) (snd b) c' (Z.land (Z.shiftr v 25) 1) 1 |> <| world := w' |>
  = at_point g (n + 1) v b c' w' s.
Proof.
  unfold at_point, polyline_ended.
  transitivity (s <| counts := count_words 1 (count_words (n - 1) (count_opcode (opcode_of v)
         ((count_words 1 (counts s)) <| gp0_draw_count := u64 (gp0_draw_count (counts s) + 1) |>))) |>
    <| polyline := mkPolyline c' (fst b) (snd b) c' (Z.land (Z.shiftr v 25) 1) 1 |> <| world := w' |>
    <| fifo := (fifo s) <| gp0_state := g |> |>); [done|].
  rewrite count_words_add. replace (n - 1 + 1) with (n + 1 - 1) by lia. done.
Qed.

(** Vertices and the terminator of a polyline of one colour. *)
Lemma mono_points c v t vs : forall n a w s,
  gp0_state (fifo s) = GP0_IDLE -> Forall (fun x => terminator x = false) vs -> terminator t = true ->
  stream (vs ++ [t]) (at_point GP0_POLYLINE_MONO n v a c w s) =
  Some (polyline_ended (n + Z.of_nat (length vs) + 1) v (default a (last (map (point s) vs))) c (segments c a (map (point s) vs) w) s).
Proof.
  induction vs as [|x vs IH]; intros n a w s Hst Hvs Ht.
  - cbn [app stream length map last default segments]. rewrite write_in_state.
    change (gp0_state (fifo (at_point GP0_POLYLINE_MONO n v a c w s))) with GP0_POLYLINE_MONO. cbv zeta. cbn match.
    unfold polyline_mono_word. rewrite Ht. cbn [mbind option_bind]. f_equal. rewrite Z.add_0_r. exact (stopped _ n v a c w s Hst).
  - apply Forall_cons in Hvs as [Hx Hvs]. cbn [app stream]. rewrite write_in_state.
    change (gp0_state (fifo (at_point GP0_POLYLINE_MONO n v a c w s))) with GP0_POLYLINE_MONO. cbv zeta. cbn match.
    unfold polyline_mono_word. rewrite Hx. cbn [mbind option_bind].
    transitivity (stream (vs ++ [t]) (at_point GP0_POLYLINE_MONO (n + 1) v (point s x) c
      (gr_draw_line (fst a) (snd a) (fst (point s x)) (snd (point s x)) c w) s)).
    { rewrite <- moved_on with (a := a) (w := w) (c := c). done. }
    rewrite IH by done. cbn [length map segments]. replace (n + 1 + Z.of_nat (length vs) + 1) with (n + Z.of_nat (S (length vs)) + 1) by lia.
    do 2 f_equal. destruct vs as [|y vs]; [done|]. cbn [map]. rewrite !last_cons. by destruct (last (map (point s) vs)).
Qed.

(** A colour word and a vertex of a shaded polyline. *)
Lemma shaded_pair n v a c w cw x (s : St) :
  terminator cw = false ->
  stream [cw; x] (at_point GP0_POLYLINE_SHADED n v a c w s) =
  Some (at_point GP0_POLYLINE_SHADED (n + 1 + 1) v (point s x) (colour_of cw)
    (gr_draw_shaded_line (fst a) (snd a) c (fst (point s x)) (snd (point s x)) (colour_of cw) w) s).
Proof.
  intros Hc. cbn [stream]. rewrite write_in_state.
  change (gp0_state (fifo (at_point GP0_POLYLINE_SHADED n v a c w s))) with GP0_POLYLINE_SHADED. cbv zeta. cbn match.
  unfold polyline_shaded_word at 1. rewrite Hc. cbv zeta.
  change (polyline_has_prev (polyline _)) with 1 at 1. change (polyline_has_prev (polyline _)) with 1 at 1. cbn match.
  change (1 =? 0) with false. change (1 =? 1) with true. cbn match. cbn [mbind option_bind].
  rewrite write_in_state.
  set (p2 := _ <| polyline := _ |>). change (gp0_state (fifo p2)) with GP0_POLYLINE_SHADED. cbv zeta. cbn match. f_equal.
  rewrite <- (moved_on _ (n + 1) v a c (point s x) (colour_of cw) w).
  rewrite <- (moved_on GP0_POLYLINE_SHADED n v a c a c w w). done.
Qed.

Definition pairs (cvs : list (Z * Z)) : list Z := flat_map (fun p => [fst p; snd p]) cvs.
Definition shaded_points (s : St) (cvs : list (Z * Z)) : list (Z * (Z * Z)) := map (fun p => (colour_of (fst p), point s (snd p))) cvs.

Lemma shaded_rest v t cvs : forall n a c w s,
  gp0_state (fifo s) = GP0_IDLE -> Forall (fun p => terminator (fst p) = false) cvs -> terminator t = true ->
  let e := default (c, a) (last (shaded_points s cvs)) in
  stream (pairs cvs ++ [t]) (at_point GP0_POLYLINE_SHADED n v a c w s) =
  Some (polyline_ended (n + 2 * Z.of_nat (length cvs) + 1) v (snd e) (fst e) (shaded_segments a c (shaded_points s cvs) w) s).
Proof.
  induction cvs as [|[cw x] cvs IH]; intros n a c w s Hst Hcv Ht; cbv zeta.
  - cbn [app stream length pairs flat_map shaded_points map last default segments shaded_segments fst snd]. rewrite write_in_state.
    change (gp0_state (fifo (at_point GP0_POLYLINE_SHADED n v a c w s))) with GP0_POLYLINE_SHADED. cbv zeta. cbn match.
    unfold polyline_shaded_word. rewrite Ht. cbn [mbind option_bind]. f_equal. rewrite Z.add_0_r. exact (stopped _ n v a c w s Hst).
  - apply Forall_cons in Hcv as [Hc Hcv]. change (pairs ((cw, x) :: cvs) ++ [t]) with ([cw; x] ++ (pairs cvs ++ [t])).
    rewrite stream_app, shaded_pair by done. cbn [mbind option_bind]. rewrite IH by done. cbn [length].
    change (shaded_points s ((cw, x) :: cvs)) with ((colour_of cw, point s x) :: shaded_points s cvs).
    replace (n + 1 + 1 + 2 * Z.of_nat (length cvs) + 1) with (n + 2 * Z.of_nat (S (length cvs)) + 1) by lia.
    rewrite last_cons. by destruct (last (shaded_points s cvs)).
Qed.

(** The header and the first vertex. *)
Lemma polyline_begins v x s (g := if has (opcode_of v) 0x10 then GP0_POLYLINE_SHADED else GP0_POLYLINE_MONO) :
  gp0_state (fifo s) = GP0_IDLE -> gp0_command_word_count (opcode_of v) = -1 ->
  (g = GP0_POLYLINE_MONO -> terminator x = false) ->
  stream [v; x] s = Some (at_point g 2 v (point s x) (colour_of v) (semi_set v s) s).
Proof.
  intros Hst Hn Hx. cbn [stream]. rewrite write_in_state, Hst. cbv zeta. unfold first_word. cbv zeta. fold (opcode_of v). rewrite Hn.
  change (-1 =? 0) with false. change (-1 <? 0) with true. cbn match. cbn [mbind option_bind].
  rewrite write_in_state. set (p := start_polyline _ _ _). change (gp0_state (fifo p)) with g. cbv zeta.
  transitivity (Some ((polyline_ended 2 v (point s x) (colour_of v) (semi_set v s) s) <| fifo := (fifo s) <| gp0_state := g |> |>)); [|done].
  unfold polyline_ended. change (2 - 1) with 1.
  destruct (has (opcode_of v) 0x10) eqn:Eg; subst g; cbn match.
  - cbn [mbind option_bind]. f_equal. subst p. unfold start_polyline. rewrite Eg. done.
  - unfold polyline_mono_word. rewrite Hx by done. cbn [mbind option_bind]. f_equal. subst p. unfold start_polyline. rewrite Eg. done.
Qed.

(** ** Items *)

Inductive Item :=
| Command (p : list Z)
| Image (hdr data : list Z)
| Lines (v x : Z) (vs : list Z) (t : Z)
| ShadedLines (v x : Z) (cvs : list (Z * Z)) (t : Z).

Definition words (it : Item) : list Z :=
  match it with
  | Command p => p
  | Image hdr data => hdr ++ data
  | Lines v x vs t => [v; x] ++ vs ++ [t]
  | ShadedLines v x cvs t => [v; x] ++ pairs cvs ++ [t]
  end.

(** The rectangle a transfer command names, and the words of pixels in it. *)
Definition rect_of (hdr : list Z) : Transfer :=
  let w := Z.land (aget hdr 2) 0x3FF in let h := Z.land (Z.shiftr (aget hdr 2) 16) 0x1FF in
  mkTransfer (Z.land (aget hdr 1) 0x3FF) (Z.land (Z.shiftr (aget hdr 1) 16) 0x1FF)
    (if w =? 0 then 0x400 else w) (if h =? 0 then 0x200 else h) 0 0.
Definition image_words (hdr : list Z) : Z := (w_ (rect_of hdr) * h_ (rect_of hdr) + 1) / 2.

Definition upload_op (op : Z) : bool := between 0xA0 0xBF op.
Definition opcode (p : list Z) : Z := opcode_of (aget p 0).

Definition ItemOk (it : Item) : Prop :=
  match it with
  | Command p => Packet p /\ upload_op (opcode p) = false
  | Image hdr data => Packet hdr /\ upload_op (opcode hdr) = true /\ Z.of_nat (length data) = image_words hdr
  | Lines v x vs t =>
      gp0_command_word_count (opcode_of v) = -1 /\ has (opcode_of v) 0x10 = false /\
      Forall (fun x => terminator x = false) (x :: vs) /\ terminator t = true
  | ShadedLines v x cvs t =>
      gp0_command_word_count (opcode_of v) = -1 /\ has (opcode_of v) 0x10 = true /\
      Forall (fun p => terminator (fst p) = false) cvs /\ terminator t = true
  end.

(** What an item does. *)
Definition run_item (it : Item) (s : St) : option St :=
  match it with
  | Command p => gp0_execute_command (latched p s)
  | Image hdr data =>
      s' ← gp0_execute_command (latched hdr s); Some (uploaded (Z.of_nat (length data)) (store_from data s') s')
  | Lines v x vs t =>
      let pts := map (point s) vs in
      Some (polyline_ended (3 + Z.of_nat (length vs)) v (default (point s x) (last pts)) (colour_of v)
        (segments (colour_of v) (point s x) pts (semi_set v s)) s)
  | ShadedLines v x cvs t =>
      let pts := shaded_points s cvs in let e := default (colour_of v, point s x) (last pts) in
      Some (polyline_ended (3 + 2 * Z.of_nat (length cvs)) v (snd e) (fst e)
        (shaded_segments (point s x) (colour_of v) pts (semi_set v s)) s)
  end.

Fixpoint run_items (its : list Item) (s : St) : option St :=
  match its with [] => Some s | it :: its => s' ← run_item it s; run_items its s' end.

(** ** The stream refines its items *)

Lemma cmd_latched p s i : 0 <= i < Z.of_nat (length p) -> cmd i (latched p s) = aget p i.
Proof. intros Hi. unfold cmd, latched, aget. cbn [fifo upd gp0_cmd_buf]. rewrite app_nth1 by lia. done. Qed.

Lemma packet_length p : Packet p -> 1 <= Z.of_nat (length p) <= 12.
Proof. intros (v & rest & -> & Hn). pose proof (word_count_range (opcode_of v)). cbn [length] in *. lia. Qed.

Lemma latched_inv p s : Packet p -> Forall is_u32 p -> Inv s -> Inv (latched p s).
Proof.
  intros Hp Hu Hi. pose proof (packet_length p Hp) as Hl. unfold latched. apply inv_fifo; [|done|by apply inv_counts].
  destruct (i_fifo s Hi). split; cbn; try done; [| |lia|lia].
  - rewrite length_app, length_drop. lia.
  - apply Forall_app. split; [done|]. by apply Forall_drop.
Qed.

Lemma outside_fifo (s s' : St) : outside s s' -> fifo s' = fifo s.
Proof. by intros (? & ? & ->). Qed.

Lemma handler_idle op f s : gp0_handler op = Some f -> upload_op op = false -> gp0_state (fifo (f s)) = gp0_state (fifo s).
Proof.
  intros Hf Hu. destruct (drawing op) eqn:Hd.
  { by destruct (handler_drawn op f s Hd Hf) as [(? & ? & ->)|(? & ? & ? & ->)]. }
  revert Hd Hf. unfold gp0_handler, drawing, upload_op, between in *.
  repeat lazymatch goal with |- _ -> (if ?b then Some ?g else _) = _ -> _ => destruct b eqn:?Eb; [intros Hd [= <-]|] end; [..|done];
    try (exfalso; lia); clear Hd; try done.
  - unfold gp0_exec_draw_area_tl. cbv zeta. by rewrite (outside_fifo _ _ (sync_outside _)).
  - unfold gp0_exec_draw_area_br. cbv zeta. by rewrite (outside_fifo _ _ (sync_outside _)).
Qed.

(** A command's handler runs on the latched words. *)
Lemma execute_latched p s :
  Packet p -> exists s1, begun (latched p s) s1 /\ gp0_execute_command (latched p s) =
    match gp0_handler (opcode p) with Some f => Some (f s1) | None => None end.
Proof.
  intros Hp. pose proof (packet_length p Hp) as Hl. destruct (execute_begun (latched p s)) as (s1 & Hb & ->).
  rewrite cmd_latched by lia. by exists s1.
Qed.

Lemma command_idle p s s' :
  Packet p -> upload_op (opcode p) = false -> gp0_execute_command (latched p s) = Some s' -> gp0_state (fifo s') = GP0_IDLE.
Proof.
  intros Hp Hu. destruct (execute_latched p s Hp) as (s1 & (c & wd & b & ->) & ->).
  destruct (gp0_handler (opcode p)) as [f|] eqn:E; [|done]. intros [= <-]. by rewrite (handler_idle _ _ _ E Hu).
Qed.

Lemma upload_handler op : upload_op op = true -> gp0_handler op = Some gp0_exec_cpu_to_vram /\ gp0_command_word_count op = 3.
Proof.
  unfold upload_op, gp0_handler, gp0_command_word_count, between. intros Hu.
  split; repeat lazymatch goal with |- (if ?b then _ else _) = _ => destruct b eqn:?Eb; [try done; exfalso; lia|] end; exfalso; lia.
Qed.

Lemma packet3 p n : Packet p -> gp0_command_word_count (opcode p) = n -> Z.of_nat (length p) = n.
Proof. intros (v & rest & -> & Hlen) Hn. change (opcode (v :: rest)) with (opcode_of v) in Hn. lia. Qed.

Lemma transfer_rect_latched p s s1 : begun (latched p s) s1 -> length p = 3%nat -> transfer_rect s1 = rect_of p.
Proof.
  intros (c & wd & b & ->) Hl. unfold transfer_rect. set (s1 := _ <| world := _ |>).
  change (cmd 1 s1) with (cmd 1 (latched p s)). change (cmd 2 s1) with (cmd 2 (latched p s)). by rewrite !cmd_latched by lia.
Qed.

(** The upload command sets the transfer going, from its first pixel. *)
Lemma image_begins hdr s :
  Packet hdr -> upload_op (opcode hdr) = true -> Forall is_u32 hdr -> Inv s ->
  exists s', gp0_execute_command (latched hdr s) = Some s' /\ Inv s' /\ gp0_state (fifo s') = GP0_VRAM_WRITE /\
    vram_write_remaining s' = image_words hdr /\ vram_write s' = rect_of hdr /\ mode s' = mode s /\
    exists b, world s' = gr_prim_in_backdrop b (world s).
Proof.
  intros Hp Hu Hd Hi. pose proof (latched_inv hdr s Hp Hd Hi) as Hl. destruct (upload_handler _ Hu) as [Hf Hn].
  pose proof (packet3 hdr 3 Hp Hn) as Hlen. destruct (execute_latched hdr s Hp) as (s1 & Hb & He). rewrite Hf in He.
  eexists. split; [exact He|]. split; [exact (execute_inv _ _ Hl He)|]. clear He.
  pose proof (transfer_rect_latched hdr s s1 Hb ltac:(lia)) as Ht.
  assert (Hw : (exists b, world s1 = gr_prim_in_backdrop b (world s)) /\ mode s1 = mode s) by (destruct Hb as (c & wd & b & ->); by split; [exists b|]).
  clear Hb. destruct Hw as [Hw Hm].
  destruct (transfer_rect_ok s1) as [Hok Hg]. unfold gp0_exec_cpu_to_vram. cbv zeta. rewrite Ht in *.
  destruct (start_words _ Hok Hg eq_refl) as [Hq Hr]. cbn [vram_write_remaining upd]. rewrite Hq. case_if; [|lia].
  split_and!; try done. cbn [vram_write_remaining upd]. unfold words_left, image_words. by rewrite Z.sub_0_r.
Qed.

Lemma item_refines it s :
  ItemOk it -> Forall is_u32 (words it) -> Inv s -> gp0_state (fifo s) = GP0_IDLE ->
  stream (words it) s = run_item it s /\ forall s', run_item it s = Some s' -> gp0_state (fifo s') = GP0_IDLE.
Proof.
  intros Hit Hw Hi Hst. pose proof (fo_len _ (i_fifo s Hi)) as Hb. destruct it as [p|hdr data|v x vs t|v x cvs t]; cbn [words run_item] in *.
  - destruct Hit as [Hp Hu]. split; [by apply packet_executes|]. intros s'. by apply command_idle.
  - destruct Hit as (Hp & Hu & Hl). apply Forall_app in Hw as [Hh Hd].
    destruct (image_begins hdr s Hp Hu Hh Hi) as (s1 & He & Hi1 & Hst1 & Hr & Ht1 & _).
    rewrite stream_app, packet_executes, He by done. cbn [mbind option_bind].
    split; [apply upload_stores; [done..|lia]|]. by intros s' [= <-].
  - destruct Hit as (Hn & Hm & Hx & Ht). apply Forall_cons in Hx as [Hx Hvs].
    pose proof (polyline_begins v x s Hst Hn) as B. cbv zeta in B. rewrite Hm in B. rewrite stream_app, B by done. cbn [mbind option_bind].
    rewrite mono_points by done. cbv zeta. replace (2 + Z.of_nat (length vs) + 1) with (3 + Z.of_nat (length vs)) by lia.
    split; [done|]. by intros s' [= <-].
  - destruct Hit as (Hn & Hm & Hcv & Ht).
    pose proof (polyline_begins v x s Hst Hn) as B. cbv zeta in B. rewrite Hm in B. rewrite stream_app, B by done. cbn [mbind option_bind].
    rewrite shaded_rest by done. cbv zeta. replace (2 + 2 * Z.of_nat (length cvs) + 1) with (3 + 2 * Z.of_nat (length cvs)) by lia.
    split; [done|]. by intros s' [= <-].
Qed.

Lemma stream_inv ws : forall s s', Forall is_u32 ws -> Inv s -> stream ws s = Some s' -> Inv s'.
Proof.
  induction ws as [|v ws IH]; intros s s' Hw Hi; cbn; [by intros [= <-]|]. apply Forall_cons in Hw as [Hv Hw].
  destruct (gpu_write_gp0 v s) as [s1|] eqn:E; cbn; [|done]. apply IH; [done|]. by apply (gp0_inv v s).
Qed.

(** C27: read as a whole, the words on the GP0 port are a sequence of items: every
    command runs once, on exactly its own words; an image upload stores pixel [k] of
    its rectangle from half [k mod 2] of data word [k / 2] and announces itself once;
    a polyline draws the lines between its consecutive vertices.  The word-by-word
    processor computes exactly that, whatever the split into writes, halting where
    and only where an item does, and is idle after each item. *)
Theorem gp0_stream_refines its s :
  Forall ItemOk its -> Forall is_u32 (concat (map words its)) -> Inv s -> gp0_state (fifo s) = GP0_IDLE ->
  stream (concat (map words its)) s = run_items its s /\
  forall s', run_items its s = Some s' -> gp0_state (fifo s') = GP0_IDLE.
Proof.
  intros Hok. revert s. induction Hok as [|it its Hit Hits IH]; intros s Hw Hi Hst; cbn [map concat run_items].
  { split; [done|]. by intros s' [= <-]. }
  cbn in Hw. apply Forall_app in Hw as [Hw Hws]. destruct (item_refines it s Hit Hw Hi Hst) as [He Hidle].
  rewrite stream_app, He. destruct (run_item it s) as [s1|] eqn:E; cbn [mbind option_bind]; [|done].
  apply IH; [done| |by apply Hidle]. by apply (stream_inv (words it) s).
Qed.

End Stream.
End GpuStream.
