(* ===== verification/GpuPort.v ===== *)
(** * Reading the graphics processor, and its fatal halts

    Which words stop the machine; what GPUREAD returns of an uploaded image; the
    fields of GPUSTAT and the synthesised vertical blank behind it; the register
    reads of GP1. *)

From S2P Require Import Prelude Gpu GpuLaws GpuStream.

Module GpuPort.
Import Gpu GpuLaws GpuStream.

Section Port.
Context {W : Type} `{R : Renderer W} `{H : Host W}.
Abbreviation St := (State W).

(** ** Halts *)

(** The opcodes a write halts on: 1Fh has a length but no handler, F0h to FEh have
    neither. *)
Definition fatal (op : Z) : bool := (op =? 0x1F) || between 0xF0 0xFE op.

Definition handled (op : Z) : bool := match gp0_handler op with Some _ => true | None => false end.

Lemma handled_unless_fatal op : 0 <= op < 256 -> gp0_command_word_count op <> -1 -> handled op = negb (fatal op).
Proof.
  intros Ho Hn. revert Hn. unfold handled, gp0_handler, gp0_command_word_count, fatal, between.
  repeat lazymatch goal with |- _ -> match (if ?b then Some ?g else _) with _ => _ end = _ => destruct b eqn:?Eb; [lia|] end.
  intros Hn. destruct ((op =? 0x1F) || (0xF0 <=? op) && (op <=? 0xFE)) eqn:E; [done|]. exfalso. revert Hn. repeat case_if; lia.
Qed.

Lemma count_zero op : 0 <= op < 256 -> gp0_command_word_count op = 0 <-> between 0xF0 0xFE op = true.
Proof. intros Ho. unfold gp0_command_word_count, between. repeat case_if; lia. Qed.

Lemma fatal_short op : fatal op = true -> gp0_command_word_count op <= 1.
Proof. unfold fatal, gp0_command_word_count, between. intros Hf. repeat case_if; lia. Qed.

Lemma execute_halts (s : St) : gp0_execute_command s = None <-> handled (opcode_of (cmd 0 s)) = false.
Proof.
  destruct (execute_begun s) as (s1 & _ & ->). unfold handled. fold (opcode_of (cmd 0 s)). by destruct (gp0_handler _).
Qed.

(** C33: a GP0 write halts the machine exactly when it begins a command whose opcode
    is 1Fh or F0h to FEh; no parameter word, pixel or vertex ever does. *)
Theorem gp0_halts_exactly val s :
  Inv s -> gpu_write_gp0 val s = None <-> gp0_state (fifo s) = GP0_IDLE /\ fatal (opcode_of val) = true.
Proof.
  intros Hi. rewrite write_in_state. cbv zeta. pose proof (u8_range (Z.land (Z.shiftr val 24) 0xFF)) as Ho.
  fold (opcode_of val) in Ho. pose proof (i_fifo s Hi) as [].
  destruct (gp0_state (fifo s)) eqn:E; [| |split; [done|by intros []]..].
  - unfold first_word. cbv zeta. fold (opcode_of val). case_if; [|case_if; [|case_if]].
    + split; [|done]. split; [done|]. unfold fatal. rewrite (proj1 (count_zero _ Ho)) by lia. apply orb_true_r.
    + split; [done|]. intros [_ Hf]. exfalso. pose proof (word_count_range (opcode_of val)).
      unfold fatal, gp0_command_word_count, between in *. revert E1. repeat case_if; lia.
    + rewrite execute_halts. unfold cmd. cbn [fifo upd gp0_cmd_buf]. rewrite aget_aset_eq by (cbn; lia).
      rewrite handled_unless_fatal by lia. split; [intros ?%negb_false_iff; done|intros [_ ->]; done].
    + split; [done|]. intros [_ Hf]. pose proof (fatal_short _ Hf). pose proof (word_count_range (opcode_of val)). lia.
  - split; [|by intros []]. intros Hc. exfalso. destruct (fo_collecting0 eq_refl) as [Hk Hn]. fold (opcode_of (aget (gp0_cmd_buf (fifo s)) 0)) in Hn.
    revert Hc. unfold collect_word. cbv zeta. cbn [fifo upd gp0_words_needed gp0_words_collected]. case_if; [|done].
    rewrite execute_halts. unfold cmd, idle. cbn [fifo upd gp0_cmd_buf]. rewrite aget_aset_ne by lia.
    pose proof (u8_range (Z.land (Z.shiftr (aget (gp0_cmd_buf (fifo s)) 0) 24) 0xFF)) as Ho'.
    fold (opcode_of (aget (gp0_cmd_buf (fifo s)) 0)) in Ho'. rewrite handled_unless_fatal by lia.
    intros Hf%negb_false_iff. pose proof (fatal_short _ Hf). lia.
Qed.

Lemma gp1_halts val s : gpu_write_gp1 val s = None <-> between 0x09 0x0F (Z.land (Z.shiftr val 24) 0x3F) || between 0x20 0x3F (Z.land (Z.shiftr val 24) 0x3F) = true.
Proof.
  pose proof (land_upto (Z.shiftr val 24) 0x3F 6 ltac:(lia) eq_refl). unfold gpu_write_gp1, between. cbv zeta.
  repeat case_if; split; try done; lia.
Qed.

(** ** GPUREAD *)

Fixpoint reads (n : nat) (s : St) : list Z * St :=
  match n with O => ([], s) | S n => let '(v, s) := gpu_read_gpuread s in let '(vs, s) := reads n s in (v :: vs, s) end.

(** Pixel [k] of a rectangle, and the word of pixels [2 j] and [2 j + 1], the high
    half empty past the end. *)
Definition read_at (t : Transfer) (w : W) (k : Z) : Z := gr_vram_read ((x_ t + k mod w_ t) mod 1024) ((y_ t + k / w_ t) mod 512) w.
Definition read_word (t : Transfer) (w : W) (j : Z) : Z :=
  if 2 * j + 1 <? w_ t * h_ t then Z.lor (read_at t w (2 * j)) (Z.shiftl (read_at t w (2 * j + 1)) 16) else read_at t w (2 * j).

Lemma read_at_pos t w : RectOk t -> Inside t ->
  gr_vram_read (Z.rem (x_ t + col_ t) 1024) (Z.rem (y_ t + row_ t) 512) w = read_at t w (pos t).
Proof.
  intros [] (? & ? & ? & ?). unfold read_at, pos. f_equal.
  - rewrite Z.add_comm with (n := row_ _ * _), Z.mod_add, Z.rem_mod_nonneg by lia. by rewrite (Z.mod_small (col_ _)) by lia.
  - rewrite Z.div_add_l, Z.rem_mod_nonneg by lia. by rewrite (Z.div_small (col_ _)), Z.add_0_r by lia.
Qed.

Lemma read_at_moved n t t' w k : moved n t t' -> read_at t' w k = read_at t w k.
Proof. intros (_ & Hx & Hy & Hw & _). unfold read_at. by rewrite Hx, Hy, Hw. Qed.
Lemma read_word_moved n t t' w j : moved n t t' -> read_word t' w j = read_word t w j.
Proof. intros Hm. unfold read_word. rewrite !(read_at_moved n t t') by done. by destruct Hm as (_ & _ & _ & -> & -> & _). Qed.

Lemma read_one s :
  Inv s -> vram_read_active s = true ->
  let t := vram_read s in
  fst (gpu_read_gpuread s) = read_word t (world s) (pos t / 2) /\ world (snd (gpu_read_gpuread s)) = world s /\
  if words_left t =? 1 then vram_read_active (snd (gpu_read_gpuread s)) = false
  else vram_read_active (snd (gpu_read_gpuread s)) = true /\ moved 2 t (vram_read (snd (gpu_read_gpuread s))) /\
       words_left (vram_read (snd (gpu_read_gpuread s))) = words_left t - 1 /\ 1 < words_left t.
Proof.
  intros Hi Ha. cbv zeta. pose proof (i_reading s Hi Ha) as Hg. pose proof (i_read s Hi) as Hok. pose proof (going_pair _ Hok Hg) as P.
  pose proof (pos_range _ Hok (proj1 Hg)) as Hp.
  assert (He : 2 * (pos (vram_read s) / 2) = pos (vram_read s)).
  { destruct Hg as [_ Hev]. apply Z.even_spec in Hev as [k Hk]. rewrite Hk. rewrite (Z.mul_comm 2 k), Z.div_mul by lia. lia. }
  unfold gpu_read_gpuread. rewrite Ha. cbn [negb]. rewrite read_pixel_advance. cbv zeta.
  rewrite read_at_pos by (done || apply Hg). rewrite Z.lor_0_l, Z.mul_0_l, Z.shiftl_0_r.
  destruct (advance (vram_read s)) as [last t1] eqn:E1, (advance t1) as [last2 t2] eqn:E2. cbn [fst snd].
  unfold read_word. rewrite He. destruct last.
  { destruct P as (-> & _ & _ & Hn). cbn [fst snd]. rewrite (Z.eqb_refl 1). split_and!; [|done..]. case_if; [lia|done]. }
  rewrite read_pixel_advance. cbv zeta. change (vram_read (s <| vram_read := t1 |>)) with t1. rewrite E2. cbn [fst snd].
  change (world (s <| vram_read := t1 |>)) with (world s).
  assert (Hm1 : moved 1 (vram_read s) t1 /\ Inside t1 /\ pos (vram_read s) + 2 <= w_ (vram_read s) * h_ (vram_read s)).
  { destruct last2; [destruct P as (_ & ? & ? & _ & _ & ?); split_and!; [done..|lia]|].
    destruct P as (Hm1 & Hin1 & Hm2 & Hg2 & _). split_and!; [done..|]. pose proof (pos_range t2 (proj1 Hm2) (proj1 Hg2)) as Hp2.
    destruct Hm2 as (_ & _ & _ & Hw & Hh & Hp3). rewrite Hw, Hh in Hp2. lia. }
  destruct Hm1 as (Hm1 & Hin1 & Hn). rewrite read_at_pos by (apply Hm1 || done). rewrite (read_at_moved 1 _ _ _ _ Hm1).
  replace (pos t1) with (pos (vram_read s) + 1) by (symmetry; apply Hm1).
  case_if; [|lia]. split; [done|]. destruct last2.
  - destruct P as (-> & _). by rewrite (Z.eqb_refl 1).
  - destruct P as (_ & _ & Hm2 & _ & Hl & H1). split; [done|]. case_if; [lia|]. by split_and!; [exact Ha|done|done|lia].
Qed.

Lemma reads_image n : forall s,
  Inv s -> vram_read_active s = true -> words_left (vram_read s) = Z.of_nat n ->
  fst (reads n s) = map (read_word (vram_read s) (world s)) (seqZ (pos (vram_read s) / 2) (Z.of_nat n)) /\
  vram_read_active (snd (reads n s)) = false.
Proof.
  induction n as [|n IH]; intros s Hi Ha Hn; pose proof (i_reading s Hi Ha) as Hg; pose proof (pos_range _ (i_read s Hi) (proj1 Hg)) as Hp.
  { exfalso. unfold words_left in Hn. assert (1 <= (w_ (vram_read s) * h_ (vram_read s) - pos (vram_read s) + 1) / 2)
      by (apply Z.div_le_lower_bound; lia). lia. }
  cbn [reads]. pose proof (read_one s Hi Ha) as P. cbv zeta in P. pose proof (gpuread_inv s Hi) as Hi2.
  destruct (gpu_read_gpuread s) as [v s2]. cbn [fst snd] in *. destruct P as (-> & Hw & P).
  rewrite seqZ_cons by lia. cbn [map]. destruct n as [|n].
  - replace (words_left (vram_read s) =? 1) with true in P by lia. cbn [reads fst snd]. by rewrite seqZ_nil by lia.
  - replace (words_left (vram_read s) =? 1) with false in P by lia. destruct P as (Ha2 & Hm & Hl & _).
    destruct (IH s2 Hi2 Ha2 ltac:(lia)) as [Hv He]. destruct (reads (S n) s2) as [vs s3]. cbn [fst snd] in *. split; [|done].
    rewrite Hv, Hw. f_equal. replace (Z.pred (Z.of_nat (S (S n)))) with (Z.of_nat (S n)) by lia.
    replace (pos (vram_read s2) / 2) with (Z.succ (pos (vram_read s) / 2)).
    + apply map_ext. intros j. by apply (read_word_moved 2).
    + replace (pos (vram_read s2)) with (pos (vram_read s) + 2) by (symmetry; apply Hm). rewrite <- (Z.mul_1_l 2) at 2. rewrite Z.div_add by lia. lia.
Qed.

(** ** An image read back *)

(** The renderer's memory as the port sees it: 1024 by 512 cells of 16 bits. *)
Class VramLaws : Prop := {
  vram_read_write : forall x y p w, 0 <= x < 1024 -> 0 <= y < 512 -> is_u16 p -> gr_vram_read x y (gr_vram_write x y p w) = p;
  vram_read_other : forall x y x' y' p w, 0 <= x < 1024 -> 0 <= y < 512 -> 0 <= x' < 1024 -> 0 <= y' < 512 -> (x, y) <> (x', y') ->
    gr_vram_read x y (gr_vram_write x' y' p w) = gr_vram_read x y w;
  vram_read_backdrop : forall x y b w, gr_vram_read x y (gr_prim_in_backdrop b w) = gr_vram_read x y w
}.

Lemma read_word_backdrop `{!VramLaws} t b w j : read_word t (gr_prim_in_backdrop b w) j = read_word t w j.
Proof. unfold read_word, read_at. by rewrite !vram_read_backdrop. Qed.

Lemma cells_apart (t : Transfer) k k' :
  RectOk t -> 1 <= w_ t -> 0 <= k < w_ t * h_ t -> 0 <= k' < w_ t * h_ t -> k <> k' ->
  ((x_ t + k mod w_ t) mod 1024, (y_ t + k / w_ t) mod 512) <> ((x_ t + k' mod w_ t) mod 1024, (y_ t + k' / w_ t) mod 512).
Proof.
  intros [] Hw Hk Hk' Hne [= Hx Hy].
  assert (Hb : forall i, 0 <= i < w_ t * h_ t -> 0 <= i mod w_ t < w_ t /\ 0 <= i / w_ t < h_ t /\ i = w_ t * (i / w_ t) + i mod w_ t).
  { intros i Hi. split; [apply Z.mod_pos_bound; lia|]. split; [split; [apply Z.div_pos; lia|apply Z.div_lt_upper_bound; lia]|].
    apply Z.div_mod. lia. }
  destruct (Hb k Hk) as (Hc & Hr & Ek), (Hb k' Hk') as (Hc' & Hr' & Ek'). clear Hb.
  apply Hne. rewrite Ek, Ek'. assert (k mod w_ t = k' mod w_ t) as -> by (revert Hx; clear Ek Ek'; dlia).
  assert (k / w_ t = k' / w_ t) as -> by (revert Hy; clear Ek Ek'; dlia). done.
Qed.

Lemma pixel_u16 data k : is_u16 (pixel data k).
Proof. apply u16_range. Qed.

Lemma stored_reads `{!VramLaws} m t data w k :
  RectOk t -> 1 <= w_ t -> 1 <= h_ t -> set_mask_bit m = 0 -> check_mask_bit m = 0 -> 0 <= k < w_ t * h_ t ->
  read_at t (forZ 0 (w_ t * h_ t) (fun k => store_at m t k (pixel data k)) w) k = pixel data k.
Proof.
  intros Hok Hw Hh Hs Hc Hk.
  refine (forZ_ind (fun n w' => forall k, 0 <= k < n -> read_at t w' k = pixel data k) 0 (w_ t * h_ t) _ w _ _ _ k Hk); [lia|lia|].
  intros n w' Hn IH j Hj. unfold store_at, read_at. rewrite Hs, Hc. change (0 =? 0) with true. cbn [negb andb]. cbv zeta.
  destruct (Z.eq_dec j n) as [->|Hne].
  - apply vram_read_write; [dlia|dlia|apply pixel_u16].
  - rewrite vram_read_other; [apply IH; lia|dlia..|]. apply cells_apart; try done; lia.
Qed.

Definition readback_op (op : Z) : bool := between 0xC0 0xDF op.

Lemma readback_handler op : readback_op op = true -> gp0_handler op = Some gp0_exec_vram_to_cpu /\ gp0_command_word_count op = 3.
Proof.
  unfold readback_op, gp0_handler, gp0_command_word_count, between. intros Hu.
  split; repeat lazymatch goal with |- (if ?b then _ else _) = _ => destruct b eqn:?Eb; [try done; exfalso; lia|] end; exfalso; lia.
Qed.

Lemma readback_begins rd s :
  Packet rd -> readback_op (opcode rd) = true -> Forall is_u32 rd -> Inv s ->
  exists s', gp0_execute_command (latched rd s) = Some s' /\ Inv s' /\
    vram_read_active s' = true /\ vram_read s' = rect_of rd /\ exists b, world s' = gr_prim_in_backdrop b (world s).
Proof.
  intros Hp Hu Hd Hi. pose proof (latched_inv rd s Hp Hd Hi) as Hl. destruct (readback_handler _ Hu) as [Hf Hn].
  pose proof (packet3 rd 3 Hp Hn) as Hlen. destruct (execute_latched rd s Hp) as (s1 & Hb & He). rewrite Hf in He.
  eexists. split; [exact He|]. split; [exact (execute_inv _ _ Hl He)|]. split; [done|].
  split; [exact (transfer_rect_latched rd s s1 Hb ltac:(lia))|]. destruct Hb as (c & wd & b & ->). by exists b.
Qed.

Lemma rect_of_ok p : RectOk (rect_of p) /\ Inside (rect_of p).
Proof.
  pose proof (land_upto (aget p 1) 0x3FF 10 ltac:(lia) eq_refl). pose proof (land_upto (Z.shiftr (aget p 1) 16) 0x1FF 9 ltac:(lia) eq_refl).
  pose proof (land_upto (aget p 2) 0x3FF 10 ltac:(lia) eq_refl). pose proof (land_upto (Z.shiftr (aget p 2) 16) 0x1FF 9 ltac:(lia) eq_refl).
  unfold rect_of. cbv zeta. split; [split|split_and!]; cbn; try (repeat case_if; lia).
Qed.

(** The halves of a data word. *)
Lemma pixel_halves data j : 0 <= j -> is_u32 (aget data j) ->
  pixel data (2 * j) = aget data j mod 0x10000 /\ pixel data (2 * j + 1) = aget data j / 0x10000 /\
  Z.lor (pixel data (2 * j)) (Z.shiftl (pixel data (2 * j + 1)) 16) = aget data j.
Proof.
  intros Hj Hd. unfold is_u32 in Hd.
  assert (H0 : pixel data (2 * j) = aget data j mod 0x10000).
  { unfold pixel. replace (2 * j / 2) with j by dlia. by replace (2 * j mod 2) with 0 by dlia. }
  assert (H1 : pixel data (2 * j + 1) = aget data j / 0x10000).
  { unfold pixel. replace ((2 * j + 1) / 2) with j by dlia. replace ((2 * j + 1) mod 2) with 1 by dlia.
    change (16 * 1) with 16. rewrite Z.shiftr_div_pow2 by lia. apply u16_id. change (2 ^ 16) with 0x10000. dlia. }
  split_and!; [done..|]. rewrite H0, H1, Z.lor_comm, Z.shiftl_mul_pow2 by lia. rewrite (lor_add 16) by (change (2 ^ 16) with 0x10000; dlia).
  change (2 ^ 16) with 0x10000. dlia.
Qed.

(** The word of two pixels the rectangle shows is the data word. *)
Lemma shown_word t w data j :
  (forall k, 0 <= k < w_ t * h_ t -> read_at t w k = pixel data k) -> 0 <= j -> 2 * j < w_ t * h_ t -> is_u32 (aget data j) ->
  read_word t w j = if 2 * j + 1 <? w_ t * h_ t then aget data j else aget data j mod 0x10000.
Proof.
  intros Hpx Hj Hj2 Hd. destruct (pixel_halves data j Hj Hd) as (Q0 & Q1 & Q2). unfold read_word. rewrite Hpx by lia.
  case_if; [rewrite Hpx by lia; exact Q2|exact Q0].
Qed.

(** C29: an image written through GP0 and read back through GPUREAD: after an upload
    of any size and place, wrapping around the edges of VRAM included, with the mask
    bits off, video memory holds the uploaded pixels ([w0]); gpu.c then announces the
    upload to the text translation (text_xlate_vram_upload), which may rewrite pixels
    of it; and the read command for the same rectangle delivers the words of the
    rectangle as the translation left it ([w1]), one by one, the unused half of the
    last word of an odd number of pixels reading 0, and then the transfer is over.
    When the translation leaves the rectangle's pixels, as it does with no patch
    configured, the words are the uploaded ones. *)
Theorem image_readback `{!VramLaws} hdr data rd s :
  Inv s -> gp0_state (fifo s) = GP0_IDLE -> set_mask_bit (mode s) = 0 -> check_mask_bit (mode s) = 0 ->
  ItemOk (Image hdr data) -> Packet rd -> readback_op (opcode rd) = true -> rect_of rd = rect_of hdr ->
  Forall is_u32 (hdr ++ data ++ rd) ->
  let t := rect_of hdr in
  exists s' w0, stream (hdr ++ data ++ rd) s = Some s' /\
    (forall k, 0 <= k < w_ t * h_ t -> read_at t w0 k = pixel data k) /\
    let w1 := text_xlate_vram_upload (x_ t) (y_ t) (w_ t) (h_ t) w0 in
    let '(out, s') := reads (length data) s' in
    length out = length data /\ vram_read_active s' = false /\
    (forall j, 0 <= j < Z.of_nat (length data) -> aget out j = read_word t w1 j) /\
    ((forall k, 0 <= k < w_ t * h_ t -> read_at t w1 k = read_at t w0 k) ->
     forall j, 0 <= j < Z.of_nat (length data) ->
       aget out j = if 2 * j + 1 <? w_ t * h_ t then aget data j else aget data j mod 0x10000).
Proof.
  intros Hi Hst Hset Hcheck Himg Hrd Hop Hrect Hw t.
  rewrite app_assoc in Hw |- *. apply Forall_app in Hw as [Hw Hwr]. pose proof Hw as Hd. apply Forall_app in Hd as [Hh Hd].
  destruct (item_refines (Image hdr data) s Himg Hw Hi Hst) as [He Hidle]. cbn [words run_item] in He, Hidle.
  destruct Himg as (Hp & Hu & Hlen). destruct (image_begins hdr s Hp Hu Hh Hi) as (s1 & Hs1 & Hi1 & Hst1 & Hr1 & Ht1 & Hm1 & _).
  rewrite Hs1 in He, Hidle. cbn [mbind option_bind] in He, Hidle. specialize (Hidle _ eq_refl).
  set (w0 := store_from data s1) in *. set (s2 := uploaded _ _ s1) in *. assert (Hi2 : Inv s2) by exact (stream_inv _ _ _ Hw Hi He).
  destruct (readback_begins rd s2 Hrd Hop Hwr Hi2) as (s3 & Hs3 & Hi3 & Ha & Ht3 & b & Hw3).
  assert (Hw2 : world s2 = text_xlate_vram_upload (x_ t) (y_ t) (w_ t) (h_ t) w0) by (unfold t; by rewrite <- Ht1).
  destruct (rect_of_ok hdr) as [Hok Hin]. rewrite Hrect in Ht3. fold t in Hok, Hin, Ht1, Ht3.
  assert (Hpx : forall k, 0 <= k < w_ t * h_ t -> read_at t w0 k = pixel data k).
  { intros k Hk. unfold w0, store_from. rewrite Ht1, Hm1. change (pos t) with 0.
    rewrite (forZ_ext 0 _ _ (fun k => store_at (mode s) t k (pixel data k))) by (intros i x _; by rewrite Z.sub_0_r).
    apply stored_reads; try done; apply Hin. }
  exists s3, w0. split.
  { rewrite stream_app, He. cbn [mbind option_bind]. rewrite packet_executes; [done..|exact (fo_len _ (i_fifo _ Hi2))]. }
  split; [exact Hpx|]. cbv zeta. rewrite <- Hw2.
  destruct (reads_image (length data) s3 Hi3 Ha) as [Hv Hend].
  { rewrite Ht3. unfold words_left. change (pos t) with 0. rewrite Z.sub_0_r. by rewrite Hlen. }
  destruct (reads (length data) s3) as [out s4]. cbn [fst snd] in *. rewrite Ht3, Hw3 in Hv. change (pos t / 2) with 0 in Hv.
  split; [by rewrite Hv, length_map, length_seqZ, Nat2Z.id|]. split; [done|].
  assert (Hread : forall j, 0 <= j < Z.of_nat (length data) -> aget out j = read_word t (world s2) j).
  { intros j Hj. rewrite Hv. unfold aget. rewrite nth_lookup_default, list_lookup_fmap, lookup_seqZ_lt by lia.
    cbn [fmap option_fmap option_map default]. by rewrite Z2Nat.id, Z.add_0_l, read_word_backdrop by lia. }
  split; [exact Hread|]. intros Hkeep j Hj. rewrite (Hread j Hj). apply shown_word; [|lia| |by apply aget_Forall].
  - intros k Hk. by rewrite Hkeep, Hpx.
  - fold t in Hlen. unfold image_words in Hlen. fold t in Hlen. dlia.
Qed.

(** ** GPUSTAT *)

(** A field or-ed above the ones below it. *)
Lemma field_add stat v b sh :
  0 <= b -> 0 <= v < 2 ^ b -> 0 <= sh -> 0 <= stat < 2 ^ sh ->
  Z.lor stat (Z.shiftl (Z.land v (2 ^ b - 1)) sh) = stat + 2 ^ sh * v /\ 0 <= stat + 2 ^ sh * v < 2 ^ (sh + b).
Proof.
  intros Hb Hv Hsh Hst. replace (2 ^ b - 1) with (Z.ones b) by (rewrite Z.ones_equiv; lia). rewrite Z.land_ones, Z.mod_small by lia.
  rewrite Z.shiftl_mul_pow2, Z.lor_comm, lor_add by lia. rewrite Z.pow_add_r by lia. split; [lia|]. split; [lia|nia].
Qed.

Lemma flag_add stat sh : 0 <= sh -> 0 <= stat < 2 ^ sh ->
  Z.lor stat (Z.shiftl 1 sh) = stat + 2 ^ sh /\ 0 <= stat + 2 ^ sh < 2 ^ (sh + 1).
Proof.
  intros Hsh Hst. destruct (field_add stat 1 1 sh) as [He Hr]; [lia..|]. rewrite Z.mul_1_r in *. split; [exact He|done].
Qed.

Lemma flag_if (b : bool) stat sh : 0 <= sh -> 0 <= stat < 2 ^ sh ->
  (if b then Z.lor stat (Z.shiftl 1 sh) else stat) = stat + 2 ^ sh * b2z b /\ 0 <= stat + 2 ^ sh * b2z b < 2 ^ (sh + 1).
Proof.
  intros Hsh Hst. destruct (flag_add stat sh Hsh Hst) as [-> Hr]. rewrite Z.pow_add_r in * by lia. destruct b; cbn [b2z]; lia.
Qed.

#[local] Ltac field b :=
  match goal with |- context [Z.lor ?st (Z.shiftl (Z.land ?v ?mask) ?sh)] =>
    lazymatch st with context [Z.lor] => fail | _ => idtac end;
    let P := fresh in
    assert (P : 0 <= st < 2 ^ sh) by first [done|lia|assumption];
    destruct (field_add st v b sh ltac:(lia) ltac:(change (2 ^ b) with (mask + 1); lia) ltac:(lia) P) as [?Hf ?Hb];
    change (2 ^ b - 1) with mask in Hf; rewrite Hf; clear Hf P
  end.

(** The word of GPUSTAT, of the mode, the display registers and the read-back flag. *)
Definition status (m : Mode) (d : Display) (ready : bool) : Z :=
  texpage_x m + 0x10 * texpage_y m + 0x20 * semi_transparency m + 0x80 * texpage_colors m + 0x200 * dither_enabled m +
  0x400 * draw_to_display m + 0x800 * set_mask_bit m + 0x1000 * check_mask_bit m + 0x2000 * interlace_field d +
  0x4000 * reverse_flag d + 0x8000 * texture_disable m + 0x10000 * hres2 d + 0x20000 * hres1 d + 0x80000 * vres d +
  0x100000 * video_mode d + 0x200000 * display_depth d + 0x400000 * vertical_interlace d + 0x800000 * display_disabled d +
  0x1000000 * irq1_flag d + 0x2000000 * b2z (negb (dma_direction d =? 0)) + 0x4000000 + 0x8000000 * b2z ready +
  0x10000000 + 0x20000000 * dma_direction d + 0x80000000 * lcf d.

(** The registers after a poll: at the threshold the field flag flips. *)
Definition polled (s : St) : St :=
  if gpustat_poll_count s + 1 =? GPUSTAT_POLL_VBLANK_THRESHOLD
  then on_world event_ring_record_vblank (on_world (psx_irq_raise 0 0)
         (s <| gpustat_poll_count := 0 |> <| display := (display s) <| lcf := Z.lxor (lcf (display s)) 1 |> |>))
  else s <| gpustat_poll_count := gpustat_poll_count s + 1 |>.

Lemma poll_polled s : Inv s -> snd (gpu_read_gpustat s) = polled s.
Proof.
  intros Hi. pose proof (i_poll s Hi) as Hp. unfold gpu_read_gpustat, polled, GPUSTAT_POLL_VBLANK_THRESHOLD in *. cbv zeta. cbn [snd].
  cbn [gpustat_poll_count upd]. rewrite u32_id by lia. destruct (Z.eqb_spec (gpustat_poll_count s + 1) 1000) as [E|E].
  - rewrite E. done.
  - case_if; [lia|done].
Qed.

Lemma status_word s : Inv s -> fst (gpu_read_gpustat s) = status (mode (polled s)) (display (polled s)) (vram_read_active (polled s)).
Proof.
  intros Hi. rewrite <- (poll_polled s Hi). pose proof (poll_inv s Hi) as Hi2. unfold gpu_read_gpustat in *. cbv zeta in *. cbn [fst snd] in *.
  match type of Hi2 with Inv ?x => revert Hi2; generalize x end. clear s Hi. intros s Hi.
  pose proof (i_mode s Hi) as []. pose proof (i_display s Hi) as [].
  field 4. field 1. field 2. field 2. field 1. field 1. field 1. field 1. field 1. field 1. field 1. field 1. field 2. field 1. field 1. field 1.
  field 1. field 1. field 1.
  match goal with Hx : 0 <= ?x < 2 ^ (24 + 1) |- _ => remember x as A eqn:HA; rename Hx into Hr end.
  assert (Hdma : (dma_direction (display s) =? 1) || (dma_direction (display s) =? 2) || (dma_direction (display s) =? 3)
    = negb (dma_direction (display s) =? 0)) by lia. rewrite Hdma.
  destruct (flag_if (negb (dma_direction (display s) =? 0)) A 25 ltac:(lia) Hr) as [-> Hr1].
  destruct (flag_add _ 26 ltac:(lia) Hr1) as [-> Hr2].
  destruct (flag_if (vram_read_active s) _ 27 ltac:(lia) Hr2) as [-> Hr3].
  destruct (flag_add _ 28 ltac:(lia) Hr3) as [-> Hr4].
  field 2. field 1. subst A. unfold status. lia.
Qed.

Definition polls (n : nat) (s : St) : St := Nat.iter n (fun s => snd (gpu_read_gpustat s)) s.

Lemma polls_inv n s : Inv s -> Inv (polls n s).
Proof. intros Hi. induction n as [|n IH]; cbn; [done|]. by apply poll_inv. Qed.

(** Below the threshold a poll only counts. *)
Lemma polls_count n s : Inv s -> Z.of_nat n < GPUSTAT_POLL_VBLANK_THRESHOLD - gpustat_poll_count s ->
  polls n s = s <| gpustat_poll_count := gpustat_poll_count s + Z.of_nat n |>.
Proof.
  intros Hi. induction n as [|n IH]; intros Hn; [by cbn; rewrite Z.add_0_r|].
  change (polls (S n) s) with (snd (gpu_read_gpustat (polls n s))). rewrite poll_polled by by apply polls_inv.
  rewrite IH by lia. unfold polled. cbn [gpustat_poll_count upd]. case_if; [lia|].
  replace (gpustat_poll_count s + Z.of_nat (S n)) with (gpustat_poll_count s + Z.of_nat n + 1) by lia. done.
Qed.

(** C35: every read of GPUSTAT returns exactly the word [status] of the draw mode, mask,
    display and DMA registers, each in its field, with bits 26 and 28 set, bit 27 the
    read-back flag, and bit 25 set for every DMA direction but 0 (for direction 3
    too, where the comment of gpu.c says "same as bit 27"); and a guest that spins on
    it cannot spin forever: while the count is below the threshold polling changes
    nothing but the count, and the poll that reaches it flips the field flag (bit
    31), raises one vertical-blank interrupt and starts the count again. *)
Theorem gpustat_polling n s :
  Inv s -> Z.of_nat n < GPUSTAT_POLL_VBLANK_THRESHOLD - gpustat_poll_count s ->
  polls n s = s <| gpustat_poll_count := gpustat_poll_count s + Z.of_nat n |> /\
  (Z.of_nat n + 1 < GPUSTAT_POLL_VBLANK_THRESHOLD - gpustat_poll_count s ->
   fst (gpu_read_gpustat (polls n s)) = status (mode s) (display s) (vram_read_active s)) /\
  let last := polls (Z.to_nat (GPUSTAT_POLL_VBLANK_THRESHOLD - gpustat_poll_count s - 1)) s in
  fst (gpu_read_gpustat last) = status (mode s) ((display s) <| lcf := 1 - lcf (display s) |>) (vram_read_active s) /\
  snd (gpu_read_gpustat last) =
    s <| gpustat_poll_count := 0 |> <| display := (display s) <| lcf := 1 - lcf (display s) |> |>
      <| world := event_ring_record_vblank (psx_irq_raise 0 0 (world s)) |>.
Proof.
  intros Hi Hn. split; [by apply polls_count|]. split.
  { intros Hn1. rewrite status_word, polls_count by (by apply polls_inv || done). unfold polled. cbn [gpustat_poll_count upd].
    case_if; [lia|done]. }
  cbv zeta. pose proof (i_poll s Hi) as Hp.
  set (k := Z.to_nat _). assert (Hk : Inv (polls k s)) by by apply polls_inv.
  rewrite status_word, poll_polled by done. rewrite polls_count by (done || lia).
  unfold polled. cbn [gpustat_poll_count upd]. case_if; [|lia].
  assert (Hl : Z.lxor (lcf (display s)) 1 = 1 - lcf (display s)).
  { pose proof (do_lcf _ (i_display s Hi)). by assert (lcf (display s) = 0 \/ lcf (display s) = 1) as [-> | ->] by lia. }
  cbn [display upd]. rewrite Hl. done.
Qed.

(** ** Registers read through GP1 *)

(** The parameter bits of the environment commands E2h to E5h that GP1(10h) returns. *)
Definition env_mask (op : Z) : Z := if op =? 0xE5 then 0x3FFFFF else 0xFFFFF.

Lemma sign_extend_back x : Z.land (u32 (sign_extend (Z.land x 0x7FF) 11)) 0x7FF = Z.land x 0x7FF.
Proof.
  assert (Ha : forall y, 0 <= y < 2048 -> Z.land (u32 (sign_extend y 11)) 0x7FF = y).
  { intros y Hy. apply Z.eqb_eq. revert y Hy. apply (forallb_seqZ (fun y => Z.land (u32 (sign_extend y 11)) 0x7FF =? y) 0 2048).
    vm_compute. reflexivity. }
  apply Ha. by apply (land_upto _ 0x7FF 11).
Qed.

Lemma fields_join p n : 0 <= n -> Z.lor (Z.land p (Z.ones n)) (Z.shiftl (Z.land (Z.shiftr p n) (Z.ones n)) n) = Z.land p (Z.ones (2 * n)).
Proof.
  intros Hn. rewrite !Z.land_ones, Z.shiftr_div_pow2, Z.shiftl_mul_pow2, Z.lor_comm by lia.
  rewrite lor_add by (try lia; apply Z.mod_pos_bound; lia). replace (2 * n) with (n + n) by lia. rewrite Z.pow_add_r by lia.
  rewrite Z.rem_mul_r by lia. lia.
Qed.

Lemma param_join val n : 0 <= n <= 12 ->
  Z.lor (Z.land (Z.land val 0xFFFFFF) (Z.ones n)) (Z.shiftl (Z.land (Z.shiftr (Z.land val 0xFFFFFF) n) (Z.ones n)) n) = Z.land val (Z.ones (2 * n)).
Proof.
  intros Hn. rewrite fields_join by lia. change 0xFFFFFF with (Z.ones 24). rewrite <- Z.land_assoc. f_equal.
  rewrite Z.land_comm, Z.land_ones by lia. rewrite Z.mod_small; [done|]. rewrite Z.ones_equiv.
  assert (2 ^ (2 * n) <= 2 ^ 24) by (apply Z.pow_le_mono_r; lia). assert (0 < 2 ^ (2 * n)) by (apply Z.pow_pos_nonneg; lia). lia.
Qed.

(** The query [which] of GP1(10h). *)
Definition info_value (which : Z) (m : Mode) : Z :=
  if which =? 2 then texture_window_value m
  else if which =? 3 then Z.lor (draw_area_left m) (Z.shiftl (draw_area_top m) 10)
  else if which =? 4 then Z.lor (draw_area_right m) (Z.shiftl (draw_area_bottom m) 10)
  else Z.lor (Z.land (u32 (draw_offset_x m)) 0x7FF) (Z.shiftl (Z.land (u32 (draw_offset_y m)) 0x7FF) 11).

Lemma info_query which s : 2 <= which <= 5 ->
  exists s', gpu_write_gp1 (0x10000000 + which) s = Some s' /\ gpuread_latch s' = info_value which (mode s) /\
    vram_read_active s' = vram_read_active s.
Proof.
  intros Hw. assert (which = 2 \/ which = 3 \/ which = 4 \/ which = 5) as [-> | [-> | [-> | ->]]] by lia;
    (eexists; split; [reflexivity|]; by split).
Qed.

(** What the environment commands E2h to E5h leave for their query. *)
Lemma environment_info val s1 f :
  0xE2 <= opcode_of val <= 0xE5 -> cmd 0 s1 = val -> gp0_handler (opcode_of val) = Some f ->
  info_value (opcode_of val - 0xE0) (mode (f s1)) = Z.land val (env_mask (opcode_of val)) /\
  vram_read_active (f s1) = vram_read_active s1.
Proof.
  intros Hop Hcmd. assert (opcode_of val = 0xE2 \/ opcode_of val = 0xE3 \/ opcode_of val = 0xE4 \/ opcode_of val = 0xE5) as Ho by lia.
  destruct Ho as [Ho|[Ho|[Ho|Ho]]]; rewrite Ho; intros [= <-].
  - split; [|done]. cbn. by rewrite Hcmd.
  - unfold gp0_exec_draw_area_tl. cbv zeta. (edestruct (@outside_mode W) as [Hm Hact]; [apply sync_outside|]). rewrite Hm, Hact.
    split; [|done].
    change (Z.lor (Z.land (param s1) 0x3FF) (Z.shiftl (Z.land (Z.shiftr (param s1) 10) 0x3FF) 10) = Z.land val 0xFFFFF).
    unfold param. rewrite Hcmd. exact (param_join val 10 ltac:(lia)).
  - unfold gp0_exec_draw_area_br. cbv zeta. (edestruct (@outside_mode W) as [Hm Hact]; [apply sync_outside|]). rewrite Hm, Hact.
    split; [|done].
    change (Z.lor (Z.land (param s1) 0x3FF) (Z.shiftl (Z.land (Z.shiftr (param s1) 10) 0x3FF) 10) = Z.land val 0xFFFFF).
    unfold param. rewrite Hcmd. exact (param_join val 10 ltac:(lia)).
  - split; [|done].
    change (Z.lor (Z.land (u32 (sign_extend (Z.land (param s1) 0x7FF) 11)) 0x7FF)
      (Z.shiftl (Z.land (u32 (sign_extend (Z.land (Z.shiftr (param s1) 11) 0x7FF) 11)) 0x7FF) 11) = Z.land val 0x3FFFFF).
    rewrite !sign_extend_back. unfold param. rewrite Hcmd. exact (param_join val 11 ltac:(lia)).
Qed.

(** C39: what an environment command sets can be read back: after a texture-window,
    draw-area or draw-offset command (E2h to E5h) the matching GP1(10h) query puts
    the command's parameter bits in the GPUREAD latch, the sign extension of the
    offsets undone, and GPUREAD returns them unless a pixel read-back (C0h) is in
    progress: GPUREAD then returns its next pixels, and overwrites the latch with
    them. *)
Theorem info_reads_back val s :
  Inv s -> gp0_state (fifo s) = GP0_IDLE -> is_u32 val -> 0xE2 <= opcode_of val <= 0xE5 ->
  exists s1 s2, gpu_write_gp0 val s = Some s1 /\ gpu_write_gp1 (0x10000000 + (opcode_of val - 0xE0)) s1 = Some s2 /\
    gpuread_latch s2 = Z.land val (env_mask (opcode_of val)) /\
    (vram_read_active s = false -> fst (gpu_read_gpuread s2) = Z.land val (env_mask (opcode_of val))) /\
    (vram_read_active s = true ->
     fst (gpu_read_gpuread s2) = read_word (vram_read s2) (world s2) (pos (vram_read s2) / 2) /\
     gpuread_latch (snd (gpu_read_gpuread s2)) = fst (gpu_read_gpuread s2)).
Proof.
  intros Hi Hst Hv Hop. pose proof (fo_len _ (i_fifo s Hi)) as Hb.
  assert (Hp : Packet [val]).
  { exists val, []. split; [done|]. unfold gp0_command_word_count, between. cbn [length]. repeat case_if; lia. }
  pose proof (packet_executes [val] s Hp Hst Hb) as He. destruct (execute_latched [val] s Hp) as (s0 & H0 & Hc).
  change (opcode [val]) with (opcode_of val) in Hc. rewrite Hc in He. clear Hc. cbn [stream] in He.
  assert (Hcmd : cmd 0 s0 = val /\ vram_read_active s0 = vram_read_active s) by (by destruct H0 as (c & wd & b & ->)).
  destruct Hcmd as [Hcmd Ha0].
  destruct (gp0_handler (opcode_of val)) as [f|] eqn:Ef; [|exfalso; revert Ef; unfold gp0_handler, between; repeat case_if; done || lia].
  destruct (environment_info val s0 f Hop Hcmd Ef) as [Hval Hact].
  destruct (info_query (opcode_of val - 0xE0) (f s0) ltac:(lia)) as (s2 & H2 & Hl & Ha2).
  assert (He' : gpu_write_gp0 val s = Some (f s0)) by (rewrite <- He; by destruct (gpu_write_gp0 val s)).
  exists (f s0), s2. split; [done|]. split; [done|]. split; [by rewrite Hl|].
  assert (Ha : vram_read_active s2 = vram_read_active s) by congruence.
  split; intros Hs; rewrite Hs in Ha.
  - unfold gpu_read_gpuread. rewrite Ha. cbn [negb fst]. by rewrite Hl.
  - assert (Hi2 : Inv s2).
    { apply (gp1_inv (0x10000000 + (opcode_of val - 0xE0)) (f s0)); [|done]. by apply (gp0_inv val s). }
    split; [exact (proj1 (read_one s2 Hi2 Ha))|].
    unfold gpu_read_gpuread. rewrite Ha. cbn [negb]. destruct (gpuread_pixel 0 0 s2) as [[v l] s3]. destruct l; [done|].
    by destruct (gpuread_pixel 1 v s3) as [[? ?] ?].
Qed.

End Port.
End GpuPort.
