(* ===== verification/GpuSnapshot.v ===== *)
(** * The register snapshot

    Writing the registers to bytes and reading them back (gpu.c, GPU_SNAP_FIELDS). *)

From S2P Require Import Prelude Gpu GpuLaws.

Module GpuSnapshot.
Import Gpu GpuLaws.

Section Snapshot.
Context {W : Type} `{R : Renderer W} `{H : Host W}.
Abbreviation St := (State W).

(** ** Fields *)

Lemma length_le_bytes n v : length (le_bytes n v) = n.
Proof. revert v. induction n as [|n IH]; intros v; cbn; [done|]. by rewrite IH. Qed.

Lemma le_round n : forall v, le_value (le_bytes n v) = v mod 2 ^ (8 * Z.of_nat n).
Proof.
  induction n as [|n IH]; intros v; [by cbn; rewrite Z.mod_1_r|]. cbn [le_bytes le_value]. rewrite IH.
  rewrite Z.shiftr_div_pow2, Z.shiftl_mul_pow2 by lia. replace (8 * Z.of_nat (S n)) with (8 + 8 * Z.of_nat n) by lia.
  rewrite Z.pow_add_r, Z.rem_mul_r by lia. unfold u8. change (2 ^ 8) with 0x100. lia.
Qed.

(** The restoration, field by field, of the values of [s] cut to their sizes. *)
Definition restore (fs : list (Field (W:=W))) (s a : St) : St :=
  fold_left (fun a f => f_put f (f_get f s mod 2 ^ (8 * Z.of_nat (f_size f))) a) fs a.

Lemma read_write fs (s : St) : forall a, snapshot_read fs (snapshot_write fs s) a = restore fs s a.
Proof.
  induction fs as [|f fs IH]; intros a; [done|]. cbn [snapshot_read snapshot_write flat_map].
  rewrite take_app_length' by (by rewrite length_le_bytes). rewrite drop_app_length' by (by rewrite length_le_bytes).
  rewrite le_round. apply IH.
Qed.

Lemma write_length fs (s : St) : Z.of_nat (length (snapshot_write fs s)) = snapshot_bytes fs.
Proof. 
  induction fs as [|f fs IH]; [done|]. change (snapshot_bytes (f :: fs)) with (Z.of_nat (f_size f) + snapshot_bytes fs).
  cbn [snapshot_write flat_map]. rewrite length_app, length_le_bytes, Nat2Z.inj_add. by rewrite <- IH.
 Qed.

Lemma restore_app a b s x : restore (a ++ b) s x = restore b s (restore a s x).
Proof. apply fold_left_app. Qed.

(** A register of four bytes. *)
Lemma cut32 x : 0 <= x < 0x100000000 -> u32 x mod 2 ^ (8 * Z.of_nat 4) = x.
Proof. intros Hx. change (2 ^ (8 * Z.of_nat 4)) with 0x100000000. unfold u32. rewrite Zmod_mod, Z.mod_small; lia. Qed.
Lemma cut16 x : 0 <= x < 0x10000 -> u16 x mod 2 ^ (8 * Z.of_nat 2) = x.
Proof. intros Hx. change (2 ^ (8 * Z.of_nat 2)) with 0x10000. unfold u16. rewrite Zmod_mod, Z.mod_small; lia. Qed.
Lemma signed32 x : -0x80000000 <= x < 0x80000000 -> s32 (u32 x mod 2 ^ (8 * Z.of_nat 4)) = x.
Proof.
  intros Hx. change (2 ^ (8 * Z.of_nat 4)) with 0x100000000. unfold s32, u32. rewrite Zmod_mod, Zplus_mod_idemp_l.
  rewrite Z.mod_small; lia.
Qed.

(** What a snapshot holds of [s], in a machine [a]: all but the statistics, the poll
    count, the widescreen state and the world. *)
Definition restored (s a : St) : St :=
  mkState (mode s) (display s) (fifo s) (polyline s) (vram_write s) (vram_write_remaining s) (vram_read s) (vram_read_active s)
    (u32 (gpuread_latch s)) (gpustat_poll_count a) (counts a) (wide a) (world a).

(** The restoration as a sequence of updates [gs], one a field. *)
Definition Updates (s : St) (fs : list (Field (W:=W))) (gs : list (St -> St)) : Prop :=
  Forall2 (fun f g => forall a, f_put f (f_get f s mod 2 ^ (8 * Z.of_nat (f_size f))) a = g a) fs gs.

Lemma restore_updates s fs gs a : Updates s fs gs -> restore fs s a = fold_left (fun a g => g a) gs a.
Proof.
  intros Hu. revert a. induction Hu as [|f g fs gs Hfg Hu IH]; intros a; [done|].
  change (restore (f :: fs) s a) with (restore fs s (f_put f (f_get f s mod 2 ^ (8 * Z.of_nat (f_size f))) a)). cbn [fold_left].
  by rewrite Hfg.
Qed.

Lemma cut_flag b : negb (b2z b mod 2 ^ (8 * Z.of_nat 4) =? 0) = b.
Proof. by destruct b. Qed.
Lemma cut_state g : state_of (u32 (state_code g) mod 2 ^ (8 * Z.of_nat 4)) = g.
Proof. by destruct g. Qed.
Lemma cut_small n x : 0 <= x < 2 ^ (8 * Z.of_nat n) -> (x mod 2 ^ (8 * Z.of_nat n)) mod 2 ^ (8 * Z.of_nat n) = x.
Proof. intros Hx. rewrite Zmod_mod. by apply Z.mod_small. Qed.
Lemma cut_signed x : -0x80000000 <= x < 0x80000000 -> s32 ((x mod 2 ^ (8 * Z.of_nat 4)) mod 2 ^ (8 * Z.of_nat 4)) = x.
Proof. exact (signed32 x). Qed.

Lemma cut_any x : u32 x mod 2 ^ (8 * Z.of_nat 4) = u32 x.
Proof. apply Zmod_mod. Qed.

#[local] Ltac cut Hb :=
  intros ?; cbn [f_put f_get f_size];
  first [rewrite cut_state|rewrite cut_flag|rewrite signed32 by lia|rewrite cut32 by first [apply Hb|lia]|rewrite cut16 by lia
        |rewrite cut_signed by lia|rewrite cut_small by (change (2 ^ (8 * Z.of_nat 2)) with 0x10000; lia)|rewrite cut_any]; reflexivity.

(** C36: a snapshot restores the registers: read into any machine, the bytes written
    from a reachable one are accepted and bring back every register, the command
    being collected, the polyline and both transfers in progress, and touch nothing
    else; a buffer of any other length is refused and changes nothing. *)
Theorem gpu_snapshot_restores s a :
  Inv s -> length (gp0_cmd_buf (fifo a)) = 16%nat ->
  gpu_snapshot_read (gpu_snapshot_write s) a = (true, restored s a) /\
  forall p, Z.of_nat (length p) <> gpu_snapshot_bytes (W:=W) -> gpu_snapshot_read p a = (false, a).
Proof.
  intros Hi Hl. split; [|intros p Hp; unfold gpu_snapshot_read; by case_if; [|lia]].
  unfold gpu_snapshot_read, gpu_snapshot_write, gpu_snapshot_bytes. rewrite write_length, Z.eqb_refl. cbn [negb]. f_equal.
  rewrite read_write. destruct Hi as [[] [] [] [] [] [] ? _ _ _].
  assert (Hb : forall i, is_u32 (aget (gp0_cmd_buf (fifo s)) i)) by (intros i; by apply aget_Forall).
  unfold is_u32 in *. erewrite restore_updates.
  2: { unfold GPU_SNAP_FIELDS, snap_fields, mode_fields, area_fields, display_fields, source_fields, buffer_fields, polyline_fields,
         transfer_fields, fifo_field, display_field. change (seqZ 0 16) with [0; 1; 2; 3; 4; 5; 6; 7; 8; 9; 10; 11; 12; 13; 14; 15].
       cbn [app map]. repeat (apply Forall2_cons_2; [cut Hb|]). apply Forall2_nil_2. }
  clear - fo_len0 Hl. destruct a as [ma da [sta bufa ka na xa ya] pa wa ra ta acta la polla ca wda wrl]. cbn in Hl.
  assert (Hf : fifo s = mkFifo (gp0_state (fifo s)) (gp0_cmd_buf (fifo s)) (gp0_words_collected (fifo s)) (gp0_words_needed (fifo s))
    (gp0_next_source_addr (fifo s)) (gp0_cmd_source_addr (fifo s))) by done.
  unfold restored. rewrite Hf. revert fo_len0. generalize (gp0_cmd_buf (fifo s)). intros bufs Hs. clear Hf.
  do 16 (destruct bufs as [|? bufs]; [done|]). destruct bufs; [|done].
  do 16 (destruct bufa as [|? bufa]; [done|]). destruct bufa; [|done].
  generalize (u32 (gpuread_latch s)). intros. reflexivity.
Qed.

End Snapshot.
End GpuSnapshot.
