(* ===== verification/GpuCalls.v ===== *)
(** * The calls the command processor makes

    Whatever relation between worlds the facade's calls respect, with the 16-bit
    colours their C types promise, the whole processor respects ([Facade],
    [exec_steps]).  The software back end is one: every operation of the processor
    is a sequence of typed calls of the rasteriser, so memory safety carries over
    to whatever words a guest writes. *)

From S2P Require Import Prelude SwRenderer SwLaws SwSafety Gpu GpuSoftware GpuLaws GpuStream GpuPort.

Module GpuCalls.
Import Gpu GpuLaws.

Section Calls.
Context {W : Type} `{R : Renderer W} `{H : Host W}.
Abbreviation St := (State W).

(** ** What the facade promises *)

(** The calls of drawing, transfers and presentation. *)
Class Drawing (Step : W -> W -> Prop) : Prop := mkDrawing {
  fc_pre :: PreOrder Step;
  fc_semi : forall e m w, Step w (gr_set_semi_transparency e m w);
  fc_modulation : forall r g b raw w, Step w (gr_set_color_modulation r g b raw w);
  fc_fill : forall x y w h c v, is_u16 c -> Step v (gr_fill_rect x y w h c v);
  fc_copy : forall sx sy dx dy w h v, Step v (gr_copy_rect sx sy dx dy w h v);
  fc_flat : forall a b d c w, is_u16 c -> Step w (gr_draw_flat_triangle a b d c w);
  fc_gouraud : forall a ca b cb d cd w, Step w (gr_draw_gouraud_triangle a ca b cb d cd w);
  fc_textured : forall a ta b tb d td cx cy tp w, Step w (gr_draw_textured_triangle a ta b tb d td cx cy tp w);
  fc_shaded_textured : forall a ta ca b tb cb d td cd cx cy tp raw w,
    Step w (gr_draw_shaded_textured_triangle a ta ca b tb cb d td cd cx cy tp raw w);
  fc_rect : forall x y w h c v, is_u16 c -> Step v (gr_draw_flat_rect x y w h c v);
  fc_textured_rect : forall x y w h u v cx cy tp z, Step z (gr_draw_textured_rect x y w h u v cx cy tp z);
  fc_scaled_rect : forall x y w h u0 v0 u1 v1 cx cy tp z, Step z (gr_draw_textured_rect_scaled x y w h u0 v0 u1 v1 cx cy tp z);
  fc_line : forall x0 y0 x1 y1 c w, is_u16 c -> Step w (gr_draw_line x0 y0 x1 y1 c w);
  fc_shaded_line : forall x0 y0 c0 x1 y1 c1 w, Step w (gr_draw_shaded_line x0 y0 c0 x1 y1 c1 w);
  fc_write : forall x y p w, is_u16 p -> Step w (gr_vram_write x y p w);
  fc_wide_configure : forall a b w, Step w (gr_wide_configure a b w);
  fc_wide_target : forall b w, Step w (gr_wide_set_target b w);
  fc_wide_disable : forall w, Step w (gr_wide_disable_target w);
  fc_wide_clear : forall b y h c w, is_u16 c -> Step w (gr_wide_clear b y h c w);
  fc_backdrop : forall b w, Step w (gr_prim_in_backdrop b w);
  fc_irq : forall a b w, Step w (psx_irq_raise a b w);
  fc_event : forall w, Step w (event_ring_record_vblank w);
  fc_vblank : forall cb w, vblank_callback = Some cb -> Step w (cb w);
  fc_upload : forall x y w h v, Step v (text_xlate_vram_upload x y w h v);
  fc_bg_record : forall a b c d e f w, Step w (gpu_ws_mmx6_bg_record a b c d e f w);
  fc_reveal : forall x y w, Step w (gpu_ws_mmx6_emit_reveal x y w)
}.

(** And those that set the drawing environment. *)
Class Facade (Step : W -> W -> Prop) : Prop := mkFacade {
  fc_drawing :: Drawing Step;
  fc_init : forall w, Step w (gr_init w);
  fc_mask : forall a b w, Step w (gr_set_mask_bits a b w);
  fc_window : forall v w, Step w (gr_set_texture_window v w);
  fc_area : forall x1 y1 x2 y2 w, Step w (gr_set_draw_area x1 y1 x2 y2 w);
  fc_offset : forall x y w, Step w (gr_set_draw_offset x y w)
}.

(** Everything but the rest of the world acting on its own. *)
Definition guest (o : Op (W:=W)) : Prop := match o with Gp0 v | Source v => is_u32 v | Elsewhere _ => False | _ => True end.

Lemma guest_typed o : guest o -> GpuLaws.typed o.
Proof. by destruct o. Qed.

Context (Step : W -> W -> Prop).

Section Draw.
Context `{!Drawing Step}.

Definition Steps (s s' : St) : Prop := Step (world s) (world s').

Lemma steps_refl s : Steps s s.
Proof. unfold Steps. reflexivity. Qed.
Lemma steps_trans a b c : Steps a b -> Steps b c -> Steps a c.
Proof. unfold Steps. intros. by etransitivity. Qed.
(** The same world. *)
Lemma steps_still (s s' : St) : world s' = world s -> Steps s s'.
Proof. unfold Steps. by intros ->. Qed.
Ltac still := by apply steps_still.

Lemma steps_on f s s' : (forall w, Step w (f w)) -> Steps s s' -> Steps s (on_world f s').
Proof. intros Hf Hs. eapply steps_trans; [exact Hs|]. apply Hf. Qed.
Lemma steps_cached s s1 s2 : cached s1 s2 -> Steps s s1 -> Steps s s2.
Proof. unfold Steps. by intros ->%cached_world. Qed.

Lemma color_u16 c : is_u16 (rgb888_to_rgb555 c).
Proof. pose proof (rgb555_range c). unfold is_u16. lia. Qed.

Lemma color_at_u16 i (s : St) : is_u16 (color i s).
Proof. apply color_u16. Qed.

Create HintDb calls discriminated.
#[local] Hint Resolve steps_refl steps_on color_u16 color_at_u16 : calls.
#[local] Hint Extern 2 (Step _ _) => first
  [apply fc_semi|apply fc_modulation|apply fc_fill
  |apply fc_copy|apply fc_flat|apply fc_gouraud|apply fc_textured|apply fc_shaded_textured|apply fc_rect|apply fc_textured_rect
  |apply fc_scaled_rect|apply fc_line|apply fc_shaded_line|apply fc_write|apply fc_wide_configure|apply fc_wide_target
  |apply fc_wide_disable|apply fc_wide_clear|apply fc_irq|apply fc_event|apply fc_upload|apply fc_bg_record|apply fc_reveal] : calls.

(** ** Handlers *)

Lemma steps_setup c se raw s s' : Steps s s' -> Steps s (setup_textured_draw c se raw s').
Proof. intros P. unfold setup_textured_draw. cbv zeta. auto with calls. Qed.
Lemma steps_semi s s' : Steps s s' -> Steps s (set_semi s').
Proof. intros P. unfold set_semi. auto with calls. Qed.
Lemma steps_tpage w s s' : Steps s s' -> Steps s (set_tpage_from_poly w s').
Proof. done. Qed.
Lemma steps_sprite x y w h ws u v cl s s' : Steps s s' -> Steps s (draw_sprite x y w h ws u v cl s').
Proof. intros P. unfold draw_sprite. cbv zeta. case_if; auto with calls. Qed.
#[local] Hint Resolve steps_setup steps_semi steps_tpage steps_sprite : calls.

Lemma steps_sync s s' : Steps s s' -> Steps s (ws_nw_sync_target s').
Proof.
  intros P. unfold ws_nw_sync_target. pose proof (steps_cached _ _ _ (nw_active_cached s') P) as P1.
  destruct (ws_native_wide_active s') as [on s1]. cbn in P1. case_if; [auto with calls|].
  unfold ws_nw_extra. pose proof (steps_cached _ _ _ (nw_offset_cached s1) P1) as P2. destruct (ws_nw_offset s1) as [v s2]. cbn in P2.
  pose proof (steps_cached _ _ _ (nw_offset_cached s2) P2) as P3. destruct (ws_nw_offset s2) as [v' s3]. cbn in P3. cbv zeta.
  case_if; auto with calls.
Qed.

Lemma steps_textured_quad s : Steps s (gp0_exec_textured_quad s).
Proof.
  unfold gp0_exec_textured_quad. cbv zeta.
  pose proof (steps_cached _ _ _ (tagged_cached _) (steps_tpage (u16 (Z.shiftr (cmd 4 s) 16)) _ _ (steps_refl s))) as P.
  destruct (ws_tagged_anchor _) as [tag s']. cbn in P.
  destruct (textured_quad_rect _ _ _ _) as [[[[[[[[? ?] ?] ?] ?] ?] ?] ?]|]; [case_if|]; auto with calls.
Qed.

Lemma steps_exec_textured_rect s : Steps s (gp0_exec_textured_rect s).
Proof.
  unfold gp0_exec_textured_rect. cbv zeta. destruct (parse_vertex _) as [x0 y0], (texcoord _ _) as [u0 v0].
  pose proof (steps_cached _ _ _ (active_cached s) (steps_refl s)) as P. destruct (ws_active s) as [on s1]. cbn in P.
  case_if; [|auto with calls]. pose proof (steps_cached _ _ _ (tagged_cached s1) P) as P'. destruct (ws_tagged_anchor s1) as [[ax|] s2]; cbn in P'.
  - auto with calls.
  - case_if; auto with calls.
Qed.

Lemma steps_textured_square n learn s : (forall s s', Steps s s' -> Steps s (learn s')) -> Steps s (textured_square n learn s).
Proof.
  intros Hl. unfold textured_square. cbv zeta. destruct (parse_vertex _) as [x0 y0], (texcoord _ _) as [u0 v0].
  pose proof (steps_cached _ _ _ (sprt_cached x0 n s) (steps_refl s)) as P.
  destruct (ws_sprt_fixed_transform x0 n s) as [[x1 ww] s1]. cbn in P. auto with calls.
Qed.

Lemma steps_textured_dot s : Steps s (gp0_exec_textured_dot s).
Proof.
  unfold gp0_exec_textured_dot. cbv zeta. destruct (parse_vertex _) as [x0 y0].
  pose proof (steps_cached _ _ _ (sprt_cached x0 1 s) (steps_refl s)) as P. destruct (ws_sprt_fixed_transform x0 1 s) as [[x1 ww] s1]. cbn in P.
  destruct (texcoord _ _) as [u0 v0]. auto with calls.
Qed.

Lemma steps_fill s : Steps s (gp0_exec_fill_rect s).
Proof.
  unfold gp0_exec_fill_rect. cbv zeta. match goal with |- context [ws_native_wide_active ?x] =>
    assert (P : Steps s x) by auto with calls; apply (steps_cached _ _ _ (nw_active_cached x)) in P; destruct (ws_native_wide_active x) as [nw s'] end.
  cbn in P. case_if; auto with calls.
Qed.

Lemma steps_copy s : Steps s (gp0_exec_copy_rect s).
Proof. unfold gp0_exec_copy_rect. cbv zeta. auto with calls. Qed.

Lemma steps_upload s : Steps s (gp0_exec_cpu_to_vram s).
Proof. unfold gp0_exec_cpu_to_vram. cbv zeta. case_if; still. Qed.

(** The commands that set the drawing environment. *)
Definition environment (op : Z) : bool := between 0xE2 0xE6 op.

Lemma drawing_steps op f s : environment op = false -> gp0_handler op = Some f -> Steps s (f s).
Proof.
  unfold gp0_handler, environment, between. intros He.
  repeat lazymatch goal with |- (if ?b then Some ?g else _) = _ -> _ => destruct b eqn:?Eb; [intros [= <-]|] end; [..|done];
    try (exfalso; lia); clear He.
  - still.
  - apply steps_fill.
  - still.
  - unfold gp0_exec_mono_tri. auto with calls.
  - unfold gp0_exec_textured_tri. cbv zeta. auto with calls.
  - unfold gp0_exec_mono_quad. cbv zeta. auto 6 with calls.
  - apply steps_textured_quad.
  - unfold gp0_exec_shaded_tri. cbv zeta. auto with calls.
  - unfold gp0_exec_shaded_textured_tri. cbv zeta. auto 6 with calls.
  - unfold gp0_exec_shaded_quad. cbv zeta. auto 6 with calls.
  - unfold gp0_exec_shaded_textured_quad. cbv zeta. auto 7 with calls.
  - unfold gp0_exec_mono_line. cbv zeta. auto with calls.
  - unfold gp0_exec_shaded_line. cbv zeta. auto with calls.
  - unfold gp0_exec_mono_rect. cbv zeta. auto with calls.
  - apply steps_exec_textured_rect.
  - unfold gp0_exec_mono_dot, mono_square. cbv zeta. auto with calls.
  - apply steps_textured_dot.
  - unfold gp0_exec_mono_8x8, mono_square. cbv zeta. auto with calls.
  - apply steps_textured_square. auto.
  - unfold gp0_exec_mono_16x16, mono_square. cbv zeta. auto with calls.
  - apply steps_textured_square. intros. case_if; auto with calls.
  - apply steps_copy.
  - apply steps_upload.
  - still.
  - still.
Qed.

(** ** Words *)

Lemma store_steps p s : is_u16 p -> Steps s (store_pixel p s).
Proof.
  intros Hp. unfold store_pixel. cbv zeta. case_if; [apply steps_refl|]. apply steps_on; [|apply steps_refl]. intros w. apply fc_write.
  case_if; [by apply SwSafety.marked_u16|done].
Qed.

Lemma ended_steps t s s' : Steps s s' -> Steps s (upload_done (s' <| vram_write := t |>)).
Proof. intros P. exact (steps_on _ s s' (fc_upload _ _ _ _) P). Qed.

Lemma write_word_steps val s : Inv s -> gp0_state (fifo s) = GP0_VRAM_WRITE -> Steps s (write_vram_word val s).
Proof.
  intros Hi Hst. rewrite (write_word_spec val s Hi Hst). unfold word_stored. destruct (advance (vram_write s)) as [last t1], (advance t1) as [last2 t2].
  pose proof (store_steps (u16 (Z.shiftr val 0)) s (u16_range _)) as P1.
  pose proof (store_steps (u16 (Z.shiftr val 16)) ((store_pixel (u16 (Z.shiftr val 0)) s) <| vram_write := t1 |>) (u16_range _)) as P2.
  pose proof (steps_trans _ _ _ P1 P2) as P. destruct last; [by apply ended_steps|]. destruct last2; [by apply ended_steps|exact P].
Qed.

Lemma polyline_steps val s : Inv s -> Steps s (polyline_mono_word val s) /\ Steps s (polyline_shaded_word val s).
Proof.
  intros Hi. split.
  - unfold polyline_mono_word. case_if; [still|]. cbv zeta. case_if; [|still].
    refine (steps_on _ s s _ (steps_refl s)). intros w. apply fc_line. pose proof (po_color _ (i_poly s Hi)). unfold is_u16. lia.
  - unfold polyline_shaded_word. cbv zeta. case_if; [still|]. case_if; [case_if; still|].
    exact (steps_on _ s s (fc_shaded_line _ _ _ _ _ _) (steps_refl s)).
Qed.

(** A word runs a command's handler, in the same mode, or only makes calls. *)
Definition Outcome (s s' : St) : Prop :=
  (exists op f s1, gp0_handler op = Some f /\ s' = f s1 /\ mode s1 = mode s /\ Steps s s1) \/ (mode s' = mode s /\ Steps s s').

Lemma outcome_still (s s' : St) : mode s' = mode s -> world s' = world s -> Outcome s s'.
Proof. intros Hm Hw. right. split; [done|by apply steps_still]. Qed.

Lemma execute_outcome s s1 s' : mode s1 = mode s -> world s1 = world s -> gp0_execute_command s1 = Some s' -> Outcome s s'.
Proof.
  intros Hm Hw. destruct (execute_begun s1) as (s2 & (c & wd & b & ->) & ->). destruct (gp0_handler _) as [f|] eqn:Ef; [|done].
  intros [= <-]. left. eexists _, f, _. split_and!; [exact Ef|done|done|]. unfold Steps. cbn [world upd]. rewrite Hw. apply fc_backdrop.
Qed.

Lemma gp0_outcome val s s' : Inv s -> gpu_write_gp0 val s = Some s' -> Outcome s s'.
Proof.
  intros Hi. rewrite GpuStream.write_in_state. cbv zeta.
  pose proof (inv_counts (GpuStream.count_words 1 (counts s)) s Hi) as Hi1. set (s1 := s <| counts := _ |>) in *.
  change (Outcome s s') with (Outcome s1 s'). change (gp0_state (fifo s)) with (gp0_state (fifo s1)). clearbody s1. clear s Hi.
  destruct (gp0_state (fifo s1)) eqn:E.
  - unfold first_word. cbv zeta. case_if; [done|]. case_if; [intros [= <-]|case_if; [by apply execute_outcome|]].
    + right. split; [done|]. exact (steps_on _ s1 s1 (fc_semi _ _) (steps_refl s1)).
    + intros [= <-]. by apply outcome_still.
  - unfold collect_word. cbv zeta. case_if; [by apply execute_outcome|]. intros [= <-]. by apply outcome_still.
  - intros [= <-]. right. split; [|by apply write_word_steps]. rewrite (write_word_spec val s1 Hi1 E). unfold word_stored.
    destruct (advance (vram_write s1)) as [last t1], (advance t1) as [last2 t2].
    destruct (store_outside (u16 (Z.shiftr val 0)) s1) as (wd & w & ->).
    destruct (store_outside (u16 (Z.shiftr val 16)) ((s1 <| wide := wd |> <| world := w |>) <| vram_write := t1 |>)) as (wd' & w' & ->).
    by destruct last, last2.
  - intros [= <-]. right. split; [|by apply polyline_steps]. unfold polyline_mono_word. case_if; [done|]. cbv zeta. by case_if.
  - intros [= <-]. right. split; [|by apply polyline_steps]. unfold polyline_shaded_word. cbv zeta. case_if; [done|]. case_if; [by case_if|done].
Qed.

End Draw.

(** ** The whole processor *)

Section Processor.
Context `{!Facade Step}.
#[local] Ltac still := by apply steps_still.

Lemma handler_steps op f s : gp0_handler op = Some f -> Steps s (f s).
Proof.
  destruct (environment op) eqn:He; [|by apply drawing_steps]. unfold gp0_handler, environment, between in *.
  repeat lazymatch goal with |- (if ?b then Some ?g else _) = _ -> _ => destruct b eqn:?Eb; [intros [= <-]|] end; [..|done];
    try (exfalso; lia); clear He.
  - exact (steps_on _ _ _ (fc_window _) (steps_refl s)).
  - apply steps_sync. exact (steps_on _ _ _ (fc_area _ _ _ _) (steps_refl s)).
  - apply steps_sync. exact (steps_on _ _ _ (fc_area _ _ _ _) (steps_refl s)).
  - exact (steps_on _ _ _ (fc_offset _ _) (steps_refl s)).
  - exact (steps_on _ _ _ (fc_mask _ _) (steps_refl s)).
Qed.

Lemma gp0_steps val s s' : Inv s -> gpu_write_gp0 val s = Some s' -> Steps s s'.
Proof.
  intros Hi [(op & f & s1 & Hf & -> & _ & Hs)|[_ Hs]]%gp0_outcome; [|done|done]. eapply steps_trans; [exact Hs|]. by apply (handler_steps op).
Qed.

Lemma gp1_steps val s s' : gpu_write_gp1 val s = Some s' -> Steps s s'.
Proof.
  unfold gpu_write_gp1. cbv zeta.
  repeat lazymatch goal with |- (if ?b then Some ?g else _) = _ -> _ => destruct b; [intros [= <-]|] end; [..|done]; try still.
  - exact (steps_on _ s s (fc_init) (steps_refl s)).
  - unfold gp1_display_area_start, ws_note_display_base. cbv zeta. case_if; still.
  - unfold gp1_get_info. cbv zeta. repeat case_if; still.
Qed.


(** The guest and the host: words, reads, blanks and settings, and calls of its own
    that the rest of the world makes in between. *)
Definition played (o : Op (W:=W)) : Prop := match o with Elsewhere f => forall w, Step w (f w) | _ => typed o end.

Lemma exec_steps o s s' : played o -> Inv s -> exec o s = Some s' -> Steps s s'.
Proof.
  intros Hg Hi. destruct o as [v|v| | | |a|f|wd]; cbn [exec]; [by apply gp0_steps|by apply gp1_steps|..]; intros [= <-].
  - unfold gpu_read_gpustat. cbv zeta. cbn [snd]. case_if; [|still].
    match goal with |- Steps _ (on_world event_ring_record_vblank (on_world _ ?x)) =>
      exact (steps_on _ s _ fc_event (steps_on _ s x (fc_irq 0 0) (steps_refl s))) end.
  - unfold gpu_read_gpuread. case_if; [still|]. rewrite read_pixel_advance. cbv zeta. cbn [fst snd]. case_if; [still|].
    rewrite read_pixel_advance. cbv zeta. cbn [fst snd]. case_if; still.
  - unfold gpu_vblank_tick. cbv zeta. match goal with |- context [on_world (psx_irq_raise 0 0) ?x] =>
      pose proof (steps_on _ s x (fc_irq 0 0) (steps_refl s)) as P; revert P; generalize (on_world (psx_irq_raise 0 0) x) end.
    intros x P. destruct vblank_callback as [cb|] eqn:E; [|done]. apply steps_on; [|done]. intros w. by apply fc_vblank.
  - still.
  - exact (steps_on _ s s Hg (steps_refl s)).
  - still.
Qed.

Lemma played_typed o : played o -> GpuLaws.typed o.
Proof. by destruct o. Qed.

Lemma run_steps ops : forall s s', Forall played ops -> Inv s -> run ops s = Some s' -> Steps s s'.
Proof.
  induction ops as [|o ops IH]; intros s s' Hg Hi; cbn; [intros [= <-]; apply steps_refl|]. apply Forall_cons in Hg as [Ho Hg].
  destruct (exec o s) as [s1|] eqn:E; cbn; [|done]. intros Hr. eapply steps_trans; [by apply (exec_steps o)|].
  apply IH; [done| |done]. by apply (guest_op_inv o s); [apply played_typed|..].
Qed.

End Processor.
End Calls.

(** ** The software back end *)

Section Software.
Context `{Heap : SwRenderer.Heap}.
Import GpuSoftware.

(** Typed calls of the rasteriser. *)
Definition Calls (v v' : Video) : Prop :=
  exists ops, Forall SwSafety.typed ops /\ screen v' = SwLaws.exec_all (screen v) ops.

#[export] Instance calls_preorder : PreOrder Calls.
Proof.
  split.
  - intros v. by exists [].
  - intros a b c (o1 & T1 & E1) (o2 & T2 & E2). exists (o1 ++ o2). split; [by apply Forall_app|].
    unfold SwLaws.exec_all in *. by rewrite fold_left_app, <- E1.
Qed.

Lemma call_one o v v' : SwSafety.typed o -> screen v' = SwLaws.exec (screen v) o -> Calls v v'.
Proof. intros Ht He. exists [o]. by split; [constructor|]. Qed.

Lemma call_none v v' : screen v' = screen v -> Calls v v'.
Proof. intros He. by exists []. Qed.

(** A host that touches the rasteriser through its calls only: the patches of the
    text translation are pixel writes, the reveal is a target and its tiles. *)
Class HostCalls `{Gpu.Host Video} : Prop := mkHostCalls {
  hc_irq : forall a b v, Calls v (psx_irq_raise a b v);
  hc_event : forall v, Calls v (event_ring_record_vblank v);
  hc_vblank : forall cb v, vblank_callback = Some cb -> Calls v (cb v);
  hc_upload : forall x y w h v, Calls v (text_xlate_vram_upload x y w h v);
  hc_bg_record : forall a b c d e f v, Calls v (gpu_ws_mmx6_bg_record a b c d e f v);
  hc_reveal : forall x y v, Calls v (gpu_ws_mmx6_emit_reveal x y v)
}.

#[export] Instance counting_calls : HostCalls.
Proof. split; intros; try by apply call_none. match goal with Hc : _ = Some cb |- _ => injection Hc as <- end. by apply call_none. Qed.

#[export] Instance software_facade `{Hs : Gpu.Host Video} `{!HostCalls} : Facade Calls.
Proof.
  split; [split; [apply _|..]|..]; intros; try by apply call_none.
  - by apply (call_one (SwLaws.SetSemi e m)).
  - by apply (call_one (SwLaws.SetModulation r g b raw)).
  - by apply (call_one (SwLaws.Fill x y w h c)).
  - by apply (call_one (SwLaws.Copy sx sy dx dy w h)).
  - by apply (call_one (SwLaws.FlatTriangle (fst a) (snd a) (fst b) (snd b) (fst d) (snd d) c)).
  - by apply (call_one (SwLaws.GouraudTriangle (fst a) (snd a) ca (fst b) (snd b) cb (fst d) (snd d) cd)).
  - by apply (call_one (SwLaws.TexturedTriangle (fst a) (snd a) (fst ta) (snd ta) (fst b) (snd b) (fst tb) (snd tb)
      (fst d) (snd d) (fst td) (snd td) cx cy tp)).
  - by apply (call_one (SwLaws.ShadedTexturedTriangle (fst a) (snd a) (fst ta) (snd ta) ca (fst b) (snd b) (fst tb) (snd tb) cb
      (fst d) (snd d) (fst td) (snd td) cd cx cy tp raw)).
  - by apply (call_one (SwLaws.FlatRect x y w h c)).
  - by apply (call_one (SwLaws.TexturedRect x y w h u v cx cy tp)).
  - by apply (call_one (SwLaws.ScaledRect x y w h u0 v0 u1 v1 cx cy tp)).
  - by apply (call_one (SwLaws.DrawLine x0 y0 x1 y1 c)).
  - by apply (call_one (SwLaws.ShadedLine x0 y0 c0 x1 y1 c1)).
  - by apply (call_one (SwLaws.VramWrite x y p)).
  - by apply (call_one (SwLaws.WideConfigure a b)).
  - by apply (call_one (SwLaws.WideTarget b)).
  - by apply (call_one SwLaws.WideDisable).
  - by apply (call_one (SwLaws.WideClear b y h c)).
  - by apply (call_one (SwLaws.Backdrop (SwRenderer.g_ws_bd_stretch_on (SwRenderer.shadow (screen w)))
      (SwRenderer.g_ws_bd_stretch_pct (SwRenderer.shadow (screen w))) b)).
  - apply hc_irq.
  - apply hc_event.
  - by apply hc_vblank.
  - apply hc_upload.
  - apply hc_bg_record.
  - apply hc_reveal.
  - by apply (call_one SwLaws.Init).
  - by apply (call_one (SwLaws.SetMask a b)).
  - by apply (call_one (SwLaws.SetTexWindow v)).
  - by apply (call_one (SwLaws.SetArea x1 y1 x2 y2)).
  - by apply (call_one (SwLaws.SetOffset x y)).
Qed.

Lemma calls_mem v v' : Calls v v' -> SwSafety.Mem (screen v) -> SwSafety.Mem (screen v').
Proof.
  intros (ops & Ht & ->). unfold SwLaws.exec_all. generalize (screen v). induction Ht as [|o ops Ho _ IH]; intros a Ha; [done|].
  cbn. apply IH. by apply SwSafety.exec_mem.
Qed.

(** C28: memory safety end to end: whatever words a guest writes to GP0 and GP1 and
    whatever it reads, however the widescreen correction is set, whatever calls the
    host makes in between (supersampling scale, texture filter, backdrop stretch,
    reveal tiles, bulk transfers) and from inside (text patches, presentation, the
    reveal), and whichever allocations fail: from power-on, where the backdrop
    stretch is on, every write of the software renderer, to video memory, the mirror
    or a wide surface, lands inside its buffer, every pixel stays a 16-bit word, and
    the processor's own state keeps its invariant. *)
Theorem guest_words_memory_safe `{Hs : Gpu.Host Video} `{!HostCalls} ops s :
  Forall (played Calls) ops -> run ops power_on = Some s -> Inv s /\ SwSafety.Mem (screen (world s)).
Proof.
  intros Hg Hr. assert (Hp : Inv power_on) by apply reset_inv, start_inv. split.
  - apply (run_inv ops power_on); [|done|done]. eapply Forall_impl; [done|]. apply played_typed.
  - apply (calls_mem (world power_on)); [by apply (run_steps Calls ops)|]. apply SwSafety.boot_mem.
Qed.

End Software.
End GpuCalls.
