(* ===== verification/GpuSync.v ===== *)
(** * The renderer's copy of the drawing environment

    The command processor keeps the draw area, the draw offset, the mask bits and
    the texture window as registers, and the software renderer keeps its own copy,
    which clips and masks every primitive.  This file shows when the two agree. *)

From S2P Require Import Prelude SwRenderer SwLaws SwSafety Gpu GpuSoftware GpuLaws GpuStream GpuPort GpuCalls.

Module GpuSync.
Import SwRenderer SwLaws SwSafety.

(** ** What drawing keeps *)

(** The renderer's copy. *)
Definition copy (e : DrawEnv) : Z * Z * Z * Z * Z * Z * Z * Z * (Z * Z * Z * Z) :=
  (g_clip_x1 e, g_clip_y1 e, g_clip_x2 e, g_clip_y2 e, g_offset_x e, g_offset_y e, g_mask_set_bit e, g_mask_check_bit e,
   (g_tw_mask_x e, g_tw_mask_y e, g_tw_off_x e, g_tw_off_y e)).

Definition keeps (a b : State) : Prop := copy (env b) = copy (env a).

#[export] Instance keeps_preorder : PreOrder keeps.
Proof. split; [by intros a|intros a b c; unfold keeps; congruence]. Qed.

Lemma keeps_env a b : env b = env a -> keeps a b.
Proof. unfold keeps. by intros ->. Qed.
Lemma keeps_same a b c : keeps a b -> same c b -> keeps a c.
Proof. intros Hk [_ He]. unfold keeps. by rewrite He. Qed.

Lemma keeps_agree s m a b : agree s m b a -> keeps a b.
Proof. intros [_ [x He]]. unfold keeps. by rewrite He. Qed.

Lemma keeps_forZ lo hi f a : (forall i x, keeps x (f i x)) -> keeps a (forZ lo hi f a).
Proof. intros Hf. apply (forZ_rel_id keeps); [done|intros ??? ??; by etransitivity|auto]. Qed.

Lemma put_keeps t a b : SwSafety.Put t a b -> keeps a b.
Proof.
  intros (x & y & color & _ & -> & _). unfold put_masked. cbv zeta. case_if; [done|]. by destruct (t_buf t).
Qed.
Lemma puts_keep t a b : rtc (SwSafety.Put t) a b -> keeps a b.
Proof. induction 1 as [|a b c Hp _ IH]; [done|]. transitivity b; [by apply (put_keeps t)|done]. Qed.

Section Keeps.
Context `{Heap}.

Lemma passes_keep a f g h :
  rtc (SwSafety.Put (rt_native a)) a f -> Invisible g -> (forall i, Invisible (h i)) -> keeps a (if_wide h (if_hr g f)).
Proof. intros Hf Hg Hh. eapply keeps_same; [by eapply puts_keep|by apply passes_same]. Qed.

Lemma tri_limits_keep xs ys us vs a : keeps a (if g_texture_filter (env a) =? 0 then a else sw_tri_uv_limits xs ys us vs a).
Proof.
  case_if; [done|]. destruct xs as [[? ?] ?], ys as [[? ?] ?], us as [[? ?] ?], vs as [[? ?] ?].
  unfold sw_tri_uv_limits. by destruct (page_range _ _), (page_range _ _).
Qed.
Lemma rect_limits_keep u0 v0 u1 v1 a : keeps a (if g_texture_filter (env a) =? 0 then a else sw_rect_uv_limits u0 v0 u1 v1 a).
Proof. case_if; [done|]. unfold sw_rect_uv_limits. by destruct (page_range _ _), (page_range _ _). Qed.

Lemma line_put_keeps n color l : (forall i, is_u16 (color i)) -> keeps (ln_st l) (ln_st (line_put n color l)).
Proof.
  intros Hc. unfold line_put. cbn [ln_st]. eapply keeps_same; [|apply line_pixel_put].
  by eapply puts_keep, SwSafety.put_opaque_puts.
Qed.

Lemma line_keeps fuel color x0 y0 x1 y1 a :
  (forall i, is_u16 (color i)) -> keeps a (ln_st (line_loop fuel (rt_native a) color x0 y0 x1 y1 a)).
Proof.
  intros Hc. set (n := rt_native a). clearbody n.
  assert (Hn : forall adv going l, (forall k, ln_st (adv k) = ln_st k) ->
    keeps (ln_st l) (ln_st (nwhile fuel going (fun k => line_put n color (adv k)) l))).
  { induction fuel as [|m IH]; intros adv going l Ha; simpl; [done|]. destruct (going l); [|done].
    etransitivity; [|by apply IH]. etransitivity; [|by apply line_put_keeps]. by rewrite Ha. }
  unfold line_loop. cbv zeta. etransitivity; [|apply Hn; intros k; apply SwSafety.line_advance_st].
  by apply (line_put_keeps n color (mkLine x0 y0 _ 0 a)).
Qed.

Ltac keep := apply passes_keep; [auto with puts|invisible|intros ?i; invisible].

Lemma draws_keep a o : SwSafety.draw o -> keeps a (SwLaws.exec a o).
Proof.
  intros Ho. destruct o; try done; cbn [SwLaws.exec].
  - unfold sw_draw_flat_triangle. cbv zeta. keep.
  - unfold sw_draw_gouraud_triangle. cbv zeta. keep.
  - unfold sw_draw_textured_triangle. case_if; [done|]. cbv zeta. etransitivity; [apply (tri_limits_keep (x0, x1, x2) (y0, y1, y2) (u0, u1, u2) (v0, v1, v2))|].
    generalize (if g_texture_filter (env a) =? 0 then a else sw_tri_uv_limits (x0, x1, x2) (y0, y1, y2) (u0, u1, u2) (v0, v1, v2) a).
    intros a'. keep.
  - unfold sw_draw_shaded_textured_triangle. case_if; [done|]. cbv zeta. etransitivity; [apply (tri_limits_keep (x0, x1, x2) (y0, y1, y2) (u0, u1, u2) (v0, v1, v2))|].
    generalize (if g_texture_filter (env a) =? 0 then a else sw_tri_uv_limits (x0, x1, x2) (y0, y1, y2) (u0, u1, u2) (v0, v1, v2) a).
    intros a'. keep.
  - unfold sw_draw_flat_rect. cbv zeta. keep.
  - unfold sw_draw_textured_rect. cbv zeta. etransitivity; [apply (rect_limits_keep u v (u + w) (v + h))|].
    generalize (if g_texture_filter (env a) =? 0 then a else sw_rect_uv_limits u v (u + w) (v + h) a). intros a'. keep.
  - unfold sw_draw_textured_rect_scaled. case_if; [done|]. cbv zeta. etransitivity; [apply (rect_limits_keep u0 v0 u1 v1)|].
    generalize (if g_texture_filter (env a) =? 0 then a else sw_rect_uv_limits u0 v0 u1 v1 a). intros a'. keep.
  - by apply line_keeps.
  - apply line_keeps. intros i. apply rgb_u16.
Qed.

Lemma keeps_if_hr f a : (forall b, keeps b (f b)) -> keeps a (if_hr f a).
Proof. intros Hf. unfold if_hr. by destruct (g_hr _). Qed.

Lemma block_keeps (idx : Z -> Z -> Z) n m v a :
  keeps a (forZ 0 n (fun i st => forZ 0 m (fun j st => hr_set (idx i j) v st) st) a).
Proof. apply keeps_forZ. intros i x. by apply keeps_forZ. Qed.

Lemma fill_keeps x y w h c a : keeps a (sw_fill_rect x y w h c a).
Proof.
  unfold sw_fill_rect. cbv zeta. etransitivity; [|apply keeps_if_hr; intros b; apply block_keeps].
  apply keeps_forZ. intros i u. by apply keeps_forZ.
Qed.

Lemma write_keeps x y p a : keeps a (sw_vram_write x y p a).
Proof. unfold sw_vram_write. cbv zeta. etransitivity; [|apply keeps_if_hr; intros b; apply block_keeps]. done. Qed.

Lemma copy_keeps sx sy dx dy w h a : keeps a (sw_copy_rect sx sy dx dy w h a).
Proof.
  unfold sw_copy_rect. cbv zeta. apply keeps_forZ. intros row x. unfold copy_row. cbv zeta. apply keeps_forZ. intros col z.
  case_if; [done|]. case_if; [|done]. etransitivity; [|apply keeps_forZ; intros sr q; by apply keeps_forZ]. done.
Qed.

End Keeps.

(** ** The processor over the software renderer *)

Section Software.
Context `{Heap}.
Import GpuSoftware.
Abbreviation St := (Gpu.State Video).

Definition KeepsV (v v' : Video) : Prop := keeps (screen v) (screen v').

Lemma keep_draw o v v' : draw o -> screen v' = SwLaws.exec (screen v) o -> KeepsV v v'.
Proof. intros Ho He. unfold KeepsV. rewrite He. by apply draws_keep. Qed.
Lemma keep_shadow o v v' : enhancement o = true -> screen v' = SwLaws.exec (screen v) o -> KeepsV v v'.
Proof. intros Ho He. unfold KeepsV. rewrite He. by eapply keeps_agree, exec_enhancement. Qed.

#[export] Instance keeps_drawing : GpuCalls.Drawing KeepsV.
Proof.
  split; [split; [by intros v|intros a b c; unfold KeepsV; apply transitivity]|..]; intros; unfold KeepsV; try done.
  - apply fill_keeps.
  - apply copy_keeps.
  - by eapply (keep_draw (FlatTriangle _ _ _ _ _ _ _)).
  - by eapply (keep_draw (GouraudTriangle _ _ _ _ _ _ _ _ _)).
  - by eapply (keep_draw (TexturedTriangle _ _ _ _ _ _ _ _ _ _ _ _ _ _ _)).
  - by eapply (keep_draw (ShadedTexturedTriangle _ _ _ _ _ _ _ _ _ _ _ _ _ _ _ _ _ _ _)).
  - by eapply (keep_draw (FlatRect _ _ _ _ _)).
  - by eapply (keep_draw (TexturedRect _ _ _ _ _ _ _ _ _)).
  - by eapply (keep_draw (ScaledRect _ _ _ _ _ _ _ _ _ _ _)).
  - by eapply (keep_draw (DrawLine _ _ _ _ _)).
  - by eapply (keep_draw (ShadedLine _ _ _ _ _ _)).
  - apply write_keeps.
  - by eapply (keep_shadow (WideTarget _)).
  - by eapply (keep_shadow (WideClear _ _ _ _)).
  - match goal with Hc : _ = Some _ |- _ => by injection Hc as <- end.
Qed.

(** Video memory behind the port. *)
#[export] Instance software_vram : GpuPort.VramLaws.
Proof.
  assert (Hw : forall x y p v i, 0 <= x < 1024 -> 0 <= y < 512 ->
    cell i (screen (Gpu.gr_vram_write x y p v)) = if decide (y * 1024 + x = i) then p else cell i (screen v)).
  { intros x y p v i Hx Hy. cbn. unfold sw_vram_write. cbv zeta. unfold VRAM_WIDTH, VRAM_HEIGHT.
    change (1024 - 1) with (Z.ones 10). change (512 - 1) with (Z.ones 9). rewrite !Z.land_ones, !Z.mod_small by lia.
    match goal with |- cell _ (if_hr ?f ?a) = _ => pose proof (if_hr_invisible f (fun b => block_invisible _ _ p b) a) as Es end.
    unfold cell. rewrite (proj1 Es). apply cell_poke. }
  assert (Hr : forall x y v, 0 <= x < 1024 -> 0 <= y < 512 -> Gpu.gr_vram_read x y v = cell (y * 1024 + x) (screen v)).
  { intros x y v Hx Hy. cbn. unfold sw_vram_read, vram_get, VRAM_WIDTH, VRAM_HEIGHT.
    change (1024 - 1) with (Z.ones 10). change (512 - 1) with (Z.ones 9). by rewrite !Z.land_ones, !Z.mod_small by lia. }
  split; intros.
  - rewrite Hr, Hw by done. by rewrite decide_True.
  - rewrite !Hr, Hw by done. rewrite decide_False; [done|]. intros He. assert (y' = y) by lia. assert (x' = x) by lia. congruence.
  - done.
Qed.

(** The registers as the renderer holds them. *)
Definition registers (m : Gpu.Mode) : Z * Z * Z * Z * Z * Z * Z * Z * (Z * Z * Z * Z) :=
  let tw := Gpu.texture_window_value m in
  (clamp_i (Gpu.draw_area_left m) 0 (VRAM_WIDTH - 1), clamp_i (Gpu.draw_area_top m) 0 (VRAM_HEIGHT - 1),
   clamp_i (Gpu.draw_area_right m) 0 (VRAM_WIDTH - 1), clamp_i (Gpu.draw_area_bottom m) 0 (VRAM_HEIGHT - 1),
   Gpu.draw_offset_x m, Gpu.draw_offset_y m, Gpu.set_mask_bit m, Gpu.check_mask_bit m,
   (u8 (Z.land tw 0x1F), u8 (Z.land (Z.shiftr tw 5) 0x1F), u8 (Z.land (Z.shiftr tw 10) 0x1F), u8 (Z.land (Z.shiftr tw 15) 0x1F))).

Definition Mirrored (s : St) : Prop := copy (env (screen (Gpu.world s))) = registers (Gpu.mode s).

Lemma mirrored_steps s s' :
  registers (Gpu.mode s') = registers (Gpu.mode s) -> GpuCalls.Steps KeepsV s s' -> Mirrored s -> Mirrored s'.
Proof. unfold Mirrored. intros -> Hs <-. exact Hs. Qed.

Lemma sync_mirrored s : Mirrored s -> Mirrored (Gpu.ws_nw_sync_target s).
Proof.
  apply mirrored_steps.
  - by destruct (GpuLaws.outside_mode _ _ (GpuLaws.sync_outside s)) as [-> _].
  - apply (GpuCalls.steps_sync KeepsV), (GpuCalls.steps_refl KeepsV).
Qed.

Lemma handler_registers op f (s : St) :
  GpuCalls.environment op = false -> Gpu.gp0_handler op = Some f -> registers (Gpu.mode (f s)) = registers (Gpu.mode s).
Proof.
  intros He Hf. destruct (GpuLaws.drawing op) eqn:Hd.
  { by destruct (GpuLaws.handler_drawn op f s Hd Hf) as [(? & ? & ->)|(? & ? & ? & ->)]. }
  revert He Hd Hf. unfold Gpu.gp0_handler, GpuLaws.drawing, GpuCalls.environment, Gpu.between.
  repeat lazymatch goal with |- _ -> _ -> (if ?b then Some ?g else _) = _ -> _ => destruct b eqn:?Eb; [intros He Hd [= <-]|] end; [..|done];
    try (exfalso; lia); clear He Hd; try done.
  unfold Gpu.gp0_exec_cpu_to_vram. cbv zeta. by case_if.
Qed.

Lemma environment_mirrored op f (s : St) :
  GpuCalls.environment op = true -> Gpu.gp0_handler op = Some f -> Mirrored s -> Mirrored (f s).
Proof.
  unfold Gpu.gp0_handler, GpuCalls.environment, Gpu.between. intros He.
  repeat lazymatch goal with |- (if ?b then Some ?g else _) = _ -> _ => destruct b eqn:?Eb; [intros [= <-]|] end; [..|done];
    try (exfalso; lia); clear He; intros Hm; try apply sync_mirrored; injection Hm as H1 H2 H3 H4 H5 H6 H7 H8 H9 H10 H11 H12;
    unfold Mirrored, copy, registers; cbn; congruence.
Qed.

Lemma gp0_mirrored val s s' : GpuLaws.Inv s -> Gpu.gpu_write_gp0 val s = Some s' -> Mirrored s -> Mirrored s'.
Proof.
  intros Hi Hw Hm. destruct (GpuCalls.gp0_outcome KeepsV val s s' Hi Hw) as [(op & f & s1 & Hf & -> & Hm1 & Hw1)|[Hm1 Hs]].
  - assert (Hm' : Mirrored s1) by (apply (mirrored_steps s); [by rewrite Hm1|done..]).
    destruct (GpuCalls.environment op) eqn:He; [by apply (environment_mirrored op)|].
    apply (mirrored_steps s1); [by apply (handler_registers op)|by apply (GpuCalls.drawing_steps KeepsV op)|done].
  - apply (mirrored_steps s); [by rewrite Hm1|done|done].
Qed.

(** GP1(00h), the reset. *)
Definition resets (o : GpuLaws.Op (W:=Video)) : bool :=
  match o with GpuLaws.Gp1 v => Z.land (Z.shiftr v 24) 0x3F =? 0 | _ => false end.

Lemma gp1_mirrored val (s s' : St) :
  (Z.land (Z.shiftr val 24) 0x3F =? 0) = false -> Gpu.gpu_write_gp1 val s = Some s' -> Mirrored s -> Mirrored s'.
Proof.
  unfold Gpu.gpu_write_gp1. cbv zeta. intros ->.
  repeat lazymatch goal with |- (if ?b then Some ?g else _) = _ -> _ => destruct b; [intros [= <-]|] end; [..|done]; try done.
  - unfold Gpu.gp1_display_area_start, Gpu.ws_note_display_base. cbv zeta. by case_if.
  - unfold Gpu.gp1_get_info. cbv zeta. by repeat case_if.
Qed.

Lemma exec_mirrored o (s s' : St) :
  GpuCalls.guest o -> resets o = false -> GpuLaws.Inv s -> GpuLaws.exec o s = Some s' -> Mirrored s -> Mirrored s'.
Proof.
  intros Hg Hr Hi. destruct o as [v|v| | | |a|f|wd]; cbn [GpuLaws.exec resets] in *;
    [by apply gp0_mirrored|by apply gp1_mirrored|..|done|]; intros [= <-] Hm; try done.
  - unfold Gpu.gpu_read_gpustat. cbv zeta. cbn [snd]. by case_if.
  - unfold Gpu.gpu_read_gpuread. case_if; [done|]. rewrite GpuLaws.read_pixel_advance. cbv zeta. cbn [fst snd]. case_if; [done|].
    rewrite GpuLaws.read_pixel_advance. cbv zeta. cbn [fst snd]. by case_if.
Qed.

(** C34: once the renderer's clip rectangle, draw offset, mask bits and texture window
    agree with the processor's registers, they agree after any further words, reads
    and blanks, until a GP1 reset: the reset zeroes the draw-area registers but opens
    the renderer's clip rectangle to the whole of video memory, so after it they
    always differ. *)
Theorem registers_mirrored ops s s' :
  GpuLaws.Inv s -> Mirrored s -> Forall GpuCalls.guest ops -> Forall (fun o => resets o = false) ops ->
  GpuLaws.run ops s = Some s' ->
  Mirrored s' /\ forall o s'', resets o = true -> GpuLaws.exec o s' = Some s'' -> ~ Mirrored s''.
Proof.
  intros Hi Hm Hg Hr Hrun. split.
  - revert s Hi Hm Hrun. induction ops as [|o ops IH]; intros s Hi Hm; cbn; [by intros [= <-]|].
    apply Forall_cons in Hg as [Hgo Hg], Hr as [Hro Hr]. destruct (GpuLaws.exec o s) as [s1|] eqn:E; cbn; [|done].
    apply IH; [done|done| |by apply (exec_mirrored o s)]. by apply (GpuLaws.guest_op_inv o s); [apply GpuCalls.guest_typed|..].
  - intros o s'' Ho. destruct o as [v|v| | | |a|f|wd]; try done. cbn in Ho |- *. unfold Gpu.gpu_write_gp1. cbv zeta. rewrite Ho.
    intros [= <-] Hc. by cbv in Hc.
Qed.

End Software.
End GpuSync.
