(* ===== verification/GpuWide.v ===== *)
(** * Widescreen correction

    The squash factor that [gpu_ws_configure] computes is the reduced fraction
    (Euclid's loop ends within its fuel), and the table of sprite tags, eight-way
    open addressing that evicts stale entries, is a faithful cache of the anchors
    the game announced. *)

From S2P Require Import Prelude Gpu.

Module GpuWide.
Import Gpu.

(** ** The squash factor *)

Lemma gcd_rem a b : 0 < b -> Z.gcd b (Z.rem a b) = Z.gcd a b.
Proof.
  intros Hb. rewrite (Z.gcd_comm a b). pose proof (Z.quot_rem a b ltac:(lia)) as E.
  replace (Z.rem a b) with (a + - Z.quot a b * b) by lia. by rewrite Z.gcd_add_mult_diag_r.
Qed.

(** Two rounds of Euclid's loop halve the divisor, so [2 k + 1] rounds reach the
    common divisor of any pair with a divisor below 2^k. *)
Lemma euclid_ends k : forall a b, 0 <= a -> 0 <= b < 2 ^ Z.of_nat k ->
  nwhile (2 * k + 1) (fun p => negb (snd p =? 0)) (fun p => (snd p, Z.rem (fst p) (snd p))) (a, b) = (Z.gcd a b, 0).
Proof.
  induction k as [|k IH]; intros a b Ha Hb.
  - replace b with 0 by lia. cbn. by rewrite Z.gcd_0_r, Z.abs_eq.
  - replace (2 * S k + 1)%nat with (S (S (2 * k + 1))) by lia. cbn [nwhile fst snd].
    destruct (Z.eqb_spec b 0) as [->|Hb0]; cbn [negb]; [by rewrite Z.gcd_0_r, Z.abs_eq|].
    pose proof (Z.rem_bound_pos a b Ha ltac:(lia)) as Hr. rewrite <- (gcd_rem a b) by lia.
    set (r := Z.rem a b) in *. destruct (Z.eqb_spec r 0) as [->|Hr0]; cbn [negb]; [by rewrite Z.gcd_0_r, Z.abs_eq by lia|].
    pose proof (Z.rem_bound_pos b r ltac:(lia) ltac:(lia)) as Hq. pose proof (Z.quot_rem b r ltac:(lia)) as E.
    assert (1 <= Z.quot b r) by (apply Z.quot_le_lower_bound; lia).
    rewrite <- (gcd_rem b r) by lia. apply IH; [lia|].
    replace (2 ^ Z.of_nat (S k)) with (2 * 2 ^ Z.of_nat k) in Hb by (rewrite Nat2Z.inj_succ, Z.pow_succ_r by lia; lia). nia.
Qed.

Lemma gcd_loop_gcd n d : 0 <= n -> 0 <= d < 2 ^ 31 -> gcd_loop n d = Z.gcd n d.
Proof.
  intros Hn Hd. unfold gcd_loop. replace 64%nat with ((2 * 31 + 1) + 1)%nat by lia.
  rewrite nwhile_add, (euclid_ends 31) by (cbn; lia). by rewrite nwhile_stop.
Qed.

Lemma lowest_terms n d : 0 < n -> 0 < d ->
  let g := Z.gcd n d in Z.quot n g * d = Z.quot d g * n /\ Z.gcd (Z.quot n g) (Z.quot d g) = 1.
Proof.
  intros Hn Hd g. assert (0 < g) as Hg.
  { subst g. destruct (Z.eq_dec (Z.gcd n d) 0) as [E0%Z.gcd_eq_0_l|]; [lia|]. pose proof (Z.gcd_nonneg n d). lia. }
  destruct (Z.gcd_divide_l n d) as [p Hp], (Z.gcd_divide_r n d) as [q Hq]. fold g in Hp, Hq.
  assert (g = Z.gcd p q * g) as E by (rewrite <- Z.gcd_mul_mono_r_nonneg, <- Hp, <- Hq by lia; done).
  clearbody g. subst n d. rewrite !Z.quot_mul by lia. split; [ring|nia].
Qed.

Section Widescreen.
Context {W : Type} `{R : Renderer W} `{H : Host W}.
Abbreviation St := (State W).

(** In squash mode the factor is the lowest terms of (4 den) / (3 num). *)
Lemma squash_factor num den anchor hud (s : St) : 0 < num < 2 ^ 29 -> 0 < den ->
  let w := wide (gpu_ws_configure num den anchor hud 1 s) in
  ws_xnum w * (3 * num) = ws_xden w * (4 * den) /\ Z.gcd (ws_xnum w) (ws_xden w) = 1.
Proof.
  intros Hn Hd. unfold gpu_ws_configure. rewrite Z.eqb_refl.
  rewrite (proj2 (Z.ltb_lt 0 num)), (proj2 (Z.ltb_lt 0 den)) by lia. cbn [wide ws_xnum ws_xden].
  change (let g := gcd_loop (4 * den) (3 * num) in
    Z.quot (4 * den) g * (3 * num) = Z.quot (3 * num) g * (4 * den) /\ Z.gcd (Z.quot (4 * den) g) (Z.quot (3 * num) g) = 1).
  rewrite gcd_loop_gcd by lia. apply lowest_terms; lia.
Qed.

(** ** The table of sprite tags *)

Definition home (k : Z) : Z := Z.land (Z.shiftr k 2) (WS_TAG_BUCKETS - 1).
Definition slot (k i : Z) : Z := Z.land (home k + i) (WS_TAG_BUCKETS - 1).
Definition tag_in (T : list WsTag) (j : Z) : WsTag := nth (Z.to_nat j) T (mkTag 0 0 0).

Lemma slot_range k i : 0 <= slot k i < WS_TAG_BUCKETS.
Proof. unfold slot. rewrite (Z.land_ones _ 12) by lia. by apply Z.mod_pos_bound. Qed.
Lemma home_slot k : home k = slot k 0.
Proof.
  unfold slot, home. rewrite Z.add_0_r, !(Z.land_ones _ 12) by lia. by rewrite Z.mod_mod.
Qed.

(** What the probes for [k] pass over, and what they stop at. *)
Definition taken (k : Z) (t : WsTag) : Prop := key t <> k /\ key t <> 0.

(** The bucket is the first that holds the primitive or nothing, or any of the
    eight when none does. *)
Lemma tag_victim_spec k now (s : St) (l : list Z) v0 :
  let v := tag_victim l k now (home k) v0 s in
  (exists (n : nat) i, l !! n = Some i /\ v = slot k i /\ ~ taken k (tag_at v s) /\
     forall n' i', l !! n' = Some i' -> (n' < n)%nat -> taken k (tag_at (slot k i') s)) \/
  ((forall i, i ∈ l -> taken k (tag_at (slot k i) s)) /\ (v = v0 \/ exists i, i ∈ l /\ v = slot k i)).
Proof.
  revert v0. induction l as [|i l IH]; intros v0; cbn [tag_victim]; [right; split; [by intros ? ?%not_elem_of_nil|by left]|].
  fold (slot k i). destruct (_ || _) eqn:E.
  - left. exists 0%nat, i. split; [done|]. split; [done|]. split; [|lia].
    intros [??]. apply orb_true_iff in E. lia.
  - assert (taken k (tag_at (slot k i) s)) as Ht by (apply orb_false_iff in E; split; lia).
    destruct (IH (if 2 <? u32 (now - stamp (tag_at (slot k i) s)) then slot k i else v0))
      as [(n & j & Hj & Hv & Hs & Hb)|[Hall Hv]]; cbn in *.
    + left. exists (S n), j. split; [done|]. split; [done|]. split; [done|].
      intros [|n'] i' Hi' Hn; [by simplify_eq/=|]. apply (Hb n'); [done|lia].
    + right. split; [intros j Hj; apply elem_of_cons in Hj as [->|Hj]; auto|].
      destruct Hv as [Hv|(j & Hj & Hv)]; [|right; exists j; split; [by right|done]].
      rewrite Hv. destruct (2 <? _); [right; exists i; split; [by left|done]|by left].
Qed.

(** The table caches the anchors [m] records, one bucket to a primitive, reached
    by its probes before any free bucket. *)
Record TagsOk (m : gmap Z (Z * Z)) (T : list WsTag) : Prop := mkTagsOk {
  t_len : length T = Z.to_nat WS_TAG_BUCKETS;
  t_faithful : forall j t, T !! j = Some t -> key t <> 0 -> m !! key t = Some (stamp t, anchor_x t);
  t_unique : forall j j' t t', T !! j = Some t -> T !! j' = Some t' -> key t = key t' -> key t <> 0 -> j = j';
  t_placed : forall j t, T !! j = Some t -> key t <> 0 -> exists i, 0 <= i < WS_TAG_PROBES /\ j = Z.to_nat (slot (key t) i) /\
    forall i', 0 <= i' < i -> key (tag_in T (slot (key t) i')) <> 0
}.

Lemma tag_in_lookup T j : length T = Z.to_nat WS_TAG_BUCKETS -> 0 <= j < WS_TAG_BUCKETS -> T !! Z.to_nat j = Some (tag_in T j).
Proof.
  intros Hl Hj. destruct (lookup_lt_is_Some_2 T (Z.to_nat j)) as [t Ht]; [lia|].
  unfold tag_in. by rewrite (nth_lookup_Some T _ _ _ Ht).
Qed.

Lemma tags_empty m : TagsOk m (replicate (Z.to_nat WS_TAG_BUCKETS) (mkTag 0 0 0)).
Proof. split; [by rewrite length_replicate|..]; by intros; repeat match goal with H : _ !! _ = Some _ |- _ => apply lookup_replicate in H as [-> _] end. Qed.

Lemma tag_in_at T j t : T !! Z.to_nat j = Some t -> tag_in T j = t.
Proof. intros Ht. by apply nth_lookup_Some. Qed.

Lemma probes_lookup (n : nat) i : seqZ 0 WS_TAG_PROBES !! n = Some i <-> i = Z.of_nat n /\ i < WS_TAG_PROBES.
Proof. rewrite lookup_seqZ. lia. Qed.

(** The bucket chosen for [k] is on its probe path with no free bucket before it,
    and no other bucket holds [k]. *)
Lemma victim_fits m k now (s : St) : let T := ws_tags (wide s) in let v := tag_victim (seqZ 0 WS_TAG_PROBES) k now (home k) (home k) s in
  TagsOk m T -> k <> 0 -> exists a, 0 <= a < WS_TAG_PROBES /\ v = slot k a /\
    (forall i, 0 <= i < a -> key (tag_in T (slot k i)) <> 0) /\
    (forall j t, T !! j = Some t -> key t = k -> j = Z.to_nat v).
Proof.
  intros T v HT Hk. destruct (tag_victim_spec k now s (seqZ 0 WS_TAG_PROBES) (home k)) as [(n & a & Ha & Hv & Hs & Hb)|[Hall Hv]]; fold v in Hv.
  - fold v in Hs. apply probes_lookup in Ha as [-> Hn]. exists (Z.of_nat n).
    assert (forall i, 0 <= i < Z.of_nat n -> taken k (tag_in T (slot k i))) as Hbef.
    { intros i Hi. apply (Hb (Z.to_nat i)); [apply probes_lookup|]; lia. }
    split; [lia|]. split; [done|]. split; [intros i Hi; by apply Hbef|].
    intros j t Ht Hkt. destruct (t_placed _ _ HT j t Ht) as (i & Hi & Hj & Hbi); [congruence|]. rewrite Hkt in Hj, Hbi.
    pose proof (slot_range k i) as Hri. subst j. apply tag_in_at in Ht as Hti.
    destruct (Z.lt_trichotomy i (Z.of_nat n)) as [Hlt|[->|Hgt]]; [|by rewrite Hv|].
    + destruct (Hbef i) as [Hne _]; [lia|]. congruence.
    + assert (0 <= v < WS_TAG_BUCKETS) as Hrv by (rewrite Hv; apply slot_range).
      pose proof (tag_in_lookup T v (t_len _ _ HT) Hrv) as Hl.
      destruct (Z.eq_dec (key (tag_in T v)) k) as [E|E]; [apply (t_unique _ _ HT _ _ _ _ Ht Hl); congruence|].
      destruct Hs. split; [done|]. rewrite Hv. apply (Hbi (Z.of_nat n)); lia.
  - assert (exists a, 0 <= a < WS_TAG_PROBES /\ v = slot k a) as (a & Ha & Hva).
    { destruct Hv as [->|(i & Hi & ->)]; [exists 0; by rewrite <- home_slot|]. apply elem_of_seqZ in Hi. by exists i. }
    exists a. split; [done|]. split; [done|]. split; [intros i Hi; apply Hall, elem_of_seqZ; lia|].
    intros j t Ht Hkt. destruct (t_placed _ _ HT j t Ht) as (i & Hi & Hj & _); [congruence|]. rewrite Hkt in Hj. subst j.
    apply tag_in_at in Ht. destruct (Hall i) as [Hne _]; [apply elem_of_seqZ; lia|]. destruct Hne.
    change (key (tag_in T (slot k i)) = k). congruence.
Qed.

Lemma tag_in_insert T j u i : length T = Z.to_nat WS_TAG_BUCKETS -> 0 <= j < WS_TAG_BUCKETS -> 0 <= i ->
  tag_in (<[Z.to_nat j := u]> T) i = if i =? j then u else tag_in T i.
Proof.
  intros Hl Hj Hi. unfold tag_in. destruct (Z.eqb_spec i j) as [->|Hne].
  - apply nth_lookup_Some. apply list_lookup_insert_eq. lia.
  - rewrite !nth_lookup. f_equal. apply list_lookup_insert_ne. lia.
Qed.

Lemma tags_insert m k now ax (s : St) : let T := ws_tags (wide s) in let v := tag_victim (seqZ 0 WS_TAG_PROBES) k now (home k) (home k) s in
  TagsOk m T -> k <> 0 -> TagsOk (<[k := (now, ax)]> m) (<[Z.to_nat v := mkTag k now ax]> T).
Proof.
  intros T v HT Hk. destruct (victim_fits m k now s HT Hk) as (a & Ha & Hv & Hfree & Honly). fold T v in Hv, Hfree, Honly.
  assert (0 <= v < WS_TAG_BUCKETS) as Hrv by (rewrite Hv; apply slot_range).
  pose proof (t_len _ _ HT) as Hl.
  assert (forall j t, <[Z.to_nat v := mkTag k now ax]> T !! j = Some t ->
    (j = Z.to_nat v /\ t = mkTag k now ax) \/ (T !! j = Some t /\ key t <> k)) as Hcase.
  { intros j t Ht. destruct (decide (j = Z.to_nat v)) as [->|Hne].
    - left. rewrite list_lookup_insert_eq in Ht by lia. by simplify_eq.
    - right. rewrite list_lookup_insert_ne in Ht by done. split; [done|]. intros E. by apply Hne, (Honly j t). }
  assert (forall i, 0 <= i -> key (tag_in T i) <> 0 -> key (tag_in (<[Z.to_nat v := mkTag k now ax]> T) i) <> 0) as Hkeep.
  { intros i Hi. rewrite tag_in_insert by done. by destruct (i =? v). }
  split.
  - by rewrite length_insert.
  - intros j t Ht Hz. destruct (Hcase j t Ht) as [[-> ->]|[Ho Hne]]; [by rewrite lookup_insert_eq|].
    rewrite lookup_insert_ne by done. by apply (t_faithful _ _ HT j).
  - intros j j' t t' Ht Ht' E Hz. destruct (Hcase j t Ht) as [[-> ->]|[Ho Hne]], (Hcase j' t' Ht') as [[-> ->]|[Ho' Hne']]; cbn in *; try congruence.
    by apply (t_unique _ _ HT j j' t t').
  - intros j t Ht Hz. destruct (Hcase j t Ht) as [[-> ->]|[Ho Hne]].
    + exists a. cbn [key]. split; [done|]. split; [by rewrite Hv|]. intros i Hi. apply Hkeep; [apply slot_range|by apply Hfree].
    + destruct (t_placed _ _ HT j t Ho Hz) as (i & Hi & Hj & Hb). exists i. split; [done|]. split; [done|].
      intros i' Hi'. apply Hkeep; [apply slot_range|by apply Hb].
Qed.

(** ** Lookups *)

(** The primitive a command belongs to, its first word [back] bytes into it. *)
Definition prim (back : Z) (s : St) : Z := Z.land (u32 (gp0_cmd_source_addr (fifo s) - back)) 0x1FFFFC.

Definition probe (k : Z) (s : St) : option (nat * WsTag) :=
  list_find (fun t => (key t = k) /\ u32 (frame s - stamp t) <= 2) (map (fun i => tag_at (slot k i) s) (seqZ 0 WS_TAG_PROBES)).

Lemma tag_lookup_probe (s : St) : tag_lookup s = match probe (prim 4 s) s with
  | Some (_, t) => Some (anchor_x t)
  | None => match probe (prim 0 s) s with Some (_, t) => Some (anchor_x t) | None => None end
  end.
Proof. done. Qed.

Lemma probe_faithful m k n t (s : St) : TagsOk m (ws_tags (wide s)) -> k <> 0 -> probe k s = Some (n, t) ->
  m !! k = Some (stamp t, anchor_x t) /\ u32 (frame s - stamp t) <= 2.
Proof.
  intros HT Hk (Ht & [Hkt Hf] & _)%list_find_Some. split; [|done].
  apply list_lookup_fmap_Some_1 in Ht as (i & Hi & Ht). pose proof (slot_range k i) as Hr.
  pose proof (tag_in_lookup _ (slot k i) (t_len _ _ HT) Hr) as Hl.
  rewrite <- Hkt. apply (t_faithful _ _ HT (Z.to_nat (slot k i))); [|congruence]. by rewrite Hl, Hi.
Qed.

Lemma probe_finds k i (s : St) : 0 <= i < WS_TAG_PROBES ->
  key (tag_at (slot k i) s) = k -> u32 (frame s - stamp (tag_at (slot k i) s)) <= 2 -> is_Some (probe k s).
Proof.
  intros Hi Hk Hf. apply list_find_elem_of with (tag_at (slot k i) s); [|done].
  apply list_elem_of_fmap. exists i. split; [done|]. apply elem_of_seqZ. lia.
Qed.

(** The anchors announced so far, the last one of each primitive with the frame
    it was announced in, and a machine that has seen them; between two tags the
    machine does anything that leaves the table alone. *)
Definition announced (gpr4 : Z) (read_word : Z -> Z) (s : St) (m : gmap Z (Z * Z)) : gmap Z (Z * Z) :=
  let k := Z.land gpr4 0x1FFFFC in
  if negb (ws_engaged s) || (ws_anchor_addr (wide s) =? 0) || (k =? 0) then m
  else <[k := (frame s, s16 (Z.land (read_word (ws_anchor_addr (wide s))) 0xFFFF))]> m.

Inductive Tagged : gmap Z (Z * Z) -> St -> Prop :=
| tagged_start w : Tagged ∅ (start w)
| tagged_other m s s' : Tagged m s -> ws_tags (wide s') = ws_tags (wide s) -> Tagged m s'
| tagged_tag m s gpr4 read_word : Tagged m s -> Tagged (announced gpr4 read_word s m) (psx_ws_sprite_tag gpr4 read_word s).

Lemma sprite_tag_case gpr4 rw (s : St) m : TagsOk m (ws_tags (wide s)) ->
  TagsOk (announced gpr4 rw s m) (ws_tags (wide (psx_ws_sprite_tag gpr4 rw s))).
Proof.
  intros HT. unfold announced, psx_ws_sprite_tag. destruct (negb _ || _); cbn [orb]; [done|].
  destruct (Z.eqb_spec (Z.land gpr4 0x1FFFFC) 0) as [|Hk]; [done|]. by apply tags_insert.
Qed.

Lemma tagged_ok m (s : St) : Tagged m s -> TagsOk m (ws_tags (wide s)).
Proof.
  induction 1 as [w|m s s' _ IH E|m s g rw _ IH]; [apply tags_empty|by rewrite E|by apply sprite_tag_case].
Qed.

Lemma tag_stored m gpr4 rw (s : St) : TagsOk m (ws_tags (wide s)) -> ws_engaged s = true -> ws_anchor_addr (wide s) <> 0 ->
  let k := Z.land gpr4 0x1FFFFC in k <> 0 -> exists i, 0 <= i < WS_TAG_PROBES /\
    tag_in (ws_tags (wide (psx_ws_sprite_tag gpr4 rw s))) (slot k i) =
      mkTag k (frame s) (s16 (Z.land (rw (ws_anchor_addr (wide s))) 0xFFFF)).
Proof.
  intros HT He Ha k Hk. destruct (victim_fits m k (frame s) s HT Hk) as (i & Hi & Hv & _). exists i. split; [done|].
  unfold psx_ws_sprite_tag. rewrite He, (proj2 (Z.eqb_neq _ 0) Ha). cbn [negb orb]. fold k. rewrite (proj2 (Z.eqb_neq _ 0) Hk).
  fold (home k). rewrite <- Hv. pose proof (slot_range k i) as Hr. rewrite <- Hv in Hr.
  apply tag_in_at, list_lookup_insert_eq. rewrite (t_len _ _ HT). lia.
Qed.

(** C40: the sprite tags are a faithful cache: however many primitives the game has
    announced, with whatever happens in between, an anchor the lookup gives a
    command is the last one announced for the command's primitive (found behind
    the header word, or at the command itself), at most two frames ago; and a
    primitive just announced is found, with its anchor, by the commands of this
    frame and the next two that come before another announcement. *)
Theorem sprite_tags_faithful m (s : St) gpr4 rw (s' : St) : Tagged m s ->
  (forall ax, tag_lookup s = Some ax -> prim 4 s <> 0 -> prim 0 s <> 0 ->
     exists back st, (back = 4 \/ back = 0) /\ m !! prim back s = Some (st, ax) /\ u32 (frame s - st) <= 2) /\
  (ws_engaged s = true -> ws_anchor_addr (wide s) <> 0 -> prim 4 s' = Z.land gpr4 0x1FFFFC -> prim 4 s' <> 0 ->
     ws_tags (wide s') = ws_tags (wide (psx_ws_sprite_tag gpr4 rw s)) -> u32 (frame s' - frame s) <= 2 ->
     tag_lookup s' = Some (s16 (Z.land (rw (ws_anchor_addr (wide s))) 0xFFFF))).
Proof.
  intros HT%tagged_ok. split.
  - intros ax. rewrite tag_lookup_probe. intros Hax H4 H0.
    destruct (probe (prim 4 s) s) as [[n t]|] eqn:E4; simplify_eq.
    + destruct (probe_faithful _ _ _ _ _ HT H4 E4). exists 4, (stamp t). auto.
    + destruct (probe (prim 0 s) s) as [[n t]|] eqn:E0; simplify_eq.
      destruct (probe_faithful _ _ _ _ _ HT H0 E0). exists 0, (stamp t). auto.
  - intros He Ha Hp Hk Hs Hf. pose proof (sprite_tag_case gpr4 rw s m HT) as HT'.
    destruct (tag_stored m gpr4 rw s HT He Ha) as (i & Hi & Hin); [by rewrite <- Hp|].
    rewrite tag_lookup_probe. rewrite <- Hs in HT', Hin. rewrite <- Hp in Hin.
    change (tag_at (slot (prim 4 s') i) s' = mkTag (prim 4 s') (frame s) (s16 (Z.land (rw (ws_anchor_addr (wide s))) 0xFFFF))) in Hin.
    destruct (probe_finds (prim 4 s') i s' Hi) as [[n t] E]; [by rewrite Hin|by rewrite Hin|]. rewrite E.
    destruct (probe_faithful _ _ _ _ _ HT' Hk E) as [Hm _]. unfold announced in Hm.
    rewrite He, (proj2 (Z.eqb_neq _ 0) Ha), <- Hp, (proj2 (Z.eqb_neq _ 0) Hk) in Hm. cbn [negb orb] in Hm.
    rewrite lookup_insert_eq in Hm. injection Hm as _ Hx. by rewrite Hx.
Qed.
End Widescreen.
End GpuWide.
