(* ===== verification/GpuDemo.v ===== *)
(** * Graphics processor: concrete runs

    The theorems on the command processor and the software rasteriser applied to a
    short command stream: a fill, a triangle, an image upload with an odd number of
    pixels, its read-back, and a shaded polyline. *)

From S2P Require Import Prelude SwRenderer SwLaws SwSafety SwLines Gpu GpuSoftware GpuLaws GpuStream GpuPort GpuSnapshot GpuCalls GpuSync GpuWide.

Module GpuDemo.
Import SwRenderer SwLaws SwSafety SwLines.

(** Every allocation succeeds. *)
#[export] Instance all_memory : Heap := {| alloc_ok _ := true |}.

(** ** The rasteriser *)

Definition canvas : State := boot ∅.

Definition enhanced : list Op :=
  [SetScale 2; SetArea 0 0 319 239; FlatRect 10 10 4 4 0x1F; WideConfigure 428 54; WideTarget 0;
   EmitTile 0 (-16) 8 0 0 0 0 0 0x808080 1 2 0; SetSemi 0 0; DrawLine 0 0 5 3 0x3E0; SetModulation 128 128 128 0;
   TexturedRect 2 2 4 4 8 8 0 0 0x100].

Definition plain : list Op :=
  [SetArea 0 0 319 239; FlatRect 10 10 4 4 0x1F; SetSemi 0 0; DrawLine 0 0 5 3 0x3E0; SetModulation 128 128 128 0;
   TexturedRect 2 2 4 4 8 8 0 0 0x100].

(** With a reveal tile, after which the blending mode and the modulation are set. *)
Lemma enhancements_invisible_witness :
  same canvas canvas /\ set_up false false enhanced = true /\ same (exec_all canvas enhanced) (exec_all canvas plain) /\
  ~ same (exec_all canvas (take 6 enhanced)) (exec_all canvas (take 5 enhanced)).
Proof.
  split; [done|]. split; [reflexivity|]. split.
  - exact (proj2 (enhancements_invisible enhanced canvas canvas (reflexivity canvas) eq_refl) eq_refl eq_refl).
  - intros [_ E]. apply (f_equal g_semi_trans_mode) in E. vm_compute in E. discriminate.
Defined.

Definition fenced : State := exec_all canvas [SetArea 8 8 15 15; SetMask 1 1].

Lemma draws_are_confined_witness :
  cell (8 * 1024 + 8) (exec fenced (FlatRect 0 0 32 32 0x1F)) = 0x801F /\ cell (7 * 1024 + 8) (exec fenced (FlatRect 0 0 32 32 0x1F)) = 0 /\
  Confined (env fenced) fenced (exec fenced (FlatRect 0 0 32 32 0x1F)).
Proof.
  split_and!; [vm_compute; reflexivity|vm_compute; reflexivity|].
  apply (draws_are_confined fenced (FlatRect 0 0 32 32 0x1F)). by unfold draw, is_u16.
Defined.

Definition drawn : State := exec canvas (FlatRect 0 0 4 4 0x1F).

Lemma copy_rect_exact_witness : apart 2 2 1020 510 4 4 /\ pixel 1021 511 (sw_copy_rect 2 2 1020 510 4 4 drawn) = 0x1F.
Proof.
  assert (Ha : apart 2 2 1020 510 4 4).
  { intros row col Hr Hc. apply negb_true_iff.
    pose proof (forallb_seqZ (fun r => forallb (fun c => negb (in_rect 1020 510 4 4 ((2 + c) mod VRAM_WIDTH) ((2 + r) mod VRAM_HEIGHT))) (seqZ 0 4)) 0 4
      ltac:(vm_compute; reflexivity) row ltac:(lia)) as H. cbv beta in H.
    exact (forallb_seqZ _ 0 4 H col ltac:(lia)). }
  split; [exact Ha|]. rewrite (copy_rect_exact 2 2 1020 510 4 4 drawn 1021 511); [vm_compute; reflexivity|done|done|exact Ha|done|done].
Defined.

(** ** The processor *)

Import GpuSoftware GpuLaws GpuStream GpuPort.

Abbreviation Machine := (Gpu.State Video).

(** The environment: area, offset, mask bits and texture window. *)
Definition setup : list Z := [0xE2000000; 0xE3000000; 0xE403BD3F; 0xE5000000; 0xE6000000].

Definition items : list Item :=
  map (fun v => Command [v]) setup ++
  [ Command [0x02FF0000; 0x00000000; 0x00080010];
    Command [0x200000FF; 0x00000000; 0x00000006; 0x00060000];
    Image [0xA0000000; 0x01FF03FF; 0x00010003] [0x22221111; 0x00003333];
    ShadedLines 0x58FFFFFF 0x00000000 [(0x000000FF, 0x00030003)] 0x55555555;
    Lines 0x48FFFFFF 0x00000000 [0x00000004; 0x00040004] 0x55555555 ].

(** The processor once the stream has been written, then read. *)
Definition session : list (GpuLaws.Op (W:=Video)) :=
  map Gp0 (concat (map words items)) ++ [Gp0 0xC0000000; Gp0 0x01FF03FF; Gp0 0x00010003; ReadData; ReadData; ReadStat; Vblank; Gp1 0x05000000].

Definition setup_ops : list (GpuLaws.Op (W:=Video)) := map Gp0 setup.
Definition finish (ops : list (GpuLaws.Op (W:=Video))) (s : Machine) : Machine := default s (GpuLaws.run ops s).
Definition ready : Machine := finish setup_ops power_on.
Definition played : Machine := finish session ready.

Lemma power_on_inv : Inv power_on.
Proof. apply reset_inv, start_inv. Qed.

(** Words, reads and blanks without a reset. *)
#[local] Ltac each := repeat (apply Forall_cons; split; [by cbn; unfold is_u32; first [lia|reflexivity]|]); by apply Forall_nil.

Lemma setup_guest : Forall GpuCalls.guest setup_ops.
Proof. unfold setup_ops, setup. cbn [map]. each. Qed.
Lemma session_guest : Forall GpuCalls.guest session.
Proof. unfold session, items, setup. cbn. each. Qed.
Lemma session_no_reset : Forall (fun o => GpuSync.resets o = false) session.
Proof. unfold session, items, setup. cbn. each. Qed.

Lemma ready_run : GpuLaws.run setup_ops power_on = Some ready.
Proof. vm_compute. reflexivity. Qed.
Lemma played_run : GpuLaws.run session ready = Some played.
Proof. vm_compute. reflexivity. Qed.
Lemma session_run : GpuLaws.run (setup_ops ++ session) power_on = Some played.
Proof. vm_compute. reflexivity. Qed.

Lemma typed_all (ops : list (GpuLaws.Op (W:=Video))) : Forall GpuCalls.guest ops -> Forall GpuLaws.typed ops.
Proof. intros Hg. eapply Forall_impl; [done|]. apply GpuCalls.guest_typed. Qed.
Lemma ready_inv : Inv ready.
Proof. exact (run_inv _ _ _ (typed_all _ setup_guest) power_on_inv ready_run). Qed.
Lemma played_inv : Inv played.
Proof. exact (run_inv _ _ _ (typed_all _ session_guest) ready_inv played_run). Qed.

Lemma gpu_reachable_safe_witness :
  GpuLaws.run (setup_ops ++ session) power_on = Some played /\ Inv played.
Proof.
  split; [exact session_run|]. apply (gpu_reachable_safe (mkVideo (mkState ∅ env0 shadow0) [] 0 0 0) (setup_ops ++ session)).
  - apply typed_all, Forall_app. split; [exact setup_guest|exact session_guest].
  - exact session_run.
Defined.

(** The host doubles the resolution, the configuration is native-wide 16:9, and the
    guest's first rectangle, from the packet at 0x80100010, is a tagged one: it is
    drawn to video memory, to the mirror and, stretched, to the wide surface. *)
Definition wide_settings : Gpu.Wide :=
  Gpu.wide (Gpu.psx_ws_sprite_tag 0x80100010 (fun _ => 0) (Gpu.gpu_ws_configure 16 9 0x1F8000A0 false 2 power_on)).

Definition wide_session : list (GpuLaws.Op (W:=Video)) :=
  [Elsewhere (on_screen (sw_renderer_set_scale 2)); Reconfigure wide_settings; Gp1 0x05000000] ++ setup_ops ++
  [Source 0x100014; Gp0 0x60FFFFFF; Source 0x100018; Gp0 0x00100008; Source 0x10001C; Gp0 0x00020002].

Definition widened : Machine := finish wide_session power_on.

Lemma wide_session_run : GpuLaws.run wide_session power_on = Some widened.
Proof. vm_compute. reflexivity. Qed.

Lemma wide_session_played : Forall (GpuCalls.played GpuCalls.Calls) wide_session.
Proof.
  unfold wide_session, setup_ops, setup. cbn [map app]. repeat (apply Forall_cons; split).
  1: { intros v. by apply (GpuCalls.call_one (SetScale 2)). }
  all: try (by cbn; unfold is_u32; first [lia|reflexivity]). by apply Forall_nil.
Qed.

#[local] Existing Instance GpuCalls.counting_calls.

Lemma guest_words_memory_safe_witness :
  Mem (screen (Gpu.world widened)) /\ g_ws_bd_stretch_on (shadow (screen (Gpu.world power_on))) = true /\
  bd_on (wide_bd_get (screen (Gpu.world widened))) = true /\ cell (16 * 1024 + 8) (screen (Gpu.world widened)) = 0x7FFF /\
  hr_get (32 * 2048 + 16) (screen (Gpu.world widened)) = 0x7FFF.
Proof.
  split; [exact (proj2 (GpuCalls.guest_words_memory_safe wide_session widened wide_session_played wide_session_run))|].
  by vm_compute.
Defined.

Lemma registers_mirrored_witness :
  GpuSync.Mirrored played /\ Gpu.draw_area_right (Gpu.mode played) = 319 /\
  g_clip_x2 (env (screen (Gpu.world (Gpu.gp1_reset played)))) = 1023 /\ ~ GpuSync.Mirrored (Gpu.gp1_reset played).
Proof.
  assert (Hm : GpuSync.Mirrored ready) by (vm_compute; reflexivity).
  destruct (GpuSync.registers_mirrored session ready played ready_inv Hm session_guest session_no_reset played_run) as [H Hr].
  split_and!; [exact H|vm_compute; reflexivity|reflexivity|]. apply (Hr (Gp1 0)); reflexivity.
Defined.

Lemma gp0_stream_refines_witness :
  stream (concat (map words items)) power_on = run_items items power_on /\
  match run_items items power_on with Some s => cell 0 (screen (Gpu.world s)) | None => 0 end = 0x7FFF.
Proof.
  assert (Hok : Forall ItemOk items).
  { unfold items, setup. cbn [map app]. repeat (apply Forall_cons; split).
    all: try (by apply Forall_nil).
    all: split_and!; try reflexivity; try (eexists _, _; split; reflexivity); repeat constructor. }
  assert (Hw : Forall is_u32 (concat (map words items))) by (unfold items, setup; cbn; each).
  split; [|vm_compute; reflexivity]. apply (gp0_stream_refines items power_on Hok Hw power_on_inv). reflexivity.
Defined.

Lemma gp0_halts_exactly_witness : Inv ready /\ Gpu.gpu_write_gp0 0x1F000000 ready = None.
Proof. split; [exact ready_inv|]. apply (gp0_halts_exactly 0x1F000000 ready ready_inv). by split; vm_compute. Defined.

#[local] Existing Instance GpuSync.software_vram.

Lemma image_readback_witness :
  exists s', stream ([0xA0000000; 0x01FF03FF; 0x00010003] ++ [0x22221111; 0x44443333] ++ [0xC0000000; 0x01FF03FF; 0x00010003]) ready = Some s' /\
    aget (reads 2 s').1 0 = 0x22221111 /\ aget (reads 2 s').1 1 = 0x3333.
Proof.
  pose proof (image_readback [0xA0000000; 0x01FF03FF; 0x00010003] [0x22221111; 0x44443333] [0xC0000000; 0x01FF03FF; 0x00010003] ready
    ready_inv eq_refl eq_refl eq_refl) as P. cbv zeta in P.
  destruct P as (s' & w0 & Hs & _ & P).
  - split_and!; [by eexists _, _|reflexivity|reflexivity].
  - by eexists _, _.
  - reflexivity.
  - reflexivity.
  - each.
  - exists s'. split; [exact Hs|]. cbn [length] in P. destruct (reads 2 s') as [out s'']. destruct P as (_ & _ & _ & P).
    specialize (P (fun k _ => eq_refl)). split; [exact (P 0 ltac:(lia))|exact (P 1 ltac:(lia))].
Defined.

#[local] Existing Instance Gpu.eta_State.

Lemma gpustat_polling_witness :
  polls 5 ready = ready <| Gpu.gpustat_poll_count := 5 |> /\ (Gpu.gpu_read_gpustat (polls 5 ready)).1 = 0x14800000 /\
  (Gpu.gpu_read_gpustat (polls 999 ready)).1 = 0x94800000.
Proof.
  pose proof (gpustat_polling 5 ready ready_inv ltac:(vm_compute; reflexivity)) as [H1 [H2 [H3 _]]]. split; [exact H1|].
  split; [exact (H2 ltac:(vm_compute; reflexivity))|].
  change (polls 999 ready) with (polls (Z.to_nat (1000 - 0 - 1)) ready). exact H3.
Defined.

Lemma info_reads_back_witness :
  exists s1 s2, Gpu.gpu_write_gp0 0xE53FFC01 ready = Some s1 /\ Gpu.gpu_write_gp1 0x10000005 s1 = Some s2 /\
    (Gpu.gpu_read_gpuread s2).1 = 0x3FFC01.
Proof.
  destruct (info_reads_back 0xE53FFC01 ready ready_inv) as (s1 & s2 & H1 & H2 & _ & H3 & _);
    [reflexivity|unfold is_u32; lia|split; vm_compute; discriminate|].
  exists s1, s2. split; [exact H1|]. split; [exact H2|]. exact (H3 eq_refl).
Defined.

Lemma gpu_snapshot_restores_witness :
  Gpu.gpu_snapshot_read (Gpu.gpu_snapshot_write played) power_on = (true, GpuSnapshot.restored played power_on) /\
  GpuSnapshot.restored played power_on <> power_on.
Proof.
  split; [apply (GpuSnapshot.gpu_snapshot_restores played power_on played_inv); reflexivity|].
  intros H. apply (f_equal (fun s => Gpu.draw_area_right (Gpu.mode s))) in H. vm_compute in H. discriminate.
Defined.

(** ** Widescreen *)

(** Squash mode for 16:9; a character at 0x80100010 announced at column 100; the
    command of its primitive, one header word further. *)
Definition squashed : Machine := Gpu.gpu_ws_configure 16 9 0x1F8000A0 false 1 (Gpu.start (mkVideo (mkState ∅ env0 shadow0) [] 0 0 0)).
Definition announce (s : Machine) : Machine := Gpu.psx_ws_sprite_tag 0x80100010 (fun _ => 0x00200064) s.
Definition executing : Machine :=
  default squashed (Gpu.gpu_write_gp0 0xE1000000 (Gpu.gpu_set_gp0_source 0x100014 (announce squashed))).

Lemma sprite_tags_faithful_witness :
  GpuWide.Tagged ∅ squashed /\ GpuWide.prim 4 executing <> 0 /\ Gpu.tag_lookup executing = Some 100 /\
  exists back st, (back = 4 \/ back = 0) /\
    GpuWide.announced 0x80100010 (fun _ => 0x00200064) squashed ∅ !! GpuWide.prim back executing = Some (st, 100) /\
    u32 (Gpu.frame executing - st) <= 2.
Proof.
  assert (GpuWide.Tagged ∅ squashed) as Ht by (by apply (GpuWide.tagged_other ∅ (Gpu.start (mkVideo (mkState ∅ env0 shadow0) [] 0 0 0))); [apply GpuWide.tagged_start|]).
  assert (GpuWide.prim 4 executing <> 0) as Hp by (vm_compute; discriminate).
  assert (Gpu.tag_lookup executing = Some 100) as Hl.
  { apply (GpuWide.sprite_tags_faithful ∅ squashed 0x80100010 (fun _ => 0x00200064) executing Ht);
      [done|done|vm_compute; reflexivity|exact Hp|done|vm_compute; discriminate]. }
  split; [exact Ht|]. split; [exact Hp|]. split; [exact Hl|].
  apply (GpuWide.sprite_tags_faithful (GpuWide.announced 0x80100010 (fun _ => 0x00200064) squashed ∅) executing 0 (fun _ => 0) executing).
  - apply (GpuWide.tagged_other _ (announce squashed)); [exact (GpuWide.tagged_tag ∅ squashed 0x80100010 (fun _ => 0x00200064) Ht)|done].
  - exact Hl.
  - exact Hp.
  - vm_compute. discriminate.
Defined.

End GpuDemo.
